(* ===== verification/_CoqProject ===== *)
-Q . S2P
Prelude.v
Enc28Regs.v
Enc28Driver.v
Enc28Device.v
Enc28Spec.v
Enc28Hoare.v
Enc28Init.v
Enc28Transmit.v
Enc28Receive.v
Enc28Control.v
Enc28Sim.v
App.v
AppTyping.v
LwipChksum.v
LwipChksumPartial.v
Ping.v
PingTask.v
Heap4.v
Heap4Proofs.v
Heap4Malloc.v
Heap4Free.v
Queue.v
QueueProofs.v
Heap4Calloc.v
QueueSpec.v
QueueBlocking.v
QueueApp.v
KernelList.v
KernelListProofs.v
Netif.v
NetifProofs.v
Etharp.v
EtharpTable.v
EtharpProofs.v
EtharpInput.v
Ip4.v
Ip4Chksum.v
Ip4Proofs.v
Ip4Session.v
Timeouts.v
TimeoutsProofs.v
LinkFrames.v
Host.v
Tasks.v
TasksProofs.v
AppStart.v
AppStartProofs.v
Sched.v
SchedProofs.v
SchedLists.v
SchedSwitch.v
SchedBlock.v
SchedGive.v
SchedEvents.v
SchedNotify.v
SchedStart.v
SchedDelay.v
SchedTimeout.v
SchedQueue.v
SchedApp.v
System.v
SystemProofs.v
Whole.v
WholeProofs.v
WholeExample.v
WholeDeadlock.v
