(* ===== verification/Prelude.v ===== *)
(** A verification of the network stack for STM32 and the ENC28J60 Ethernet controller.

    * The program

    [src/enc28j60] is a driver for the ENC28J60, written against three SPI callbacks. [src/stm32_app] is an
    application on FreeRTOS and lwIP: at its start it brings up the device and creates two tasks; the packet
    task moves frames between the device and a pool of eight packet buffers, the IP task moves them between
    the pool and lwIP; three FreeRTOS queues of buffer pointers connect the two. [src/third_party] holds
    FreeRTOS and lwIP, of which the functions the application depends on are modelled too.

    * Computations

    C code is a computation [prog S A] over an explicit state [S] (this file): it ends with a result and a
    state ([Done]), has undefined behaviour ([Undefined]), stops in an endless loop, as a failed
    [configASSERT] or [ASSERT_STATUS] does ([Halted]), or has used up the iterations a loop was given
    ([OutOfFuel]). Unsigned integers are integers in range, reduced where C reduces them. Pointers into
    memory the model has are addresses, or buffers passed by value; pointer arguments that may be [NULL] are
    options.

    * The parts

    - The driver. [Enc28Regs] has the constants and types of [enc28j60.h], [Enc28Driver] every function of
      [enc28j60.c], over the driver's static variable and an arbitrary world reached through the callbacks.
      The device is not part of the program. [Enc28Device] states what the driver relies on: a class that
      relates the world to an abstract chip (registers, the stable bytes of the packet memory, PHY, frames
      sent, packets arrived and released) and says, for each kind of SPI exchange, what the chip may answer
      and how it may change, following the data sheet; where the data sheet leaves the moment open (clock
      ready, PHY busy, transmission finished, packet flags), so does the class. It does not follow the
      errata of silicon revision B7, which are listed in [Enc28Device] with those the driver works around:
      what is proved of the driver is about a device without the others. [Enc28Spec] has what the register
      functions do to such a chip, [Enc28Hoare] a small program logic for straight-line driver code. The
      functions are proved in [Enc28Init], [Enc28Transmit], [Enc28Receive] and [Enc28Control] for every
      conforming device. [Enc28Sim] is a simulator that conforms, so the class is not empty; the instances
      of the theorems are on it.
    - The tasks. [App] is the packet task ([eth_packet_task.c]) and the IP task ([ip_stack_task.c], lwIP
      build) as a transition system, one transition per queue operation, call into the driver, or call of
      lwIP into the application, which may alternate freely: more than the scheduler does, so what holds in
      all executions holds in those of the program. lwIP and the driver are its environment; what an
      execution asks of them is a predicate on its steps ([reachable]), such as that lwIP frees an input
      buffer before its input function returns ([frees_promptly]). The copies of packets are not guarded, as
      in the code: a copy beyond its buffer is recorded ([overrun]). [AppTyping] has the well-formedness of
      the buffers, and that no copy leaves one. [Ping] ([enc28_debug.c]) and [PingTask] are the build
      without lwIP.
    - The system. [System] puts the tasks, the driver and the device together: a driver call of the packet
      task runs the driver on the device, and a frame arrives by being stored in the receive ring. When a
      read reports a receive error the packet task goes on, and the error is counted. [SystemProofs] shows
      that the composition carries packets in both directions, up to the first receive error.
    - The start. [AppStart] is [enc28_test_app] with everything it calls ([stm32_network_app.c]);
      [AppStartProofs] shows what it leaves: the state [System] starts from.
    - FreeRTOS. [Heap4], [Heap4Proofs], [Heap4Malloc], [Heap4Free]: the allocator [heap_4.c], over the block
      headers in memory, against a list of segments; [Heap4Calloc]: [pvPortCalloc], over the bytes between
      them too. [Queue], [QueueProofs], [QueueSpec], [QueueBlocking]: [queue.c], over the bytes of the
      storage area, against lists; [QueueApp] shows that the queues [App] uses are implemented by these.
      [KernelList], [KernelListProofs]: [list.c]. [Tasks], [TasksProofs]: task creation and the start of the
      scheduler ([tasks.c], [port.c]). [Sched]: the scheduler while it runs ([tasks.c], the macros of
      [list.h] and [portmacro.h]): ticks, suspending and resuming, the choice of the next task, blocking,
      event lists, notifications. [SchedProofs] has its invariant, the tick and the resumption, [SchedLists]
      the implementation of its lists by [KernelList], [SchedSwitch] the choice, [SchedBlock] blocking,
      [SchedGive] a notification, [SchedEvents] event lists, [SchedNotify] tasks that wait for notifications
      as a system with interrupts, [SchedStart] the states it starts from, [SchedApp] the one the
      application starts from. [SchedTimeout] has the time-outs of calls that wait, [SchedDelay] the delays;
      [SchedQueue] puts the queues of [Queue] on the scheduler: the event lists, priorities and time-outs
      that are parameters of [Queue] are the scheduler's.
    - lwIP. [LwipChksum], [LwipChksumPartial]: byte order and checksums ([def.c], [inet_chksum.c]). [Netif],
      [NetifProofs]: the start of the IP task, adding an interface and routing ([netif.c], [ip4.c]).
      [Etharp]: address resolution ([etharp.c]), over the table of addresses and the frames handed to the
      interfaces; [EtharpTable] has the invariant of the table and what the search finds and recycles,
      [EtharpProofs] what every function does, [EtharpInput] what follows over time. [Ip4]: the reception of
      frames, IPv4 and ICMP ([ethernet.c], [ip4.c], [icmp.c]) on top of it; [Ip4Chksum] has the headers and
      checksums it writes, [Ip4Proofs] what is answered, reported, dropped and sent, [Ip4Session] a host
      that resolves the address and pings. [LinkFrames]: what lwIP sends are frames of bytes with an
      Ethernet header, no longer than the MTU allows. [Timeouts], [TimeoutsProofs]: the timers
      ([timeouts.c]) and [sys_now], over any handlers that return.
    - The whole. [Host] is lwIP as the IP task runs it: the input function of its interface, and the timers
      with the handler of address resolution; what remains open is a record, [environment] (memory, the
      tick, UDP, TCP, reassembly, fragmentation and their timers). [Whole] puts it into [System]: the calls
      lwIP makes into the application are the frames it sends, and the buffers it frees: each before its
      input function returns, but a fragment of an IP packet, which reassembly may keep, at any later time.
      [WholeProofs] has the invariant and what follows end to end, as long as no read has reported a receive
      error and no fragment has arrived ([undisturbed]). [WholeExample] is a run on the simulated device,
      evaluated: a host asks for the address and pings, and the device sends the two answers.
      [WholeDeadlock] is one under the switching of the scheduler ([cooperative]) that ends in a deadlock.

    * What the theorems show

    - End to end: the frames that have arrived are, in order, those handed to lwIP, those in the queue, in
      hand, and in the ring; the frames sent are the packets accepted, each with one byte too many
      ([SystemProofs.system_carries_packets]); driver calls return, and what the device answers decides how
      the packet task goes on: only a transmission in progress stops it ([packet_task_calls_return]). Both
      hold up to the first receive error, if frames free of errors arrive that fit the buffers and the ring.
    - The whole: the state of lwIP is always that after calls on the frames that have arrived, in order, and
      what the device sends is a part of what lwIP sends in them ([WholeProofs.whole_system_refines]); the
      IP task always comes back for the next packet ([ip_task_drains]) and answers pings
      ([ping_is_answered]), in whatever order it sends and frees; it looks at the timers only after a
      packet, so a silence, from a second to eleven days, ages the address table by one tick
      ([Host.arp_ages_once]).
    - Driver: initialisation, transmission, reception and its refusals, identification, soft reset, for any
      conforming device and any answers it may give.
    - Tasks: every buffer is in one place; the packets keep their order; buffers keep their size and type;
      what stops the packet task ([App.packet_task_progress]). Two ways in which the design breaks are
      exhibited: a deadlock ([WholeDeadlock.tasks_deadlock]), and a duplicated buffer when lwIP keeps a
      packet ([App.retained_buffer_duplicated]).
    - Start: [enc28_test_app] gets from reset to the first task; an interrupt before the packet task exists
      stops the system.
    - FreeRTOS: allocation is first fit, freeing merges, and the two are inverse; [pvPortCalloc] clears the
      block it returns and nothing else, and refuses a product that overflows; queues are first in, first
      out under every interleaving of critical sections, with no lost wakeup, and blocking calls return;
      task creation.
    - The scheduler: the linked lists in memory implement its lists ([SchedLists.lists_implemented]); a tick
      wakes exactly the tasks whose time has come, across the wrap-around of the tick count
      ([SchedProofs.xTaskIncrementTick_wakes]); the tasks of the highest priority take turns
      ([SchedSwitch.tasks_take_turns]); a task that waits for a notification with a time limit is ready
      exactly if it has one or the limit has passed, wherever ticks, interrupts and switches fall
      ([SchedNotify.notified_or_timed_out]), and no function of the scheduler fails meanwhile, in particular
      from the state [enc28_test_app] leaves ([SchedApp.app_tasks_run]).
    - Waiting in a queue: the time-out of a call is its deadline in absolute time, however often it has been
      adjusted ([SchedTimeout.time_out_at_deadline]); a task that went to sleep in a queue is ready after
      the resumption of the scheduler exactly if it was woken or its time is over
      ([SchedQueue.waits_on_kernel]).
    - Delays: a task that delays itself is ready again at the time it asked for, and a task that calls
      [xTaskDelayUntil] over and over keeps its rhythm, across the wrap-around of the tick count
      ([SchedDelay.vTaskDelay_delays], [SchedDelay.xTaskDelayUntil_rhythm]).
    - lwIP: the three checksum algorithms agree with each other and with the sum over the chain; a stored
      checksum verifies; an interface started by the IP task is up but has no route; the address table stays
      consistent under any calls, requests are answered, a packet for an unknown host is sent once the host
      answers, and entries expire; the reception of a frame returns, malformed packets are dropped, echo
      requests are answered with valid checksums, and a host that asks for the address and then pings, with
      no frame in between, gets the reply in a frame of its own; checking the timers calls those that are
      due, in order, and returns, across the wrap-around of the tick, and cyclic timers keep their rhythm.

    * Fuel

    Only loops that wait or search have fuel. The driver polls ESTAT and MISTAT; a device that becomes ready
    within [clk_bound] and [mii_bound] reads is served by any larger fuel. The loops of [heap_4.c] walk a
    list of free blocks: the heap has 75 KiB and blocks of at least 16 bytes, so 4800 iterations are enough,
    which is proved. The loops of the blocking queue calls are bounded by the wait: [QueueBlocking] shows
    that they return for every fuel above the time they expire. [sys_check_timeouts] runs at most five
    handlers, so six iterations are enough ([sys_check_timeouts_checks]).

    * Not modelled

    The STM32 HAL and the wiring of interrupts (not in the repository). Of FreeRTOS: changing priorities,
    suspending and deleting tasks, the saving of registers in a switch, timers, event groups, stream
    buffers, mutexes and queue sets, co-routines. [Sched] and [App] are not composed: [App] lets any task
    that can run do so, and [WholeDeadlock] restricts a run to the switches of the scheduler. In [Sched] a
    list of tasks is the sequence of its items, and the count of tick overflows is not bounded. [SchedQueue]
    composes the parts of a call that waits with the scheduler; the loop around them is that of [Queue],
    whose theorems hold for any results of the time-out check. Of lwIP: UDP, TCP, reassembly and
    fragmentation, parameters of [Ip4] that the theorems ask to return; forwarding, groups, raw sockets,
    IPv6. The packets [Etharp] and [Ip4] handle are byte lists, so who owns their buffers is not part of it;
    in [Whole] an input buffer is freed once: by the end of its input function, or for a fragment at any
    later time. Of [sys_check_timeouts], freeing the out-of-order data of TCP connections when memory is
    short (PBUF_CHECK_FREE_OOSEQ) is left out. Frames shorter than 42 bytes, which Ethernet does not
    deliver, do not arrive in [Whole]. Printing, the stack watermark checks and trace macros are left out.
    After a receive error [System] goes on, but the theorems about it and [Whole] do not: the recovery of
    the driver, which [Enc28Receive] describes, leaves the ring and the read pointer out of step. *)
From Stdlib Require Import ZArith Lia Bool.
From stdpp Require Export base decidable list gmap.

#[global] Open Scope Z_scope.

(** * Notations

    Everything the development writes the way the C code writes it lives in one scope. *)

Declare Scope c_scope.
Delimit Scope c_scope with C.

(** ** Fixed-width unsigned integers

    A value of a C unsigned type is a [Z] in range; an assignment to a narrower type reduces
    modulo its width. *)

Definition u8 (z : Z) : Z := z mod 256.
Definition u16 (z : Z) : Z := z mod 65536.
Definition u32 (z : Z) : Z := z mod 4294967296.

Definition is_u8 (z : Z) : Prop := 0 <= z < 256.
Definition is_u16 (z : Z) : Prop := 0 <= z < 65536.
Definition is_u32 (z : Z) : Prop := 0 <= z < 4294967296.

Infix ".&" := Z.land (at level 40, left associativity) : c_scope.
Infix ".|" := Z.lor (at level 41, left associativity) : c_scope.

(** The C truth value of an integer expression. *)
Definition truth (z : Z) : bool := negb (z =? 0).

(** [1 << n] *)
Definition bit (n : Z) : Z := Z.shiftl 1 n.

#[global] Open Scope c_scope.

(** * Computations

    A C function is a state transformer that can end in three ways besides returning: undefined
    behaviour (a call through a null function pointer, a null dereference, an access outside an
    object), an intentional endless loop ([for(;;);], the failure branch of the assertion macros),
    or the exhaustion of the iteration bound given to a polling loop. *)

Inductive outcome (S A : Type) : Type :=
| Done (a : A) (s : S)
| Undefined
| Halted
| OutOfFuel.
Arguments Done {S A} a s.
Arguments Undefined {S A}.
Arguments Halted {S A}.
Arguments OutOfFuel {S A}.

Definition prog (S A : Type) : Type := S -> outcome S A.

Section prog.
Context {S A B : Type}.

Definition ret (a : A) : prog S A := fun s => Done a s.

Definition bind (m : prog S A) (k : A -> prog S B) : prog S B := fun s =>
  match m s with
  | Done a s' => k a s'
  | Undefined => Undefined
  | Halted => Halted
  | OutOfFuel => OutOfFuel
  end.

Definition undefined : prog S A := fun _ => Undefined.
Definition halt : prog S A := fun _ => Halted.
Definition out_of_fuel : prog S A := fun _ => OutOfFuel.
End prog.

Definition get {S} : prog S S := fun s => Done s s.
Definition modify {S} (f : S -> S) : prog S unit := fun s => Done tt (f s).

(** The assertion macro of the FreeRTOS configuration: interrupts off, endless loop. *)
Definition configASSERT {S} (b : bool) : prog S unit := if b then ret tt else halt.

Notation "x <- m ;; k" := (bind m (fun x => k))
  (at level 100, m at next level, k at level 200, right associativity) : c_scope.
Notation "' p <- m ;; k" := (bind m (fun p => k))
  (at level 20, p pattern, m at level 99, k at level 200) : c_scope.
Notation "m ;; k" := (bind m (fun _ => k))
  (at level 100, k at level 200, right associativity) : c_scope.

(** Passing the address of a local variable: the callee gets a non-null pointer to the variable,
    modelled by the value it holds, and leaves a new value in it. *)
Definition byref {S R A} (f : option A -> prog S (R * option A)) (a : A) : prog S (R * A) :=
  r <- f (Some a) ;;
  match r with
  | (st, Some a') => ret (st, a')
  | (_, None) => undefined
  end.

(** * Total correctness

    [triple P m Q]: started in a state of [P], the computation [m] returns, and its result and
    final state satisfy [Q]. *)

Definition triple {S A} (P : S -> Prop) (m : prog S A) (Q : A -> S -> Prop) : Prop :=
  forall s, P s -> exists a s', m s = Done a s' /\ Q a s'.

Create HintDb triples.

Section triple_rules.
Context {S A B : Type}.
Implicit Types (P : S -> Prop).

Lemma triple_ret P (a : A) (Q : A -> S -> Prop) :
  (forall s, P s -> Q a s) -> triple P (ret a) Q.
Proof. intros H s Hs. exists a, s. split; [reflexivity | auto]. Qed.

Lemma triple_bind P (m : prog S A) (k : A -> prog S B) (R : A -> S -> Prop) Q :
  triple P m R -> (forall a, triple (R a) (k a) Q) -> triple P (bind m k) Q.
Proof.
  intros Hm Hk s Hs. destruct (Hm s Hs) as (a & s' & E & HR).
  unfold bind. rewrite E. exact (Hk a s' HR).
Qed.

Lemma triple_conseq (P P' : S -> Prop) (m : prog S A) (Q Q' : A -> S -> Prop) :
  triple P' m Q' -> (forall s, P s -> P' s) -> (forall a s, Q' a s -> Q a s) ->
  triple P m Q.
Proof.
  intros H HP HQ s Hs. destruct (H s (HP s Hs)) as (a & s' & E & HQ').
  exists a, s'. auto.
Qed.

Lemma triple_pure P (p : Prop) (m : prog S A) Q :
  (p -> triple P m Q) -> triple (fun s => p /\ P s) m Q.
Proof. intros H s [Hp Hs]. exact (H Hp s Hs). Qed.

Lemma triple_exists {X} (P : X -> S -> Prop) (m : prog S A) Q :
  (forall x, triple (P x) m Q) -> triple (fun s => exists x, P x s) m Q.
Proof. intros H s [x Hs]. exact (H x s Hs). Qed.

Lemma bind_done (m : prog S A) (k : A -> prog S B) a s s' :
  m s = Done a s' -> bind m k s = k a s'.
Proof. intros E. unfold bind. now rewrite E. Qed.
End triple_rules.

Lemma triple_ext {S A} (P : S -> Prop) (m m' : prog S A) Q :
  (forall s, m s = m' s) -> triple P m' Q -> triple P m Q.
Proof. intros E H s Hs. rewrite E. exact (H s Hs). Qed.

Section triple_sequences.
Context {S A B X1 X2 X3 : Type}.

(** A run of four calls taken as one step. *)
Lemma triple_seq4 P (m1 : prog S X1) (m2 : prog S X2) (m3 : prog S X3) (m4 : prog S A)
  (k : A -> prog S B) R Q :
  triple P (m1 ;; m2 ;; m3 ;; m4) R -> (forall a, triple (R a) (k a) Q) ->
  triple P (m1 ;; m2 ;; m3 ;; bind m4 k) Q.
Proof.
  intros Hm Hk. apply triple_ext with (bind (m1 ;; m2 ;; m3 ;; m4) k).
  - intros s. unfold bind. destruct (m1 s) as [? s1 | | |]; [| reflexivity..].
    destruct (m2 s1) as [? s2 | | |]; [| reflexivity..].
    destruct (m3 s2) as [? s3 | | |]; reflexivity.
  - exact (triple_bind _ _ _ _ _ Hm Hk).
Qed.
End triple_sequences.


(** * Integers

    ** Deciding a property of a small range by running it *)

Definition zrange (n : nat) : list Z := Z.of_nat <$> seq 0 n.

Lemma zrange_forallb (n : nat) (f : Z -> bool) z :
  forallb f (zrange n) = true -> 0 <= z < Z.of_nat n -> f z = true.
Proof.
  intros H Hz. rewrite forallb_forall in H. apply H.
  apply list_elem_of_In, list_elem_of_fmap.
  exists (Z.to_nat z). split; [lia | apply elem_of_seq; lia].
Qed.

(** ** Bytes and half-words *)

Lemma land_low_small (n x : Z) : 0 <= n -> 0 <= x < 2 ^ n -> x .& Z.ones n = x.
Proof. intros Hn Hx. rewrite Z.land_ones by lia. apply Z.mod_small. lia. Qed.

Lemma u8_small z : is_u8 z -> u8 z = z.
Proof. intros H. apply Z.mod_small. exact H. Qed.

Lemma u16_small z : is_u16 z -> u16 z = z.
Proof. intros H. apply Z.mod_small. exact H. Qed.

Lemma u8_range z : is_u8 (u8 z).
Proof. apply Z.mod_pos_bound. lia. Qed.

Lemma u16_range z : is_u16 (u16 z).
Proof. apply Z.mod_pos_bound. lia. Qed.

Lemma land_ff z : z .& 0xFF = u8 z.
Proof. change 0xFF with (Z.ones 8). now rewrite Z.land_ones. Qed.

Lemma lor_disjoint_add a b n : 0 <= n -> 0 <= b < 2 ^ n -> Z.shiftl a n .| b = a * 2 ^ n + b.
Proof.
  intros Hn Hb.
  assert (E : Z.shiftl a n .& b = 0).
  { apply Z.bits_inj'. intros i Hi. rewrite Z.land_spec, Z.bits_0.
    destruct (Z.lt_ge_cases i n) as [L | L].
    - rewrite Z.shiftl_spec_low by lia. reflexivity.
    - rewrite (Z.testbit_eqb b i) by lia.
      rewrite Z.div_small; [apply andb_false_r |].
      split; [lia |]. apply Z.lt_le_trans with (2 ^ n); [lia |]. apply Z.pow_le_mono_r; lia. }
  rewrite <- Z.lxor_lor by exact E. rewrite <- Z.add_nocarry_lxor by exact E.
  rewrite Z.shiftl_mul_pow2 by lia. reflexivity.
Qed.

Lemma byte_pair a b : is_u8 b -> Z.shiftl a 8 .| b = a * 256 + b.
Proof. intros H. rewrite lor_disjoint_add; [reflexivity | lia |]. exact H. Qed.

Lemma shiftr8 z : Z.shiftr z 8 = z / 256.
Proof. now rewrite Z.shiftr_div_pow2. Qed.

(** A half-word split into its bytes and back. *)
Lemma u16_hi_lo z : is_u16 z -> Z.shiftl (Z.shiftr z 8) 8 .| (z .& 0xFF) = z.
Proof.
  intros H. rewrite land_ff, byte_pair by apply u8_range. rewrite shiftr8. unfold u8.
  pose proof (Z.div_mod z 256). lia.
Qed.

Lemma shiftr8_pair a b : is_u8 b -> Z.shiftr (Z.shiftl a 8 .| b) 8 = a.
Proof.
  intros H. rewrite byte_pair by exact H. rewrite shiftr8.
  rewrite Z.div_add_l by lia. rewrite Z.div_small; [lia | exact H].
Qed.

Lemma land_ff_pair a b : is_u8 b -> (Z.shiftl a 8 .| b) .& 0xFF = b.
Proof.
  intros H. rewrite byte_pair by exact H. rewrite land_ff. unfold u8.
  rewrite Z.add_comm, Z.mod_add by lia. apply Z.mod_small. exact H.
Qed.

Lemma pair_is_u16 a b : is_u8 a -> is_u8 b -> is_u16 (Z.shiftl a 8 .| b).
Proof. intros Ha Hb. rewrite byte_pair by exact Hb. unfold is_u8, is_u16 in *. lia. Qed.

Lemma land_lnot_sub v w m n :
  v .& Z.lnot m = w .& Z.lnot m -> Z.lnot m .& n = n -> v .& n = w .& n.
Proof.
  intros E Hn. rewrite <- Hn. rewrite !Z.land_assoc. now rewrite E.
Qed.

(** Testing one bit with a mask. *)
Lemma truth_bit v n : 0 <= n -> truth (v .& bit n) = Z.testbit v n.
Proof.
  intros Hn. unfold truth, bit. rewrite Z.shiftl_1_l.
  destruct (Z.testbit v n) eqn:E.
  - apply negb_true_iff, Z.eqb_neq. intros H0.
    assert (Hb : Z.testbit (v .& 2 ^ n) n = false) by (rewrite H0; apply Z.bits_0).
    rewrite Z.land_spec, E, Z.pow2_bits_true in Hb by exact Hn. discriminate.
  - apply negb_false_iff, Z.eqb_eq. apply Z.bits_inj'. intros i Hi.
    rewrite Z.land_spec, Z.bits_0, Z.pow2_bits_eqb by exact Hn.
    destruct (Z.eqb_spec n i) as [<- | _]; [rewrite E; reflexivity | apply andb_false_r].
Qed.
