(* ===== verification/Enc28Regs.v ===== *)
(** The constants, result codes and data types of [enc28j60/enc28j60.h].

    Register numbers, bit numbers and customisation constants keep their macro names. The SPI
    context is the record of callbacks the board support code fills in; its callbacks are functions
    on an environment type [W] (whatever is at the other end of the SPI bus), and each may be
    null. *)
From Stdlib Require Import ZArith Lia Bool.
From stdpp Require Import base decidable list.
From S2P Require Import Prelude.

(** ** SPI command encoding *)

Definition ENC28_SPI_ARG_BITS : Z := 5.
Definition ENC28_SPI_ARG_MASK : Z := 0x1F.
Definition ENC28_OP_RCR : Z := 0x0.
Definition ENC28_OP_RBM : Z := 0x1.
Definition ENC28_OP_WCR : Z := 0x2.
Definition ENC28_OP_WBM : Z := 0x3.
Definition ENC28_OP_BFS : Z := 0x4.
Definition ENC28_OP_BFC : Z := 0x5.
Definition ENC28_OP_SRC : Z := 0x7.

(** ** Control registers and their bits *)

Definition ENC28_CR_EPKTCNT : Z := 0x19.
Definition ENC28_CR_EIE : Z := 0x1B.
Definition ENC28_EIE_RXERIE : Z := 0.
Definition ENC28_EIE_TXERIE : Z := 1.
Definition ENC28_EIE_TXIE : Z := 3.
Definition ENC28_EIE_LINKIE : Z := 4.
Definition ENC28_EIE_DMAIE : Z := 5.
Definition ENC28_EIE_PKTIE : Z := 6.
Definition ENC28_EIE_INTIE : Z := 7.
Definition ENC28_CR_EIR : Z := 0x1C.
Definition ENC28_EIR_RXERIF : Z := 0.
Definition ENC28_EIR_TXERIF : Z := 1.
Definition ENC28_EIR_TXIF : Z := 3.
Definition ENC28_EIR_LINKIF : Z := 4.
Definition ENC28_EIR_DMAIF : Z := 5.
Definition ENC28_EIR_PKTIF : Z := 6.
Definition ENC28_CR_ECON2 : Z := 0x1E.
Definition ENC28_ECON2_VRPS : Z := 3.
Definition ENC28_ECON2_PWRSV : Z := 5.
Definition ENC28_ECON2_PKTDEC : Z := 6.
Definition ENC28_ECON2_AUTOINC : Z := 7.
Definition ENC28_CR_ECON1 : Z := 0x1F.
Definition ENC28_ECON1_BSEL : Z := 0x3.
Definition ENC28_ECON1_RXEN : Z := 2.
Definition ENC28_ECON1_TXRTS : Z := 3.
Definition ENC28_ECON1_CSUM_EN : Z := 4.
Definition ENC28_ECON1_DMA_BUSY : Z := 5.
Definition ENC28_ECON1_RX_RST : Z := 6.
Definition ENC28_ECON1_TX_RST : Z := 7.
Definition ENC28_CR_MACON1 : Z := 0x0.
Definition ENC28_MACON1_RXEN : Z := 0.
Definition ENC28_MACON1_RXPAUS : Z := 2.
Definition ENC28_MACON1_TXPAUS : Z := 3.
Definition ENC28_CR_MACON3 : Z := 0x2.
Definition ENC28_MACON3_TXCRCEN : Z := 0x4.
Definition ENC28_MACON3_FULLDPX : Z := 0x0.
Definition ENC28_MACON3_FRMLNEN : Z := 0x1.
Definition ENC28_CR_MACON4 : Z := 0x3.
Definition ENC28_MACON4_DEFER : Z := 0x4.
Definition ENC28_CR_MABBIPG : Z := 0x4.
Definition ENC28_CR_MAIPGL : Z := 0x6.
Definition ENC28_CR_MAIPGH : Z := 0x7.
Definition ENC28_CR_MACLCON1 : Z := 0x8.
Definition ENC28_CR_MACLCON2 : Z := 0x9.
Definition ENC28_CR_MAMXFLL : Z := 0x0A.
Definition ENC28_CR_MAMXFLH : Z := 0x0B.
Definition ENC28_CR_MIWRL : Z := 0x16.
Definition ENC28_CR_MIWRH : Z := 0x17.
Definition ENC28_CR_MIRDL : Z := 0x18.
Definition ENC28_CR_MIRDH : Z := 0x19.
Definition ENC28_CR_MICMD : Z := 0x12.
Definition ENC28_MICMD_MIIRD : Z := 0.
Definition ENC28_CR_MIREGADR : Z := 0x14.
Definition ENC28_CR_MISTAT : Z := 0x0A.
Definition ENC28_MISTAT_BUSY : Z := 0.
Definition ENC28_CR_MAC_ADD1 : Z := 0x04.
Definition ENC28_CR_MAC_ADD2 : Z := 0x05.
Definition ENC28_CR_MAC_ADD3 : Z := 0x02.
Definition ENC28_CR_MAC_ADD4 : Z := 0x03.
Definition ENC28_CR_MAC_ADD5 : Z := 0x00.
Definition ENC28_CR_MAC_ADD6 : Z := 0x01.
Definition ENC28_CR_ERDPTL : Z := 0x00.
Definition ENC28_CR_ERDPTH : Z := 0x01.
Definition ENC28_CR_EWRPTL : Z := 0x02.
Definition ENC28_CR_EWRPTH : Z := 0x03.
Definition ENC28_CR_ETXSTL : Z := 0x04.
Definition ENC28_CR_ETXSTH : Z := 0x05.
Definition ENC28_CR_ETXNDL : Z := 0x06.
Definition ENC28_CR_ETXNDH : Z := 0x07.
Definition ENC28_CR_ERXSTL : Z := 0x08.
Definition ENC28_CR_ERXSTH : Z := 0x09.
Definition ENC28_CR_ERXNDL : Z := 0x0A.
Definition ENC28_CR_ERXNDH : Z := 0x0B.
Definition ENC28_CR_ERXRDPTL : Z := 0x0C.
Definition ENC28_CR_ERXRDPTH : Z := 0x0D.
Definition ENC28_CR_EREVID : Z := 0x12.
Definition ENC28_CR_ESTAT : Z := 0x1D.
Definition ENC28_ESTAT_CLKRDY : Z := 0.
Definition ENC28_ESTAT_TXABRT : Z := 1.
Definition ENC28_ESTAT_LATECOL : Z := 4.
Definition ENC28_CR_ERXFCON : Z := 0x18.
Definition ENC28_ERXFCON_UNI : Z := bit 7.
Definition ENC28_ERXFCON_ANDOR : Z := bit 6.
Definition ENC28_ERXFCON_CRC : Z := bit 5.
Definition ENC28_ERXFCON_MULTI : Z := bit 1.
Definition ENC28_ERXFCON_BCAST : Z := bit 0.

(** ** PHY registers *)

Definition ENC28_PHYR_PHCON1 : Z := 0x0.
Definition ENC28_PHCON1_PDPXMD : Z := 8.
Definition ENC28_PHYR_PHID1 : Z := 0x2.
Definition ENC28_PHYR_PHID2 : Z := 0x3.
Definition ENC28_PHYR_PHLCON : Z := 0x14.

(** ** Customisation constants *)

Definition ENC28_CONF_RX_ADDRESS_START : Z := 0x7D0.
Definition ENC28_CONF_RX_ADDRESS_END : Z := 0x1eff.
Definition ENC28_CONF_TX_ADDRESS_START : Z := 0x1D.
Definition ENC28_CONF_PACKET_FILTER_MASK : Z := ENC28_ERXFCON_UNI .| ENC28_ERXFCON_MULTI .| ENC28_ERXFCON_BCAST.
Definition ENC28_CONF_MACON3_FRAME_PAD_MASK : Z := 0xE0.
Definition ENC28_CONF_MAX_FRAME_LEN : Z := 1536.
Definition ENC28_CONF_MABBIPG_BITS : Z := 0x12.
Definition ENC28_CONF_MAIPGL_BITS_FULLDUP : Z := 0x15.
Definition ENC28_CONF_MAIPGL_BITS_HALFDUP : Z := 0x12.
Definition ENC28_CONF_MAIPGH_BITS : Z := 0x0C.

(** [ENC28_ECON1_BANK_SEL(n)] *)
Definition ENC28_ECON1_BANK_SEL (n : Z) : Z := n.

(** ** Result codes *)

Inductive ENC28_CommandStatus : Type :=
| ENC28_OK
| ENC28_INVALID_REGISTER
| ENC28_INVALID_PARAM
| ENC28_NO_DATA
| ENC28_READ_PTR_OUT_OF_RANGE
| ENC28_BUFFER_TOO_SMALL
| ENC28_PACKET_RCV_ERR
| ENC28_PACKET_TX_IN_PROGRESS
| ENC28_PACKET_TX_ABORTED.

#[export] Instance ENC28_CommandStatus_eq_dec : EqDecision ENC28_CommandStatus.
Proof. solve_decision. Defined.

(** [s == ENC28_OK] *)
Definition is_ok (s : ENC28_CommandStatus) : bool :=
  match s with ENC28_OK => true | _ => false end.

(** ** The SPI context *)

Record ENC28_SPI_Context (W : Type) : Type := {
  nss_pin_op : option (Z -> W -> W);
  spi_out_op : option (list Z -> W -> W);
  spi_in_op : option (list Z -> W -> list Z * W);
  spi_in_out_op : option (list Z -> list Z -> W -> list Z * W);
  wait_nano : option (Z -> W -> W)
}.
Arguments nss_pin_op {W}.
Arguments spi_out_op {W}.
Arguments spi_in_op {W}.
Arguments spi_in_out_op {W}.
Arguments wait_nano {W}.

(** A null test on a callback. *)
Definition is_null {A} (o : option A) : bool :=
  match o with Some _ => false | None => true end.

(** ** Data types *)

Record ENC28_MAC_Address : Type := { addr : list Z }.

Record ENC28_HW_Rev : Type := { phid1 : Z; phid2 : Z; ethrev : Z }.

Record ENC28_Receive_Status_Vec_Bits_16_23 : Type := {
  long_drop_event : bool;
  reserved2 : bool;
  carr_event_seen : bool;
  reserved1 : bool;
  crc_err : bool;
  len_check_err : bool;
  len_out_of_range : bool;
  received_ok : bool
}.

Record ENC28_Receive_Status_Vec_Bits_24_31 : Type := {
  multicast : bool;
  broadcast : bool;
  dribble_nibble : bool;
  ctrl_frame : bool;
  pause_ctrl_frame : bool;
  unknown_opcode : bool;
  vlan_type : bool;
  zero : bool
}.

(** Storing a byte over a bit-field structure, [*((uint8_t* )&bits) = b]: the compilers for the
    target allocate bit-fields from the least significant bit. *)
Definition status_bits_lo_of_byte (b : Z) : ENC28_Receive_Status_Vec_Bits_16_23 := {|
  long_drop_event := Z.testbit b 0;
  reserved2 := Z.testbit b 1;
  carr_event_seen := Z.testbit b 2;
  reserved1 := Z.testbit b 3;
  crc_err := Z.testbit b 4;
  len_check_err := Z.testbit b 5;
  len_out_of_range := Z.testbit b 6;
  received_ok := Z.testbit b 7
|}.

Definition status_bits_hi_of_byte (b : Z) : ENC28_Receive_Status_Vec_Bits_24_31 := {|
  multicast := Z.testbit b 0;
  broadcast := Z.testbit b 1;
  dribble_nibble := Z.testbit b 2;
  ctrl_frame := Z.testbit b 3;
  pause_ctrl_frame := Z.testbit b 4;
  unknown_opcode := Z.testbit b 5;
  vlan_type := Z.testbit b 6;
  zero := Z.testbit b 7
|}.

Record ENC28_Receive_Status_Vector : Type := {
  packet_len_lo : Z;
  packet_len_hi : Z;
  status_bits_lo : ENC28_Receive_Status_Vec_Bits_16_23;
  status_bits_hi : ENC28_Receive_Status_Vec_Bits_24_31
}.
