(* ===== verification/Enc28Driver.v ===== *)
(** The ENC28J60 driver, [enc28j60/enc28j60.c].

    Every function of the file is a computation over the driver state: the static variable
    [priv_enc28_curr_bank] and the environment [W] the SPI callbacks act on. A pointer parameter is
    an [option] ([None] is the null pointer) carrying the object it points to; a function that
    writes through pointers returns the new contents next to its status. The polling loops take
    their iteration bound from the section variable [fuel]. *)
From Stdlib Require Import ZArith Lia Bool.
From stdpp Require Import base decidable list.
From S2P Require Import Prelude Enc28Regs.

(** The driver's own static variable and the environment. *)
Record drv (W : Type) : Type := mk_drv {
  priv_enc28_curr_bank : Z;
  world : W
}.
Arguments mk_drv {W}.
Arguments priv_enc28_curr_bank {W}.
Arguments world {W}.

(** [EXIT_IF_ERR(s)]: leave the enclosing function with result [e] unless [s] is [ENC28_OK]. *)
Definition exit_if_err {S A} (s : ENC28_CommandStatus) (e : A) (k : prog S A) : prog S A :=
  if is_ok s then k else ret e.

Notation "'EXIT_IF_ERR' s 'RETURN' e ;; k" := (exit_if_err s e k)
  (at level 100, s at level 0, e at level 0, k at level 200, right associativity) : c_scope.

(** [status = m; EXIT_IF_ERR(status);] in a function that only returns its status. *)
Notation "'TRY' m ;; k" := (bind m (fun st => exit_if_err st st k))
  (at level 100, m at next level, k at level 200, right associativity) : c_scope.

(** [CHECK_RESERVED_REG]: register 0x1A of every bank is reserved. *)
Definition CHECK_RESERVED_REG (reg_id : Z) : bool := reg_id =? 0x1A.

(** * Building commands *)

Definition enc28_prepare_read_ctl_reg (out : option Z) (reg_id : Z)
  : ENC28_CommandStatus * option Z :=
  if CHECK_RESERVED_REG reg_id then (ENC28_INVALID_REGISTER, out)
  else match out with
       | None => (ENC28_INVALID_PARAM, None)
       | Some _ =>
         (ENC28_OK,
          Some (u8 (Z.shiftl ENC28_OP_RCR ENC28_SPI_ARG_BITS .| (reg_id .& ENC28_SPI_ARG_MASK))))
       end.

(** The three 16-bit command builders differ in their opcode only. *)
Definition prepare_cmd16 (opcode : Z) (out : option Z) (reg_id arg : Z)
  : ENC28_CommandStatus * option Z :=
  if CHECK_RESERVED_REG reg_id then (ENC28_INVALID_REGISTER, out)
  else match out with
       | None => (ENC28_INVALID_PARAM, None)
       | Some _ =>
         let command_byte :=
           u8 (Z.shiftl opcode ENC28_SPI_ARG_BITS .| (reg_id .& ENC28_SPI_ARG_MASK)) in
         (ENC28_OK, Some (u16 (Z.shiftl command_byte 8 .| arg)))
       end.

Definition enc28_prepare_write_ctl_reg := prepare_cmd16 ENC28_OP_WCR.
Definition enc28_prepare_set_bits_ctl_reg := prepare_cmd16 ENC28_OP_BFS.
Definition enc28_prepare_clear_bits_ctl_reg := prepare_cmd16 ENC28_OP_BFC.

(** * Register classes *)

Definition priv_enc28_is_phy_reg (reg_id : Z) : bool :=
  (reg_id <=? 0x03) || ((0x10 <=? reg_id) && (reg_id <=? 0x14)).

Definition is_mac_or_mii_reg_in (bank reg_id : Z) : bool :=
  if bank =? 2 then
    (reg_id =? ENC28_CR_MACON1) || (reg_id =? ENC28_CR_MACON3) ||
    (reg_id =? ENC28_CR_MACON4) || (reg_id =? ENC28_CR_MABBIPG) ||
    (reg_id =? ENC28_CR_MAIPGL) || (reg_id =? ENC28_CR_MAIPGH) ||
    (reg_id =? ENC28_CR_MACLCON1) || (reg_id =? ENC28_CR_MACLCON2) ||
    (reg_id =? ENC28_CR_MAMXFLH) || (reg_id =? ENC28_CR_MAMXFLL) ||
    (reg_id =? ENC28_CR_MICMD) || (reg_id =? ENC28_CR_MIREGADR) ||
    (reg_id =? ENC28_CR_MIWRL) || (reg_id =? ENC28_CR_MIWRH) ||
    (reg_id =? ENC28_CR_MIRDL) || (reg_id =? ENC28_CR_MIRDH)
  else if bank =? 3 then
    (reg_id =? ENC28_CR_MISTAT) || (reg_id =? ENC28_CR_MAC_ADD1) ||
    (reg_id =? ENC28_CR_MAC_ADD2) || (reg_id =? ENC28_CR_MAC_ADD3) ||
    (reg_id =? ENC28_CR_MAC_ADD4) || (reg_id =? ENC28_CR_MAC_ADD5) ||
    (reg_id =? ENC28_CR_MAC_ADD6)
  else false.

Section Driver.
Context {W : Type}.
Variable fuel : nat.

Local Abbreviation ctx_t := (option (ENC28_SPI_Context W)).
Local Abbreviation M := (prog (drv W)).
Local Abbreviation status_t := ENC28_CommandStatus.

Definition priv_enc28_is_mac_or_mii_reg (reg_id : Z) : M bool :=
  d <- get ;; ret (is_mac_or_mii_reg_in (priv_enc28_curr_bank d) reg_id).

Definition set_curr_bank (b : Z) : M unit := modify (fun d => mk_drv b (world d)).

(** ** Calls through the context

    [ctx->f(args)]: undefined when the pointer or the callback is null. *)

Definition on_world (f : W -> W) : M unit :=
  modify (fun d => mk_drv (priv_enc28_curr_bank d) (f (world d))).

Definition on_world_r {A} (f : W -> A * W) : M A := fun d =>
  let '(a, w) := f (world d) in Done a (mk_drv (priv_enc28_curr_bank d) w).

Definition call_nss_pin_op (ctx : ctx_t) (v : Z) : M unit :=
  match ctx ≫= nss_pin_op with Some f => on_world (f v) | None => undefined end.

Definition call_spi_out_op (ctx : ctx_t) (buff : list Z) : M unit :=
  match ctx ≫= spi_out_op with Some f => on_world (f buff) | None => undefined end.

Definition call_spi_in_op (ctx : ctx_t) (buff : list Z) : M (list Z) :=
  match ctx ≫= spi_in_op with Some f => on_world_r (f buff) | None => undefined end.

Definition call_spi_in_out_op (ctx : ctx_t) (tx rx : list Z) : M (list Z) :=
  match ctx ≫= spi_in_out_op with Some f => on_world_r (f tx rx) | None => undefined end.

Definition call_wait_nano (ctx : ctx_t) (n : Z) : M unit :=
  match ctx ≫= wait_nano with Some f => on_world (f n) | None => undefined end.

(** The parameter test of the register functions; the variant with [wait_nano] is the one of
    the functions that wait. *)
Definition ctx_incomplete (ctx : ctx_t) : bool :=
  match ctx with
  | None => true
  | Some c => is_null (nss_pin_op c) || is_null (spi_in_op c) || is_null (spi_out_op c)
  end.

Definition ctx_incomplete_wait (ctx : ctx_t) : bool :=
  match ctx with
  | None => true
  | Some c => is_null (nss_pin_op c) || is_null (spi_in_op c) || is_null (spi_out_op c)
              || is_null (wait_nano c)
  end.

(** ** Control registers *)

Definition enc28_do_read_ctl_reg (ctx : ctx_t) (reg_id : Z) (reg_value : option Z)
  : M (status_t * option Z) :=
  if ctx_incomplete ctx then ret (ENC28_INVALID_PARAM, reg_value) else
  match reg_value with
  | None => ret (ENC28_INVALID_PARAM, None)
  | Some old =>
    match enc28_prepare_read_ctl_reg (Some 0) reg_id with
    | (ENC28_OK, Some cmd_buff) =>
      skip_dummy_byte <- priv_enc28_is_mac_or_mii_reg reg_id ;;
      call_nss_pin_op ctx 0 ;;
      call_spi_out_op ctx [cmd_buff] ;;
      v <- (if skip_dummy_byte : bool then
              buff <- call_spi_in_op ctx [0; 0] ;; ret (buff !!! 1%nat)
            else
              buff <- call_spi_in_op ctx [old] ;; ret (buff !!! 0%nat)) ;;
      call_nss_pin_op ctx 1 ;;
      ret (ENC28_OK, Some v)
    | (status, _) => ret (status, reg_value)
    end
  end.

Definition enc28_do_write_ctl_reg (ctx : ctx_t) (reg_id reg_value : Z) : M status_t :=
  if ctx_incomplete_wait ctx then ret ENC28_INVALID_PARAM else
  match enc28_prepare_write_ctl_reg (Some 0) reg_id reg_value with
  | (ENC28_OK, Some cmd_buff) =>
    call_nss_pin_op ctx 0 ;;
    call_wait_nano ctx 50 ;;
    call_spi_out_op ctx [u8 (Z.shiftr cmd_buff 8); cmd_buff .& 0xFF] ;;
    call_wait_nano ctx 210 ;;
    call_nss_pin_op ctx 1 ;;
    ret ENC28_OK
  | (status, _) => ret status
  end.

Definition enc28_do_set_bits_ctl_reg (ctx : ctx_t) (reg_id mask : Z) : M status_t :=
  if ctx_incomplete ctx then ret ENC28_INVALID_PARAM else
  match enc28_prepare_set_bits_ctl_reg (Some 0) reg_id mask with
  | (ENC28_OK, Some cmd_buff) =>
    call_nss_pin_op ctx 0 ;;
    call_spi_out_op ctx [u8 (Z.shiftr cmd_buff 8); cmd_buff .& 0xFF] ;;
    call_nss_pin_op ctx 1 ;;
    ret ENC28_OK
  | (status, _) => ret status
  end.

Definition enc28_do_clear_bits_ctl_reg (ctx : ctx_t) (reg_id mask : Z) : M status_t :=
  if ctx_incomplete ctx then ret ENC28_INVALID_PARAM else
  match enc28_prepare_clear_bits_ctl_reg (Some 0) reg_id mask with
  | (ENC28_OK, Some cmd_buff) =>
    call_nss_pin_op ctx 0 ;;
    call_spi_out_op ctx [u8 (Z.shiftr cmd_buff 8); cmd_buff .& 0xFF] ;;
    call_nss_pin_op ctx 1 ;;
    ret ENC28_OK
  | (status, _) => ret status
  end.

Definition enc28_select_register_bank (ctx : ctx_t) (bank_id : Z) : M status_t :=
  if 4 <=? bank_id then ret ENC28_INVALID_PARAM else
  ' (status, econ1_reg) <- byref (enc28_do_read_ctl_reg ctx ENC28_CR_ECON1) 0 ;;
  EXIT_IF_ERR status RETURN status ;;
  let econ1_reg := u8 (econ1_reg .& Z.lnot ENC28_ECON1_BSEL) in
  let econ1_reg := u8 (econ1_reg .| ENC28_ECON1_BANK_SEL bank_id) in
  status <- enc28_do_write_ctl_reg ctx ENC28_CR_ECON1 econ1_reg ;;
  (if is_ok status then set_curr_bank bank_id else ret tt) ;;
  ret status.

(** ** PHY registers *)

(** The polling loop of [enc28_do_read_phy_register]: read MISTAT until BUSY is clear. *)
Fixpoint poll_mistat (n : nat) (ctx : ctx_t) : M status_t :=
  match n with
  | O => out_of_fuel
  | S n' =>
    ' (status, mistat_value) <- byref (enc28_do_read_ctl_reg ctx ENC28_CR_MISTAT) 0xff ;;
    EXIT_IF_ERR status RETURN status ;;
    if mistat_value .& bit ENC28_MISTAT_BUSY =? 0 then ret ENC28_OK
    else call_wait_nano ctx 1 ;; poll_mistat n' ctx
  end.

Definition enc28_do_read_phy_register (ctx : ctx_t) (reg_id : Z) (reg_value : option Z)
  : M (status_t * option Z) :=
  if negb (priv_enc28_is_phy_reg reg_id) then ret (ENC28_INVALID_PARAM, reg_value) else
  if ctx_incomplete_wait ctx then ret (ENC28_INVALID_PARAM, reg_value) else
  status <- enc28_select_register_bank ctx 2 ;;
  EXIT_IF_ERR status RETURN (status, reg_value) ;;
  status <- enc28_do_write_ctl_reg ctx ENC28_CR_MIREGADR reg_id ;;
  EXIT_IF_ERR status RETURN (status, reg_value) ;;
  status <- enc28_do_write_ctl_reg ctx ENC28_CR_MICMD (bit ENC28_MICMD_MIIRD) ;;
  EXIT_IF_ERR status RETURN (status, reg_value) ;;
  call_wait_nano ctx (11 * 1000) ;;
  status <- enc28_select_register_bank ctx 3 ;;
  EXIT_IF_ERR status RETURN (status, reg_value) ;;
  status <- poll_mistat fuel ctx ;;
  EXIT_IF_ERR status RETURN (status, reg_value) ;;
  status <- enc28_select_register_bank ctx 2 ;;
  EXIT_IF_ERR status RETURN (status, reg_value) ;;
  status <- enc28_do_write_ctl_reg ctx ENC28_CR_MICMD 0 ;;
  EXIT_IF_ERR status RETURN (status, reg_value) ;;
  ' (status, reg_val_lo) <- byref (enc28_do_read_ctl_reg ctx ENC28_CR_MIRDL) 0xff ;;
  EXIT_IF_ERR status RETURN (status, reg_value) ;;
  ' (status, reg_val_hi) <- byref (enc28_do_read_ctl_reg ctx ENC28_CR_MIRDH) 0xff ;;
  EXIT_IF_ERR status RETURN (status, reg_value) ;;
  match reg_value with
  | None => undefined
  | Some _ => ret (ENC28_OK, Some (u16 (Z.shiftl reg_val_hi 8 .| reg_val_lo)))
  end.

(** ** Initialisation *)

Definition priv_enc28_do_buffer_register_init (ctx : ctx_t) : M status_t :=
  let addr_lo := u8 (ENC28_CONF_RX_ADDRESS_START .& 0xFF) in
  let addr_hi := u8 (Z.shiftr ENC28_CONF_RX_ADDRESS_START 8 .& 0x1F) in
  enc28_select_register_bank ctx 0 ;;
  TRY enc28_do_write_ctl_reg ctx ENC28_CR_ERXSTL addr_lo ;;
  TRY enc28_do_write_ctl_reg ctx ENC28_CR_ERXSTH addr_hi ;;
  let addr_lo := u8 (ENC28_CONF_RX_ADDRESS_END .& 0xFF) in
  let addr_hi := u8 (Z.shiftr ENC28_CONF_RX_ADDRESS_END 8 .& 0x1F) in
  TRY enc28_do_write_ctl_reg ctx ENC28_CR_ERXNDL addr_lo ;;
  TRY enc28_do_write_ctl_reg ctx ENC28_CR_ERXNDH addr_hi ;;
  TRY enc28_do_write_ctl_reg ctx ENC28_CR_ERXRDPTL addr_lo ;;
  TRY enc28_do_write_ctl_reg ctx ENC28_CR_ERXRDPTH addr_hi ;;
  ret ENC28_OK.

Definition priv_enc28_do_receive_filter_init (ctx : ctx_t) : M status_t :=
  TRY enc28_select_register_bank ctx 1 ;;
  enc28_do_write_ctl_reg ctx ENC28_CR_ERXFCON ENC28_CONF_PACKET_FILTER_MASK.

(** The [while (status == ENC28_OK)] loop, entered after a first read of ESTAT. *)
Fixpoint poll_estat_loop (n : nat) (ctx : ctx_t) (status : status_t) (reg_value : Z) : M unit :=
  match n with
  | O => out_of_fuel
  | S n' =>
    if is_ok status then
      if truth (reg_value .& bit ENC28_ESTAT_CLKRDY) then ret tt
      else
        ' (status, reg_value) <- byref (enc28_do_read_ctl_reg ctx ENC28_CR_ESTAT) reg_value ;;
        poll_estat_loop n' ctx status reg_value
    else ret tt
  end.

Definition priv_enc28_do_poll_estat_clk (ctx : ctx_t) : M status_t :=
  ' (status, reg_value) <- byref (enc28_do_read_ctl_reg ctx ENC28_CR_ESTAT) 0 ;;
  poll_estat_loop fuel ctx status reg_value ;;
  ret ENC28_OK.

(** The six MAC address registers in the order the driver writes and reads them. *)
Definition mac_addr_regs : list Z :=
  [ENC28_CR_MAC_ADD1; ENC28_CR_MAC_ADD2; ENC28_CR_MAC_ADD3;
   ENC28_CR_MAC_ADD4; ENC28_CR_MAC_ADD5; ENC28_CR_MAC_ADD6].

Definition priv_enc28_do_mac_init (mac_add : ENC28_MAC_Address) (ctx : ctx_t) : M status_t :=
  TRY enc28_select_register_bank ctx 2 ;;
  let macon1_mask :=
    u8 (bit ENC28_MACON1_RXEN .| bit ENC28_MACON1_RXPAUS .| bit ENC28_MACON1_TXPAUS) in
  TRY enc28_do_set_bits_ctl_reg ctx ENC28_CR_MACON1 macon1_mask ;;
  ' (status, phcon1_value) <- byref (enc28_do_read_phy_register ctx ENC28_PHYR_PHCON1) 0 ;;
  EXIT_IF_ERR status RETURN status ;;
  let is_full_duplex := truth (phcon1_value .& bit ENC28_PHCON1_PDPXMD) in
  let macon3_mask :=
    u8 (ENC28_CONF_MACON3_FRAME_PAD_MASK .| bit ENC28_MACON3_TXCRCEN
        .| bit ENC28_MACON3_FRMLNEN) in
  let macon3_mask :=
    if is_full_duplex then u8 (macon3_mask .| bit ENC28_MACON3_FULLDPX) else macon3_mask in
  TRY enc28_do_set_bits_ctl_reg ctx ENC28_CR_MACON3 macon3_mask ;;
  TRY enc28_do_set_bits_ctl_reg ctx ENC28_CR_MACON4 (u8 (bit ENC28_MACON4_DEFER)) ;;
  TRY enc28_do_write_ctl_reg ctx ENC28_CR_MAMXFLL (u8 (ENC28_CONF_MAX_FRAME_LEN .& 0xFF)) ;;
  TRY enc28_do_write_ctl_reg ctx ENC28_CR_MAMXFLH
        (u8 (Z.shiftr ENC28_CONF_MAX_FRAME_LEN 8 .& 0xFF)) ;;
  TRY enc28_do_write_ctl_reg ctx ENC28_CR_MABBIPG ENC28_CONF_MABBIPG_BITS ;;
  TRY enc28_do_write_ctl_reg ctx ENC28_CR_MAIPGL
        (if is_full_duplex then ENC28_CONF_MAIPGL_BITS_FULLDUP
         else ENC28_CONF_MAIPGL_BITS_HALFDUP) ;;
  TRY (if negb is_full_duplex
       then enc28_do_write_ctl_reg ctx ENC28_CR_MAIPGH ENC28_CONF_MAIPGH_BITS
       else ret ENC28_OK) ;;
  TRY enc28_select_register_bank ctx 3 ;;
  TRY enc28_do_write_ctl_reg ctx ENC28_CR_MAC_ADD1 (addr mac_add !!! 0%nat) ;;
  TRY enc28_do_write_ctl_reg ctx ENC28_CR_MAC_ADD2 (addr mac_add !!! 1%nat) ;;
  TRY enc28_do_write_ctl_reg ctx ENC28_CR_MAC_ADD3 (addr mac_add !!! 2%nat) ;;
  TRY enc28_do_write_ctl_reg ctx ENC28_CR_MAC_ADD4 (addr mac_add !!! 3%nat) ;;
  TRY enc28_do_write_ctl_reg ctx ENC28_CR_MAC_ADD5 (addr mac_add !!! 4%nat) ;;
  TRY enc28_do_write_ctl_reg ctx ENC28_CR_MAC_ADD6 (addr mac_add !!! 5%nat) ;;
  TRY enc28_select_register_bank ctx 0 ;;
  ret ENC28_OK.

Definition priv_enc28_do_phy_init (ctx : ctx_t) : M status_t := ret ENC28_OK.

Definition enc28_do_init (mac_add : ENC28_MAC_Address) (ctx : ctx_t) : M status_t :=
  TRY priv_enc28_do_buffer_register_init ctx ;;
  TRY priv_enc28_do_receive_filter_init ctx ;;
  TRY priv_enc28_do_poll_estat_clk ctx ;;
  TRY priv_enc28_do_mac_init mac_add ctx ;;
  priv_enc28_do_phy_init ctx.

Definition enc28_do_soft_reset (ctx : ctx_t) : M status_t :=
  if ctx_incomplete ctx then ret ENC28_INVALID_PARAM else
  call_nss_pin_op ctx 0 ;;
  call_spi_out_op ctx [0xFF] ;;
  call_nss_pin_op ctx 1 ;;
  ret ENC28_OK.

(** ** Identification *)

(** The structure is updated field by field, so a failing read leaves the fields already read. *)
Definition enc28_do_read_hw_rev (ctx : ctx_t) (hw_rev : option ENC28_HW_Rev)
  : M (status_t * option ENC28_HW_Rev) :=
  match hw_rev with
  | None => ret (ENC28_INVALID_PARAM, None)
  | Some h =>
    ' (status, v) <- byref (enc28_do_read_phy_register ctx ENC28_PHYR_PHID1) (phid1 h) ;;
    let h := {| phid1 := v; phid2 := phid2 h; ethrev := ethrev h |} in
    EXIT_IF_ERR status RETURN (status, Some h) ;;
    ' (status, v) <- byref (enc28_do_read_phy_register ctx ENC28_PHYR_PHID2) (phid2 h) ;;
    let h := {| phid1 := phid1 h; phid2 := v; ethrev := ethrev h |} in
    EXIT_IF_ERR status RETURN (status, Some h) ;;
    status <- enc28_select_register_bank ctx 3 ;;
    EXIT_IF_ERR status RETURN (status, Some h) ;;
    ' (status, v) <- byref (enc28_do_read_ctl_reg ctx ENC28_CR_EREVID) (ethrev h) ;;
    ret (status, Some {| phid1 := phid1 h; phid2 := phid2 h; ethrev := v |})
  end.

(** The reads of the MAC address bytes [i, i+1, ...] from the registers [regs]; the loop stops
    at the first failing read. *)
Fixpoint read_mac_bytes (ctx : ctx_t) (regs : list Z) (i : nat) (bytes : list Z)
  : M (status_t * list Z) :=
  match regs with
  | [] => ret (ENC28_OK, bytes)
  | r :: regs' =>
    ' (status, v) <- byref (enc28_do_read_ctl_reg ctx r) (bytes !!! i) ;;
    let bytes := <[i := v]> bytes in
    EXIT_IF_ERR status RETURN (status, bytes) ;;
    read_mac_bytes ctx regs' (S i) bytes
  end.

Definition enc28_do_read_mac (ctx : ctx_t) (mac : option ENC28_MAC_Address)
  : M (status_t * option ENC28_MAC_Address) :=
  status <- enc28_select_register_bank ctx 3 ;;
  EXIT_IF_ERR status RETURN (status, mac) ;;
  match mac with
  | None => undefined
  | Some m =>
    ' (status, bytes) <- read_mac_bytes ctx mac_addr_regs 0 (addr m) ;;
    ret (status, Some {| addr := bytes |})
  end.

(** ** Packet transfer *)

Definition enc28_begin_packet_transfer (ctx : ctx_t) : M status_t :=
  TRY enc28_select_register_bank ctx 0 ;;
  TRY enc28_do_write_ctl_reg ctx ENC28_CR_ERDPTL (ENC28_CONF_RX_ADDRESS_START .& 0xFF) ;;
  TRY enc28_do_write_ctl_reg ctx ENC28_CR_ERDPTH
        (Z.shiftr ENC28_CONF_RX_ADDRESS_START 8 .& 0x1F) ;;
  let mask := 0 in
  let mask := u8 (mask .| bit ENC28_EIE_INTIE) in
  let mask := u8 (mask .| bit ENC28_EIE_PKTIE) in
  let mask := u8 (mask .| bit ENC28_EIE_RXERIE) in
  let mask := u8 (mask .| bit ENC28_EIE_TXERIE) in
  TRY enc28_do_set_bits_ctl_reg ctx ENC28_CR_EIE mask ;;
  let mask := u8 (bit ENC28_EIR_RXERIF) in
  TRY enc28_do_clear_bits_ctl_reg ctx ENC28_CR_EIR mask ;;
  let mask := u8 (bit ENC28_ECON2_AUTOINC) in
  TRY enc28_do_set_bits_ctl_reg ctx ENC28_CR_ECON2 mask ;;
  let mask := u8 (0 .| bit ENC28_ECON1_RXEN) in
  enc28_do_set_bits_ctl_reg ctx ENC28_CR_ECON1 mask.

(** [ctx->spi_in_op(buf, len)] on the first [len] bytes of a caller's buffer: undefined when the
    object is shorter than [len]. *)
Definition spi_in_prefix (ctx : ctx_t) (buf : option (list Z)) (len : Z)
  : M (option (list Z)) :=
  match buf with
  | None => if len =? 0 then call_spi_in_op ctx [] ;; ret None else undefined
  | Some b =>
    if Z.of_nat (length b) <? len then undefined
    else
      got <- call_spi_in_op ctx (take (Z.to_nat len) b) ;;
      ret (Some (got ++ drop (Z.to_nat len) b))
  end.

(** Update of ERDPT and, following the errata, of ERXRDPT; [hdr] holds the seven bytes clocked
    in, the next-packet pointer being in bytes 1 and 2. *)
Definition update_read_pointers (ctx : ctx_t) (hdr : list Z) : M status_t :=
  let PP := u16 (Z.shiftl ((hdr !!! 2%nat) .& 0x1F) 8 .| (hdr !!! 1%nat)) in
  TRY enc28_do_write_ctl_reg ctx ENC28_CR_ERDPTL (hdr !!! 1%nat) ;;
  TRY enc28_do_write_ctl_reg ctx ENC28_CR_ERDPTH (hdr !!! 2%nat) ;;
  let PP := if (ENC28_CONF_RX_ADDRESS_END <? PP - 1) || (PP - 1 <? ENC28_CONF_RX_ADDRESS_START)
            then ENC28_CONF_RX_ADDRESS_END
            else u16 (PP - 1) in
  TRY enc28_do_write_ctl_reg ctx ENC28_CR_ERXRDPTL (PP .& 0xFF) ;;
  TRY enc28_do_write_ctl_reg ctx ENC28_CR_ERXRDPTH (Z.shiftr PP 8 .& 0x1F) ;;
  ret ENC28_OK.

(** The result is the status, the packet buffer and the status vector after the call. *)
Definition read_result : Type :=
  status_t * option (list Z) * option ENC28_Receive_Status_Vector.

(** The branch of [enc28_read_packet] taken when EIR.PKTIF is set. *)
Definition read_pending_packet (ctx : ctx_t) (packet_buf : option (list Z)) (buf_size : Z)
  (opt_status_vec : option ENC28_Receive_Status_Vector) (val : Z) : M read_result :=
  status <- enc28_select_register_bank ctx 0 ;;
  EXIT_IF_ERR status RETURN (status, packet_buf, opt_status_vec) ;;
  ' (_, val) <- byref (enc28_do_read_ctl_reg ctx ENC28_CR_ERDPTL) val ;;
  let read_ptr := val in
  ' (_, val) <- byref (enc28_do_read_ctl_reg ctx ENC28_CR_ERDPTH) val ;;
  let read_ptr := u16 (read_ptr .| Z.shiftl (val .& 0x1F) 8) in
  if (read_ptr <? ENC28_CONF_RX_ADDRESS_START) || (ENC28_CONF_RX_ADDRESS_END <? read_ptr)
  then ret (ENC28_READ_PTR_OUT_OF_RANGE, packet_buf, opt_status_vec) else
  let command := [0x3A; 0; 0; 0; 0; 0; 0] in
  call_nss_pin_op ctx 0 ;;
  hdr <- call_spi_in_out_op ctx command [0; 0; 0; 0; 0; 0; 0] ;;
  call_nss_pin_op ctx 1 ;;
  let status_vec := {|
    packet_len_lo := hdr !!! 3%nat;
    packet_len_hi := hdr !!! 4%nat;
    status_bits_lo := status_bits_lo_of_byte (hdr !!! 5%nat);
    status_bits_hi := status_bits_hi_of_byte (hdr !!! 6%nat) |} in
  let opt_status_vec := (fun _ => status_vec) <$> opt_status_vec in
  if negb (received_ok (status_bits_lo status_vec))
  then ret (ENC28_PACKET_RCV_ERR, packet_buf, opt_status_vec) else
  let packet_len := u16 (Z.shiftl (packet_len_hi status_vec) 8 .| packet_len_lo status_vec) in
  if buf_size <? packet_len
  then ret (ENC28_BUFFER_TOO_SMALL, packet_buf, opt_status_vec) else
  call_nss_pin_op ctx 0 ;;
  call_spi_out_op ctx [0x3A] ;;
  packet_buf <- spi_in_prefix ctx packet_buf packet_len ;;
  call_nss_pin_op ctx 1 ;;
  status <- update_read_pointers ctx hdr ;;
  EXIT_IF_ERR status RETURN (status, packet_buf, opt_status_vec) ;;
  status <- enc28_do_set_bits_ctl_reg ctx ENC28_CR_ECON2 (bit ENC28_ECON2_PKTDEC) ;;
  ret (status, packet_buf, opt_status_vec).

(** The branch taken when EIR.RXERIF is set and EIR.PKTIF is not. *)
Definition recover_receive_error (ctx : ctx_t) : M status_t :=
  TRY enc28_select_register_bank ctx 0 ;;
  TRY enc28_do_write_ctl_reg ctx ENC28_CR_ERXRDPTL (ENC28_CONF_RX_ADDRESS_END .& 0xFF) ;;
  TRY enc28_do_write_ctl_reg ctx ENC28_CR_ERXRDPTH
        (Z.shiftr ENC28_CONF_RX_ADDRESS_END 8 .& 0x1F) ;;
  TRY enc28_do_clear_bits_ctl_reg ctx ENC28_CR_EIR (bit ENC28_EIR_RXERIF) ;;
  ret ENC28_PACKET_RCV_ERR.

Definition enc28_read_packet (ctx : ctx_t) (packet_buf : option (list Z)) (buf_size : Z)
  (opt_status_vec : option ENC28_Receive_Status_Vector) : M read_result :=
  ' (status, val) <- byref (enc28_do_read_ctl_reg ctx ENC28_CR_EIR) 0 ;;
  EXIT_IF_ERR status RETURN (status, packet_buf, opt_status_vec) ;;
  if truth (val .& bit ENC28_EIR_PKTIF) then
    read_pending_packet ctx packet_buf buf_size opt_status_vec val
  else if truth (val .& bit ENC28_EIR_RXERIF) then
    status <- recover_receive_error ctx ;;
    ret (status, packet_buf, opt_status_vec)
  else ret (ENC28_NO_DATA, packet_buf, opt_status_vec).

(** The caller's object must hold [buf_size] bytes; reading past it is undefined. *)
Definition enc28_write_packet (ctx : ctx_t) (packet_buf : option (list Z)) (buf_size : Z)
  : M status_t :=
  match ctx, packet_buf with
  | Some _, Some buf =>
    if buf_size <? 14 then ret ENC28_INVALID_PARAM else
    ' (status, reg_val) <- byref (enc28_do_read_ctl_reg ctx ENC28_CR_ECON1) 0 ;;
    EXIT_IF_ERR status RETURN status ;;
    if truth (reg_val .& bit ENC28_ECON1_TXRTS) then ret ENC28_PACKET_TX_IN_PROGRESS else
    TRY enc28_select_register_bank ctx 0 ;;
    TRY enc28_do_write_ctl_reg ctx ENC28_CR_ETXSTL (ENC28_CONF_TX_ADDRESS_START .& 0xFF) ;;
    TRY enc28_do_write_ctl_reg ctx ENC28_CR_ETXSTH
          (Z.shiftr ENC28_CONF_TX_ADDRESS_START 8 .& 0x1F) ;;
    TRY enc28_do_write_ctl_reg ctx ENC28_CR_EWRPTL (ENC28_CONF_TX_ADDRESS_START .& 0xFF) ;;
    TRY enc28_do_write_ctl_reg ctx ENC28_CR_EWRPTH
          (Z.shiftr ENC28_CONF_TX_ADDRESS_START 8 .& 0x1F) ;;
    if Z.of_nat (length buf) <? buf_size then undefined else
    call_nss_pin_op ctx 0 ;;
    call_spi_out_op ctx [0x7A; 0] ;;
    call_spi_out_op ctx (take (Z.to_nat buf_size) buf) ;;
    call_nss_pin_op ctx 1 ;;
    let end_address := u16 (ENC28_CONF_TX_ADDRESS_START + buf_size + 1) in
    TRY enc28_do_write_ctl_reg ctx ENC28_CR_ETXNDL (end_address .& 0xFF) ;;
    TRY enc28_do_write_ctl_reg ctx ENC28_CR_ETXNDH (Z.shiftr end_address 8 .& 0x1F) ;;
    TRY enc28_do_clear_bits_ctl_reg ctx ENC28_CR_EIR (bit ENC28_EIR_TXIF) ;;
    TRY enc28_do_set_bits_ctl_reg ctx ENC28_CR_ECON1 (bit ENC28_ECON1_TX_RST) ;;
    TRY enc28_do_clear_bits_ctl_reg ctx ENC28_CR_ECON1 (bit ENC28_ECON1_TX_RST) ;;
    enc28_do_set_bits_ctl_reg ctx ENC28_CR_ECON1 (bit ENC28_ECON1_TXRTS)
  | _, _ => ret ENC28_INVALID_PARAM
  end.

(** The address the transmit status vector is read from, computed from the ETXND bytes. *)
Definition ctl_vec_address (end_addr_lo end_addr_hi : Z) : Z :=
  u16 (u16 (end_addr_lo .| (Z.shiftl end_addr_hi 8 .& 0x1F)) + 1).

Definition enc28_check_outgoing_packet_status (ctx : ctx_t) : M status_t :=
  ' (status, reg_val) <- byref (enc28_do_read_ctl_reg ctx ENC28_CR_EIR) 0 ;;
  EXIT_IF_ERR status RETURN status ;;
  if truth (reg_val .& bit ENC28_EIR_TXIF) then
    ' (status, reg_val) <- byref (enc28_do_read_ctl_reg ctx ENC28_CR_ESTAT) reg_val ;;
    EXIT_IF_ERR status RETURN status ;;
    TRY enc28_select_register_bank ctx 0 ;;
    ' (status, rdpt_lo) <- byref (enc28_do_read_ctl_reg ctx ENC28_CR_ERDPTL) 0 ;;
    EXIT_IF_ERR status RETURN status ;;
    ' (status, rdpt_hi) <- byref (enc28_do_read_ctl_reg ctx ENC28_CR_ERDPTH) 0 ;;
    EXIT_IF_ERR status RETURN status ;;
    ' (status, end_addr_lo) <- byref (enc28_do_read_ctl_reg ctx ENC28_CR_ETXNDL) 0 ;;
    EXIT_IF_ERR status RETURN status ;;
    ' (status, end_addr_hi) <- byref (enc28_do_read_ctl_reg ctx ENC28_CR_ETXNDH) 0 ;;
    EXIT_IF_ERR status RETURN status ;;
    let ctl_vec_addr := ctl_vec_address end_addr_lo end_addr_hi in
    TRY enc28_do_write_ctl_reg ctx ENC28_CR_ERDPTL (ctl_vec_addr .& 0xFF) ;;
    TRY enc28_do_write_ctl_reg ctx ENC28_CR_ERDPTH (Z.shiftr ctl_vec_addr 8 .& 0x1F) ;;
    call_nss_pin_op ctx 0 ;;
    call_spi_in_out_op ctx [0x3A; 0; 0; 0; 0; 0; 0] [0; 0; 0; 0; 0; 0; 0] ;;
    call_nss_pin_op ctx 1 ;;
    TRY enc28_do_write_ctl_reg ctx ENC28_CR_ERDPTL rdpt_lo ;;
    TRY enc28_do_write_ctl_reg ctx ENC28_CR_ERDPTH rdpt_hi ;;
    if truth (reg_val .& bit ENC28_ESTAT_TXABRT) then ret ENC28_PACKET_TX_ABORTED
    else ret ENC28_OK
  else ret ENC28_NO_DATA.

Definition enc28_end_packet_transfer (ctx : ctx_t) : M status_t :=
  TRY enc28_select_register_bank ctx 0 ;;
  enc28_do_clear_bits_ctl_reg ctx ENC28_CR_ECON1 (bit ENC28_ECON1_RXEN).
End Driver.
