(* ===== verification/Enc28Device.v ===== *)
(** The interface between the driver and the ENC28J60.

    The chip is not part of the program: the driver only sees the SPI callbacks. What the driver
    relies on is stated as a type class, [Enc28Device], over an arbitrary environment: each SPI
    frame the driver sends has the effect the chip's documentation gives it on an abstract chip
    state ([chip]: control registers, stable buffer memory, PHY registers). The abstract state
    keeps only what the driver may rely on:
    - bits the hardware changes on its own ([hw_bits]) are known only at the moment they are read;
    - the buffer memory is a partial map of the bytes the hardware will not overwrite: bytes in the
      receive ring that were released, and bytes written there by the host, are not in it;
    - the packets the hardware has put into the ring and those the driver has released are counted;
    - how long the clock and the management interface stay busy is a count of status reads;
    - a set-bits command on a MAC or MII register, which the documentation excludes, leaves an
      unspecified value in that register.

    The documentation here is the data sheet. Silicon revision B7 departs from it; of its errata
    ([src/doc/enc28j60_datasheet_errata.pdf]) these contradict the class: after a soft reset the chip may not be
    ready for commands until 1 ms has passed, and CLKRDY, which stays set, does not show it (1) - the class
    lets CLKRDY read as set at once, but has every command after the reset carried out; the
    hardware may start to store frames at address 0 when ERXST is another (3); PKTIF does not reliably
    report whether packets are pending (4); after an aborted transmission in half duplex mode TXRTS may
    stay set (10, 13). The driver keeps to the workaround of erratum 11 (ERXRDPT odd), resets the
    transmit logic before each packet (10), and to no other. Everything proved from the class is about a
    device without these errata. *)
From Stdlib Require Import ZArith Lia Bool.
From stdpp Require Import base decidable list gmap.
From S2P Require Import Prelude Enc28Regs Enc28Driver.

(** * The abstract chip *)

Record chip : Type := mk_chip {
  regs : gmap (Z * Z) Z;      (** bank and number to value; 0x1B-0x1F live in bank 0 *)
  buffer : gmap Z Z;          (** the stable bytes of the 8 KiB packet memory *)
  rx_released : Z;            (** the latched ERXRDPT *)
  phy : gmap Z Z;             (** PHY registers *)
  clk_wait : nat;             (** ESTAT reads that may still see CLKRDY clear *)
  mii_wait : nat;             (** MISTAT reads that may still see BUSY set *)
  sent : list (list Z);       (** frames handed to the wire *)
  released : nat;             (** packets released with ECON2.PKTDEC *)
  arrived : nat               (** packets the hardware has put into the ring *)
}.

Definition reg_key (bank r : Z) : Z * Z := if 0x1B <=? r then (0, r) else (bank, r).

Definition reg (c : chip) (k : Z * Z) : Z := regs c !!! k.
Definition chip_bank (c : chip) : Z := reg c (0, ENC28_CR_ECON1) .& 3.
Definition cur_key (c : chip) (r : Z) : Z * Z := reg_key (chip_bank c) r.

(** MAC and MII registers: reads are preceded by a dummy byte, set-bits is not available. *)
Definition mac_mii_key (k : Z * Z) : bool :=
  match k with
  | (b, r) => ((b =? 2) && (r <=? 0x19)) || ((b =? 3) && ((r <=? 0x05) || (r =? 0x0A)))
  end.

(** The bits of a register that change without the host writing them. *)
Definition hw_bits (k : Z * Z) : Z :=
  if decide (k = (0, ENC28_CR_EIR)) then 0x7F
  else if decide (k = (0, ENC28_CR_ESTAT)) then 0xFF
  else if decide (k = (0, ENC28_CR_ECON1)) then bit ENC28_ECON1_TXRTS .| bit ENC28_ECON1_DMA_BUSY
  else if decide (k = (1, ENC28_CR_EPKTCNT)) then 0xFF
  else if decide (k = (3, ENC28_CR_MISTAT)) then 0xFF
  else 0.

Definition set_regs (f : gmap (Z * Z) Z -> gmap (Z * Z) Z) (c : chip) : chip :=
  mk_chip (f (regs c)) (buffer c) (rx_released c) (phy c) (clk_wait c) (mii_wait c) (sent c)
    (released c) (arrived c).
Definition set_reg (k : Z * Z) (v : Z) (c : chip) : chip := set_regs <[k := v]> c.
Definition set_buffer (b : gmap Z Z) (c : chip) : chip :=
  mk_chip (regs c) b (rx_released c) (phy c) (clk_wait c) (mii_wait c) (sent c) (released c)
    (arrived c).
Definition set_waits (n m : nat) (c : chip) : chip :=
  mk_chip (regs c) (buffer c) (rx_released c) (phy c) n m (sent c) (released c) (arrived c).
Definition add_sent (f : list Z) (c : chip) : chip :=
  mk_chip (regs c) (buffer c) (rx_released c) (phy c) (clk_wait c) (mii_wait c) (sent c ++ [f])
    (released c) (arrived c).
Definition add_released (c : chip) : chip :=
  mk_chip (regs c) (buffer c) (rx_released c) (phy c) (clk_wait c) (mii_wait c) (sent c)
    (S (released c)) (arrived c).

(** A 13-bit pointer held in two registers of bank 0. *)
Definition pointer (c : chip) (lo hi : Z) : Z :=
  reg c (0, lo) .| Z.shiftl (reg c (0, hi) .& 0x1F) 8.

Definition rx_start (c : chip) : Z := pointer c ENC28_CR_ERXSTL ENC28_CR_ERXSTH.
Definition rx_end (c : chip) : Z := pointer c ENC28_CR_ERXNDL ENC28_CR_ERXNDH.

(** ** Buffer memory *)

Definition ring_next (st nd p : Z) : Z := if p =? nd then st else (p + 1) mod 8192.

Fixpoint ring_iter (st nd : Z) (n : nat) (p : Z) : Z :=
  match n with O => p | S n' => ring_iter st nd n' (ring_next st nd p) end.

Fixpoint ring_addrs (st nd : Z) (n : nat) (p : Z) : list Z :=
  match n with O => [] | S n' => p :: ring_addrs st nd n' (ring_next st nd p) end.

(** The bytes [vs] may be read at the addresses [addrs]. *)
Definition reads_as (b : gmap Z Z) (addrs vs : list Z) : Prop :=
  Forall2 (fun a v => is_u8 v /\ forall x, b !! a = Some x -> v = x) addrs vs.

Definition in_ring (c : chip) (a : Z) : bool := (rx_start c <=? a) && (a <=? rx_end c).

(** [a] lies in the part of the ring that moving the read pointer from [old] to [new] frees. *)
Definition freed (old new a : Z) : bool :=
  if old <=? new then (old <? a) && (a <=? new) else (old <? a) || (a <=? new).

Definition release_to (new : Z) (c : chip) : chip :=
  mk_chip (regs c)
    (filter (fun ab => ~ (in_ring c ab.1 && freed (rx_released c) new ab.1 = true)) (buffer c))
    new (phy c) (clk_wait c) (mii_wait c) (sent c) (released c) (arrived c).

(** Writing [data] from address [p]: bytes outside the ring become stable, bytes inside do not. *)
Fixpoint write_bytes (c : chip) (p : Z) (data : list Z) (b : gmap Z Z) : gmap Z Z :=
  match data with
  | [] => b
  | v :: data' =>
    write_bytes c ((p + 1) mod 8192) data' (if in_ring c p then delete p b else <[p := v]> b)
  end.

(** ** Effects of the commands *)

(** Reading register key [k] may return [v] and leaves the chip in [c']. The hardware clears
    ECON1.TXRTS when a transmission ends and never sets it; EIR.PKTIF is only set while there are
    packets that have not been released. *)
Definition chip_read (c : chip) (k : Z * Z) (v : Z) (c' : chip) : Prop :=
  is_u8 v /\
  v .& Z.lnot (hw_bits k) = reg c k .& Z.lnot (hw_bits k) /\
  (k = (0, ENC28_CR_ESTAT) -> v .& 1 = 0 -> clk_wait c <> 0%nat) /\
  (k = (3, ENC28_CR_MISTAT) -> v .& 1 <> 0 -> mii_wait c <> 0%nat) /\
  (k = (0, ENC28_CR_ECON1) -> Z.testbit v ENC28_ECON1_TXRTS = true ->
   Z.testbit (reg c k) ENC28_ECON1_TXRTS = true) /\
  (k = (0, ENC28_CR_EIR) -> Z.testbit v ENC28_EIR_PKTIF = true -> (released c < arrived c)%nat) /\
  c' = if decide (hw_bits k = 0) then c
       else if decide (k = (0, ENC28_CR_ESTAT)) then
         set_waits (pred (clk_wait c)) (mii_wait c) (set_reg k v c)
       else if decide (k = (3, ENC28_CR_MISTAT)) then
         let c1 := set_waits (clk_wait c) (pred (mii_wait c)) (set_reg k v c) in
         if (v .& 1 =? 0) && negb (reg c (2, ENC28_CR_MICMD) .& bit ENC28_MICMD_MIIRD =? 0) then
           let w := phy c !!! reg c (2, ENC28_CR_MIREGADR) in
           set_reg (2, ENC28_CR_MIRDH) (Z.shiftr w 8) (set_reg (2, ENC28_CR_MIRDL) (w .& 0xFF) c1)
         else c1
       else set_reg k v c.

(** A frame that goes out when the buffer is as in [c]: the bytes after the control byte up to the
    end pointer. *)
Definition transmits (c : chip) (f : list Z) : Prop :=
  let st := pointer c ENC28_CR_ETXSTL ENC28_CR_ETXSTH in
  let nd := pointer c ENC28_CR_ETXNDL ENC28_CR_ETXNDH in
  reads_as (buffer c) ((fun i => st + 1 + Z.of_nat i) <$> seq 0 (Z.to_nat (nd - st))) f.

Section effects.
Variable mii_bound : nat.

(** Storing [v] in register key [k]. *)
Definition chip_store (c : chip) (k : Z * Z) (v : Z) (c' : chip) : Prop :=
  if decide (k = (0, ENC28_CR_ECON1)) then
    if Z.testbit v ENC28_ECON1_TXRTS && negb (Z.testbit (reg c k) ENC28_ECON1_TXRTS) then
      exists f, transmits c f /\ c' = add_sent f (set_reg k v c)
    else c' = set_reg k v c
  else if decide (k = (0, ENC28_CR_ECON2)) then
    c' = set_reg k (v .& Z.lnot (bit ENC28_ECON2_PKTDEC))
           (if Z.testbit v ENC28_ECON2_PKTDEC then add_released c else c)
  else if decide (k = (2, ENC28_CR_MICMD)) then
    c' = set_reg k v (if Z.testbit v ENC28_MICMD_MIIRD then set_waits (clk_wait c) mii_bound c
                      else c)
  else if decide (k = (0, ENC28_CR_ERXRDPTH)) then
    c' = release_to (reg c (0, ENC28_CR_ERXRDPTL) .| Z.shiftl (v .& 0x1F) 8) (set_reg k v c)
  else c' = set_reg k v c.

Definition chip_bfs (c : chip) (k : Z * Z) (m : Z) (c' : chip) : Prop :=
  if mac_mii_key k then exists v, is_u8 v /\ c' = set_reg k v c
  else chip_store c k (reg c k .| m) c'.

Definition chip_bfc (c : chip) (k : Z * Z) (m : Z) (c' : chip) : Prop :=
  if mac_mii_key k then exists v, is_u8 v /\ c' = set_reg k v c
  else chip_store c k (reg c k .& Z.lnot m) c'.
End effects.

(** Reading [n] bytes of buffer memory with the read pointer incrementing on its own. *)
Definition chip_rbm (c : chip) (n : nat) (vs : list Z) (c' : chip) : Prop :=
  let p := pointer c ENC28_CR_ERDPTL ENC28_CR_ERDPTH in
  let p' := ring_iter (rx_start c) (rx_end c) n p in
  reads_as (buffer c) (ring_addrs (rx_start c) (rx_end c) n p) vs /\
  c' = set_reg (0, ENC28_CR_ERDPTH) (Z.shiftr p' 8)
         (set_reg (0, ENC28_CR_ERDPTL) (p' .& 0xFF) c).

Definition chip_wbm (c : chip) (data : list Z) (c' : chip) : Prop :=
  let p := pointer c ENC28_CR_EWRPTL ENC28_CR_EWRPTH in
  let p' := (p + Z.of_nat (length data)) mod 8192 in
  c' = set_reg (0, ENC28_CR_EWRPTH) (Z.shiftr p' 8)
         (set_reg (0, ENC28_CR_EWRPTL) (p' .& 0xFF)
            (set_buffer (write_bytes c p data (buffer c)) c)).

Definition autoinc (c : chip) : bool := Z.testbit (reg c (0, ENC28_CR_ECON2)) ENC28_ECON2_AUTOINC.

(** The state after the system reset command: the reset values the driver relies on, the busy counts
    within their bounds, the buffer memory and the PHY identification as before. *)
Definition after_reset (clk_bound mii_bound : nat) (c c' : chip) : Prop :=
  reg c' (0, ENC28_CR_ECON1) = 0 /\ reg c' (0, ENC28_CR_ECON2) = 0x80 /\ reg c' (0, ENC28_CR_EIE) = 0 /\
  (clk_wait c' <= clk_bound)%nat /\ (mii_wait c' <= mii_bound)%nat /\
  buffer c' = buffer c /\ sent c' = sent c /\
  phy c' !!! ENC28_PHYR_PHID1 = phy c !!! ENC28_PHYR_PHID1 /\
  phy c' !!! ENC28_PHYR_PHID2 = phy c !!! ENC28_PHYR_PHID2 /\
  is_u16 (phy c' !!! ENC28_PHYR_PHCON1) /\
  released c' = 0%nat /\ arrived c' = 0%nat.

(** * The interface *)

(** The callbacks of a fully populated context. *)
Record spi_callbacks (W : Type) : Type := {
  dev_nss : Z -> W -> W;
  dev_out : list Z -> W -> W;
  dev_in : list Z -> W -> list Z * W;
  dev_in_out : list Z -> list Z -> W -> list Z * W;
  dev_wait : Z -> W -> W
}.
Arguments dev_nss {W}.
Arguments dev_out {W}.
Arguments dev_in {W}.
Arguments dev_in_out {W}.
Arguments dev_wait {W}.

Definition context_of {W} (d : spi_callbacks W) : ENC28_SPI_Context W := {|
  nss_pin_op := Some (dev_nss d);
  spi_out_op := Some (dev_out d);
  spi_in_op := Some (dev_in d);
  spi_in_out_op := Some (dev_in_out d);
  wait_nano := Some (dev_wait d)
|}.

(** [rep w c]: the environment [w] holds an idle chip in the abstract state [c]. *)
Class Enc28Device {W : Type} (d : spi_callbacks W) : Type := {
  rep : W -> chip -> Prop;
  mii_bound : nat;
  clk_bound : nat;

  wait_ok w c n : rep w c -> rep (dev_wait d n w) c;

  deselect_ok w c : rep w c -> rep (dev_nss d 1 w) c;

  rcr_ok w c r x :
    rep w c -> 0 <= r < 32 -> mac_mii_key (cur_key c r) = false ->
    exists v w' c', dev_in d [x] (dev_out d [r] (dev_nss d 0 w)) = ([v], w') /\
                    chip_read c (cur_key c r) v c' /\ rep (dev_nss d 1 w') c';

  rcr_mac_ok w c r x y :
    rep w c -> 0 <= r < 32 -> mac_mii_key (cur_key c r) = true ->
    exists dummy v w' c', dev_in d [x; y] (dev_out d [r] (dev_nss d 0 w)) = ([dummy; v], w') /\
                          chip_read c (cur_key c r) v c' /\ rep (dev_nss d 1 w') c';

  wcr_ok w c r v t1 t2 :
    rep w c -> 0 <= r < 32 -> is_u8 v ->
    exists c', chip_store mii_bound c (cur_key c r) v c' /\
               rep (dev_nss d 1 (dev_wait d t2
                      (dev_out d [Z.lor 0x40 r; v] (dev_wait d t1 (dev_nss d 0 w))))) c';

  bfs_ok w c r m :
    rep w c -> 0 <= r < 32 -> is_u8 m ->
    exists c', chip_bfs mii_bound c (cur_key c r) m c' /\
               rep (dev_nss d 1 (dev_out d [Z.lor 0x80 r; m] (dev_nss d 0 w))) c';

  bfc_ok w c r m :
    rep w c -> 0 <= r < 32 -> is_u8 m ->
    exists c', chip_bfc mii_bound c (cur_key c r) m c' /\
               rep (dev_nss d 1 (dev_out d [Z.lor 0xA0 r; m] (dev_nss d 0 w))) c';

  rbm_in_out_ok w c zs rx :
    rep w c -> autoinc c = true -> length rx = S (length zs) ->
    exists dummy vs w' c',
      dev_in_out d (0x3A :: zs) rx (dev_nss d 0 w) = (dummy :: vs, w') /\
      chip_rbm c (length zs) vs c' /\ rep (dev_nss d 1 w') c';

  rbm_in_ok w c buf :
    rep w c -> autoinc c = true ->
    exists vs w' c',
      dev_in d buf (dev_out d [0x3A] (dev_nss d 0 w)) = (vs, w') /\
      chip_rbm c (length buf) vs c' /\ rep (dev_nss d 1 w') c';

  wbm_ok w c ctrl data :
    rep w c -> is_u8 ctrl -> Forall is_u8 data ->
    exists c', chip_wbm c (ctrl :: data) c' /\
               rep (dev_nss d 1 (dev_out d data (dev_out d [0x7A; ctrl] (dev_nss d 0 w)))) c';

  src_ok w c :
    rep w c ->
    exists c', after_reset clk_bound mii_bound c c' /\
               rep (dev_nss d 1 (dev_out d [0xFF] (dev_nss d 0 w))) c'
}.
