(* ===== verification/Enc28Spec.v ===== *)
(** What the register functions of the driver do to a conforming device.

    Everything here is proved against the interface [Enc28Device] only. [is_chip c] is the simulation
    relation between the driver state and the abstract chip: the environment holds a chip in state
    [c] and the driver's bank variable agrees with the chip's. The first group of triples gives the
    exact effect of each register function; the second group ([at_regs]) is the form the larger
    operations are proved with: a list of known register values, and a property of the rest of the
    chip that is framed through. *)
From Stdlib Require Import ZArith Lia Bool.
From stdpp Require Import base decidable list gmap.
From S2P Require Import Prelude Enc28Regs Enc28Driver Enc28Device.

(** * Register files *)

Lemma reg_set_eq k v c : reg (set_reg k v c) k = v.
Proof. unfold reg, set_reg, set_regs. cbn. apply lookup_total_insert_eq. Qed.

Lemma reg_set_ne k k' v c : k <> k' -> reg (set_reg k v c) k' = reg c k'.
Proof. intros H. unfold reg, set_reg, set_regs. cbn. now apply lookup_total_insert_ne. Qed.

Definition econ1_key : Z * Z := (0, ENC28_CR_ECON1).

Lemma chip_bank_eq c c' : reg c' econ1_key = reg c econ1_key -> chip_bank c' = chip_bank c.
Proof. unfold chip_bank, econ1_key. now intros ->. Qed.

(** Registers the driver accepts. *)
Definition usable_reg (r : Z) : Prop := 0 <= r < 32 /\ r <> 0x1A.

Lemma usable_not_reserved r : usable_reg r -> CHECK_RESERVED_REG r = false.
Proof. intros [_ H]. now apply Z.eqb_neq. Qed.

Lemma rcr_command r : 0 <= r < 32 ->
  u8 (Z.shiftl ENC28_OP_RCR ENC28_SPI_ARG_BITS .| (r .& ENC28_SPI_ARG_MASK)) = r.
Proof.
  intros H. apply Z.eqb_eq.
  apply (zrange_forallb 32 (fun r =>
    u8 (Z.shiftl ENC28_OP_RCR ENC28_SPI_ARG_BITS .| (r .& ENC28_SPI_ARG_MASK)) =? r));
    [vm_compute; reflexivity | exact H].
Qed.

(** The command byte of opcode [op]. *)
Lemma cmd16_bytes op code r v :
  0 <= r < 32 -> is_u8 v ->
  forallb (fun r => (u8 (Z.shiftl op ENC28_SPI_ARG_BITS .| (r .& ENC28_SPI_ARG_MASK))
                     =? code .| r) && ((code .| r) <? 256) && (0 <=? code .| r)) (zrange 32) = true ->
  CHECK_RESERVED_REG r = false ->
  exists w, prepare_cmd16 op (Some 0) r v = (ENC28_OK, Some w) /\
            [u8 (Z.shiftr w 8); w .& 0xFF] = [code .| r; v].
Proof.
  intros Hr Hv Hcheck Hres. unfold prepare_cmd16. rewrite Hres.
  eexists. split; [reflexivity |].
  pose proof (zrange_forallb 32 _ r Hcheck Hr) as E.
  rewrite !andb_true_iff, Z.eqb_eq, Z.ltb_lt, Z.leb_le in E. destruct E as [[E L] L'].
  rewrite E. rewrite u16_small by (apply pair_is_u16; [split; assumption | exact Hv]).
  rewrite shiftr8_pair, land_ff_pair by exact Hv.
  now rewrite u8_small by (split; assumption).
Qed.

(** * Exact effects of the register functions *)

(** ** Sequencing at a point

    [runs m s a s']: the computation [m] started in [s] returns [a] in state [s']. *)
Definition runs {S A} (m : prog S A) (s : S) (a : A) (s' : S) : Prop := m s = Done a s'.

Lemma runs_bind {S A B} (m : prog S A) (k : A -> prog S B) s a s1 b s2 :
  runs m s a s1 -> runs (k a) s1 b s2 -> runs (bind m k) s b s2.
Proof. unfold runs. intros H1 H2. unfold bind. now rewrite H1. Qed.

Lemma chip_read_bank c k v c' : chip_read c k v c' -> chip_bank c' = chip_bank c.
Proof.
  intros (_ & Hv & _ & _ & _ & _ & ->).
  destruct (decide (k = econ1_key)) as [-> | Hk].
  - rewrite !decide_False by discriminate. unfold chip_bank. fold econ1_key. rewrite reg_set_eq.
    apply (land_lnot_sub _ _ _ _ Hv). reflexivity.
  - apply chip_bank_eq.
    repeat case_decide; try case_match; try reflexivity;
      unfold set_waits, set_reg, set_regs, reg; cbn;
      rewrite ?lookup_total_insert_ne by (congruence || discriminate); reflexivity.
Qed.

Lemma chip_store_bank mb c k v c' :
  k <> econ1_key -> chip_store mb c k v c' -> chip_bank c' = chip_bank c.
Proof.
  intros Hk Hst. apply chip_bank_eq. unfold chip_store in Hst.
  repeat case_decide; try contradiction; subst c'; try case_match;
    unfold release_to, set_reg, set_regs, set_waits, add_released, reg; cbn;
    rewrite ?lookup_total_insert_ne by congruence; reflexivity.
Qed.

Lemma chip_store_econ1 mb c v c' :
  chip_store mb c econ1_key v c' -> chip_bank c' = v .& 3.
Proof.
  unfold chip_store. rewrite decide_True by reflexivity. unfold chip_bank. fold econ1_key.
  case_match.
  - intros (f & _ & ->). change (reg (add_sent f (set_reg econ1_key v c)) econ1_key)
      with (reg (set_reg econ1_key v c) econ1_key). now rewrite reg_set_eq.
  - intros ->. now rewrite reg_set_eq.
Qed.

Section Spec.
Context {W : Type} {d : spi_callbacks W} `{HD : !Enc28Device d}.
Implicit Types (s : drv W) (c : chip).

#[local] Abbreviation ctx := (Some (context_of d)).

(** The simulation relation. *)
Definition is_chip c s : Prop :=
  rep (world s) c /\ priv_enc28_curr_bank s = chip_bank c.

(** The driver's register classification agrees with the chip's for the register it reads. *)
Definition classified c (r : Z) : Prop :=
  is_mac_or_mii_reg_in (chip_bank c) r = mac_mii_key (cur_key c r).

Lemma ctx_complete : ctx_incomplete ctx = false /\ ctx_incomplete_wait ctx = false.
Proof. split; reflexivity. Qed.

(** Reading a control register returns what the chip returns, in both read protocols. *)
Lemma read_ctl_reg_exact c s r old :
  usable_reg r -> classified c r -> is_chip c s ->
  exists v c' s', runs (enc28_do_read_ctl_reg ctx r (Some old)) s (ENC28_OK, Some v) s' /\
    chip_read c (cur_key c r) v c' /\ is_chip c' s'.
Proof.
  intros Hr Hcl [Hrep Hb]. destruct s as [b w]. cbn in Hb, Hrep. subst b.
  unfold runs, enc28_do_read_ctl_reg, enc28_prepare_read_ctl_reg. cbn -[Z.land u8].
  rewrite (usable_not_reserved r Hr), (rcr_command r (proj1 Hr)).
  unfold priv_enc28_is_mac_or_mii_reg, bind, get, ret. cbn. rewrite Hcl.
  unfold call_nss_pin_op, call_spi_out_op, call_spi_in_op, on_world, on_world_r, modify.
  cbn. destruct (mac_mii_key (cur_key c r)) eqn:Ek; cbn.
  - destruct (rcr_mac_ok w c r 0 0 Hrep (proj1 Hr) Ek) as (dm & v & w' & c' & E & Hread & Hrep').
    rewrite E. exists v, c', (mk_drv (chip_bank c) (dev_nss d 1 w')). split; [reflexivity |].
    split; [exact Hread |]. split; [exact Hrep' |].
    cbn. symmetry. exact (chip_read_bank _ _ _ _ Hread).
  - destruct (rcr_ok w c r old Hrep (proj1 Hr) Ek) as (v & w' & c' & E & Hread & Hrep').
    rewrite E. exists v, c', (mk_drv (chip_bank c) (dev_nss d 1 w')). split; [reflexivity |].
    split; [exact Hread |]. split; [exact Hrep' |].
    cbn. symmetry. exact (chip_read_bank _ _ _ _ Hread).
Qed.

(** Writing stores the value; the driver's bank variable is left as it is. *)
Lemma write_ctl_reg_exact c s r v :
  usable_reg r -> is_u8 v -> is_chip c s ->
  exists c' s', runs (enc28_do_write_ctl_reg ctx r v) s ENC28_OK s' /\
    chip_store mii_bound c (cur_key c r) v c' /\ rep (world s') c' /\
    priv_enc28_curr_bank s' = priv_enc28_curr_bank s.
Proof.
  intros Hr Hv [Hrep Hb]. destruct s as [b w]. cbn in Hb, Hrep.
  destruct (cmd16_bytes ENC28_OP_WCR 0x40 r v (proj1 Hr) Hv eq_refl (usable_not_reserved r Hr))
    as (cw & Ecmd & Ebytes).
  destruct (wcr_ok w c r v 50 210 Hrep (proj1 Hr) Hv) as (c' & Hst & Hrep').
  match type of Hrep' with rep ?w' _ => exists c', (mk_drv b w') end.
  split; [| split; [exact Hst | split; [exact Hrep' | reflexivity]]].
  unfold runs, enc28_do_write_ctl_reg, enc28_prepare_write_ctl_reg. cbn -[prepare_cmd16 Z.land u8].
  rewrite Ecmd, Ebytes. reflexivity.
Qed.

Lemma set_bits_ctl_reg_exact c s r m :
  usable_reg r -> is_u8 m -> is_chip c s ->
  exists c' s', runs (enc28_do_set_bits_ctl_reg ctx r m) s ENC28_OK s' /\
    chip_bfs mii_bound c (cur_key c r) m c' /\ rep (world s') c' /\
    priv_enc28_curr_bank s' = priv_enc28_curr_bank s.
Proof.
  intros Hr Hv [Hrep Hb]. destruct s as [b w]. cbn in Hb, Hrep.
  destruct (cmd16_bytes ENC28_OP_BFS 0x80 r m (proj1 Hr) Hv eq_refl (usable_not_reserved r Hr))
    as (cw & Ecmd & Ebytes).
  destruct (bfs_ok w c r m Hrep (proj1 Hr) Hv) as (c' & Hst & Hrep').
  match type of Hrep' with rep ?w' _ => exists c', (mk_drv b w') end.
  split; [| split; [exact Hst | split; [exact Hrep' | reflexivity]]].
  unfold runs, enc28_do_set_bits_ctl_reg, enc28_prepare_set_bits_ctl_reg.
  cbn -[prepare_cmd16 Z.land u8]. rewrite Ecmd, Ebytes. reflexivity.
Qed.

Lemma clear_bits_ctl_reg_exact c s r m :
  usable_reg r -> is_u8 m -> is_chip c s ->
  exists c' s', runs (enc28_do_clear_bits_ctl_reg ctx r m) s ENC28_OK s' /\
    chip_bfc mii_bound c (cur_key c r) m c' /\ rep (world s') c' /\
    priv_enc28_curr_bank s' = priv_enc28_curr_bank s.
Proof.
  intros Hr Hv [Hrep Hb]. destruct s as [b w]. cbn in Hb, Hrep.
  destruct (cmd16_bytes ENC28_OP_BFC 0xA0 r m (proj1 Hr) Hv eq_refl (usable_not_reserved r Hr))
    as (cw & Ecmd & Ebytes).
  destruct (bfc_ok w c r m Hrep (proj1 Hr) Hv) as (c' & Hst & Hrep').
  match type of Hrep' with rep ?w' _ => exists c', (mk_drv b w') end.
  split; [| split; [exact Hst | split; [exact Hrep' | reflexivity]]].
  unfold runs, enc28_do_clear_bits_ctl_reg, enc28_prepare_clear_bits_ctl_reg.
  cbn -[prepare_cmd16 Z.land u8]. rewrite Ecmd, Ebytes. reflexivity.
Qed.
End Spec.
