(* ===== verification/Enc28Hoare.v ===== *)
(** A small program logic for straight-line driver code.

    [at_state K F] describes the driver and the chip by what is known of them: the selected bank,
    register values ([k_regs], newest first, [None] meaning no longer known), bounds on the pending
    busy counts, and a property [F] of everything that is not a register (buffer memory, PHY, frames
    sent, packets released). Each register function has one rule; a function of the driver is then
    verified by applying the rules in program order. *)
From Stdlib Require Import ZArith Lia Bool.
From stdpp Require Import base decidable list gmap.
From S2P Require Import Prelude Enc28Regs Enc28Driver Enc28Device Enc28Spec.

(** * What is known of a chip *)

Record known : Type := mk_known {
  k_bank : Z;
  k_regs : list ((Z * Z) * option Z);
  k_clk : nat;
  k_mii : nat
}.

Fixpoint assoc (l : list ((Z * Z) * option Z)) (k : Z * Z) : option Z :=
  match l with
  | [] => None
  | (k', o) :: l' => if decide (k = k') then o else assoc l' k
  end.

Definition know (k : Z * Z) (v : Z) (K : known) : known :=
  mk_known (k_bank K) ((k, Some v) :: k_regs K) (k_clk K) (k_mii K).
Definition forget (k : Z * Z) (K : known) : known :=
  mk_known (k_bank K) ((k, None) :: k_regs K) (k_clk K) (k_mii K).
Definition in_bank (b : Z) (K : known) : known := mk_known b (k_regs K) (k_clk K) (k_mii K).
Definition busy (m : nat) (K : known) : known := mk_known (k_bank K) (k_regs K) (k_clk K) m.

Definition facts (l : list ((Z * Z) * option Z)) (c : chip) : Prop :=
  forall k v, assoc l k = Some v -> reg c k = v.

Lemma facts_know l k v c c' :
  facts l c -> reg c' k = v -> (forall k', k' <> k -> reg c' k' = reg c k') ->
  facts ((k, Some v) :: l) c'.
Proof.
  intros Hl Hv Hne k' v'. cbn. case_decide as E; [congruence |].
  intros Ha. rewrite Hne by exact E. now apply Hl.
Qed.

Lemma facts_forget l k c c' :
  facts l c -> (forall k', k' <> k -> reg c' k' = reg c k') -> facts ((k, None) :: l) c'.
Proof.
  intros Hl Hne k' v'. cbn. case_decide as E; [congruence |].
  intros Ha. rewrite Hne by exact E. now apply Hl.
Qed.

Lemma facts_same l c c' : facts l c -> (forall k, reg c' k = reg c k) -> facts l c'.
Proof. intros Hl Hne k v Ha. rewrite Hne. now apply Hl. Qed.

(** A transmission was requested and was not yet seen to be over. *)
Definition tx_busy (c : chip) : bool := Z.testbit (reg c econ1_key) ENC28_ECON1_TXRTS.

(** Everything but registers and busy counts is as before, and an idle transmitter stays idle. *)
Definition same_rest (c c' : chip) : Prop :=
  buffer c' = buffer c /\ rx_released c' = rx_released c /\ phy c' = phy c /\
  sent c' = sent c /\ released c' = released c /\ arrived c' = arrived c /\ (tx_busy c = false -> tx_busy c' = false).

Lemma same_rest_refl c : same_rest c c.
Proof. repeat split. intros H. exact H. Qed.

Lemma same_rest_trans c1 c2 c3 : same_rest c1 c2 -> same_rest c2 c3 -> same_rest c1 c3.
Proof.
  intros (A1 & A2 & A3 & A4 & A5 & A6 & A7) (B1 & B2 & B3 & B4 & B5 & B6 & B7).
  repeat split; [congruence.. | auto].
Qed.

Lemma tx_busy_eq c c' : reg c' econ1_key = reg c econ1_key -> tx_busy c' = tx_busy c.
Proof. unfold tx_busy. now intros ->. Qed.

Lemma same_rest_set_reg k v c : k <> econ1_key -> same_rest c (set_reg k v c).
Proof.
  intros H. repeat split. intros <-. apply tx_busy_eq. now apply reg_set_ne.
Qed.

Lemma same_rest_waits n m c : same_rest c (set_waits n m c).
Proof. repeat split. intros H. exact H. Qed.

Class RegFree (F : chip -> Prop) : Prop :=
  reg_free c c' : same_rest c c' -> F c -> F c'.

#[export] Instance reg_free_true : RegFree (fun _ => True).
Proof. intros c c' _ _. exact I. Qed.

#[export] Instance reg_free_rest c0 : RegFree (same_rest c0).
Proof. intros c c' H1 H0. exact (same_rest_trans _ _ _ H0 H1). Qed.

(** Properties that do not look at the buffer memory either. *)
Class BufferFree (F : chip -> Prop) : Prop :=
  buffer_free c c' : phy c' = phy c -> sent c' = sent c -> released c' = released c ->
                     arrived c' = arrived c -> F c -> F c'.

#[export] Instance buffer_free_true : BufferFree (fun _ => True).
Proof. intros c c' _ _ _ _ _. exact I. Qed.

#[export] Instance buffer_free_phy ph : BufferFree (fun c => phy c = ph).
Proof. intros c c' E _ _ _ H. now rewrite E. Qed.

#[export] Instance buffer_free_reg_free F `{!BufferFree F} : RegFree F.
Proof. intros c c' (_ & _ & E1 & E2 & E3 & E4 & _). now apply buffer_free. Qed.

(** ... and the hardware's read limit is at [x]. *)
Definition latched (x : Z) (F : chip -> Prop) (c : chip) : Prop := F c /\ rx_released c = x.

#[export] Instance latched_reg_free x F `{HF : !RegFree F} : RegFree (latched x F).
Proof.
  intros c c' Hr [H1 H2]. split; [exact (HF c c' Hr H1) |]. destruct Hr as (_ & -> & _). exact H2.
Qed.

(** Registers whose stores do more than store. *)
Definition plain_key (k : Z * Z) : bool :=
  negb (bool_decide (k = (0, ENC28_CR_ECON1)) || bool_decide (k = (0, ENC28_CR_ECON2)) ||
        bool_decide (k = (2, ENC28_CR_MICMD)) || bool_decide (k = (0, ENC28_CR_ERXRDPTH))).

Lemma plain_store mb c k v c' :
  plain_key k = true -> chip_store mb c k v c' -> c' = set_reg k v c.
Proof.
  unfold plain_key, chip_store. rewrite negb_true_iff, !orb_false_iff, !bool_decide_eq_false.
  intros [[[H1 H2] H3] H4]. now rewrite !decide_False by assumption.
Qed.

Lemma plain_not_econ1 k : plain_key k = true -> k <> econ1_key.
Proof. intros H ->. discriminate H. Qed.

(** A read changes at most the register it reads, the busy counts and, for MISTAT, the data
    registers of the management interface. *)
Lemma chip_read_effect c k v c' :
  chip_read c k v c' ->
  same_rest c c' /\ (clk_wait c' <= clk_wait c)%nat /\ (mii_wait c' <= mii_wait c)%nat /\
  (hw_bits k = 0 -> c' = c /\ v = reg c k) /\
  (forall k', k' <> k -> k <> (3, ENC28_CR_MISTAT) -> reg c' k' = reg c k') /\
  (forall k', k' <> k -> k' <> (2, ENC28_CR_MIRDL) -> k' <> (2, ENC28_CR_MIRDH) ->
              reg c' k' = reg c k').
Proof.
  intros (Hv & Hb & _ & _ & Htx & _ & ->).
  split; [| split; [| split; [| split; [| split]]]].
  - destruct (decide (k = econ1_key)) as [-> | Hk].
    + rewrite !decide_False by discriminate. repeat split. unfold tx_busy. rewrite reg_set_eq.
      intros Hi. destruct (Z.testbit v ENC28_ECON1_TXRTS); [| reflexivity].
      now rewrite (Htx eq_refl eq_refl) in Hi.
    + pose proof (same_rest_set_reg k v c Hk) as Hkv.
      repeat case_decide; try case_match; try apply same_rest_refl; try exact Hkv.
      repeat (eapply same_rest_trans; [| apply same_rest_set_reg; discriminate]). exact Hkv.
  - repeat case_decide; try case_match; cbn; lia.
  - repeat case_decide; try case_match; cbn; lia.
  - intros E. rewrite decide_True by exact E. rewrite E in Hb. cbn in Hb.
    rewrite !Z.land_m1_r in Hb. auto.
  - intros k' Hne Hm. repeat case_decide; try contradiction; try reflexivity.
    + unfold set_waits. change (reg (set_reg k v c) k' = reg c k'). now apply reg_set_ne.
    + now apply reg_set_ne.
  - intros k' Hne H1 H2. repeat case_decide; try reflexivity.
    + change (reg (set_reg k v c) k' = reg c k'). now apply reg_set_ne.
    + case_match.
      * rewrite !reg_set_ne by congruence.
        change (reg (set_reg k v c) k' = reg c k'). now apply reg_set_ne.
      * change (reg (set_reg k v c) k' = reg c k'). now apply reg_set_ne.
    + now apply reg_set_ne.
Qed.

(** * Assertions and rules *)

Section Rules.
Context {W : Type} {d : spi_callbacks W} `{HD : !Enc28Device d}.
Implicit Types (K : known) (F : chip -> Prop).

#[local] Abbreviation ctx := (Some (context_of d)).

Definition at_chip K F (c : chip) : Prop :=
  chip_bank c = k_bank K /\ facts (k_regs K) c /\
  (clk_wait c <= k_clk K)%nat /\ (mii_wait c <= k_mii K)%nat /\ F c.

Definition at_state K F (s : drv W) : Prop := exists c, is_chip c s /\ at_chip K F c.

(** [status = m; EXIT_IF_ERR(status);] when [m] succeeds. *)
Lemma triple_exit {S A} (P : S -> Prop) (m : prog S ENC28_CommandStatus) (e : _ -> A) k R Q :
  triple P m (fun st s => st = ENC28_OK /\ R s) -> triple R k Q ->
  triple P (bind m (fun st => exit_if_err st (e st) k)) Q.
Proof.
  intros Hm Hk. eapply triple_bind; [exact Hm |].
  intros st. apply triple_pure. intros ->. exact Hk.
Qed.

(** Storing into a plain register. *)
Lemma at_chip_plain K F `{!RegFree F} c k v :
  plain_key k = true -> at_chip K F c -> at_chip (know k v K) F (set_reg k v c).
Proof.
  intros Hk (Hb & Hf & H1 & H2 & HF).
  split; [| split; [| split; [exact H1 | split; [exact H2 |]]]].
  - transitivity (chip_bank c); [| exact Hb].
    apply chip_bank_eq, reg_set_ne. now apply plain_not_econ1.
  - apply facts_know with c; [exact Hf | apply reg_set_eq |].
    intros k' Hne. apply reg_set_ne. congruence.
  - refine (reg_free c _ _ HF). apply same_rest_set_reg. now apply plain_not_econ1.
Qed.

Lemma at_chip_plain_forget K F `{!RegFree F} c k v :
  plain_key k = true -> at_chip K F c -> at_chip (forget k K) F (set_reg k v c).
Proof.
  intros Hk (Hb & Hf & H1 & H2 & HF).
  split; [| split; [| split; [exact H1 | split; [exact H2 |]]]].
  - transitivity (chip_bank c); [| exact Hb].
    apply chip_bank_eq, reg_set_ne. now apply plain_not_econ1.
  - apply facts_forget with c; [exact Hf |].
    intros k' Hne. apply reg_set_ne. congruence.
  - refine (reg_free c _ _ HF). apply same_rest_set_reg. now apply plain_not_econ1.
Qed.

(** Re-establishing an assertion after a frame that left the driver's bank variable alone. *)
Lemma at_state_frame K K' F c c' s s' :
  is_chip c s -> at_chip K F c -> rep (world s') c' ->
  priv_enc28_curr_bank s' = priv_enc28_curr_bank s -> at_chip K' F c' ->
  k_bank K' = k_bank K -> at_state K' F s'.
Proof.
  intros [_ Hs] [Hb _] Hrep Hbk Hc' HK. exists c'. split; [split; [exact Hrep |] | exact Hc'].
  destruct Hc' as [Hb' _]. congruence.
Qed.

Lemma at_chip_key K F c r : at_chip K F c -> cur_key c r = reg_key (k_bank K) r.
Proof. intros (Hb & _). unfold cur_key. now rewrite Hb. Qed.

Lemma at_write K F `{!RegFree F} r v k :
  usable_reg r -> is_u8 v -> reg_key (k_bank K) r = k -> plain_key k = true ->
  triple (at_state K F) (enc28_do_write_ctl_reg ctx r v)
    (fun st s => st = ENC28_OK /\ at_state (know k v K) F s).
Proof.
  intros Hr Hv Ekey Hk s (c & Hs & Hc).
  destruct (write_ctl_reg_exact c s r v Hr Hv Hs) as (c' & s' & E & Hst & Hrep & Hbk).
  exists ENC28_OK, s'. split; [exact E |]. split; [reflexivity |].
  rewrite (at_chip_key _ _ _ r Hc), Ekey in Hst.
  pose proof (at_chip_plain K F c _ v Hk Hc) as Hc'.
  apply (plain_store _ _ _ _ _ Hk) in Hst. subst c'.
  exact (at_state_frame _ _ _ _ _ _ _ Hs Hc Hrep Hbk Hc' eq_refl).
Qed.

(** Starting a PHY read. *)
Lemma at_write_micmd K F `{!RegFree F} v :
  is_u8 v -> k_bank K = 2 ->
  triple (at_state K F) (enc28_do_write_ctl_reg ctx ENC28_CR_MICMD v)
    (fun st s => st = ENC28_OK /\
       at_state (know (2, ENC28_CR_MICMD) v
                   (if Z.testbit v ENC28_MICMD_MIIRD then busy mii_bound K else K)) F s).
Proof.
  intros Hv Hb2 s (c & Hs & Hc).
  assert (Hr : usable_reg ENC28_CR_MICMD) by (split; [unfold ENC28_CR_MICMD; lia | discriminate]).
  destruct (write_ctl_reg_exact c s _ v Hr Hv Hs) as (c' & s' & E & Hst & Hrep & Hbk).
  exists ENC28_OK, s'. split; [exact E |]. split; [reflexivity |].
  rewrite (at_chip_key _ _ _ _ Hc), Hb2 in Hst.
  change (reg_key 2 ENC28_CR_MICMD) with (2, ENC28_CR_MICMD) in Hst. unfold chip_store in Hst.
  rewrite !(decide_False (P := (2, ENC28_CR_MICMD) = (0, _))) in Hst by discriminate.
  rewrite decide_True in Hst by reflexivity.
  destruct Hc as (Hb & Hf & H1 & H2 & HF).
  assert (Hbank : chip_bank c' = chip_bank c).
  { apply chip_bank_eq. subst c'. rewrite reg_set_ne by discriminate. now case_match. }
  exists c'. split; [split; [exact Hrep | rewrite Hbk, (proj2 Hs); now symmetry] |].
  assert (Hreg : forall k', k' <> (2, ENC28_CR_MICMD) -> reg c' k' = reg c k').
  { intros k' Hne. subst c'. rewrite reg_set_ne by congruence. now case_match. }
  split; [| split; [| split; [| split]]].
  - rewrite Hbank, Hb. now case_match.
  - case_match; apply facts_know with c; auto; subst c'; apply reg_set_eq.
  - subst c'. case_match; cbn in *; exact H1.
  - subst c'. case_match; cbn in *; lia.
  - refine (reg_free c _ _ HF). subst c'. case_match; apply (same_rest_trans _ (set_reg (2, ENC28_CR_MICMD) v c));
      try (apply same_rest_set_reg; discriminate); repeat split; auto.
Qed.

(** Moving the receive read pointer releases buffer memory. *)
Lemma at_write_erxrdpth K F `{HB : !BufferFree F} lo v :
  is_u8 v -> k_bank K = 0 -> assoc (k_regs K) (0, ENC28_CR_ERXRDPTL) = Some lo ->
  triple (at_state K F) (enc28_do_write_ctl_reg ctx ENC28_CR_ERXRDPTH v)
    (fun st s => st = ENC28_OK /\ at_state (know (0, ENC28_CR_ERXRDPTH) v K)
                                    (latched (lo .| Z.shiftl (v .& 0x1F) 8) F) s).
Proof.
  intros Hv Hb0 Hlo s (c & Hs & Hc).
  assert (Hr : usable_reg ENC28_CR_ERXRDPTH).
  { split; [unfold ENC28_CR_ERXRDPTH; lia | discriminate]. }
  destruct (write_ctl_reg_exact c s _ v Hr Hv Hs) as (c' & s' & E & Hst & Hrep & Hbk).
  exists ENC28_OK, s'. split; [exact E |]. split; [reflexivity |].
  rewrite (at_chip_key _ _ _ _ Hc), Hb0 in Hst.
  change (reg_key 0 ENC28_CR_ERXRDPTH) with (0, ENC28_CR_ERXRDPTH) in Hst.
  unfold chip_store in Hst. rewrite !decide_False in Hst by discriminate.
  rewrite decide_True in Hst by reflexivity.
  rewrite (proj1 (proj2 Hc) _ _ Hlo) in Hst.
  assert (Hreg : forall k, reg c' k = reg (set_reg (0, ENC28_CR_ERXRDPTH) v c) k) by now subst c'.
  destruct Hc as (Hb & Hf & H1 & H2 & HF).
  assert (Hb' : chip_bank c' = chip_bank c).
  { apply chip_bank_eq. rewrite Hreg. now apply reg_set_ne. }
  exists c'. split; [split; [exact Hrep | rewrite Hbk, Hb'; apply Hs] |].
  split; [| split; [| split; [| split]]].
  - transitivity (chip_bank c); [exact Hb' | exact Hb].
  - apply facts_know with c; [exact Hf | |].
    + rewrite Hreg. apply reg_set_eq.
    + intros k' Hne. rewrite Hreg. apply reg_set_ne. congruence.
  - subst c'. exact H1.
  - subst c'. exact H2.
  - subst c'. split; [| reflexivity]. refine (HB c _ _ _ _ _ HF); reflexivity.
Qed.

(** A set-bits command on a register whose value is known. *)
Lemma at_set_bits K F `{!RegFree F} r m old k :
  usable_reg r -> is_u8 m -> reg_key (k_bank K) r = k -> plain_key k = true ->
  mac_mii_key k = false -> assoc (k_regs K) k = Some old ->
  triple (at_state K F) (enc28_do_set_bits_ctl_reg ctx r m)
    (fun st s => st = ENC28_OK /\ at_state (know k (old .| m) K) F s).
Proof.
  intros Hr Hv Ekey Hk Hm Ho s (c & Hs & Hc).
  destruct (set_bits_ctl_reg_exact c s r m Hr Hv Hs) as (c' & s' & E & Hst & Hrep & Hbk).
  exists ENC28_OK, s'. split; [exact E |]. split; [reflexivity |].
  rewrite (at_chip_key _ _ _ r Hc), Ekey in Hst. unfold chip_bfs in Hst. rewrite Hm in Hst.
  apply (plain_store _ _ _ _ _ Hk) in Hst.
  assert (Ho' : reg c k = old) by (apply Hc; exact Ho).
  rewrite Ho' in Hst. subst c'.
  pose proof (at_chip_plain K F c _ (old .| m) Hk Hc) as Hc'.
  exact (at_state_frame _ _ _ _ _ _ _ Hs Hc Hrep Hbk Hc' eq_refl).
Qed.

(** A set-bits command on any register without other effects: its value is not known after. *)
Lemma at_set_bits_forget K F `{!RegFree F} r m k :
  usable_reg r -> is_u8 m -> reg_key (k_bank K) r = k -> plain_key k = true ->
  triple (at_state K F) (enc28_do_set_bits_ctl_reg ctx r m)
    (fun st s => st = ENC28_OK /\ at_state (forget k K) F s).
Proof.
  intros Hr Hv Ekey Hk s (c & Hs & Hc).
  destruct (set_bits_ctl_reg_exact c s r m Hr Hv Hs) as (c' & s' & E & Hst & Hrep & Hbk).
  exists ENC28_OK, s'. split; [exact E |]. split; [reflexivity |].
  rewrite (at_chip_key _ _ _ r Hc), Ekey in Hst.
  assert (exists v, c' = set_reg k v c) as [v ->].
  { unfold chip_bfs in Hst. destruct (mac_mii_key _).
    - destruct Hst as (v & _ & ->). eauto.
    - apply (plain_store _ _ _ _ _ Hk) in Hst. eauto. }
  pose proof (at_chip_plain_forget K F c _ v Hk Hc) as Hc'.
  exact (at_state_frame _ _ _ _ _ _ _ Hs Hc Hrep Hbk Hc' eq_refl).
Qed.

Lemma at_clear_bits_forget K F `{!RegFree F} r m k :
  usable_reg r -> is_u8 m -> reg_key (k_bank K) r = k -> plain_key k = true ->
  triple (at_state K F) (enc28_do_clear_bits_ctl_reg ctx r m)
    (fun st s => st = ENC28_OK /\ at_state (forget k K) F s).
Proof.
  intros Hr Hv Ekey Hk s (c & Hs & Hc).
  destruct (clear_bits_ctl_reg_exact c s r m Hr Hv Hs) as (c' & s' & E & Hst & Hrep & Hbk).
  exists ENC28_OK, s'. split; [exact E |]. split; [reflexivity |].
  rewrite (at_chip_key _ _ _ r Hc), Ekey in Hst.
  assert (exists v, c' = set_reg k v c) as [v ->].
  { unfold chip_bfc in Hst. destruct (mac_mii_key _).
    - destruct Hst as (v & _ & ->). eauto.
    - apply (plain_store _ _ _ _ _ Hk) in Hst. eauto. }
  pose proof (at_chip_plain_forget K F c _ v Hk Hc) as Hc'.
  exact (at_state_frame _ _ _ _ _ _ _ Hs Hc Hrep Hbk Hc' eq_refl).
Qed.

(** Reading. A register without hardware bits reads as the value known for it; the others read as
    some byte. *)
Lemma at_read K F `{!RegFree F} r old :
  usable_reg r -> is_mac_or_mii_reg_in (k_bank K) r = mac_mii_key (reg_key (k_bank K) r) ->
  reg_key (k_bank K) r <> (3, ENC28_CR_MISTAT) ->
  triple (at_state K F) (byref (enc28_do_read_ctl_reg ctx r) old)
    (fun sv s => sv.1 = ENC28_OK /\ is_u8 sv.2 /\
       (forall x, hw_bits (reg_key (k_bank K) r) = 0 ->
                  assoc (k_regs K) (reg_key (k_bank K) r) = Some x -> sv.2 = x) /\
       at_state (if decide (hw_bits (reg_key (k_bank K) r) = 0) then K
                 else forget (reg_key (k_bank K) r) K) F s).
Proof.
  intros Hr Hcl Hm s (c & Hs & Hc).
  assert (Hk := at_chip_key _ _ _ r Hc).
  assert (Hcl' : classified c r).
  { unfold classified. rewrite Hk. destruct Hc as [-> _]. exact Hcl. }
  destruct (read_ctl_reg_exact c s r old Hr Hcl' Hs) as (v & c' & s' & E & Hrd & Hs').
  rewrite Hk in Hrd.
  exists (ENC28_OK, v), s'. split; [unfold byref; unfold runs in E; unfold bind; now rewrite E |].
  pose proof (chip_read_effect _ _ _ _ Hrd) as (Hrest & H1 & H2 & Hpure & Hne & _).
  destruct Hc as (Hb & Hf & G1 & G2 & HF).
  split; [reflexivity |]. split; [exact (proj1 Hrd) |]. split.
  { intros x Hx Ha. destruct (Hpure Hx) as [_ ->]. now apply Hf. }
  exists c'. split; [exact Hs' |].
  pose proof (chip_read_bank _ _ _ _ Hrd) as Hbank.
  case_decide as Hx.
  - destruct (Hpure Hx) as [-> _]. repeat split; assumption.
  - split; [cbn; congruence |]. split; [| split; [cbn; lia | split; [cbn; lia |]]].
    + apply facts_forget with c; [exact Hf |]. intros k' Hk'. now apply Hne.
    + exact (reg_free _ _ Hrest HF).
Qed.

Lemma at_read_stable K F `{!RegFree F} r old x :
  usable_reg r -> is_mac_or_mii_reg_in (k_bank K) r = mac_mii_key (reg_key (k_bank K) r) ->
  hw_bits (reg_key (k_bank K) r) = 0 -> assoc (k_regs K) (reg_key (k_bank K) r) = Some x ->
  triple (at_state K F) (byref (enc28_do_read_ctl_reg ctx r) old)
    (fun sv s => sv = (ENC28_OK, x) /\ at_state K F s).
Proof.
  intros Hr Hcl Hhw Ha. eapply triple_conseq.
  - refine (at_read K F r old Hr Hcl _). intros E. rewrite E in Hhw. discriminate Hhw.
  - intros s Hs. exact Hs.
  - intros [st v] s (E1 & _ & E2 & Hs). cbn in *. rewrite decide_True in Hs by exact Hhw.
    rewrite (E2 x Hhw Ha), E1. auto.
Qed.

(** Selecting a bank: the driver's and the chip's bank move together, nothing is sent, and only
    ECON1 changes. *)
Lemma at_select K F `{!RegFree F} b :
  0 <= b < 4 ->
  triple (at_state K F) (enc28_select_register_bank ctx b)
    (fun st s => st = ENC28_OK /\ at_state (in_bank b (forget econ1_key K)) F s).
Proof.
  intros Hb s (c & Hs & Hc). unfold enc28_select_register_bank.
  destruct (Z.leb_spec 4 b); [lia |].
  assert (Hr : usable_reg ENC28_CR_ECON1) by (split; [unfold ENC28_CR_ECON1; lia | discriminate]).
  assert (Hcl : classified c ENC28_CR_ECON1).
  { unfold classified. change (cur_key c ENC28_CR_ECON1) with econ1_key.
    unfold is_mac_or_mii_reg_in. now repeat case_match. }
  destruct (read_ctl_reg_exact c s ENC28_CR_ECON1 0 Hr Hcl Hs) as (v & c1 & s1 & E1 & Hrd & Hs1).
  change (cur_key c ENC28_CR_ECON1) with econ1_key in Hrd.
  set (w := u8 (u8 (v .& Z.lnot ENC28_ECON1_BSEL) .| ENC28_ECON1_BANK_SEL b)).
  destruct (write_ctl_reg_exact c1 s1 ENC28_CR_ECON1 w Hr (u8_range _) Hs1)
    as (c2 & s2 & E2 & Hst & Hrep2 & Hbk2).
  change (cur_key c1 ENC28_CR_ECON1) with econ1_key in Hst.
  exists ENC28_OK, (mk_drv b (world s2)). split.
  { eapply runs_bind with (a := (ENC28_OK, v)).
    - unfold byref. eapply runs_bind; [exact E1 | reflexivity].
    - cbn [exit_if_err is_ok]. eapply runs_bind; [exact E2 | reflexivity]. }
  split; [reflexivity |].
  (* what the value written is *)
  destruct Hrd as (Hv8 & Hvb & _ & _ & Htx & _ & Ec1).
  rewrite !decide_False in Ec1 by discriminate. subst c1.
  assert (Hw : forallb (fun v => forallb (fun b =>
      let w := u8 (u8 (v .& Z.lnot ENC28_ECON1_BSEL) .| ENC28_ECON1_BANK_SEL b) in
      (w .& 3 =? b) && eqb (Z.testbit w ENC28_ECON1_TXRTS) (Z.testbit v ENC28_ECON1_TXRTS))
      (zrange 4)) (zrange 256) = true) by (vm_compute; reflexivity).
  pose proof (zrange_forallb 256 _ v Hw Hv8) as Hw1.
  pose proof (zrange_forallb 4 _ b Hw1 Hb) as Hw2. cbv beta zeta in Hw2. fold w in Hw2.
  apply andb_true_iff in Hw2. rewrite Z.eqb_eq, eqb_true_iff in Hw2. destruct Hw2 as [Hwb Hwt].
  assert (Hbank2 := chip_store_econ1 _ _ _ _ Hst). rewrite Hwb in Hbank2.
  unfold chip_store in Hst. rewrite decide_True in Hst by reflexivity.
  fold econ1_key in *. rewrite reg_set_eq, Hwt, andb_negb_r in Hst. subst c2.
  destruct Hc as (Hb0 & Hf & G1 & G2 & HF).
  exists (set_reg econ1_key w (set_reg econ1_key v c)).
  split; [split; [exact Hrep2 | now rewrite Hbank2] |].
  split; [exact Hbank2 |]. split; [| split; [exact G1 | split; [exact G2 |]]].
  - apply facts_forget with c; [exact Hf |].
    intros k' Hne. now rewrite !reg_set_ne by congruence.
  - refine (reg_free c _ _ HF). repeat split. unfold tx_busy. rewrite reg_set_eq, Hwt.
    intros Hi. destruct (Z.testbit v ENC28_ECON1_TXRTS); [| reflexivity].
    now rewrite (Htx eq_refl eq_refl) in Hi.
Qed.

Lemma at_wait K F n :
  triple (at_state K F) (call_wait_nano ctx n) (fun _ s => at_state K F s).
Proof.
  intros s (c & [Hrep Hb] & Hc). exists tt, (mk_drv (priv_enc28_curr_bank s) (dev_wait d n (world s))).
  split; [reflexivity |]. exists c. split; [split; [now apply wait_ok | exact Hb] | exact Hc].
Qed.

(** Weakening what is known. *)
Lemma at_weaken K K' F (F' : chip -> Prop) s :
  at_state K F s -> k_bank K' = k_bank K -> (k_clk K <= k_clk K')%nat -> (k_mii K <= k_mii K')%nat ->
  (forall k v, assoc (k_regs K') k = Some v -> assoc (k_regs K) k = Some v) ->
  (forall c, F c -> F' c) -> at_state K' F' s.
Proof.
  intros (c & Hs & Hb & Hf & H1 & H2 & HF) Eb E1 E2 Ek EF.
  exists c. split; [exact Hs |]. split; [congruence |]. split; [| split; [lia | split; [lia |]]].
  - intros k v Ha. apply Hf. now apply Ek.
  - now apply EF.
Qed.

Lemma at_state_fact K F s k v :
  at_state K F s -> assoc (k_regs K) k = Some v -> exists c, is_chip c s /\ F c /\ reg c k = v.
Proof. intros (c & Hs & _ & Hf & _ & _ & HF) Ha. exists c. auto. Qed.
End Rules.

(** * Automation

    [drive] applies the rule of the register function at the head of the computation and discharges
    its closed side conditions. *)

Lemma usable_reg_check r : ((0 <=? r) && (r <? 32) && negb (r =? 0x1A)) = true -> usable_reg r.
Proof.
  rewrite !andb_true_iff, negb_true_iff, Z.leb_le, Z.ltb_lt, Z.eqb_neq. unfold usable_reg. tauto.
Qed.

Lemma is_u8_check z : ((0 <=? z) && (z <? 256)) = true -> is_u8 z.
Proof. rewrite andb_true_iff, Z.leb_le, Z.ltb_lt. unfold is_u8. tauto. Qed.

Ltac drive_side :=
  first
    [ match goal with
      | |- reg_key ?b ?r = ?k => let x := eval vm_compute in (reg_key b r) in unify k x; reflexivity
      end
    | eassumption
    | apply usable_reg_check; reflexivity
    | apply is_u8_check; reflexivity
    | reflexivity
    | discriminate
    | typeclasses eauto
    | cbn; lia ].

Ltac drive_op :=
  lazymatch goal with
  | |- triple _ (enc28_select_register_bank _ _) _ => eapply at_select; drive_side
  | |- triple _ (enc28_do_write_ctl_reg _ ENC28_CR_MICMD _) _ => eapply at_write_micmd; drive_side
  | |- triple _ (enc28_do_write_ctl_reg _ ENC28_CR_ERXRDPTH _) _ =>
    eapply at_write_erxrdpth; drive_side
  | |- triple _ (enc28_do_write_ctl_reg _ _ _) _ => eapply at_write; drive_side
  | |- triple _ (enc28_do_set_bits_ctl_reg _ _ _) _ =>
    first [eapply at_set_bits; drive_side | eapply at_set_bits_forget; drive_side]
  | |- triple _ (enc28_do_clear_bits_ctl_reg _ _ _) _ => eapply at_clear_bits_forget; drive_side
  | |- triple _ (ret ENC28_OK) _ =>
    let s := fresh in let Hs := fresh in
    apply triple_ret; intros s Hs; split; [reflexivity | exact Hs]
  end.

Ltac drive := eapply triple_exit; [drive_op |].
