(* ===== verification/Enc28Init.v ===== *)
(** Initialisation of the device: bank selection, PHY access, and [enc28_do_init] as a whole. *)
From Stdlib Require Import ZArith Lia Bool.
From stdpp Require Import base decidable list gmap.
From S2P Require Import Prelude Enc28Regs Enc28Driver Enc28Device Enc28Spec Enc28Hoare.

Section Phy.
Context {W : Type} {d : spi_callbacks W} `{HD : !Enc28Device d}.
#[local] Abbreviation ctx := (Some (context_of d)).

Definition phy_value (c : chip) : Z := phy c !!! reg c (2, ENC28_CR_MIREGADR).

(** One read of MISTAT during a PHY read: either still busy, and one step closer, or the data
    registers hold the PHY value. *)
Lemma mistat_read c v c' :
  chip_read c (3, ENC28_CR_MISTAT) v c' -> reg c (2, ENC28_CR_MICMD) = 1 ->
  same_rest c c' /\ (clk_wait c' <= clk_wait c)%nat /\ mii_wait c' = pred (mii_wait c) /\
  (forall k, k <> (3, ENC28_CR_MISTAT) -> k <> (2, ENC28_CR_MIRDL) -> k <> (2, ENC28_CR_MIRDH) ->
             reg c' k = reg c k) /\
  (v .& 1 <> 0 -> mii_wait c <> 0%nat) /\
  (v .& 1 = 0 -> reg c' (2, ENC28_CR_MIRDL) = phy_value c .& 0xFF /\
                 reg c' (2, ENC28_CR_MIRDH) = Z.shiftr (phy_value c) 8).
Proof.
  intros Hrd Hcmd. pose proof (chip_read_effect _ _ _ _ Hrd) as (Hr & H1 & _ & _ & _ & Hne).
  destruct Hrd as (_ & _ & _ & Hbusy & _ & _ & Ec').
  rewrite !decide_False in Ec' by discriminate. rewrite decide_True in Ec' by reflexivity.
  rewrite Hcmd in Ec'. change (1 .& bit ENC28_MICMD_MIIRD =? 0) with false in Ec'.
  cbn [negb andb] in Ec'. rewrite andb_true_r in Ec'.
  split; [exact Hr |]. split; [exact H1 |]. split; [| split; [exact Hne | split]].
  - rewrite Ec'. now case_match.
  - intros Hv. now apply Hbusy.
  - intros Hv. rewrite (proj2 (Z.eqb_eq _ _) Hv) in Ec'. rewrite Ec'. split.
    + rewrite reg_set_ne by discriminate. apply reg_set_eq.
    + apply reg_set_eq.
Qed.

(** The loop of [enc28_do_read_phy_register] ends within the busy bound. *)
Lemma poll_mistat_ok n : forall c s,
  is_chip c s -> chip_bank c = 3 -> reg c (2, ENC28_CR_MICMD) = 1 -> (mii_wait c < n)%nat ->
  exists c' s', runs (poll_mistat n ctx) s ENC28_OK s' /\ is_chip c' s' /\ same_rest c c' /\
    chip_bank c' = 3 /\ (clk_wait c' <= clk_wait c)%nat /\ (mii_wait c' <= mii_wait c)%nat /\
    (forall k, k <> (3, ENC28_CR_MISTAT) -> k <> (2, ENC28_CR_MIRDL) -> k <> (2, ENC28_CR_MIRDH) ->
               reg c' k = reg c k) /\
    reg c' (2, ENC28_CR_MIRDL) = phy_value c .& 0xFF /\
    reg c' (2, ENC28_CR_MIRDH) = Z.shiftr (phy_value c) 8.
Proof.
  induction n as [| n IH]; intros c s Hs Hb Hcmd Hn; [lia |].
  assert (Hk : cur_key c ENC28_CR_MISTAT = (3, ENC28_CR_MISTAT)).
  { unfold cur_key. now rewrite Hb. }
  destruct (read_ctl_reg_exact c s ENC28_CR_MISTAT 0xff) as (v & c1 & s1 & E & Hrd & Hs1).
  { apply usable_reg_check. reflexivity. }
  { unfold classified. rewrite Hk, Hb. reflexivity. }
  { exact Hs. }
  rewrite Hk in Hrd. pose proof (chip_read_bank _ _ _ _ Hrd) as Hb1.
  destruct (mistat_read _ _ _ Hrd Hcmd) as (Hr & H1 & H2 & Hne & Hbusy & Hdone).
  cbn [poll_mistat].
  assert (E' : runs (byref (enc28_do_read_ctl_reg ctx ENC28_CR_MISTAT) 0xff) s (ENC28_OK, v) s1).
  { unfold byref. eapply runs_bind; [exact E | reflexivity]. }
  destruct (Z.eqb_spec (v .& bit ENC28_MISTAT_BUSY) 0) as [Hv | Hv].
  - exists c1, s1. destruct (Hdone Hv) as [Hl Hh].
    split; [eapply runs_bind; [exact E' |] | idtac].
    + cbn. now rewrite (proj2 (Z.eqb_eq _ _) Hv).
    + split; [exact Hs1 |]. split; [exact Hr |]. split; [congruence |].
      split; [exact H1 |]. split; [lia |]. auto.
  - set (s2 := mk_drv (priv_enc28_curr_bank s1) (dev_wait d 1 (world s1))).
    assert (Hs2 : is_chip c1 s2).
    { destruct Hs1 as [Hrep1 Hbk1]. split; [now apply wait_ok | exact Hbk1]. }
    destruct (IH c1 s2 Hs2) as (c' & s' & E2 & Hs' & Hr' & Hb' & G1 & G2 & Gne & Gl & Gh).
    { congruence. }
    { rewrite Hne; [exact Hcmd | discriminate..]. }
    { specialize (Hbusy Hv). lia. }
    exists c', s'. split; [eapply runs_bind; [exact E' |] | split; [exact Hs' |]].
    + cbn. rewrite (proj2 (Z.eqb_neq _ _) Hv). eapply runs_bind; [reflexivity | exact E2].
    + assert (Ep : phy_value c1 = phy_value c).
      { unfold phy_value. destruct Hr as (_ & _ & -> & _). now rewrite Hne by discriminate. }
      rewrite Ep in Gl, Gh.
      split; [| split; [exact Hb' | split; [lia | split; [lia | split; [| split; assumption]]]]].
      * exact (same_rest_trans _ _ _ Hr Hr').
      * intros k K1 K2 K3. rewrite Gne, Hne by assumption. reflexivity.
Qed.

Variable fuel : nat.
Hypothesis fuel_enough : (mii_bound < fuel)%nat.

(** What a PHY read leaves behind. *)
Definition after_phy_read (r w : Z) (K : known) : known :=
  know (2, ENC28_CR_MICMD) 0
    (in_bank 2 (forget econ1_key
      (know (2, ENC28_CR_MIRDH) (Z.shiftr w 8) (know (2, ENC28_CR_MIRDL) (w .& 0xFF)
        (forget (3, ENC28_CR_MISTAT)
          (in_bank 3 (forget econ1_key
            (know (2, ENC28_CR_MICMD) 1
              (busy mii_bound
                (know (2, ENC28_CR_MIREGADR) r (in_bank 2 (forget econ1_key K)))))))))))).

Lemma at_poll_mistat K F `{!RegFree F} r w :
  k_bank K = 3 -> assoc (k_regs K) (2, ENC28_CR_MICMD) = Some 1 ->
  assoc (k_regs K) (2, ENC28_CR_MIREGADR) = Some r -> (k_mii K < fuel)%nat ->
  (forall c, F c -> phy c !!! r = w) ->
  triple (at_state K F) (poll_mistat fuel ctx)
    (fun st s => st = ENC28_OK /\
       at_state (know (2, ENC28_CR_MIRDH) (Z.shiftr w 8) (know (2, ENC28_CR_MIRDL) (w .& 0xFF)
                  (forget (3, ENC28_CR_MISTAT) K))) F s).
Proof.
  intros Hb Hcmd Hadr Hm Hw s (c & Hs & Hbc & Hf & H1 & H2 & HF).
  destruct (poll_mistat_ok fuel c s Hs) as (c' & s' & E & Hs' & Hr & Hb' & G1 & G2 & Gne & Gl & Gh).
  { congruence. }
  { now apply Hf. }
  { lia. }
  assert (Ew : phy_value c = w).
  { unfold phy_value. rewrite (Hf _ _ Hadr). now apply Hw. }
  rewrite Ew in Gl, Gh.
  exists ENC28_OK, s'. split; [exact E |]. split; [reflexivity |].
  exists c'. split; [exact Hs' |].
  split; [cbn; congruence |]. split; [| split; [cbn; lia | split; [cbn; lia |]]].
  - intros k v. cbn. repeat case_decide; subst; intros Ha; try congruence.
    rewrite Gne by congruence. now apply Hf.
  - exact (reg_free _ _ Hr HF).
Qed.

(** Reading a PHY register returns its contents. *)
Lemma at_read_phy K F `{!RegFree F} r w old :
  priv_enc28_is_phy_reg r = true -> usable_reg r -> is_u16 w -> (forall c, F c -> phy c !!! r = w) ->
  triple (at_state K F) (byref (enc28_do_read_phy_register fuel ctx r) old)
    (fun sv s => sv.1 = ENC28_OK /\ sv.2 = w /\ at_state (after_phy_read r w K) F s).
Proof.
  intros Hp Hr Hw Hphy.
  assert (Hr8 : is_u8 r) by (destruct Hr; unfold is_u8; lia).
  eapply triple_bind with (R := fun rv s => rv = (ENC28_OK, Some w) /\
                                            at_state (after_phy_read r w K) F s).
  2: { intros rv. apply triple_pure. intros ->. apply triple_ret. intros s Hs. cbn. auto. }
  unfold enc28_do_read_phy_register. rewrite Hp. cbn [negb].
  change (ctx_incomplete_wait ctx) with false. cbv iota.
  do 3 drive.
  eapply triple_bind; [eapply at_wait | intros ?; cbv beta].
  drive.
  eapply triple_exit.
  { eapply (at_poll_mistat _ _ r w); [reflexivity | reflexivity | reflexivity | | exact Hphy].
    exact fuel_enough. }
  do 2 drive.
  do 2 (eapply triple_bind; [eapply at_read_stable; drive_side |
                             intros sv; apply triple_pure; intros ->; cbn [exit_if_err is_ok]]).
  apply triple_ret. intros s Hs. split; [| exact Hs].
  rewrite u16_hi_lo by exact Hw. now rewrite u16_small.
Qed.
End Phy.

Section Init.
Context {W : Type} {d : spi_callbacks W} `{HD : !Enc28Device d}.
Variable fuel : nat.
#[local] Abbreviation ctx := (Some (context_of d)).

(** The clock poll: everything but ESTAT and the busy counts is as before. *)
Definition only_estat (c c' : chip) : Prop :=
  same_rest c c' /\ chip_bank c' = chip_bank c /\
  (clk_wait c' <= clk_wait c)%nat /\ (mii_wait c' <= mii_wait c)%nat /\
  (forall k, k <> (0, ENC28_CR_ESTAT) -> reg c' k = reg c k).

Lemma only_estat_trans c1 c2 c3 : only_estat c1 c2 -> only_estat c2 c3 -> only_estat c1 c3.
Proof.
  intros (A & Ab & Ac & Am & Ar) (B & Bb & Bc & Bm & Br).
  split; [exact (same_rest_trans _ _ _ A B) |]. split; [congruence |]. split; [lia |]. split; [lia |].
  intros k Hk. now rewrite Br, Ar.
Qed.

Lemma estat_read c s old :
  is_chip c s ->
  exists v c' s', runs (byref (enc28_do_read_ctl_reg ctx ENC28_CR_ESTAT) old) s (ENC28_OK, v) s' /\
    is_chip c' s' /\ only_estat c c' /\ (v .& 1 = 0 -> clk_wait c = S (clk_wait c')).
Proof.
  intros Hs.
  destruct (read_ctl_reg_exact c s ENC28_CR_ESTAT old) as (v & c' & s' & E & Hrd & Hs').
  { apply usable_reg_check. reflexivity. }
  { unfold classified. change (cur_key c ENC28_CR_ESTAT) with (0, ENC28_CR_ESTAT).
    unfold is_mac_or_mii_reg_in. now repeat case_match. }
  { exact Hs. }
  change (cur_key c ENC28_CR_ESTAT) with (0, ENC28_CR_ESTAT) in Hrd.
  exists v, c', s'. split; [unfold byref; eapply runs_bind; [exact E | reflexivity] |].
  split; [exact Hs' |].
  pose proof (chip_read_effect _ _ _ _ Hrd) as (Hr & H1 & H2 & _ & Hne & _).
  split.
  - split; [exact Hr |]. split; [exact (chip_read_bank _ _ _ _ Hrd) |].
    split; [exact H1 |]. split; [exact H2 |].
    intros k Hk. apply Hne; [exact Hk | discriminate].
  - intros Hv. destruct Hrd as (_ & _ & Hclk & _ & _ & _ & Ec').
    specialize (Hclk eq_refl Hv). rewrite decide_False, decide_True in Ec' by easy.
    subst c'. cbn. lia.
Qed.

Lemma poll_estat_loop_ok n : forall c s v,
  is_chip c s -> (clk_wait c + 1 < n)%nat ->
  exists c' s', runs (poll_estat_loop n ctx ENC28_OK v) s tt s' /\ is_chip c' s' /\ only_estat c c'.
Proof.
  induction n as [| n IH]; intros c s v Hs Hn; [lia |]. cbn [poll_estat_loop is_ok].
  unfold truth. destruct (Z.eqb_spec (v .& bit ENC28_ESTAT_CLKRDY) 0) as [Hv | Hv]; cbn [negb].
  - destruct (estat_read c s v Hs) as (v1 & c1 & s1 & E1 & Hs1 & Ho1 & Hc1).
    destruct (Z.eq_dec (v1 .& 1) 0) as [Hv1 | Hv1].
    + specialize (Hc1 Hv1).
      destruct (IH c1 s1 v1 Hs1) as (c' & s' & E & Hs' & Ho'); [lia |].
      exists c', s'. split; [eapply runs_bind; [exact E1 | exact E] |].
      split; [exact Hs' |]. exact (only_estat_trans _ _ _ Ho1 Ho').
    + destruct n as [| n]; [lia |].
      exists c1, s1. split; [eapply runs_bind; [exact E1 |] | auto].
      cbn [poll_estat_loop is_ok]. unfold truth.
      change (bit ENC28_ESTAT_CLKRDY) with 1. now rewrite (proj2 (Z.eqb_neq _ _) Hv1).
  - exists c, s. split; [reflexivity |]. split; [exact Hs |].
    split; [apply same_rest_refl |]. repeat split; auto with lia.
Qed.

Lemma at_poll_estat K F `{!RegFree F} :
  (k_clk K + 1 < fuel)%nat ->
  triple (at_state K F) (priv_enc28_do_poll_estat_clk fuel ctx)
    (fun st s => st = ENC28_OK /\ at_state (forget (0, ENC28_CR_ESTAT) K) F s).
Proof.
  intros Hfuel s (c & Hs & Hb & Hf & H1 & H2 & HF).
  destruct (estat_read c s 0 Hs) as (v & c1 & s1 & E1 & Hs1 & Ho1 & _).
  destruct (poll_estat_loop_ok fuel c1 s1 v Hs1) as (c2 & s2 & E2 & Hs2 & Ho2).
  { destruct Ho1 as (_ & _ & Hc & _). lia. }
  exists ENC28_OK, s2. split.
  { eapply runs_bind; [exact E1 |]. cbn. eapply runs_bind; [exact E2 | reflexivity]. }
  split; [reflexivity |]. exists c2. split; [exact Hs2 |].
  destruct (only_estat_trans _ _ _ Ho1 Ho2) as (Hr & Hb' & G1 & G2 & Gne).
  split; [cbn; congruence |]. split; [| split; [cbn; lia | split; [cbn; lia |]]].
  - apply facts_forget with c; [exact Hf | exact Gne].
  - exact (reg_free _ _ Hr HF).
Qed.
(** What initialisation establishes, for the MAC address bytes [bytes] and duplex mode [full]. *)
Definition configured (bytes : list Z) (full : bool) (c : chip) : Prop :=
  chip_bank c = 0 /\
  rx_start c = ENC28_CONF_RX_ADDRESS_START /\ rx_end c = ENC28_CONF_RX_ADDRESS_END /\
  pointer c ENC28_CR_ERXRDPTL ENC28_CR_ERXRDPTH = ENC28_CONF_RX_ADDRESS_END /\
  reg c (1, ENC28_CR_ERXFCON) = ENC28_CONF_PACKET_FILTER_MASK /\
  reg c (2, ENC28_CR_MAMXFLL) .| Z.shiftl (reg c (2, ENC28_CR_MAMXFLH)) 8
    = ENC28_CONF_MAX_FRAME_LEN /\
  reg c (2, ENC28_CR_MABBIPG) = ENC28_CONF_MABBIPG_BITS /\
  reg c (2, ENC28_CR_MAIPGL) =
    (if full then ENC28_CONF_MAIPGL_BITS_FULLDUP else ENC28_CONF_MAIPGL_BITS_HALFDUP) /\
  (full = false -> reg c (2, ENC28_CR_MAIPGH) = ENC28_CONF_MAIPGH_BITS) /\
  (forall i, (i < 6)%nat -> reg c (3, mac_addr_regs !!! i) = bytes !!! i).

Lemma mac_byte (bytes : list Z) i :
  length bytes = 6%nat -> Forall is_u8 bytes -> (i < 6)%nat -> is_u8 (bytes !!! i).
Proof.
  intros Hl Hb Hi. rewrite Forall_forall in Hb. apply Hb.
  apply list_elem_of_lookup_total_2. lia.
Qed.

(** Registers the initialisation leaves alone. *)
Definition init_keeps : list (Z * Z) := [(0, ENC28_CR_ECON2); (0, ENC28_CR_EIE)].

(** The MAC part, from any state in which PHCON1 is known. *)
Lemma at_mac_init bytes w K F `{!RegFree F} :
  length bytes = 6%nat -> Forall is_u8 bytes -> is_u16 w -> (forall c, F c -> phy c !!! 0 = w) ->
  (mii_bound < fuel)%nat ->
  assoc (k_regs K) (0, ENC28_CR_ERXSTL) = Some 0xD0 ->
  assoc (k_regs K) (0, ENC28_CR_ERXSTH) = Some 0x07 ->
  assoc (k_regs K) (0, ENC28_CR_ERXNDL) = Some 0xFF ->
  assoc (k_regs K) (0, ENC28_CR_ERXNDH) = Some 0x1E ->
  assoc (k_regs K) (0, ENC28_CR_ERXRDPTL) = Some 0xFF ->
  assoc (k_regs K) (0, ENC28_CR_ERXRDPTH) = Some 0x1E ->
  assoc (k_regs K) (1, ENC28_CR_ERXFCON) = Some ENC28_CONF_PACKET_FILTER_MASK ->
  triple (at_state K F) (priv_enc28_do_mac_init fuel {| addr := bytes |} ctx)
    (fun st s => st = ENC28_OK /\
       exists c, is_chip c s /\ F c /\ configured bytes (truth (w .& bit ENC28_PHCON1_PDPXMD)) c /\
                 forall k v, k ∈ init_keeps -> assoc (k_regs K) k = Some v -> reg c k = v).
Proof.
  intros Hl Hb Hph HF Hm A1 A2 A3 A4 A5 A6 A7. unfold priv_enc28_do_mac_init. cbn [addr].
  pose proof (fun i => mac_byte bytes i Hl Hb) as Hbyte.
  do 2 drive.
  eapply triple_bind.
  { eapply (at_read_phy fuel Hm _ _ _ w); [reflexivity | drive_side | exact Hph | exact HF]. }
  intros [st w']. cbn [fst snd].
  apply triple_pure; intros ->. apply triple_pure; intros ->. cbn [exit_if_err is_ok].
  destruct (truth (w .& bit ENC28_PHCON1_PDPXMD)) eqn:Efull; cbn [negb].
  all: do 6 drive.
  all: do 2 drive.
  all: do 6 (eapply triple_exit;
             [eapply at_write; try drive_side; apply Hbyte; lia |]).
  all: drive.
  all: apply triple_ret; intros s Hs; split; [reflexivity |].
  all: destruct Hs as (c & Hs & Hbk & Hf & _ & _ & HFc).
  all: exists c; split; [exact Hs |]; split; [exact HFc |].
  all: split; [| intros k v Hk Ha; unfold init_keeps in Hk; rewrite !elem_of_cons, elem_of_nil in Hk;
                 destruct Hk as [-> | [-> | []]]; apply Hf; exact Ha].
  all: unfold configured, rx_start, rx_end, pointer;
    rewrite (Hf (0, ENC28_CR_ERXSTL) _ A1), (Hf (0, ENC28_CR_ERXSTH) _ A2),
      (Hf (0, ENC28_CR_ERXNDL) _ A3), (Hf (0, ENC28_CR_ERXNDH) _ A4),
      (Hf (0, ENC28_CR_ERXRDPTL) _ A5), (Hf (0, ENC28_CR_ERXRDPTH) _ A6),
      (Hf (1, ENC28_CR_ERXFCON) _ A7), (Hf (2, ENC28_CR_MAMXFLL) _ eq_refl),
      (Hf (2, ENC28_CR_MAMXFLH) _ eq_refl), (Hf (2, ENC28_CR_MABBIPG) _ eq_refl),
      (Hf (2, ENC28_CR_MAIPGL) _ eq_refl).
  all: split; [exact Hbk |]; do 7 (split; [reflexivity |]).
  all: split; [first [discriminate | intros _; exact (Hf (2, ENC28_CR_MAIPGH) _ eq_refl)] |].
  all: intros i Hi; do 6 (destruct i as [| i]; [apply Hf; reflexivity |]); lia.
Qed.

(** Any state of a device without further knowledge of its registers. *)
Definition some_state (b : Z) (n m : nat) : known := mk_known b [] n m.

Definition buffers_known (K : known) : known :=
  know (0, ENC28_CR_ERXRDPTH) 0x1E (know (0, ENC28_CR_ERXRDPTL) 0xFF
    (know (0, ENC28_CR_ERXNDH) 0x1E (know (0, ENC28_CR_ERXNDL) 0xFF
      (know (0, ENC28_CR_ERXSTH) 0x07 (know (0, ENC28_CR_ERXSTL) 0xD0 (in_bank 0 (forget econ1_key K))))))).

Lemma at_buffer_init K F `{!BufferFree F} :
  triple (at_state K F) (priv_enc28_do_buffer_register_init ctx)
    (fun st s => st = ENC28_OK /\
       at_state (buffers_known K) (latched ENC28_CONF_RX_ADDRESS_END F) s).
Proof.
  unfold priv_enc28_do_buffer_register_init.
  eapply triple_bind; [drive_op | intros st; apply triple_pure; intros _].
  do 6 drive. apply triple_ret. intros s Hs. split; [reflexivity | exact Hs].
Qed.

Lemma enc28_do_init_spec bytes w K F `{!BufferFree F} :
  length bytes = 6%nat -> Forall is_u8 bytes -> is_u16 w -> (forall c, F c -> phy c !!! 0 = w) ->
  (k_clk K + 1 < fuel)%nat -> (mii_bound < fuel)%nat ->
  triple (at_state K F) (enc28_do_init fuel {| addr := bytes |} ctx)
    (fun st s => st = ENC28_OK /\
       exists c, is_chip c s /\ latched ENC28_CONF_RX_ADDRESS_END F c /\
         configured bytes (truth (w .& bit ENC28_PHCON1_PDPXMD)) c /\
         forall k v, k ∈ init_keeps -> assoc (k_regs K) k = Some v -> reg c k = v).
Proof.
  intros Hl Hb Hw HF Hn Hm. unfold enc28_do_init.
  eapply triple_exit; [apply at_buffer_init; typeclasses eauto |].
  eapply triple_exit.
  { unfold priv_enc28_do_receive_filter_init. drive. drive_op. }
  eapply triple_exit; [eapply at_poll_estat; [typeclasses eauto | exact Hn] |].
  eapply triple_exit.
  { eapply (at_mac_init bytes w _ (latched ENC28_CONF_RX_ADDRESS_END F)); try reflexivity; try assumption.
    intros c [Hc _]. now apply HF. }
  apply triple_ret. intros s (c & Hs & HFc & Hc & Hk). split; [reflexivity |].
  exists c. split; [exact Hs |]. split; [exact HFc |]. split; [exact Hc |].
  intros k v Hin Ha. apply Hk; [exact Hin |]. revert Hin Ha. unfold init_keeps.
  rewrite !elem_of_cons, elem_of_nil. intros [-> | [-> | []]]; auto.
Qed.
End Init.

(** * Initialisation succeeds and configures the device *)

(** C3: On a conforming device whose busy counts are within the polling bounds, [enc28_do_init]
    returns ENC28_OK; afterwards bank 0 is selected on both sides, the receive ring, the receive
    read pointer, the packet filter, the maximum frame length and the inter-packet gaps hold the
    configured values for the duplex mode the PHY reports, and the six MAC address registers hold
    the address passed in. *)
Theorem enc28_do_init_configures {W} {d : spi_callbacks W} `{HD : !Enc28Device d}
  (fuel : nat) (mac : ENC28_MAC_Address) (ph : gmap Z Z) (b : Z) (n m : nat) :
  length (addr mac) = 6%nat -> Forall is_u8 (addr mac) -> is_u16 (ph !!! ENC28_PHYR_PHCON1) ->
  (n + 1 < fuel)%nat -> (mii_bound < fuel)%nat ->
  triple (at_state (some_state b n m) (fun c => phy c = ph))
    (enc28_do_init fuel mac (Some (context_of d)))
    (fun st s => st = ENC28_OK /\
       exists c, is_chip c s /\ phy c = ph /\
         configured (addr mac)
           (truth (ph !!! ENC28_PHYR_PHCON1 .& bit ENC28_PHCON1_PDPXMD)) c).
Proof.
  intros Hl Hb Hph Hn Hm. destruct mac as [bytes]. cbn [addr] in *.
  eapply triple_conseq;
    [apply (enc28_do_init_spec fuel bytes (ph !!! 0) (some_state b n m) (fun c => phy c = ph));
       [assumption.. | now intros c -> | exact Hn | exact Hm] | auto |].
  intros st s (-> & c & Hs & [HF _] & Hc & _). eauto.
Qed.
