(* ===== verification/Enc28Transmit.v ===== *)
(** Sending a packet: [enc28_write_packet]. *)
From Stdlib Require Import ZArith Lia Bool.
From stdpp Require Import base decidable list gmap.
From S2P Require Import Prelude Enc28Regs Enc28Driver Enc28Device Enc28Spec Enc28Hoare.

(** * ECON1 bits other than BSEL and TXRTS *)

Lemma quiet_store mb c v c' :
  Z.testbit v ENC28_ECON1_TXRTS = Z.testbit (reg c econ1_key) ENC28_ECON1_TXRTS ->
  chip_store mb c econ1_key v c' -> c' = set_reg econ1_key v c.
Proof.
  intros Ht. unfold chip_store. rewrite decide_True by reflexivity.
  now rewrite Ht, andb_negb_r.
Qed.

(** A mask that touches neither the bank bits nor TXRTS. *)
Definition quiet_mask (m : Z) : bool := (m .& 3 =? 0) && negb (Z.testbit m ENC28_ECON1_TXRTS).

Lemma quiet_or x m : quiet_mask m = true ->
  Z.testbit (x .| m) ENC28_ECON1_TXRTS = Z.testbit x ENC28_ECON1_TXRTS /\ (x .| m) .& 3 = x .& 3.
Proof.
  unfold quiet_mask. rewrite andb_true_iff, Z.eqb_eq, negb_true_iff. intros [H1 H2]. split.
  - rewrite Z.lor_spec, H2. apply orb_false_r.
  - rewrite Z.land_lor_distr_l, H1. apply Z.lor_0_r.
Qed.

Lemma quiet_andnot x m : quiet_mask m = true ->
  Z.testbit (x .& Z.lnot m) ENC28_ECON1_TXRTS = Z.testbit x ENC28_ECON1_TXRTS /\
  (x .& Z.lnot m) .& 3 = x .& 3.
Proof.
  unfold quiet_mask. rewrite andb_true_iff, Z.eqb_eq, negb_true_iff. intros [H1 H2]. split.
  - rewrite Z.land_spec, Z.lnot_spec, H2 by (unfold ENC28_ECON1_TXRTS; lia). apply andb_true_r.
  - rewrite <- Z.land_assoc. f_equal. apply Z.bits_inj'. intros i Hi.
    rewrite Z.land_spec, Z.lnot_spec by exact Hi.
    assert (E : Z.testbit (m .& 3) i = false) by (rewrite H1; apply Z.bits_0).
    rewrite Z.land_spec in E. destruct (Z.testbit m i), (Z.testbit 3 i); cbn in *; congruence.
Qed.

Lemma land_set_mask x m : (x .| m) .& m = m.
Proof.
  apply Z.bits_inj'. intros i Hi. rewrite Z.land_spec, Z.lor_spec.
  destruct (Z.testbit m i); [now rewrite orb_true_r | apply andb_false_r].
Qed.

Lemma land_clear_mask x m : (x .& Z.lnot m) .& m = 0.
Proof.
  apply Z.bits_inj'. intros i Hi. rewrite !Z.land_spec, Z.lnot_spec, Z.bits_0 by exact Hi.
  destruct (Z.testbit m i); [now rewrite andb_false_r | apply andb_false_r].
Qed.

Section QuietRules.
Context {W : Type} {d : spi_callbacks W} `{HD : !Enc28Device d}.
#[local] Abbreviation ctx := (Some (context_of d)).

Lemma at_econ1_value K F `{!RegFree F} c s s' v c' :
  is_chip c s -> at_chip K F c -> rep (world s') c' ->
  priv_enc28_curr_bank s' = priv_enc28_curr_bank s ->
  Z.testbit v ENC28_ECON1_TXRTS = Z.testbit (reg c econ1_key) ENC28_ECON1_TXRTS ->
  v .& 3 = reg c econ1_key .& 3 -> chip_store mii_bound c econ1_key v c' ->
  is_chip c' s' /\ at_chip (forget econ1_key K) F c' /\ reg c' econ1_key = v.
Proof.
  intros Hs Hc Hrep Hbk Ht Hb3 Hst. apply quiet_store in Hst; [| exact Ht]. subst c'.
  assert (Hc' : at_chip (forget econ1_key K) F (set_reg econ1_key v c)).
  { destruct Hc as (Hb & Hf & H1 & H2 & HF).
    split; [| split; [| split; [exact H1 | split; [exact H2 |]]]].
    - unfold chip_bank in *. fold econ1_key in *. rewrite reg_set_eq, Hb3. exact Hb.
    - apply facts_forget with c; [exact Hf |]. intros k' Hne. apply reg_set_ne. congruence.
    - refine (reg_free c _ _ HF). repeat split. unfold tx_busy. now rewrite reg_set_eq, Ht. }
  split; [| split; [exact Hc' | apply reg_set_eq]].
  split; [exact Hrep |]. rewrite Hbk. transitivity (chip_bank c); [apply Hs |].
  destruct Hc as [-> _], Hc' as [-> _]. reflexivity.
Qed.

Lemma at_set_bits_econ1_value K F `{!RegFree F} m :
  is_u8 m -> quiet_mask m = true ->
  triple (at_state K F) (enc28_do_set_bits_ctl_reg ctx ENC28_CR_ECON1 m)
    (fun st s => st = ENC28_OK /\ exists c, is_chip c s /\ at_chip (forget econ1_key K) F c /\
                                 reg c econ1_key .& m = m).
Proof.
  intros Hm Hq s (c & Hs & Hc).
  destruct (set_bits_ctl_reg_exact c s ENC28_CR_ECON1 m) as (c' & s' & E & Hst & Hrep & Hbk);
    [apply usable_reg_check; reflexivity | exact Hm | exact Hs |].
  exists ENC28_OK, s'. split; [exact E |]. split; [reflexivity |].
  change (cur_key c ENC28_CR_ECON1) with econ1_key in Hst.
  destruct (quiet_or (reg c econ1_key) m Hq) as [Ht Hb3].
  destruct (at_econ1_value _ _ _ _ _ _ _ Hs Hc Hrep Hbk Ht Hb3 Hst) as (H1 & H2 & H3).
  exists c'. split; [exact H1 |]. split; [exact H2 |]. rewrite H3. apply land_set_mask.
Qed.

Lemma at_set_bits_econ1 K F `{!RegFree F} m :
  is_u8 m -> quiet_mask m = true ->
  triple (at_state K F) (enc28_do_set_bits_ctl_reg ctx ENC28_CR_ECON1 m)
    (fun st s => st = ENC28_OK /\ at_state (forget econ1_key K) F s).
Proof.
  intros Hm Hq. eapply triple_conseq; [exact (at_set_bits_econ1_value K F m Hm Hq) | auto |].
  intros st s (-> & c & H1 & H2 & _). split; [reflexivity |]. exists c. auto.
Qed.

Lemma at_clear_bits_econ1_value K F `{!RegFree F} m :
  is_u8 m -> quiet_mask m = true ->
  triple (at_state K F) (enc28_do_clear_bits_ctl_reg ctx ENC28_CR_ECON1 m)
    (fun st s => st = ENC28_OK /\ exists c, is_chip c s /\ at_chip (forget econ1_key K) F c /\
                                 reg c econ1_key .& m = 0).
Proof.
  intros Hm Hq s (c & Hs & Hc).
  destruct (clear_bits_ctl_reg_exact c s ENC28_CR_ECON1 m) as (c' & s' & E & Hst & Hrep & Hbk);
    [apply usable_reg_check; reflexivity | exact Hm | exact Hs |].
  exists ENC28_OK, s'. split; [exact E |]. split; [reflexivity |].
  change (cur_key c ENC28_CR_ECON1) with econ1_key in Hst.
  destruct (quiet_andnot (reg c econ1_key) m Hq) as [Ht Hb3].
  destruct (at_econ1_value _ _ _ _ _ _ _ Hs Hc Hrep Hbk Ht Hb3 Hst) as (H1 & H2 & H3).
  exists c'. split; [exact H1 |]. split; [exact H2 |]. rewrite H3. apply land_clear_mask.
Qed.

Lemma at_clear_bits_econ1 K F `{!RegFree F} m :
  is_u8 m -> quiet_mask m = true ->
  triple (at_state K F) (enc28_do_clear_bits_ctl_reg ctx ENC28_CR_ECON1 m)
    (fun st s => st = ENC28_OK /\ at_state (forget econ1_key K) F s).
Proof.
  intros Hm Hq. eapply triple_conseq; [exact (at_clear_bits_econ1_value K F m Hm Hq) | auto |].
  intros st s (-> & c & H1 & H2 & _). split; [reflexivity |]. exists c. auto.
Qed.

(** ECON1 can be read whatever bank the driver is in. *)
Lemma read_common c s r old :
  0x1B <= r < 0x20 -> is_chip c s ->
  exists v c' s', runs (byref (enc28_do_read_ctl_reg ctx r) old) s (ENC28_OK, v) s' /\
    chip_read c (0, r) v c' /\ is_chip c' s'.
Proof.
  intros Hr Hs.
  assert (Ek : cur_key c r = (0, r)).
  { unfold cur_key, reg_key. destruct (Z.leb_spec 0x1B r); [reflexivity | lia]. }
  destruct (read_ctl_reg_exact c s r old) as (v & c' & s' & E & Hrd & Hs').
  - split; lia.
  - unfold classified. rewrite Ek. cbn [mac_mii_key].
    assert (N : forall x, x < 0x1B -> (r =? x) = false) by (intros x Hx; apply Z.eqb_neq; lia).
    unfold is_mac_or_mii_reg_in. rewrite !N by (vm_compute; reflexivity).
    now repeat case_match.
  - exact Hs.
  - rewrite Ek in Hrd. exists v, c', s'. split; [| split; assumption].
    unfold byref. eapply runs_bind; [exact E | reflexivity].
Qed.
End QuietRules.

(** * Pointers held in two registers *)

Lemma lor_byte_hi lo hi : is_u8 lo -> lo .| Z.shiftl hi 8 = hi * 256 + lo.
Proof. intros H. rewrite Z.lor_comm. now apply byte_pair. Qed.

Lemma land_1f z : z .& 0x1F = z mod 32.
Proof. change 0x1F with (Z.ones 5). now rewrite Z.land_ones. Qed.

(** A 13-bit address written as two bytes is read back. *)
Lemma pointer_split z : 0 <= z < 8192 ->
  (z .& 0xFF) .| Z.shiftl ((Z.shiftr z 8 .& 0x1F) .& 0x1F) 8 = z.
Proof.
  intros Hz. rewrite land_ff, lor_byte_hi by apply u8_range.
  rewrite !land_1f, shiftr8, Z.mod_mod by lia. unfold u8.
  assert (0 <= z / 256 < 32) by (split; [apply Z.div_pos; lia | apply Z.div_lt_upper_bound; lia]).
  rewrite (Z.mod_small (z / 256)) by lia. pose proof (Z.div_mod z 256). lia.
Qed.

Lemma shiftr8_u8 z : is_u16 z -> is_u8 (Z.shiftr z 8).
Proof.
  intros [H1 H2]. rewrite shiftr8. split; [apply Z.div_pos; lia | apply Z.div_lt_upper_bound; lia].
Qed.

Lemma land_1f_u8 z : is_u8 (z .& 0x1F).
Proof. rewrite land_1f. unfold is_u8. pose proof (Z.mod_pos_bound z 32). lia. Qed.

Lemma land_ff_u8 z : is_u8 (z .& 0xFF).
Proof. rewrite land_ff. apply u8_range. Qed.

(** * Writing the transmit buffer *)

Section WriteBytes.
Variable c : chip.

Lemma write_bytes_lookup data : forall p b,
  0 <= p -> p + Z.of_nat (length data) <= 8192 ->
  (forall i, (i < length data)%nat -> in_ring c (p + Z.of_nat i) = false) ->
  (forall i, (i < length data)%nat ->
     write_bytes c p data b !! (p + Z.of_nat i) = data !! i) /\
  (forall a, ~ (p <= a < p + Z.of_nat (length data)) -> write_bytes c p data b !! a = b !! a).
Proof.
  induction data as [| v data IH]; intros p b Hp Hlen Hring; cbn [write_bytes length] in *.
  { split; [intros i Hi; lia | reflexivity]. }
  assert (Hr0 : in_ring c p = false).
  { specialize (Hring 0%nat). rewrite Z.add_0_r in Hring. apply Hring. lia. }
  rewrite Hr0.
  destruct (Z.eq_dec (Z.of_nat (length data)) 0) as [E0 | E0].
  { destruct data; [| cbn in E0; lia]. cbn [write_bytes]. split.
    - intros [| i] Hi; [| cbn in Hi; lia]. cbn. rewrite Z.add_0_r. apply lookup_insert_eq.
    - intros a Ha. apply lookup_insert_ne. cbn in Ha. lia. }
  rewrite (Z.mod_small (p + 1)) by lia.
  destruct (IH (p + 1) (<[p := v]> b)) as [H1 H2]; [lia | lia | |].
  { intros i Hi. specialize (Hring (S i)). rewrite Nat2Z.inj_succ in Hring.
    replace (p + 1 + Z.of_nat i) with (p + Z.succ (Z.of_nat i)) by lia. apply Hring. lia. }
  split.
  - intros [| i] Hi; cbn.
    + rewrite Z.add_0_r, H2 by lia. apply lookup_insert_eq.
    + rewrite <- H1 by (cbn in Hi; lia). f_equal. lia.
  - intros a Ha. rewrite H2 by lia. apply lookup_insert_ne. lia.
Qed.
End WriteBytes.

(** What can be read back at consecutive addresses whose contents are known. *)
Lemma reads_as_known b addrs vs : reads_as b addrs vs ->
  forall n data, length data = n -> (n <= length addrs)%nat ->
  (forall i, (i < n)%nat -> exists a, addrs !! i = Some a /\ b !! a = data !! i) ->
  take n vs = data.
Proof.
  intros H n data Hl Hn Hk. apply list_eq. intros i.
  pose proof (Forall2_length _ _ _ H) as El.
  destruct (Nat.lt_ge_cases i n) as [L | L].
  - rewrite lookup_take_lt by exact L. destruct (Hk i L) as (a & Ha & Hb).
    destruct (Forall2_lookup_l _ _ _ _ _ H Ha) as (v & Hv & _ & Hx).
    destruct (lookup_lt_is_Some_2 data i) as [x Ex]; [lia |].
    rewrite Hv, Ex. rewrite Ex in Hb. now rewrite (Hx x Hb).
  - rewrite lookup_take_ge by exact L. symmetry. apply lookup_ge_None. lia.
Qed.

(** * The transmission *)

Section Transmit.
Context {W : Type} {d : spi_callbacks W} `{HD : !Enc28Device d}.
#[local] Abbreviation ctx := (Some (context_of d)).

Definition read_ptr (c : chip) : Z := pointer c ENC28_CR_ERDPTL ENC28_CR_ERDPTH.

(** What is known of a chip while packets are sent and received: the registers of the receive path. *)
Definition rx_known (c : chip) : known :=
  mk_known (chip_bank c)
    [((0, ENC28_CR_ERXSTL), Some (reg c (0, ENC28_CR_ERXSTL)));
     ((0, ENC28_CR_ERXSTH), Some (reg c (0, ENC28_CR_ERXSTH)));
     ((0, ENC28_CR_ERXNDL), Some (reg c (0, ENC28_CR_ERXNDL)));
     ((0, ENC28_CR_ERXNDH), Some (reg c (0, ENC28_CR_ERXNDH)));
     ((0, ENC28_CR_ECON2), Some (reg c (0, ENC28_CR_ECON2)));
     ((0, ENC28_CR_ERDPTL), Some (reg c (0, ENC28_CR_ERDPTL)));
     ((0, ENC28_CR_ERDPTH), Some (reg c (0, ENC28_CR_ERDPTH)))] (clk_wait c) (mii_wait c).

Lemma at_ring_known c F : F c -> at_chip (rx_known c) F c.
Proof.
  intros HF. split; [reflexivity |]. split; [| split; [cbn; lia | split; [cbn; lia | exact HF]]].
  intros k v. cbn. repeat case_decide; subst; congruence.
Qed.

Definition ring_kept (c c' : chip) : Prop := rx_start c' = rx_start c /\ rx_end c' = rx_end c.

Lemma facts_ring_kept l c c' :
  facts l c' ->
  assoc l (0, ENC28_CR_ERXSTL) = Some (reg c (0, ENC28_CR_ERXSTL)) ->
  assoc l (0, ENC28_CR_ERXSTH) = Some (reg c (0, ENC28_CR_ERXSTH)) ->
  assoc l (0, ENC28_CR_ERXNDL) = Some (reg c (0, ENC28_CR_ERXNDL)) ->
  assoc l (0, ENC28_CR_ERXNDH) = Some (reg c (0, ENC28_CR_ERXNDH)) ->
  ring_kept c c'.
Proof.
  intros Hf A1 A2 A3 A4. unfold ring_kept, rx_start, rx_end, pointer.
  rewrite (Hf _ _ A1), (Hf _ _ A2), (Hf _ _ A3), (Hf _ _ A4). split; reflexivity.
Qed.

(** The receive path is set up as before. *)
Definition rx_kept (c c' : chip) : Prop :=
  ring_kept c c' /\ autoinc c' = autoinc c /\ read_ptr c' = read_ptr c.

Lemma rx_kept_regs c c' : (forall k, k <> econ1_key -> reg c' k = reg c k) -> rx_kept c c'.
Proof.
  intros H. unfold rx_kept, ring_kept, rx_start, rx_end, autoinc, read_ptr, pointer.
  rewrite !H by discriminate. auto.
Qed.

Lemma rx_kept_trans c1 c2 c3 : rx_kept c1 c2 -> rx_kept c2 c3 -> rx_kept c1 c3.
Proof. intros [[A1 A2] [A3 A4]] [[B1 B2] [B3 B4]]. repeat split; congruence. Qed.

Lemma facts_rx_kept l c c' :
  facts l c' -> (forall k, assoc (k_regs (rx_known c)) k = Some (reg c k) -> assoc l k = Some (reg c k)) ->
  rx_kept c c'.
Proof.
  intros Hf Hl. pose proof (fun k H => Hf k _ (Hl k H)) as G.
  split; [eapply facts_ring_kept; [exact Hf | apply Hl; reflexivity..] |].
  unfold autoinc, read_ptr, pointer. rewrite !G by reflexivity. split; reflexivity.
Qed.

Lemma in_ring_kept c c' a : ring_kept c c' -> in_ring c' a = in_ring c a.
Proof. intros [E1 E2]. unfold in_ring. now rewrite E1, E2. Qed.

(** What neither sending nor the registers touch. *)
Definition side_kept (c c' : chip) : Prop :=
  rx_released c' = rx_released c /\ phy c' = phy c /\ released c' = released c /\ arrived c' = arrived c.

(** An idle transmitter and everything else as in [c0]. *)
Definition idle_as (c0 c : chip) : Prop := same_rest c0 c /\ tx_busy c = false.

#[export] Instance idle_as_reg_free c0 : RegFree (idle_as c0).
Proof.
  intros c c' Hr [H1 H2]. split; [exact (same_rest_trans _ _ _ H1 Hr) |].
  destruct Hr as (_ & _ & _ & _ & _ & _ & Hr). auto.
Qed.

(** The write-buffer-memory frame. *)
Lemma wbm_frame_exact c s ctrl data :
  is_chip c s -> is_u8 ctrl -> Forall is_u8 data ->
  exists c' s',
    runs (call_nss_pin_op ctx 0 ;; call_spi_out_op ctx [0x7A; ctrl] ;;
          call_spi_out_op ctx data ;; call_nss_pin_op ctx 1) s tt s' /\
    chip_wbm c (ctrl :: data) c' /\ is_chip c' s'.
Proof.
  intros [Hrep Hb] Hc Hd. destruct (wbm_ok _ _ ctrl data Hrep Hc Hd) as (c' & Hw & Hrep').
  match type of Hrep' with rep ?w _ => exists c', (mk_drv (priv_enc28_curr_bank s) w) end.
  split; [reflexivity |]. split; [exact Hw |]. split; [exact Hrep' |].
  cbn [priv_enc28_curr_bank]. rewrite Hb. symmetry. apply chip_bank_eq.
  rewrite Hw. rewrite !reg_set_ne by discriminate. reflexivity.
Qed.

(** The first part of [enc28_write_packet], after the test of TXRTS: pointers set, data written. *)
Definition write_known (K : known) : known :=
  know (0, ENC28_CR_EWRPTH) 0 (know (0, ENC28_CR_EWRPTL) 0x1D
    (know (0, ENC28_CR_ETXSTH) 0 (know (0, ENC28_CR_ETXSTL) 0x1D (in_bank 0 (forget econ1_key K))))).

Definition tx_written (c0 : chip) (data : list Z) (c : chip) : Prop :=
  (forall i, (i < length data)%nat -> buffer c !! (0x1E + Z.of_nat i) = data !! i) /\
  (forall a, in_ring c0 a = true -> buffer c !! a = buffer c0 !! a) /\
  sent c = sent c0 /\ tx_busy c = false /\ side_kept c0 c.

#[export] Instance tx_written_reg_free c0 data : RegFree (tx_written c0 data).
Proof.
  intros c c' (E1 & E2 & E3 & E4 & E5 & E6 & E7) (H1 & H2 & H3 & H4 & H5).
  unfold tx_written, side_kept. rewrite E1, E2, E3, E4, E5, E6. repeat split; try apply H5; auto.
Qed.

Lemma at_wbm c0 data K :
  Forall is_u8 data -> k_bank K = 0 ->
  0x1D + Z.of_nat (length data) + 1 < rx_start c0 -> rx_start c0 < 8192 ->
  assoc (k_regs K) (0, ENC28_CR_EWRPTL) = Some 0x1D ->
  assoc (k_regs K) (0, ENC28_CR_EWRPTH) = Some 0 ->
  (forall c, facts (k_regs K) c -> ring_kept c0 c) ->
  triple (at_state K (idle_as c0))
    (call_nss_pin_op ctx 0 ;; call_spi_out_op ctx [0x7A; 0] ;;
     call_spi_out_op ctx data ;; call_nss_pin_op ctx 1)
    (fun _ s => at_state (forget (0, ENC28_CR_EWRPTH) (forget (0, ENC28_CR_EWRPTL) K))
                  (tx_written c0 data) s).
Proof.
  intros Hd Hb0 Hfit Hst A1 A2 Hring s (c & Hs & Hb & Hf & H1 & H2 & [Hrest Hidle]).
  destruct (wbm_frame_exact c s 0 data Hs) as (c' & s' & E & Hw & Hs');
    [unfold is_u8; lia | exact Hd |].
  exists tt, s'. split; [exact E |]. exists c'. split; [exact Hs' |].
  pose proof (Hring c Hf) as Hkept.
  assert (Ep : pointer c ENC28_CR_EWRPTL ENC28_CR_EWRPTH = 0x1D).
  { unfold pointer. now rewrite (Hf _ _ A1), (Hf _ _ A2). }
  unfold chip_wbm in Hw. rewrite Ep in Hw.
  assert (Hout : forall a, a < rx_start c0 -> in_ring c a = false).
  { intros a Ha. rewrite (in_ring_kept _ _ _ Hkept). unfold in_ring.
    destruct (Z.leb_spec (rx_start c0) a); [lia | reflexivity]. }
  destruct (write_bytes_lookup c (0 :: data) 0x1D (buffer c)) as [L1 L2].
  { lia. } { cbn [length]. lia. } { intros i Hi. cbn [length] in Hi. apply Hout. lia. }
  assert (Hreg : forall k, k <> (0, ENC28_CR_EWRPTH) -> k <> (0, ENC28_CR_EWRPTL) ->
                           reg c' k = reg c k).
  { intros k K1 K2. subst c'. now rewrite !reg_set_ne by congruence. }
  assert (Ebuf : buffer c' = write_bytes c 0x1D (0 :: data) (buffer c)) by now subst c'.
  split; [| split; [| split; [| split]]].
  - transitivity (chip_bank c); [apply chip_bank_eq; apply Hreg; discriminate | exact Hb].
  - intros k v. cbn. repeat case_decide; subst; intros Ha; try congruence.
    rewrite Hreg by congruence. now apply Hf.
  - subst c'. exact H1.
  - subst c'. exact H2.
  - destruct Hrest as (Eb & E2 & E3 & Es & E5 & E6 & _). split; [| split; [| split; [| split]]].
    + intros i Hi. rewrite Ebuf. specialize (L1 (S i)). cbn [length lookup list_lookup] in L1.
      replace (0x1E + Z.of_nat i) with (0x1D + Z.of_nat (S i)) by lia. apply L1. lia.
    + intros a Ha. rewrite Ebuf, L2, Eb; [reflexivity |]. cbn [length]. intros [_ B].
      rewrite <- (in_ring_kept _ _ a Hkept), Hout in Ha by lia. discriminate.
    + subst c'. exact Es.
    + rewrite <- Hidle. apply tx_busy_eq. apply Hreg; discriminate.
    + subst c'. split; [exact E2 | split; [exact E3 | now split]].
Qed.

(** The last step: the rising edge of TXRTS puts the frame on the wire. *)
Lemma at_transmit c0 data K :
  k_bank K = 0 ->
  assoc (k_regs K) (0, ENC28_CR_ETXSTL) = Some 0x1D ->
  assoc (k_regs K) (0, ENC28_CR_ETXSTH) = Some 0 ->
  0x1D + Z.of_nat (length data) + 1 < 8192 ->
  let e := 0x1D + Z.of_nat (length data) + 1 in
  assoc (k_regs K) (0, ENC28_CR_ETXNDL) = Some (e .& 0xFF) ->
  assoc (k_regs K) (0, ENC28_CR_ETXNDH) = Some (Z.shiftr e 8 .& 0x1F) ->
  (forall c, facts (k_regs K) c -> rx_kept c0 c) ->
  triple (at_state K (tx_written c0 data))
    (enc28_do_set_bits_ctl_reg ctx ENC28_CR_ECON1 (bit ENC28_ECON1_TXRTS))
    (fun st s => st = ENC28_OK /\ exists c', is_chip c' s /\ chip_bank c' = 0 /\
       (exists extra, is_u8 extra /\ sent c' = sent c0 ++ [data ++ [extra]]) /\
       (forall a, in_ring c0 a = true -> buffer c' !! a = buffer c0 !! a) /\
       rx_kept c0 c' /\ side_kept c0 c').
Proof.
  intros Hb0 A1 A2 Hlt e A3 A4 Hrx s (c & Hs & Hb & Hf & _ & _ & Hdata & Hkeep & Hsent & Hidle & Hside).
  destruct (set_bits_ctl_reg_exact c s ENC28_CR_ECON1 (bit ENC28_ECON1_TXRTS))
    as (c' & s' & E & Hst & Hrep & Hbk);
    [apply usable_reg_check; reflexivity | apply is_u8_check; reflexivity | exact Hs |].
  exists ENC28_OK, s'. split; [exact E |]. split; [reflexivity |].
  change (cur_key c ENC28_CR_ECON1) with econ1_key in Hst.
  unfold chip_bfs in Hst. change (mac_mii_key econ1_key) with false in Hst. cbv iota in Hst.
  unfold chip_store in Hst. rewrite decide_True in Hst by reflexivity.
  assert (Ht : Z.testbit (reg c econ1_key .| bit ENC28_ECON1_TXRTS) ENC28_ECON1_TXRTS = true).
  { rewrite Z.lor_spec. change (Z.testbit (bit ENC28_ECON1_TXRTS) ENC28_ECON1_TXRTS) with true.
    apply orb_true_r. }
  unfold tx_busy in Hidle. rewrite Ht, Hidle in Hst. cbn [andb negb] in Hst.
  destruct Hst as (f & Hf' & Ec').
  assert (Hbank : chip_bank c' = chip_bank c).
  { subst c'. change (chip_bank (set_reg econ1_key (reg c econ1_key .| bit ENC28_ECON1_TXRTS) c)
                      = chip_bank c).
    unfold chip_bank. fold econ1_key. rewrite reg_set_eq, Z.land_lor_distr_l.
    change (bit ENC28_ECON1_TXRTS .& 3) with 0. apply Z.lor_0_r. }
  exists c'. split; [split; [exact Hrep | rewrite Hbk, (proj2 Hs); now symmetry] |].
  split; [congruence |]. split; [| split; [intros a Ha; subst c'; now apply Hkeep | split]].
  2: { apply (rx_kept_trans _ c); [now apply Hrx |]. subst c'. apply rx_kept_regs. intros k Hk.
       now apply (reg_set_ne econ1_key). }
  2: { subst c'. exact Hside. }
  (* the frame *)
  unfold transmits in Hf'.
  assert (Ep : pointer c ENC28_CR_ETXSTL ENC28_CR_ETXSTH = 0x1D).
  { unfold pointer. now rewrite (Hf _ _ A1), (Hf _ _ A2). }
  assert (Ee : pointer c ENC28_CR_ETXNDL ENC28_CR_ETXNDH = e).
  { unfold pointer. rewrite (Hf _ _ A3), (Hf _ _ A4). apply pointer_split. subst e. lia. }
  rewrite Ep, Ee in Hf'.
  replace (Z.to_nat (e - 0x1D)) with (S (length data)) in Hf' by (subst e; lia).
  assert (Et : take (length data) f = data).
  { eapply reads_as_known; [exact Hf' | reflexivity | |].
    - rewrite length_fmap, length_seq. lia.
    - intros i Hi. exists (0x1D + 1 + Z.of_nat i). split.
      + rewrite list_lookup_fmap, lookup_seq_lt by lia. reflexivity.
      + now apply Hdata. }
  pose proof (Forall2_length _ _ _ Hf') as El. rewrite length_fmap, length_seq in El.
  destruct (lookup_lt_is_Some_2 f (length data)) as [x Hx]; [lia |].
  exists x. split.
  - destruct (Forall2_lookup_r _ _ _ _ _ Hf' Hx) as (a & _ & Hx8 & _). exact Hx8.
  - subst c'. cbn [sent add_sent]. change (sent (set_reg _ _ c)) with (sent c).
    rewrite Hsent. do 2 f_equal.
    rewrite <- (take_drop (length data) f), Et. f_equal.
    apply (drop_S) in Hx. rewrite Hx. f_equal. apply drop_ge. lia.
Qed.

Lemma write_packet_idle c0 buf size :
  14 <= size <= Z.of_nat (length buf) -> Forall is_u8 buf ->
  0x1D + size + 1 < rx_start c0 -> rx_start c0 < 8192 -> tx_busy c0 = false ->
  triple (at_state (rx_known c0) (idle_as c0))
    (TRY enc28_select_register_bank ctx 0 ;;
     TRY enc28_do_write_ctl_reg ctx ENC28_CR_ETXSTL (ENC28_CONF_TX_ADDRESS_START .& 0xFF) ;;
     TRY enc28_do_write_ctl_reg ctx ENC28_CR_ETXSTH
           (Z.shiftr ENC28_CONF_TX_ADDRESS_START 8 .& 0x1F) ;;
     TRY enc28_do_write_ctl_reg ctx ENC28_CR_EWRPTL (ENC28_CONF_TX_ADDRESS_START .& 0xFF) ;;
     TRY enc28_do_write_ctl_reg ctx ENC28_CR_EWRPTH
           (Z.shiftr ENC28_CONF_TX_ADDRESS_START 8 .& 0x1F) ;;
     if Z.of_nat (length buf) <? size then undefined else
     call_nss_pin_op ctx 0 ;;
     call_spi_out_op ctx [0x7A; 0] ;;
     call_spi_out_op ctx (take (Z.to_nat size) buf) ;;
     call_nss_pin_op ctx 1 ;;
     let end_address := u16 (ENC28_CONF_TX_ADDRESS_START + size + 1) in
     TRY enc28_do_write_ctl_reg ctx ENC28_CR_ETXNDL (end_address .& 0xFF) ;;
     TRY enc28_do_write_ctl_reg ctx ENC28_CR_ETXNDH (Z.shiftr end_address 8 .& 0x1F) ;;
     TRY enc28_do_clear_bits_ctl_reg ctx ENC28_CR_EIR (bit ENC28_EIR_TXIF) ;;
     TRY enc28_do_set_bits_ctl_reg ctx ENC28_CR_ECON1 (bit ENC28_ECON1_TX_RST) ;;
     TRY enc28_do_clear_bits_ctl_reg ctx ENC28_CR_ECON1 (bit ENC28_ECON1_TX_RST) ;;
     enc28_do_set_bits_ctl_reg ctx ENC28_CR_ECON1 (bit ENC28_ECON1_TXRTS))
    (fun st s => st = ENC28_OK /\ exists c', is_chip c' s /\ chip_bank c' = 0 /\
       (exists extra, is_u8 extra /\ sent c' = sent c0 ++ [take (Z.to_nat size) buf ++ [extra]]) /\
       (forall a, in_ring c0 a = true -> buffer c' !! a = buffer c0 !! a) /\
       rx_kept c0 c' /\ side_kept c0 c').
Proof.
  intros Hsize Hbytes Hfit Hst Hidle.
  set (data := take (Z.to_nat size) buf).
  assert (Hlen : Z.of_nat (length data) = size).
  { subst data. rewrite length_take. lia. }
  assert (Hdata : Forall is_u8 data) by now apply Forall_take.
  do 5 drive.
  destruct (Z.ltb_spec (Z.of_nat (length buf)) size); [lia |].
  eapply triple_seq4.
  { eapply (at_wbm c0 data); [exact Hdata | reflexivity | lia | exact Hst | reflexivity
                             | reflexivity |].
    intros c Hf. eapply facts_ring_kept; [exact Hf | reflexivity..]. }
  intros ?. cbv beta zeta.
  rewrite u16_small by (unfold is_u16, ENC28_CONF_TX_ADDRESS_START; lia).
  eapply triple_exit; [eapply at_write; try drive_side; apply land_ff_u8 |].
  eapply triple_exit; [eapply at_write; try drive_side; apply land_1f_u8 |].
  drive.
  eapply triple_exit; [apply at_set_bits_econ1; drive_side |].
  eapply triple_exit; [apply at_clear_bits_econ1; drive_side |].
  eapply (at_transmit c0 data); try reflexivity; [lia | rewrite Hlen; reflexivity.. |].
  intros c Hf. eapply facts_rx_kept; [exact Hf |]. clear. intros k. cbn.
  repeat case_decide; subst; first [congruence | discriminate].
Qed.
End Transmit.

(** * Sending a packet *)

Lemma enc28_write_packet_spec {W} {d : spi_callbacks W} `{HD : !Enc28Device d}
  (c : chip) (buf : list Z) (size : Z) :
  14 <= size <= Z.of_nat (length buf) -> Forall is_u8 buf ->
  ENC28_CONF_TX_ADDRESS_START + size + 1 < rx_start c -> rx_start c < 8192 ->
  triple (is_chip c) (enc28_write_packet (Some (context_of d)) (Some buf) size)
    (fun st s => exists c', is_chip c' s /\
       (forall a, in_ring c a = true -> buffer c' !! a = buffer c !! a) /\
       ((st = ENC28_PACKET_TX_IN_PROGRESS /\ tx_busy c = true /\ sent c' = sent c) \/
        (st = ENC28_OK /\ exists extra, is_u8 extra /\
           sent c' = sent c ++ [take (Z.to_nat size) buf ++ [extra]])) /\
       rx_kept c c' /\ side_kept c c').
Proof.
  intros Hsize Hbytes Hfit Hst s Hs. unfold enc28_write_packet, ENC28_CONF_TX_ADDRESS_START in *.
  destruct (Z.ltb_spec size 14); [lia |].
  destruct (read_common c s ENC28_CR_ECON1 0) as (v & c1 & s1 & E1 & Hrd & Hs1);
    [unfold ENC28_CR_ECON1; lia | exact Hs |].
  pose proof (chip_read_effect _ _ _ _ Hrd) as (Hrest & _ & _ & _ & Hne & _).
  destruct Hrd as (_ & _ & _ & _ & Htx & _ & Ec1). rewrite !decide_False in Ec1 by discriminate.
  rewrite (bind_done _ _ _ _ _ E1). cbn [exit_if_err is_ok].
  rewrite truth_bit by (unfold ENC28_ECON1_TXRTS; lia).
  assert (Hkept : rx_kept c c1) by (apply rx_kept_regs; intros k Hk; apply Hne; [exact Hk | discriminate]).
  assert (Hside : side_kept c c1) by (destruct Hrest as (_ & E2 & E3 & _ & E5 & E6 & _); repeat split; assumption).
  destruct (Z.testbit v ENC28_ECON1_TXRTS) eqn:Eb.
  - exists ENC28_PACKET_TX_IN_PROGRESS, s1. split; [reflexivity |].
    exists c1. split; [exact Hs1 |]. destruct Hrest as (Ebuf & E2 & E3 & Esent & E5 & E6 & _).
    split; [intros a _; now rewrite Ebuf |]. split; [left; split; [reflexivity |]; split; [now apply Htx | exact Esent] |].
    auto.
  - assert (Hring : ring_kept c c1).
    { unfold ring_kept, rx_start, rx_end, pointer. rewrite !Hne by discriminate. now split. }
    assert (Hidle : tx_busy c1 = false).
    { subst c1. unfold tx_busy. now rewrite reg_set_eq. }
    destruct (write_packet_idle c1 buf size Hsize Hbytes) with (s := s1)
      as (st & s' & E & Hst' & c' & Hs' & _ & Hf & Hb & Hk & Hd);
      [destruct Hring; lia | destruct Hring; lia | exact Hidle | |].
    { exists c1. split; [exact Hs1 |]. apply at_ring_known. split; [apply same_rest_refl | exact Hidle]. }
    exists st, s'. split; [exact E |]. exists c'. split; [exact Hs' |].
    destruct Hrest as (Ebuf & _ & _ & Esent & _). rewrite Ebuf, Esent in *.
    split; [intros a Ha; apply Hb; now rewrite (in_ring_kept _ _ _ Hring) |].
    split; [right; auto |]. split; [exact (rx_kept_trans _ _ _ Hkept Hk) |].
    destruct Hside as (G1 & G2 & G3 & G4), Hd as (D1 & D2 & D3 & D4). repeat split; congruence.
Qed.

(** C4: On a conforming device, with the receive ring above the transmit area, [enc28_write_packet]
    returns. If ECON1.TXRTS still reads as set it returns ENC28_PACKET_TX_IN_PROGRESS and sends
    nothing; otherwise it returns ENC28_OK and exactly one frame goes out, made of the first
    [size] bytes of the buffer followed by one further byte of buffer memory (the end pointer is
    programmed one past the last byte of the packet). The receive ring is left untouched in both
    cases, and an idle transmitter always accepts the packet. *)
Theorem enc28_write_packet_transmits {W} {d : spi_callbacks W} `{HD : !Enc28Device d}
  (c : chip) (buf : list Z) (size : Z) :
  14 <= size <= Z.of_nat (length buf) -> Forall is_u8 buf ->
  ENC28_CONF_TX_ADDRESS_START + size + 1 < rx_start c -> rx_start c < 8192 ->
  triple (is_chip c) (enc28_write_packet (Some (context_of d)) (Some buf) size)
    (fun st s => exists c', is_chip c' s /\
       (forall a, in_ring c a = true -> buffer c' !! a = buffer c !! a) /\
       ((st = ENC28_PACKET_TX_IN_PROGRESS /\ tx_busy c = true /\ sent c' = sent c) \/
        (st = ENC28_OK /\ exists extra, is_u8 extra /\
           sent c' = sent c ++ [take (Z.to_nat size) buf ++ [extra]]))).
Proof.
  intros H1 H2 H3 H4. eapply triple_conseq; [apply enc28_write_packet_spec; eassumption | auto |].
  intros st s (c' & A & B & C & _). eauto.
Qed.
