(* ===== verification/Enc28Receive.v ===== *)
(** Receiving a packet: [enc28_read_packet]. *)
From Stdlib Require Import ZArith Lia Bool.
From stdpp Require Import base decidable list gmap.
From S2P Require Import Prelude Enc28Regs Enc28Driver Enc28Device Enc28Spec Enc28Hoare Enc28Transmit.

(** * The receive ring *)

Lemma ring_addrs_lookup st nd n : forall p i, (i < n)%nat ->
  ring_addrs st nd n p !! i = Some (ring_iter st nd i p).
Proof.
  induction n as [| n IH]; intros p i Hi; [lia |].
  destruct i as [| i]; [reflexivity |]. cbn. apply IH. lia.
Qed.

Lemma length_ring_addrs st nd n : forall p, length (ring_addrs st nd n p) = n.
Proof. induction n as [| n IH]; intros p; cbn; [reflexivity | now rewrite IH]. Qed.

Lemma ring_iter_add st nd a : forall b p,
  ring_iter st nd (a + b) p = ring_iter st nd b (ring_iter st nd a p).
Proof. induction a as [| a IH]; intros b p; [reflexivity |]. cbn. apply IH. Qed.

Lemma ring_next_range st nd p : 0 <= st -> nd < 8192 -> st <= p <= nd -> st <= ring_next st nd p <= nd.
Proof.
  intros H1 H2 Hp. unfold ring_next. destruct (Z.eqb_spec p nd); [lia |].
  rewrite Z.mod_small by lia. lia.
Qed.

Lemma ring_iter_range st nd n : 0 <= st -> nd < 8192 -> forall p, st <= p <= nd ->
  st <= ring_iter st nd n p <= nd.
Proof.
  intros H1 H2. induction n as [| n IH]; intros p Hp; [exact Hp |].
  cbn. apply IH. now apply ring_next_range.
Qed.

(** A received frame in the buffer memory: where the next one starts, the two status bytes the
    driver looks at, the packet. *)
Record rx_frame : Type := mk_rx_frame {
  fr_next : Z;
  fr_status_lo : Z;
  fr_status_hi : Z;
  fr_data : list Z
}.

Definition frame_len (f : rx_frame) : Z := Z.of_nat (length (fr_data f)).

(** What the chip stores for it: next-packet pointer, byte count, status, packet. *)
Definition frame_bytes (f : rx_frame) : list Z :=
  [fr_next f .& 0xFF; Z.shiftr (fr_next f) 8; frame_len f .& 0xFF; Z.shiftr (frame_len f) 8;
   fr_status_lo f; fr_status_hi f] ++ fr_data f.

(** The frame is in the stable part of the buffer memory, starting at [p] and wrapping with the
    ring. *)
Definition frame_at (c : chip) (p : Z) (f : rx_frame) : Prop :=
  forall i x, frame_bytes f !! i = Some x ->
              buffer c !! ring_iter (rx_start c) (rx_end c) i p = Some x.

(** The status vector the driver reports for it. *)
Definition frame_vector (f : rx_frame) : ENC28_Receive_Status_Vector := {|
  packet_len_lo := frame_len f .& 0xFF;
  packet_len_hi := Z.shiftr (frame_len f) 8;
  status_bits_lo := status_bits_lo_of_byte (fr_status_lo f);
  status_bits_hi := status_bits_hi_of_byte (fr_status_hi f)
|}.

Definition frame_ok (f : rx_frame) : bool := received_ok (status_bits_lo_of_byte (fr_status_lo f)).

Definition frame_wf (f : rx_frame) : Prop :=
  ENC28_CONF_RX_ADDRESS_START <= fr_next f <= ENC28_CONF_RX_ADDRESS_END /\ frame_len f < 65536.

(** The receiver as [enc28_do_init] and [enc28_begin_packet_transfer] leave it. *)
Definition rx_ready (c : chip) : Prop :=
  rx_start c = ENC28_CONF_RX_ADDRESS_START /\ rx_end c = ENC28_CONF_RX_ADDRESS_END /\
  autoinc c = true /\ ENC28_CONF_RX_ADDRESS_START <= read_ptr c <= ENC28_CONF_RX_ADDRESS_END.

Definition rx_view (c0 : chip) (ptr : Z) (c : chip) : Prop :=
  rx_start c = rx_start c0 /\ rx_end c = rx_end c0 /\ autoinc c = true /\ read_ptr c = ptr.

(** The value ERXRDPT gets when the next packet starts at [next]. *)
Definition release_ptr (next : Z) : Z :=
  if (ENC28_CONF_RX_ADDRESS_END <? next - 1) || (next - 1 <? ENC28_CONF_RX_ADDRESS_START)
  then ENC28_CONF_RX_ADDRESS_END else next - 1.

Lemma release_ptr_range next : 0 <= next < 8192 ->
  ENC28_CONF_RX_ADDRESS_START <= release_ptr next <= ENC28_CONF_RX_ADDRESS_END.
Proof.
  unfold release_ptr, ENC28_CONF_RX_ADDRESS_START, ENC28_CONF_RX_ADDRESS_END. intros H.
  destruct (Z.ltb_spec 7935 (next - 1)), (Z.ltb_spec (next - 1) 2000); cbn [orb]; lia.
Qed.

Lemma at_rx_known c : at_chip (rx_known c) (same_rest c) c.
Proof. apply at_ring_known, same_rest_refl. Qed.

Lemma list_lookup_app_eq {A} (l1 l2 : list A) i : (l1 ++ l2) !! (length l1 + i)%nat = l2 !! i.
Proof. rewrite lookup_app_r by lia. f_equal. lia. Qed.

Lemma pointer_split' z : 0 <= z < 8192 -> (z .& 0xFF) .| Z.shiftl (Z.shiftr z 8 .& 0x1F) 8 = z.
Proof.
  intros Hz. rewrite <- (pointer_split z Hz) at 3. do 2 f_equal. rewrite !land_1f.
  symmetry. apply Z.mod_mod. lia.
Qed.

Section Frames.
Context {W : Type} {d : spi_callbacks W} `{HD : !Enc28Device d}.
#[local] Abbreviation ctx := (Some (context_of d)).

Lemma chip_rbm_bank c n vs c' : chip_rbm c n vs c' -> chip_bank c' = chip_bank c.
Proof. intros [_ ->]. apply chip_bank_eq. now rewrite !reg_set_ne by discriminate. Qed.

(** The frame that clocks a header out and in at the same time. *)
Lemma rbm_in_out_exact c s zs rx :
  is_chip c s -> autoinc c = true -> length rx = S (length zs) ->
  exists dummy vs c' s',
    runs (call_nss_pin_op ctx 0 ;; hdr <- call_spi_in_out_op ctx (0x3A :: zs) rx ;;
          call_nss_pin_op ctx 1 ;; ret hdr) s (dummy :: vs) s' /\
    chip_rbm c (length zs) vs c' /\ is_chip c' s'.
Proof.
  intros [Hrep Hb] Ha Hl.
  destruct (rbm_in_out_ok _ _ zs rx Hrep Ha Hl) as (dm & vs & w' & c' & E & Hr & Hrep').
  exists dm, vs, c', (mk_drv (priv_enc28_curr_bank s) (dev_nss d 1 w')).
  split; [| split; [exact Hr | split; [exact Hrep' |]]].
  - unfold runs, call_nss_pin_op, call_spi_in_out_op, on_world, on_world_r, bind, modify, ret.
    cbn. now rewrite E.
  - cbn. rewrite (chip_rbm_bank _ _ _ _ Hr). exact Hb.
Qed.

(** The frame that reads packet data. *)
Lemma rbm_in_exact c s buf :
  is_chip c s -> autoinc c = true ->
  exists vs c' s',
    runs (call_nss_pin_op ctx 0 ;; call_spi_out_op ctx [0x3A] ;;
          got <- call_spi_in_op ctx buf ;; call_nss_pin_op ctx 1 ;; ret got) s vs s' /\
    chip_rbm c (length buf) vs c' /\ is_chip c' s'.
Proof.
  intros [Hrep Hb] Ha.
  destruct (rbm_in_ok _ _ buf Hrep Ha) as (vs & w' & c' & E & Hr & Hrep').
  exists vs, c', (mk_drv (priv_enc28_curr_bank s) (dev_nss d 1 w')).
  split; [| split; [exact Hr | split; [exact Hrep' |]]].
  - unfold runs, call_nss_pin_op, call_spi_out_op, call_spi_in_op, on_world, on_world_r, bind,
      modify, ret. cbn. now rewrite E.
  - cbn. rewrite (chip_rbm_bank _ _ _ _ Hr). exact Hb.
Qed.

(** Reading part of a frame yields its bytes and moves the read pointer. *)
Lemma rbm_frame c n vs c' p off bytes :
  chip_rbm c n vs c' -> 0 <= rx_start c -> rx_end c < 8192 -> rx_start c <= p <= rx_end c ->
  read_ptr c = ring_iter (rx_start c) (rx_end c) off p ->
  (forall i, (i < n)%nat ->
     buffer c !! ring_iter (rx_start c) (rx_end c) (off + i) p = bytes !! (off + i)%nat) ->
  (off + n <= length bytes)%nat ->
  vs = take n (drop off bytes) /\
  read_ptr c' = ring_iter (rx_start c) (rx_end c) (off + n) p /\
  same_rest c c' /\
  (forall k, k <> (0, ENC28_CR_ERDPTL) -> k <> (0, ENC28_CR_ERDPTH) -> reg c' k = reg c k).
Proof.
  intros [Hr Ec'] H0 H1 Hp Hptr Hbytes Hlen. unfold read_ptr in Hptr. rewrite Hptr in Hr, Ec'.
  rewrite <- ring_iter_add in Ec'.
  assert (Hvs : vs = take n (drop off bytes)).
  { rewrite <- (take_ge vs n).
    2:{ apply Forall2_length in Hr. rewrite length_ring_addrs in Hr. lia. }
    eapply reads_as_known; [exact Hr | | rewrite length_ring_addrs; lia |].
    - rewrite length_take, length_drop. lia.
    - intros i Hi. exists (ring_iter (rx_start c) (rx_end c) (off + i) p). split.
      + rewrite ring_addrs_lookup by exact Hi. now rewrite ring_iter_add.
      + rewrite lookup_take_lt, lookup_drop by exact Hi. now apply Hbytes. }
  split; [exact Hvs |]. subst c'. split; [| split].
  - unfold read_ptr, pointer. rewrite reg_set_eq, reg_set_ne, reg_set_eq by discriminate.
    pose proof (ring_iter_range _ _ (off + n) H0 H1 p Hp) as Hrg. apply pointer_split'. lia.
  - eapply same_rest_trans; apply same_rest_set_reg; discriminate.
  - intros k K1 K2. now rewrite !reg_set_ne by congruence.
Qed.

(** What the rules need from the registers: ring, read pointer [off] bytes into the frame at [p],
    automatic increment. *)
Definition reading (c0 : chip) (p : Z) (off : nat) (K : known) : Prop :=
  forall c, facts (k_regs K) c ->
    ring_kept c0 c /\ autoinc c = true /\
    read_ptr c = ring_iter (rx_start c0) (rx_end c0) off p.

Definition after_read (c0 : chip) (p : Z) (off : nat) (K : known) : known :=
  let q := ring_iter (rx_start c0) (rx_end c0) off p in
  know (0, ENC28_CR_ERDPTH) (Z.shiftr q 8) (know (0, ENC28_CR_ERDPTL) (q .& 0xFF) K).

Definition valid_ring (c : chip) (p : Z) : Prop :=
  0 <= rx_start c /\ rx_end c < 8192 /\ rx_start c <= p <= rx_end c.

(** The state after a buffer read of [n] known bytes. *)
Lemma at_after_rbm c0 K p off bytes n c vs c' s' :
  valid_ring c0 p -> reading c0 p off K -> k_bank K = 0 ->
  (forall i x, bytes !! i = Some x -> buffer c0 !! ring_iter (rx_start c0) (rx_end c0) i p = Some x) ->
  (off + n <= length bytes)%nat ->
  at_chip K (same_rest c0) c -> chip_rbm c n vs c' -> is_chip c' s' ->
  vs = take n (drop off bytes) /\
  at_state (after_read c0 p (off + n) K) (same_rest c0) s'.
Proof.
  intros (V1 & V2 & V3) HK Hb0 Hbytes Hlen (Hb & Hf & H1 & H2 & HF) Hr Hs'.
  destruct (HK c Hf) as ((E1 & E2) & _ & Eptr).
  assert (Eb : buffer c = buffer c0) by apply HF.
  destruct (rbm_frame c n vs c' p off bytes Hr) as (Hvs & _ & Hsame & Hreg);
    rewrite ?E1, ?E2, ?Eb; try assumption.
  { intros i Hi. destruct (lookup_lt_is_Some_2 bytes (off + i)) as [x Hx]; [lia |].
    rewrite Hx. now apply Hbytes. }
  split; [exact Hvs |]. exists c'. split; [exact Hs' |].
  set (q := ring_iter (rx_start c0) (rx_end c0) (off + n) p).
  assert (Ec' : c' = set_reg (0, ENC28_CR_ERDPTH) (Z.shiftr q 8)
                      (set_reg (0, ENC28_CR_ERDPTL) (q .& 0xFF) c)).
  { destruct Hr as [_ ->]. unfold read_ptr in Eptr. now rewrite Eptr, E1, E2, <- ring_iter_add. }
  split; [| split; [| split; [| split]]].
  - rewrite (chip_rbm_bank _ _ _ _ Hr). exact Hb.
  - unfold after_read. fold q. cbn [k_regs know].
    eapply facts_know; [eapply facts_know; [exact Hf | |] | |].
    + apply reg_set_eq.
    + intros k' Hk'. apply reg_set_ne. congruence.
    + rewrite Ec'. apply reg_set_eq.
    + intros k' Hk'. rewrite Ec'. apply reg_set_ne. congruence.
  - rewrite Ec'. exact H1.
  - rewrite Ec'. exact H2.
  - exact (same_rest_trans _ _ _ HF Hsame).
Qed.

(** Three calls whose middle one produces the bytes read. *)
Lemma triple_frame {S A B} (P : S -> Prop) (a b : prog S unit) (m : prog S A) (k : A -> prog S B)
  R Q :
  triple P (a ;; h <- m ;; b ;; ret h) R -> (forall h, triple (R h) (k h) Q) ->
  triple P (a ;; h <- m ;; b ;; k h) Q.
Proof.
  intros Hm Hk. apply triple_ext with (bind (a ;; h <- m ;; b ;; ret h) k).
  - intros s. unfold bind. destruct (a s) as [? s1 | | |]; [| reflexivity..].
    destruct (m s1) as [h s2 | | |]; [| reflexivity..].
    destruct (b s2) as [? s3 | | |]; reflexivity.
  - exact (triple_bind _ _ _ _ _ Hm Hk).
Qed.

Lemma triple_frame4 {S A X B} (P : S -> Prop) (a b c : prog S unit) (m : prog S A) (g : A -> X)
  (k : X -> prog S B) R Q :
  triple P (a ;; b ;; got <- m ;; c ;; ret got) R ->
  (forall got, triple (R got) (k (g got)) Q) ->
  triple P (a ;; b ;; x <- (got <- m ;; ret (g got)) ;; c ;; k x) Q.
Proof.
  intros Hm Hk. apply triple_ext with (got <- (a ;; b ;; got <- m ;; c ;; ret got) ;; k (g got)).
  - intros s. unfold bind. destruct (a s) as [? s1 | | |]; [| reflexivity..].
    destruct (b s1) as [? s2 | | |]; [| reflexivity..].
    destruct (m s2) as [got s3 | | |]; [| reflexivity..]. cbn.
    destruct (c s3) as [? s4 | | |]; reflexivity.
  - exact (triple_bind _ _ _ _ _ Hm Hk).
Qed.

Lemma at_rbm_in_out c0 K p off bytes zs rx :
  valid_ring c0 p -> reading c0 p off K -> k_bank K = 0 ->
  (forall i x, bytes !! i = Some x -> buffer c0 !! ring_iter (rx_start c0) (rx_end c0) i p = Some x) ->
  (off + length zs <= length bytes)%nat -> length rx = S (length zs) ->
  triple (at_state K (same_rest c0))
    (call_nss_pin_op ctx 0 ;; hdr <- call_spi_in_out_op ctx (0x3A :: zs) rx ;;
     call_nss_pin_op ctx 1 ;; ret hdr)
    (fun hdr s => (exists dm, hdr = dm :: take (length zs) (drop off bytes)) /\
       at_state (after_read c0 p (off + length zs) K) (same_rest c0) s).
Proof.
  intros HV HK Hb0 Hbytes Hlen Hl s (c & Hs & Hc).
  assert (Ha : autoinc c = true) by (destruct Hc as (_ & Hf & _); now apply (HK c Hf)).
  destruct (rbm_in_out_exact c s zs rx Hs Ha Hl) as (dm & vs & c' & s' & E & Hr & Hs').
  destruct (at_after_rbm c0 K p off bytes _ c vs c' s' HV HK Hb0 Hbytes Hlen Hc Hr Hs')
    as [-> Hat].
  eexists _, s'. split; [exact E |]. split; [eauto | exact Hat].
Qed.

Lemma at_rbm_in c0 K p off bytes buf :
  valid_ring c0 p -> reading c0 p off K -> k_bank K = 0 ->
  (forall i x, bytes !! i = Some x -> buffer c0 !! ring_iter (rx_start c0) (rx_end c0) i p = Some x) ->
  (off + length buf <= length bytes)%nat ->
  triple (at_state K (same_rest c0))
    (call_nss_pin_op ctx 0 ;; call_spi_out_op ctx [0x3A] ;; got <- call_spi_in_op ctx buf ;;
     call_nss_pin_op ctx 1 ;; ret got)
    (fun got s => got = take (length buf) (drop off bytes) /\
       at_state (after_read c0 p (off + length buf) K) (same_rest c0) s).
Proof.
  intros HV HK Hb0 Hbytes Hlen s (c & Hs & Hc).
  assert (Ha : autoinc c = true) by (destruct Hc as (_ & Hf & _); now apply (HK c Hf)).
  destruct (rbm_in_exact c s buf Hs Ha) as (vs & c' & s' & E & Hr & Hs').
  destruct (at_after_rbm c0 K p off bytes _ c vs c' s' HV HK Hb0 Hbytes Hlen Hc Hr Hs')
    as [-> Hat].
  eexists _, s'. split; [exact E |]. split; [reflexivity | exact Hat].
Qed.

(** Moving the receive read pointer, with its exact effect on the buffer memory. *)
Lemma at_release c0 K lo v :
  is_u8 v -> k_bank K = 0 -> assoc (k_regs K) (0, ENC28_CR_ERXRDPTL) = Some lo ->
  (forall c, facts (k_regs K) c -> ring_kept c0 c) ->
  triple (at_state K (same_rest c0)) (enc28_do_write_ctl_reg ctx ENC28_CR_ERXRDPTH v)
    (fun st s => st = ENC28_OK /\
       at_state (know (0, ENC28_CR_ERXRDPTH) v K)
         (same_rest (release_to (lo .| Z.shiftl (v .& 0x1F) 8) c0)) s).
Proof.
  intros Hv Hb0 Hlo Hring s (c & Hs & Hc).
  destruct (write_ctl_reg_exact c s ENC28_CR_ERXRDPTH v) as (c' & s' & E & Hst & Hrep & Hbk);
    [apply usable_reg_check; reflexivity | exact Hv | exact Hs |].
  exists ENC28_OK, s'. split; [exact E |]. split; [reflexivity |].
  rewrite (at_chip_key _ _ _ _ Hc), Hb0 in Hst.
  change (reg_key 0 ENC28_CR_ERXRDPTH) with (0, ENC28_CR_ERXRDPTH) in Hst.
  unfold chip_store in Hst. rewrite !decide_False in Hst by discriminate.
  rewrite decide_True in Hst by reflexivity.
  destruct Hc as (Hb & Hf & H1 & H2 & HF). rewrite (Hf _ _ Hlo) in Hst.
  set (new := lo .| Z.shiftl (v .& 0x1F) 8) in *.
  set (k0 := (0, ENC28_CR_ERXRDPTH)) in *.
  assert (Hreg : forall k, reg c' k = reg (set_reg k0 v c) k) by now subst c'.
  assert (Hbank : chip_bank c' = chip_bank c).
  { apply chip_bank_eq. rewrite Hreg. now apply reg_set_ne. }
  exists c'. split; [split; [exact Hrep | rewrite Hbank, Hbk; apply Hs] |].
  split; [cbn; congruence |]. split; [| split; [now subst c' | split; [now subst c' |]]].
  - apply facts_know with c; [exact Hf | rewrite Hreg; apply reg_set_eq |].
    intros k' Hne. rewrite Hreg. apply reg_set_ne. congruence.
  - destruct HF as (F1 & F2 & F3 & F4 & F5 & F6 & F7). subst c'.
    split; [| repeat split; cbn; try congruence].
    + cbn. rewrite F1, F2. apply map_filter_ext. intros a x _. cbn.
      assert (Er : in_ring (set_reg k0 v c) a = in_ring c0 a).
      { rewrite <- (in_ring_kept c0 c a (Hring c Hf)). unfold in_ring, rx_start, rx_end, pointer.
        now rewrite !reg_set_ne by discriminate. }
      now rewrite Er.
    + intros Hi. change (tx_busy (set_reg k0 v c) = false).
      rewrite (tx_busy_eq c) by (apply reg_set_ne; discriminate). apply F7. exact Hi.
Qed.

(** Releasing one packet. *)
Lemma at_pktdec c0 K old :
  k_bank K = 0 -> assoc (k_regs K) (0, ENC28_CR_ECON2) = Some old ->
  triple (at_state K (same_rest c0))
    (enc28_do_set_bits_ctl_reg ctx ENC28_CR_ECON2 (bit ENC28_ECON2_PKTDEC))
    (fun st s => st = ENC28_OK /\
       at_state (know (0, ENC28_CR_ECON2)
                   ((old .| bit ENC28_ECON2_PKTDEC) .& Z.lnot (bit ENC28_ECON2_PKTDEC)) K)
         (same_rest (add_released c0)) s).
Proof.
  intros Hb0 Ho s (c & Hs & Hc).
  destruct (set_bits_ctl_reg_exact c s ENC28_CR_ECON2 (bit ENC28_ECON2_PKTDEC))
    as (c' & s' & E & Hst & Hrep & Hbk);
    [apply usable_reg_check; reflexivity | apply is_u8_check; reflexivity | exact Hs |].
  exists ENC28_OK, s'. split; [exact E |]. split; [reflexivity |].
  change (cur_key c ENC28_CR_ECON2) with (0, ENC28_CR_ECON2) in Hst.
  unfold chip_bfs in Hst. change (mac_mii_key (0, ENC28_CR_ECON2)) with false in Hst.
  cbv iota in Hst. unfold chip_store in Hst.
  rewrite decide_False in Hst by discriminate. rewrite decide_True in Hst by reflexivity.
  destruct Hc as (Hb & Hf & H1 & H2 & HF). rewrite (Hf _ _ Ho) in Hst.
  set (k0 := (0, ENC28_CR_ECON2)) in *. set (nv := _ .& Z.lnot _) in *.
  assert (Ht : Z.testbit (old .| bit ENC28_ECON2_PKTDEC) ENC28_ECON2_PKTDEC = true).
  { rewrite Z.lor_spec. apply orb_true_r. }
  rewrite Ht in Hst.
  assert (Hreg : forall k, reg c' k = reg (set_reg k0 nv c) k) by now subst c'.
  assert (Hbank : chip_bank c' = chip_bank c).
  { apply chip_bank_eq. rewrite Hreg. now apply reg_set_ne. }
  exists c'. split; [split; [exact Hrep | rewrite Hbank, Hbk; apply Hs] |].
  split; [cbn; congruence |]. split; [| split; [now subst c' | split; [now subst c' |]]].
  - apply facts_know with c; [exact Hf | rewrite Hreg; apply reg_set_eq |].
    intros k' Hne. rewrite Hreg. apply reg_set_ne. congruence.
  - destruct HF as (F1 & F2 & F3 & F4 & F5 & F6 & F7). subst c'.
    repeat split; try (cbn; congruence).
    intros Hi. change (tx_busy (set_reg k0 nv c) = false).
    rewrite (tx_busy_eq c) by (now apply reg_set_ne). apply F7. exact Hi.
Qed.

Lemma reading_view c0 p off K s :
  reading c0 p off K -> at_state K (same_rest c0) s ->
  exists c, is_chip c s /\ same_rest c0 c /\
            rx_view c0 (ring_iter (rx_start c0) (rx_end c0) off p) c.
Proof.
  intros HK (c & Hs & _ & Hf & _ & _ & HF). exists c. split; [exact Hs |]. split; [exact HF |].
  destruct (HK c Hf) as ((E1 & E2) & E3 & E4). repeat split; assumption.
Qed.

(** Known registers that fix the ring and the automatic increment. *)
Definition ring_facts (c0 : chip) (l : list ((Z * Z) * option Z)) : Prop :=
  assoc l (0, ENC28_CR_ERXSTL) = Some (reg c0 (0, ENC28_CR_ERXSTL)) /\
  assoc l (0, ENC28_CR_ERXSTH) = Some (reg c0 (0, ENC28_CR_ERXSTH)) /\
  assoc l (0, ENC28_CR_ERXNDL) = Some (reg c0 (0, ENC28_CR_ERXNDL)) /\
  assoc l (0, ENC28_CR_ERXNDH) = Some (reg c0 (0, ENC28_CR_ERXNDH)).

Lemma ring_facts_kept c0 l c : ring_facts c0 l -> facts l c -> ring_kept c0 c.
Proof.
  intros (A1 & A2 & A3 & A4) Hf.
  exact (facts_ring_kept _ _ _ Hf A1 A2 A3 A4).
Qed.

Lemma reading_pointer c0 p off K lo hi e :
  ring_facts c0 (k_regs K) ->
  assoc (k_regs K) (0, ENC28_CR_ECON2) = Some e -> Z.testbit e ENC28_ECON2_AUTOINC = true ->
  assoc (k_regs K) (0, ENC28_CR_ERDPTL) = Some lo ->
  assoc (k_regs K) (0, ENC28_CR_ERDPTH) = Some hi ->
  lo .| Z.shiftl (hi .& 0x1F) 8 = ring_iter (rx_start c0) (rx_end c0) off p ->
  reading c0 p off K.
Proof.
  intros HR Ae He Al Ah Ep c Hf. split; [exact (ring_facts_kept _ _ _ HR Hf) |].
  unfold autoinc, read_ptr, pointer. rewrite (Hf _ _ Ae), (Hf _ _ Al), (Hf _ _ Ah). auto.
Qed.

Lemma reading_after c0 p off K e :
  valid_ring c0 p -> ring_facts c0 (k_regs K) ->
  assoc (k_regs K) (0, ENC28_CR_ECON2) = Some e -> Z.testbit e ENC28_ECON2_AUTOINC = true ->
  reading c0 p off (after_read c0 p off K).
Proof.
  intros (V1 & V2 & V3) HR Ae He. eapply reading_pointer; [exact HR | exact Ae | exact He | reflexivity | reflexivity |].
  apply pointer_split'. pose proof (ring_iter_range _ _ off V1 V2 p V3). lia.
Qed.

(** The result of the packet branch for a frame, by what the frame and the caller's buffer are. *)
Definition pending_post (c0 : chip) (f : rx_frame) (buf : list Z) (size : Z)
  (vec : option ENC28_Receive_Status_Vector) (r : read_result) (c : chip) : Prop :=
  let vec := (fun _ => frame_vector f) <$> vec in
  let past_header := ring_iter (rx_start c0) (rx_end c0) 6 (read_ptr c0) in
  if negb (frame_ok f) then
    r = (ENC28_PACKET_RCV_ERR, Some buf, vec) /\ same_rest c0 c /\ rx_view c0 past_header c
  else if size <? frame_len f then
    r = (ENC28_BUFFER_TOO_SMALL, Some buf, vec) /\ same_rest c0 c /\ rx_view c0 past_header c
  else
    r = (ENC28_OK, Some (fr_data f ++ drop (length (fr_data f)) buf), vec) /\
    same_rest (add_released (release_to (release_ptr (fr_next f)) c0)) c /\
    rx_view c0 (fr_next f) c.

Lemma update_read_pointers_ok c0 f K hdr e :
  frame_wf f -> k_bank K = 0 -> ring_facts c0 (k_regs K) ->
  assoc (k_regs K) (0, ENC28_CR_ECON2) = Some e -> Z.testbit e ENC28_ECON2_AUTOINC = true ->
  hdr !!! 1%nat = fr_next f .& 0xFF -> hdr !!! 2%nat = Z.shiftr (fr_next f) 8 ->
  triple (at_state K (same_rest c0)) (update_read_pointers ctx hdr)
    (fun st s => st = ENC28_OK /\ exists K', k_bank K' = 0 /\
       assoc (k_regs K') (0, ENC28_CR_ECON2) = Some e /\ ring_facts c0 (k_regs K') /\
       assoc (k_regs K') (0, ENC28_CR_ERDPTL) = Some (fr_next f .& 0xFF) /\
       assoc (k_regs K') (0, ENC28_CR_ERDPTH) = Some (Z.shiftr (fr_next f) 8) /\
       at_state K' (same_rest (release_to (release_ptr (fr_next f)) c0)) s).
Proof.
  intros [Hn _] Hb0 HR Ae He E1 E2. unfold update_read_pointers. rewrite E1, E2.
  unfold ENC28_CONF_RX_ADDRESS_START, ENC28_CONF_RX_ADDRESS_END in Hn.
  set (n := fr_next f) in *.
  assert (Hn16 : is_u16 n) by (unfold is_u16; lia).
  assert (En : u16 (Z.shiftl (Z.shiftr n 8 .& 0x1F) 8 .| (n .& 0xFF)) = n).
  { rewrite Z.lor_comm, pointer_split' by lia. now apply u16_small. }
  rewrite En.
  assert (Er : (if (ENC28_CONF_RX_ADDRESS_END <? n - 1) || (n - 1 <? ENC28_CONF_RX_ADDRESS_START)
                then ENC28_CONF_RX_ADDRESS_END else u16 (n - 1)) = release_ptr n).
  { unfold release_ptr. destruct (_ || _); [reflexivity |]. apply u16_small. unfold is_u16; lia. }
  cbv zeta. rewrite Er.
  pose proof (release_ptr_range n ltac:(lia)) as Hrp.
  unfold ENC28_CONF_RX_ADDRESS_START, ENC28_CONF_RX_ADDRESS_END in Hrp.
  set (rp := release_ptr n) in *.
  assert (Ekey : forall r, reg_key (k_bank K) r = (0, r)).
  { intros r. rewrite Hb0. unfold reg_key. now destruct (_ <=? _). }
  eapply triple_exit; [eapply at_write; try apply Ekey; try drive_side; apply land_ff_u8 |].
  eapply triple_exit; [eapply at_write; try apply Ekey; try drive_side; now apply shiftr8_u8 |].
  eapply triple_exit; [eapply at_write; try apply Ekey; try drive_side; apply land_ff_u8 |].
  eapply triple_exit.
  { eapply (at_release c0); [apply land_1f_u8 | exact Hb0 | reflexivity |].
    intros c Hf. eapply (ring_facts_kept c0); [| exact Hf]. exact HR. }
  cbv beta. rewrite pointer_split by lia.
  apply triple_ret. intros s Hs. split; [reflexivity |]. eexists.
  split; [| split; [| split; [| split; [| split; [| exact Hs]]]]];
    [exact Hb0 | exact Ae | exact HR | reflexivity | reflexivity].
Qed.

Lemma frame_len_u16 f : frame_wf f ->
  u16 (Z.shiftl (Z.shiftr (frame_len f) 8) 8 .| (frame_len f .& 0xFF)) = frame_len f.
Proof.
  intros [_ H]. assert (Hu : is_u16 (frame_len f)) by (unfold is_u16, frame_len in *; lia).
  rewrite u16_hi_lo by exact Hu. now apply u16_small.
Qed.

Lemma rx_ready_ring c : rx_ready c -> valid_ring c (read_ptr c).
Proof.
  intros (E1 & E2 & _ & H). unfold valid_ring.
  unfold ENC28_CONF_RX_ADDRESS_START, ENC28_CONF_RX_ADDRESS_END in *. lia.
Qed.

(** A read of the pending packet: status and packet, or the two ways of refusing it. *)
Lemma read_pending_ok c0 f buf size vec val :
  rx_ready c0 -> frame_wf f -> frame_at c0 (read_ptr c0) f ->
  size <= Z.of_nat (length buf) ->
  triple (at_state (rx_known c0) (same_rest c0))
    (read_pending_packet ctx (Some buf) size vec val)
    (fun r s => exists c, is_chip c s /\ pending_post c0 f buf size vec r c).
Proof.
  intros Hrdy Hwf Hfr Hsize. unfold read_pending_packet.
  pose proof (rx_ready_ring _ Hrdy) as HV. destruct Hrdy as (Er1 & Er2 & Ea & Hp).
  assert (HR : ring_facts c0 (k_regs (rx_known c0))) by (repeat split; reflexivity).
  drive.
  eapply triple_bind; [eapply at_read_stable; drive_side |].
  intros [st1 v1]. apply triple_pure. intros [= -> ->].
  eapply triple_bind; [eapply at_read_stable; drive_side |].
  intros [st2 v2]. apply triple_pure. intros [= -> ->]. cbv zeta.
  assert (Ep : u16 (reg c0 (0, ENC28_CR_ERDPTL) .|
                    Z.shiftl (reg c0 (0, ENC28_CR_ERDPTH) .& 0x1F) 8) = read_ptr c0).
  { apply u16_small. change (is_u16 (read_ptr c0)).
    unfold is_u16, ENC28_CONF_RX_ADDRESS_START, ENC28_CONF_RX_ADDRESS_END in *. lia. }
  rewrite Ep.
  assert (Erange : (read_ptr c0 <? ENC28_CONF_RX_ADDRESS_START)
                   || (ENC28_CONF_RX_ADDRESS_END <? read_ptr c0) = false).
  { apply orb_false_iff. rewrite !Z.ltb_ge. lia. }
  rewrite Erange.
  set (K0 := in_bank 0 (forget econ1_key (rx_known c0))).
  assert (HK0 : reading c0 (read_ptr c0) 0 K0).
  { eapply reading_pointer; [exact HR | reflexivity | exact Ea | reflexivity | reflexivity |].
    reflexivity. }
  eapply triple_frame.
  { eapply (at_rbm_in_out c0 K0 (read_ptr c0) 0 (frame_bytes f)); [exact HV | exact HK0 | reflexivity
      | exact Hfr | cbn; lia | reflexivity]. }
  intros hdr. apply triple_pure. intros [dm ->].
  change (take (length [0; 0; 0; 0; 0; 0]) (drop 0 (frame_bytes f)))
    with (take 6 (frame_bytes f)).
  cbn [take frame_bytes app]. cbv beta zeta. cbn [length Nat.add].
  set (hdr := dm :: _). set (K1 := after_read c0 (read_ptr c0) 6 K0).
  change (hdr !!! 5%nat) with (fr_status_lo f). change (hdr !!! 6%nat) with (fr_status_hi f).
  change (hdr !!! 3%nat) with (frame_len f .& 0xFF).
  change (hdr !!! 4%nat) with (Z.shiftr (frame_len f) 8).
  fold (frame_vector f). cbn [status_bits_lo packet_len_hi packet_len_lo frame_vector].
  fold (frame_ok f). rewrite (frame_len_u16 f Hwf). unfold pending_post.
  assert (HK1 : reading c0 (read_ptr c0) 6 K1).
  { eapply reading_after; [exact HV | exact HR | reflexivity | exact Ea]. }
  destruct (frame_ok f); cbn [negb].
  2: { apply triple_ret. intros s Hs. destruct (reading_view _ _ _ _ _ HK1 Hs) as (c & H1 & H2 & H3).
       exists c. auto. }
  destruct (Z.ltb_spec size (frame_len f)).
  { apply triple_ret. intros s Hs. destruct (reading_view _ _ _ _ _ HK1 Hs) as (c & H1 & H2 & H3).
    exists c. auto. }
  unfold spi_in_prefix. destruct (Z.ltb_spec (Z.of_nat (length buf)) (frame_len f)); [lia |].
  unfold frame_len at 1 2. rewrite Nat2Z.id.
  assert (El : length (take (length (fr_data f)) buf) = length (fr_data f)).
  { rewrite length_take. unfold frame_len in *. lia. }
  eapply (triple_frame4 _ _ _ _ _
            (fun got => Some (got ++ drop (length (fr_data f)) buf))).
  { eapply (at_rbm_in c0 K1 (read_ptr c0) 6 (frame_bytes f)); [exact HV | exact HK1 | reflexivity
      | exact Hfr |]. rewrite El. cbn. lia. }
  intros got. apply triple_pure. intros ->. rewrite El.
  change (drop 6 (frame_bytes f)) with (fr_data f). rewrite firstn_all.
  set (K2 := after_read c0 (read_ptr c0) _ K1).
  eapply triple_bind.
  { eapply (update_read_pointers_ok c0 f K2 hdr); try reflexivity; [exact Hwf | exact HR | exact Ea]. }
  intros st. apply triple_pure. intros ->. cbn [exit_if_err is_ok].
  apply triple_exists. intros K3.
  intros s (Hb3 & Ae3 & HR3 & Al3 & Ah3 & Hs).
  destruct (at_pktdec (release_to (release_ptr (fr_next f)) c0) K3 _ Hb3 Ae3 s Hs)
    as (st & s' & E & -> & Hs').
  eexists _, s'. split; [eapply runs_bind; [exact E | reflexivity] |].
  destruct Hs' as (c & Hc & _ & Hf & _ & _ & HF). exists c. split; [exact Hc |].
  split; [reflexivity |]. split; [exact HF |].
  assert (HK4 : reading c0 (fr_next f) 0 (know (0, ENC28_CR_ECON2)
                   ((reg c0 (0, ENC28_CR_ECON2) .| bit ENC28_ECON2_PKTDEC)
                    .& Z.lnot (bit ENC28_ECON2_PKTDEC)) K3)).
  { eapply reading_pointer; [exact HR3 | reflexivity | | exact Al3 | exact Ah3 |].
    - unfold autoinc in Ea. rewrite Z.land_spec, Z.lor_spec, Ea. reflexivity.
    - apply (pointer_split' (fr_next f)). destruct Hwf as [Hn _].
      unfold ENC28_CONF_RX_ADDRESS_START, ENC28_CONF_RX_ADDRESS_END in Hn. lia. }
  destruct (HK4 c Hf) as ((E1 & E2) & E3 & E4). repeat split; assumption.
Qed.

(** The branch that recovers from a receive error: the whole ring up to its end is released. *)
Lemma recover_ok c0 :
  autoinc c0 = true ->
  triple (at_state (rx_known c0) (same_rest c0)) (recover_receive_error ctx)
    (fun st s => st = ENC28_PACKET_RCV_ERR /\ exists c, is_chip c s /\
       same_rest (release_to ENC28_CONF_RX_ADDRESS_END c0) c /\ rx_view c0 (read_ptr c0) c).
Proof.
  intros Ea. unfold recover_receive_error.
  drive. drive.
  eapply triple_exit.
  { eapply (at_release c0); [apply land_1f_u8 | reflexivity | reflexivity |].
    intros c Hf. eapply (ring_facts_kept c0); [| exact Hf]. repeat split; reflexivity. }
  change (release_to (_ .| _) c0) with (release_to ENC28_CONF_RX_ADDRESS_END c0).
  drive. apply triple_ret. intros s (c & Hs & _ & Hf & _ & _ & HF). split; [reflexivity |].
  exists c. split; [exact Hs |]. split; [exact HF |].
  match type of Hf with facts ?l c =>
    assert (HK : reading c0 (read_ptr c0) 0 (mk_known 0 l 0 0)) end.
  { eapply reading_pointer; [repeat split; reflexivity | reflexivity | exact Ea | reflexivity
      | reflexivity | reflexivity]. }
  destruct (HK c Hf) as ((E1 & E2) & E3 & E4). repeat split; assumption.
Qed.

(** Everything the receive path looks at but EIR. *)
Definition eir_only (c c1 : chip) : Prop :=
  same_rest c c1 /\ forall k, k <> (0, ENC28_CR_EIR) -> reg c1 k = reg c k.

Lemma chip_read_eir c v c1 : chip_read c (0, ENC28_CR_EIR) v c1 -> eir_only c c1.
Proof.
  intros H. pose proof (chip_read_effect _ _ _ _ H) as (H1 & _ & _ & _ & H2 & _).
  split; [exact H1 |]. intros k Hk. apply H2; [exact Hk | discriminate].
Qed.

Lemma eir_only_view c c1 : eir_only c c1 ->
  rx_start c1 = rx_start c /\ rx_end c1 = rx_end c /\ autoinc c1 = autoinc c /\
  read_ptr c1 = read_ptr c /\ buffer c1 = buffer c.
Proof.
  intros [H1 H2]. unfold rx_start, rx_end, autoinc, read_ptr, pointer.
  rewrite !H2 by discriminate. repeat split. apply H1.
Qed.
End Frames.

(** The byte the device answers with when EIR is read next. *)
Definition eir_now {W} (d : spi_callbacks W) (w : W) : list Z :=
  fst (dev_in d [0] (dev_out d [ENC28_CR_EIR] (dev_nss d 0 w))).

(** The state holds the chip [c], and EIR reads as [v]. *)
Definition shows_eir {W} (d : spi_callbacks W) `{!Enc28Device d} (v : Z) (c : chip) (s : drv W) : Prop :=
  is_chip (d := d) c s /\ eir_now d (world s) = [v].

(** The value the driver gets is the byte on the wire. *)
Lemma read_eir_value {W} (d : spi_callbacks W) (s s' : drv W) u v :
  runs (byref (enc28_do_read_ctl_reg (Some (context_of d)) ENC28_CR_EIR) 0) s (ENC28_OK, v) s' ->
  eir_now d (world s) = [u] -> v = u.
Proof.
  destruct s as [b w]. unfold eir_now, runs, byref, enc28_do_read_ctl_reg, enc28_prepare_read_ctl_reg.
  unfold ENC28_CR_EIR. cbn -[Z.land u8 is_mac_or_mii_reg_in].
  change (u8 (Z.shiftl ENC28_OP_RCR ENC28_SPI_ARG_BITS .| (0x1C .& ENC28_SPI_ARG_MASK))) with 0x1C.
  unfold priv_enc28_is_mac_or_mii_reg, bind, get, ret. cbn -[is_mac_or_mii_reg_in].
  assert (Em : is_mac_or_mii_reg_in b 0x1C = false) by (unfold is_mac_or_mii_reg_in; now repeat case_match).
  rewrite Em. unfold call_nss_pin_op, call_spi_out_op, call_spi_in_op, on_world, on_world_r, modify, ret. cbn.
  destruct (dev_in d [0] _) as [l w']. cbn. intros E ->. cbn in E. now injection E.
Qed.

(** What [enc28_read_packet] does with a packet buffer of [size] bytes when the frame [f] is at the
    read pointer, given the value [v] EIR reads as. *)
Definition read_packet_post (c1 : chip) (f : rx_frame) (buf : list Z) (size : Z)
  (vec : option ENC28_Receive_Status_Vector) (v : Z) (r : read_result) (c : chip) : Prop :=
  if Z.testbit v ENC28_EIR_PKTIF then pending_post c1 f buf size vec r c
  else if Z.testbit v ENC28_EIR_RXERIF then
    r = (ENC28_PACKET_RCV_ERR, Some buf, vec) /\
    same_rest (release_to ENC28_CONF_RX_ADDRESS_END c1) c /\ rx_view c1 (read_ptr c1) c
  else r = (ENC28_NO_DATA, Some buf, vec) /\ same_rest c1 c /\ rx_view c1 (read_ptr c1) c.

Lemma enc28_read_packet_spec {W} {d : spi_callbacks W} `{HD : !Enc28Device d} c f buf size vec v :
  rx_ready c -> ((released c < arrived c)%nat -> frame_wf f /\ frame_at c (read_ptr c) f) ->
  size <= Z.of_nat (length buf) ->
  triple (shows_eir d v c) (enc28_read_packet (Some (context_of d)) (Some buf) size vec)
    (fun r s => exists c1 c', is_chip c' s /\ chip_read c (0, ENC28_CR_EIR) v c1 /\
       read_packet_post c1 f buf size vec v r c').
Proof.
  intros Hrdy Hframe Hsize s [Hs Hv]. unfold enc28_read_packet.
  destruct (read_common c s ENC28_CR_EIR 0) as (v' & c1 & s1 & E1 & Hrd & Hs1);
    [unfold ENC28_CR_EIR; lia | exact Hs |].
  assert (v' = v) as -> by exact (read_eir_value d _ _ _ _ E1 Hv).
  destruct (eir_only_view c c1 (chip_read_eir _ _ _ Hrd)) as (V1 & V2 & V3 & V4 & V5).
  rewrite (bind_done _ _ _ _ _ E1). cbn [exit_if_err is_ok]. unfold read_packet_post.
  assert (Hat : at_state (rx_known c1) (same_rest c1) s1).
  { exists c1. split; [exact Hs1 | apply at_rx_known]. }
  assert (Hrdy1 : rx_ready c1).
  { unfold rx_ready in *. now rewrite V1, V2, V3, V4. }
  rewrite !truth_bit by (vm_compute; discriminate).
  destruct (Z.testbit v ENC28_EIR_PKTIF) eqn:Ep; [| destruct (Z.testbit v ENC28_EIR_RXERIF) eqn:Er].
  - destruct Hframe as [Hwf Hfr]; [apply Hrd; auto |].
    destruct (read_pending_ok c1 f buf size vec v Hrdy1 Hwf) with (s := s1)
      as (r & s' & E & c' & Hs' & HP); [| exact Hsize | exact Hat |].
    { intros i x Hi. rewrite V1, V2, V4, V5. now apply Hfr. }
    exists r, s'. split; [exact E |]. exists c1, c'. auto.
  - destruct (recover_ok c1) with (s := s1) as (st & s' & E & -> & c' & Hs' & HP);
      [now rewrite V3; apply Hrdy | exact Hat |].
    eexists _, s'. split; [eapply runs_bind; [exact E | reflexivity] |].
    exists c1, c'. auto.
  - eexists _, s1. split; [reflexivity |]. exists c1, c1.
    split; [exact Hs1 |]. split; [exact Hrd |]. split; [reflexivity |].
    split; [apply same_rest_refl |]. unfold rx_view. rewrite V3. repeat split. apply Hrdy.
Qed.

(** EIR always reads as some byte. *)
Lemma shows_some_eir {W} {d : spi_callbacks W} `{HD : !Enc28Device d} c s : is_chip c s -> exists v, shows_eir d v c s.
Proof.
  intros Hs. destruct (rcr_ok (world s) c ENC28_CR_EIR 0) as (v & w' & c' & E & _ & _);
    [apply Hs | unfold ENC28_CR_EIR; lia | reflexivity |].
  exists v. split; [exact Hs |]. unfold eir_now. now rewrite E.
Qed.

(** * The frames waiting in the ring *)

Section Queue.
#[local] Abbreviation st := ENC28_CONF_RX_ADDRESS_START.
#[local] Abbreviation nd := ENC28_CONF_RX_ADDRESS_END.

Definition ring_size : Z := nd - st + 1.

(** How far [b] is ahead of [a] in the ring. *)
Definition ring_dist (a b : Z) : Z := if a <=? b then b - a else b - a + ring_size.

(** The frames [fs] lie one after another from [p], within [room] bytes of the ring. *)
Fixpoint rx_queue (c : chip) (p room : Z) (fs : list rx_frame) : Prop :=
  match fs with
  | [] => True
  | f :: fs' =>
    frame_wf f /\ frame_at c p f /\
    6 + frame_len f <= ring_dist p (fr_next f) <= room /\
    rx_queue c (fr_next f) (room - ring_dist p (fr_next f)) fs'
  end.

(** Everything before the read pointer has been released to the hardware. *)
Definition rx_settled (c : chip) : Prop :=
  rx_released c = read_ptr c \/ rx_released c = release_ptr (read_ptr c).

Lemma ring_iter_linear n : forall p, st <= p <= nd -> Z.of_nat n < ring_size ->
  ring_iter st nd n p = if p + Z.of_nat n <=? nd then p + Z.of_nat n
                        else p + Z.of_nat n - ring_size.
Proof.
  unfold ring_size, st, nd. induction n as [| n IH]; intros p Hp Hn.
  { cbn. rewrite Z.add_0_r. destruct (Z.leb_spec p 7935); lia. }
  cbn [ring_iter]. unfold ring_next at 1. destruct (Z.eqb_spec p 7935) as [-> | Hne].
  - rewrite IH by lia. repeat case_match; rewrite ?Z.leb_le, ?Z.leb_gt in *; lia.
  - rewrite (Z.mod_small (p + 1)) by lia. rewrite IH by lia.
    repeat case_match; rewrite ?Z.leb_le, ?Z.leb_gt in *; lia.
Qed.

Lemma ring_iter_dist p n : st <= p <= nd -> st <= n <= nd ->
  ring_iter st nd (Z.to_nat (ring_dist p n)) p = n.
Proof.
  intros Hp Hn. assert (Hd : 0 <= ring_dist p n < ring_size).
  { unfold ring_dist, ring_size, st, nd in *. destruct (Z.leb_spec p n); lia. }
  rewrite ring_iter_linear by (try exact Hp; lia). rewrite Z2Nat.id by lia.
  unfold ring_dist, ring_size, st, nd in *.
  repeat case_match; rewrite ?Z.leb_le, ?Z.leb_gt in *; lia.
Qed.

(** Releasing up to [n] frees nothing from [n] on. *)
Lemma not_freed p n old d a :
  st <= p <= nd -> st <= n <= nd -> 6 <= ring_dist p n ->
  (old = p \/ old = release_ptr p) -> ring_dist p n <= Z.of_nat d < ring_size ->
  a = ring_iter st nd d p -> freed old (release_ptr n) a = false.
Proof.
  intros Hp Hn H6 Hold Hd ->. rewrite ring_iter_linear by (try exact Hp; lia).
  unfold freed, release_ptr, ring_dist, ring_size, st, nd in *.
  destruct Hold as [-> | ->];
    repeat (case_match; rewrite ?orb_true_iff, ?orb_false_iff, ?andb_false_iff, ?Z.leb_le,
                          ?Z.leb_gt, ?Z.ltb_lt, ?Z.ltb_ge in *); lia.
Qed.

Lemma rx_queue_kept c c' p sz : forall fs q e room,
  rx_start c = st -> rx_end c = nd -> rx_start c' = st -> rx_end c' = nd ->
  st <= p <= nd -> 0 <= sz -> q = ring_iter st nd e p -> st <= q <= nd ->
  sz <= Z.of_nat e -> Z.of_nat e + room <= ring_size ->
  (forall i, sz <= Z.of_nat i < ring_size ->
     buffer c' !! ring_iter st nd i p = buffer c !! ring_iter st nd i p) ->
  rx_queue c q room fs -> rx_queue c' q room fs.
Proof.
  induction fs as [| f fs IH]; intros q e room R1 R2 R3 R4 Hp H0 Hq Hqr Hsz Hroom Hk; [auto |].
  cbn [rx_queue]. intros (Hwf & Hfr & Hd & Hfs). split; [exact Hwf |].
  split; [| split; [exact Hd |]].
  - intros i x Hi. rewrite R3, R4. specialize (Hfr i x Hi). rewrite R1, R2 in Hfr.
    rewrite <- Hfr, Hq, <- ring_iter_add. apply Hk.
    apply lookup_lt_Some in Hi. unfold frame_bytes in Hi. rewrite length_app in Hi.
    cbn [length] in Hi. unfold frame_len in Hd. lia.
  - apply IH with (e := (e + Z.to_nat (ring_dist q (fr_next f)))%nat); try assumption.
    + rewrite ring_iter_add, <- Hq. symmetry. apply ring_iter_dist; [exact Hqr | apply Hwf].
    + apply Hwf.
    + lia.
    + unfold frame_len in Hd. lia.
Qed.

Lemma release_keeps_queue c c' f fs :
  rx_ready c -> rx_settled c -> rx_queue c (read_ptr c) ring_size (f :: fs) ->
  same_rest (add_released (release_to (release_ptr (fr_next f)) c)) c' ->
  rx_view c (fr_next f) c' ->
  rx_ready c' /\ rx_settled c' /\ rx_queue c' (read_ptr c') ring_size fs.
Proof.
  intros (R1 & R2 & R3 & R4) Hset (Hwf & Hfr & Hd & Hfs) (Eb & Er & _) (V1 & V2 & V3 & V4).
  split; [| split].
  - unfold rx_ready. rewrite V1, V2, V4. repeat split; try assumption; apply Hwf.
  - right. rewrite V4, Er. reflexivity.
  - rewrite V4.
    assert (Hk : rx_queue c' (fr_next f) (ring_size - ring_dist (read_ptr c) (fr_next f)) fs).
    { eapply (rx_queue_kept c c' (read_ptr c) (ring_dist (read_ptr c) (fr_next f)))
        with (e := Z.to_nat (ring_dist (read_ptr c) (fr_next f))); try eassumption; try congruence.
      - unfold frame_len in Hd. lia.
      - symmetry. apply ring_iter_dist; [exact R4 | apply Hwf].
      - apply Hwf.
      - unfold frame_len in Hd. lia.
      - unfold frame_len in Hd. lia.
      - intros i Hi. rewrite Eb. cbn. apply option_eq. intros x. rewrite map_lookup_filter_Some. cbn.
        rewrite (not_freed (read_ptr c) (fr_next f) (rx_released c) i); try assumption;
          [| apply Hwf | unfold frame_len in Hd; lia | reflexivity].
        rewrite andb_false_r. intuition discriminate. }
    clear - Hk Hd. assert (Hmono : forall fs p r r', r <= r' -> rx_queue c' p r fs -> rx_queue c' p r' fs).
    { clear. induction fs as [| g fs IH]; intros p r r' Hr; [auto |]. cbn [rx_queue].
      intros (H1 & H2 & H3 & H4). repeat split; try assumption; try apply H1; try lia.
      eapply IH; [| exact H4]. lia. }
    eapply Hmono; [| exact Hk]. unfold frame_len in Hd. lia.
Qed.
End Queue.

(** * Receiving *)

(** What becomes of a call, by the value [v] EIR reads as, when the frames [f :: fs] wait. *)
Definition read_outcome (c : chip) (f : rx_frame) (fs : list rx_frame) (buf : list Z)
  (vec : option ENC28_Receive_Status_Vector) (v : Z) (r : read_result) (c' : chip) : Prop :=
  if Z.testbit v ENC28_EIR_PKTIF then
    r = (ENC28_OK, Some (fr_data f ++ drop (length (fr_data f)) buf), (fun _ => frame_vector f) <$> vec) /\
    released c' = S (released c) /\
    rx_ready c' /\ rx_settled c' /\ rx_queue c' (read_ptr c') ring_size fs
  else if Z.testbit v ENC28_EIR_RXERIF then
    r = (ENC28_PACKET_RCV_ERR, Some buf, vec) /\ released c' = released c /\
    rx_released c' = ENC28_CONF_RX_ADDRESS_END /\ rx_view c (read_ptr c) c'
  else
    r = (ENC28_NO_DATA, Some buf, vec) /\ released c' = released c /\ buffer c' = buffer c /\
    rx_view c (read_ptr c) c' /\ rx_released c' = rx_released c.

Lemma read_packet_next {W} {d : spi_callbacks W} `{HD : !Enc28Device d}
  (c : chip) (f : rx_frame) (fs : list rx_frame) (buf : list Z) (size : Z)
  (vec : option ENC28_Receive_Status_Vector) (v : Z) :
  rx_ready c -> rx_settled c -> rx_queue c (read_ptr c) ring_size (f :: fs) ->
  frame_ok f = true -> frame_len f <= size <= Z.of_nat (length buf) ->
  triple (shows_eir d v c) (enc28_read_packet (Some (context_of d)) (Some buf) size vec)
    (fun r s => exists c', is_chip c' s /\ sent c' = sent c /\ arrived c' = arrived c /\
       read_outcome c f fs buf vec v r c').
Proof.
  intros Hrdy Hset Hq Hok Hlen s Hs.
  destruct (enc28_read_packet_spec c f buf size vec v Hrdy) with (s := s)
    as (r & s' & E & c1 & c' & Hs' & Hrd & HP); [intros _; split; apply Hq | apply Hlen | exact Hs |].
  exists r, s'. split; [exact E |]. exists c'. split; [exact Hs' |].
  pose proof (chip_read_eir _ _ _ Hrd) as He.
  destruct (eir_only_view _ _ He) as (V1 & V2 & V3 & V4 & V5).
  destruct He as [(_ & S2 & _ & S4 & S5 & S6 & _) _].
  unfold read_packet_post, pending_post, rx_view, read_outcome in *. rewrite Hok in HP.
  destruct (Z.ltb_spec size (frame_len f)); [lia |]. cbn [negb] in HP. rewrite V1, V2, V4 in HP.
  destruct (Z.testbit v ENC28_EIR_PKTIF); [| destruct (Z.testbit v ENC28_EIR_RXERIF)];
    destruct HP as (-> & HR & HV).
  - assert (Esent : sent c' = sent c /\ arrived c' = arrived c)
      by (destruct HR as (_ & _ & _ & -> & _ & -> & _); split; assumption).
    split; [apply Esent |]. split; [apply Esent |]. split; [reflexivity |]. split.
    + destruct HR as (_ & _ & _ & _ & -> & _). cbn. now rewrite S5.
    + destruct (release_keeps_queue c1 c' f fs) as (A1 & A2 & A3); try assumption.
      * unfold rx_ready. rewrite V1, V2, V3, V4. exact Hrdy.
      * unfold rx_settled. now rewrite S2, V4.
      * rewrite V4. unfold rx_ready in Hrdy.
        destruct Hrdy as (R1 & R2 & _ & R4).
        assert (R1' : rx_start c1 = ENC28_CONF_RX_ADDRESS_START) by congruence.
        assert (R2' : rx_end c1 = ENC28_CONF_RX_ADDRESS_END) by congruence.
        refine (rx_queue_kept c c1 (read_ptr c) 0 _ _ 0 _ R1 R2 R1' R2' R4 _ eq_refl R4 _ _ _ Hq);
          [lia | lia | lia |]. intros i _. now rewrite V5.
      * unfold rx_view. now rewrite V1, V2.
      * auto.
  - destruct HR as (_ & H2 & _ & H4 & H5 & H6 & _). split; [now rewrite H4 |].
    split; [now rewrite H6 |].
    split; [reflexivity |]. split; [now rewrite H5 |]. split; [now rewrite H2 | exact HV].
  - destruct HR as (H1 & H2 & _ & H4 & H5 & H6 & _). split; [now rewrite H4 |].
    split; [now rewrite H6 |].
    split; [reflexivity |]. split; [now rewrite H5 |]. split; [now rewrite H1 |].
    split; [exact HV | now rewrite H2].
Qed.

(** C5: On a conforming device with the frames [f :: fs] waiting in the receive ring from the read
    pointer on, [f] received without error and no longer than the caller's buffer, and on which EIR
    reads as [v], [enc28_read_packet] returns, and [v] alone decides what it does. With the packet flag
    set in [v] it reports ENC28_OK, the buffer starts with exactly the packet and keeps its old
    contents after it, the status vector describes it, exactly one packet is released, and the
    remaining frames [fs] wait intact at the new read pointer in a receiver ready for the next call.
    With the packet flag clear and the receive error flag set it reports ENC28_PACKET_RCV_ERR and
    releases the ring up to its end. With both flags clear it reports ENC28_NO_DATA and leaves packets
    and memory alone. Nothing is sent in any case. *)
Theorem enc28_read_packet_delivers {W} {d : spi_callbacks W} `{HD : !Enc28Device d}
  (c : chip) (f : rx_frame) (fs : list rx_frame) (buf : list Z) (size : Z)
  (vec : option ENC28_Receive_Status_Vector) (v : Z) :
  rx_ready c -> rx_settled c -> rx_queue c (read_ptr c) ring_size (f :: fs) ->
  frame_ok f = true -> frame_len f <= size <= Z.of_nat (length buf) ->
  triple (shows_eir d v c) (enc28_read_packet (Some (context_of d)) (Some buf) size vec)
    (fun r s => exists c', is_chip c' s /\ sent c' = sent c /\
       if Z.testbit v ENC28_EIR_PKTIF then
         r = (ENC28_OK, Some (fr_data f ++ drop (length (fr_data f)) buf),
              (fun _ => frame_vector f) <$> vec) /\
         released c' = S (released c) /\
         rx_ready c' /\ rx_settled c' /\ rx_queue c' (read_ptr c') ring_size fs
       else if Z.testbit v ENC28_EIR_RXERIF then
         r = (ENC28_PACKET_RCV_ERR, Some buf, vec) /\ released c' = released c /\
         rx_released c' = ENC28_CONF_RX_ADDRESS_END /\ rx_view c (read_ptr c) c'
       else
         r = (ENC28_NO_DATA, Some buf, vec) /\ released c' = released c /\ buffer c' = buffer c /\
         rx_view c (read_ptr c) c' /\ rx_released c' = rx_released c).
Proof.
  intros H1 H2 H3 H4 H5. eapply triple_conseq; [apply (read_packet_next c f fs buf size vec v); assumption | auto |].
  intros r s (c' & A & B & _ & C). exists c'. auto.
Qed.

(** Nothing has changed for the receiver. *)
Lemma rx_same_view c c' : rx_ready c -> rx_view c (read_ptr c) c' -> buffer c' = buffer c ->
  rx_released c' = rx_released c ->
  rx_ready c' /\ (rx_settled c -> rx_settled c') /\
  (forall fs, rx_queue c (read_ptr c) ring_size fs -> rx_queue c' (read_ptr c') ring_size fs).
Proof.
  intros (R1 & R2 & R3 & R4) (V1 & V2 & V3 & V4) Eb Er.
  split; [unfold rx_ready; rewrite V1, V2, V4; auto |].
  split; [unfold rx_settled; now rewrite Er, V4 |]. intros fs Hq. rewrite V4.
  rewrite R1 in V1. rewrite R2 in V2.
  refine (rx_queue_kept c c' (read_ptr c) 0 _ _ 0 _ R1 R2 V1 V2 R4 _ eq_refl R4 _ _ _ Hq); [lia.. |].
  intros i _. now rewrite Eb.
Qed.

(** One call in a system where all packets the hardware counts are well formed frames in the ring. *)
Lemma receive_step {W} {d : spi_callbacks W} `{HD : !Enc28Device d}
  (c : chip) (fs : list rx_frame) (buf : list Z) (size : Z) (vec : ENC28_Receive_Status_Vector) (v : Z) :
  rx_ready c -> rx_settled c -> rx_queue c (read_ptr c) ring_size fs ->
  arrived c = (released c + length fs)%nat ->
  Forall (fun f => frame_ok f = true /\ frame_len f <= size) fs -> size <= Z.of_nat (length buf) ->
  triple (shows_eir d v c) (enc28_read_packet (Some (context_of d)) (Some buf) size (Some vec))
    (fun r s => exists c', is_chip c' s /\ sent c' = sent c /\ arrived c' = arrived c /\
       (r = (ENC28_PACKET_RCV_ERR, Some buf, Some vec) /\
          Z.testbit v ENC28_EIR_PKTIF = false /\ Z.testbit v ENC28_EIR_RXERIF = true \/
        exists fs', rx_ready c' /\ rx_settled c' /\ rx_queue c' (read_ptr c') ring_size fs' /\
          arrived c' = (released c' + length fs')%nat /\
          (r = (ENC28_NO_DATA, Some buf, Some vec) /\ fs' = fs /\
             Z.testbit v ENC28_EIR_PKTIF = false /\ Z.testbit v ENC28_EIR_RXERIF = false \/
           exists f, fs = f :: fs' /\ Z.testbit v ENC28_EIR_PKTIF = true /\
             r = (ENC28_OK, Some (fr_data f ++ drop (length (fr_data f)) buf), Some (frame_vector f))))).
Proof.
  intros Hrdy Hset Hq Hcount Hok Hsize s Hs. destruct fs as [| f fs].
  - destruct (enc28_read_packet_spec c (mk_rx_frame 0 0 0 []) buf size (Some vec) v Hrdy) with (s := s)
      as (r & s' & E & c1 & c' & Hs' & Hrd & HP); [cbn in Hcount; lia | exact Hsize | exact Hs |].
    exists r, s'. split; [exact E |]. exists c'. split; [exact Hs' |].
    pose proof (chip_read_eir _ _ _ Hrd) as He.
    destruct (eir_only_view _ _ He) as (V1 & V2 & V3 & V4 & V5). destruct He as [(_ & S2 & _ & S4 & S5 & S6 & _) _].
    assert (Hv : Z.testbit v ENC28_EIR_PKTIF = false).
    { destruct (Z.testbit v ENC28_EIR_PKTIF) eqn:Ev; [| reflexivity].
      destruct Hrd as (_ & _ & _ & _ & _ & Hp & _). specialize (Hp eq_refl Ev). cbn in Hcount. lia. }
    unfold read_packet_post in HP. rewrite Hv in HP.
    destruct (Z.testbit v ENC28_EIR_RXERIF) eqn:Hx; destruct HP as (-> & (H1 & H2 & _ & H4 & H5 & H6 & _) & HV);
      cbn in H4, H6; (split; [congruence | split; [congruence |]]); [left; auto | right].
    unfold rx_view in HV. rewrite V1, V2, V4 in HV.
    destruct (rx_same_view c c' Hrdy HV) as (A1 & A2 & A3); [congruence.. |].
    exists []. split; [exact A1 |]. split; [auto |]. split; [exact I |].
    split; [congruence | left; auto].
  - apply Forall_cons in Hok as [[Ho Hl] Hok].
    destruct (read_packet_next c f fs buf size (Some vec) v Hrdy Hset Hq Ho (conj Hl Hsize) s Hs)
      as (r & s' & E & c' & Hs' & Es & Ea & HP).
    exists r, s'. split; [exact E |]. exists c'. split; [exact Hs' |]. split; [exact Es |]. split; [exact Ea |].
    unfold read_outcome in HP.
    destruct (Z.testbit v ENC28_EIR_PKTIF); [| destruct (Z.testbit v ENC28_EIR_RXERIF)]; [right | left | right].
    + destruct HP as (-> & H1 & H2 & H3 & H4). exists fs.
      split; [exact H2 |]. split; [exact H3 |]. split; [exact H4 |].
      split; [rewrite Ea, Hcount, H1; cbn [length]; lia | right; exists f; auto].
    + destruct HP as (-> & _). auto.
    + destruct HP as (-> & H1 & H2 & HV & H3). destruct (rx_same_view c c' Hrdy HV H2 H3) as (A1 & A2 & A3).
      exists (f :: fs). split; [exact A1 |]. split; [auto |]. split; [now apply A3 |].
      split; [congruence | left; auto].
Qed.

(** C32: When EIR shows a packet and the waiting frame was received with an error or is longer than the caller's buffer,
    [enc28_read_packet] refuses it: it returns ENC28_PACKET_RCV_ERR or ENC28_BUFFER_TOO_SMALL, with the caller's buffer
    untouched and the status vector filled in. No packet is released, and the hardware's read limit and the memory stay as
    they were; but the read pointer is left after the six header bytes of the refused frame, so that the next
    call does not start at a frame. *)
Theorem enc28_read_packet_rejects {W} {d : spi_callbacks W} `{HD : !Enc28Device d}
  (c : chip) (f : rx_frame) (buf : list Z) (size : Z) (vec : option ENC28_Receive_Status_Vector) (v : Z) :
  rx_ready c -> frame_wf f -> frame_at c (read_ptr c) f -> Z.testbit v ENC28_EIR_PKTIF = true ->
  frame_ok f = false \/ size < frame_len f -> size <= Z.of_nat (length buf) ->
  triple (shows_eir d v c) (enc28_read_packet (Some (context_of d)) (Some buf) size vec)
    (fun r s => exists c', is_chip c' s /\
       r = (if frame_ok f then ENC28_BUFFER_TOO_SMALL else ENC28_PACKET_RCV_ERR, Some buf,
            (fun _ => frame_vector f) <$> vec) /\
       sent c' = sent c /\ released c' = released c /\ rx_released c' = rx_released c /\ buffer c' = buffer c /\
       read_ptr c' = ring_iter ENC28_CONF_RX_ADDRESS_START ENC28_CONF_RX_ADDRESS_END 6 (read_ptr c)).
Proof.
  intros Hrdy Hwf Hfr Hv Hbad Hsize s Hs.
  destruct (enc28_read_packet_spec c f buf size vec v Hrdy (fun _ => conj Hwf Hfr) Hsize s Hs)
    as (r & s' & E & c1 & c' & Hs' & Hrd & HP).
  exists r, s'. split; [exact E |]. exists c'. split; [exact Hs' |].
  pose proof (chip_read_eir _ _ _ Hrd) as He.
  destruct (eir_only_view _ _ He) as (V1 & V2 & V3 & V4 & V5).
  destruct He as [(_ & S2 & _ & S4 & S5 & _) _]. destruct Hrdy as (R1 & R2 & _).
  unfold read_packet_post in HP. rewrite Hv in HP.
  assert (HP' : r = (if frame_ok f then ENC28_BUFFER_TOO_SMALL else ENC28_PACKET_RCV_ERR, Some buf,
             (fun _ => frame_vector f) <$> vec) /\ same_rest c1 c' /\
     read_ptr c' = ring_iter (rx_start c1) (rx_end c1) 6 (read_ptr c1)).
  { unfold pending_post, rx_view in HP. destruct (frame_ok f); cbn [negb] in HP; [| tauto].
    destruct (Z.ltb_spec size (frame_len f)); [tauto |]. destruct Hbad; [discriminate | lia]. }
  rewrite V1, V2, V4, R1, R2 in HP'. destruct HP' as (H1 & (B1 & B2 & _ & B4 & B5 & _) & H3).
  repeat split; congruence.
Qed.
