(* ===== verification/Enc28Control.v ===== *)
(** The remaining entry points of the driver: bank selection, starting and stopping reception,
    soft reset, identification, the transmit status check, and the parameter checks. *)
From Stdlib Require Import ZArith Lia Bool.
From stdpp Require Import base decidable list gmap.
From S2P Require Import Prelude Enc28Regs Enc28Driver Enc28Device Enc28Spec Enc28Hoare Enc28Init.
From S2P Require Import Enc28Transmit Enc28Receive.

Section Control.
Context {W : Type} {d : spi_callbacks W} `{HD : !Enc28Device d}.
#[local] Abbreviation ctx := (Some (context_of d)).

(** Setting ECON2.AUTOINC. *)
Lemma at_set_autoinc K F `{!RegFree F} old :
  k_bank K = 0 -> assoc (k_regs K) (0, ENC28_CR_ECON2) = Some old ->
  Z.testbit old ENC28_ECON2_PKTDEC = false ->
  triple (at_state K F) (enc28_do_set_bits_ctl_reg ctx ENC28_CR_ECON2 (bit ENC28_ECON2_AUTOINC))
    (fun st s => st = ENC28_OK /\
       at_state (know (0, ENC28_CR_ECON2)
                   ((old .| bit ENC28_ECON2_AUTOINC) .& Z.lnot (bit ENC28_ECON2_PKTDEC)) K) F s).
Proof.
  intros Hb0 Ho Hp s (c & Hs & Hc).
  destruct (set_bits_ctl_reg_exact c s ENC28_CR_ECON2 (bit ENC28_ECON2_AUTOINC))
    as (c' & s' & E & Hst & Hrep & Hbk);
    [apply usable_reg_check; reflexivity | apply is_u8_check; reflexivity | exact Hs |].
  exists ENC28_OK, s'. split; [exact E |]. split; [reflexivity |].
  change (cur_key c ENC28_CR_ECON2) with (0, ENC28_CR_ECON2) in Hst.
  unfold chip_bfs in Hst. change (mac_mii_key (0, ENC28_CR_ECON2)) with false in Hst.
  cbv iota in Hst. unfold chip_store in Hst.
  rewrite decide_False in Hst by discriminate. rewrite decide_True in Hst by reflexivity.
  pose proof Hc as (Hb & Hf & H1 & H2 & HF). rewrite (Hf _ _ Ho) in Hst.
  rewrite Z.lor_spec, Hp in Hst. cbn [orb] in Hst.
  change (Z.testbit (bit ENC28_ECON2_AUTOINC) ENC28_ECON2_PKTDEC) with false in Hst. cbv iota in Hst.
  eapply (at_state_frame _ _ _ _ _ _ _ Hs Hc Hrep Hbk); [| reflexivity]. subst c'.
  split; [| split; [| split; [exact H1 | split; [exact H2 |]]]].
  - transitivity (chip_bank c); [| exact Hb]. apply chip_bank_eq. now apply reg_set_ne.
  - apply facts_know with c; [exact Hf | apply reg_set_eq |].
    intros k' Hne. apply reg_set_ne. congruence.
  - refine (reg_free c _ _ HF). now apply same_rest_set_reg.
Qed.

(** The registers [enc28_do_init] configures. *)
Definition kept_regs : list (Z * Z) :=
  [(0, ENC28_CR_ERXSTL); (0, ENC28_CR_ERXSTH); (0, ENC28_CR_ERXNDL); (0, ENC28_CR_ERXNDH);
   (0, ENC28_CR_ERXRDPTL); (0, ENC28_CR_ERXRDPTH); (1, ENC28_CR_ERXFCON);
   (2, ENC28_CR_MAMXFLL); (2, ENC28_CR_MAMXFLH); (2, ENC28_CR_MABBIPG); (2, ENC28_CR_MAIPGL); (2, ENC28_CR_MAIPGH);
   (3, ENC28_CR_MAC_ADD1); (3, ENC28_CR_MAC_ADD2); (3, ENC28_CR_MAC_ADD3);
   (3, ENC28_CR_MAC_ADD4); (3, ENC28_CR_MAC_ADD5); (3, ENC28_CR_MAC_ADD6)].

Lemma configured_kept bytes full c c' : (forall k, k ∈ kept_regs -> reg c' k = reg c k) -> chip_bank c' = 0 ->
  configured bytes full c -> configured bytes full c'.
Proof.
  intros H Hb (_ & C1 & C2 & C3 & C4 & C5 & C6 & C7 & C8 & C9).
  assert (G : forall k, bool_decide (k ∈ kept_regs) = true -> reg c' k = reg c k).
  { intros k Hk. apply H. now apply bool_decide_eq_true in Hk. }
  unfold configured, rx_start, rx_end, pointer in *. split; [exact Hb |].
  rewrite !G by reflexivity. repeat (split; [assumption |]). intros i Hi. rewrite <- (C9 i Hi).
  do 6 (destruct i as [| i]; [apply G; reflexivity |]). lia.
Qed.

(** What [enc28_begin_packet_transfer] needs to know of the chip. *)
Definition begin_known (c : chip) : known :=
  mk_known (chip_bank c)
    ((fun k => (k, Some (reg c k))) <$> (kept_regs ++ [(0, ENC28_CR_ECON2); (0, ENC28_CR_EIE)]))
    (clk_wait c) (mii_wait c).

Lemma at_begin_known c : at_chip (begin_known c) (same_rest c) c.
Proof.
  split; [reflexivity |]. split; [| split; [cbn; lia | split; [cbn; lia | apply same_rest_refl]]].
  intros k v. cbn. repeat case_decide; subst; congruence.
Qed.
End Control.

(** EIE as [enc28_begin_packet_transfer] sets it: all interrupts the application handles. *)
Definition eie_mask : Z :=
  bit ENC28_EIE_INTIE .| bit ENC28_EIE_PKTIE .| bit ENC28_EIE_RXERIE .| bit ENC28_EIE_TXERIE.

Lemma begin_packet_transfer_spec {W} {d : spi_callbacks W} `{HD : !Enc28Device d} (c : chip) :
  rx_start c = ENC28_CONF_RX_ADDRESS_START -> rx_end c = ENC28_CONF_RX_ADDRESS_END ->
  Z.testbit (reg c (0, ENC28_CR_ECON2)) ENC28_ECON2_PKTDEC = false ->
  triple (is_chip c) (enc28_begin_packet_transfer (Some (context_of d)))
    (fun st s => st = ENC28_OK /\ exists c', is_chip c' s /\ same_rest c c' /\ chip_bank c' = 0 /\
       rx_ready c' /\ read_ptr c' = ENC28_CONF_RX_ADDRESS_START /\
       reg c' (0, ENC28_CR_EIE) = reg c (0, ENC28_CR_EIE) .| eie_mask /\
       Z.testbit (reg c' (0, ENC28_CR_ECON1)) ENC28_ECON1_RXEN = true /\
       forall k, k ∈ kept_regs -> reg c' k = reg c k).
Proof.
  intros Hst Hnd Hp.
  eapply triple_conseq with (P' := at_state (begin_known c) (same_rest c)).
  2: { intros s Hs. exists c. split; [exact Hs | apply at_begin_known]. }
  2: { intros st s H. exact H. }
  unfold enc28_begin_packet_transfer. do 4 drive. drive.
  eapply triple_exit; [eapply at_set_autoinc; [typeclasses eauto | reflexivity | reflexivity | exact Hp] |].
  eapply triple_conseq; [eapply (at_set_bits_econ1_value _ (same_rest c)); drive_side | intros s H; exact H |].
  intros st s (-> & c' & Hs & (Hb & Hf & _ & _ & HF) & Hrx). split; [reflexivity |].
  exists c'. split; [exact Hs |]. split; [exact HF |]. split; [exact Hb |].
  assert (HK : ring_kept c c').
  { eapply (ring_facts_kept c); [| exact Hf]. repeat split; reflexivity. }
  destruct HK as [K1 K2].
  assert (Eptr : read_ptr c' = ENC28_CONF_RX_ADDRESS_START).
  { unfold read_ptr, pointer. now rewrite (Hf (0, ENC28_CR_ERDPTL) _ eq_refl),
      (Hf (0, ENC28_CR_ERDPTH) _ eq_refl). }
  split; [| split; [exact Eptr | split; [exact (Hf (0, ENC28_CR_EIE) _ eq_refl) |]]].
  - unfold rx_ready. rewrite K1, K2, Eptr. split; [exact Hst |]. split; [exact Hnd |].
    split; [| unfold ENC28_CONF_RX_ADDRESS_START, ENC28_CONF_RX_ADDRESS_END; lia].
    unfold autoinc. rewrite (Hf (0, ENC28_CR_ECON2) _ eq_refl), Z.land_spec, Z.lor_spec.
    change (Z.testbit (bit ENC28_ECON2_AUTOINC) ENC28_ECON2_AUTOINC) with true.
    now rewrite orb_true_r.
  - split.
    + fold econ1_key. rewrite <- truth_bit by (vm_compute; discriminate).
      change (u8 (0 .| bit ENC28_ECON1_RXEN)) with (bit ENC28_ECON1_RXEN) in Hrx. rewrite Hrx.
      reflexivity.
    + intros k Hk. apply Hf. revert Hk. unfold kept_regs. rewrite !elem_of_cons, elem_of_nil. intros Hk.
      repeat destruct Hk as [-> | Hk]; [reflexivity.. | contradiction].
Qed.

(** On a conforming device whose receive ring is the configured one and that has no packet
    release pending, [enc28_begin_packet_transfer] returns ENC28_OK and leaves the receiver in the
    state [enc28_read_packet] needs: read pointer at the start of the ring, automatic increment on,
    reception enabled, the interrupt enable bits added to those already set, bank 0 selected;
    buffer memory, released packets and sent frames are as before. *)
Theorem enc28_begin_packet_transfer_ready {W} {d : spi_callbacks W} `{HD : !Enc28Device d} (c : chip) :
  rx_start c = ENC28_CONF_RX_ADDRESS_START -> rx_end c = ENC28_CONF_RX_ADDRESS_END ->
  Z.testbit (reg c (0, ENC28_CR_ECON2)) ENC28_ECON2_PKTDEC = false ->
  triple (is_chip c) (enc28_begin_packet_transfer (Some (context_of d)))
    (fun st s => st = ENC28_OK /\ exists c', is_chip c' s /\ same_rest c c' /\ chip_bank c' = 0 /\
       rx_ready c' /\ read_ptr c' = ENC28_CONF_RX_ADDRESS_START /\
       reg c' (0, ENC28_CR_EIE) = reg c (0, ENC28_CR_EIE) .| eie_mask /\
       Z.testbit (reg c' (0, ENC28_CR_ECON1)) ENC28_ECON1_RXEN = true).
Proof.
  intros H1 H2 H3. eapply triple_conseq; [exact (begin_packet_transfer_spec c H1 H2 H3) | auto |].
  intros st s (Hst & c' & A & B & C & D & E & F & G & _). eauto 10.
Qed.

(** On a conforming device [enc28_end_packet_transfer] returns ENC28_OK, clears the receive
    enable bit, and changes nothing else but the selected bank: every register other than ECON1,
    the buffer memory, released packets and sent frames are as before. *)
Theorem enc28_end_packet_transfer_stops {W} {d : spi_callbacks W} `{HD : !Enc28Device d}
  (c : chip) (k : Z * Z) :
  k <> (0, ENC28_CR_ECON1) ->
  triple (is_chip c) (enc28_end_packet_transfer (Some (context_of d)))
    (fun st s => st = ENC28_OK /\ exists c', is_chip c' s /\ same_rest c c' /\ chip_bank c' = 0 /\
       Z.testbit (reg c' (0, ENC28_CR_ECON1)) ENC28_ECON1_RXEN = false /\ reg c' k = reg c k).
Proof.
  intros Hk.
  set (K := mk_known (chip_bank c) [(k, Some (reg c k))] (clk_wait c) (mii_wait c)).
  eapply triple_conseq with (P' := at_state K (same_rest c)).
  2: { intros s Hs. exists c. split; [exact Hs |]. split; [reflexivity |].
       split; [| split; [cbn; lia | split; [cbn; lia | apply same_rest_refl]]].
       intros k' v. cbn. case_decide; congruence. }
  2: { intros st s H. exact H. }
  unfold enc28_end_packet_transfer. drive.
  eapply triple_conseq; [eapply (at_clear_bits_econ1_value _ (same_rest c)); drive_side | intros s H; exact H |].
  intros st s (-> & c' & Hs & (Hb & Hf & _ & _ & HF) & Hrx). split; [reflexivity |].
  exists c'. split; [exact Hs |]. split; [exact HF |]. split; [exact Hb |]. split.
  - fold econ1_key. rewrite <- truth_bit by (vm_compute; discriminate). now rewrite Hrx.
  - apply Hf. cbn. unfold econ1_key. rewrite !decide_False by exact Hk. now rewrite decide_True.
Qed.

(** On a conforming device [enc28_select_register_bank] with a bank below 4 returns ENC28_OK
    with that bank selected both in the chip and in the driver's variable and every other register
    unchanged, whatever bank was selected before; with any other bank number it returns
    ENC28_INVALID_PARAM and does not touch the device or the variable. *)
Theorem enc28_select_register_bank_selects {W} {d : spi_callbacks W} `{HD : !Enc28Device d}
  (c : chip) (b : Z) (k : Z * Z) :
  0 <= b -> k <> (0, ENC28_CR_ECON1) ->
  triple (is_chip c) (enc28_select_register_bank (Some (context_of d)) b)
    (fun st s =>
       (b < 4 -> st = ENC28_OK /\ exists c', is_chip c' s /\ chip_bank c' = b /\
                                   priv_enc28_curr_bank s = b /\ same_rest c c' /\ reg c' k = reg c k) /\
       (4 <= b -> st = ENC28_INVALID_PARAM /\ is_chip c s)).
Proof.
  intros Hb Hk s Hs. destruct (Z.lt_ge_cases b 4) as [L | L].
  - set (K := mk_known (chip_bank c) [(k, Some (reg c k))] (clk_wait c) (mii_wait c)).
    destruct (at_select (HD := HD) K (same_rest c) b (conj Hb L) s) as (st & s' & E & -> & Hs').
    { exists c. split; [exact Hs |]. split; [reflexivity |].
      split; [| split; [cbn; lia | split; [cbn; lia | apply same_rest_refl]]].
      intros k' v. cbn. case_decide; congruence. }
    exists ENC28_OK, s'. split; [exact E |]. split; [intros _ | lia]. split; [reflexivity |].
    destruct Hs' as (c' & Hc' & Hb' & Hf & _ & _ & HF). cbn in Hb'. exists c'.
    split; [exact Hc' |]. split; [exact Hb' |]. split; [rewrite <- Hb'; apply Hc' |].
    split; [exact HF |]. apply Hf. cbn. unfold econ1_key.
    rewrite decide_False by exact Hk. now rewrite decide_True.
  - exists ENC28_INVALID_PARAM, s. unfold enc28_select_register_bank.
    destruct (Z.leb_spec 4 b); [| lia]. split; [reflexivity |]. split; [lia | auto].
Qed.

Section Mac.
Context {W : Type} {d : spi_callbacks W} `{HD : !Enc28Device d}.
#[local] Abbreviation ctx := (Some (context_of d)).

Lemma at_read_mac_bytes K F `{!RegFree F} (want : list Z) : forall regs i bytes,
  k_bank K = 3 -> (i + length regs = 6)%nat -> length bytes = 6%nat -> length want = 6%nat ->
  (forall j r, regs !! j = Some r -> usable_reg r /\ is_mac_or_mii_reg_in 3 r = true /\
               mac_mii_key (3, r) = true /\ reg_key 3 r = (3, r) /\ hw_bits (3, r) = 0 /\
               assoc (k_regs K) (3, r) = Some (want !!! (i + j)%nat)) ->
  take i bytes = take i want ->
  triple (at_state K F) (read_mac_bytes ctx regs i bytes)
    (fun r s => r = (ENC28_OK, want) /\ at_state K F s).
Proof.
  induction regs as [| r regs IH]; intros i bytes Hb Hlen Hl Hw Hregs Htake; cbn [read_mac_bytes].
  - apply triple_ret. intros s Hs. cbn [length] in Hlen.
    assert (i = 6%nat) as -> by lia. rewrite !take_ge in Htake by lia. now rewrite Htake.
  - cbn [length] in Hlen.
    destruct (Hregs 0%nat r eq_refl) as (Hr & Hcl & Hmm & Hkey & Hhw & Ha).
    rewrite Nat.add_0_r in Ha.
    eapply triple_bind.
    { eapply (at_read_stable K F r _ (want !!! i)); rewrite ?Hb, ?Hkey; congruence || assumption. }
    intros [st v]. apply triple_pure. intros [= -> ->]. cbn [exit_if_err is_ok].
    apply IH; [exact Hb | lia | rewrite length_insert; exact Hl | exact Hw | |].
    + intros j r' Hj. rewrite Nat.add_succ_l, <- Nat.add_succ_r. now apply (Hregs (S j)).
    + rewrite (take_S_r _ _ (want !!! i)), (take_S_r want _ (want !!! i)), take_insert_ge, Htake;
        [reflexivity | lia | |].
      * apply list_lookup_lookup_total_lt. lia.
      * apply list_lookup_insert_eq. lia.
Qed.
End Mac.

(** Reading back what initialisation wrote: on a conforming device whose MAC address registers
    hold [bytes], as they do after [enc28_do_init] with that address, [enc28_do_read_mac] returns
    ENC28_OK and exactly those six bytes in the caller's structure. *)
Theorem enc28_do_read_mac_roundtrip {W} {d : spi_callbacks W} `{HD : !Enc28Device d}
  (c : chip) (bytes old : list Z) (full : bool) :
  configured bytes full c -> length bytes = 6%nat -> length old = 6%nat ->
  triple (is_chip c) (enc28_do_read_mac (Some (context_of d)) (Some {| addr := old |}))
    (fun r s => r = (ENC28_OK, Some {| addr := bytes |}) /\ exists c', is_chip c' s /\ same_rest c c').
Proof.
  intros Hcfg Hl Hold.
  set (regs := (fun r => ((3, r), Some (reg c (3, r)))) <$> mac_addr_regs).
  set (K := mk_known (chip_bank c) regs (clk_wait c) (mii_wait c)).
  eapply triple_conseq with (P' := at_state K (same_rest c)).
  2: { intros s Hs. exists c. split; [exact Hs |]. split; [reflexivity |].
       split; [| split; [cbn; lia | split; [cbn; lia | apply same_rest_refl]]].
       intros k' v. cbn. repeat case_decide; congruence. }
  2: { intros r s H. exact H. }
  unfold enc28_do_read_mac.
  eapply triple_exit with (e := fun st => (st, _)); [eapply at_select; drive_side |].
  eapply triple_bind.
  { eapply (at_read_mac_bytes (in_bank 3 (forget econ1_key K)) (same_rest c) bytes);
      try reflexivity; try assumption.
    destruct Hcfg as (_ & _ & _ & _ & _ & _ & _ & _ & _ & Hmac).
    intros j r Hj.
    assert (Hj6 : (j < 6)%nat) by (apply lookup_lt_Some in Hj; exact Hj).
    specialize (Hmac j Hj6). rewrite (list_lookup_total_correct _ _ _ Hj) in Hmac.
    rewrite Nat.add_0_l, <- Hmac.
    do 6 (destruct j as [| j]; [injection Hj as <-; repeat split; try discriminate; vm_compute; congruence || reflexivity |]).
    lia. }
  intros [st bs]. apply triple_pure. intros [= -> ->]. apply triple_ret.
  intros s (c' & Hs & Hc). split; [reflexivity |]. exists c'. split; [exact Hs | apply Hc].
Qed.

Lemma read_hw_rev_spec {W} {d : spi_callbacks W} `{HD : !Enc28Device d}
  (fuel : nat) (c : chip) (h : ENC28_HW_Rev) :
  (mii_bound < fuel)%nat ->
  is_u16 (phy c !!! ENC28_PHYR_PHID1) -> is_u16 (phy c !!! ENC28_PHYR_PHID2) ->
  triple (is_chip c) (enc28_do_read_hw_rev fuel (Some (context_of d)) (Some h))
    (fun r s => r = (ENC28_OK, Some {| phid1 := phy c !!! ENC28_PHYR_PHID1;
                                       phid2 := phy c !!! ENC28_PHYR_PHID2;
                                       ethrev := reg c (3, ENC28_CR_EREVID) |}) /\
                exists c', is_chip c' s /\ same_rest c c' /\
                  forall k, k ∈ kept_regs ++ [(0, ENC28_CR_ECON2); (0, ENC28_CR_EIE)] -> reg c' k = reg c k).
Proof.
  intros Hfuel H1 H2.
  set (K := mk_known (chip_bank c)
    ((fun k => (k, Some (reg c k))) <$> ((3, ENC28_CR_EREVID) :: kept_regs ++ [(0, ENC28_CR_ECON2); (0, ENC28_CR_EIE)])) (clk_wait c) (mii_wait c)).
  assert (Hphy : forall r c', same_rest c c' -> phy c' !!! r = phy c !!! r).
  { intros r c' (_ & _ & -> & _). reflexivity. }
  eapply triple_conseq with (P' := at_state K (same_rest c)).
  2: { intros s Hs. exists c. split; [exact Hs |]. split; [reflexivity |].
       split; [| split; [cbn; lia | split; [cbn; lia | apply same_rest_refl]]].
       intros k' v. cbn. repeat case_decide; subst; congruence. }
  2: { intros r s H. exact H. }
  unfold enc28_do_read_hw_rev.
  eapply triple_bind.
  { eapply (at_read_phy fuel Hfuel K (same_rest c) ENC28_PHYR_PHID1); [reflexivity | drive_side
      | exact H1 | intros c'; apply Hphy]. }
  intros [st v]. cbn [fst snd]. apply triple_pure; intros ->. apply triple_pure; intros ->.
  cbn [exit_if_err is_ok].
  eapply triple_bind.
  { eapply (at_read_phy fuel Hfuel _ (same_rest c) ENC28_PHYR_PHID2); [reflexivity | drive_side
      | exact H2 | intros c'; apply Hphy]. }
  intros [st v]. cbn [fst snd]. apply triple_pure; intros ->. apply triple_pure; intros ->.
  cbn [exit_if_err is_ok].
  eapply triple_exit with (e := fun st => (st, _)); [eapply at_select; drive_side |].
  eapply triple_bind; [eapply (at_read_stable _ (same_rest c)); drive_side |].
  intros [st v]. apply triple_pure. intros [= -> ->]. apply triple_ret.
  intros s (c' & Hs & Hc). split; [reflexivity |]. exists c'. split; [exact Hs |]. split; [apply Hc |].
  intros k Hk. destruct Hc as (_ & Hf & _). apply Hf. revert Hk. unfold kept_regs. cbn [app].
  rewrite !elem_of_cons, elem_of_nil. intros Hk. repeat destruct Hk as [-> | Hk]; [reflexivity.. | contradiction].
Qed.

(** On a conforming device [enc28_do_read_hw_rev] returns ENC28_OK and the caller's structure
    holds the two PHY identification words and the Ethernet revision register. *)
Theorem enc28_do_read_hw_rev_reads {W} {d : spi_callbacks W} `{HD : !Enc28Device d}
  (fuel : nat) (c : chip) (h : ENC28_HW_Rev) :
  (mii_bound < fuel)%nat ->
  is_u16 (phy c !!! ENC28_PHYR_PHID1) -> is_u16 (phy c !!! ENC28_PHYR_PHID2) ->
  triple (is_chip c) (enc28_do_read_hw_rev fuel (Some (context_of d)) (Some h))
    (fun r s => r = (ENC28_OK, Some {| phid1 := phy c !!! ENC28_PHYR_PHID1;
                                       phid2 := phy c !!! ENC28_PHYR_PHID2;
                                       ethrev := reg c (3, ENC28_CR_EREVID) |}) /\
                exists c', is_chip c' s /\ same_rest c c').
Proof.
  intros H1 H2 H3. eapply triple_conseq; [exact (read_hw_rev_spec fuel c h H1 H2 H3) | auto |].
  intros r s (Hr & c' & Hs & HF & _). eauto.
Qed.

(** The address [enc28_check_outgoing_packet_status] reads the status vector from does not depend
    on the high byte of the end pointer. *)
Lemma ctl_vec_address_low (lo hi : Z) : is_u8 lo -> ctl_vec_address lo hi = lo + 1.
Proof.
  intros Hlo. unfold ctl_vec_address.
  assert (E : Z.shiftl hi 8 .& 0x1F = 0).
  { rewrite land_1f, Z.shiftl_mul_pow2 by lia. change (2 ^ 8) with (8 * 32).
    rewrite Z.mul_assoc. apply Z.mod_mul. lia. }
  rewrite E, Z.lor_0_r, (u16_small lo) by (unfold is_u8, is_u16 in *; lia).
  apply u16_small. unfold is_u8, is_u16 in *; lia.
Qed.

(** C35: The transmit status vector is stored after the last byte of the frame, at the address
    ETXND + 1; [enc28_check_outgoing_packet_status] computes that address if and only if the frame
    ends in the first 256 bytes of the buffer memory, because masking before shifting loses the
    high byte of the end pointer. *)
Theorem ctl_vec_address_correct_iff (end_addr : Z) :
  0 <= end_addr < 8192 ->
  (ctl_vec_address (end_addr .& 0xFF) (Z.shiftr end_addr 8) = end_addr + 1 <-> end_addr < 256).
Proof.
  intros H. rewrite ctl_vec_address_low by apply land_ff_u8. rewrite land_ff. unfold u8.
  pose proof (Z.mod_pos_bound end_addr 256). split; [lia |].
  intros L. rewrite Z.mod_small by lia. reflexivity.
Qed.

Section Outgoing.
Context {W : Type} {d : spi_callbacks W} `{HD : !Enc28Device d}.
#[local] Abbreviation ctx := (Some (context_of d)).

(** A buffer read whose bytes are not looked at. *)
Lemma at_rbm_any K F `{!RegFree F} zs rx e :
  length rx = S (length zs) ->
  assoc (k_regs K) (0, ENC28_CR_ECON2) = Some e -> Z.testbit e ENC28_ECON2_AUTOINC = true ->
  triple (at_state K F)
    (call_nss_pin_op ctx 0 ;; hdr <- call_spi_in_out_op ctx (0x3A :: zs) rx ;;
     call_nss_pin_op ctx 1 ;; ret hdr)
    (fun _ s => at_state (forget (0, ENC28_CR_ERDPTH) (forget (0, ENC28_CR_ERDPTL) K)) F s).
Proof.
  intros Hl Ae He s (c & Hs & Hb & Hf & H1 & H2 & HF).
  assert (Ha : autoinc c = true) by (unfold autoinc; now rewrite (Hf _ _ Ae)).
  destruct (rbm_in_out_exact c s zs rx Hs Ha Hl) as (dm & vs & c' & s' & E & Hr & Hs').
  exists (dm :: vs), s'. split; [exact E |]. exists c'. split; [exact Hs' |].
  split; [rewrite (chip_rbm_bank _ _ _ _ Hr); exact Hb |]. destruct Hr as [_ ->].
  split; [| split; [exact H1 | split; [exact H2 |]]].
  - cbn [k_regs forget]. eapply facts_forget; [eapply facts_forget; [exact Hf |] |];
      intros k Hk; apply reg_set_ne; congruence.
  - refine (reg_free _ _ _ HF). eapply same_rest_trans; apply same_rest_set_reg; discriminate.
Qed.

Definition outgoing_known (c : chip) : known :=
  mk_known (chip_bank c)
    [((0, ENC28_CR_ECON2), Some (reg c (0, ENC28_CR_ECON2)));
     ((0, ENC28_CR_ERDPTL), Some (reg c (0, ENC28_CR_ERDPTL)));
     ((0, ENC28_CR_ERDPTH), Some (reg c (0, ENC28_CR_ERDPTH)));
     ((0, ENC28_CR_ETXNDL), Some (reg c (0, ENC28_CR_ETXNDL)));
     ((0, ENC28_CR_ETXNDH), Some (reg c (0, ENC28_CR_ETXNDH)))] (clk_wait c) (mii_wait c).

Lemma at_outgoing_known c : at_chip (outgoing_known c) (same_rest c) c.
Proof.
  split; [reflexivity |]. split; [| split; [cbn; lia | split; [cbn; lia | apply same_rest_refl]]].
  intros k v. cbn. repeat case_decide; subst; congruence.
Qed.

Lemma outgoing_done c w :
  autoinc c = true -> is_u8 (reg c (0, ENC28_CR_ERDPTL)) -> is_u8 (reg c (0, ENC28_CR_ERDPTH)) ->
  triple (at_state (outgoing_known c) (same_rest c))
    (TRY enc28_select_register_bank ctx 0 ;;
     ' (status, rdpt_lo) <- byref (enc28_do_read_ctl_reg ctx ENC28_CR_ERDPTL) 0 ;;
     EXIT_IF_ERR status RETURN status ;;
     ' (status, rdpt_hi) <- byref (enc28_do_read_ctl_reg ctx ENC28_CR_ERDPTH) 0 ;;
     EXIT_IF_ERR status RETURN status ;;
     ' (status, end_addr_lo) <- byref (enc28_do_read_ctl_reg ctx ENC28_CR_ETXNDL) 0 ;;
     EXIT_IF_ERR status RETURN status ;;
     ' (status, end_addr_hi) <- byref (enc28_do_read_ctl_reg ctx ENC28_CR_ETXNDH) 0 ;;
     EXIT_IF_ERR status RETURN status ;;
     let ctl_vec_addr := ctl_vec_address end_addr_lo end_addr_hi in
     TRY enc28_do_write_ctl_reg ctx ENC28_CR_ERDPTL (ctl_vec_addr .& 0xFF) ;;
     TRY enc28_do_write_ctl_reg ctx ENC28_CR_ERDPTH (Z.shiftr ctl_vec_addr 8 .& 0x1F) ;;
     call_nss_pin_op ctx 0 ;;
     call_spi_in_out_op ctx [0x3A; 0; 0; 0; 0; 0; 0] [0; 0; 0; 0; 0; 0; 0] ;;
     call_nss_pin_op ctx 1 ;;
     TRY enc28_do_write_ctl_reg ctx ENC28_CR_ERDPTL rdpt_lo ;;
     TRY enc28_do_write_ctl_reg ctx ENC28_CR_ERDPTH rdpt_hi ;;
     if truth (w .& bit ENC28_ESTAT_TXABRT) then ret ENC28_PACKET_TX_ABORTED
     else ret ENC28_OK)
    (fun st s => st = (if Z.testbit w ENC28_ESTAT_TXABRT then ENC28_PACKET_TX_ABORTED else ENC28_OK) /\
                 exists c', is_chip c' s /\ same_rest c c' /\ read_ptr c' = read_ptr c).
Proof.
  intros Ha Hlo Hhi. drive.
  do 4 (eapply triple_bind; [eapply (at_read_stable _ (same_rest c)); drive_side |];
        intros [? ?]; apply triple_pure; intros [= -> ->]; cbn [exit_if_err is_ok]).
  cbv zeta.
  eapply triple_exit; [eapply (at_write _ (same_rest c)); try drive_side; apply land_ff_u8 |].
  eapply triple_exit; [eapply (at_write _ (same_rest c)); try drive_side; apply land_1f_u8 |].
  eapply triple_frame.
  { eapply (at_rbm_any _ (same_rest c)); [reflexivity | reflexivity | exact Ha]. }
  intros ?. cbv beta.
  eapply triple_exit; [eapply (at_write _ (same_rest c)); try drive_side; exact Hlo |].
  eapply triple_exit; [eapply (at_write _ (same_rest c)); try drive_side; exact Hhi |].
  rewrite truth_bit by (vm_compute; discriminate).
  intros s (c' & Hs & _ & Hf & _ & _ & HF).
  exists (if Z.testbit w ENC28_ESTAT_TXABRT then ENC28_PACKET_TX_ABORTED else ENC28_OK), s.
  split; [now destruct (Z.testbit w _) |]. split; [reflexivity |].
  exists c'. split; [exact Hs |]. split; [exact HF |].
  unfold read_ptr, pointer.
  now rewrite (Hf (0, ENC28_CR_ERDPTL) _ eq_refl), (Hf (0, ENC28_CR_ERDPTH) _ eq_refl).
Qed.
End Outgoing.

(** On a conforming device with automatic increment on,
    [enc28_check_outgoing_packet_status] returns ENC28_NO_DATA when EIR reads without the
    transmit-done flag, and otherwise ENC28_PACKET_TX_ABORTED or ENC28_OK according to ESTAT.TXABRT;
    the receive read pointer it borrows is restored, and buffer memory, released packets and sent
    frames are left alone in every case. *)
Theorem enc28_check_outgoing_reports {W} {d : spi_callbacks W} `{HD : !Enc28Device d} (c : chip) :
  autoinc c = true -> is_u8 (reg c (0, ENC28_CR_ERDPTL)) -> is_u8 (reg c (0, ENC28_CR_ERDPTH)) ->
  triple (is_chip c) (enc28_check_outgoing_packet_status (Some (context_of d)))
    (fun st s => exists v c1 c', is_chip c' s /\ same_rest c c' /\ read_ptr c' = read_ptr c /\
       chip_read c (0, ENC28_CR_EIR) v c1 /\
       if Z.testbit v ENC28_EIR_TXIF then
         exists w c2, chip_read c1 (0, ENC28_CR_ESTAT) w c2 /\
           st = (if Z.testbit w ENC28_ESTAT_TXABRT then ENC28_PACKET_TX_ABORTED else ENC28_OK)
       else st = ENC28_NO_DATA).
Proof.
  intros Ha Hlo Hhi s Hs. unfold enc28_check_outgoing_packet_status.
  destruct (read_common c s ENC28_CR_EIR 0) as (v & c1 & s1 & E1 & Hrd1 & Hs1);
    [unfold ENC28_CR_EIR; lia | exact Hs |].
  pose proof (chip_read_effect _ _ _ _ Hrd1) as (Hr1 & _ & _ & _ & Hne1 & _).
  rewrite (bind_done _ _ _ _ _ E1). cbn [exit_if_err is_ok].
  rewrite truth_bit by (vm_compute; discriminate).
  destruct (Z.testbit v ENC28_EIR_TXIF) eqn:Et.
  - destruct (read_common c1 s1 ENC28_CR_ESTAT v) as (w & c2 & s2 & E2 & Hrd2 & Hs2);
      [unfold ENC28_CR_ESTAT; lia | exact Hs1 |].
    pose proof (chip_read_effect _ _ _ _ Hrd2) as (Hr2 & _ & _ & _ & Hne2 & _).
    rewrite (bind_done _ _ _ _ _ E2). cbn [exit_if_err is_ok].
    assert (Hreg : forall k, k <> (0, ENC28_CR_EIR) -> k <> (0, ENC28_CR_ESTAT) -> reg c2 k = reg c k).
    { intros k K1 K2. rewrite Hne2, Hne1 by (congruence || discriminate). reflexivity. }
    destruct (outgoing_done c2 w) with (s := s2) as (st & s' & E & -> & c' & Hs' & Hr & Hp).
    { unfold autoinc. rewrite Hreg by discriminate. exact Ha. }
    { rewrite Hreg by discriminate. exact Hlo. }
    { rewrite Hreg by discriminate. exact Hhi. }
    { exists c2. split; [exact Hs2 | apply at_outgoing_known]. }
    eexists _, s'. split; [exact E |]. exists v, c1, c'. rewrite Et. split; [exact Hs' |].
    split; [exact (same_rest_trans _ _ _ (same_rest_trans _ _ _ Hr1 Hr2) Hr) |].
    split; [| split; [exact Hrd1 | exists w, c2; auto]].
    rewrite Hp. unfold read_ptr, pointer. now rewrite !Hreg by discriminate.
  - exists ENC28_NO_DATA, s1. split; [reflexivity |]. exists v, c1, c1. rewrite Et.
    split; [exact Hs1 |]. split; [exact Hr1 |]. split; [| auto].
    unfold read_ptr, pointer. now rewrite !Hne1 by discriminate.
Qed.

(** The reset command, whatever bank the driver believes in. *)
Lemma soft_reset_spec {W} {d : spi_callbacks W} `{HD : !Enc28Device d} (c : chip) (w : W) (b : Z) :
  rep w c ->
  exists c' s', enc28_do_soft_reset (Some (context_of d)) (mk_drv b w) = Done ENC28_OK s' /\
    rep (world s') c' /\ priv_enc28_curr_bank s' = b /\ after_reset clk_bound mii_bound c c' /\
    chip_bank c' = 0.
Proof.
  intros Hrep. destruct (src_ok w c Hrep) as (c' & Hr & Hrep').
  eexists c', _. split; [reflexivity |]. split; [exact Hrep' |]. split; [reflexivity |].
  split; [exact Hr |]. unfold chip_bank. destruct Hr as (-> & _). reflexivity.
Qed.

(** On a conforming device [enc28_do_soft_reset] returns ENC28_OK and the chip is in its reset
    state, bank 0 selected, with its buffer memory intact, but the driver's bank variable keeps its
    old value: driver and chip agree on the selected bank after the reset exactly if bank 0 was
    selected before it. *)
Theorem enc28_do_soft_reset_bank {W} {d : spi_callbacks W} `{HD : !Enc28Device d} (c : chip) :
  triple (is_chip c) (enc28_do_soft_reset (Some (context_of d)))
    (fun st s => st = ENC28_OK /\ exists c', rep (world s) c' /\ chip_bank c' = 0 /\
       after_reset clk_bound mii_bound c c' /\ priv_enc28_curr_bank s = chip_bank c /\
       (is_chip c' s <-> chip_bank c = 0)).
Proof.
  intros [b w] [Hrep Hb]. cbn in Hrep, Hb. subst b.
  destruct (soft_reset_spec c w (chip_bank c) Hrep) as (c' & s' & E & Hrep' & Hbk & Hr & Hb').
  exists ENC28_OK, s'. split; [exact E |]. split; [reflexivity |].
  exists c'. split; [exact Hrep' |]. split; [exact Hb' |]. split; [exact Hr |]. split; [exact Hbk |].
  unfold is_chip. rewrite Hb', Hbk. tauto.
Qed.

(** The register functions check their parameters before any SPI traffic: with a missing
    context or a missing callback they return ENC28_INVALID_PARAM, with the reserved register 0x1A
    they return ENC28_INVALID_REGISTER, and in both cases the state and the caller's variable are
    untouched. *)
Theorem register_access_refused {W} (ctx : option (ENC28_SPI_Context W)) (r v : Z) (s : drv W) :
  (ctx_incomplete ctx = true ->
   enc28_do_read_ctl_reg ctx r (Some v) s = Done (ENC28_INVALID_PARAM, Some v) s /\
   enc28_do_set_bits_ctl_reg ctx r v s = Done ENC28_INVALID_PARAM s /\
   enc28_do_clear_bits_ctl_reg ctx r v s = Done ENC28_INVALID_PARAM s) /\
  (ctx_incomplete_wait ctx = true ->
   enc28_do_write_ctl_reg ctx r v s = Done ENC28_INVALID_PARAM s) /\
  (ctx_incomplete_wait ctx = false -> r = 0x1A ->
   enc28_do_read_ctl_reg ctx r (Some v) s = Done (ENC28_INVALID_REGISTER, Some v) s /\
   enc28_do_write_ctl_reg ctx r v s = Done ENC28_INVALID_REGISTER s /\
   enc28_do_set_bits_ctl_reg ctx r v s = Done ENC28_INVALID_REGISTER s /\
   enc28_do_clear_bits_ctl_reg ctx r v s = Done ENC28_INVALID_REGISTER s).
Proof.
  unfold enc28_do_read_ctl_reg, enc28_do_write_ctl_reg, enc28_do_set_bits_ctl_reg,
    enc28_do_clear_bits_ctl_reg.
  split; [| split].
  - intros ->. repeat split.
  - intros ->. reflexivity.
  - intros Hw ->.
    assert (Hc : ctx_incomplete ctx = false).
    { destruct ctx as [c |]; [| discriminate Hw]. cbn in *.
      apply orb_false_iff in Hw. apply Hw. }
    rewrite Hw, Hc. repeat split.
Qed.
