(* ===== verification/Enc28Sim.v ===== *)
(** A simulated ENC28J60: a concrete environment that conforms to [Enc28Device].

    The simulator collects the bytes of an SPI frame and interprets them the way the chip does. It
    shows that the interface is satisfiable and gives the theorems about the driver concrete inputs:
    the witnesses at the end run the hypotheses on the chip it holds. *)
From Stdlib Require Import ZArith Lia Bool.
From stdpp Require Import base decidable list gmap.
From S2P Require Import Prelude Enc28Regs Enc28Driver Enc28Device Enc28Spec Enc28Hoare Enc28Init.
From S2P Require Import Enc28Transmit Enc28Receive Enc28Control.

(** * The simulator *)

Record sim : Type := mk_sim { sim_chip : chip; sim_pending : list Z }.

(** Registers and memory hold bytes, PHY registers hold half-words. *)
Definition wf_chip (c : chip) : Prop :=
  (forall k, is_u8 (reg c k)) /\ (forall a v, buffer c !! a = Some v -> is_u8 v) /\
  (forall r, is_u16 (phy c !!! r)).

(** The clock is always running, the management interface never busy, a transmission is over as soon as
    somebody looks, and the packet flag is up exactly while packets wait. *)
Definition sim_value (c : chip) (k : Z * Z) : Z :=
  if decide (k = (0, ENC28_CR_ESTAT)) then 1
  else if decide (k = (3, ENC28_CR_MISTAT)) then 0
  else if decide (k = econ1_key) then reg c k .& 0xF7
  else if decide (k = (0, ENC28_CR_EIR)) then
    (reg c k .& 0xBF) .| (if (released c <? arrived c)%nat then bit ENC28_EIR_PKTIF else 0)
  else reg c k.

Definition sim_read (c : chip) (k : Z * Z) : Z * chip :=
  let v := sim_value c k in
  (v, if decide (hw_bits k = 0) then c
      else if decide (k = (0, ENC28_CR_ESTAT)) then
        set_waits (pred (clk_wait c)) (mii_wait c) (set_reg k v c)
      else if decide (k = (3, ENC28_CR_MISTAT)) then
        let c1 := set_waits (clk_wait c) (pred (mii_wait c)) (set_reg k v c) in
        if (v .& 1 =? 0) && negb (reg c (2, ENC28_CR_MICMD) .& bit ENC28_MICMD_MIIRD =? 0) then
          let w := phy c !!! reg c (2, ENC28_CR_MIREGADR) in
          set_reg (2, ENC28_CR_MIRDH) (Z.shiftr w 8) (set_reg (2, ENC28_CR_MIRDL) (w .& 0xFF) c1)
        else c1
      else set_reg k v c).

Definition byte_at (c : chip) (a : Z) : Z := default 0 (buffer c !! a).

Definition sim_frame (c : chip) : list Z :=
  let st := pointer c ENC28_CR_ETXSTL ENC28_CR_ETXSTH in
  let nd := pointer c ENC28_CR_ETXNDL ENC28_CR_ETXNDH in
  byte_at c <$> ((fun i => st + 1 + Z.of_nat i) <$> seq 0 (Z.to_nat (nd - st))).

Definition sim_store (c : chip) (k : Z * Z) (v : Z) : chip :=
  if decide (k = (0, ENC28_CR_ECON1)) then
    if Z.testbit v ENC28_ECON1_TXRTS && negb (Z.testbit (reg c k) ENC28_ECON1_TXRTS)
    then add_sent (sim_frame c) (set_reg k v c) else set_reg k v c
  else if decide (k = (0, ENC28_CR_ECON2)) then
    set_reg k (v .& Z.lnot (bit ENC28_ECON2_PKTDEC))
      (if Z.testbit v ENC28_ECON2_PKTDEC then add_released c else c)
  else if decide (k = (2, ENC28_CR_MICMD)) then
    set_reg k v (if Z.testbit v ENC28_MICMD_MIIRD then set_waits (clk_wait c) 0 c else c)
  else if decide (k = (0, ENC28_CR_ERXRDPTH)) then
    release_to (reg c (0, ENC28_CR_ERXRDPTL) .| Z.shiftl (v .& 0x1F) 8) (set_reg k v c)
  else set_reg k v c.

(** The bit commands: like a store, except that MAC and MII registers ignore them. *)
Definition sim_bits (c : chip) (k : Z * Z) (v : Z) : chip :=
  if mac_mii_key k then set_reg k (reg c k) c else sim_store c k v.

Definition sim_rbm (c : chip) (n : nat) : list Z * chip :=
  let p := read_ptr c in
  let p' := ring_iter (rx_start c) (rx_end c) n p in
  (byte_at c <$> ring_addrs (rx_start c) (rx_end c) n p,
   set_reg (0, ENC28_CR_ERDPTH) (Z.shiftr p' 8) (set_reg (0, ENC28_CR_ERDPTL) (p' .& 0xFF) c)).

Definition sim_wbm (c : chip) (data : list Z) : chip :=
  let p := pointer c ENC28_CR_EWRPTL ENC28_CR_EWRPTH in
  let p' := (p + Z.of_nat (length data)) mod 8192 in
  set_reg (0, ENC28_CR_EWRPTH) (Z.shiftr p' 8)
    (set_reg (0, ENC28_CR_EWRPTL) (p' .& 0xFF)
       (set_buffer (write_bytes c p data (buffer c)) c)).

(** The reset command; of the registers, those the interface speaks about. *)
Definition sim_reset (c : chip) : chip :=
  mk_chip (regs (set_reg (0, ENC28_CR_EIE) 0 (set_reg (0, ENC28_CR_ECON2) 0x80 (set_reg econ1_key 0 c))))
    (buffer c) (rx_released c) (phy c) 0 0 (sent c) 0 0.

(** The write commands take effect when the frame ends. *)
Definition sim_end_frame (c : chip) (bytes : list Z) : chip :=
  match bytes with
  | [] => c
  | b :: data =>
    if b =? 0xFF then sim_reset c
    else if b =? 0x7A then sim_wbm c data
    else match data with
         | [v] =>
           let k := cur_key c (b .& 0x1F) in
           if Z.shiftr b 5 =? ENC28_OP_WCR then sim_store c k v
           else if Z.shiftr b 5 =? ENC28_OP_BFS then sim_bits c k (reg c k .| v)
           else if Z.shiftr b 5 =? ENC28_OP_BFC then sim_bits c k (reg c k .& Z.lnot v)
           else c
         | _ => c
         end
  end.

Definition sim_in (buf : list Z) (w : sim) : list Z * sim :=
  match sim_pending w with
  | [r] =>
    if r =? 0x3A then let '(vs, c) := sim_rbm (sim_chip w) (length buf) in (vs, mk_sim c [])
    else
      let k := cur_key (sim_chip w) r in
      let '(v, c) := sim_read (sim_chip w) k in
      (if mac_mii_key k then [0; v] else [v], mk_sim c [])
  | _ => (buf, w)
  end.

Definition sim_in_out (tx rx : list Z) (w : sim) : list Z * sim :=
  match tx with
  | 0x3A :: zs => let '(vs, c) := sim_rbm (sim_chip w) (length zs) in (0 :: vs, mk_sim c [])
  | _ => (rx, w)
  end.

Definition simulated : spi_callbacks sim := {|
  dev_nss v w := if v =? 0 then mk_sim (sim_chip w) []
                 else mk_sim (sim_end_frame (sim_chip w) (sim_pending w)) [];
  dev_out bs w := mk_sim (sim_chip w) (sim_pending w ++ bs);
  dev_in := sim_in;
  dev_in_out := sim_in_out;
  dev_wait _ w := w
|}.

(** * It conforms *)

Definition sim_rep (w : sim) (c : chip) : Prop := w = mk_sim c [] /\ wf_chip c.

Lemma wf_set_reg k v c : is_u8 v -> wf_chip c -> wf_chip (set_reg k v c).
Proof.
  intros Hv (H1 & H2 & H3). split; [| split; [exact H2 | exact H3]].
  intros k'. destruct (decide (k = k')) as [<- | Hne].
  - now rewrite reg_set_eq.
  - rewrite reg_set_ne by exact Hne. apply H1.
Qed.

(** Conditions on memory and PHY only. *)
Lemma wf_rest c c' : wf_chip c -> (forall k, reg c' k = reg c k) ->
  (forall a v, buffer c' !! a = Some v -> is_u8 v) -> phy c' = phy c -> wf_chip c'.
Proof.
  intros (H1 & H2 & H3) E1 E2 E3. split; [| split; [exact E2 |]].
  - intros k. rewrite E1. apply H1.
  - intros r. rewrite E3. apply H3.
Qed.

Lemma is_u8_bits z : is_u8 z <-> z .& 255 = z /\ 0 <= z.
Proof.
  change 255 with (Z.ones 8). rewrite Z.land_ones by lia. unfold is_u8. split.
  - intros H. split; [apply Z.mod_small; exact H | lia].
  - intros [E H]. rewrite <- E. apply Z.mod_pos_bound. lia.
Qed.

Lemma lor_u8 a b : is_u8 a -> is_u8 b -> is_u8 (a .| b).
Proof.
  rewrite !is_u8_bits. intros [E1 H1] [E2 H2]. split; [| now apply Z.lor_nonneg].
  rewrite Z.land_lor_distr_l. now rewrite E1, E2.
Qed.

Lemma land_u8 a b : is_u8 a -> is_u8 (a .& b).
Proof.
  rewrite !is_u8_bits. intros [E1 H1]. split; [| apply Z.land_nonneg; now left].
  rewrite <- Z.land_assoc, (Z.land_comm b), Z.land_assoc. now rewrite E1.
Qed.

Lemma byte_at_u8 c a : wf_chip c -> is_u8 (byte_at c a).
Proof.
  intros (_ & H & _). unfold byte_at. destruct (buffer c !! a) eqn:E; cbn.
  - exact (H _ _ E).
  - unfold is_u8. lia.
Qed.

Lemma sim_reads_as c addrs : wf_chip c -> reads_as (buffer c) addrs (byte_at c <$> addrs).
Proof.
  intros Hwf. induction addrs as [| a addrs IH]; cbn; constructor; [| exact IH].
  split; [now apply byte_at_u8 |]. intros x Hx. unfold byte_at. now rewrite Hx.
Qed.

Lemma pointer_range c lo hi : wf_chip c -> 0 <= pointer c lo hi < 8192.
Proof.
  intros (H & _). unfold pointer. rewrite lor_byte_hi by apply H. rewrite land_1f.
  pose proof (Z.mod_pos_bound (reg c (0, hi)) 32). specialize (H (0, lo)). unfold is_u8 in H. lia.
Qed.

Lemma ring_iter_small st nd n : 0 <= st < 8192 -> forall p, 0 <= p < 8192 ->
  0 <= ring_iter st nd n p < 8192.
Proof.
  intros Hst. induction n as [| n IH]; intros p Hp; [exact Hp |]. cbn. apply IH.
  unfold ring_next. destruct (p =? nd); [exact Hst |]. apply Z.mod_pos_bound. lia.
Qed.

Lemma wf_set_pointer klo khi p c : 0 <= p < 8192 -> wf_chip c ->
  wf_chip (set_reg khi (Z.shiftr p 8) (set_reg klo (p .& 0xFF) c)).
Proof.
  intros Hp Hwf. apply wf_set_reg; [apply shiftr8_u8; unfold is_u16; lia |].
  apply wf_set_reg; [apply land_ff_u8 | exact Hwf].
Qed.

Lemma sim_rbm_ok c n : wf_chip c ->
  chip_rbm c n (sim_rbm c n).1 (sim_rbm c n).2 /\ wf_chip (sim_rbm c n).2 /\
  length (sim_rbm c n).1 = n.
Proof.
  intros Hwf. split; [| split].
  - split; [now apply sim_reads_as | reflexivity].
  - apply wf_set_pointer; [| exact Hwf].
    apply ring_iter_small; now apply pointer_range.
  - cbn. now rewrite length_fmap, length_ring_addrs.
Qed.

Lemma write_bytes_u8 c data : forall p b, Forall is_u8 data ->
  (forall a v, b !! a = Some v -> is_u8 v) ->
  forall a v, write_bytes c p data b !! a = Some v -> is_u8 v.
Proof.
  induction data as [| x data IH]; intros p b Hd Hb; cbn [write_bytes]; [exact Hb |].
  apply Forall_cons in Hd as [Hx Hd]. apply IH; [exact Hd |]. intros a v.
  destruct (in_ring c p).
  - rewrite lookup_delete_Some. intros [_ H]. exact (Hb _ _ H).
  - rewrite lookup_insert_Some. intros [[_ <-] | [_ H]]; [exact Hx | exact (Hb _ _ H)].
Qed.

Lemma sim_wbm_ok c data : Forall is_u8 data -> wf_chip c ->
  chip_wbm c data (sim_wbm c data) /\ wf_chip (sim_wbm c data).
Proof.
  intros Hd Hwf. split; [reflexivity |]. apply wf_set_pointer; [apply Z.mod_pos_bound; lia |].
  eapply wf_rest; [exact Hwf | reflexivity | | reflexivity].
  cbn. apply write_bytes_u8; [exact Hd | apply Hwf].
Qed.

Lemma land_f7 v : v .& 0xF7 .& Z.lnot 0x28 = v .& 0xFF .& Z.lnot 0x28.
Proof. rewrite <- !Z.land_assoc. reflexivity. Qed.

Lemma sim_eir_stable v x : is_u8 v -> x .& Z.lnot 0x7F = 0 ->
  ((v .& 0xBF) .| x) .& Z.lnot (hw_bits (0, ENC28_CR_EIR)) = v .& Z.lnot (hw_bits (0, ENC28_CR_EIR)).
Proof.
  intros Hv Hx. change (hw_bits (0, ENC28_CR_EIR)) with 0x7F.
  rewrite Z.land_lor_distr_l, Hx, Z.lor_0_r. apply is_u8_bits in Hv as [E _]. rewrite <- E.
  rewrite <- !Z.land_assoc. reflexivity.
Qed.

Lemma sim_value_ok c k : wf_chip c ->
  is_u8 (sim_value c k) /\
  sim_value c k .& Z.lnot (hw_bits k) = reg c k .& Z.lnot (hw_bits k) /\
  (k = econ1_key -> Z.testbit (sim_value c k) ENC28_ECON1_TXRTS = false) /\
  (k = (0, ENC28_CR_EIR) -> Z.testbit (sim_value c k) ENC28_EIR_PKTIF = true -> (released c < arrived c)%nat).
Proof.
  intros (H & _). assert (Hk := H k). unfold sim_value.
  destruct (decide (k = (0, ENC28_CR_ESTAT))) as [-> | N1].
  { split; [unfold is_u8; lia | split; [| split; discriminate]].
    change (hw_bits (0, ENC28_CR_ESTAT)) with 255. apply is_u8_bits in Hk as [<- _].
    rewrite <- Z.land_assoc. now rewrite Z.land_0_r. }
  destruct (decide (k = (3, ENC28_CR_MISTAT))) as [-> | N2].
  { split; [unfold is_u8; lia | split; [| split; discriminate]].
    change (hw_bits (3, ENC28_CR_MISTAT)) with 255. apply is_u8_bits in Hk as [<- _].
    rewrite <- Z.land_assoc. now rewrite Z.land_0_r. }
  destruct (decide (k = econ1_key)) as [-> | N3].
  - split; [now apply land_u8 | split; [| split; [| discriminate]]].
    + apply is_u8_bits in Hk as [E _]. change (hw_bits econ1_key) with 0x28.
      rewrite land_f7. now rewrite E.
    + intros _. rewrite Z.land_spec. apply andb_false_r.
  - destruct (decide (k = (0, ENC28_CR_EIR))) as [-> | N4].
    + destruct (Nat.ltb_spec (released c) (arrived c)).
      * split; [apply lor_u8; [now apply land_u8 | apply is_u8_check; reflexivity] |].
        split; [| split; [discriminate | auto]]. now apply sim_eir_stable.
      * split; [apply lor_u8; [now apply land_u8 | unfold is_u8; lia] |].
        split; [now apply sim_eir_stable | split; [discriminate |]]. intros _.
        rewrite Z.lor_0_r, Z.land_spec, andb_false_r. discriminate.
    + split; [exact Hk |]. split; [reflexivity |]. split; contradiction.
Qed.

Lemma sim_read_ok c k : wf_chip c ->
  chip_read c k (sim_read c k).1 (sim_read c k).2 /\ wf_chip (sim_read c k).2.
Proof.
  intros Hwf. destruct (sim_value_ok c k Hwf) as (H1 & H2 & H3 & H4). split.
  - split; [exact H1 |]. split; [exact H2 |]. cbn [fst sim_read].
    split; [| split; [| split; [| split; [exact H4 | reflexivity]]]].
    + intros ->. discriminate.
    + intros ->. intros H. now contradict H.
    + intros ->. rewrite (H3 eq_refl). discriminate.
  - assert (Hv := wf_set_reg k _ c H1 Hwf). cbn [snd sim_read].
    repeat case_decide; try case_match; try exact Hwf; try exact Hv.
    apply wf_set_reg.
    { apply shiftr8_u8. apply Hwf. }
    apply wf_set_reg; [apply land_ff_u8 | exact Hv].
Qed.

Lemma sim_frame_ok c : wf_chip c -> transmits c (sim_frame c).
Proof. intros Hwf. now apply sim_reads_as. Qed.

Lemma sim_store_ok c k v : is_u8 v -> wf_chip c ->
  chip_store 0 c k v (sim_store c k v) /\ wf_chip (sim_store c k v).
Proof.
  intros Hv Hwf. assert (Hs := wf_set_reg k v c Hv Hwf). unfold chip_store, sim_store.
  repeat case_decide.
  - case_match; [| auto]. split; [| exact Hs].
    exists (sim_frame c). split; [now apply sim_frame_ok | reflexivity].
  - split; [reflexivity |]. apply wf_set_reg; [now apply land_u8 |]. now case_match.
  - split; [reflexivity |]. apply wf_set_reg; [exact Hv |]. now case_match.
  - split; [reflexivity |]. eapply wf_rest; [exact Hs | reflexivity | | reflexivity].
    intros a x. cbn. rewrite map_lookup_filter_Some. intros [Hx _].
    destruct Hwf as (_ & HB & _). exact (HB _ _ Hx).
  - auto.
Qed.

(** A command byte keeps its argument and opcode. *)
Lemma command_fields op r : 0 <= r < 32 -> In op [2; 4; 5] ->
  (Z.lor (Z.shiftl op 5) r .& 0x1F = r) /\ Z.shiftr (Z.lor (Z.shiftl op 5) r) 5 = op /\
  Z.lor (Z.shiftl op 5) r <> 0xFF /\ Z.lor (Z.shiftl op 5) r <> 0x7A.
Proof.
  intros Hr Hop.
  assert (H : forallb (fun op => forallb (fun r =>
     (Z.lor (Z.shiftl op 5) r .& 0x1F =? r) && (Z.shiftr (Z.lor (Z.shiftl op 5) r) 5 =? op) &&
     negb (Z.lor (Z.shiftl op 5) r =? 0xFF) && negb ((op =? 3) || (Z.lor (Z.shiftl op 5) r =? 0x7A)))
     (zrange 32)) [2; 4; 5] = true) by (vm_compute; reflexivity).
  rewrite forallb_forall in H. specialize (H op Hop).
  pose proof (zrange_forallb 32 _ r H Hr) as E. cbv beta in E.
  rewrite !andb_true_iff, !negb_true_iff, orb_false_iff, !Z.eqb_eq, !Z.eqb_neq in E. tauto.
Qed.

Lemma sim_end_frame_cmd c op r v : 0 <= r < 32 -> In op [2; 4; 5] ->
  sim_end_frame c [Z.lor (Z.shiftl op 5) r; v] =
  let k := cur_key c r in
  if op =? ENC28_OP_WCR then sim_store c k v
  else if op =? ENC28_OP_BFS then sim_bits c k (reg c k .| v)
  else if op =? ENC28_OP_BFC then sim_bits c k (reg c k .& Z.lnot v)
  else c.
Proof.
  intros Hr Hop. destruct (command_fields op r Hr Hop) as (E1 & E2 & N1 & N2).
  set (b := Z.lor _ _) in *.
  unfold sim_end_frame. apply Z.eqb_neq in N1, N2. now rewrite N1, N2, E1, E2.
Qed.

Lemma sim_read_conforms c r : wf_chip c -> 0 <= r < 32 ->
  exists v c', sim_read c (cur_key c r) = (v, c') /\ chip_read c (cur_key c r) v c' /\ wf_chip c'.
Proof.
  intros Hwf Hr. destruct (sim_read_ok c (cur_key c r) Hwf) as [H1 H2].
  destruct (sim_read c (cur_key c r)) as [v c']. exists v, c'. auto.
Qed.

(** The bit commands conform. *)
Lemma sim_bits_ok c k v : is_u8 v -> wf_chip c ->
  (if mac_mii_key k then exists x, is_u8 x /\ sim_bits c k v = set_reg k x c
   else chip_store 0 c k v (sim_bits c k v)) /\ wf_chip (sim_bits c k v).
Proof.
  intros Hv Hwf. unfold sim_bits. destruct (mac_mii_key k).
  - split; [exists (reg c k); split; [apply Hwf | reflexivity] | apply wf_set_reg; [apply Hwf | exact Hwf]].
  - now apply sim_store_ok.
Qed.

Lemma sim_reset_wf c : wf_chip c -> wf_chip (sim_reset c).
Proof.
  intros Hwf.
  assert (H : wf_chip (set_reg (0, ENC28_CR_EIE) 0 (set_reg (0, ENC28_CR_ECON2) 0x80 (set_reg econ1_key 0 c)))).
  { repeat (apply wf_set_reg; [apply is_u8_check; reflexivity |]). exact Hwf. }
  destruct H as (H1 & H2 & H3). split; [exact H1 |]. split; [exact H2 | exact H3].
Qed.

#[export] Instance simulated_device : Enc28Device simulated.
Proof.
  refine {| rep := sim_rep; mii_bound := 0; clk_bound := 0 |}.
  - intros w c n H. exact H.
  - intros w c [-> Hwf]. now split.
  - intros w c r x [-> Hwf] Hr Hm. cbn [dev_in dev_out dev_nss simulated Z.eqb]. unfold sim_in.
    cbn [sim_pending sim_chip app].
    assert (N : (r =? 0x3A) = false) by (apply Z.eqb_neq; lia). rewrite N, Hm.
    destruct (sim_read_conforms c r Hwf Hr) as (v & c' & -> & H1 & H2).
    exists v, (mk_sim c' []), c'. split; [reflexivity |]. split; [exact H1 |]. now split.
  - intros w c r x y [-> Hwf] Hr Hm. cbn [dev_in dev_out dev_nss simulated Z.eqb]. unfold sim_in.
    cbn [sim_pending sim_chip app].
    assert (N : (r =? 0x3A) = false) by (apply Z.eqb_neq; lia). rewrite N, Hm.
    destruct (sim_read_conforms c r Hwf Hr) as (v & c' & -> & H1 & H2).
    exists 0, v, (mk_sim c' []), c'. split; [reflexivity |]. split; [exact H1 |]. now split.
  - intros w c r v t1 t2 [-> Hwf] Hr Hv.
    destruct (sim_store_ok c (cur_key c r) v Hv Hwf) as [H1 H2].
    exists (sim_store c (cur_key c r) v). split; [exact H1 |]. split; [| exact H2].
    cbn [dev_nss simulated sim_chip sim_pending dev_wait dev_out Z.eqb app].
    change 0x40 with (Z.shiftl 2 5). rewrite sim_end_frame_cmd by (cbn; tauto). reflexivity.
  - intros w c r m [-> Hwf] Hr Hv.
    destruct (sim_bits_ok c (cur_key c r) (reg c (cur_key c r) .| m)) as [H1 H2];
      [apply lor_u8; [apply Hwf | exact Hv] | exact Hwf |].
    exists (sim_bits c (cur_key c r) (reg c (cur_key c r) .| m)). split; [| split; [| exact H2]].
    + unfold chip_bfs. now destruct (mac_mii_key _).
    + cbn [dev_nss simulated sim_chip sim_pending dev_out Z.eqb app].
      change 0x80 with (Z.shiftl 4 5). rewrite sim_end_frame_cmd by (cbn; tauto). reflexivity.
  - intros w c r m [-> Hwf] Hr Hv.
    destruct (sim_bits_ok c (cur_key c r) (reg c (cur_key c r) .& Z.lnot m)) as [H1 H2];
      [apply land_u8; apply Hwf | exact Hwf |].
    exists (sim_bits c (cur_key c r) (reg c (cur_key c r) .& Z.lnot m)). split; [| split; [| exact H2]].
    + unfold chip_bfc. now destruct (mac_mii_key _).
    + cbn [dev_nss simulated sim_chip sim_pending dev_out Z.eqb app].
      change 0xA0 with (Z.shiftl 5 5). rewrite sim_end_frame_cmd by (cbn; tauto). reflexivity.
  - intros w c zs rx [-> Hwf] Ha Hl. destruct (sim_rbm_ok c (length zs) Hwf) as (H1 & H2 & _).
    exists 0, (sim_rbm c (length zs)).1, (mk_sim (sim_rbm c (length zs)).2 []), (sim_rbm c (length zs)).2.
    split; [| split; [exact H1 | now split]].
    reflexivity.
  - intros w c buf [-> Hwf] Ha. destruct (sim_rbm_ok c (length buf) Hwf) as (H1 & H2 & _).
    exists (sim_rbm c (length buf)).1, (mk_sim (sim_rbm c (length buf)).2 []), (sim_rbm c (length buf)).2.
    split; [| split; [exact H1 | now split]].
    reflexivity.
  - intros w c ctrl data [-> Hwf] Hc Hd.
    destruct (sim_wbm_ok c (ctrl :: data)) as [H1 H2]; [now constructor | exact Hwf |].
    exists (sim_wbm c (ctrl :: data)). split; [exact H1 |]. split; [| exact H2].
    reflexivity.
  - intros w c [-> Hwf]. exists (sim_reset c). split; [| split; [reflexivity | now apply sim_reset_wf]].
    assert (Hreg : forall k, reg (sim_reset c) k =
      reg (set_reg (0, ENC28_CR_EIE) 0 (set_reg (0, ENC28_CR_ECON2) 0x80 (set_reg econ1_key 0 c))) k) by reflexivity.
    unfold after_reset. rewrite !Hreg. split; [| split; [| split]].
    + rewrite !reg_set_ne by discriminate. apply reg_set_eq.
    + rewrite reg_set_ne by discriminate. apply reg_set_eq.
    + apply reg_set_eq.
    + cbn. repeat split; try lia; apply Hwf.
Defined.

(** * Concrete chips *)

Definition byte_ok (v : Z) : bool := (0 <=? v) && (v <? 256).

Definition wf_check (c : chip) : bool :=
  forallb (fun kv => byte_ok kv.2) (map_to_list (regs c)) &&
  forallb (fun kv => byte_ok kv.2) (map_to_list (buffer c)) &&
  forallb (fun kv => (0 <=? kv.2) && (kv.2 <? 65536)) (map_to_list (phy c)).

Lemma map_check {A} `{Countable K} (f : A -> bool) (m : gmap K A) :
  forallb (fun kv => f kv.2) (map_to_list m) = true -> forall k v, m !! k = Some v -> f v = true.
Proof.
  intros Hf k v Hk. rewrite forallb_forall in Hf. apply (Hf (k, v)).
  apply list_elem_of_In. now apply elem_of_map_to_list.
Qed.

Lemma wf_check_ok c : wf_check c = true -> wf_chip c.
Proof.
  unfold wf_check. rewrite !andb_true_iff. intros [[H1 H2] H3].
  assert (B : forall v, byte_ok v = true -> is_u8 v).
  { intros v. unfold byte_ok, is_u8. rewrite andb_true_iff, Z.leb_le, Z.ltb_lt. auto. }
  split; [| split].
  - intros k. unfold reg. rewrite lookup_total_alt. destruct (regs c !! k) eqn:E; cbn.
    + apply B. exact (map_check byte_ok _ H1 _ _ E).
    + unfold is_u8. cbn. lia.
  - intros a v E. apply B. exact (map_check byte_ok _ H2 _ _ E).
  - intros r. rewrite lookup_total_alt. destruct (phy c !! r) eqn:E; cbn.
    + pose proof (map_check (fun v => (0 <=? v) && (v <? 65536)) _ H3 _ _ E) as G.
      rewrite andb_true_iff, Z.leb_le, Z.ltb_lt in G. exact G.
    + unfold is_u16. cbn. lia.
Qed.

(** A driver holding the simulator with chip [c]. *)
Definition sim_state (c : chip) : drv sim := mk_drv (chip_bank c) (mk_sim c []).

Lemma sim_state_chip c : wf_check c = true -> is_chip c (sim_state c).
Proof. intros H. exact (conj (conj eq_refl (wf_check_ok c H)) eq_refl). Qed.

Lemma sim_state_at c K : wf_check c = true -> at_chip K (fun c' => phy c' = phy c) c ->
  at_state K (fun c' => phy c' = phy c) (sim_state c).
Proof. intros H Hc. exists c. split; [now apply sim_state_chip | exact Hc]. Qed.

(** All registers clear. *)
Definition zero_regs : gmap (Z * Z) Z :=
  list_to_map ((fun i => ((i / 32, i mod 32), 0)) <$> zrange 128).

(** Out of reset, link partner in full duplex. *)
Definition chip_reset : chip :=
  mk_chip (<[(3, ENC28_CR_EREVID) := 6]> zero_regs) ∅ 0 {[ 0 := 0x0100; 2 := 0x0083; 3 := 0x1400 ]} 0 0 [] 0 0.

(** The receive ring configured, automatic increment on, one 14-byte frame waiting at its start. *)
Definition frame1 : rx_frame :=
  mk_rx_frame 2020 0x80 0 [2; 0; 0; 0; 0; 1; 2; 0; 0; 0; 0; 2; 8; 6].

Definition chip_receiving (f : rx_frame) : chip :=
  mk_chip ({[ (0, ENC28_CR_ERXSTL) := 0xD0; (0, ENC28_CR_ERXSTH) := 0x07;
             (0, ENC28_CR_ERXNDL) := 0xFF; (0, ENC28_CR_ERXNDH) := 0x1E;
             (0, ENC28_CR_ERDPTL) := 0xD0; (0, ENC28_CR_ERDPTH) := 0x07;
             (0, ENC28_CR_ECON2) := 0x80; (0, ENC28_CR_EIR) := 0x40 ]} ∪ zero_regs)
    (list_to_map (zip ((fun i => 2000 + Z.of_nat i) <$> seq 0 40) (frame_bytes f)))
    ENC28_CONF_RX_ADDRESS_END {[ 0 := 0 ]} 0 0 [] 0 1.

Lemma frame_at_check c p f :
  forallb (fun i => bool_decide (buffer c !! ring_iter (rx_start c) (rx_end c) i p = frame_bytes f !! i))
    (seq 0 (length (frame_bytes f))) = true -> frame_at c p f.
Proof.
  intros H i x Hi. rewrite forallb_forall in H. rewrite <- Hi.
  assert (B : bool_decide (buffer c !! ring_iter (rx_start c) (rx_end c) i p = frame_bytes f !! i) = true).
  { apply H. apply in_seq. apply lookup_lt_Some in Hi. lia. }
  now apply bool_decide_eq_true in B.
Qed.

(** * The driver theorems at these chips *)

Definition mac1 : ENC28_MAC_Address := {| addr := [2; 0; 0; 0; 0; 1] |}.

Lemma some_state_at c b : wf_check c = true -> chip_bank c = b ->
  at_state (some_state b (clk_wait c) (mii_wait c)) (fun c' => phy c' = phy c) (sim_state c).
Proof.
  intros H Hb. apply sim_state_at; [exact H |]. split; [exact Hb |].
  split; [intros k v [=] | cbn; auto].
Qed.

Lemma enc28_do_init_configures_witness :
  exists s', enc28_do_init 2 mac1 (Some (context_of simulated)) (sim_state chip_reset) =
             Done ENC28_OK s' /\
             exists c, is_chip c s' /\ phy c = phy chip_reset /\ configured (addr mac1) true c.
Proof.
  destruct (enc28_do_init_configures (d := simulated) 2 mac1 (phy chip_reset) 0 0 0) with
    (s := sim_state chip_reset) as (st & s' & E & -> & H).
  - reflexivity.
  - repeat constructor; discriminate.
  - vm_compute. split; congruence.
  - lia.
  - cbn. lia.
  - apply (some_state_at chip_reset 0); vm_compute; reflexivity.
  - exists s'. split; [exact E | exact H].
Defined.

Lemma enc28_write_packet_transmits_witness :
  exists st s', enc28_write_packet (Some (context_of simulated)) (Some (fr_data frame1)) 14
                  (sim_state (chip_receiving frame1)) = Done st s'.
Proof.
  destruct (enc28_write_packet_transmits (d := simulated) (chip_receiving frame1) (fr_data frame1) 14)
    with (s := sim_state (chip_receiving frame1)) as (st & s' & E & _).
  - cbn. lia.
  - repeat constructor; discriminate.
  - reflexivity.
  - reflexivity.
  - apply sim_state_chip. vm_compute. reflexivity.
  - exists st, s'. exact E.
Defined.

Lemma receiving_queue f : frame_len f = 14 -> fr_next f = 2020 ->
  forallb (fun i => bool_decide (buffer (chip_receiving f) !!
                                   ring_iter (rx_start (chip_receiving f)) (rx_end (chip_receiving f)) i 2000
                                 = frame_bytes f !! i)) (seq 0 (length (frame_bytes f))) = true ->
  rx_queue (chip_receiving f) (read_ptr (chip_receiving f)) ring_size [f].
Proof.
  intros Hl Hn Hb. change (read_ptr (chip_receiving f)) with 2000. cbn [rx_queue].
  unfold frame_wf. rewrite Hl, Hn.
  split; [vm_compute; split; [split; discriminate | reflexivity] |].
  split; [now apply frame_at_check |]. split; [vm_compute; split; discriminate | exact I].
Qed.

Lemma receiving_ready f : rx_ready (chip_receiving f) /\ rx_settled (chip_receiving f).
Proof.
  split; [| right; reflexivity]. split; [reflexivity |]. split; [reflexivity |].
  split; [reflexivity |]. split; vm_compute; discriminate.
Qed.

(** The simulated chip shows the packet flag. *)
Lemma receiving_eir f : wf_check (chip_receiving f) = true -> exists v, Z.testbit v ENC28_EIR_PKTIF = true /\
  shows_eir simulated v (chip_receiving f) (sim_state (chip_receiving f)).
Proof.
  intros H. exists 0x40. split; [reflexivity |]. split; [now apply sim_state_chip | vm_compute; reflexivity].
Qed.

Lemma enc28_read_packet_delivers_witness :
  exists s', enc28_read_packet (Some (context_of simulated)) (Some (repeat 0 20)) 20 None
               (sim_state (chip_receiving frame1)) = Done (ENC28_OK, Some (fr_data frame1 ++ repeat 0 6), None) s'.
Proof.
  destruct (receiving_eir frame1) as (v & Hv & He); [vm_compute; reflexivity |].
  destruct (enc28_read_packet_delivers (d := simulated) (chip_receiving frame1) frame1 []
              (repeat 0 20) 20 None v) with (s := sim_state (chip_receiving frame1))
    as (r & s' & E & c' & _ & _ & H).
  - apply receiving_ready.
  - apply receiving_ready.
  - apply receiving_queue; vm_compute; reflexivity.
  - reflexivity.
  - vm_compute. split; discriminate.
  - exact He.
  - rewrite Hv in H. destruct H as (-> & _). exists s'. exact E.
Defined.

(** A frame with the received-ok bit clear. *)
Definition frame_bad : rx_frame := mk_rx_frame 2020 0x10 0 (fr_data frame1).

Lemma enc28_read_packet_rejects_witness :
  exists s', enc28_read_packet (Some (context_of simulated)) (Some (repeat 0 20)) 20 None
               (sim_state (chip_receiving frame_bad)) = Done (ENC28_PACKET_RCV_ERR, Some (repeat 0 20), None) s'.
Proof.
  destruct (receiving_eir frame_bad) as (v & Hv & He); [vm_compute; reflexivity |].
  destruct (enc28_read_packet_rejects (d := simulated) (chip_receiving frame_bad) frame_bad
              (repeat 0 20) 20 None v) with (s := sim_state (chip_receiving frame_bad))
    as (r & s' & E & c' & _ & -> & _).
  - apply receiving_ready.
  - apply (receiving_queue frame_bad); vm_compute; reflexivity.
  - apply (receiving_queue frame_bad); vm_compute; reflexivity.
  - exact Hv.
  - left. reflexivity.
  - cbn. lia.
  - exact He.
  - exists s'. exact E.
Defined.

(** What the two calls return on these chips. *)
Example read_packet_delivers_run :
  match enc28_read_packet (Some (context_of simulated)) (Some (repeat 0 20)) 20 None
          (sim_state (chip_receiving frame1)) with
  | Done (st, buf, _) s =>
    st = ENC28_OK /\ buf = Some (fr_data frame1 ++ repeat 0 6) /\
    released (sim_chip (world s)) = 1%nat /\ read_ptr (sim_chip (world s)) = 2020
  | _ => False
  end.
Proof. vm_compute. repeat split. Qed.

Example read_packet_rejects_run :
  match enc28_read_packet (Some (context_of simulated)) (Some (repeat 0 20)) 20 None
          (sim_state (chip_receiving frame_bad)) with
  | Done (st, _, _) s =>
    st = ENC28_PACKET_RCV_ERR /\ released (sim_chip (world s)) = 0%nat /\
    read_ptr (sim_chip (world s)) = 2006
  | _ => False
  end.
Proof. vm_compute. repeat split. Qed.

Lemma enc28_begin_packet_transfer_ready_witness :
  exists s', enc28_begin_packet_transfer (Some (context_of simulated))
               (sim_state (chip_receiving frame1)) = Done ENC28_OK s'.
Proof.
  destruct (enc28_begin_packet_transfer_ready (d := simulated) (chip_receiving frame1))
    with (s := sim_state (chip_receiving frame1)) as (st & s' & E & -> & _).
  - reflexivity.
  - reflexivity.
  - reflexivity.
  - apply sim_state_chip. vm_compute. reflexivity.
  - exists s'. exact E.
Defined.

Lemma enc28_end_packet_transfer_stops_witness :
  exists s', enc28_end_packet_transfer (Some (context_of simulated))
               (sim_state (chip_receiving frame1)) = Done ENC28_OK s'.
Proof.
  destruct (enc28_end_packet_transfer_stops (d := simulated) (chip_receiving frame1)
              (0, ENC28_CR_ECON2)) with (s := sim_state (chip_receiving frame1))
    as (st & s' & E & -> & _).
  - discriminate.
  - apply sim_state_chip. vm_compute. reflexivity.
  - exists s'. exact E.
Defined.

Lemma enc28_select_register_bank_selects_witness :
  exists s', enc28_select_register_bank (Some (context_of simulated)) 3
               (sim_state (chip_receiving frame1)) = Done ENC28_OK s' /\
             priv_enc28_curr_bank s' = 3.
Proof.
  destruct (enc28_select_register_bank_selects (d := simulated) (chip_receiving frame1) 3
              (0, ENC28_CR_ECON2)) with (s := sim_state (chip_receiving frame1))
    as (st & s' & E & H & _).
  - lia.
  - discriminate.
  - apply sim_state_chip. vm_compute. reflexivity.
  - destruct (H eq_refl) as (-> & c' & _ & _ & Hb & _). exists s'. auto.
Defined.

(** The simulated chip after [enc28_do_init]. *)
Definition state_configured : drv sim :=
  match enc28_do_init 2 mac1 (Some (context_of simulated)) (sim_state chip_reset) with
  | Done _ s => s
  | _ => sim_state chip_reset
  end.

Definition chip_configured : chip := sim_chip (world state_configured).

Lemma enc28_do_read_mac_roundtrip_witness :
  exists s', enc28_do_read_mac (Some (context_of simulated)) (Some {| addr := repeat 0 6 |})
               (sim_state chip_configured) = Done (ENC28_OK, Some mac1) s'.
Proof.
  destruct (enc28_do_read_mac_roundtrip (d := simulated) chip_configured (addr mac1) (repeat 0 6) true)
    with (s := sim_state chip_configured) as (r & s' & E & -> & _).
  - unfold configured. do 8 (split; [vm_compute; reflexivity |]).
    split; [discriminate |]. intros i Hi.
    do 6 (destruct i as [| i]; [vm_compute; reflexivity |]). lia.
  - reflexivity.
  - reflexivity.
  - apply sim_state_chip. vm_compute. reflexivity.
  - exists s'. exact E.
Defined.

Lemma enc28_do_read_hw_rev_reads_witness :
  exists s', enc28_do_read_hw_rev 1 (Some (context_of simulated))
               (Some {| phid1 := 0; phid2 := 0; ethrev := 0 |}) (sim_state chip_reset)
             = Done (ENC28_OK, Some {| phid1 := 0x0083; phid2 := 0x1400; ethrev := 6 |}) s'.
Proof.
  destruct (enc28_do_read_hw_rev_reads (d := simulated) 1 chip_reset
              {| phid1 := 0; phid2 := 0; ethrev := 0 |})
    with (s := sim_state chip_reset) as (r & s' & E & -> & _).
  - cbn. lia.
  - vm_compute. split; congruence.
  - vm_compute. split; congruence.
  - apply sim_state_chip. vm_compute. reflexivity.
  - exists s'. exact E.
Defined.

Lemma ctl_vec_address_correct_iff_witness :
  ctl_vec_address (0x12C .& 0xFF) (Z.shiftr 0x12C 8) <> 0x12C + 1.
Proof. rewrite ctl_vec_address_correct_iff by lia. lia. Defined.

Lemma enc28_check_outgoing_reports_witness :
  exists st s', enc28_check_outgoing_packet_status (Some (context_of simulated))
                  (sim_state (chip_receiving frame1)) = Done st s'.
Proof.
  destruct (enc28_check_outgoing_reports (d := simulated) (chip_receiving frame1))
    with (s := sim_state (chip_receiving frame1)) as (st & s' & E & _).
  - reflexivity.
  - vm_compute. split; congruence.
  - vm_compute. split; congruence.
  - apply sim_state_chip. vm_compute. reflexivity.
  - exists st, s'. exact E.
Defined.

(** The MAC control registers are written with the set-bits command, which the chip does not
    support for MAC registers. On a conforming device - the simulated one, which ignores the
    command there - [enc28_do_init] returns ENC28_OK although MACON1 and MACON3 still hold their
    reset value: neither MAC reception nor CRC generation has been enabled. *)
Theorem enc28_do_init_leaves_macon :
  exists s', enc28_do_init 2 mac1 (Some (context_of simulated)) (sim_state chip_reset) =
             Done ENC28_OK s' /\
    reg (sim_chip (world s')) (2, ENC28_CR_MACON1) = 0 /\
    reg (sim_chip (world s')) (2, ENC28_CR_MACON3) = 0.
Proof. exists state_configured. vm_compute. repeat split. Qed.
