(* ===== verification/App.v ===== *)
(** The application tasks, [stm32_app/tasks/eth_packet_task.c] and [ip_stack_task.c].

    Two tasks exchange packet buffers through three FreeRTOS queues: [free_packet_buffer_queue],
    [ready_packet_buffer_queue] and [transmit_packet_queue], each holding at most [MAX_ETH_PACKETS]
    pointers to the eight static buffers. The application is a transition system: one transition per
    queue operation, call into the driver, or call lwIP makes into the application; a blocking queue
    operation that cannot proceed has no transition. A task switch only happens where a task blocks (the
    scheduler is configured without preemption); the transitions here may be interleaved in any order, so what
    is proved of all of them holds of the program's. [WholeDeadlock], where the order matters, keeps to the
    scheduler's.

    lwIP and the driver are the environment: what they do arrives as events, of any kind and with any data.
    What a theorem relies on them for is a condition on events in its statement ([reachable]): [frees_promptly],
    that lwIP has freed its input buffer when its input function returns, and in [AppTyping] [event_typed], that
    what is passed in are bytes that fit into a buffer. The copies of the two tasks are not checked by the
    program; one that would leave its buffer is undefined in C, which [overrun] records. *)
From Stdlib Require Import ZArith Lia Bool.
From stdpp Require Import base decidable list gmap.
From S2P Require Import Prelude Enc28Regs.

Definition MAX_ETH_PACKETS : nat := 8.
Definition MAX_ETH_PACKET_SIZE : nat := 1600.

(** A packet buffer. *)
Record eth_packet_buff_t : Type := mk_buff { buf : list Z; used_bytes : Z }.

(** [memset(&eth_packets[i], 0xFF, sizeof(eth_packets[i]))] *)
Definition memset_ff : eth_packet_buff_t := mk_buff (repeat 0xFF MAX_ETH_PACKET_SIZE) 0xFFFF.

(** [used_bytes = len; memcpy(buf, data, len)] *)
Definition fill (data : list Z) (b : eth_packet_buff_t) : eth_packet_buff_t :=
  mk_buff (data ++ drop (length data) (buf b)) (Z.of_nat (length data)).

(** The packet a buffer holds. *)
Definition packet_of (b : eth_packet_buff_t) : list Z := take (Z.to_nat (used_bytes b)) (buf b).

(** The chain of segments of an outgoing lwIP [pbuf]: the payload of the first one and of the
    following ones. *)
Record pbuf : Type := mk_pbuf { payload : list Z; rest : list (list Z) }.

Definition pbuf_data (p : pbuf) : list Z := payload p ++ concat (rest p).

(** Where the packet task is. *)
Inductive packet_pc : Type :=
| PInit (i : nat)          (** in the loop that fills the free queue *)
| PRead                    (** about to call [enc28_read_packet] *)
| PGot (data : list Z)     (** waiting for a free buffer for [data] *)
| PFilled (b : nat)        (** about to queue the filled buffer *)
| PTx                      (** about to look at the transmit queue *)
| PSend (b : nat)          (** about to call [enc28_write_packet] *)
| PNotify.                 (** in [ulTaskNotifyTake] *)

(** Where the IP task is. *)
Inductive ip_pc : Type :=
| IWait                    (** waiting for a ready packet *)
| IInput                   (** in [net_ifc.input] *)
| ITimeouts.               (** in [sys_check_timeouts] *)

Record net_app : Type := mk_app {
  eth_packets : list eth_packet_buff_t;
  free_packet_buffer_queue : list nat;
  ready_packet_buffer_queue : list nat;
  transmit_packet_queue : list nat;
  packet_task : packet_pc;
  ip_task : ip_pc;
  enc28_eth_packet_ptr : nat;   (** [pbuf_cst.pbuf.enc28_eth_packet_ptr] *)
  live : nat;                   (** input buffers lwIP has not freed *)
  received : list (list Z);     (** history: packets read from the device *)
  delivered : list (list Z);    (** history: packets handed to lwIP *)
  submitted : list (list Z);    (** history: packets accepted from lwIP *)
  transmitted : list (list Z);  (** history: packets written to the device *)
  overrun : bool                (** history: a copy has left its buffer; C gives no meaning to such a run *)
}.

(** ** FreeRTOS queues of pointers *)

(** [xQueueSend]: [None] when the queue is full. *)
Definition xQueueSend (q : list nat) (x : nat) : option (list nat) :=
  if (length q <? MAX_ETH_PACKETS)%nat then Some (q ++ [x]) else None.

(** [xQueueReceive]: [None] when the queue is empty. *)
Definition xQueueReceive (q : list nat) : option (nat * list nat) :=
  match q with [] => None | x :: q' => Some (x, q') end.

Definition set_packet_task (t : packet_pc) (s : net_app) : net_app :=
  mk_app (eth_packets s) (free_packet_buffer_queue s) (ready_packet_buffer_queue s)
    (transmit_packet_queue s) t (ip_task s) (enc28_eth_packet_ptr s) (live s) (received s)
    (delivered s) (submitted s) (transmitted s) (overrun s).

Definition set_ip_task (t : ip_pc) (s : net_app) : net_app :=
  mk_app (eth_packets s) (free_packet_buffer_queue s) (ready_packet_buffer_queue s)
    (transmit_packet_queue s) (packet_task s) t (enc28_eth_packet_ptr s) (live s) (received s)
    (delivered s) (submitted s) (transmitted s) (overrun s).

Definition set_free (q : list nat) (s : net_app) : net_app :=
  mk_app (eth_packets s) q (ready_packet_buffer_queue s)
    (transmit_packet_queue s) (packet_task s) (ip_task s) (enc28_eth_packet_ptr s) (live s)
    (received s) (delivered s) (submitted s) (transmitted s) (overrun s).

Definition set_ready (q : list nat) (s : net_app) : net_app :=
  mk_app (eth_packets s) (free_packet_buffer_queue s) q
    (transmit_packet_queue s) (packet_task s) (ip_task s) (enc28_eth_packet_ptr s) (live s)
    (received s) (delivered s) (submitted s) (transmitted s) (overrun s).

Definition set_transmit (q : list nat) (s : net_app) : net_app :=
  mk_app (eth_packets s) (free_packet_buffer_queue s) (ready_packet_buffer_queue s)
    q (packet_task s) (ip_task s) (enc28_eth_packet_ptr s) (live s)
    (received s) (delivered s) (submitted s) (transmitted s) (overrun s).

Definition set_buff (i : nat) (b : eth_packet_buff_t) (s : net_app) : net_app :=
  mk_app (<[i := b]> (eth_packets s)) (free_packet_buffer_queue s) (ready_packet_buffer_queue s)
    (transmit_packet_queue s) (packet_task s) (ip_task s) (enc28_eth_packet_ptr s) (live s)
    (received s) (delivered s) (submitted s) (transmitted s) (overrun s).

Definition set_pbuf (ptr n : nat) (s : net_app) : net_app :=
  mk_app (eth_packets s) (free_packet_buffer_queue s) (ready_packet_buffer_queue s)
    (transmit_packet_queue s) (packet_task s) (ip_task s) ptr n
    (received s) (delivered s) (submitted s) (transmitted s) (overrun s).

Definition log_history (r d u t : list (list Z)) (s : net_app) : net_app :=
  mk_app (eth_packets s) (free_packet_buffer_queue s) (ready_packet_buffer_queue s)
    (transmit_packet_queue s) (packet_task s) (ip_task s) (enc28_eth_packet_ptr s) (live s)
    (received s ++ r) (delivered s ++ d) (submitted s ++ u) (transmitted s ++ t) (overrun s).

(** A [memcpy] of [n] bytes from or to a buffer of [MAX_ETH_PACKET_SIZE]. *)
Definition note_copy (n : nat) (s : net_app) : net_app :=
  mk_app (eth_packets s) (free_packet_buffer_queue s) (ready_packet_buffer_queue s)
    (transmit_packet_queue s) (packet_task s) (ip_task s) (enc28_eth_packet_ptr s) (live s)
    (received s) (delivered s) (submitted s) (transmitted s)
    (overrun s || (MAX_ETH_PACKET_SIZE <? n)%nat).

Definition buff_at (s : net_app) (i : nat) : eth_packet_buff_t := default memset_ff (eth_packets s !! i).

(** ** The packet task *)

(** An iteration of the loop that hands all buffers to the free queue. A failed [configASSERT] stops
    the system: there is no next state. *)
Definition packet_init (s : net_app) : option net_app :=
  match packet_task s with
  | PInit i =>
    if (i <? MAX_ETH_PACKETS)%nat then
      q ← xQueueSend (free_packet_buffer_queue s) i;
      Some (set_packet_task (PInit (S i)) (set_buff i memset_ff (set_free q s)))
    else Some (set_packet_task PRead s)
  | _ => None
  end.

(** [enc28_read_packet] returned [st], with the packet [data] if it succeeded. *)
Definition packet_read (st : ENC28_CommandStatus) (data : list Z) (s : net_app) : option net_app :=
  match packet_task s with
  | PRead =>
    if is_ok st then Some (set_packet_task (PGot data) (log_history [data] [] [] [] s))
    else Some (set_packet_task PTx s)
  | _ => None
  end.

(** [xQueueReceive(free_packet_buffer_queue, &free_buf, portMAX_DELAY)] and the copy, from [pkt_buf] to
    the buffer. *)
Definition packet_take_free (s : net_app) : option net_app :=
  match packet_task s with
  | PGot data =>
    ' (b, q) ← xQueueReceive (free_packet_buffer_queue s);
    Some (set_packet_task (PFilled b)
            (note_copy (length data) (set_buff b (fill data (buff_at s b)) (set_free q s))))
  | _ => None
  end.

(** [xQueueSend(ready_packet_buffer_queue, &free_buf, portMAX_DELAY)]. *)
Definition packet_push_ready (s : net_app) : option net_app :=
  match packet_task s with
  | PFilled b =>
    q ← xQueueSend (ready_packet_buffer_queue s) b;
    Some (set_packet_task PRead (set_ready q s))
  | _ => None
  end.

(** [xQueueReceive(transmit_packet_queue, &to_send, 0)]. *)
Definition packet_take_transmit (s : net_app) : option net_app :=
  match packet_task s with
  | PTx =>
    match xQueueReceive (transmit_packet_queue s) with
    | Some (b, q) => Some (set_packet_task (PSend b) (set_transmit q s))
    | None => Some (set_packet_task PNotify s)
    end
  | _ => None
  end.

(** [enc28_write_packet] returned [st]; [configASSERT(send_stat == ENC28_OK)]; the buffer goes back
    to the free queue (dropped if that is full). *)
Definition packet_write (st : ENC28_CommandStatus) (s : net_app) : option net_app :=
  match packet_task s with
  | PSend b =>
    if is_ok st then
      let s := log_history [] [] [] [packet_of (buff_at s b)] s in
      Some (set_packet_task PNotify
              (match xQueueSend (free_packet_buffer_queue s) b with
               | Some q => set_free q s
               | None => s
               end))
    else None
  | _ => None
  end.

(** [ulTaskNotifyTake] returned. *)
Definition packet_notified (s : net_app) : option net_app :=
  match packet_task s with
  | PNotify => Some (set_packet_task PRead s)
  | _ => None
  end.

(** ** The IP task *)

(** [xQueueReceive(ready_packet_buffer_queue, &ready_packet, portMAX_DELAY)], then the custom pbuf is
    set up (the same one for every packet) and lwIP's input function is called. *)
Definition ip_take_ready (s : net_app) : option net_app :=
  match ip_task s with
  | IWait =>
    ' (b, q) ← xQueueReceive (ready_packet_buffer_queue s);
    Some (set_ip_task IInput
            (log_history [] [packet_of (buff_at s b)] [] []
               (set_pbuf b (S (live s)) (set_ready q s))))
  | _ => None
  end.

(** [enc28_netif_output], called by lwIP: without a free buffer the packet is dropped. *)
Definition enc28_netif_output (p : pbuf) (s : net_app) : option net_app :=
  match xQueueReceive (free_packet_buffer_queue s) with
  | Some (b, q) =>
    let s := note_copy (length (payload p)) (set_buff b (fill (payload p) (buff_at s b)) (set_free q s)) in
    Some (match xQueueSend (transmit_packet_queue s) b with
          | Some q => log_history [] [] [payload p] [] (set_transmit q s)
          | None => s
          end)
  | None => Some s
  end.

(** [enc28_pbuf_free], called by lwIP when it is done with an input buffer. *)
Definition enc28_pbuf_free (s : net_app) : option net_app :=
  match live s with
  | O => None
  | S n =>
    q ← xQueueSend (free_packet_buffer_queue s) (enc28_eth_packet_ptr s);
    Some (set_pbuf (enc28_eth_packet_ptr s) n (set_free q s))
  end.

(** [net_ifc.input] returned ERR_OK. *)
Definition ip_input_return (s : net_app) : option net_app :=
  match ip_task s with IInput => Some (set_ip_task ITimeouts s) | _ => None end.

(** [sys_check_timeouts] returned. *)
Definition ip_timeouts_return (s : net_app) : option net_app :=
  match ip_task s with ITimeouts => Some (set_ip_task IWait s) | _ => None end.

(** lwIP only calls back while it is running. *)
Definition in_lwip (s : net_app) : bool := match ip_task s with IWait => false | _ => true end.

(** ** Transitions *)

Inductive event : Type :=
| EInit | ERead (st : ENC28_CommandStatus) (data : list Z) | ETakeFree | EPushReady | ETakeTransmit
| EWrite (st : ENC28_CommandStatus) | ENotified
| ETakeReady | EOutput (p : pbuf) | EFree | EInputReturn | ETimeoutsReturn.

Definition step (e : event) (s : net_app) : option net_app :=
  match e with
  | EInit => packet_init s
  | ERead st data => packet_read st data s
  | ETakeFree => packet_take_free s
  | EPushReady => packet_push_ready s
  | ETakeTransmit => packet_take_transmit s
  | EWrite st => packet_write st s
  | ENotified => packet_notified s
  | ETakeReady => ip_take_ready s
  | EOutput p => if in_lwip s then enc28_netif_output p s else None
  | EFree => if in_lwip s then enc28_pbuf_free s else None
  | EInputReturn => ip_input_return s
  | ETimeoutsReturn => ip_timeouts_return s
  end.

Fixpoint run (es : list event) (s : net_app) : option net_app :=
  match es with [] => Some s | e :: es' => step e s ≫= run es' end.

(** [enc28_test_app] starts the scheduler with empty queues; the buffers are zero. *)
Definition app_init : net_app :=
  mk_app (repeat (mk_buff (repeat 0 MAX_ETH_PACKET_SIZE) 0) MAX_ETH_PACKETS) [] [] [] (PInit 0) IWait
    0 0 [] [] [] [] false.

(** * The invariant *)

(** The states of the executions all of whose events meet the condition [P]. *)
Inductive reachable (P : event -> net_app -> Prop) : net_app -> Prop :=
| reach_init : reachable P app_init
| reach_step s e s' : reachable P s -> P e s -> step e s = Some s' -> reachable P s'.

Lemma reachable_weaken (P Q : event -> net_app -> Prop) s :
  (forall e s, P e s -> Q e s) -> reachable P s -> reachable Q s.
Proof. intros H. induction 1; [constructor | eapply reach_step; eauto]. Qed.

(** lwIP frees an input buffer before its input function returns. *)
Definition prompt (e : event) (s : net_app) : bool :=
  match e with EInputReturn => (live s =? 0)%nat | _ => true end.

Definition frees_promptly (e : event) (s : net_app) : Prop := prompt e s = true.

Definition packet_holds (t : packet_pc) : list nat :=
  match t with PFilled b | PSend b => [b] | _ => [] end.

Definition ip_holds (s : net_app) : list nat := if (live s =? 0)%nat then [] else [enc28_eth_packet_ptr s].

(** Where the buffers are. *)
Definition places (s : net_app) : list nat :=
  free_packet_buffer_queue s ++ ready_packet_buffer_queue s ++ transmit_packet_queue s ++
  packet_holds (packet_task s) ++ ip_holds s.

(** How many buffers have been handed out. *)
Definition handed_out (s : net_app) : nat :=
  match packet_task s with PInit i => i | _ => MAX_ETH_PACKETS end.

Definition contents (s : net_app) (l : list nat) : list (list Z) := (fun b => packet_of (buff_at s b)) <$> l.

(** Packets read but not yet in a queue. *)
Definition in_hand (s : net_app) : list (list Z) :=
  match packet_task s with PGot data => [data] | PFilled b => contents s [b] | _ => [] end.

Definition in_output (s : net_app) : list (list Z) :=
  match packet_task s with PSend b => contents s [b] | _ => [] end.

Record app_inv (s : net_app) : Prop := {
  inv_buffers : length (eth_packets s) = MAX_ETH_PACKETS;
  inv_count : (handed_out s <= MAX_ETH_PACKETS)%nat;
  inv_places : Permutation (places s) (seq 0 (handed_out s));
  inv_live : (live s <= 1)%nat /\ (live s = 1%nat -> ip_task s = IInput);
  inv_received : received s = delivered s ++ contents s (ready_packet_buffer_queue s) ++ in_hand s;
  inv_submitted : submitted s = transmitted s ++ in_output s ++ contents s (transmit_packet_queue s)
}.

(** ** Permutations of concatenations *)

Lemma Permutation_count (l l' : list nat) :
  (forall x, count_occ Nat.eq_dec l x = count_occ Nat.eq_dec l' x) -> Permutation l l'.
Proof. apply Permutation_count_occ. Qed.

Ltac perm_solve :=
  apply Permutation_count; intros ?; repeat progress (rewrite ?count_occ_app; cbn [count_occ app]);
  repeat match goal with |- context [Nat.eq_dec ?a ?b] => destruct (Nat.eq_dec a b) end; lia.

Lemma places_length s : app_inv s -> length (places s) = handed_out s.
Proof. intros H. rewrite (inv_places s H). apply length_seq. Qed.

Lemma places_nodup s : app_inv s -> NoDup (places s).
Proof. intros H. rewrite (inv_places s H). apply NoDup_seq. Qed.

Lemma places_bound s b : app_inv s -> b ∈ places s -> (b < MAX_ETH_PACKETS)%nat.
Proof.
  intros H Hb. rewrite (inv_places s H) in Hb. apply elem_of_seq in Hb.
  pose proof (inv_count s H). lia.
Qed.

(** ** Contents of buffers *)

Lemma fill_packet data b : packet_of (fill data b) = data.
Proof. unfold packet_of, fill. cbn. now rewrite Nat2Z.id, take_app_length. Qed.

Lemma contents_set_buff s i x l : i ∉ l -> contents (set_buff i x s) l = contents s l.
Proof.
  intros Hi. unfold contents, buff_at, set_buff. cbn. apply list_fmap_ext. intros j b Hj.
  rewrite list_lookup_insert_ne; [reflexivity |]. intros ->. apply Hi.
  now apply list_elem_of_lookup_2 in Hj.
Qed.

Lemma contents_same s s' l : eth_packets s' = eth_packets s -> contents s' l = contents s l.
Proof. intros E. unfold contents, buff_at. now rewrite E. Qed.

Lemma contents_filled s i data : (i < length (eth_packets s))%nat ->
  contents (set_buff i (fill data (buff_at s i)) s) [i] = [data].
Proof.
  intros Hi. unfold contents, buff_at, set_buff. cbn.
  rewrite list_lookup_insert_eq by exact Hi. cbn. now rewrite fill_packet.
Qed.

Lemma xQueueSend_Some q x : (length q < MAX_ETH_PACKETS)%nat -> xQueueSend q x = Some (q ++ [x]).
Proof. intros H. unfold xQueueSend. now apply Nat.ltb_lt in H as ->. Qed.

Lemma free_room s b : app_inv s ->
  (length (free_packet_buffer_queue s) + 1 <= length (places s ++ [b]))%nat.
Proof. intros _. unfold places. rewrite !length_app. cbn. lia. Qed.

(** A buffer held outside a list of queues is not in it. *)
Lemma not_in_rest (l1 l2 : list nat) b : NoDup (l1 ++ l2) -> b ∈ l1 -> b ∉ l2.
Proof. rewrite NoDup_app. intros (_ & H & _) Hb. exact (H b Hb). Qed.

Lemma packet_init_inv s s' : app_inv s -> packet_init s = Some s' -> app_inv s'.
Proof.
  intros H E. unfold packet_init in E. destruct (packet_task s) as [i | | | | | |] eqn:Ep; try discriminate.
  pose proof (places_length s H) as Hlen. pose proof (inv_places s H) as HP.
  destruct H as [H1 H2 H3 H4 H5 H6]. unfold handed_out, in_hand, in_output in *. rewrite Ep in *.
  destruct (Nat.ltb_spec i MAX_ETH_PACKETS) as [Hi | Hi].
  - rewrite xQueueSend_Some in E.
    2: { unfold places in Hlen. rewrite !length_app in Hlen. lia. }
    cbn in E. injection E as <-.
    assert (Hni : i ∉ places s).
    { rewrite HP. rewrite elem_of_seq. lia. }
    unfold places in Hni. rewrite !elem_of_app in Hni.
    split; unfold handed_out, in_hand, in_output, places in *; cbn in *.
    + now rewrite length_insert.
    + lia.
    + transitivity (seq 0 i ++ [i]); [| change (0%nat :: seq 1 i) with (seq 0 (S i)); now rewrite seq_S]. rewrite <- HP. rewrite Ep. cbn.
      unfold ip_holds in *. cbn. perm_solve.
    + exact H4.
    + rewrite H5. f_equal. f_equal. symmetry. apply (contents_set_buff s i); tauto.
    + rewrite H6. f_equal. symmetry. apply (contents_set_buff s i); tauto.
  - injection E as <-. assert (i = MAX_ETH_PACKETS) as -> by lia.
    split; unfold handed_out, in_hand, in_output, places in *; cbn in *; rewrite ?Ep in *; auto; lia.
Qed.

Lemma packet_read_inv st data s s' : app_inv s -> packet_read st data s = Some s' -> app_inv s'.
Proof.
  intros [H1 H2 H3 H4 H5 H6] E. unfold packet_read in E.
  destruct (packet_task s) eqn:Ep; try discriminate.
  unfold handed_out, in_hand, in_output, places in *. rewrite Ep in *.
  destruct (is_ok st); injection E as <-;
    split; unfold handed_out, in_hand, in_output, places; cbn; rewrite ?app_nil_r; auto.
  all: try exact H3.
  - now rewrite H5, app_nil_r, <- app_assoc.
  - now rewrite H5, app_nil_r.
Qed.

Lemma packet_take_free_inv s s' : app_inv s -> packet_take_free s = Some s' -> app_inv s'.
Proof.
  intros H E. unfold packet_take_free in E.
  destruct (packet_task s) as [| | data | | | |] eqn:Ep; try discriminate.
  pose proof (places_nodup s H) as HN.
  assert (HB := fun b => places_bound s b H).
  destruct H as [H1 H2 H3 H4 H5 H6].
  destruct (free_packet_buffer_queue s) as [| b q] eqn:Ef; [discriminate |].
  cbn in E. injection E as <-.
  unfold handed_out, in_hand, in_output, places in *. rewrite Ep, Ef in *.
  assert (Hb : (b < MAX_ETH_PACKETS)%nat) by (apply HB; left).
  apply (not_in_rest [b] _ b) in HN; [| left]. rewrite !elem_of_app in HN.
  split; unfold handed_out, in_hand, in_output, places; cbn.
  - now rewrite length_insert.
  - exact H2.
  - etransitivity; [| exact H3]. unfold ip_holds. cbn. perm_solve.
  - exact H4.
  - rewrite H5. f_equal. f_equal.
    + symmetry. apply (contents_set_buff s b). tauto.
    + symmetry. apply (contents_filled s b). now rewrite H1.
  - rewrite H6. f_equal. symmetry. apply (contents_set_buff s b). tauto.
Qed.

Lemma packet_push_ready_inv s s' : app_inv s -> packet_push_ready s = Some s' -> app_inv s'.
Proof.
  intros [H1 H2 H3 H4 H5 H6] E. unfold packet_push_ready in E.
  destruct (packet_task s) as [| | | b | | |] eqn:Ep; try discriminate.
  unfold xQueueSend in E. destruct (_ <? _)%nat; [| discriminate]. cbn in E. injection E as <-.
  unfold handed_out, in_hand, in_output, places in *. rewrite Ep in *.
  split; unfold handed_out, in_hand, in_output, places; cbn; auto.
  - etransitivity; [| exact H3]. unfold ip_holds. cbn. perm_solve.
  - rewrite H5, app_nil_r. f_equal. unfold contents. now rewrite fmap_app.
Qed.

Lemma packet_take_transmit_inv s s' : app_inv s -> packet_take_transmit s = Some s' -> app_inv s'.
Proof.
  intros [H1 H2 H3 H4 H5 H6] E. unfold packet_take_transmit in E.
  destruct (packet_task s) eqn:Ep; try discriminate.
  unfold handed_out, in_hand, in_output, places in *. rewrite Ep in *.
  destruct (transmit_packet_queue s) as [| b q] eqn:Et; cbn in E; injection E as <-;
    split; unfold handed_out, in_hand, in_output, places; cbn; rewrite ?Et; auto.
  etransitivity; [| exact H3]. unfold ip_holds. cbn. perm_solve.
Qed.

Lemma packet_write_inv st s s' : app_inv s -> packet_write st s = Some s' -> app_inv s'.
Proof.
  intros H E. unfold packet_write in E.
  destruct (packet_task s) as [| | | | | b |] eqn:Ep; try discriminate.
  pose proof (places_length s H) as Hlen.
  destruct H as [H1 H2 H3 H4 H5 H6]. destruct (is_ok st); [| discriminate].
  unfold handed_out, in_hand, in_output, places in *. rewrite Ep in *.
  rewrite !length_app in Hlen. cbn [packet_holds length] in Hlen.
  rewrite xQueueSend_Some in E by (cbn; lia). injection E as <-.
  split; unfold handed_out, in_hand, in_output, places; cbn; rewrite ?app_nil_r; auto.
  - etransitivity; [| exact H3]. unfold ip_holds. cbn. perm_solve.
  - now rewrite H5, app_nil_r.
  - rewrite H6. cbn. now rewrite <- app_assoc.
Qed.

Lemma packet_notified_inv s s' : app_inv s -> packet_notified s = Some s' -> app_inv s'.
Proof.
  intros [H1 H2 H3 H4 H5 H6] E. unfold packet_notified in E.
  destruct (packet_task s) eqn:Ep; try discriminate. injection E as <-.
  unfold handed_out, in_hand, in_output, places in *. rewrite Ep in *. split; auto.
Qed.

Lemma ip_take_ready_inv s s' : app_inv s -> ip_take_ready s = Some s' -> app_inv s'.
Proof.
  intros [H1 H2 H3 H4 H5 H6] E. unfold ip_take_ready in E.
  destruct (ip_task s) eqn:Ei; try discriminate.
  destruct (ready_packet_buffer_queue s) as [| b q] eqn:Er; [discriminate |].
  cbn in E. injection E as <-.
  destruct H4 as [H4 H4']. assert (El : live s = 0%nat).
  { destruct (live s) as [| [| n]]; [reflexivity | specialize (H4' eq_refl); discriminate | lia]. }
  unfold places, ip_holds in *. rewrite El, Er in *.
  split; unfold handed_out, in_hand, in_output, places, ip_holds in *; cbn; rewrite ?app_nil_r; auto.
  - etransitivity; [| exact H3]. cbn. perm_solve.
  - rewrite H5. cbn. now rewrite <- app_assoc.
Qed.

Lemma enc28_netif_output_inv p s s' : app_inv s -> enc28_netif_output p s = Some s' -> app_inv s'.
Proof.
  intros H E. unfold enc28_netif_output in E.
  pose proof (places_nodup s H) as HN. pose proof (places_length s H) as Hlen.
  assert (HB := fun b => places_bound s b H).
  destruct (free_packet_buffer_queue s) as [| b q] eqn:Ef; cbn in E; [now injection E as <- |].
  destruct H as [H1 H2 H3 H4 H5 H6]. unfold places in *. rewrite Ef in *.
  rewrite !length_app in Hlen. cbn [length] in Hlen.
  rewrite xQueueSend_Some in E by (cbn; lia). injection E as <-.
  assert (Hb : (b < MAX_ETH_PACKETS)%nat) by (apply HB; left).
  apply (not_in_rest [b] _ b) in HN; [| left]. rewrite !elem_of_app in HN.
  assert (Hother : forall l, b ∉ l -> contents (set_buff b (fill (payload p) (buff_at s b)) s) l = contents s l).
  { intros l. apply contents_set_buff. }
  unfold handed_out, in_hand, in_output in *.
  split; unfold handed_out, in_hand, in_output, places; cbn; rewrite ?app_nil_r; auto.
  - now rewrite length_insert.
  - etransitivity; [| exact H3]. unfold ip_holds. cbn. perm_solve.
  - rewrite H5. f_equal. f_equal.
    + symmetry. apply Hother. tauto.
    + destruct (packet_task s) as [| | | x | | |]; try reflexivity. symmetry.
      apply (Hother [x]). rewrite list_elem_of_singleton. intros ->. apply HN. do 3 right. left. left.
  - rewrite H6. rewrite <- !app_assoc. f_equal. f_equal.
    + destruct (packet_task s) as [| | | | | x |]; try reflexivity. symmetry.
      apply (Hother [x]). rewrite list_elem_of_singleton. intros ->. apply HN. do 3 right. left. left.
    + unfold contents. rewrite fmap_app. f_equal.
      * symmetry. apply (Hother (transmit_packet_queue s)). tauto.
      * symmetry. apply (contents_filled s b). now rewrite H1.
Qed.

Lemma enc28_pbuf_free_inv s s' : app_inv s -> enc28_pbuf_free s = Some s' -> app_inv s'.
Proof.
  intros [H1 H2 H3 H4 H5 H6] E. unfold enc28_pbuf_free in E.
  destruct (live s) as [| n] eqn:El; [discriminate |].
  unfold xQueueSend in E. destruct (_ <? _)%nat; [| discriminate]. cbn in E. injection E as <-.
  assert (n = 0%nat) as -> by lia. unfold places, ip_holds in *. rewrite El in *.
  split; unfold handed_out, in_hand, in_output, places, ip_holds in *; cbn; rewrite ?app_nil_r; auto.
  - etransitivity; [| exact H3]. cbn. perm_solve.
  - split; [lia | discriminate].
Qed.

Lemma ip_return_inv t s : app_inv s -> live s = 0%nat -> app_inv (set_ip_task t s).
Proof.
  intros [H1 H2 H3 H4 H5 H6] El. split; auto. cbn. rewrite El. split; [lia | discriminate].
Qed.

Lemma step_inv e s s' : app_inv s -> prompt e s = true -> step e s = Some s' -> app_inv s'.
Proof.
  intros H Hp E. destruct e; cbn [step] in E.
  - now apply packet_init_inv with s.
  - now apply packet_read_inv with st data s.
  - now apply packet_take_free_inv with s.
  - now apply packet_push_ready_inv with s.
  - now apply packet_take_transmit_inv with s.
  - now apply packet_write_inv with st s.
  - now apply packet_notified_inv with s.
  - now apply ip_take_ready_inv with s.
  - destruct (in_lwip s); [| discriminate]. now apply enc28_netif_output_inv with p s.
  - destruct (in_lwip s); [| discriminate]. now apply enc28_pbuf_free_inv with s.
  - unfold ip_input_return in E. destruct (ip_task s); try discriminate. injection E as <-.
    apply ip_return_inv; [exact H |]. cbn in Hp. now apply Nat.eqb_eq in Hp.
  - unfold ip_timeouts_return in E. destruct (ip_task s) eqn:Ei; try discriminate. injection E as <-.
    apply ip_return_inv; [exact H |]. destruct (inv_live s H) as [L L'].
    destruct (live s) as [| [| n]]; [reflexivity | rewrite L' in Ei by reflexivity; discriminate | lia].
Qed.

Lemma reachable_inv s : reachable frees_promptly s -> app_inv s.
Proof.
  induction 1 as [| s e s' _ IH Hp E]; [| now apply step_inv with e s].
  split; try reflexivity; cbn; try lia.
Qed.

(** * Properties of the application *)

(** C9: In every execution in which lwIP frees every input buffer before its input function returns, and until a
    copy leaves its buffer (which [buffers_well_formed] excludes), no buffer is ever lost, duplicated or
    shared: each buffer handed out is in exactly one place - one of the three queues, the hand of
    the packet task, or lwIP - so no queue overflows. *)
Theorem buffers_owned_once (s : net_app) :
  reachable frees_promptly s -> overrun s = false ->
  Permutation (places s) (seq 0 (handed_out s)) /\
  (length (free_packet_buffer_queue s) + length (ready_packet_buffer_queue s)
   + length (transmit_packet_queue s) <= MAX_ETH_PACKETS)%nat.
Proof.
  intros H _. apply reachable_inv in H. split; [apply (inv_places s H) |].
  pose proof (places_length s H) as E. pose proof (inv_count s H).
  unfold places in E. rewrite !length_app in E. lia.
Qed.

(** Packets are neither lost, reordered nor altered between the device and lwIP: in every state
    reachable under prompt freeing, until a copy leaves its buffer, the packets read from
    the device are those already handed to lwIP, followed by the contents of the ready queue, followed by the packet the packet task is
    holding; and the packets lwIP submitted are those written to the device, followed by the one
    being written, followed by the contents of the transmit queue. *)
Theorem packets_in_order (s : net_app) :
  reachable frees_promptly s -> overrun s = false ->
  received s = delivered s ++ contents s (ready_packet_buffer_queue s) ++ in_hand s /\
  submitted s = transmitted s ++ in_output s ++ contents s (transmit_packet_queue s).
Proof. intros H _. apply reachable_inv in H. destruct H; auto. Qed.

(** The steps of the packet task from where it is. *)
Definition of_pc (t : packet_pc) (e : event) : bool :=
  match t, e with
  | PInit _, EInit | PRead, ERead _ _ | PGot _, ETakeFree | PFilled _, EPushReady
  | PTx, ETakeTransmit | PSend _, EWrite _ | PNotify, ENotified => true
  | _, _ => false
  end.

(** What stops it: a packet in hand and no free buffer, or a packet [enc28_write_packet] did not send. *)
Definition stopped_at (e : event) (s : net_app) : Prop :=
  match e with
  | ETakeFree => free_packet_buffer_queue s = []
  | EWrite st => st <> ENC28_OK
  | _ => False
  end.

Lemma is_ok_true st : is_ok st = true <-> st = ENC28_OK.
Proof. destruct st; split; intros E; (reflexivity || discriminate). Qed.

Lemma packet_proceeds s e : app_inv s -> of_pc (packet_task s) e = true ->
  is_Some (step e s) <-> ~ stopped_at e s.
Proof.
  intros H He. pose proof (places_length s H) as Hlen. destruct H as [H1 H2 H3 H4 H5 H6].
  unfold handed_out, places in *. rewrite !length_app in Hlen.
  destruct (packet_task s) as [i | | data | b | | b |] eqn:Ep, e; try discriminate He;
    cbn [step packet_holds length stopped_at] in *.
  - split; [tauto | intros _]. unfold packet_init. rewrite Ep. destruct (Nat.ltb_spec i MAX_ETH_PACKETS); [| eauto].
    rewrite xQueueSend_Some by lia. cbn. eauto.
  - split; [tauto | intros _]. unfold packet_read. rewrite Ep. destruct (is_ok st); eauto.
  - unfold packet_take_free. rewrite Ep. destruct (free_packet_buffer_queue s); cbn.
    + split; [intros [? [=]] | intros N; now destruct N].
    + split; [discriminate | eauto].
  - split; [tauto | intros _]. unfold packet_push_ready. rewrite Ep, xQueueSend_Some by lia. cbn. eauto.
  - split; [tauto | intros _]. unfold packet_take_transmit. rewrite Ep. destruct (xQueueReceive _) as [[]|]; eauto.
  - unfold packet_write. rewrite Ep. pose proof (is_ok_true st) as Eo. destruct (is_ok st).
    + split; [intros _ N; now apply N, Eo | eauto].
    + split; [intros [? [=]] | intros N; destruct N; intros ->; discriminate (proj2 Eo eq_refl)].
  - split; [tauto | intros _]. unfold packet_notified. rewrite Ep. eauto.
Qed.

(** The free queue has room for the buffer lwIP holds. *)
Lemma can_free s : app_inv s -> live s <> 0%nat -> is_Some (step EFree s).
Proof.
  intros H Hl. pose proof (places_length s H) as Hlen. pose proof (inv_count s H) as H2. destruct (inv_live s H) as [H4 H4'].
  unfold places in Hlen. rewrite !length_app in Hlen. cbn [step]. unfold in_lwip. rewrite H4' by lia.
  unfold enc28_pbuf_free, ip_holds in *. destruct (live s) as [| n]; [lia |].
  cbn [Nat.eqb length] in Hlen. rewrite xQueueSend_Some; [cbn; eauto |].
  destruct (packet_task s); lia.
Qed.

(** C33: In every execution in which lwIP frees every input buffer before its input function returns, until a copy
    leaves its buffer: the next step of the packet task, whatever it is and whatever the driver returned in it, can
    be taken unless it is stopped in one of two ways - it has a packet in hand and the free queue is empty, or
    [enc28_write_packet] did not return ENC28_OK, which fails its assertion; no full queue ever stops it.
    And when lwIP holds an input buffer, it can always give it back: [enc28_pbuf_free] does not block. *)
Theorem packet_task_progress (s : net_app) :
  reachable frees_promptly s -> overrun s = false ->
  (forall e, of_pc (packet_task s) e = true -> is_Some (step e s) <-> ~ stopped_at e s) /\
  (live s <> 0%nat -> is_Some (step EFree s)).
Proof.
  intros H _. apply reachable_inv in H. split; [intros e; now apply packet_proceeds | now apply can_free].
Qed.

(** ** Where the design breaks *)

Definition fill_free : list event := repeat EInit 9.

Fixpoint prompt_run (es : list event) (s : net_app) : bool :=
  match es with
  | [] => true
  | e :: es' => prompt e s && match step e s with Some s' => prompt_run es' s' | None => true end
  end.

Lemma run_reachable es : forall s s', reachable frees_promptly s -> prompt_run es s = true -> run es s = Some s' ->
  reachable frees_promptly s'.
Proof.
  induction es as [| e es IH]; intros s s' H Hp E; cbn in *; [now injection E as <- |].
  apply andb_true_iff in Hp as [Hp1 Hp2]. destruct (step e s) as [s1 |] eqn:E1; [| discriminate].
  apply (IH s1); [now apply reach_step with s e | exact Hp2 | exact E].
Qed.

(** No task can move: the packet task waits for a free buffer, the IP task for a ready packet. *)
Definition deadlocked (s : net_app) : bool :=
  match packet_task s, ip_task s, free_packet_buffer_queue s, ready_packet_buffer_queue s with
  | PGot _, IWait, [], [] => true
  | _, _, _, _ => false
  end.

Lemma deadlocked_stuck s e : deadlocked s = true -> step e s = None.
Proof.
  unfold deadlocked. destruct (packet_task s) eqn:Ep; try discriminate.
  destruct (ip_task s) eqn:Ei; try discriminate.
  destruct (free_packet_buffer_queue s) eqn:Ef; try discriminate.
  destruct (ready_packet_buffer_queue s) eqn:Er; try discriminate. intros _.
  destruct e; cbn [step];
    unfold packet_init, packet_read, packet_take_free, packet_push_ready, packet_take_transmit,
      packet_write, packet_notified, ip_take_ready, ip_input_return, ip_timeouts_return, in_lwip;
    rewrite ?Ep, ?Ei, ?Ef, ?Er; reflexivity.
Qed.

(** Two packets, the first of which lwIP keeps beyond its input function (a fragment waiting for
    reassembly): the pbuf of the second one replaces it. *)
Definition retain_trace : list event :=
  fill_free ++
  [ERead ENC28_OK [1]; ETakeFree; EPushReady; ERead ENC28_OK [2]; ETakeFree; EPushReady;
   ETakeReady; EInputReturn; ETimeoutsReturn; ETakeReady; EFree; EFree; EInputReturn].

(** All packets share one custom pbuf, so prompt freeing is necessary: if lwIP keeps the buffer
    of one packet past its input function and frees it later, the buffer of another packet enters
    the free queue twice and the kept one is lost. *)
Theorem retained_buffer_duplicated :
  exists s, run retain_trace app_init = Some s /\
            ~ NoDup (free_packet_buffer_queue s) /\ ~ (0%nat ∈ places s) /\ handed_out s = MAX_ETH_PACKETS.
Proof.
  destruct (run retain_trace app_init) as [s |] eqn:E; [| vm_compute in E; discriminate].
  exists s. split; [reflexivity |].
  assert (Ef : free_packet_buffer_queue s = [2; 3; 4; 5; 6; 7; 1; 1]%nat)
    by (vm_compute in E; now injection E as <-).
  assert (Ep : places s = [2; 3; 4; 5; 6; 7; 1; 1]%nat)
    by (vm_compute in E; now injection E as <-).
  rewrite Ef, Ep. split; [| split].
  - apply (bool_decide_unpack (~ NoDup _)). vm_compute. exact I.
  - apply (bool_decide_unpack (~ (_ ∈ _))). vm_compute. exact I.
  - vm_compute in E. now injection E as <-.
Qed.

(** [enc28_netif_output] sends the first segment of the chain only: with a free buffer it
    queues exactly the payload of the first pbuf, which is the whole packet only if the other
    segments are empty; without one it drops the packet. In both cases lwIP is told it was sent. *)
Theorem netif_output_first_segment (s : net_app) (p : pbuf) :
  reachable frees_promptly s -> overrun s = false -> in_lwip s = true -> (length (payload p) <= MAX_ETH_PACKET_SIZE)%nat ->
  exists s', step (EOutput p) s = Some s' /\
    (if decide (free_packet_buffer_queue s = []) then s' = s
     else submitted s' = submitted s ++ [payload p] /\
          (submitted s' = submitted s ++ [pbuf_data p] <-> concat (rest p) = [])).
Proof.
  intros Hr _ Hin Hlen. apply reachable_inv in Hr. pose proof (places_length s Hr) as E.
  pose proof (inv_count s Hr). unfold places in E. rewrite !length_app in E.
  cbn [step]. rewrite Hin. unfold enc28_netif_output.
  destruct (free_packet_buffer_queue s) as [| b q] eqn:Ef; cbn [xQueueReceive].
  - exists s. split; [reflexivity |]. now rewrite decide_True.
  - cbn [length] in E. rewrite xQueueSend_Some by (cbn; lia).
    eexists. split; [reflexivity |]. rewrite decide_False by discriminate. cbn.
    split; [reflexivity |]. unfold pbuf_data. split.
    + intros H1. apply app_inv_head in H1. injection H1 as H1.
      rewrite <- (app_nil_r (payload p)) in H1 at 1. now apply app_inv_head in H1.
    + intros ->. now rewrite app_nil_r.
Qed.

(** ** Instances *)

(** A run through every kind of step: a packet received and handed to lwIP, which answers it and frees
    the buffer; the answer is sent. *)
Definition answer_trace : list event :=
  fill_free ++ [ERead ENC28_OK [1; 2]; ETakeFree; EPushReady; ERead ENC28_NO_DATA []; ETakeReady].

Definition answered_trace : list event :=
  answer_trace ++ [EOutput (mk_pbuf [3] [[4]]); EFree; EInputReturn; ETimeoutsReturn; ETakeTransmit].

Definition state_after (es : list event) : net_app := default app_init (run es app_init).

Lemma state_after_reachable es : prompt_run es app_init = true -> is_Some (run es app_init) ->
  reachable frees_promptly (state_after es).
Proof.
  intros Hp [s E]. unfold state_after. rewrite E. exact (run_reachable es app_init s (reach_init _) Hp E).
Qed.

Ltac reach := apply state_after_reachable; [vm_compute; reflexivity | vm_compute; eauto].

Lemma buffers_owned_once_witness :
  Permutation (places (state_after answered_trace)) [0; 1; 2; 3; 4; 5; 6; 7]%nat /\
  packet_task (state_after answered_trace) = PSend 1.
Proof.
  assert (R : reachable frees_promptly (state_after answered_trace)) by reach.
  split; [exact (proj1 (buffers_owned_once _ R ltac:(vm_compute; reflexivity))) | vm_compute; reflexivity].
Defined.

Lemma packets_in_order_witness :
  received (state_after answered_trace) = [[1; 2]] /\ submitted (state_after answered_trace) = [[3]] /\
  [[3]] = transmitted (state_after answered_trace) ++ in_output (state_after answered_trace) ++
          contents (state_after answered_trace) (transmit_packet_queue (state_after answered_trace)).
Proof.
  assert (R : reachable frees_promptly (state_after answered_trace)) by reach.
  split; [vm_compute; reflexivity |]. split; [vm_compute; reflexivity |].
  transitivity (submitted (state_after answered_trace)); [vm_compute; reflexivity |].
  exact (proj2 (packets_in_order _ R ltac:(vm_compute; reflexivity))).
Defined.

Lemma packet_task_progress_witness :
  is_Some (step (EWrite ENC28_OK) (state_after answered_trace)) /\
  step (EWrite ENC28_PACKET_TX_IN_PROGRESS) (state_after answered_trace) = None /\
  live (state_after answer_trace) = 1%nat /\ is_Some (step EFree (state_after answer_trace)).
Proof.
  assert (R : reachable frees_promptly (state_after answered_trace)) by reach.
  assert (R' : reachable frees_promptly (state_after answer_trace)) by reach.
  destruct (packet_task_progress _ R ltac:(vm_compute; reflexivity)) as [P _].
  split; [| split; [| split; [vm_compute; reflexivity |]]].
  - apply (P (EWrite ENC28_OK)); [vm_compute; reflexivity | cbn; tauto].
  - apply eq_None_not_Some. intros N. apply (P (EWrite ENC28_PACKET_TX_IN_PROGRESS)) in N; [| vm_compute; reflexivity].
    apply N. discriminate.
  - apply (proj2 (packet_task_progress _ R' ltac:(vm_compute; reflexivity))). vm_compute. discriminate.
Defined.

Lemma netif_output_first_segment_witness :
  exists s', step (EOutput (mk_pbuf [3] [[4]])) (state_after answer_trace) = Some s' /\
    submitted s' = [[3]].
Proof.
  assert (R : reachable frees_promptly (state_after answer_trace)) by reach.
  destruct (netif_output_first_segment _ (mk_pbuf [3] [[4]]) R ltac:(vm_compute; reflexivity) ltac:(vm_compute; reflexivity)
              ltac:(cbn; unfold MAX_ETH_PACKET_SIZE; lia)) as (s' & E & H).
  exists s'. split; [exact E |]. rewrite decide_False in H by (vm_compute; discriminate).
  rewrite (proj1 H). vm_compute. reflexivity.
Defined.
