(* ===== verification/AppTyping.v ===== *)
(** The packet buffers stay well formed: the sizes and bytes every copy in the two tasks relies on.

    [packet_handling_task], [enc28_netif_output] and [enc28_write_packet] copy [used_bytes] bytes from and
    to buffers of [MAX_ETH_PACKET_SIZE] bytes without checking. The invariant here is why that is in
    bounds: it is a typing of the application state that every event preserves. *)
From Stdlib Require Import ZArith Lia Bool.
From stdpp Require Import base decidable list gmap.
From S2P Require Import Prelude Enc28Regs App.

(** A buffer of the right size holding bytes. *)
Record buff_ok (b : eth_packet_buff_t) : Prop := {
  ok_size : length (buf b) = MAX_ETH_PACKET_SIZE;
  ok_bytes : Forall is_u8 (buf b);
  ok_used : is_u16 (used_bytes b)
}.

(** A packet that fits into a buffer. *)
Definition packet_ok (data : list Z) : Prop := (length data <= MAX_ETH_PACKET_SIZE)%nat /\ Forall is_u8 data.

(** The used part lies inside the buffer. *)
Definition in_bounds (s : net_app) (i : nat) : Prop := used_bytes (buff_at s i) <= Z.of_nat MAX_ETH_PACKET_SIZE.

(** The buffers that hold a packet. *)
Definition carriers (s : net_app) : list nat :=
  ready_packet_buffer_queue s ++ transmit_packet_queue s ++ packet_holds (packet_task s).

Record app_typed (s : net_app) : Prop := {
  typed_copies : overrun s = false;
  typed_buffers : Forall buff_ok (eth_packets s);
  typed_carriers : Forall (in_bounds s) (carriers s);
  typed_in_hand : forall data, packet_task s = PGot data -> packet_ok data
}.

(** What the driver and lwIP pass in are bytes, no more than a buffer holds. *)
Definition event_typed (e : event) : Prop :=
  match e with
  | ERead st data => st = ENC28_OK -> packet_ok data
  | EOutput p => packet_ok (payload p)
  | _ => True
  end.

Lemma buff_ok_memset : buff_ok memset_ff.
Proof.
  constructor; cbn [buf used_bytes memset_ff].
  - apply repeat_length.
  - apply Forall_forall. intros x Hx. apply list_elem_of_In, repeat_spec in Hx. subst. unfold is_u8. lia.
  - unfold is_u16. lia.
Qed.

Lemma buff_ok_fill data b : packet_ok data -> buff_ok b -> buff_ok (fill data b).
Proof.
  intros [Hl Hd] [H1 H2 H3]. unfold fill. constructor; cbn [buf used_bytes].
  - rewrite length_app, length_drop. lia.
  - apply Forall_app. split; [exact Hd | now apply Forall_drop].
  - unfold is_u16, MAX_ETH_PACKET_SIZE in *. lia.
Qed.

Lemma buff_at_ok s i : Forall buff_ok (eth_packets s) -> buff_ok (buff_at s i).
Proof.
  intros H. unfold buff_at. destruct (eth_packets s !! i) eqn:E; [| apply buff_ok_memset].
  rewrite Forall_forall in H. apply H. now apply list_elem_of_lookup_2 in E.
Qed.

Lemma buff_at_set s i j b : buff_at (set_buff i b s) j = b /\ i = j \/ buff_at (set_buff i b s) j = buff_at s j.
Proof.
  unfold buff_at, set_buff. cbn. destruct (decide (i = j)) as [<- | N].
  - destruct (decide (i < length (eth_packets s))%nat).
    + left. now rewrite list_lookup_insert_eq.
    + right. now rewrite list_insert_ge by lia.
  - right. now rewrite list_lookup_insert_ne.
Qed.

(** Storing a packet in any buffer keeps all carriers in bounds. *)
Lemma in_bounds_fill s i data b j : packet_ok data -> in_bounds s j -> in_bounds (set_buff i (fill data b) s) j.
Proof.
  intros [Hl _] H. unfold in_bounds in *. destruct (buff_at_set s i j (fill data b)) as [[-> _] | ->]; [cbn; lia | exact H].
Qed.

Lemma in_bounds_filled s i data b : (i < length (eth_packets s))%nat -> packet_ok data ->
  in_bounds (set_buff i (fill data b) s) i.
Proof.
  intros Hi [Hl _]. unfold in_bounds, buff_at, set_buff. cbn. rewrite list_lookup_insert_eq by exact Hi. cbn. lia.
Qed.

Lemma Forall_set_buff s i b : Forall buff_ok (eth_packets s) -> buff_ok b ->
  Forall buff_ok (<[i := b]> (eth_packets s)).
Proof. intros H Hb. now apply Forall_insert. Qed.

(** Events that only move buffers between places keep the typing when the carriers come from carriers. *)
Lemma typed_moved s s' : app_typed s -> eth_packets s' = eth_packets s -> overrun s' = overrun s ->
  (forall i, i ∈ carriers s' -> i ∈ carriers s) ->
  (forall data, packet_task s' = PGot data -> packet_ok data) -> app_typed s'.
Proof.
  intros [H0 H1 H2 H3] E Eo Hc Hg. constructor; [congruence | now rewrite E | | exact Hg].
  rewrite Forall_forall in *. intros i Hi. unfold in_bounds, buff_at in *. rewrite E. auto.
Qed.

(** Events that store a packet in a buffer, which may then become a carrier. *)
Lemma typed_stored s s' i data b : app_typed s -> buff_ok b -> packet_ok data -> (i < length (eth_packets s))%nat ->
  eth_packets s' = eth_packets (set_buff i (fill data b) s) -> overrun s' = overrun (note_copy (length data) s) ->
  (forall j, j ∈ carriers s' -> j = i \/ j ∈ carriers s) ->
  (forall data, packet_task s' = PGot data -> packet_ok data) -> app_typed s'.
Proof.
  intros [H0 H1 H2 H3] Hb Hd Hi E Eo Hc Hg. constructor; [| | | exact Hg].
  - rewrite Eo. cbn [overrun note_copy]. rewrite H0. apply Nat.ltb_ge, Hd.
  - rewrite E. apply Forall_set_buff; [exact H1 | now apply buff_ok_fill].
  - rewrite Forall_forall in *. intros j Hj.
    assert (G : in_bounds (set_buff i (fill data b) s) j).
    { destruct (Hc j Hj) as [-> | Hj']; [now apply in_bounds_filled | apply in_bounds_fill; auto]. }
    unfold in_bounds, buff_at in *. now rewrite E.
Qed.

#[local] Ltac members := intros ?; unfold carriers; cbn;
  repeat match goal with H : transmit_packet_queue _ = _ |- _ => rewrite H end;
  repeat first [rewrite elem_of_app | rewrite elem_of_cons | rewrite elem_of_nil]; tauto.

(** A buffer in one of the places can be indexed. *)
Lemma place_index s i : app_inv s -> i ∈ places s -> (i < length (eth_packets s))%nat.
Proof. intros H Hi. rewrite (inv_buffers s H). now apply places_bound with s. Qed.

Lemma xQueueSend_inv q x q' : xQueueSend q x = Some q' -> q' = q ++ [x].
Proof. unfold xQueueSend. destruct (_ <? _)%nat; congruence. Qed.

Lemma packet_init_typed s s' : app_inv s -> app_typed s -> packet_init s = Some s' -> app_typed s'.
Proof.
  intros Hi Ht E. unfold packet_init in E. destruct (packet_task s) as [i | | | | | |] eqn:Ep; try discriminate.
  destruct (i <? MAX_ETH_PACKETS)%nat; [| injection E as <-].
  - destruct (xQueueSend _ _) as [q |]; [| discriminate]. cbn in E. injection E as <-.
    destruct Ht as [H0 H1 H2 H3]. constructor; [exact H0 | | | discriminate].
    + apply Forall_set_buff; [exact H1 | apply buff_ok_memset].
    + assert (Hni : i ∉ places s).
      { rewrite (inv_places s Hi), elem_of_seq. unfold handed_out. rewrite Ep. lia. }
      rewrite Forall_forall in *. intros j Hj. unfold carriers in *. cbn in Hj. rewrite Ep in H2. cbn in H2.
      assert (N : i <> j).
      { intros ->. apply Hni. unfold places. rewrite Ep. rewrite !elem_of_app in *. tauto. }
      specialize (H2 j Hj). unfold in_bounds in *.
      change (buff_at _ j) with (buff_at (set_buff i memset_ff s) j).
      destruct (buff_at_set s i j memset_ff) as [[_ ->] | ->]; [congruence | exact H2].
  - apply typed_moved with s; auto; [| discriminate]. unfold carriers. cbn. rewrite Ep. cbn. auto.
Qed.

Lemma packet_read_typed st data s s' : app_typed s -> (st = ENC28_OK -> packet_ok data) ->
  packet_read st data s = Some s' -> app_typed s'.
Proof.
  intros Ht Hd E. unfold packet_read in E. destruct (packet_task s) eqn:Ep; try discriminate.
  pose proof (proj1 (is_ok_true st)) as Eo. destruct (is_ok st); injection E as <-.
  all: apply typed_moved with s; auto; unfold carriers; cbn; rewrite ?Ep; auto; try discriminate.
  intros data' [= <-]. auto.
Qed.

Lemma packet_take_free_typed s s' : app_inv s -> app_typed s -> packet_take_free s = Some s' -> app_typed s'.
Proof.
  intros Hi Ht E. unfold packet_take_free in E. destruct (packet_task s) as [| | data | | | |] eqn:Ep; try discriminate.
  destruct (free_packet_buffer_queue s) as [| b q] eqn:Ef; [discriminate |]. cbn in E. injection E as <-.
  apply (typed_stored s _ b data (buff_at s b)); auto.
  - apply buff_at_ok, (typed_buffers s Ht).
  - now apply (typed_in_hand s Ht).
  - apply place_index; [exact Hi |]. unfold places. rewrite Ef. left.
  - members.
  - discriminate.
Qed.

Lemma packet_push_ready_typed s s' : app_typed s -> packet_push_ready s = Some s' -> app_typed s'.
Proof.
  intros Ht E. unfold packet_push_ready in E. destruct (packet_task s) as [| | | b | | |] eqn:Ep; try discriminate.
  destruct (xQueueSend _ _) as [q |] eqn:Eq; [| discriminate]. apply xQueueSend_inv in Eq as ->. cbn in E. injection E as <-.
  apply typed_moved with s; auto; [| discriminate].
  unfold carriers. rewrite Ep. members.
Qed.

Lemma packet_take_transmit_typed s s' : app_typed s -> packet_take_transmit s = Some s' -> app_typed s'.
Proof.
  intros Ht E. unfold packet_take_transmit in E. destruct (packet_task s) eqn:Ep; try discriminate.
  destruct (transmit_packet_queue s) as [| b q] eqn:Et; cbn in E; injection E as <-;
    (apply typed_moved with s; auto; [| discriminate]); unfold carriers; rewrite Ep, Et; members.
Qed.

Lemma packet_write_typed st s s' : app_typed s -> packet_write st s = Some s' -> app_typed s'.
Proof.
  intros Ht E. unfold packet_write in E. destruct (packet_task s) as [| | | | | b |] eqn:Ep; try discriminate.
  destruct (is_ok st); [| discriminate]. injection E as <-. destruct (xQueueSend _ _) as [q |].
  all: apply typed_moved with s; auto; [| discriminate]; unfold carriers; rewrite Ep; members.
Qed.

Lemma ip_take_ready_typed s s' : app_typed s -> ip_take_ready s = Some s' -> app_typed s'.
Proof.
  intros Ht E. unfold ip_take_ready in E. destruct (ip_task s); try discriminate.
  destruct (ready_packet_buffer_queue s) as [| b q] eqn:Er; [discriminate |]. cbn in E. injection E as <-.
  apply typed_moved with s; auto; [| exact (typed_in_hand s Ht)]. unfold carriers. rewrite Er. members.
Qed.

Lemma enc28_netif_output_typed p s s' : app_inv s -> app_typed s -> packet_ok (payload p) ->
  enc28_netif_output p s = Some s' -> app_typed s'.
Proof.
  intros Hi Ht Hp E. unfold enc28_netif_output in E.
  destruct (free_packet_buffer_queue s) as [| b q] eqn:Ef; cbn [xQueueReceive] in E; [now injection E as <- |].
  assert (Hb : (b < length (eth_packets s))%nat).
  { apply place_index; [exact Hi |]. unfold places. rewrite Ef. left. }
  injection E as <-. apply (typed_stored s _ b (payload p) (buff_at s b)); auto.
  - apply buff_at_ok, (typed_buffers s Ht).
  - now destruct (xQueueSend _ _).
  - now destruct (xQueueSend _ _).
  - destruct (xQueueSend _ _) as [q' |] eqn:Eq; [apply xQueueSend_inv in Eq as -> |]; members.
  - destruct (xQueueSend _ _); exact (typed_in_hand s Ht).
Qed.

Lemma step_typed e s s' : app_inv s -> app_typed s -> event_typed e -> step e s = Some s' -> app_typed s'.
Proof.
  intros Hi Ht He E. destruct e; cbn [step event_typed] in *.
  - now apply packet_init_typed with s.
  - now apply packet_read_typed with st data s.
  - now apply packet_take_free_typed with s.
  - now apply packet_push_ready_typed with s.
  - now apply packet_take_transmit_typed with s.
  - now apply packet_write_typed with st s.
  - unfold packet_notified in E. destruct (packet_task s) eqn:Ep; try discriminate. injection E as <-.
    apply typed_moved with s; auto; [| discriminate]. unfold carriers. rewrite Ep. members.
  - now apply ip_take_ready_typed with s.
  - destruct (in_lwip s); [| discriminate]. now apply enc28_netif_output_typed with p s.
  - destruct (in_lwip s); [| discriminate]. unfold enc28_pbuf_free in E. destruct (live s); [discriminate |].
    destruct (xQueueSend _ _); [| discriminate]. cbn in E. injection E as <-.
    apply typed_moved with s; auto. exact (typed_in_hand s Ht).
  - unfold ip_input_return in E. destruct (ip_task s); try discriminate. injection E as <-.
    apply typed_moved with s; auto. exact (typed_in_hand s Ht).
  - unfold ip_timeouts_return in E. destruct (ip_task s); try discriminate. injection E as <-.
    apply typed_moved with s; auto. exact (typed_in_hand s Ht).
Qed.

Lemma app_init_typed : app_typed app_init.
Proof.
  constructor; [reflexivity | | constructor | discriminate]. apply Forall_forall. intros b Hb.
  apply list_elem_of_In, repeat_spec in Hb. subst b. constructor; cbn [buf used_bytes].
  - apply repeat_length.
  - apply Forall_forall. intros x Hx. apply list_elem_of_In, repeat_spec in Hx. subst. unfold is_u8. lia.
  - unfold is_u16. lia.
Qed.

Lemma reachable_typed s : reachable (fun e s => frees_promptly e s /\ event_typed e) s -> app_inv s /\ app_typed s.
Proof.
  induction 1 as [| s e s' _ [IH1 IH2] [Hp He] E]; [split; [apply reachable_inv; constructor | apply app_init_typed] |].
  split; [now apply step_inv with e s | now apply step_typed with e s].
Qed.

(** C38: Well-formedness of the buffers: in every execution in which lwIP frees every input buffer before its input
    function returns, and in which what the driver reports as read and what lwIP hands over are at most
    [MAX_ETH_PACKET_SIZE] bytes, no copy of the two tasks has left its buffer; each of the eight buffers has
    exactly [MAX_ETH_PACKET_SIZE] elements, all of them bytes, and its [used_bytes] fits 16 bits; and every buffer
    in the ready queue, the transmit queue or the hand of the packet task, and a packet read but not yet
    stored, uses at most [MAX_ETH_PACKET_SIZE] bytes, so that the next copy and the next transmission stay inside too. *)
Theorem buffers_well_formed (s : net_app) :
  reachable (fun e s => frees_promptly e s /\ event_typed e) s ->
  overrun s = false /\
  length (eth_packets s) = MAX_ETH_PACKETS /\ Forall buff_ok (eth_packets s) /\
  Forall (in_bounds s) (ready_packet_buffer_queue s ++ transmit_packet_queue s ++ packet_holds (packet_task s)) /\
  (forall data, packet_task s = PGot data -> packet_ok data).
Proof.
  intros H. apply reachable_typed in H as [Hi [H0 H1 H2 H3]]. split; [exact H0 | split; [apply Hi |]]. auto.
Qed.

Definition packet_ok_b (l : list Z) : bool :=
  (length l <=? MAX_ETH_PACKET_SIZE)%nat && forallb (fun x => (0 <=? x) && (x <? 256)) l.

Definition typed_event_b (e : event) : bool :=
  match e with
  | ERead st data => negb (is_ok st) || packet_ok_b data
  | EOutput p => packet_ok_b (payload p)
  | _ => true
  end.

Lemma bytes_check l : forallb (fun x => (0 <=? x) && (x <? 256)) l = true -> Forall is_u8 l.
Proof.
  rewrite forallb_forall, Forall_forall. intros H x Hx. apply list_elem_of_In, H in Hx. unfold is_u8. lia.
Qed.

Lemma packet_check l : packet_ok_b l = true -> packet_ok l.
Proof.
  unfold packet_ok_b. intros [H1 H2]%andb_true_iff. split; [now apply Nat.leb_le | now apply bytes_check].
Qed.

Lemma typed_check e : typed_event_b e = true -> event_typed e.
Proof.
  destruct e; cbn; auto using packet_check. intros H ->. now apply packet_check.
Qed.

#[local] Abbreviation typed_reachable := (reachable (fun e s => frees_promptly e s /\ event_typed e)).

Lemma run_typed es : forall s s', typed_reachable s -> prompt_run es s = true -> forallb typed_event_b es = true ->
  run es s = Some s' -> typed_reachable s'.
Proof.
  induction es as [| e es IH]; intros s s' H Hp Ht E; cbn in *; [now injection E as <- |].
  apply andb_true_iff in Hp as [Hp1 Hp2]. apply andb_true_iff in Ht as [Ht1 Ht2].
  destruct (step e s) as [s1 |] eqn:E1; [| discriminate].
  apply (IH s1); auto. apply reach_step with s e; auto. split; [exact Hp1 | now apply typed_check].
Qed.

Lemma buffers_well_formed_witness :
  packet_task (state_after answered_trace) = PSend 1 /\ in_bounds (state_after answered_trace) 1.
Proof.
  assert (R : typed_reachable (state_after answered_trace)).
  { unfold state_after. destruct (run answered_trace app_init) as [s |] eqn:E.
    - apply (run_typed answered_trace app_init); [constructor | vm_compute; reflexivity | vm_compute; reflexivity | exact E].
    - constructor. }
  assert (Ep : packet_task (state_after answered_trace) = PSend 1) by (vm_compute; reflexivity).
  split; [exact Ep |]. destruct (buffers_well_formed _ R) as (_ & _ & _ & H & _). rewrite Ep in H.
  rewrite !Forall_app in H. destruct H as (_ & _ & H). now apply Forall_cons in H as [H _].
Defined.
