(* ===== verification/LwipChksum.v ===== *)
(** Internet checksums: [lwip-2.2.0/src/core/inet_chksum.c] and [def.c]'s byte-order conversions.

    A buffer is its list of bytes together with the address of the first one, since the faster
    variants look at the alignment. The target is little-endian. The three variants of
    [lwip_standard_chksum] are proved to compute the same function, the one's complement sum of RFC
    1071; everything above them is stated in terms of that sum. *)
From Stdlib Require Import ZArith Lia Bool Setoid Morphisms.
From stdpp Require Import base decidable list.
From S2P Require Import Prelude.

(** * Byte order *)

Definition PP_HTONS (x : Z) : Z :=
  u16 (Z.shiftl (x .& 0x00ff) 8 .| Z.shiftr (x .& 0xff00) 8).

Definition PP_HTONL (x : Z) : Z :=
  u32 (Z.shiftl (x .& 0x000000ff) 24 .| Z.shiftl (x .& 0x0000ff00) 8
       .| Z.shiftr (x .& 0x00ff0000) 8 .| Z.shiftr (x .& 0xff000000) 24).

Definition lwip_htons (n : Z) : Z := PP_HTONS n.
Definition lwip_htonl (n : Z) : Z := PP_HTONL n.

(** * The checksum routines *)

Definition SWAP_BYTES_IN_WORD (w : Z) : Z := Z.shiftl (w .& 0xff) 8 .| Z.shiftr (w .& 0xff00) 8.
Definition FOLD_U32T (u : Z) : Z := u32 (Z.shiftr u 16 + (u .& 0x0000ffff)).

(** ** Version 1 *)

Fixpoint chksum1_loop (data : list Z) (acc : Z) : Z :=
  match data with
  | a :: b :: data' => chksum1_loop data' (u32 (acc + u16 (u16 (Z.shiftl a 8) .| b)))
  | [a] => u32 (acc + u16 (Z.shiftl a 8))
  | [] => acc
  end.

Definition lwip_standard_chksum_1 (data : list Z) : Z :=
  let acc := chksum1_loop data 0 in
  let acc := u32 (Z.shiftr acc 16 + (acc .& 0x0000ffff)) in
  let acc := if negb (acc .& 0xffff0000 =? 0)
             then u32 (Z.shiftr acc 16 + (acc .& 0x0000ffff)) else acc in
  lwip_htons (u16 acc).

(** ** Version 2, the default *)

(** The 16-bit word at the head of a buffer, as a little-endian machine reads it. *)
Definition le16 (a b : Z) : Z := a .| Z.shiftl b 8.

(** The bulk of the data: the sum and the bytes left over. *)
Fixpoint chksum2_loop (data : list Z) (sum : Z) : Z * list Z :=
  match data with
  | a :: b :: data' => chksum2_loop data' (u32 (sum + le16 a b))
  | _ => (sum, data)
  end.

(** [((u8_t * )&t)[1] = b] and [((u8_t * )&t)[0] = b] *)
Definition set_hi (t b : Z) : Z := (t .& 0x00ff) .| Z.shiftl b 8.
Definition set_lo (t b : Z) : Z := (t .& 0xff00) .| b.

Definition chksum_tail (t : Z) (rest : list Z) : Z :=
  match rest with b :: _ => set_lo t b | [] => t end.

Definition chksum_finish (odd : bool) (sum : Z) : Z :=
  let sum := FOLD_U32T (FOLD_U32T sum) in
  let sum := if odd then SWAP_BYTES_IN_WORD sum else sum in
  u16 sum.

Definition lwip_standard_chksum_2 (addr : Z) (data : list Z) : Z :=
  let odd := truth (addr .& 1) in
  let '(t, data) :=
    match data with
    | b :: data' => if odd then (set_hi 0 b, data') else (0, data)
    | [] => (0, data)
    end in
  let '(sum, rest) := chksum2_loop data 0 in
  let t := chksum_tail t rest in
  chksum_finish odd (u32 (sum + t)).

(** ** Version 3 *)

Definition le32 (a b c d : Z) : Z := le16 a b .| Z.shiftl (le16 c d) 16.

(** 32-bit words, two at a time, with the carry added back. *)
Fixpoint chksum3_loop (data : list Z) (sum : Z) : Z * list Z :=
  match data with
  | a :: b :: c :: d :: e :: f :: g :: h :: data' =>
    let tmp := u32 (sum + le32 a b c d) in
    let tmp := if tmp <? sum then u32 (tmp + 1) else tmp in
    let sum := u32 (tmp + le32 e f g h) in
    let sum := if sum <? tmp then u32 (sum + 1) else sum in
    chksum3_loop data' sum
  | _ => (sum, data)
  end.

Definition lwip_standard_chksum_3 (addr : Z) (data : list Z) : Z :=
  let odd := truth (addr .& 1) in
  let '(t, addr, data) :=
    match data with
    | b :: data' => if odd then (set_hi 0 b, addr + 1, data') else (0, addr, data)
    | [] => (0, addr, data)
    end in
  let '(sum, data) :=
    match data with
    | a :: b :: data' => if truth (addr .& 3) then (u32 (0 + le16 a b), data') else (0, data)
    | _ => (0, data)
    end in
  let '(sum, data) := chksum3_loop data sum in
  let sum := FOLD_U32T sum in
  let '(sum, rest) := chksum2_loop data sum in
  let t := chksum_tail t rest in
  chksum_finish odd (u32 (sum + t)).

(** ** Checksums of buffers and of chains *)

(** A buffer of a chain: its address and its bytes. *)
Definition segment : Type := Z * list Z.

(** [LWIP_CHKSUM] is [lwip_standard_chksum]. *)
Definition LWIP_CHKSUM (s : segment) : Z := lwip_standard_chksum_2 s.1 s.2.

(** [(u16_t)~x] *)
Definition not16 (x : Z) : Z := u16 (Z.lnot x).

Definition inet_chksum (s : segment) : Z := not16 (LWIP_CHKSUM s).

(** The loop over a chain; [swapped] tells whether an odd number of bytes was seen. *)
Fixpoint chain_loop (p : list segment) (acc : Z) (swapped : bool) : Z * bool :=
  match p with
  | [] => (acc, swapped)
  | q :: p' =>
    let acc := FOLD_U32T (u32 (acc + LWIP_CHKSUM q)) in
    if truth (Z.of_nat (length q.2) mod 2)
    then chain_loop p' (SWAP_BYTES_IN_WORD acc) (negb swapped)
    else chain_loop p' acc swapped
  end.

Definition chain_sum (p : list segment) (acc : Z) : Z :=
  let '(acc, swapped) := chain_loop p acc false in
  if swapped then SWAP_BYTES_IN_WORD acc else acc.

Definition inet_chksum_pbuf (p : list segment) : Z := not16 (chain_sum p 0 .& 0xffff).

Definition inet_cksum_pseudo_base (p : list segment) (proto proto_len acc : Z) : Z :=
  let acc := chain_sum p acc in
  let acc := u32 (acc + lwip_htons (u16 proto)) in
  let acc := u32 (acc + lwip_htons proto_len) in
  let acc := FOLD_U32T (FOLD_U32T acc) in
  not16 (acc .& 0xffff).

Definition inet_chksum_pseudo (p : list segment) (proto proto_len src dest : Z) : Z :=
  let acc := src .& 0xffff in
  let acc := u32 (acc + (Z.shiftr src 16 .& 0xffff)) in
  let acc := u32 (acc + (dest .& 0xffff)) in
  let acc := u32 (acc + (Z.shiftr dest 16 .& 0xffff)) in
  let acc := FOLD_U32T (FOLD_U32T acc) in
  inet_cksum_pseudo_base p proto proto_len acc.

(** [lwip_chksum_copy]: the destination and the checksum of the bytes copied. *)
Definition lwip_chksum_copy (dst : Z) (src : list Z) : list Z * Z := (src, LWIP_CHKSUM (dst, src)).

(** * One's complement arithmetic *)

(** The sum of the 16-bit words of a byte string, as a little-endian and as a big-endian machine
    reads them; a last odd byte is padded with zero. *)
Fixpoint le_sum (data : list Z) : Z :=
  match data with
  | a :: b :: data' => a + 256 * b + le_sum data'
  | [a] => a
  | [] => 0
  end.

Fixpoint be_sum (data : list Z) : Z :=
  match data with
  | a :: b :: data' => 256 * a + b + be_sum data'
  | [a] => 256 * a
  | [] => 0
  end.

(** The 16-bit one's complement representation of a sum: zero only for zero. *)
Definition ones (s : Z) : Z := if s =? 0 then 0 else (s - 1) mod 65535 + 1.

(** Two sums with the same representation. *)
Definition oc_eq (a b : Z) : Prop :=
  0 <= a /\ 0 <= b /\ a mod 65535 = b mod 65535 /\ (a = 0 <-> b = 0).

Lemma oc_refl a : 0 <= a -> oc_eq a a.
Proof. intros H. repeat split; auto. Qed.

#[export] Instance oc_sym : Symmetric oc_eq.
Proof. intros a b (H1 & H2 & H3 & H4). repeat split; auto; apply H4. Qed.

#[export] Instance oc_trans : Transitive oc_eq.
Proof.
  intros a b c (H1 & H2 & H3 & H4) (G1 & G2 & G3 & G4).
  repeat split; [exact H1 | exact G2 | congruence | tauto | tauto].
Qed.

Lemma oc_add a a' b b' : oc_eq a a' -> oc_eq b b' -> oc_eq (a + b) (a' + b').
Proof.
  intros (H1 & H2 & H3 & H4) (G1 & G2 & G3 & G4). repeat split; [lia | lia | | lia | lia].
  rewrite (Z.add_mod a), (Z.add_mod a') by lia. now rewrite H3, G3.
Qed.

Lemma oc_mul k a a' : 0 < k -> oc_eq a a' -> oc_eq (k * a) (k * a').
Proof.
  intros Hk (H1 & H2 & H3 & H4). repeat split; [nia | nia | | nia | nia].
  rewrite (Z.mul_mod k a), (Z.mul_mod k a') by lia. now rewrite H3.
Qed.

(** 65536 counts as 1. *)
Lemma oc_fold a b : 0 <= a -> 0 <= b -> oc_eq (65536 * a + b) (a + b).
Proof.
  intros Ha Hb. repeat split; try lia.
  replace (65536 * a + b) with (a + b + a * 65535) by lia. apply Z.mod_add. lia.
Qed.

Lemma ones_range s : 0 <= ones s <= 65535.
Proof.
  unfold ones. destruct (Z.eqb_spec s 0); [lia |].
  pose proof (Z.mod_pos_bound (s - 1) 65535). lia.
Qed.

Lemma ones_small s : 0 <= s <= 65535 -> ones s = s.
Proof.
  intros H. unfold ones. destruct (Z.eqb_spec s 0); [congruence |]. rewrite Z.mod_small; lia.
Qed.

Lemma ones_eq a b : oc_eq a b -> ones a = ones b.
Proof.
  intros (H1 & H2 & H3 & H4). unfold ones.
  destruct (Z.eqb_spec a 0), (Z.eqb_spec b 0); try tauto.
  rewrite (Zminus_mod a), (Zminus_mod b). now rewrite H3.
Qed.

Lemma ones_oc s : 0 <= s -> oc_eq (ones s) s.
Proof.
  intros H. unfold ones. destruct (Z.eqb_spec s 0) as [-> | Hne]; [apply oc_refl; lia |].
  pose proof (Z.mod_pos_bound (s - 1) 65535). repeat split; try lia.
  rewrite Z.add_mod, Z.mod_mod, <- Z.add_mod by lia. f_equal. lia.
Qed.

(** A 16-bit value that counts like a sum represents it. *)
Lemma ones_unique r s : 0 <= r <= 65535 -> oc_eq r s -> r = ones s.
Proof. intros Hr H. rewrite <- (ones_eq _ _ H). symmetry. now apply ones_small. Qed.

(** ** The bit operations as arithmetic *)

Lemma land_ffff z : z .& 0xffff = z mod 65536.
Proof. change 0xffff with (Z.ones 16). now rewrite Z.land_ones. Qed.

Lemma shiftr16 z : Z.shiftr z 16 = z / 65536.
Proof. now rewrite Z.shiftr_div_pow2. Qed.

Lemma u32_small z : 0 <= z < 4294967296 -> u32 z = z.
Proof. apply Z.mod_small. Qed.

Lemma fold_spec u : 0 <= u < 4294967296 ->
  FOLD_U32T u = u / 65536 + u mod 65536 /\ 0 <= FOLD_U32T u <= 131070 /\ oc_eq (FOLD_U32T u) u.
Proof.
  intros H. assert (Hd : 0 <= u / 65536 < 65536).
  { split; [apply Z.div_pos; lia | apply Z.div_lt_upper_bound; lia]. }
  pose proof (Z.mod_pos_bound u 65536).
  assert (E : FOLD_U32T u = u / 65536 + u mod 65536).
  { unfold FOLD_U32T. rewrite shiftr16, land_ffff. apply u32_small. lia. }
  split; [exact E |]. split; [lia |]. rewrite E.
  symmetry. rewrite (Z.div_mod u 65536) at 1 by lia. apply oc_fold; lia.
Qed.

Lemma fold_small u : 0 <= u <= 131070 -> 0 <= FOLD_U32T u <= 65535.
Proof.
  intros H. destruct (fold_spec u) as (E & _ & _); [lia |]. rewrite E.
  assert (u / 65536 < 2) by (apply Z.div_lt_upper_bound; lia).
  assert (0 <= u / 65536) by (apply Z.div_pos; lia).
  pose proof (Z.div_mod u 65536). pose proof (Z.mod_pos_bound u 65536). nia.
Qed.

Lemma fold_ones u : 0 <= u <= 131070 -> FOLD_U32T u = ones u.
Proof.
  intros H. apply ones_unique; [now apply fold_small |]. apply (fold_spec u). lia.
Qed.

(** Folding twice gives the representation. *)
Lemma fold2_ones u : 0 <= u < 4294967296 -> FOLD_U32T (FOLD_U32T u) = ones u.
Proof.
  intros H. destruct (fold_spec u H) as (_ & Hr & He). rewrite fold_ones by lia.
  now apply ones_eq.
Qed.

Lemma hi_byte w : 0 <= w < 65536 -> Z.shiftr (w .& 0xff00) 8 = w / 256.
Proof.
  intros H. rewrite Z.shiftr_land. change (Z.shiftr 0xff00 8) with 0xff.
  rewrite land_ff, shiftr8. unfold u8. apply Z.mod_small.
  split; [apply Z.div_pos; lia | apply Z.div_lt_upper_bound; lia].
Qed.

Lemma swap_spec w : 0 <= w < 65536 ->
  SWAP_BYTES_IN_WORD w = (w mod 256) * 256 + w / 256 /\
  0 <= SWAP_BYTES_IN_WORD w < 65536 /\ oc_eq (SWAP_BYTES_IN_WORD w) (256 * w).
Proof.
  intros H. assert (Hd : 0 <= w / 256 < 256).
  { split; [apply Z.div_pos; lia | apply Z.div_lt_upper_bound; lia]. }
  pose proof (Z.mod_pos_bound w 256).
  assert (E : SWAP_BYTES_IN_WORD w = (w mod 256) * 256 + w / 256).
  { unfold SWAP_BYTES_IN_WORD. rewrite hi_byte by exact H. rewrite land_ff. unfold u8.
    now rewrite byte_pair. }
  split; [exact E |]. split; [lia |]. rewrite E.
  replace (256 * w) with (65536 * (w / 256) + 256 * (w mod 256))
    by (rewrite (Z.div_mod w 256) at 3 by lia; lia).
  rewrite (Z.mul_comm (w mod 256)), Z.add_comm. symmetry. apply oc_fold; lia.
Qed.

Lemma htons_swap x : 0 <= x < 65536 -> lwip_htons x = SWAP_BYTES_IN_WORD x.
Proof.
  intros H. unfold lwip_htons, PP_HTONS. fold (SWAP_BYTES_IN_WORD x).
  apply u16_small. apply swap_spec. exact H.
Qed.

Lemma le16_value a b : is_u8 a -> le16 a b = a + 256 * b.
Proof. intros H. unfold le16. rewrite Z.lor_comm, byte_pair by exact H. lia. Qed.

Lemma le16_range a b : is_u8 a -> is_u8 b -> 0 <= le16 a b < 65536.
Proof. intros Ha Hb. rewrite le16_value by exact Ha. unfold is_u8 in *. lia. Qed.

Lemma le32_value a b c d : is_u8 a -> is_u8 b -> is_u8 c ->
  le32 a b c d = a + 256 * b + 65536 * (c + 256 * d).
Proof.
  intros Ha Hb Hc. unfold le32. rewrite Z.lor_comm.
  rewrite (lor_disjoint_add _ _ 16); [| lia | now apply le16_range].
  rewrite !le16_value by assumption. change (2 ^ 16) with 65536. lia.
Qed.

(** ** Sums of bytes *)

Lemma bytes_ind (P : list Z -> Prop) :
  P [] -> (forall a, P [a]) -> (forall a b l, P l -> P (a :: b :: l)) -> forall l, P l.
Proof.
  intros H0 H1 H2. fix IH 1. intros [| a [| b l]]; [exact H0 | apply H1 | apply H2, IH].
Qed.

Lemma le_sum_bound l : Forall is_u8 l -> 0 <= 2 * le_sum l <= 65535 * (Z.of_nat (length l) + 1).
Proof.
  induction l as [| a | a b l IH] using bytes_ind; intros H; cbn [le_sum length].
  - lia.
  - apply Forall_cons in H as [H _]. unfold is_u8 in H. lia.
  - apply Forall_cons in H as [Ha H]. apply Forall_cons in H as [Hb H]. unfold is_u8 in *.
    specialize (IH H). lia.
Qed.

Lemma be_sum_nonneg l : Forall is_u8 l -> 0 <= be_sum l.
Proof.
  induction l as [| a | a b l IH] using bytes_ind; intros H; cbn [be_sum].
  - lia.
  - apply Forall_cons in H as [H _]. unfold is_u8 in H. lia.
  - apply Forall_cons in H as [Ha H]. apply Forall_cons in H as [Hb H]. unfold is_u8 in *.
    specialize (IH H). lia.
Qed.

(** Exchanging the bytes of all words multiplies by 256. *)
Lemma be_le_sum l : Forall is_u8 l -> oc_eq (be_sum l) (256 * le_sum l).
Proof.
  induction l as [| a | a b l IH] using bytes_ind; intros H; cbn [le_sum be_sum].
  - apply oc_refl. lia.
  - apply Forall_cons in H as [H _]. unfold is_u8 in H. apply oc_refl. lia.
  - apply Forall_cons in H as [Ha H]. apply Forall_cons in H as [Hb H]. unfold is_u8 in *.
    replace (256 * (a + 256 * b + le_sum l)) with ((65536 * b + 256 * a) + 256 * le_sum l) by lia.
    apply oc_add; [| now apply IH]. rewrite (Z.add_comm (256 * a)). symmetry. apply oc_fold; lia.
Qed.

Lemma le_be_sum l : Forall is_u8 l -> oc_eq (le_sum l) (256 * be_sum l).
Proof.
  intros H. transitivity (256 * (256 * le_sum l)).
  - replace (256 * (256 * le_sum l)) with (65536 * le_sum l + 0) by lia.
    rewrite <- (Z.add_0_r (le_sum l)) at 1. symmetry. apply oc_fold; [| lia].
    pose proof (le_sum_bound l H). lia.
  - apply oc_mul; [lia |]. symmetry. now apply be_le_sum.
Qed.

Lemma le_sum_cons a l : le_sum (a :: l) = a + be_sum l.
Proof.
  revert a. induction l as [| b | b c l IH] using bytes_ind; intros a; cbn [le_sum be_sum]; [lia | lia |].
  specialize (IH c). cbn [le_sum] in IH. destruct l; cbn [le_sum be_sum] in *; lia.
Qed.

Lemma be_sum_cons a l : be_sum (a :: l) = 256 * a + le_sum l.
Proof. destruct l as [| b l]; [cbn; lia |]. rewrite le_sum_cons. cbn [be_sum]. lia. Qed.

(** Appending after an even or an odd number of bytes. *)
Lemma le_sum_app l l' :
  le_sum (l ++ l') = le_sum l + (if Nat.even (length l) then le_sum l' else be_sum l') /\
  be_sum (l ++ l') = be_sum l + (if Nat.even (length l) then be_sum l' else le_sum l').
Proof.
  induction l as [| a | a b l IH] using bytes_ind; cbn [app length Nat.even le_sum be_sum].
  - split; lia.
  - split; [apply le_sum_cons | apply be_sum_cons].
  - destruct IH as [-> ->]. split; destruct (Nat.even (length l)); lia.
Qed.

(** * The three variants compute the same function *)

(** Bounds that hold for every length a [u16_t] can express. *)
Definition short (l : list Z) : Prop := Forall is_u8 l /\ Z.of_nat (length l) <= 65535.

Lemma short_le_sum l : short l -> 0 <= le_sum l <= 2147450880.
Proof. intros [H1 H2]. pose proof (le_sum_bound l H1). lia. Qed.

Lemma short_tail a l : short (a :: l) -> is_u8 a /\ short l.
Proof.
  intros [H1 H2]. apply Forall_cons in H1 as [Ha H1]. cbn [length] in H2.
  split; [exact Ha | split; [exact H1 | lia]].
Qed.

Lemma be_sum_bound l : short l -> 0 <= be_sum l <= 2147516415.
Proof.
  intros H. split; [apply be_sum_nonneg; apply H |]. destruct l as [| a l]; [cbn; lia |].
  apply short_tail in H as [Ha H]. rewrite be_sum_cons. pose proof (short_le_sum l H).
  unfold is_u8 in Ha. lia.
Qed.

Lemma chksum1_loop_sum l : forall acc, Forall is_u8 l -> 0 <= acc -> acc + be_sum l < 4294967296 ->
  chksum1_loop l acc = acc + be_sum l.
Proof.
  induction l as [| a | a b l IH] using bytes_ind; intros acc H Ha Hb; cbn [chksum1_loop be_sum] in *.
  - lia.
  - apply Forall_cons in H as [H _]. unfold is_u8 in H.
    rewrite Z.shiftl_mul_pow2 by lia. change (2 ^ 8) with 256.
    rewrite u16_small, u32_small by (unfold is_u16; lia). lia.
  - apply Forall_cons in H as [Hx H]. apply Forall_cons in H as [Hy H].
    pose proof (be_sum_nonneg l H).
    assert (E : u16 (u16 (Z.shiftl a 8) .| b) = 256 * a + b).
    { rewrite (u16_small (Z.shiftl a 8)).
      - rewrite byte_pair by exact Hy. rewrite u16_small; [lia |]. unfold is_u8, is_u16 in *. lia.
      - rewrite Z.shiftl_mul_pow2 by lia. unfold is_u8, is_u16 in *. lia. }
    rewrite E. unfold is_u8 in *. rewrite u32_small by lia.
    rewrite IH by (try exact H; lia). lia.
Qed.

(** The conditional second fold of version 1. *)
Lemma fold_if_needed u : 0 <= u <= 131070 ->
  (if negb (u .& 0xffff0000 =? 0) then FOLD_U32T u else u) = FOLD_U32T u.
Proof.
  intros H. destruct (Z.eqb_spec (u .& 0xffff0000) 0) as [E | E]; cbn [negb]; [| reflexivity].
  destruct (fold_spec u) as (-> & _ & _); [lia |].
  assert (E2 : u / 65536 = 0).
  { apply (f_equal (fun z => Z.shiftr z 16)) in E. rewrite Z.shiftr_land in E.
    change (Z.shiftr 0xffff0000 16) with 0xffff in E. change (Z.shiftr 0 16) with 0 in E.
    rewrite land_ffff, shiftr16, Z.mod_small in E; [exact E |].
    split; [apply Z.div_pos; lia | apply Z.div_lt_upper_bound; lia]. }
  rewrite E2, Z.add_0_l, Z.mod_small; [reflexivity |].
  pose proof (Z.div_mod u 65536 ltac:(lia)). pose proof (Z.mod_pos_bound u 65536). lia.
Qed.

Lemma chksum_1_ones l : short l -> lwip_standard_chksum_1 l = ones (le_sum l).
Proof.
  intros H. pose proof (be_sum_bound l H) as Hb. unfold lwip_standard_chksum_1.
  rewrite chksum1_loop_sum by (try apply H; lia). rewrite Z.add_0_l.
  fold (FOLD_U32T (be_sum l)).
  destruct (fold_spec (be_sum l)) as (_ & Hr & _); [lia |]. set (f := FOLD_U32T (be_sum l)) in *.
  fold (FOLD_U32T f). rewrite fold_if_needed by exact Hr. subst f.
  rewrite fold2_ones by lia. pose proof (ones_range (be_sum l)).
  rewrite u16_small by (unfold is_u16; lia). rewrite htons_swap by lia.
  destruct (swap_spec (ones (be_sum l))) as (_ & Hs & He); [lia |].
  apply ones_unique; [lia |]. rewrite He. transitivity (256 * be_sum l).
  - apply oc_mul; [lia | apply ones_oc; lia].
  - symmetry. apply le_be_sum. apply H.
Qed.

(** The value of the bytes left over by the word loop. *)
Definition head_byte (rest : list Z) : Z := match rest with b :: _ => b | [] => 0 end.

Lemma chksum2_loop_sum l : forall sum, Forall is_u8 l -> 0 <= sum -> sum + le_sum l < 4294967296 ->
  let '(s, rest) := chksum2_loop l sum in
  s + head_byte rest = sum + le_sum l /\ 0 <= s /\ is_u8 (head_byte rest).
Proof.
  induction l as [| a | a b l IH] using bytes_ind; intros sum H Hs Hb; cbn [chksum2_loop le_sum] in *.
  - repeat split; cbn; lia.
  - apply Forall_cons in H as [H _]. repeat split; cbn; try lia; apply H.
  - apply Forall_cons in H as [Hx H]. apply Forall_cons in H as [Hy H].
    pose proof (le_sum_bound l H). rewrite le16_value by exact Hx. unfold is_u8 in *.
    rewrite u32_small by lia. specialize (IH (sum + (a + 256 * b)) H).
    destruct (chksum2_loop l _) as [s rest]. destruct IH as (E & H1 & H2); [lia | lia |].
    repeat split; [lia | lia | apply H2 | apply H2].
Qed.

Lemma set_hi_0 b : set_hi 0 b = 256 * b.
Proof.
  unfold set_hi. rewrite Z.land_0_l, Z.lor_0_l, Z.shiftl_mul_pow2 by lia. change (2 ^ 8) with 256. lia.
Qed.

Lemma tail_value t rest : (t = 0 \/ exists b, is_u8 b /\ t = 256 * b) -> is_u8 (head_byte rest) ->
  chksum_tail t rest = t + head_byte rest.
Proof.
  intros Ht Hr. destruct rest as [| c rest]; cbn [chksum_tail head_byte] in *; [lia |].
  unfold set_lo. destruct Ht as [-> | (b & Hb & ->)]; [reflexivity |].
  assert (E : 256 * b .& 0xff00 = Z.shiftl b 8).
  { replace (256 * b) with (Z.shiftl b 8) by (rewrite Z.shiftl_mul_pow2 by lia; change (2 ^ 8) with 256; lia).
    change 0xff00 with (Z.shiftl 0xff 8). rewrite <- Z.shiftl_land, land_ff. now rewrite u8_small. }
  rewrite E, byte_pair by exact Hr. lia.
Qed.

Lemma finish_ones odd s : 0 <= s < 4294967296 ->
  chksum_finish odd s = ones (if odd then 256 * s else s).
Proof.
  intros H. unfold chksum_finish. rewrite fold2_ones by exact H.
  pose proof (ones_range s) as Hr. destruct odd.
  - destruct (swap_spec (ones s)) as (_ & Hs & He); [lia |].
    rewrite u16_small by exact Hs. apply ones_unique; [lia |]. rewrite He.
    apply oc_mul; [lia | apply ones_oc; lia].
  - apply u16_small. unfold is_u16. lia.
Qed.

(** The alignment prologue, the loops and the epilogue put together. *)
Lemma odd_total b l : short (b :: l) ->
  ones (256 * (256 * b + le_sum l)) = ones (le_sum (b :: l)).
Proof.
  intros H. apply short_tail in H as [Hb H]. apply ones_eq. rewrite le_sum_cons.
  replace (256 * (256 * b + le_sum l)) with (65536 * b + 256 * le_sum l) by lia.
  pose proof (short_le_sum l H). unfold is_u8 in Hb.
  transitivity (b + 256 * le_sum l); [apply oc_fold; lia |].
  apply oc_add; [apply oc_refl; lia |]. symmetry. apply be_le_sum. apply H.
Qed.

Lemma chksum_2_ones addr l : short l -> lwip_standard_chksum_2 addr l = ones (le_sum l).
Proof.
  intros H. unfold lwip_standard_chksum_2.
  assert (Hplain : forall odd t l', short l' -> (t = 0 \/ exists b, is_u8 b /\ t = 256 * b) ->
    (let '(sum, rest) := chksum2_loop l' 0 in chksum_finish odd (u32 (sum + chksum_tail t rest))) =
    ones (if odd then 256 * (t + le_sum l') else t + le_sum l')).
  { intros odd t l' Hl Ht. pose proof (short_le_sum l' Hl) as Hs.
    pose proof (chksum2_loop_sum l' 0 (proj1 Hl)) as HL. destruct (chksum2_loop l' 0) as [s rest].
    destruct HL as (E & H0 & H8); [lia | lia |]. rewrite tail_value by assumption.
    assert (Hrange : 0 <= t < 65536) by (destruct Ht as [-> | (b & Hb & ->)]; unfold is_u8 in *; lia).
    unfold is_u8 in H8. rewrite u32_small by lia. rewrite finish_ones by lia.
    replace (s + (t + head_byte rest)) with (t + le_sum l') by lia. reflexivity. }
  destruct l as [| b l].
  - rewrite (Hplain _ 0 []); [now destruct (truth _) | exact H | now left].
  - pose proof (short_tail b l H) as [Hb Hl]. destruct (truth (addr .& 1)).
    + rewrite (Hplain true (set_hi 0 b) l);
        [| exact Hl | right; exists b; split; [exact Hb | apply set_hi_0]].
      rewrite set_hi_0. now apply odd_total.
    + rewrite (Hplain false 0 (b :: l)); [now rewrite Z.add_0_l | exact H | now left].
Qed.

(** 32-bit addition with the carry added back. *)
Lemma add_carry s w : 0 <= s < 4294967296 -> 0 <= w < 4294967296 ->
  let t := u32 (s + w) in let t := if t <? s then u32 (t + 1) else t in
  0 <= t < 4294967296 /\ oc_eq t (s + w).
Proof.
  intros Hs Hw. cbv zeta. unfold u32.
  destruct (Z.lt_ge_cases (s + w) 4294967296) as [L | L].
  - rewrite (Z.mod_small (s + w)) by lia. destruct (Z.ltb_spec (s + w) s); [lia |].
    split; [lia | apply oc_refl; lia].
  - assert (E : (s + w) mod 4294967296 = s + w - 4294967296).
    { replace (s + w) with (s + w - 4294967296 + 1 * 4294967296) at 1 by lia.
      rewrite Z.mod_add by lia. apply Z.mod_small. lia. }
    rewrite E. destruct (Z.ltb_spec (s + w - 4294967296) s); [| lia].
    rewrite Z.mod_small by lia. split; [lia |].
    repeat split; [lia | lia | | lia | lia].
    replace (s + w - 4294967296 + 1) with (s + w + -65537 * 65535) by lia. apply Z.mod_add. lia.
Qed.

Lemma le32_range a b c d : is_u8 a -> is_u8 b -> is_u8 c -> is_u8 d ->
  0 <= le32 a b c d < 4294967296.
Proof. intros Ha Hb Hc Hd. rewrite le32_value by assumption. unfold is_u8 in *. lia. Qed.

Lemma oc_add_l a b c : oc_eq a b -> 0 <= c -> oc_eq (a + c) (b + c).
Proof. intros H Hc. apply oc_add; [exact H | now apply oc_refl]. Qed.

(** A 32-bit word counts like its two halves. *)
Lemma oc_le32 a b c d : is_u8 a -> is_u8 b -> is_u8 c -> is_u8 d ->
  oc_eq (le32 a b c d) (le_sum [a; b; c; d]).
Proof.
  intros Ha Hb Hc Hd. rewrite le32_value by assumption. cbn [le_sum]. unfold is_u8 in *.
  rewrite Z.add_comm. transitivity (c + 256 * d + (a + 256 * b)); [apply oc_fold; lia |].
  replace (a + 256 * b + (c + 256 * d + 0)) with (c + 256 * d + (a + 256 * b)) by lia.
  apply oc_refl. lia.
Qed.

Lemma oc_add_right s t u : 0 <= s -> oc_eq t u -> oc_eq (s + t) (s + u).
Proof. intros Hs H. apply oc_add; [now apply oc_refl | exact H]. Qed.

Lemma chksum3_loop_sum n : forall l sum, (length l <= n)%nat -> Forall is_u8 l ->
  0 <= sum < 4294967296 ->
  let '(s, rest) := chksum3_loop l sum in
  0 <= s < 4294967296 /\ oc_eq (s + le_sum rest) (sum + le_sum l) /\
  Forall is_u8 rest /\ (length rest <= length l)%nat.
Proof.
  induction n as [| n IH]; intros l sum Hn H Hs.
  { destruct l; [| cbn in Hn; lia]. cbn. repeat split; try lia; auto. }
  destruct l as [| a [| b [| c [| d [| e [| f [| g [| h l]]]]]]]];
    try (cbn [chksum3_loop]; repeat split; try lia; try apply oc_refl; auto;
         pose proof (le_sum_bound _ H); lia).
  cbn [length] in Hn. rewrite !Forall_cons in H.
  destruct H as (Ha & Hb & Hc & Hd & He & Hf & Hg & Hh & Hl).
  cbn [chksum3_loop]. cbv zeta.
  pose proof (le32_range a b c d Ha Hb Hc Hd) as R1.
  pose proof (le32_range e f g h He Hf Hg Hh) as R2.
  destruct (add_carry sum (le32 a b c d) Hs R1) as [T1 T2]. cbv zeta in T1, T2.
  set (t := if u32 (sum + le32 a b c d) <? sum then _ else _) in *.
  destruct (add_carry t (le32 e f g h) T1 R2) as [S1 S2]. cbv zeta in S1, S2.
  set (s := if u32 (t + le32 e f g h) <? t then _ else _) in *.
  specialize (IH l s ltac:(lia) Hl S1). destruct (chksum3_loop l s) as [s' rest].
  destruct IH as (I1 & I2 & I3 & I4). split; [exact I1 |]. split; [| split; [exact I3 | cbn; lia]].
  rewrite I2. pose proof (le_sum_bound l Hl).
  transitivity (t + le32 e f g h + le_sum l); [apply oc_add_l; [exact S2 | lia] |].
  transitivity (sum + le32 a b c d + le32 e f g h + le_sum l).
  { apply oc_add_l; [| lia]. apply oc_add_l; [exact T2 | lia]. }
  replace (sum + le_sum (a :: b :: c :: d :: e :: f :: g :: h :: l))
    with (sum + le_sum [a; b; c; d] + le_sum [e; f; g; h] + le_sum l) by (cbn [le_sum]; lia).
  apply oc_add_l; [| lia]. apply oc_add; [| now apply oc_le32].
  apply oc_add_right; [lia | now apply oc_le32].
Qed.

(** What version 3 does after the alignment to 16 bits. *)
Lemma chksum3_core odd t l sum : short l -> (t = 0 \/ exists b, is_u8 b /\ t = 256 * b) ->
  0 <= sum < 65536 ->
  (let '(s, data) := chksum3_loop l sum in
   let s := FOLD_U32T s in
   let '(s, rest) := chksum2_loop data s in
   chksum_finish odd (u32 (s + chksum_tail t rest))) =
  ones (if odd then 256 * (t + (sum + le_sum l)) else t + (sum + le_sum l)).
Proof.
  intros [Hl Hlen] Ht Hsum. pose proof (le_sum_bound l Hl) as Bl.
  pose proof (chksum3_loop_sum (length l) l sum ltac:(lia) Hl ltac:(lia)) as H3.
  destruct (chksum3_loop l sum) as [s data]. destruct H3 as (H1 & H2 & H3 & H4). cbv zeta.
  destruct (fold_spec s H1) as (_ & F1 & F2). pose proof (le_sum_bound data H3) as Bd.
  pose proof (chksum2_loop_sum data (FOLD_U32T s) H3) as HL.
  destruct (chksum2_loop data (FOLD_U32T s)) as [s' rest].
  destruct HL as (E & L1 & L2); [lia | lia |]. rewrite tail_value by assumption.
  assert (Hrange : 0 <= t < 65536) by (destruct Ht as [-> | (b & Hb & ->)]; unfold is_u8 in *; lia).
  unfold is_u8 in L2. rewrite u32_small by lia. rewrite finish_ones by lia.
  assert (Hoc : oc_eq (s' + (t + head_byte rest)) (t + (sum + le_sum l))).
  { replace (s' + (t + head_byte rest)) with (t + (FOLD_U32T s + le_sum data)) by lia.
    apply oc_add_right; [lia |]. rewrite <- H2. apply oc_add_l; [exact F2 | lia]. }
  destruct odd; apply ones_eq; [apply oc_mul; [lia | exact Hoc] | exact Hoc].
Qed.

(** The optional first word. *)
Lemma chksum3_align odd t l (al : bool) : short l -> (t = 0 \/ exists b, is_u8 b /\ t = 256 * b) ->
  (let '(sum, data) :=
     match l with
     | a :: b :: data' => if al then (u32 (0 + le16 a b), data') else (0, l)
     | _ => (0, l)
     end in
   let '(s, data) := chksum3_loop data sum in
   let s := FOLD_U32T s in
   let '(s, rest) := chksum2_loop data s in
   chksum_finish odd (u32 (s + chksum_tail t rest))) =
  ones (if odd then 256 * (t + le_sum l) else t + le_sum l).
Proof.
  intros Hl Ht.
  assert (Hno : forall l, short l ->
    (let '(s, data) := chksum3_loop l 0 in
     let s := FOLD_U32T s in
     let '(s, rest) := chksum2_loop data s in
     chksum_finish odd (u32 (s + chksum_tail t rest))) =
    ones (if odd then 256 * (t + le_sum l) else t + le_sum l)).
  { intros l' Hl'. now rewrite chksum3_core by (try assumption; lia). }
  destruct l as [| a [| b l]]; [now apply Hno | now apply Hno |].
  destruct al; [| now apply Hno].
  pose proof (short_tail _ _ Hl) as [Ha Hl1]. pose proof (short_tail _ _ Hl1) as [Hb Hl2].
  pose proof (le16_range a b Ha Hb). rewrite u32_small by lia.
  rewrite chksum3_core by (try assumption; lia).
  rewrite le16_value by exact Ha. cbn [le_sum]. now rewrite Z.add_0_l.
Qed.

Lemma chksum_3_ones addr l : short l -> lwip_standard_chksum_3 addr l = ones (le_sum l).
Proof.
  intros H. unfold lwip_standard_chksum_3. destruct l as [| b l].
  - etransitivity; [exact (chksum3_align (truth (addr .& 1)) 0 [] false H (or_introl eq_refl)) |].
    now destruct (truth _).
  - pose proof (short_tail b l H) as [Hb Hl]. destruct (truth (addr .& 1)).
    + etransitivity.
      { refine (chksum3_align true (set_hi 0 b) l (truth ((addr + 1) .& 3)) Hl (or_intror _)).
        exists b. split; [exact Hb | apply set_hi_0]. }
      rewrite set_hi_0. now apply odd_total.
    + etransitivity.
      { exact (chksum3_align false 0 (b :: l) (truth (addr .& 3)) H (or_introl eq_refl)). }
      now rewrite Z.add_0_l.
Qed.

(** C14: The three variants of the Internet checksum, [LWIP_CHKSUM_ALGORITHM] 1, 2 and 3, agree: for
    every buffer of up to 65535 bytes, at every alignment, they return the one's complement sum of
    its 16-bit words (RFC 1071), as it is to be stored in memory. *)
Theorem standard_chksum_variants_agree (addr : Z) (data : list Z) :
  Forall is_u8 data -> Z.of_nat (length data) <= 65535 ->
  lwip_standard_chksum_1 data = ones (le_sum data) /\
  lwip_standard_chksum_2 addr data = ones (le_sum data) /\
  lwip_standard_chksum_3 addr data = ones (le_sum data).
Proof.
  intros H1 H2. assert (H : short data) by now split.
  split; [now apply chksum_1_ones | split; [now apply chksum_2_ones | now apply chksum_3_ones]].
Qed.

Lemma standard_chksum_variants_agree_witness :
  lwip_standard_chksum_1 [0x45; 0; 0; 0x54; 7] = 0x544C /\
  lwip_standard_chksum_2 0x20000001 [0x45; 0; 0; 0x54; 7] = 0x544C /\
  lwip_standard_chksum_3 0x20000001 [0x45; 0; 0; 0x54; 7] = 0x544C.
Proof.
  apply (standard_chksum_variants_agree 0x20000001 [0x45; 0; 0; 0x54; 7]).
  - repeat constructor; discriminate.
  - cbn. lia.
Defined.

(** * Chains of buffers *)

Definition chain_data (p : list segment) : list Z := concat (snd <$> p).

Definition chain_short (p : list segment) : Prop := Forall (fun q => short q.2) p.

Lemma chain_bytes p : chain_short p -> Forall is_u8 (chain_data p).
Proof.
  induction 1 as [| q p [Hq _] _ IH]; [constructor |]. cbn. apply Forall_app. auto.
Qed.

Lemma oc_256_256 v : 0 <= v -> oc_eq (256 * (256 * v)) v.
Proof.
  intros H. replace (256 * (256 * v)) with (65536 * v + 0) by lia.
  rewrite <- (Z.add_0_r v) at 2. apply oc_fold; lia.
Qed.

Lemma length_parity (l : list Z) : truth (Z.of_nat (length l) mod 2) = negb (Nat.even (length l)).
Proof.
  unfold truth. f_equal. destruct (Nat.Even_or_Odd (length l)) as [[k E] | [k E]].
  - assert (Hev : Nat.even (length l) = true) by (apply Nat.even_spec; exists k; lia).
    rewrite Hev. apply Z.eqb_eq. rewrite E. replace (Z.of_nat (2 * k)) with (Z.of_nat k * 2) by lia.
    apply Z.mod_mul. lia.
  - assert (Hev : Nat.even (length l) = false)
      by (rewrite <- Nat.negb_odd; apply negb_false_iff; apply Nat.odd_spec; exists k; lia).
    rewrite Hev. apply Z.eqb_neq. rewrite E. replace (Z.of_nat (2 * k + 1)) with (1 + Z.of_nat k * 2) by lia.
    rewrite Z.mod_add by lia. discriminate.
Qed.

Lemma chain_loop_spec p : forall acc (sw : bool) v, chain_short p -> 0 <= acc <= 65535 -> 0 <= v ->
  oc_eq acc (if sw then 256 * v else v) ->
  let '(acc', sw') := chain_loop p acc sw in
  0 <= acc' <= 65535 /\
  oc_eq acc' (let v' := v + (if sw : bool then be_sum (chain_data p) else le_sum (chain_data p)) in
              if sw' then 256 * v' else v').
Proof.
  induction p as [| q p IH]; intros acc sw v Hp Ha Hv Hoc; cbn [chain_loop].
  - split; [exact Ha |]. unfold chain_data. cbn. rewrite Tauto.if_same, Z.add_0_r. exact Hoc.
  - apply Forall_cons in Hp as [Hq Hp]. pose proof (chain_bytes p Hp) as Hb.
    unfold LWIP_CHKSUM. rewrite chksum_2_ones by exact Hq.
    pose proof (ones_range (le_sum q.2)) as Ho. pose proof (short_le_sum _ Hq) as Hs.
    rewrite u32_small by lia. pose proof (fold_small (acc + ones (le_sum q.2)) ltac:(lia)) as Hf.
    set (v1 := v + (if sw then be_sum q.2 else le_sum q.2)).
    assert (Hv1 : 0 <= v1) by (pose proof (be_sum_nonneg _ (proj1 Hq)); unfold v1; destruct sw; lia).
    assert (Hoc1 : oc_eq (FOLD_U32T (acc + ones (le_sum q.2))) (if sw then 256 * v1 else v1)).
    { destruct (fold_spec (acc + ones (le_sum q.2))) as (_ & _ & He); [lia |].
      etransitivity; [exact He |]. etransitivity; [apply oc_add; [exact Hoc | apply ones_oc; lia] |].
      unfold v1. destruct sw; [| apply oc_refl; lia].
      rewrite Z.mul_add_distr_l. apply oc_add_right; [lia |]. apply le_be_sum. apply Hq. }
    rewrite length_parity. unfold chain_data. cbn [fmap list_fmap concat].
    destruct (le_sum_app q.2 (chain_data p)) as [Ele Ebe]. fold (chain_data p).
    destruct (Nat.even (length q.2)); cbn [negb].
    + specialize (IH _ sw v1 Hp Hf Hv1 Hoc1). destruct (chain_loop p _ sw) as [acc' sw'].
      destruct IH as [I1 I2]. split; [exact I1 |]. cbv zeta in *. unfold v1 in I2.
      destruct sw; rewrite ?Ele, ?Ebe, Z.add_assoc; exact I2.
    + destruct (swap_spec (FOLD_U32T (acc + ones (le_sum q.2)))) as (_ & Hsr & Hse); [lia |].
      specialize (IH (SWAP_BYTES_IN_WORD (FOLD_U32T (acc + ones (le_sum q.2)))) (negb sw) v1 Hp
                    ltac:(lia) Hv1).
      destruct (chain_loop p _ (negb sw)) as [acc' sw']. destruct IH as [I1 I2].
      { etransitivity; [exact Hse |]. etransitivity; [apply oc_mul; [lia | exact Hoc1] |].
        destruct sw; cbn [negb]; [now apply oc_256_256 | apply oc_refl; lia]. }
      split; [exact I1 |]. cbv zeta in *. unfold v1 in I2.
      destruct sw; cbn [negb] in I2; rewrite ?Ele, ?Ebe, Z.add_assoc; exact I2.
Qed.

Lemma chain_sum_ones p acc : chain_short p -> 0 <= acc <= 65535 ->
  chain_sum p acc = ones (acc + le_sum (chain_data p)).
Proof.
  intros Hp Ha. unfold chain_sum. pose proof (chain_bytes p Hp) as Hb.
  pose proof (le_sum_bound _ Hb) as Hs.
  pose proof (chain_loop_spec p acc false acc Hp Ha ltac:(lia) (oc_refl acc ltac:(lia))) as H.
  destruct (chain_loop p acc false) as [acc' sw']. destruct H as [H1 H2]. cbv zeta in H2.
  destruct sw'; [| now apply ones_unique].
  destruct (swap_spec acc') as (_ & Hr & He); [lia |]. apply ones_unique; [lia |].
  etransitivity; [exact He |]. etransitivity; [apply oc_mul; [lia | exact H2] |].
  apply oc_256_256. lia.
Qed.

Lemma not16_sub x : 0 <= x <= 65535 -> not16 x = 65535 - x.
Proof.
  intros H. unfold not16, u16. symmetry. apply Z.mod_unique with (q := -1); [lia |].
  unfold Z.lnot. lia.
Qed.

Lemma not16_ones s : not16 (ones s) = 65535 - ones s.
Proof. apply not16_sub, ones_range. Qed.

Lemma land_ffff_ones s : ones s .& 0xffff = ones s.
Proof. rewrite land_ffff. pose proof (ones_range s). apply Z.mod_small. lia. Qed.

(** The checksum of a packet does not depend on how it is cut into a chain of pbufs, at which
    addresses the pieces are, or which of them have odd length: [inet_chksum_pbuf] of a chain is
    the one's complement of the sum over the concatenated bytes. *)
Theorem inet_chksum_pbuf_flat (p : list segment) :
  Forall (fun q => Forall is_u8 q.2 /\ Z.of_nat (length q.2) <= 65535) p ->
  inet_chksum_pbuf p = 65535 - ones (le_sum (concat (snd <$> p))).
Proof.
  intros H. unfold inet_chksum_pbuf. rewrite chain_sum_ones by (exact H || lia).
  rewrite Z.add_0_l, land_ffff_ones. apply not16_ones.
Qed.

Lemma inet_chksum_pbuf_flat_witness :
  inet_chksum_pbuf [(0x20000000, [1; 2; 3]); (0x20000401, [4]); (7, [5; 6; 7])] =
  65535 - ones (le_sum [1; 2; 3; 4; 5; 6; 7]).
Proof.
  apply (inet_chksum_pbuf_flat [(0x20000000, [1; 2; 3]); (0x20000401, [4]); (7, [5; 6; 7])]).
  repeat constructor; discriminate.
Defined.

(** The pseudo header of RFC 793 as a sum: addresses, protocol and length. *)
Definition pseudo_sum (src dest proto proto_len : Z) : Z :=
  src mod 65536 + src / 65536 + (dest mod 65536 + dest / 65536)
  + SWAP_BYTES_IN_WORD proto + SWAP_BYTES_IN_WORD proto_len.

(** The transport checksum over the pseudo header and a chain of pbufs is the one's complement
    of the sum of the pseudo header's words and the concatenated payload, with no carry lost in any
    of the intermediate foldings. *)
Theorem inet_chksum_pseudo_sum (p : list segment) (proto proto_len src dest : Z) :
  Forall (fun q => Forall is_u8 q.2 /\ Z.of_nat (length q.2) <= 65535) p ->
  is_u8 proto -> is_u16 proto_len -> is_u32 src -> is_u32 dest ->
  inet_chksum_pseudo p proto proto_len src dest =
  65535 - ones (pseudo_sum src dest proto proto_len + le_sum (concat (snd <$> p))).
Proof.
  intros Hp H1 H2 H3 H4. unfold inet_chksum_pseudo, inet_cksum_pseudo_base, pseudo_sum.
  unfold is_u8, is_u16, is_u32 in *.
  assert (D : forall x, 0 <= x < 4294967296 -> 0 <= x / 65536 < 65536).
  { intros x Hx. split; [apply Z.div_pos; lia | apply Z.div_lt_upper_bound; lia]. }
  pose proof (D src H3). pose proof (D dest H4).
  pose proof (Z.mod_pos_bound src 65536). pose proof (Z.mod_pos_bound dest 65536).
  rewrite !land_ffff, !shiftr16, (Z.mod_small (src / 65536)), (Z.mod_small (dest / 65536)) by lia.
  rewrite (u32_small (_ + src / 65536)) by lia. rewrite (u32_small (_ + dest mod 65536)) by lia.
  rewrite (u32_small (_ + dest / 65536)) by lia.
  set (a := src mod 65536 + src / 65536 + dest mod 65536 + dest / 65536).
  rewrite (fold2_ones a) by lia. pose proof (ones_range a). rewrite chain_sum_ones by (exact Hp || lia).
  fold (chain_data p). pose proof (le_sum_bound _ (chain_bytes p Hp)).
  set (m := le_sum (chain_data p)) in *. pose proof (ones_range (ones a + m)).
  rewrite (u16_small proto) by (unfold is_u16; lia). rewrite !htons_swap by lia.
  destruct (swap_spec proto) as (_ & R1 & _); [lia |].
  destruct (swap_spec proto_len) as (_ & R2 & _); [lia |].
  rewrite (u32_small (_ + SWAP_BYTES_IN_WORD proto)) by lia.
  rewrite (u32_small (_ + SWAP_BYTES_IN_WORD proto_len)) by lia.
  rewrite fold2_ones by lia. rewrite <- land_ffff, land_ffff_ones, not16_ones.
  f_equal. apply ones_eq.
  transitivity (a + m + SWAP_BYTES_IN_WORD proto + SWAP_BYTES_IN_WORD proto_len).
  - apply oc_add_l; [| lia]. apply oc_add_l; [| lia].
    transitivity (ones a + m); [apply ones_oc; lia |]. apply oc_add_l; [apply ones_oc; lia | lia].
  - replace (src mod 65536 + src / 65536 + (dest mod 65536 + dest / 65536)
             + SWAP_BYTES_IN_WORD proto + SWAP_BYTES_IN_WORD proto_len + m)
      with (a + m + SWAP_BYTES_IN_WORD proto + SWAP_BYTES_IN_WORD proto_len) by (unfold a; lia).
    apply oc_refl. lia.
Qed.

Lemma inet_chksum_pseudo_sum_witness :
  inet_chksum_pseudo [(0, [0; 53; 0; 53; 0; 9; 0; 0; 65])] 17 9 0x0100000A 0x0200000A =
  65535 - ones (pseudo_sum 0x0100000A 0x0200000A 17 9 + le_sum [0; 53; 0; 53; 0; 9; 0; 0; 65]).
Proof.
  apply (inet_chksum_pseudo_sum [(0, [0; 53; 0; 53; 0; 9; 0; 0; 65])] 17 9 0x0100000A 0x0200000A);
    try (split; [discriminate | reflexivity]). repeat constructor; discriminate.
Defined.

(** A header whose checksum field, two bytes at an even offset, holds [c]. *)
Definition with_checksum (l1 l2 : list Z) (c : Z) : list Z := l1 ++ [c .& 0xff; Z.shiftr c 8] ++ l2.

Lemma with_checksum_sum l1 l2 c : Nat.even (length l1) = true -> 0 <= c < 65536 ->
  le_sum (with_checksum l1 l2 c) = le_sum l1 + c + le_sum l2.
Proof.
  intros He Hc. unfold with_checksum. destruct (le_sum_app l1 ([c .& 0xff; Z.shiftr c 8] ++ l2)) as [-> _].
  rewrite He. cbn [app le_sum]. rewrite land_ff, shiftr8. unfold u8.
  pose proof (Z.div_mod c 256 ltac:(lia)). lia.
Qed.

Lemma stored_chksum_verifies (addr addr' : Z) (l1 l2 : list Z) :
  Forall is_u8 l1 -> Forall is_u8 l2 -> Z.of_nat (length l1 + length l2) <= 65533 ->
  Nat.even (length l1) = true ->
  inet_chksum (addr', with_checksum l1 l2 (inet_chksum (addr, with_checksum l1 l2 0))) = 0.
Proof.
  intros H1 H2 Hlen He.
  assert (Hshort : forall c, 0 <= c < 65536 -> short (with_checksum l1 l2 c)).
  { intros c Hc. split.
    - unfold with_checksum. rewrite !Forall_app. split; [exact H1 |]. split; [| exact H2].
      repeat constructor; unfold is_u8; rewrite ?land_ff, ?shiftr8.
      1, 2: pose proof (u8_range c); unfold is_u8 in *; lia.
      + apply Z.div_pos; lia.
      + apply Z.div_lt_upper_bound; lia.
    - unfold with_checksum. rewrite !length_app. cbn [length]. lia. }
  unfold inet_chksum, LWIP_CHKSUM. cbn [fst snd].
  rewrite (chksum_2_ones addr) by (apply Hshort; lia). rewrite not16_ones.
  rewrite (with_checksum_sum l1 l2 0) by (exact He || lia).
  set (s := le_sum l1 + 0 + le_sum l2).
  assert (Hs : 0 <= s) by (pose proof (le_sum_bound l1 H1); pose proof (le_sum_bound l2 H2); lia).
  pose proof (ones_range s). rewrite chksum_2_ones by (apply Hshort; lia). rewrite not16_ones.
  rewrite with_checksum_sum by (exact He || lia).
  assert (E : ones (le_sum l1 + (65535 - ones s) + le_sum l2) = 65535); [| lia].
  transitivity (ones 65535); [| reflexivity]. apply ones_eq.
  replace (le_sum l1 + (65535 - ones s) + le_sum l2) with (s + (65535 - ones s)) by (unfold s; lia).
  transitivity (ones s + (65535 - ones s)).
  - apply oc_add_l; [symmetry; now apply ones_oc | lia].
  - replace (ones s + (65535 - ones s)) with 65535 by lia. apply oc_refl. lia.
Qed.

(** C31: Storing the checksum makes the receiver's test succeed: a header whose checksum field (at
    an even offset) was filled with [inet_chksum] of the header with a zero field has [inet_chksum]
    zero, whatever its alignment on either side. *)
Theorem inet_chksum_roundtrip (addr addr' : Z) (l1 l2 : list Z) :
  Forall is_u8 l1 -> Forall is_u8 l2 -> Z.of_nat (length l1 + length l2) <= 65533 ->
  Nat.even (length l1) = true ->
  inet_chksum (addr', with_checksum l1 l2 (inet_chksum (addr, with_checksum l1 l2 0))) = 0.
Proof. apply stored_chksum_verifies. Qed.

Lemma inet_chksum_roundtrip_witness :
  inet_chksum (1, with_checksum [8; 0] [0x12; 0x34; 0; 1]
                    (inet_chksum (0, with_checksum [8; 0] [0x12; 0x34; 0; 1] 0))) = 0.
Proof.
  apply (inet_chksum_roundtrip 0 1 [8; 0] [0x12; 0x34; 0; 1]).
  - repeat constructor; discriminate.
  - repeat constructor; discriminate.
  - cbn. lia.
  - reflexivity.
Defined.
