(* ===== verification/LwipChksumPartial.v ===== *)
(** The checksums of [inet_chksum.c] over a pseudo header and a part of the packet, and the entry points for
    either version of IP, of which the application has IPv4. *)
From Stdlib Require Import ZArith Lia Bool.
From stdpp Require Import base decidable list.
From S2P Require Import Prelude LwipChksum.

Definition ip_chksum_pseudo (p : list segment) (proto proto_len src dest : Z) : Z := inet_chksum_pseudo p proto proto_len src dest.

Definition LWIP_ASSERT_chksum (b : bool) : prog unit unit := if b then ret tt else halt.

(** The loop over the chain; [chksum_len] is what is left of the part. *)
Fixpoint partial_loop (p : list segment) (chksum_len acc : Z) (swapped : bool) : prog unit (Z * bool) :=
  match p with
  | [] => ret (acc, swapped)
  | q :: p' =>
    if 0 <? chksum_len then
      let len := Z.of_nat (length q.2) in
      let chklen := if chksum_len <? len then chksum_len else len in
      let acc := u32 (acc + LWIP_CHKSUM (q.1, take (Z.to_nat chklen) q.2)) in
      let chksum_len := u16 (chksum_len - chklen) in
      LWIP_ASSERT_chksum (chksum_len <? 0x7fff) ;;
      let acc := FOLD_U32T acc in
      if truth (len mod 2) then partial_loop p' chksum_len (SWAP_BYTES_IN_WORD acc) (negb swapped)
      else partial_loop p' chksum_len acc swapped
    else ret (acc, swapped)
  end.

Definition inet_cksum_pseudo_partial_base (p : list segment) (proto proto_len chksum_len acc : Z) : prog unit Z :=
  ' (acc, swapped) <- partial_loop p chksum_len acc false ;;
  let acc := if (swapped : bool) then SWAP_BYTES_IN_WORD acc else acc in
  let acc := u32 (acc + lwip_htons (u16 proto)) in
  let acc := u32 (acc + lwip_htons proto_len) in
  let acc := FOLD_U32T (FOLD_U32T acc) in
  ret (not16 (acc .& 0xffff)).

Definition inet_chksum_pseudo_partial (p : list segment) (proto proto_len chksum_len src dest : Z) : prog unit Z :=
  let acc := src .& 0xffff in
  let acc := u32 (acc + (Z.shiftr src 16 .& 0xffff)) in
  let acc := u32 (acc + (dest .& 0xffff)) in
  let acc := u32 (acc + (Z.shiftr dest 16 .& 0xffff)) in
  let acc := FOLD_U32T (FOLD_U32T acc) in
  inet_cksum_pseudo_partial_base p proto proto_len chksum_len acc.

Definition ip_chksum_pseudo_partial (p : list segment) (proto proto_len chksum_len src dest : Z) : prog unit Z :=
  inet_chksum_pseudo_partial p proto proto_len chksum_len src dest.

(** * What they compute *)

(** The chain with its first [n] bytes only. *)
Fixpoint cut (n : Z) (p : list segment) : list segment :=
  match p with
  | [] => []
  | q :: p' => if 0 <? n then (q.1, take (Z.to_nat n) q.2) :: cut (n - Z.of_nat (length q.2)) p' else []
  end.

(** The assertion holds: less than 0x7fff bytes of the part are beyond the first buffer. *)
Definition partial_ok (n : Z) (p : list segment) : bool :=
  match p with [] => true | q :: _ => n - Z.of_nat (length q.2) <? 0x7fff end.

Definition unswap (r : Z * bool) : Z := if r.2 then SWAP_BYTES_IN_WORD r.1 else r.1.

Lemma swap_swap w : 0 <= w < 65536 -> SWAP_BYTES_IN_WORD (SWAP_BYTES_IN_WORD w) = w.
Proof.
  intros H. destruct (swap_spec w H) as (E & R & _). rewrite (proj1 (swap_spec _ R)), E.
  Z.to_euclidean_division_equations. lia.
Qed.

Lemma cut_data n p : chain_data (cut n p) = take (Z.to_nat n) (chain_data p).
Proof.
  revert n. induction p as [| q p IH]; intros n; cbn [cut]; [now rewrite firstn_nil |].
  unfold chain_data in *. cbn. destruct (Z.ltb_spec 0 n); cbn.
  - rewrite IH, take_app. f_equal. f_equal. lia.
  - now replace (Z.to_nat n) with 0%nat by lia.
Qed.

Lemma cut_short n p : chain_short p -> chain_short (cut n p).
Proof.
  intros H. revert n. induction H as [| q p [H1 H2] _ IH]; intros n; cbn [cut]; [constructor |].
  destruct (0 <? n); constructor; [| apply IH]. split; cbn; [now apply Forall_take | rewrite length_take; lia].
Qed.

Lemma partial_loop_cut p : forall n acc sw, chain_short p -> 0 <= n <= 65535 -> partial_ok n p = true -> 0 <= acc <= 65535 ->
  exists r, partial_loop p n acc sw tt = Done r tt /\ unswap r = unswap (chain_loop (cut n p) acc sw).
Proof.
  induction p as [| q p IH]; intros n acc sw Hp Hn Hok Ha; cbn [partial_loop cut]; [now exists (acc, sw) |].
  destruct (Z.ltb_spec 0 n) as [L | L]; [| now exists (acc, sw)]. apply Forall_cons in Hp as [Hq Hp].
  cbn [partial_ok] in Hok. apply Z.ltb_lt in Hok. cbn [chain_loop fst snd]. unfold LWIP_CHKSUM. cbn [fst snd].
  set (len := Z.of_nat (length q.2)) in *. set (k := if n <? len then n else len).
  assert (Hk : k = Z.min n len) by (unfold k; destruct (Z.ltb_spec n len); lia).
  assert (Et : take (Z.to_nat k) q.2 = take (Z.to_nat n) q.2).
  { rewrite Hk. unfold len. destruct (Z.le_ge_cases n (Z.of_nat (length q.2))).
    - now rewrite Z.min_l by assumption.
    - rewrite Z.min_r, !take_ge by lia. reflexivity. }
  rewrite Et. set (acc1 := FOLD_U32T _).
  assert (Ra : 0 <= acc1 <= 65535).
  { assert (S : short (take (Z.to_nat n) q.2)) by (destruct Hq; split; [now apply Forall_take | rewrite length_take; lia]).
    unfold acc1. rewrite chksum_2_ones by exact S. pose proof (ones_range (le_sum (take (Z.to_nat n) q.2))).
    rewrite u32_small by lia. apply fold_small. lia. }
  assert (Eu : u16 (n - k) = n - k) by (apply u16_small; unfold is_u16; lia). rewrite Eu.
  rewrite (proj2 (Z.ltb_lt (n - k) _)) by lia. cbn [LWIP_ASSERT_chksum]. rewrite (bind_done (ret tt) _ tt tt tt eq_refl).
  destruct (Z.le_gt_cases len n) as [G | G].
  - assert (Ek : k = len) by lia. rewrite Ek, length_take, Nat.min_r by (unfold len in G; lia). fold len.
    assert (Rec : forall a s, 0 <= a <= 65535 -> exists r, partial_loop p (n - len) a s tt = Done r tt /\ unswap r = unswap (chain_loop (cut (n - len) p) a s)).
    { intros a s Hr. apply IH; auto; [unfold len in *; lia |]. unfold partial_ok. destruct p; [reflexivity | apply Z.ltb_lt; lia]. }
    destruct (truth (len mod 2)); apply Rec; [| exact Ra]. destruct (swap_spec acc1) as (_ & ? & _); lia.
  - replace (n - k) with 0 by lia. assert (Ec : cut (n - len) p = []) by (destruct p; cbn [cut]; [reflexivity | now rewrite (proj2 (Z.ltb_ge _ _)) by lia]).
    assert (Es : forall a s, partial_loop p 0 a s tt = Done (a, s) tt) by (intros; now destruct p). rewrite Ec. cbn [chain_loop].
    destruct (truth (len mod 2)), (truth (Z.of_nat (length (take (Z.to_nat n) q.2)) mod 2)); rewrite Es; eexists; (split; [reflexivity |]); unfold unswap; cbn [fst snd];
      destruct sw; cbn [negb]; rewrite ?swap_swap by lia; reflexivity.
Qed.

Lemma partial_loop_halts p n acc sw : 0 < n <= 65535 -> partial_ok n p = false -> partial_loop p n acc sw tt = Halted.
Proof.
  destruct p as [| q p]; [discriminate |]. cbn [partial_ok partial_loop]. intros L E. apply Z.ltb_ge in E.
  rewrite (proj2 (Z.ltb_lt 0 n)) by lia. rewrite (proj2 (Z.ltb_ge n _)) by lia.
  rewrite u16_small by (unfold is_u16; lia). rewrite (proj2 (Z.ltb_ge _ 0x7fff)) by lia. reflexivity.
Qed.

(** The checksum over a part of a packet is that over the chain cut off behind the part, wherever in a buffer
    that is and whatever the lengths of the buffers; so it is the one's complement of the sum of the pseudo header
    and the first [n] bytes. But the library stops on an assertion if 32767 bytes of the part or more are beyond the first buffer. *)
Theorem pseudo_partial_prefix p proto proto_len n src dest :
  chain_short p -> is_u8 proto -> is_u16 proto_len -> is_u16 n -> is_u32 src -> is_u32 dest ->
  ip_chksum_pseudo_partial p proto proto_len n src dest tt =
    (if partial_ok n p then Done (inet_chksum_pseudo (cut n p) proto proto_len src dest) tt else Halted) /\
  inet_chksum_pseudo (cut n p) proto proto_len src dest =
    65535 - ones (pseudo_sum src dest proto proto_len + le_sum (take (Z.to_nat n) (chain_data p))).
Proof.
  intros Hp H1 H2 H3 H4 H5. unfold is_u16 in H3. split.
  - unfold ip_chksum_pseudo_partial, inet_chksum_pseudo_partial, inet_cksum_pseudo_partial_base, inet_chksum_pseudo, inet_cksum_pseudo_base.
    set (acc := FOLD_U32T (FOLD_U32T _)). assert (Ra : 0 <= acc <= 65535) by (unfold acc; rewrite fold2_ones; [apply ones_range | apply Z.mod_pos_bound; lia]).
    destruct (partial_ok n p) eqn:E.
    + destruct (partial_loop_cut p n acc false Hp ltac:(lia) E Ra) as ([a s] & R & U). rewrite (bind_done _ _ _ _ _ R). unfold chain_sum.
      destruct (chain_loop (cut n p) acc false) as [a' s']. unfold unswap in U. cbn [fst snd] in U. now rewrite U.
    + unfold bind. rewrite partial_loop_halts; auto. destruct p; [discriminate |]. cbn [partial_ok] in E. apply Z.ltb_ge in E. lia.
  - rewrite <- cut_data. apply inet_chksum_pseudo_sum; auto. now apply cut_short.
Qed.

(** Three of the seven bytes of a chain, and a part of which too much is beyond the first buffer. *)
Lemma pseudo_partial_prefix_witness :
  ip_chksum_pseudo_partial [(0, [0; 53]); (8, [0; 53; 0; 9; 65])] 17 7 3 0x0100000A 0x0200000A tt =
    Done (65535 - ones (pseudo_sum 0x0100000A 0x0200000A 17 7 + le_sum [0; 53; 0])) tt /\
  ip_chksum_pseudo_partial [(0, [0; 53]); (8, [0; 53; 0; 9; 65])] 17 7 0x8001 0x0100000A 0x0200000A tt = Halted.
Proof.
  pose proof (fun n H => pseudo_partial_prefix [(0, [0; 53]); (8, [0; 53; 0; 9; 65])] 17 7 n 0x0100000A 0x0200000A ltac:(repeat constructor; discriminate)
    ltac:(split; [discriminate | reflexivity]) ltac:(split; [discriminate | reflexivity]) H ltac:(split; [discriminate | reflexivity]) ltac:(split; [discriminate | reflexivity])) as P.
  split.
  - destruct (P 3) as [E S]; [split; [discriminate | reflexivity] |]. cbn [partial_ok] in E. rewrite E, S. reflexivity.
  - destruct (P 0x8001) as [E _]; [split; [discriminate | reflexivity] |]. rewrite E. reflexivity.
Defined.
