(* ===== verification/Ping.v ===== *)
(** The ping responder of the debugging utilities, [stm32_app/debug_utils/enc28_debug.c].

    A packet is its list of bytes. The header structures are views at fixed offsets: the Ethernet
    header takes 14 bytes, the IPv4 header 20 (checked by a static assertion in the source), the
    ICMP header 8; 16-bit fields are read and written little-endian, as the target does. *)
From Stdlib Require Import ZArith Lia Bool.
From stdpp Require Import base decidable list.
From S2P Require Import Prelude LwipChksum.

(** [sizeof] of the headers and the offsets of the fields the code uses. *)
Definition sizeof_eth_header : nat := 14.
Definition sizeof_ipv4_header : nat := 20.
Definition sizeof_icmp_ping_header : nat := 8.

Definition off_mac_dest : nat := 0.
Definition off_mac_src : nat := 6.
Definition off_type_len : nat := 12.
Definition off_protocol : nat := sizeof_eth_header + 9.
Definition off_addr_src : nat := sizeof_eth_header + 12.
Definition off_addr_dest : nat := sizeof_eth_header + 16.
Definition off_icmp_type : nat := sizeof_eth_header + sizeof_ipv4_header.
Definition off_icmp_checksum : nat := sizeof_eth_header + sizeof_ipv4_header + 2.

Definition u8_at (b : list Z) (i : nat) : Z := b !!! i.
Definition u16_at (b : list Z) (i : nat) : Z := le16 (b !!! i) (b !!! S i).
Definition set_u8 (i : nat) (v : Z) (b : list Z) : list Z := <[i := v]> b.
Definition set_u16 (i : nat) (v : Z) (b : list Z) : list Z :=
  <[i := v .& 0xff]> (<[S i := Z.shiftr v 8]> b).

(** [memcpy(dst + i, src + j, n)] *)
Definition memcpy_at (i : nat) (dst : list Z) (j n : nat) (src : list Z) : list Z :=
  take i dst ++ take n (drop j src) ++ drop (i + n) dst.

Definition enc28_debug_is_ping_request (pkt_buf : list Z) (pkt_size : Z) : Z :=
  if pkt_size <? Z.of_nat (sizeof_eth_header + sizeof_ipv4_header + sizeof_icmp_ping_header) then 0
  else if u16_at pkt_buf off_type_len =? 0x08 then
    if u8_at pkt_buf off_protocol =? 0x1 then
      if u8_at pkt_buf off_icmp_type =? 0x8 then 1 else 0
    else 0
  else 0.

(** The status and the response buffer after the call. *)
Definition enc28_debug_handle_ping (pkt_buf : list Z) (pkt_size : Z) (resp_buf : list Z)
  (resp_size : Z) : Z * list Z :=
  if negb (pkt_size =? resp_size) then (-1, resp_buf)
  else if negb (truth (enc28_debug_is_ping_request pkt_buf pkt_size)) then (-2, resp_buf)
  else
    let r := memcpy_at 0 resp_buf 0 (Z.to_nat resp_size) pkt_buf in
    let r := memcpy_at off_mac_dest r off_mac_src 6 pkt_buf in
    let r := memcpy_at off_mac_src r off_mac_dest 6 pkt_buf in
    let r := memcpy_at off_addr_dest r off_addr_src 4 pkt_buf in
    let r := memcpy_at off_addr_src r off_addr_dest 4 pkt_buf in
    let r := set_u8 off_icmp_type 0x0 r in
    let r := set_u16 off_icmp_checksum (u16 (u16_at r off_icmp_checksum + 0x8)) r in
    (0, r).

(** * The response *)

Lemma length_memcpy_at i dst j n src : (i + n <= length dst)%nat -> (j + n <= length src)%nat ->
  length (memcpy_at i dst j n src) = length dst.
Proof.
  intros H1 H2. unfold memcpy_at. rewrite !length_app, !length_take, !length_drop. lia.
Qed.

(** [memcpy] byte by byte. *)
Lemma lookup_memcpy_at i dst j n src k : (i + n <= length dst)%nat -> (j + n <= length src)%nat ->
  memcpy_at i dst j n src !! k =
  if decide (i <= k < i + n)%nat then src !! (j + (k - i))%nat else dst !! k.
Proof.
  intros H1 H2. unfold memcpy_at.
  destruct (Nat.lt_ge_cases k i) as [L | L].
  { rewrite decide_False by lia. rewrite lookup_app_l by (rewrite length_take; lia).
    now apply lookup_take_lt. }
  rewrite lookup_app_r by (rewrite length_take; lia).
  rewrite length_take, Nat.min_l by lia.
  destruct (Nat.lt_ge_cases k (i + n)) as [L2 | L2].
  - rewrite decide_True by lia. rewrite lookup_app_l by (rewrite length_take, length_drop; lia).
    rewrite lookup_take_lt by lia. apply lookup_drop.
  - rewrite decide_False by lia. rewrite lookup_app_r by (rewrite length_take, length_drop; lia).
    rewrite length_take, length_drop, Nat.min_l by lia. rewrite lookup_drop. f_equal. lia.
Qed.

(** Where byte [k] of the response comes from in the request. *)
Definition ping_source (k : nat) : nat :=
  if decide (k < 6)%nat then k + 6
  else if decide (k < 12)%nat then k - 6
  else if decide (26 <= k < 30)%nat then k + 4
  else if decide (30 <= k < 34)%nat then k - 4
  else k.

(** The request the responder accepts. *)
Definition ping_request (b : list Z) (size : Z) : Prop :=
  42 <= size <= Z.of_nat (length b) /\ b !!! 12%nat = 8 /\ b !!! 13%nat = 0 /\ b !!! 23%nat = 1 /\
  b !!! 34%nat = 8.

Lemma le16_eq_byte a b v : is_u8 a -> is_u8 b -> is_u8 v -> le16 a b = v <-> a = v /\ b = 0.
Proof. intros Ha Hb Hv. rewrite le16_value by exact Ha. unfold is_u8 in *. lia. Qed.

Lemma total_u8 b i : Forall is_u8 b -> (i < length b)%nat -> is_u8 (b !!! i).
Proof.
  intros H Hi. destruct (lookup_lt_is_Some_2 b i Hi) as [x Hx].
  rewrite (list_lookup_total_correct _ _ _ Hx). rewrite Forall_forall in H.
  apply H. now apply list_elem_of_lookup_2 in Hx.
Qed.

(** [enc28_debug_is_ping_request] answers 1 exactly for packets of at least 42 bytes whose
    EtherType is IPv4 (0x0800 on the wire), whose IP protocol is ICMP and whose ICMP type is echo
    request; for every other packet, however short, it answers 0. *)
Lemma is_ping_request_iff (b : list Z) (size : Z) :
  Forall is_u8 b -> size <= Z.of_nat (length b) ->
  (enc28_debug_is_ping_request b size = 1 <-> ping_request b size) /\
  (enc28_debug_is_ping_request b size = 0 <-> ~ ping_request b size).
Proof.
  intros Hb Hs. unfold enc28_debug_is_ping_request, u16_at, u8_at.
  set (n := Z.of_nat (sizeof_eth_header + sizeof_ipv4_header + sizeof_icmp_ping_header)).
  assert (En : n = 42) by reflexivity. clearbody n. subst n. unfold ping_request.
  destruct (Z.ltb_spec size 42) as [L | L].
  { split; split; intros; try discriminate; try reflexivity; lia. }
  assert (Hlen : (42 <= length b)%nat) by lia.
  pose proof (total_u8 b 12 Hb ltac:(lia)) as B12. pose proof (total_u8 b 13 Hb ltac:(lia)) as B13.
  change off_type_len with 12%nat. change off_protocol with 23%nat. change off_icmp_type with 34%nat.
  pose proof (le16_eq_byte (b !!! 12%nat) (b !!! 13%nat) 8 B12 B13 ltac:(unfold is_u8; lia)) as E.
  destruct (Z.eqb_spec (le16 (b !!! 12%nat) (b !!! 13%nat)) 0x08);
    destruct (Z.eqb_spec (b !!! 23%nat) 0x1); destruct (Z.eqb_spec (b !!! 34%nat) 0x8);
    split; split; intros; try discriminate; try tauto; try (split; [lia | tauto]).
Qed.

(** The response byte by byte. *)
Definition ping_response_byte (pkt : list Z) (k : nat) : option Z :=
  let c := u16 (u16_at pkt off_icmp_checksum + 8) in
  if decide (k = 34%nat) then Some 0
  else if decide (k = 36%nat) then Some (c .& 0xff)
  else if decide (k = 37%nat) then Some (Z.shiftr c 8)
  else pkt !! ping_source k.

(** The four exchanges of addresses, before the ICMP header is touched. *)
Definition ping_swapped (pkt resp : list Z) (n : nat) : list Z :=
  memcpy_at off_addr_src
    (memcpy_at off_addr_dest
       (memcpy_at off_mac_src
          (memcpy_at off_mac_dest (memcpy_at 0 resp 0 n pkt) off_mac_src 6 pkt)
          off_mac_dest 6 pkt)
       off_addr_src 4 pkt)
    off_addr_dest 4 pkt.

Lemma ping_swapped_spec pkt resp n : (42 <= n)%nat -> (n <= length pkt)%nat -> (n <= length resp)%nat ->
  length (ping_swapped pkt resp n) = length resp /\
  forall k, ping_swapped pkt resp n !! k = if decide (k < n)%nat then pkt !! ping_source k else resp !! k.
Proof.
  intros Hn Hp Hr. unfold ping_swapped, off_addr_src, off_addr_dest, off_mac_src, off_mac_dest, sizeof_eth_header.
  assert (L0 : length (memcpy_at 0 resp 0 n pkt) = length resp) by (apply length_memcpy_at; lia).
  set (r0 := memcpy_at 0 resp 0 n pkt) in *.
  assert (L1 : length (memcpy_at 0 r0 6 6 pkt) = length resp) by (rewrite length_memcpy_at; lia).
  set (r1 := memcpy_at 0 r0 6 6 pkt) in *.
  assert (L2 : length (memcpy_at 6 r1 0 6 pkt) = length resp) by (rewrite length_memcpy_at; lia).
  set (r2 := memcpy_at 6 r1 0 6 pkt) in *.
  assert (L3 : length (memcpy_at (14 + 16) r2 (14 + 12) 4 pkt) = length resp)
    by (rewrite length_memcpy_at; lia).
  set (r3 := memcpy_at (14 + 16) r2 (14 + 12) 4 pkt) in *.
  split; [rewrite length_memcpy_at; lia |]. intros k.
  rewrite lookup_memcpy_at by lia. unfold r3. rewrite lookup_memcpy_at by lia.
  unfold r2. rewrite lookup_memcpy_at by lia. unfold r1. rewrite lookup_memcpy_at by lia.
  unfold r0. rewrite lookup_memcpy_at by lia. unfold ping_source.
  repeat case_decide; try lia; f_equal; lia.
Qed.

Lemma truth_is_ping b size : Forall is_u8 b -> ping_request b size ->
  truth (enc28_debug_is_ping_request b size) = true.
Proof.
  intros Hb H. destruct (is_ping_request_iff b size Hb ltac:(destruct H; lia)) as [E _].
  apply E in H. now rewrite H.
Qed.

(** The reply, byte by byte. *)
Lemma handle_ping_bytes (pkt resp : list Z) (size : Z) :
  Forall is_u8 pkt -> ping_request pkt size -> size <= Z.of_nat (length resp) ->
  exists r, enc28_debug_handle_ping pkt size resp size = (0, r) /\ length r = length resp /\
    forall k, r !! k = if decide (Z.of_nat k < size) then ping_response_byte pkt k else resp !! k.
Proof.
  intros Hb Hq Hr. unfold enc28_debug_handle_ping. rewrite Z.eqb_refl, truth_is_ping by assumption.
  cbn [negb]. destruct Hq as ([H1 H2] & _).
  fold (ping_swapped pkt resp (Z.to_nat size)). cbv zeta.
  destruct (ping_swapped_spec pkt resp (Z.to_nat size)) as [Hlen Hl]; [lia | lia | lia |].
  set (w := ping_swapped pkt resp (Z.to_nat size)) in *.
  eexists. split; [reflexivity |]. unfold set_u16, set_u8. rewrite !length_insert.
  split; [exact Hlen |].
  assert (Eck : u16_at (<[off_icmp_type := 0]> w) off_icmp_checksum = u16_at pkt off_icmp_checksum).
  { unfold u16_at. change off_icmp_checksum with 36%nat. change off_icmp_type with 34%nat.
    rewrite !list_lookup_total_insert_ne by discriminate. rewrite !list_lookup_total_alt, !Hl.
    rewrite !decide_True by lia. reflexivity. }
  rewrite Eck. intros k. unfold ping_response_byte. set (c := u16 _).
  change off_icmp_checksum with 36%nat. change off_icmp_type with 34%nat.
  destruct (decide (k = 36%nat)) as [-> | N36].
  { rewrite list_lookup_insert_eq by (rewrite !length_insert; lia). rewrite decide_True by lia. reflexivity. }
  rewrite list_lookup_insert_ne by congruence.
  destruct (decide (k = 37%nat)) as [-> | N37].
  { rewrite list_lookup_insert_eq by (rewrite length_insert; lia). rewrite decide_True by lia. reflexivity. }
  rewrite list_lookup_insert_ne by congruence.
  destruct (decide (k = 34%nat)) as [-> | N34].
  { rewrite list_lookup_insert_eq by lia. rewrite decide_True by lia. reflexivity. }
  rewrite list_lookup_insert_ne by congruence. rewrite Hl.
  destruct (decide (k < Z.to_nat size)%nat), (decide (Z.of_nat k < size)); try lia; reflexivity.
Qed.

(** C27: For an echo request [enc28_debug_handle_ping] returns 0 and writes exactly the reply: the
    Ethernet and IP source and destination addresses are exchanged, the ICMP type becomes echo
    reply, the ICMP checksum field grows by 8 modulo 65536, every other byte of the packet is
    copied, and the response buffer beyond the packet is untouched. A response size that differs from
    the packet's gives -1 and a packet that is no echo request gives -2, both without touching the
    response buffer. *)
Theorem handle_ping_reply (pkt resp : list Z) (size resp_size : Z) :
  Forall is_u8 pkt -> size <= Z.of_nat (length pkt) -> size <= Z.of_nat (length resp) ->
  (size <> resp_size -> enc28_debug_handle_ping pkt size resp resp_size = (-1, resp)) /\
  (~ ping_request pkt size -> enc28_debug_handle_ping pkt size resp size = (-2, resp)) /\
  (ping_request pkt size ->
   exists r, enc28_debug_handle_ping pkt size resp size = (0, r) /\ length r = length resp /\
     forall k, r !! k = if decide (Z.of_nat k < size) then ping_response_byte pkt k else resp !! k).
Proof.
  intros Hb Hs Hr. split; [| split].
  - intros Hne. unfold enc28_debug_handle_ping. now apply Z.eqb_neq in Hne as ->.
  - intros Hn. unfold enc28_debug_handle_ping. rewrite Z.eqb_refl.
    destruct (is_ping_request_iff pkt size Hb Hs) as [_ E]. apply E in Hn. now rewrite Hn.
  - intros Hq. now apply handle_ping_bytes.
Qed.

(** ** The checksum of the reply *)

(** The ICMP message of [n] bytes in a packet. *)
Definition icmp_message (b : list Z) (n : nat) : list Z := take n (drop 34 b).

Lemma icmp_message_eq b n : (4 <= n)%nat -> (34 + n <= length b)%nat ->
  icmp_message b n = [b !!! 34%nat; b !!! 35%nat; b !!! 36%nat; b !!! 37%nat] ++ take (n - 4) (drop 38 b).
Proof.
  intros Hn Hl. apply list_eq. intros i. unfold icmp_message.
  destruct (Nat.lt_ge_cases i n) as [L | L].
  - rewrite lookup_take_lt, lookup_drop by exact L.
    destruct (Nat.lt_ge_cases i 4) as [L4 | L4].
    + do 4 (destruct i as [| i]; [cbn; symmetry; rewrite <- list_lookup_lookup_total_lt by lia; reflexivity |]).
      lia.
    + rewrite lookup_app_r by (cbn; lia). cbn [length]. rewrite lookup_take_lt, lookup_drop by lia.
      f_equal. lia.
  - rewrite lookup_take_ge by exact L. symmetry. apply lookup_ge_None. cbn [app length].
    rewrite length_take, length_drop. lia.
Qed.

Lemma icmp_sum b n : Forall is_u8 b -> (4 <= n)%nat -> (34 + n <= length b)%nat ->
  le_sum (icmp_message b n) =
  b !!! 34%nat + 256 * (b !!! 35%nat) + u16_at b 36 + le_sum (take (n - 4) (drop 38 b)).
Proof.
  intros Hb Hn Hl. rewrite icmp_message_eq by assumption. cbn [app le_sum].
  unfold u16_at. rewrite le16_value by (apply total_u8; [exact Hb | lia]). lia.
Qed.

(** The receiver's test on a message. *)
Definition icmp_valid (addr : Z) (b : list Z) (n : nat) : Prop := inet_chksum (addr, icmp_message b n) = 0.

Lemma icmp_valid_iff addr b n : Forall is_u8 b -> Z.of_nat n <= 65535 ->
  icmp_valid addr b n <-> ones (le_sum (icmp_message b n)) = 65535.
Proof.
  intros Hb Hn. unfold icmp_valid, inet_chksum, LWIP_CHKSUM. cbn [fst snd].
  rewrite chksum_2_ones.
  - rewrite not16_ones. lia.
  - split; [now apply Forall_take, Forall_drop |]. unfold icmp_message. rewrite length_take. lia.
Qed.

Lemma ping_response_u8 pkt k x : Forall is_u8 pkt -> ping_response_byte pkt k = Some x -> is_u8 x.
Proof.
  intros Hb. unfold ping_response_byte. repeat case_decide.
  - intros [= <-]. unfold is_u8. lia.
  - intros [= <-]. rewrite land_ff. apply u8_range.
  - intros [= <-]. rewrite shiftr8. pose proof (u16_range (u16_at pkt off_icmp_checksum + 8)) as [U1 U2].
    split; [apply Z.div_pos; lia | apply Z.div_lt_upper_bound; lia].
  - intros Hx. rewrite Forall_forall in Hb. apply Hb. now apply list_elem_of_lookup_2 in Hx.
Qed.

(** The reply's message in terms of the request's. *)
Lemma ping_reply_sum pkt r n :
  Forall is_u8 pkt -> (4 <= n)%nat -> (34 + n <= length pkt)%nat -> (34 + n <= length r)%nat ->
  (forall k, (k < 34 + n)%nat -> r !! k = ping_response_byte pkt k) -> Forall is_u8 (take (34 + n) r) ->
  pkt !!! 34%nat = 8 ->
  le_sum (icmp_message r n) =
  le_sum (icmp_message pkt n) - 8 - u16_at pkt 36 + u16 (u16_at pkt 36 + 8).
Proof.
  intros Hb Hn Hp Hr Hk Hru H34.
  assert (Em : icmp_message r n = icmp_message (take (34 + n) r) n).
  { unfold icmp_message. now rewrite !take_drop_commute, take_take, Nat.min_id. }
  rewrite Em. rewrite (icmp_sum (take (34 + n) r)) by (try exact Hru; rewrite ?length_take; lia).
  rewrite (icmp_sum pkt) by assumption.
  assert (Hget : forall k, (k < 34 + n)%nat -> take (34 + n) r !! k = ping_response_byte pkt k).
  { intros k L. rewrite lookup_take_lt by exact L. now apply Hk. }
  assert (Htot : forall k x, (k < 34 + n)%nat -> ping_response_byte pkt k = Some x ->
                             take (34 + n) r !!! k = x).
  { intros k x L E. apply list_lookup_total_correct. rewrite Hget by exact L. exact E. }
  set (c := u16 (u16_at pkt 36 + 8)).
  rewrite (Htot 34%nat 0), H34 by (try lia; reflexivity).
  assert (E35 : take (34 + n) r !!! 35%nat = pkt !!! 35%nat).
  { apply Htot; [lia |]. change (ping_response_byte pkt 35) with (pkt !! 35%nat).
    apply list_lookup_lookup_total_lt. lia. }
  assert (Ec : u16_at (take (34 + n) r) 36 = c).
  { unfold u16_at. rewrite (Htot 36%nat (c .& 0xff)), (Htot 37%nat (Z.shiftr c 8)) by (try lia; reflexivity).
    unfold le16. rewrite Z.lor_comm. apply u16_hi_lo. apply u16_range. }
  assert (Erest : take (n - 4) (drop 38 (take (34 + n) r)) = take (n - 4) (drop 38 pkt)).
  { apply list_eq. intros i. destruct (Nat.lt_ge_cases i (n - 4)) as [L | L].
    - rewrite !lookup_take_lt, !lookup_drop by exact L. rewrite Hget by lia.
      unfold ping_response_byte, ping_source. rewrite !decide_False by lia. reflexivity.
    - now rewrite !lookup_take_ge by exact L. }
  rewrite E35, Ec, Erest. lia.
Qed.

(** The reply to a valid echo request has a valid ICMP checksum if and only if the request's
    checksum field, read little-endian, is below 0xFFF8: adding 8 to the field preserves the one's
    complement sum except when the addition overflows 16 bits, where the end-around carry is lost.
    The eight largest checksum values give a reply every receiver drops. *)
Theorem handle_ping_checksum (addr addr' : Z) (pkt resp : list Z) (size : Z) (n : nat) :
  Forall is_u8 pkt -> ping_request pkt size -> size <= Z.of_nat (length resp) ->
  (4 <= n)%nat -> Z.of_nat (34 + n) <= size <= 65535 -> icmp_valid addr pkt n ->
  exists r, enc28_debug_handle_ping pkt size resp size = (0, r) /\
            (inet_chksum (addr', icmp_message r n) = 0 <-> u16_at pkt off_icmp_checksum < 0xFFF8).
Proof.
  intros Hb Hq Hr Hn Hsz Hv.
  destruct (handle_ping_bytes pkt resp size Hb Hq Hr) as (r & E & Hlen & Hk).
  exists r. split; [exact E |]. destruct Hq as ([H1 H2] & _ & _ & _ & H34).
  assert (Hk' : forall k, (k < 34 + n)%nat -> r !! k = ping_response_byte pkt k).
  { intros k L. rewrite Hk, decide_True by lia. reflexivity. }
  assert (Hru : Forall is_u8 (take (34 + n) r)).
  { apply Forall_forall. intros x Hx. apply list_elem_of_lookup in Hx as [i Hi].
    pose proof (lookup_lt_Some _ _ _ Hi) as L. rewrite length_take in L.
    rewrite lookup_take_lt, Hk' in Hi by lia. exact (ping_response_u8 _ _ _ Hb Hi). }
  pose proof (ping_reply_sum pkt r n Hb Hn ltac:(lia) ltac:(lia) Hk' Hru H34) as Es.
  assert (Em : icmp_message r n = icmp_message (take (34 + n) r) n).
  { unfold icmp_message. now rewrite !take_drop_commute, take_take, Nat.min_id. }
  rewrite Em. change (inet_chksum (addr', icmp_message (take (34 + n) r) n) = 0)
    with (icmp_valid addr' (take (34 + n) r) n).
  rewrite icmp_valid_iff by (try exact Hru; lia). rewrite <- Em, Es.
  apply icmp_valid_iff in Hv; [| exact Hb | lia].
  pose proof (icmp_sum pkt n Hb Hn ltac:(lia)) as Ep.
  pose proof (total_u8 pkt 35 Hb ltac:(lia)) as B35. rewrite H34 in Ep.
  pose proof (total_u8 pkt 36 Hb ltac:(lia)) as B36. pose proof (total_u8 pkt 37 Hb ltac:(lia)) as B37.
  assert (Hc : 0 <= u16_at pkt 36 < 65536) by (unfold u16_at; now apply le16_range).
  change off_icmp_checksum with 36%nat. set (c := u16_at pkt 36) in *.
  set (s := le_sum (icmp_message pkt n)) in *. unfold is_u8 in B35.
  pose proof (le_sum_bound _ (Forall_take _ (n - 4) _ (Forall_drop _ 38 _ Hb))).
  destruct (Z.lt_ge_cases (c + 8) 65536) as [L | L].
  - rewrite u16_small by (unfold is_u16; lia).
    replace (s - 8 - c + (c + 8)) with s by lia. split; [lia | intros _; exact Hv].
  - assert (Eu : u16 (c + 8) = c + 8 - 65536).
    { symmetry. apply Z.mod_unique with (q := 1); lia. }
    rewrite Eu. replace (s - 8 - c + (c + 8 - 65536)) with (s - 65536) by lia.
    split; [| lia]. intros Hones. exfalso.
    unfold ones in Hv, Hones. destruct (Z.eqb_spec s 0); [discriminate |].
    destruct (Z.eqb_spec (s - 65536) 0); [discriminate |].
    assert (E1 : (s - 1) mod 65535 = 65534) by lia.
    assert (E2 : (s - 65536 - 1) mod 65535 = 65534) by lia.
    replace (s - 65536 - 1) with (s - 1 - 1 + -1 * 65535) in E2 by lia.
    rewrite Z.mod_add in E2 by lia.
    rewrite Zminus_mod, E1 in E2. discriminate.
Qed.

(** An echo request with ICMP checksum [c]. *)
Definition sample_ping (c_lo c_hi : Z) : list Z :=
  [2; 0; 0; 0; 0; 1; 2; 0; 0; 0; 0; 2; 8; 0] ++
  [0x45; 0; 0; 0x1C; 0; 0; 0; 0; 64; 1; 0; 0; 10; 0; 0; 1; 10; 0; 0; 2] ++
  [8; 0; c_lo; c_hi; 0; 1; 0; 1].

Lemma sample_ping_ok c_lo c_hi : is_u8 c_lo -> is_u8 c_hi ->
  Forall is_u8 (sample_ping c_lo c_hi) /\ ping_request (sample_ping c_lo c_hi) 42.
Proof.
  intros H1 H2. split.
  - repeat (apply Forall_cons; split; [first [assumption | unfold is_u8; lia] |]). constructor.
  - unfold ping_request. cbn. repeat split; lia.
Qed.

Lemma handle_ping_reply_witness :
  (exists r, enc28_debug_handle_ping (sample_ping 0xF7 0xFD) 42 (repeat 0 42) 42 = (0, r)) /\
  enc28_debug_handle_ping (sample_ping 0xF7 0xFD) 42 (repeat 0 42) 41 = (-1, repeat 0 42) /\
  enc28_debug_handle_ping (sample_ping 0xF7 0xFD) 41 (repeat 0 42) 41 = (-2, repeat 0 42).
Proof.
  assert (Hb : Forall is_u8 (sample_ping 0xF7 0xFD)) by (apply sample_ping_ok; unfold is_u8; lia).
  destruct (handle_ping_reply (sample_ping 0xF7 0xFD) (repeat 0 42) 42 41 Hb ltac:(cbn; lia) ltac:(cbn; lia))
    as (H1 & _ & H3).
  destruct (handle_ping_reply (sample_ping 0xF7 0xFD) (repeat 0 42) 41 41 Hb ltac:(cbn; lia) ltac:(cbn; lia))
    as (_ & H2 & _).
  split; [| split; [apply H1; lia |]].
  - destruct H3 as (r & E & _); [apply sample_ping_ok; unfold is_u8; lia |]. exists r. exact E.
  - apply H2. intros [[H _] _]. lia.
Defined.

(** The request's checksum is 0xF7FD on the wire; the reply's is valid. *)
Lemma handle_ping_checksum_witness :
  exists r, enc28_debug_handle_ping (sample_ping 0xF7 0xFD) 42 (repeat 0 42) 42 = (0, r) /\
            inet_chksum (2, icmp_message r 8) = 0.
Proof.
  destruct (handle_ping_checksum 2 2 (sample_ping 0xF7 0xFD) (repeat 0 42) 42 8) as (r & E & H).
  - apply sample_ping_ok; unfold is_u8; lia.
  - apply sample_ping_ok; unfold is_u8; lia.
  - cbn. lia.
  - lia.
  - cbn. lia.
  - vm_compute. reflexivity.
  - exists r. split; [exact E |]. apply H. vm_compute. reflexivity.
Defined.
