(* ===== verification/PingTask.v ===== *)
(** The IP task of the build without lwIP, the branch [USE_LWIP == 0] of [tasks/ip_stack_task.c].

    In this build the IP task answers echo requests itself, with the functions of [Ping]. lwIP is still
    started, but it is handed no packets, so it sends none: the only buffers that move are those of the
    branch below. All its queue operations but the first wait for nothing, so an iteration runs without
    a task switch and is one transition. The packet task is the one of [App]. *)
From Stdlib Require Import ZArith Lia Bool.
From stdpp Require Import base decidable list gmap.
From S2P Require Import Prelude Enc28Regs App AppTyping Ping.

(** [xQueueSend(q, &x, 0)] with the result ignored. *)
Definition send_or_drop (q : list nat) (x : nat) : list nat := default q (xQueueSend q x).

(** [ping_resp] after [enc28_debug_handle_ping], and its result. *)
Definition debug_reply (b r : nat) (s : net_app) : Z * eth_packet_buff_t :=
  let ready_packet := buff_at s b in
  let '(resp_status, resp) :=
    enc28_debug_handle_ping (buf ready_packet) (used_bytes ready_packet) (buf (buff_at s r)) (used_bytes ready_packet) in
  (resp_status, mk_buff resp (used_bytes ready_packet)).

(** The answer to an echo request in buffer [b]. *)
Definition debug_ping (b : nat) (s : net_app) : net_app :=
  match xQueueReceive (free_packet_buffer_queue s) with
  | Some (r, q) =>
    let '(resp_status, ping_resp) := debug_reply b r s in
    let s := set_buff r ping_resp (set_free q s) in
    if resp_status =? 0 then
      match xQueueSend (transmit_packet_queue s) r with
      | Some q => log_history [] [] [packet_of ping_resp] [] (set_transmit q s)
      | None => s
      end
    else set_free (send_or_drop (free_packet_buffer_queue s) r) s
  | None => s
  end.

(** One iteration of the loop, up to [sys_check_timeouts]. *)
Definition debug_handle (s : net_app) : option net_app :=
  match ip_task s with
  | IWait =>
    ' (b, q) ← xQueueReceive (ready_packet_buffer_queue s);
    let ready_packet := buff_at s b in
    let s := log_history [] [packet_of ready_packet] [] [] (set_ready q s) in
    let s := if truth (enc28_debug_is_ping_request (buf ready_packet) (used_bytes ready_packet))
             then debug_ping b s else s in
    Some (set_ip_task ITimeouts (set_free (send_or_drop (free_packet_buffer_queue s) b) s))
  | _ => None
  end.

Inductive debug_event : Type :=
| DPacket (e : event)    (** an event of the packet task *)
| DReady                 (** an iteration of the IP task *)
| DTimeouts.             (** [sys_check_timeouts] returned *)

Definition of_packet_task (e : event) : bool :=
  match e with
  | EInit | ERead _ _ | ETakeFree | EPushReady | ETakeTransmit | EWrite _ | ENotified => true
  | _ => false
  end.

Definition debug_step (e : debug_event) (s : net_app) : option net_app :=
  match e with
  | DPacket e => if of_packet_task e then step e s else None
  | DReady => debug_handle s
  | DTimeouts => ip_timeouts_return s
  end.

Definition debug_typed (e : debug_event) : Prop := match e with DPacket e => event_typed e | _ => True end.

Inductive debug_reachable : net_app -> Prop :=
| debug_init : debug_reachable app_init
| debug_next s e s' : debug_reachable s -> debug_typed e -> debug_step e s = Some s' -> debug_reachable s'.

(** * The invariant *)

(** The state while the IP task has buffer [b] in its hand. *)
Record holding (b : nat) (s : net_app) : Prop := {
  hold_buffers : length (eth_packets s) = MAX_ETH_PACKETS;
  hold_count : (handed_out s <= MAX_ETH_PACKETS)%nat;
  hold_places : Permutation (b :: places s) (seq 0 (handed_out s));
  hold_live : live s = 0%nat;
  hold_received : received s = delivered s ++ contents s (ready_packet_buffer_queue s) ++ in_hand s;
  hold_submitted : submitted s = transmitted s ++ in_output s ++ contents s (transmit_packet_queue s);
  hold_typed : app_typed s;
  hold_bounds : in_bounds s b
}.

Lemma holding_length b s : holding b s -> (S (length (places s)) <= MAX_ETH_PACKETS)%nat.
Proof.
  intros H. pose proof (Permutation_length (hold_places b s H)) as E. rewrite length_seq in E. cbn in E.
  pose proof (hold_count b s H). lia.
Qed.

Lemma holding_nodup b s : holding b s -> NoDup (b :: places s).
Proof. intros H. rewrite (hold_places b s H). apply NoDup_seq. Qed.

Lemma holding_index b s i : holding b s -> i ∈ b :: places s -> (i < length (eth_packets s))%nat.
Proof.
  intros H Hi. rewrite (hold_places b s H) in Hi. apply elem_of_seq in Hi. rewrite (hold_buffers b s H).
  pose proof (hold_count b s H). lia.
Qed.

(** Taking a buffer from the ready queue, and giving one back to the free queue. *)
Lemma take_ready_holding s b q : app_inv s -> app_typed s -> live s = 0%nat ->
  ready_packet_buffer_queue s = b :: q ->
  holding b (log_history [] [packet_of (buff_at s b)] [] [] (set_ready q s)).
Proof.
  intros [H1 H2 H3 H4 H5 H6] Ht Hl Er. constructor; cbn; auto.
  - etransitivity; [| exact H3]. unfold places, ip_holds. cbn. rewrite Hl, Er. cbn. perm_solve.
  - rewrite app_nil_r, H5, Er. unfold contents. cbn. now rewrite <- app_assoc.
  - rewrite !app_nil_r. exact H6.
  - apply typed_moved with s; auto; [| exact (typed_in_hand s Ht)].
    unfold carriers. cbn. rewrite Er. intros i. repeat first [rewrite elem_of_app | rewrite elem_of_cons]. tauto.
  - destruct Ht as [_ _ Hc _]. rewrite Forall_forall in Hc. apply Hc. unfold carriers. rewrite Er. left.
Qed.

Lemma give_back_inv b s t : holding b s ->
  let s' := set_ip_task t (set_free (send_or_drop (free_packet_buffer_queue s) b) s) in
  app_inv s' /\ app_typed s' /\ live s' = 0%nat /\ free_packet_buffer_queue s' = free_packet_buffer_queue s ++ [b].
Proof.
  intros H. pose proof (holding_length b s H) as L. destruct H as [H1 H2 H3 H4 H5 H6 H7 H8].
  unfold send_or_drop. rewrite xQueueSend_Some by (unfold places in L; rewrite !length_app in L; lia).
  cbn [default from_option id]. cbv zeta. split; [| split; [| split; [exact H4 | reflexivity]]].
  - constructor; cbn; auto.
    + etransitivity; [| exact H3]. unfold places, ip_holds. cbn. rewrite H4. cbn. perm_solve.
    + rewrite H4. split; [lia | discriminate].
  - apply typed_moved with s; auto. exact (typed_in_hand s H7).
Qed.

(** The reply to an echo request. *)
Definition reply_of (pkt : list Z) (reply : list Z) (size : nat) : Prop :=
  length reply = size /\ forall k, (k < size)%nat -> reply !! k = ping_response_byte pkt k.

Lemma ping_recognised b s : Forall buff_ok (eth_packets s) -> in_bounds s b ->
  truth (enc28_debug_is_ping_request (buf (buff_at s b)) (used_bytes (buff_at s b))) = true <->
  ping_request (buf (buff_at s b)) (used_bytes (buff_at s b)).
Proof.
  intros Hok Hb. pose proof (buff_at_ok s b Hok) as [B1 B2 B3]. unfold in_bounds in Hb.
  destruct (is_ping_request_iff (buf (buff_at s b)) (used_bytes (buff_at s b)) B2 ltac:(lia)) as [E1 E0].
  rewrite <- E1. clear -E1 E0. unfold truth.
  destruct (Z.eqb_spec (enc28_debug_is_ping_request (buf (buff_at s b)) (used_bytes (buff_at s b))) 0) as [E | E]; cbn.
  - rewrite E. split; discriminate.
  - split; [| auto]. intros _. destruct (Z.eq_dec (enc28_debug_is_ping_request (buf (buff_at s b)) (used_bytes (buff_at s b))) 1) as [H | H];
      [exact H |]. exfalso. apply E, E0. now rewrite <- E1.
Qed.

Lemma debug_reply_ok b r s : Forall buff_ok (eth_packets s) -> in_bounds s b ->
  ping_request (buf (buff_at s b)) (used_bytes (buff_at s b)) ->
  exists x, debug_reply b r s = (0, x) /\ buff_ok x /\ used_bytes x = used_bytes (buff_at s b) /\
    reply_of (buf (buff_at s b)) (packet_of x) (Z.to_nat (used_bytes (buff_at s b))).
Proof.
  intros Hok Hb Hq. pose proof (buff_at_ok s b Hok) as [B1 B2 B3]. pose proof (buff_at_ok s r Hok) as [R1 R2 R3].
  unfold in_bounds in Hb. unfold debug_reply. set (n := used_bytes (buff_at s b)) in *.
  destruct (handle_ping_bytes (buf (buff_at s b)) (buf (buff_at s r)) n B2 Hq ltac:(lia)) as (resp & E & Hlen & Hk).
  rewrite E. eexists. split; [reflexivity |]. split; [| split; [reflexivity | split]].
  - constructor; cbn [buf used_bytes]; [lia | | exact B3]. apply Forall_lookup. intros k x Hx. rewrite Hk in Hx.
    destruct (decide (Z.of_nat k < n)); [exact (ping_response_u8 _ _ _ B2 Hx) | rewrite Forall_lookup in R2; eauto].
  - unfold packet_of. cbn [buf used_bytes]. rewrite length_take. lia.
  - intros k L. unfold packet_of. cbn [buf used_bytes]. rewrite lookup_take_lt by exact L. rewrite Hk.
    now rewrite decide_True by lia.
Qed.

(** Storing a reply in buffer [r] and queueing it. *)
Lemma queue_reply_holding b r q x s : holding b s -> free_packet_buffer_queue s = r :: q -> buff_ok x ->
  used_bytes x <= Z.of_nat MAX_ETH_PACKET_SIZE ->
  holding b (log_history [] [] [packet_of x] []
    (set_transmit (transmit_packet_queue s ++ [r]) (set_buff r x (set_free q s)))).
Proof.
  intros H Ef Hx Hux. pose proof (holding_nodup b s H) as HN.
  assert (Hr : (r < length (eth_packets s))%nat).
  { apply (holding_index b s r H). right. unfold places. rewrite Ef. left. }
  destruct H as [H1 H2 H3 H4 H5 H6 H7 H8]. unfold places in HN. rewrite Ef in HN. cbn in HN.
  apply NoDup_cons in HN as [Hb HN]. apply NoDup_cons in HN as [Hr' HN].
  rewrite !elem_of_cons in Hb. rewrite !elem_of_app in Hr'.
  assert (Hother : forall l, r ∉ l -> contents (set_buff r x s) l = contents s l) by (intros l; apply contents_set_buff).
  constructor; cbn; auto.
  - now rewrite length_insert.
  - etransitivity; [| exact H3]. unfold places, ip_holds. cbn. rewrite H4, Ef. cbn. perm_solve.
  - rewrite !app_nil_r, H5. f_equal. f_equal.
    + symmetry. apply (Hother (ready_packet_buffer_queue s)). tauto.
    + unfold in_hand. cbn. destruct (packet_task s) as [| | | y | | |] eqn:Ep; try reflexivity.
      symmetry. apply (Hother [y]). rewrite list_elem_of_singleton. intros ->. apply Hr'. do 3 right. left. left.
  - rewrite app_nil_r, H6, <- !app_assoc. f_equal. f_equal.
    + unfold in_output. cbn. destruct (packet_task s) as [| | | | | y |] eqn:Ep; try reflexivity.
      symmetry. apply (Hother [y]). rewrite list_elem_of_singleton. intros ->. apply Hr'. do 3 right. left. left.
    + unfold contents. rewrite fmap_app. f_equal.
      * symmetry. apply (Hother (transmit_packet_queue s)). tauto.
      * unfold buff_at, set_buff. cbn. now rewrite list_lookup_insert_eq.
  - destruct H7 as [T0 T1 T2 T3]. constructor; [exact T0 | now apply Forall_set_buff | | exact T3].
    rewrite Forall_forall in *. intros j Hj. unfold in_bounds.
    change (buff_at _ j) with (buff_at (set_buff r x s) j).
    destruct (decide (j = r)) as [-> | N].
    + unfold buff_at, set_buff. cbn. now rewrite list_lookup_insert_eq.
    + destruct (buff_at_set s r j x) as [[_ ->] | ->]; [congruence |]. apply T2. unfold carriers in *. cbn in Hj.
      revert Hj. repeat first [rewrite elem_of_app | rewrite elem_of_cons | rewrite elem_of_nil]. tauto.
  - unfold in_bounds. change (buff_at _ b) with (buff_at (set_buff r x s) b).
    destruct (buff_at_set s r b x) as [[_ ->] | ->]; [tauto | exact H8].
Qed.

Lemma debug_ping_holding b s : holding b s -> ping_request (buf (buff_at s b)) (used_bytes (buff_at s b)) ->
  holding b (debug_ping b s) /\
  match free_packet_buffer_queue s with
  | [] => debug_ping b s = s
  | r :: q => exists reply, reply_of (buf (buff_at s b)) reply (Z.to_nat (used_bytes (buff_at s b))) /\
      submitted (debug_ping b s) = submitted s ++ [reply] /\
      transmit_packet_queue (debug_ping b s) = transmit_packet_queue s ++ [r] /\
      free_packet_buffer_queue (debug_ping b s) = q
  end.
Proof.
  intros H Hq. unfold debug_ping. destruct (free_packet_buffer_queue s) as [| r q] eqn:Ef; cbn [xQueueReceive]; [auto |].
  pose proof (holding_length b s H) as L. unfold places in L. rewrite Ef in L. cbn [app length] in L. rewrite !length_app in L.
  destruct (debug_reply_ok b r s (typed_buffers s (hold_typed b s H)) (hold_bounds b s H) Hq) as (x & -> & Hx & Hux & Hr).
  cbn [Z.eqb transmit_packet_queue set_buff set_free]. rewrite xQueueSend_Some by lia. split.
  - apply queue_reply_holding; auto. rewrite Hux. apply (hold_bounds b s H).
  - exists (packet_of x). auto.
Qed.

(** * Steps *)

Definition transmitting (s : net_app) : list nat :=
  transmit_packet_queue s ++ match packet_task s with PSend b => [b] | _ => [] end.

(** The invariant of this build: at most seven buffers are on their way out. *)
Record debug_inv (s : net_app) : Prop := {
  debug_app : app_inv s;
  debug_types : app_typed s;
  debug_live : live s = 0%nat;
  debug_ip : ip_task s <> IInput;
  debug_out : (length (transmitting s) < MAX_ETH_PACKETS)%nat
}.

(** A buffer that is anywhere else is not on its way out. *)
Lemma transmitting_room s : app_inv s -> free_packet_buffer_queue s <> [] ->
  (length (transmitting s) < MAX_ETH_PACKETS)%nat.
Proof.
  intros H Hf. pose proof (places_length s H) as E. pose proof (inv_count s H) as C.
  unfold places, transmitting in *. rewrite !length_app in *.
  destruct (free_packet_buffer_queue s); [congruence |]. cbn [length] in E.
  destruct (packet_task s); cbn [packet_holds length] in *; lia.
Qed.

(** What an iteration of the IP task does. *)
Lemma debug_handle_run s b q : debug_inv s -> ip_task s = IWait -> ready_packet_buffer_queue s = b :: q ->
  exists s', debug_handle s = Some s' /\ debug_inv s' /\ ready_packet_buffer_queue s' = q /\
    delivered s' = delivered s ++ [packet_of (buff_at s b)] /\
    (if decide (ping_request (buf (buff_at s b)) (used_bytes (buff_at s b)) /\ free_packet_buffer_queue s <> []) then
       exists r f reply, free_packet_buffer_queue s = r :: f /\ free_packet_buffer_queue s' = f ++ [b] /\
         transmit_packet_queue s' = transmit_packet_queue s ++ [r] /\ submitted s' = submitted s ++ [reply] /\
         reply_of (buf (buff_at s b)) reply (Z.to_nat (used_bytes (buff_at s b)))
     else free_packet_buffer_queue s' = free_packet_buffer_queue s ++ [b] /\
       transmit_packet_queue s' = transmit_packet_queue s /\ submitted s' = submitted s).
Proof.
  intros [H1 H2 H3 _ H4] Ei Er. unfold debug_handle. rewrite Ei, Er. cbn [xQueueReceive option_bind mbind].
  pose proof (take_ready_holding s b q H1 H2 H3 Er) as Hh.
  set (s1 := log_history [] [packet_of (buff_at s b)] [] [] (set_ready q s)) in *.
  pose proof (ping_recognised b s1 (typed_buffers _ (hold_typed b s1 Hh)) (hold_bounds b s1 Hh)) as Hp.
  change (buff_at s1 b) with (buff_at s b) in Hp.
  set (s2 := if truth (enc28_debug_is_ping_request (buf (buff_at s b)) (used_bytes (buff_at s b)))
             then debug_ping b s1 else s1).
  assert (Hh2 : holding b s2).
  { unfold s2. destruct (truth _); [| exact Hh]. apply debug_ping_holding; [exact Hh | now apply Hp]. }
  assert (Hkeep : ready_packet_buffer_queue s2 = q /\ delivered s2 = delivered s ++ [packet_of (buff_at s b)]).
  { unfold s2. destruct (truth _); [| split; reflexivity]. unfold debug_ping. destruct (xQueueReceive _) as [[r f] |]; [| split; reflexivity].
    destruct (debug_reply b r s1) as [st x]. destruct (st =? 0); [destruct (xQueueSend _ _) |]; cbn; rewrite ?app_nil_r; auto. }
  eexists. split; [reflexivity |].
  destruct (give_back_inv b s2 ITimeouts Hh2) as (I1 & I2 & I3 & I4).
  split; [constructor; auto; apply transmitting_room; [exact I1 | rewrite I4; now destruct (free_packet_buffer_queue s2)] |].
  split; [apply Hkeep |]. split; [apply Hkeep |]. rewrite I4.
  cbn [transmit_packet_queue submitted set_ip_task set_free].
  change (free_packet_buffer_queue s) with (free_packet_buffer_queue s1).
  assert (Es1 : submitted s1 = submitted s) by apply app_nil_r.
  unfold s2. destruct (truth _) eqn:Et.
  - pose proof (proj1 Hp eq_refl) as Hq. destruct (debug_ping_holding b s1 Hh Hq) as [_ Hd].
    destruct (free_packet_buffer_queue s1) as [| r f] eqn:Ef.
    + rewrite decide_False by tauto. rewrite Hd, Ef. auto.
    + rewrite decide_True by (split; [exact Hq | discriminate]). destruct Hd as (reply & R1 & R2 & R3 & R4).
      exists r, f, reply. rewrite R2, R3, R4, Es1. auto.
  - rewrite decide_False; [auto |]. intros [Hq _]. apply Hp in Hq. congruence.
Qed.

Lemma packet_event_out e s s' : of_packet_task e = true -> step e s = Some s' ->
  live s' = live s /\ ip_task s' = ip_task s /\ (length (transmitting s') <= length (transmitting s))%nat.
Proof.
  intros He E. unfold transmitting. destruct e; try discriminate; cbn [step] in E.
  - unfold packet_init in E. destruct (packet_task s); try discriminate.
    destruct (_ <? _)%nat; [destruct (xQueueSend _ _); [| discriminate] |]; cbn in E; injection E as <-; cbn; auto.
  - unfold packet_read in E. destruct (packet_task s); try discriminate.
    destruct (is_ok st); injection E as <-; cbn; auto.
  - unfold packet_take_free in E. destruct (packet_task s); try discriminate.
    destruct (xQueueReceive _) as [[b q] |]; [| discriminate]. cbn in E. injection E as <-. cbn. auto.
  - unfold packet_push_ready in E. destruct (packet_task s); try discriminate.
    destruct (xQueueSend _ _); [| discriminate]. cbn in E. injection E as <-. cbn. auto.
  - unfold packet_take_transmit in E. destruct (packet_task s); try discriminate.
    destruct (transmit_packet_queue s) as [| b q] eqn:Et; cbn in E; injection E as <-; cbn; rewrite ?Et, ?length_app; cbn; 
      (split; [reflexivity | split; [reflexivity | lia]]).
  - unfold packet_write in E. destruct (packet_task s); try discriminate. destruct (is_ok st); [| discriminate].
    injection E as <-. destruct (xQueueSend _ _); cbn; rewrite !length_app; cbn; 
      (split; [reflexivity | split; [reflexivity | lia]]).
  - unfold packet_notified in E. destruct (packet_task s); try discriminate. injection E as <-. cbn. auto.
Qed.

Lemma debug_step_inv e s s' : debug_inv s -> debug_typed e -> debug_step e s = Some s' -> debug_inv s'.
Proof.
  intros H He E. destruct e as [e | |]; cbn [debug_step debug_typed] in *.
  - destruct (of_packet_task e) eqn:Ep; [| discriminate]. destruct H as [H1 H2 H3 H5 H4].
    destruct (packet_event_out e s s' Ep E) as (L1 & L3 & L2).
    constructor; [| now apply step_typed with e s | congruence | congruence | lia].
    apply step_inv with e s; auto. now destruct e.
  - destruct (ip_task s) eqn:Ei; unfold debug_handle in E; rewrite Ei in E; try discriminate.
    destruct (ready_packet_buffer_queue s) as [| b q] eqn:Er; [discriminate |].
    destruct (debug_handle_run s b q H Ei Er) as (s2 & E2 & H2 & _). unfold debug_handle in E2. rewrite Ei, Er in E2.
    congruence.
  - unfold ip_timeouts_return in E. destruct (ip_task s) eqn:Ei; try discriminate. injection E as <-.
    destruct H as [H1 H2 H3 _ H4]. constructor; auto; [now apply ip_return_inv |].
    apply typed_moved with s; auto. exact (typed_in_hand s H2).
Qed.

Lemma debug_reachable_inv s : debug_reachable s -> debug_inv s.
Proof.
  induction 1 as [| s e s' _ IH He E]; [| now apply debug_step_inv with e s].
  constructor; [apply reachable_inv; constructor | apply app_init_typed | reflexivity | discriminate | cbn; unfold MAX_ETH_PACKETS; lia].
Qed.

(** * Properties *)

(** A next step of the packet task. *)
Definition packet_event (s : net_app) : event :=
  match packet_task s with
  | PInit _ => EInit
  | PRead => ERead ENC28_NO_DATA []
  | PGot _ => ETakeFree
  | PFilled _ => EPushReady
  | PTx => ETakeTransmit
  | PSend _ => EWrite ENC28_OK
  | PNotify => ENotified
  end.

Lemma packet_can_proceed s : app_inv s ->
  is_Some (step (packet_event s) s) \/
  (exists data, packet_task s = PGot data) /\ free_packet_buffer_queue s = [].
Proof.
  intros H. unfold packet_event.
  destruct (packet_task s) as [i | | data | b | | b |] eqn:Ep; try (left; apply packet_proceeds; rewrite ?Ep; cbn; auto; fail).
  destruct (free_packet_buffer_queue s) as [| x q] eqn:Ef; [right; eauto | left].
  apply packet_proceeds; [exact H | now rewrite Ep | cbn; congruence].
Qed.

(** The build without lwIP does not deadlock: in every reachable state all buffers handed out are
    in exactly one place, at most seven are on their way out, and either the packet task can proceed
    (provided the driver's calls return), or it waits for a free buffer and the IP task can proceed; the
    IP task's next iteration then gives it one. *)
Theorem debug_responder_progress (s : net_app) :
  debug_reachable s ->
  Permutation (places s) (seq 0 (handed_out s)) /\ (length (transmitting s) < MAX_ETH_PACKETS)%nat /\
  (is_Some (debug_step (DPacket (packet_event s)) s) \/
   free_packet_buffer_queue s = [] /\
   (is_Some (debug_step DTimeouts s) \/
    exists s', debug_step DReady s = Some s' /\ free_packet_buffer_queue s' <> [])).
Proof.
  intros H. apply debug_reachable_inv in H. pose proof H as [H1 H2 H3 H5 H4].
  split; [apply (inv_places s H1) |]. split; [exact H4 |].
  assert (Ep : of_packet_task (packet_event s) = true) by (unfold packet_event; now destruct (packet_task s)).
  cbn [debug_step]. rewrite Ep. destruct (packet_can_proceed s H1) as [G | [[data Ed] Ef]]; [now left | right].
  split; [exact Ef |]. destruct (ip_task s) eqn:Ei.
  - right. destruct (ready_packet_buffer_queue s) as [| b q] eqn:Er.
    + exfalso. pose proof (places_length s H1) as E. unfold places, handed_out, transmitting, ip_holds in *.
      rewrite H3, Ef, Er, Ed in E. rewrite Ed in H4. rewrite !length_app in *. cbn in E, H4. lia.
    + destruct (debug_handle_run s b q H Ei Er) as (s' & E & _ & _ & _ & Hf). exists s'. split; [exact E |].
      rewrite decide_False in Hf by tauto. destruct Hf as (-> & _). now destruct (free_packet_buffer_queue s).
  - congruence.
  - left. unfold ip_timeouts_return. rewrite Ei. eauto.
Qed.

(** An iteration of the IP task without lwIP, from any reachable state with a packet in the ready queue:
    the packet's buffer goes back to the free queue in every case. If the packet is an echo request and
    there is a free buffer, the reply [enc28_debug_handle_ping] makes of it, byte by byte, is queued for
    transmission in that buffer; otherwise nothing is sent. No assertion fails and no buffer is lost. *)
Theorem debug_responder_answers (s : net_app) (b : nat) (q : list nat) :
  debug_reachable s -> ip_task s = IWait -> ready_packet_buffer_queue s = b :: q ->
  exists s', debug_step DReady s = Some s' /\ debug_reachable s' /\ ready_packet_buffer_queue s' = q /\
    delivered s' = delivered s ++ [packet_of (buff_at s b)] /\
    (if decide (ping_request (buf (buff_at s b)) (used_bytes (buff_at s b)) /\ free_packet_buffer_queue s <> []) then
       exists r f reply, free_packet_buffer_queue s = r :: f /\ free_packet_buffer_queue s' = f ++ [b] /\
         transmit_packet_queue s' = transmit_packet_queue s ++ [r] /\ submitted s' = submitted s ++ [reply] /\
         reply_of (buf (buff_at s b)) reply (Z.to_nat (used_bytes (buff_at s b)))
     else free_packet_buffer_queue s' = free_packet_buffer_queue s ++ [b] /\
       transmit_packet_queue s' = transmit_packet_queue s /\ submitted s' = submitted s).
Proof.
  intros H Ei Er. destruct (debug_handle_run s b q (debug_reachable_inv s H) Ei Er) as (s' & E & _ & E1 & E2 & E3).
  exists s'. split; [exact E |]. split; [now apply (debug_next s DReady) |]. auto.
Qed.

(** ** Instances *)

Fixpoint debug_run (es : list debug_event) (s : net_app) : option net_app :=
  match es with [] => Some s | e :: es' => debug_step e s ≫= debug_run es' end.

Definition debug_typed_b (e : debug_event) : bool := match e with DPacket e => typed_event_b e | _ => true end.

Lemma debug_run_reachable es : forall s s', debug_reachable s -> forallb debug_typed_b es = true ->
  debug_run es s = Some s' -> debug_reachable s'.
Proof.
  induction es as [| e es IH]; intros s s' H Ht E; cbn in *; [now injection E as <- |].
  apply andb_true_iff in Ht as [Ht1 Ht2]. destruct (debug_step e s) as [s1 |] eqn:E1; [| discriminate].
  apply (IH s1); auto. apply debug_next with s e; auto.
  destruct e as [e | |]; cbn in *; auto. now apply typed_check.
Qed.

(** An echo request has been read and queued. *)
Definition ping_trace : list debug_event :=
  DPacket <$> fill_free ++ [ERead ENC28_OK (sample_ping 0xF7 0xFD); ETakeFree; EPushReady].
Definition ping_waiting : net_app := default app_init (debug_run ping_trace app_init).

Lemma ping_waiting_reachable : debug_reachable ping_waiting.
Proof.
  unfold ping_waiting. destruct (debug_run ping_trace app_init) as [s |] eqn:E; [| constructor].
  apply (debug_run_reachable ping_trace app_init); [constructor | vm_compute; reflexivity | exact E].
Qed.

(** All buffers but one hold replies, and the packet task waits with a packet in hand. *)
Definition ping_cycle : list debug_event :=
  [DPacket (ERead ENC28_OK (sample_ping 0xF7 0xFD)); DPacket ETakeFree; DPacket EPushReady; DReady; DTimeouts].
Definition flood_trace : list debug_event :=
  (DPacket <$> fill_free) ++ concat (repeat ping_cycle 7) ++
  [DPacket (ERead ENC28_OK (sample_ping 0xF7 0xFD)); DPacket ETakeFree; DPacket EPushReady;
   DPacket (ERead ENC28_OK (sample_ping 0xF7 0xFD))].
Definition ping_flooded : net_app := default app_init (debug_run flood_trace app_init).

Lemma debug_responder_progress_witness :
  length (transmit_packet_queue ping_flooded) = 7%nat /\ free_packet_buffer_queue ping_flooded = [] /\
  exists s', debug_step DReady ping_flooded = Some s' /\ free_packet_buffer_queue s' <> [].
Proof.
  assert (R : debug_reachable ping_flooded).
  { unfold ping_flooded. destruct (debug_run flood_trace app_init) as [s |] eqn:E; [| constructor].
    apply (debug_run_reachable flood_trace app_init); [constructor | vm_compute; reflexivity | exact E]. }
  assert (E1 : length (transmit_packet_queue ping_flooded) = 7%nat) by (vm_compute; reflexivity).
  assert (E2 : free_packet_buffer_queue ping_flooded = []) by (vm_compute; reflexivity).
  assert (E3 : debug_step (DPacket (packet_event ping_flooded)) ping_flooded = None) by (vm_compute; reflexivity).
  assert (E4 : debug_step DTimeouts ping_flooded = None) by (vm_compute; reflexivity).
  split; [exact E1 |]. split; [exact E2 |].
  destruct (debug_responder_progress _ R) as (_ & _ & [[s H] | (_ & [[s H] | H])]); [congruence | congruence | exact H].
Defined.

Lemma debug_responder_answers_witness :
  exists s' reply, debug_step DReady ping_waiting = Some s' /\ submitted s' = [reply] /\ length reply = 42%nat.
Proof.
  destruct (debug_responder_answers ping_waiting 0 [] ping_waiting_reachable ltac:(vm_compute; reflexivity)
              ltac:(vm_compute; reflexivity)) as (s' & E & _ & _ & _ & H).
  rewrite decide_True in H.
  - destruct H as (r & f & reply & _ & _ & _ & Es & [Hl _]). exists s', reply. split; [exact E |]. split.
    + rewrite Es. vm_compute. reflexivity.
    + rewrite Hl. vm_compute. reflexivity.
  - split; [| vm_compute; discriminate]. vm_compute. repeat split; discriminate.
Defined.
