(* ===== verification/Heap4.v ===== *)
(** The kernel's memory allocator, [FreeRTOS/portable/MemMang/heap_4.c].

    The heap memory is modelled by the block headers stored in it: a map from addresses to
    [BlockLink_t]. Pointers are addresses, [NULL] is 0; the static variable [xStart] lives at an
    address of its own. Loading a header nobody stored is undefined, and so is a store outside the
    heap. The address of the heap is a section variable. The configuration is the application's:
    32-bit [size_t], 8-byte alignment, no heap protector, no clearing on free. *)
From Stdlib Require Import ZArith Lia Bool.
From stdpp Require Import base decidable list gmap.
From S2P Require Import Prelude.

Definition configTOTAL_HEAP_SIZE : Z := 75 * 1024.
Definition portBYTE_ALIGNMENT : Z := 8.
Definition portBYTE_ALIGNMENT_MASK : Z := 0x0007.

Record BlockLink_t : Type := mk_block { pxNextFreeBlock : Z; xBlockSize : Z }.

Definition sizeof_BlockLink_t : Z := 8.
Definition xHeapStructSize : Z :=
  (sizeof_BlockLink_t + (portBYTE_ALIGNMENT - 1)) .& Z.lnot portBYTE_ALIGNMENT_MASK.

Definition heapMINIMUM_BLOCK_SIZE : Z := Z.shiftl xHeapStructSize 1.
Definition heapSIZE_MAX : Z := 0xffffffff.
Definition heapADD_WILL_OVERFLOW (a b : Z) : bool := heapSIZE_MAX - b <? a.
Definition heapMULTIPLY_WILL_OVERFLOW (a b : Z) : bool := (0 <? a) && (heapSIZE_MAX / a <? b).
Definition heapSUBTRACT_WILL_UNDERFLOW (a b : Z) : bool := a <? b.
Definition heapBLOCK_ALLOCATED_BITMASK : Z := Z.shiftl 1 31.
Definition heapBLOCK_SIZE_IS_VALID (s : Z) : bool := s .& heapBLOCK_ALLOCATED_BITMASK =? 0.
Definition heapBLOCK_IS_ALLOCATED (b : BlockLink_t) : bool :=
  negb (xBlockSize b .& heapBLOCK_ALLOCATED_BITMASK =? 0).

(** The allocator's static variables and the memory it manages. *)
Record heap : Type := mk_heap {
  blocks : gmap Z BlockLink_t;
  pxEnd : Z;
  xFreeBytesRemaining : Z;
  xMinimumEverFreeBytesRemaining : Z;
  xNumberOfSuccessfulAllocations : Z;
  xNumberOfSuccessfulFrees : Z
}.

Record HeapStats_t : Type := mk_stats {
  xAvailableHeapSpaceInBytes : Z;
  xSizeOfLargestFreeBlockInBytes : Z;
  xSizeOfSmallestFreeBlockInBytes : Z;
  xNumberOfFreeBlocks : Z;
  xMinimumEverFreeBytes : Z;
  stats_allocations : Z;
  stats_frees : Z
}.

(** The state in [.data] before the first call. *)
Definition heap_reset (m : gmap Z BlockLink_t) : heap := mk_heap m 0 0 0 0 0.

Section Heap.
Variable ucHeap : Z.    (** [&ucHeap[0]] *)
Variable xStart : Z.    (** [&xStart] *)
Variable fuel : nat.    (** bound on the traversals of the free list *)

Local Abbreviation M := (prog heap).

(** An address a header may be stored at. *)
Definition is_object (a : Z) : bool :=
  (a =? xStart) || ((ucHeap <=? a) && (a + sizeof_BlockLink_t <=? ucHeap + configTOTAL_HEAP_SIZE)).

Definition load (a : Z) : M BlockLink_t := fun h =>
  match blocks h !! a with Some b => Done b h | None => Undefined end.

Definition set_blocks (m : gmap Z BlockLink_t) (h : heap) : heap :=
  mk_heap m (pxEnd h) (xFreeBytesRemaining h) (xMinimumEverFreeBytesRemaining h)
    (xNumberOfSuccessfulAllocations h) (xNumberOfSuccessfulFrees h).

(** [p->pxNextFreeBlock = v] and [p->xBlockSize = v]. *)
Definition with_next (v : Z) (b : BlockLink_t) : BlockLink_t := mk_block v (xBlockSize b).
Definition with_size (v : Z) (b : BlockLink_t) : BlockLink_t := mk_block (pxNextFreeBlock b) v.

Definition store (a : Z) (f : BlockLink_t -> BlockLink_t) : M unit := fun h =>
  if is_object a
  then Done tt (set_blocks (<[a := f (default (mk_block 0 0) (blocks h !! a))]> (blocks h)) h)
  else Undefined.

Definition set_next (a v : Z) : M unit := store a (with_next v).
Definition set_size (a v : Z) : M unit := store a (with_size v).

Definition heapVALIDATE_BLOCK_POINTER (p : Z) : M unit :=
  configASSERT ((ucHeap <=? p) && (p <=? ucHeap + configTOTAL_HEAP_SIZE - 1)).

Definition set_free_bytes (f mn : Z) : M unit :=
  modify (fun h => mk_heap (blocks h) (pxEnd h) f mn (xNumberOfSuccessfulAllocations h)
                     (xNumberOfSuccessfulFrees h)).
Definition set_pxEnd (e : Z) : M unit :=
  modify (fun h => mk_heap (blocks h) e (xFreeBytesRemaining h) (xMinimumEverFreeBytesRemaining h)
                     (xNumberOfSuccessfulAllocations h) (xNumberOfSuccessfulFrees h)).
Definition count_allocation : M unit :=
  modify (fun h => mk_heap (blocks h) (pxEnd h) (xFreeBytesRemaining h)
                     (xMinimumEverFreeBytesRemaining h)
                     (u32 (xNumberOfSuccessfulAllocations h + 1)) (xNumberOfSuccessfulFrees h)).
Definition count_free : M unit :=
  modify (fun h => mk_heap (blocks h) (pxEnd h) (xFreeBytesRemaining h)
                     (xMinimumEverFreeBytesRemaining h)
                     (xNumberOfSuccessfulAllocations h) (u32 (xNumberOfSuccessfulFrees h + 1))).

(** ** Initialisation *)

Definition align_mask (a : Z) : Z := a .& Z.lnot portBYTE_ALIGNMENT_MASK.

(** The aligned start and the total size left. *)
Definition heap_start : Z :=
  if negb (ucHeap .& portBYTE_ALIGNMENT_MASK =? 0)
  then align_mask (u32 (ucHeap + (portBYTE_ALIGNMENT - 1))) else ucHeap.
Definition heap_total : Z :=
  if negb (ucHeap .& portBYTE_ALIGNMENT_MASK =? 0)
  then u32 (configTOTAL_HEAP_SIZE - (heap_start - ucHeap)) else configTOTAL_HEAP_SIZE.
Definition heap_end : Z := align_mask (u32 (u32 (heap_start + heap_total) - xHeapStructSize)).

Definition prvHeapInit : M unit :=
  let uxStartAddress := heap_start in
  set_next xStart uxStartAddress ;;
  set_size xStart 0 ;;
  let uxEndAddress := heap_end in
  set_pxEnd uxEndAddress ;;
  set_size uxEndAddress 0 ;;
  set_next uxEndAddress 0 ;;
  let pxFirstFreeBlock := uxStartAddress in
  set_size pxFirstFreeBlock (u32 (uxEndAddress - pxFirstFreeBlock)) ;;
  set_next pxFirstFreeBlock uxEndAddress ;;
  first <- load pxFirstFreeBlock ;;
  set_free_bytes (xBlockSize first) (xBlockSize first).

(** ** Allocation *)

(** The size of the block needed for [xWantedSize] bytes; 0 when there is none. *)
Definition block_size_for (xWantedSize : Z) : Z :=
  if 0 <? xWantedSize then
    if negb (heapADD_WILL_OVERFLOW xWantedSize xHeapStructSize) then
      let xWantedSize := u32 (xWantedSize + xHeapStructSize) in
      if negb (xWantedSize .& portBYTE_ALIGNMENT_MASK =? 0) then
        let extra := portBYTE_ALIGNMENT - (xWantedSize .& portBYTE_ALIGNMENT_MASK) in
        if negb (heapADD_WILL_OVERFLOW xWantedSize extra) then u32 (xWantedSize + extra) else 0
      else xWantedSize
    else 0
  else xWantedSize.

(** The traversal of the free list: the previous block and the block it stops at. *)
Fixpoint malloc_find (n : nat) (pxPreviousBlock pxBlock xWantedSize : Z) : M (Z * Z) :=
  match n with
  | O => out_of_fuel
  | S n' =>
    b <- load pxBlock ;;
    if (xBlockSize b <? xWantedSize) && negb (pxNextFreeBlock b =? 0) then
      heapVALIDATE_BLOCK_POINTER (pxNextFreeBlock b) ;;
      malloc_find n' pxBlock (pxNextFreeBlock b) xWantedSize
    else ret (pxPreviousBlock, pxBlock)
  end.

(** Taking the block found, splitting it if the rest is large enough. *)
Definition malloc_take (pxPreviousBlock pxBlock xWantedSize : Z) : M Z :=
  prev <- load pxPreviousBlock ;;
  let pvReturn := u32 (pxNextFreeBlock prev + xHeapStructSize) in
  heapVALIDATE_BLOCK_POINTER pvReturn ;;
  b <- load pxBlock ;;
  set_next pxPreviousBlock (pxNextFreeBlock b) ;;
  b <- load pxBlock ;;
  configASSERT (negb (heapSUBTRACT_WILL_UNDERFLOW (xBlockSize b) xWantedSize)) ;;
  (if heapMINIMUM_BLOCK_SIZE <? u32 (xBlockSize b - xWantedSize) then
     let pxNewBlockLink := u32 (pxBlock + xWantedSize) in
     configASSERT (pxNewBlockLink .& portBYTE_ALIGNMENT_MASK =? 0) ;;
     set_size pxNewBlockLink (u32 (xBlockSize b - xWantedSize)) ;;
     set_size pxBlock xWantedSize ;;
     prev <- load pxPreviousBlock ;;
     set_next pxNewBlockLink (pxNextFreeBlock prev) ;;
     set_next pxPreviousBlock pxNewBlockLink
   else ret tt) ;;
  b <- load pxBlock ;;
  h <- get ;;
  let free := u32 (xFreeBytesRemaining h - xBlockSize b) in
  let mn := if free <? xMinimumEverFreeBytesRemaining h then free
            else xMinimumEverFreeBytesRemaining h in
  set_free_bytes free mn ;;
  set_size pxBlock (xBlockSize b .| heapBLOCK_ALLOCATED_BITMASK) ;;
  set_next pxBlock 0 ;;
  count_allocation ;;
  ret pvReturn.

Definition pvPortMalloc (xWantedSize : Z) : M Z :=
  let xWantedSize := block_size_for xWantedSize in
  h <- get ;;
  (if pxEnd h =? 0 then prvHeapInit else ret tt) ;;
  h <- get ;;
  pvReturn <-
    (if heapBLOCK_SIZE_IS_VALID xWantedSize then
       if (0 <? xWantedSize) && (xWantedSize <=? xFreeBytesRemaining h) then
         start <- load xStart ;;
         let pxBlock := pxNextFreeBlock start in
         heapVALIDATE_BLOCK_POINTER pxBlock ;;
         ' (pxPreviousBlock, pxBlock) <- malloc_find fuel xStart pxBlock xWantedSize ;;
         if negb (pxBlock =? pxEnd h) then malloc_take pxPreviousBlock pxBlock xWantedSize
         else ret 0
       else ret 0
     else ret 0) ;;
  configASSERT (pvReturn .& portBYTE_ALIGNMENT_MASK =? 0) ;;
  ret pvReturn.

(** ** Freeing *)

Fixpoint insert_find (n : nat) (pxIterator pxBlockToInsert : Z) : M Z :=
  match n with
  | O => out_of_fuel
  | S n' =>
    it <- load pxIterator ;;
    if pxNextFreeBlock it <? pxBlockToInsert
    then insert_find n' (pxNextFreeBlock it) pxBlockToInsert
    else ret pxIterator
  end.

Definition prvInsertBlockIntoFreeList (pxBlockToInsert : Z) : M unit :=
  pxIterator <- insert_find fuel xStart pxBlockToInsert ;;
  (if negb (pxIterator =? xStart) then heapVALIDATE_BLOCK_POINTER pxIterator else ret tt) ;;
  it <- load pxIterator ;;
  pxBlockToInsert <-
    (if u32 (pxIterator + xBlockSize it) =? pxBlockToInsert then
       b <- load pxBlockToInsert ;;
       set_size pxIterator (u32 (xBlockSize it + xBlockSize b)) ;;
       ret pxIterator
     else ret pxBlockToInsert) ;;
  b <- load pxBlockToInsert ;;
  it <- load pxIterator ;;
  h <- get ;;
  (if u32 (pxBlockToInsert + xBlockSize b) =? pxNextFreeBlock it then
     if negb (pxNextFreeBlock it =? pxEnd h) then
       nx <- load (pxNextFreeBlock it) ;;
       set_size pxBlockToInsert (u32 (xBlockSize b + xBlockSize nx)) ;;
       set_next pxBlockToInsert (pxNextFreeBlock nx)
     else set_next pxBlockToInsert (pxEnd h)
   else set_next pxBlockToInsert (pxNextFreeBlock it)) ;;
  (if negb (pxIterator =? pxBlockToInsert) then set_next pxIterator pxBlockToInsert else ret tt).

Definition vPortFree (pv : Z) : M unit :=
  if negb (pv =? 0) then
    let pxLink := u32 (pv - xHeapStructSize) in
    heapVALIDATE_BLOCK_POINTER pxLink ;;
    b <- load pxLink ;;
    configASSERT (heapBLOCK_IS_ALLOCATED b) ;;
    configASSERT (pxNextFreeBlock b =? 0) ;;
    if heapBLOCK_IS_ALLOCATED b then
      if pxNextFreeBlock b =? 0 then
        set_size pxLink (xBlockSize b .& Z.lnot heapBLOCK_ALLOCATED_BITMASK) ;;
        b <- load pxLink ;;
        h <- get ;;
        set_free_bytes (u32 (xFreeBytesRemaining h + xBlockSize b))
          (xMinimumEverFreeBytesRemaining h) ;;
        prvInsertBlockIntoFreeList pxLink ;;
        count_free
      else ret tt
    else ret tt
  else ret tt.

(** ** Statistics *)

Definition xPortGetFreeHeapSize : M Z := h <- get ;; ret (xFreeBytesRemaining h).
Definition xPortGetMinimumEverFreeHeapSize : M Z :=
  h <- get ;; ret (xMinimumEverFreeBytesRemaining h).

(** The loop of [vPortGetHeapStats]: block count, largest and smallest size. *)
Fixpoint stats_loop (n : nat) (pxBlock xBlocks xMaxSize xMinSize : Z) : M (Z * Z * Z) :=
  match n with
  | O => out_of_fuel
  | S n' =>
    h <- get ;;
    if negb (pxBlock =? pxEnd h) then
      b <- load pxBlock ;;
      let xMaxSize := if xMaxSize <? xBlockSize b then xBlockSize b else xMaxSize in
      let xMinSize := if xBlockSize b <? xMinSize then xBlockSize b else xMinSize in
      stats_loop n' (pxNextFreeBlock b) (xBlocks + 1) xMaxSize xMinSize
    else ret (xBlocks, xMaxSize, xMinSize)
  end.

Definition vPortGetHeapStats : M HeapStats_t :=
  start <- load xStart ;;
  ' (xBlocks, xMaxSize, xMinSize) <-
    (if negb (pxNextFreeBlock start =? 0)
     then stats_loop fuel (pxNextFreeBlock start) 0 0 0xffffffff
     else ret (0, 0, 0xffffffff)) ;;
  h <- get ;;
  ret (mk_stats (xFreeBytesRemaining h) xMaxSize xMinSize xBlocks
         (xMinimumEverFreeBytesRemaining h) (xNumberOfSuccessfulAllocations h)
         (xNumberOfSuccessfulFrees h)).

Definition vPortHeapResetState : M unit := modify (fun h => heap_reset (blocks h)).
End Heap.
