(* ===== verification/Heap4Proofs.v ===== *)
(** Correctness of the allocator of [Heap4].

    The abstract heap is a list of segments, used or free, that tile the heap memory from its first
    aligned address to the end marker. [rep h l] says that the concrete state [h] represents [l]: the
    free list visits exactly the free segments in address order, every used segment has its header
    marked, and the byte counter is the sum of the free segments. Allocation is first fit with
    splitting, and freeing merges with both neighbours; so no two free segments are adjacent. *)
From Stdlib Require Import ZArith Lia Bool.
From stdpp Require Import base decidable list gmap.
From S2P Require Import Prelude Heap4.

(** * Abstract heaps *)

Record seg : Type := mk_seg { used : bool; size : Z }.

Fixpoint total (l : list seg) : Z :=
  match l with [] => 0 | s :: l' => size s + total l' end.

Fixpoint frees (a : Z) (l : list seg) : list (Z * Z) :=
  match l with
  | [] => []
  | s :: l' => (if used s then [] else [(a, size s)]) ++ frees (a + size s) l'
  end.

Fixpoint useds (a : Z) (l : list seg) : list (Z * Z) :=
  match l with
  | [] => []
  | s :: l' => (if used s then [(a, size s)] else []) ++ useds (a + size s) l'
  end.

Definition free_bytes (l : list seg) : Z := total (filter (fun s => used s = false) l).

(** Neighbours are never both free. *)
Fixpoint coalesced (l : list seg) : Prop :=
  match l with
  | s :: ((t :: _) as l') => (used s = true \/ used t = true) /\ coalesced l'
  | _ => True
  end.

Definition seg_ok (s : seg) : Prop := 16 <= size s /\ size s mod 8 = 0.

(** First fit: the segments before, the size found, the segments after. *)
Fixpoint first_fit (w : Z) (l : list seg) : option (list seg * Z * list seg) :=
  match l with
  | [] => None
  | s :: l' =>
    if negb (used s) && (w <=? size s) then Some ([], size s, l')
    else match first_fit w l' with
         | Some (pre, sz, post) => Some (s :: pre, sz, post)
         | None => None
         end
  end.

(** The segment found, after taking [w] bytes of it. *)
Definition split_seg (w sz : Z) : list seg :=
  if heapMINIMUM_BLOCK_SIZE <? sz - w then [mk_seg true w; mk_seg false (sz - w)] else [mk_seg true sz].

(** A free segment of [sz] bytes put between [pre] and [post], merged with free neighbours. *)
Definition merge_right (sz : Z) (post : list seg) : list seg :=
  match post with
  | t :: post' => if used t then mk_seg false sz :: post else mk_seg false (sz + size t) :: post'
  | [] => [mk_seg false sz]
  end.

Fixpoint merge (pre : list seg) (sz : Z) (post : list seg) : list seg :=
  match pre with
  | [] => merge_right sz post
  | [s] => if used s then s :: merge_right sz post else merge_right (size s + sz) post
  | s :: pre' => s :: merge pre' sz post
  end.

(** ** Layout *)

Lemma total_app l1 l2 : total (l1 ++ l2) = total l1 + total l2.
Proof. induction l1 as [| s l1 IH]; cbn; [lia |]. rewrite IH. lia. Qed.

Lemma frees_app a l1 l2 : frees a (l1 ++ l2) = frees a l1 ++ frees (a + total l1) l2.
Proof.
  revert a. induction l1 as [| s l1 IH]; intros a; cbn; [now rewrite Z.add_0_r |].
  rewrite IH, app_assoc. do 2 f_equal. lia.
Qed.

Lemma useds_app a l1 l2 : useds a (l1 ++ l2) = useds a l1 ++ useds (a + total l1) l2.
Proof.
  revert a. induction l1 as [| s l1 IH]; intros a; cbn; [now rewrite Z.add_0_r |].
  rewrite IH, app_assoc. do 2 f_equal. lia.
Qed.

Lemma total_nonneg l : Forall seg_ok l -> 0 <= total l.
Proof. induction 1 as [| s l [H _] _ IH]; cbn; lia. Qed.

Lemma total_mod8 l : Forall seg_ok l -> total l mod 8 = 0.
Proof.
  induction 1 as [| s l [_ H] _ IH]; cbn; [reflexivity |].
  rewrite Z.add_mod, H, IH by lia. reflexivity.
Qed.

Lemma frees_range l : forall a b s, Forall seg_ok l -> (b, s) ∈ frees a l -> a <= b /\ b + s <= a + total l /\ 16 <= s.
Proof.
  induction l as [| t l IH]; intros a b s H Hin; cbn in Hin; [now apply elem_of_nil in Hin |].
  apply Forall_cons in H as [[Ht _] H]. pose proof (total_nonneg l H). cbn.
  apply elem_of_app in Hin as [Hin | Hin].
  - destruct (used t); [now apply elem_of_nil in Hin |].
    apply list_elem_of_singleton in Hin as [= -> ->]. lia.
  - specialize (IH _ _ _ H Hin). lia.
Qed.

Lemma useds_range l : forall a b s, Forall seg_ok l -> (b, s) ∈ useds a l -> a <= b /\ b + s <= a + total l /\ 16 <= s.
Proof.
  induction l as [| t l IH]; intros a b s H Hin; cbn in Hin; [now apply elem_of_nil in Hin |].
  apply Forall_cons in H as [[Ht _] H]. pose proof (total_nonneg l H). cbn.
  apply elem_of_app in Hin as [Hin | Hin].
  - destruct (used t); [| now apply elem_of_nil in Hin].
    apply list_elem_of_singleton in Hin as [= -> ->]. lia.
  - specialize (IH _ _ _ H Hin). lia.
Qed.

(** Segment starts are pairwise different. *)
Lemma frees_nodup l : forall a, Forall seg_ok l -> NoDup (frees a l).*1.
Proof.
  induction l as [| t l IH]; intros a H; cbn; [constructor |].
  apply Forall_cons in H as [Ht H]. destruct (used t); cbn; [now apply IH |].
  constructor; [| now apply IH]. intros Hin. apply list_elem_of_fmap in Hin as [[b s] [-> Hin]].
  apply frees_range in Hin; [| exact H]. destruct Ht as [Ht _]. cbn in Hin. lia.
Qed.

Lemma first_fit_Some w l pre sz post : first_fit w l = Some (pre, sz, post) ->
  l = pre ++ mk_seg false sz :: post /\ w <= sz /\
  Forall (fun s => used s = false -> size s < w) pre.
Proof.
  revert pre. induction l as [| [u z] l IH]; intros pre; cbn; [discriminate |].
  destruct u; cbn [negb andb]; [| destruct (Z.leb_spec w z)].
  1, 3: destruct (first_fit w l) as [[[p z'] q] |] eqn:E; [| discriminate]; intros [= <- <- <-];
    destruct (IH _ eq_refl) as (-> & Hw & Hf); split; [reflexivity |]; split; [exact Hw |];
    constructor; [cbn; intros; congruence || lia | exact Hf].
  intros [= <- <- <-]. repeat split; [lia | constructor].
Qed.

Lemma first_fit_None w l : first_fit w l = None -> Forall (fun s => used s = false -> size s < w) l.
Proof.
  induction l as [| [u z] l IH]; cbn; [constructor |].
  destruct u; cbn [negb andb]; [| destruct (Z.leb_spec w z); [discriminate |]].
  all: destruct (first_fit w l) as [[[p z'] q] |]; [discriminate |]; intros _;
    constructor; [cbn; intros; congruence || lia | now apply IH].
Qed.

Lemma frees_sizes (P : Z -> Prop) l : forall a, Forall (fun s => used s = false -> P (size s)) l ->
  Forall (fun bs => P bs.2) (frees a l).
Proof.
  induction l as [| s l IH]; intros a H; cbn; [constructor |].
  apply Forall_cons in H as [Hs H]. apply Forall_app. split; [| now apply IH].
  destruct (used s); [constructor | repeat constructor; now apply Hs].
Qed.

(** * Chains of headers *)

Definition nx (m : gmap Z BlockLink_t) (a : Z) : option Z := pxNextFreeBlock <$> m !! a.
Definition szo (m : gmap Z BlockLink_t) (a : Z) : option Z := xBlockSize <$> m !! a.

(** The headers from [p] on lead through the blocks [l] to [e]. *)
Fixpoint links (m : gmap Z BlockLink_t) (p : Z) (l : list (Z * Z)) (e : Z) : Prop :=
  match l with
  | [] => nx m p = Some e
  | (b, s) :: l' => nx m p = Some b /\ szo m b = Some s /\ links m b l' e
  end.

(** The headers from [p] on lead through the blocks [l]. *)
Fixpoint path (m : gmap Z BlockLink_t) (p : Z) (l : list (Z * Z)) : Prop :=
  match l with
  | [] => True
  | (b, s) :: l' => nx m p = Some b /\ szo m b = Some s /\ path m b l'
  end.

Fixpoint endp (p : Z) (l : list (Z * Z)) : Z :=
  match l with [] => p | (b, _) :: l' => endp b l' end.

Lemma links_app m l1 l2 e : forall p, links m p (l1 ++ l2) e <-> path m p l1 /\ links m (endp p l1) l2 e.
Proof.
  induction l1 as [| [b s] l1 IH]; intros p; cbn; [tauto |]. rewrite IH. tauto.
Qed.

Lemma path_app m l1 l2 : forall p, path m p (l1 ++ l2) <-> path m p l1 /\ path m (endp p l1) l2.
Proof. induction l1 as [| [b s] l1 IH]; intros p; cbn; [tauto |]. rewrite IH. tauto. Qed.

Lemma endp_app l1 l2 : forall p, endp p (l1 ++ l2) = endp (endp p l1) l2.
Proof. induction l1 as [| [b s] l1 IH]; intros p; cbn; auto. Qed.

Lemma endp_in p l : endp p l = p \/ endp p l ∈ l.*1.
Proof.
  revert p. induction l as [| [b s] l IH]; intros p; cbn; [now left |].
  right. destruct (IH b) as [-> | H]; [left | now right].
Qed.

(** A chain only depends on the headers it visits. *)
Lemma links_frame m m' e l : forall p, (forall a, a = p \/ a ∈ l.*1 -> m' !! a = m !! a) ->
  links m p l e -> links m' p l e.
Proof.
  induction l as [| [b s] l IH]; intros p Hm; cbn; unfold nx, szo.
  - rewrite Hm by now left. auto.
  - intros (H1 & H2 & H3). rewrite !Hm by (cbn; (now left) || (right; left)).
    split; [exact H1 |]. split; [exact H2 |]. apply IH; [| exact H3].
    intros a Ha. apply Hm. right. cbn. destruct Ha as [-> | Ha]; [left | now right].
Qed.

(** A path does not depend on where its last header points. *)
Lemma path_frame m m' l : forall p, NoDup (p :: l.*1) ->
  (forall a, a = p \/ a ∈ l.*1 -> a <> endp p l -> m' !! a = m !! a) ->
  szo m' (endp p l) = szo m (endp p l) -> path m p l -> path m' p l.
Proof.
  induction l as [| [b s] l IH]; intros p Hnd Hm Hsz; cbn; [auto |].
  intros (H1 & H2 & H3). cbn in Hnd. apply NoDup_cons in Hnd as [Hp Hnd].
  assert (Hpe : p <> endp b l).
  { intros E. apply Hp. rewrite E. destruct (endp_in b l) as [-> | H]; [left | now right]. }
  split; [| split].
  - unfold nx. rewrite Hm; [exact H1 | now left | exact Hpe].
  - destruct (decide (b = endp b l)) as [E | E].
    + rewrite E at 1. cbn in Hsz. rewrite Hsz, <- E. exact H2.
    + unfold szo. rewrite Hm; [exact H2 | right; left | exact E].
  - apply IH; [exact Hnd | | exact Hsz | exact H3].
    intros a Ha He. apply Hm; [| exact He]. right. cbn. destruct Ha as [-> | Ha]; [left | now right].
Qed.

(** The start of a chain only matters for where it points. *)
Lemma links_start m p q l e : nx m q = nx m p -> links m p l e -> links m q l e.
Proof. intros E. destruct l as [| [b s] l]; cbn; rewrite E; auto. Qed.

Lemma links_next m p l e : links m p l e -> nx m p = Some (hd e l.*1).
Proof. destruct l as [| [b s] l]; cbn; [auto | tauto]. Qed.

(** * Alignment arithmetic *)

Lemma land_mask a : a .& portBYTE_ALIGNMENT_MASK = a mod 8.
Proof. unfold portBYTE_ALIGNMENT_MASK. change 0x0007 with (Z.ones 3). now rewrite Z.land_ones. Qed.

Lemma align_mask_value a : align_mask a = 8 * (a / 8).
Proof.
  unfold align_mask, portBYTE_ALIGNMENT_MASK. change 0x0007 with (Z.ones 3).
  rewrite <- Z.ldiff_land, Z.ldiff_ones_r by lia.
  rewrite Z.shiftl_mul_pow2, Z.shiftr_div_pow2 by lia. change (2 ^ 3) with 8. lia.
Qed.

Lemma u32_id z : 0 <= z < 4294967296 -> u32 z = z.
Proof. apply Z.mod_small. Qed.

Lemma size_valid s : 0 <= s < 4294967296 -> heapBLOCK_SIZE_IS_VALID s = (s <? 2147483648).
Proof.
  intros H. unfold heapBLOCK_SIZE_IS_VALID, heapBLOCK_ALLOCATED_BITMASK.
  pose proof (truth_bit s 31 ltac:(lia)) as E. unfold truth, bit in E.
  destruct (Z.ltb_spec s 2147483648) as [L | L].
  - assert (Hb : Z.testbit s 31 = false).
    { rewrite Z.testbit_false by lia. rewrite Z.div_small; [reflexivity | split; [lia | exact L]]. }
    rewrite Hb in E. now apply negb_false_iff in E.
  - assert (Hb : Z.testbit s 31 = true).
    { rewrite Z.testbit_true by lia.
      replace (s / 2 ^ 31) with 1; [reflexivity |]. apply Z.div_unique with (r := s - 2147483648); lia. }
    rewrite Hb in E. now apply negb_true_iff in E.
Qed.

(** Setting and clearing the allocation bit of a valid size. *)
Lemma mark_size s : 0 <= s < 2147483648 -> s .| heapBLOCK_ALLOCATED_BITMASK = s + 2147483648.
Proof.
  intros H. unfold heapBLOCK_ALLOCATED_BITMASK. rewrite Z.lor_comm.
  rewrite lor_disjoint_add by (change (2 ^ 31) with 2147483648; lia). lia.
Qed.

Lemma unmark_size s : 0 <= s < 2147483648 ->
  (s + 2147483648) .& Z.lnot heapBLOCK_ALLOCATED_BITMASK = s.
Proof.
  intros H. rewrite <- mark_size by exact H. apply Z.bits_inj'. intros i Hi.
  rewrite Z.land_spec, Z.lor_spec, Z.lnot_spec by exact Hi.
  unfold heapBLOCK_ALLOCATED_BITMASK. rewrite Z.shiftl_1_l, Z.pow2_bits_eqb by lia.
  destruct (Z.eqb_spec 31 i) as [<- |]; cbn [negb].
  - rewrite andb_false_r. symmetry. rewrite Z.testbit_false by lia.
    rewrite Z.div_small; [reflexivity |]. change (2 ^ 31) with 2147483648. lia.
  - now rewrite orb_false_r, andb_true_r.
Qed.

Section Allocator.
Variable ucHeap xStart : Z.
Variable fuel : nat.

(** Where the linker puts the two objects: not at 0, below 2 GiB, apart. *)
Definition placed : Prop :=
  0 < ucHeap /\ ucHeap + configTOTAL_HEAP_SIZE + 8 < 2147483648 /\ 0 < xStart < 4294967296 /\
  (xStart + 8 <= ucHeap \/ ucHeap + configTOTAL_HEAP_SIZE <= xStart).

#[local] Abbreviation start := (heap_start ucHeap).
#[local] Abbreviation end_ := (heap_end ucHeap).

Lemma heap_bounds : placed ->
  ucHeap <= start /\ start mod 8 = 0 /\ end_ mod 8 = 0 /\ start + 16 <= end_ /\
  end_ + 8 <= ucHeap + configTOTAL_HEAP_SIZE /\ 0 < start.
Proof.
  intros (H1 & H2 & _). unfold heap_end, heap_total, heap_start, configTOTAL_HEAP_SIZE in *.
  rewrite land_mask. change xHeapStructSize with 8. change (portBYTE_ALIGNMENT - 1) with 7.
  pose proof (Z.mod_pos_bound ucHeap 8 ltac:(lia)). pose proof (Z.div_mod ucHeap 8 ltac:(lia)).
  destruct (Z.eqb_spec (ucHeap mod 8) 0) as [E | E]; cbn [negb].
  - rewrite (u32_id (ucHeap + 75 * 1024)) by lia. rewrite u32_id by lia. rewrite align_mask_value.
    pose proof (Z.div_mod (ucHeap + 75 * 1024 - 8) 8 ltac:(lia)).
    pose proof (Z.mod_pos_bound (ucHeap + 75 * 1024 - 8) 8 ltac:(lia)).
    rewrite (Z.mul_comm 8), Z.mod_mul by lia. lia.
  - rewrite !align_mask_value. rewrite (u32_id (ucHeap + 7)) by lia.
    pose proof (Z.div_mod (ucHeap + 7) 8 ltac:(lia)).
    pose proof (Z.mod_pos_bound (ucHeap + 7) 8 ltac:(lia)).
    set (st := 8 * ((ucHeap + 7) / 8)) in *. rewrite (u32_id (75 * 1024 - (st - ucHeap))) by lia.
    rewrite (u32_id (st + _)) by lia. rewrite u32_id by lia.
    replace (st + (75 * 1024 - (st - ucHeap)) - 8) with (ucHeap + 75 * 1024 - 8) by lia.
    pose proof (Z.div_mod (ucHeap + 75 * 1024 - 8) 8 ltac:(lia)).
    pose proof (Z.mod_pos_bound (ucHeap + 75 * 1024 - 8) 8 ltac:(lia)).
    rewrite (Z.mul_comm 8 ((ucHeap + 75 * 1024 - 8) / 8)), Z.mod_mul by lia.
    assert (st mod 8 = 0) by (unfold st; rewrite Z.mul_comm; apply Z.mod_mul; lia). lia.
Qed.

(** Little is lost to alignment. *)
Lemma heap_size : placed -> configTOTAL_HEAP_SIZE - 24 < end_ - start.
Proof.
  intros (H1 & H2 & _). unfold heap_end, heap_total, heap_start, configTOTAL_HEAP_SIZE in *.
  rewrite land_mask. change xHeapStructSize with 8. change (portBYTE_ALIGNMENT - 1) with 7.
  pose proof (Z.mod_pos_bound ucHeap 8 ltac:(lia)). pose proof (Z.div_mod ucHeap 8 ltac:(lia)).
  destruct (Z.eqb_spec (ucHeap mod 8) 0) as [E | E]; cbn [negb].
  - rewrite (u32_id (ucHeap + 75 * 1024)), u32_id by lia. rewrite align_mask_value.
    pose proof (Z.div_mod (ucHeap + 75 * 1024 - 8) 8 ltac:(lia)).
    pose proof (Z.mod_pos_bound (ucHeap + 75 * 1024 - 8) 8 ltac:(lia)). lia.
  - rewrite !align_mask_value. rewrite (u32_id (ucHeap + 7)) by lia.
    set (st := 8 * ((ucHeap + 7) / 8)) in *.
    assert (ucHeap <= st <= ucHeap + 7).
    { pose proof (Z.div_mod (ucHeap + 7) 8 ltac:(lia)). pose proof (Z.mod_pos_bound (ucHeap + 7) 8 ltac:(lia)). lia. }
    rewrite (u32_id (75 * 1024 - (st - ucHeap))), (u32_id (st + _)), u32_id by lia.
    pose proof (Z.div_mod (st + (75 * 1024 - (st - ucHeap)) - 8) 8 ltac:(lia)).
    pose proof (Z.mod_pos_bound (st + (75 * 1024 - (st - ucHeap)) - 8) 8 ltac:(lia)). lia.
Qed.

(** [h] represents the segments [l]. *)
Record rep (h : heap) (l : list seg) : Prop := {
  rep_end : pxEnd h = end_;
  rep_total : start + total l = end_;
  rep_sizes : Forall seg_ok l;
  rep_start : szo (blocks h) xStart = Some 0;
  rep_links : links (blocks h) xStart (frees start l) end_;
  rep_endblock : blocks h !! end_ = Some (mk_block 0 0);
  rep_used : forall a s, (a, s) ∈ useds start l -> blocks h !! a = Some (mk_block 0 (s + 2147483648));
  rep_bytes : xFreeBytesRemaining h = free_bytes l;
  rep_coalesced : coalesced l
}.

Lemma load_ok a h b : blocks h !! a = Some b -> load a h = Done b h.
Proof. unfold load. now intros ->. Qed.

Lemma store_ok a f h : is_object ucHeap xStart a = true ->
  store ucHeap xStart a f h =
  Done tt (set_blocks (<[a := f (default (mk_block 0 0) (blocks h !! a))]> (blocks h)) h).
Proof. unfold store. now intros ->. Qed.

Lemma object_start : is_object ucHeap xStart xStart = true.
Proof. unfold is_object. now rewrite Z.eqb_refl. Qed.

Lemma object_heap a : ucHeap <= a -> a + 8 <= ucHeap + configTOTAL_HEAP_SIZE ->
  is_object ucHeap xStart a = true.
Proof.
  intros H1 H2. unfold is_object, sizeof_BlockLink_t. apply orb_true_iff. right.
  apply andb_true_iff. now rewrite !Z.leb_le.
Qed.

Lemma assert_ok (b : bool) (h : heap) : b = true -> configASSERT b h = Done tt h.
Proof. now intros ->. Qed.

Lemma validate_ok p h : ucHeap <= p -> p < ucHeap + configTOTAL_HEAP_SIZE ->
  heapVALIDATE_BLOCK_POINTER ucHeap p h = Done tt h.
Proof. intros H1 H2. apply assert_ok. apply andb_true_iff. rewrite !Z.leb_le. lia. Qed.

(** The free list of a represented heap: all its addresses. *)
Lemma frees_in_heap h l b : placed -> rep h l -> b ∈ (frees start l).*1 ->
  start <= b /\ b + 16 <= end_.
Proof.
  intros Hp Hr Hin. apply list_elem_of_fmap in Hin as [[a s] [-> Hin]].
  apply frees_range in Hin; [| apply Hr]. pose proof (rep_total h l Hr). cbn. lia.
Qed.

(** The traversal stops at the first free block that is large enough. *)
Lemma malloc_find_ok w m f1 : forall n p b s f2 h,
  placed -> blocks h = m -> (length f1 < n)%nat ->
  links m p (f1 ++ (b, s) :: f2) end_ -> szo m end_ = Some 0 -> nx m end_ = Some 0 ->
  Forall (fun bs => bs.2 < w) f1 -> w <= s -> 0 < w ->
  (forall a, a ∈ (f1 ++ (b, s) :: f2).*1 -> start <= a /\ a + 16 <= end_) ->
  malloc_find ucHeap n p (hd b f1.*1) w h = Done (endp p f1, b) h.
Proof.
  induction f1 as [| [b1 s1] f1 IH]; intros n p b s f2 h Hp Hm Hn Hl He1 He2 Hf Hw Hw0 Hin.
  - destruct n as [| n]; [cbn in Hn; lia |]. cbn [hd fmap list_fmap malloc_find endp].
    cbn in Hl. destruct Hl as (_ & Hs & _). unfold szo in Hs. rewrite <- Hm in Hs.
    destruct (blocks h !! b) as [blk |] eqn:E; [| discriminate]. injection Hs as Hs.
    rewrite (bind_done _ _ _ _ _ (load_ok _ _ _ E)). rewrite Hs.
    destruct (Z.ltb_spec s w); [lia | reflexivity].
  - destruct n as [| n]; [cbn in Hn; lia |]. cbn [hd fmap list_fmap malloc_find endp].
    cbn [app links] in Hl. destruct Hl as (Hnx & Hs & Hl).
    apply Forall_cons in Hf as [Hs1 Hf]. cbn in Hs1.
    unfold szo in Hs. rewrite <- Hm in Hs.
    destruct (blocks h !! b1) as [blk |] eqn:E; [| discriminate]. injection Hs as Hs.
    rewrite (bind_done _ _ _ _ _ (load_ok _ _ _ E)). rewrite Hs.
    apply links_next in Hl as Hnext. unfold nx in Hnext. rewrite <- Hm, E in Hnext. cbn in Hnext.
    injection Hnext as Hnext.
    assert (Hhd : hd end_ (f1 ++ (b, s) :: f2).*1 = hd b f1.*1) by (destruct f1 as [| [b2 s2] f1]; reflexivity).
    rewrite Hhd in Hnext.
    assert (Hb2 : start <= hd b f1.*1 /\ hd b f1.*1 + 16 <= end_).
    { apply Hin. right. destruct f1 as [| [b2 s2] f1]; left. }
    destruct (heap_bounds Hp) as (B1 & _ & _ & _ & B5 & B6).
    destruct (Z.ltb_spec s1 w); [| lia]. rewrite Hnext.
    destruct (Z.eqb_spec (hd b f1.*1) 0); [lia |]. cbn [andb negb].
    assert (V : heapVALIDATE_BLOCK_POINTER ucHeap (hd b f1.*1) h = Done tt h) by (apply validate_ok; lia).
    rewrite (bind_done _ _ _ _ _ V).
    apply (IH n b1 b s f2); try assumption; [cbn in Hn; lia |].
    intros a Ha. apply Hin. now right.
Qed.

(** Without a fitting block it stops at the end marker. *)
Lemma malloc_find_none w f1 : forall n p h,
  placed -> (length f1 < n)%nat -> links (blocks h) p f1 end_ ->
  blocks h !! end_ = Some (mk_block 0 0) -> Forall (fun bs => bs.2 < w) f1 -> 0 < w ->
  (forall a, a ∈ f1.*1 -> start <= a /\ a + 16 <= end_) ->
  malloc_find ucHeap n p (hd end_ f1.*1) w h = Done (endp p f1, end_) h.
Proof.
  induction f1 as [| [b1 s1] f1 IH]; intros n p h Hp Hn Hl He Hf Hw Hin;
    (destruct n as [| n]; [cbn in Hn; lia |]); cbn [hd fmap list_fmap malloc_find endp fst].
  - rewrite (bind_done _ _ _ _ _ (load_ok _ _ _ He)). cbn. now rewrite andb_false_r.
  - cbn [links] in Hl. destruct Hl as (Hnx & Hs & Hl).
    apply Forall_cons in Hf as [Hs1 Hf]. cbn in Hs1. unfold szo in Hs.
    destruct (blocks h !! b1) as [blk |] eqn:E; [| discriminate]. injection Hs as Hs.
    rewrite (bind_done _ _ _ _ _ (load_ok _ _ _ E)). rewrite Hs.
    apply links_next in Hl as Hnext. unfold nx in Hnext. rewrite E in Hnext. cbn in Hnext.
    injection Hnext as ->. destruct (heap_bounds Hp) as (B1 & _ & _ & B4 & B5 & B6).
    assert (Hb2 : start <= hd end_ f1.*1 /\ hd end_ f1.*1 <= end_).
    { destruct f1 as [| [b2 s2] f1]; cbn; [lia |].
      destruct (Hin b2); [right; left | lia]. }
    destruct (Z.ltb_spec s1 w); [| lia].
    destruct (Z.eqb_spec (hd end_ f1.*1) 0); [lia |]. cbn [andb negb].
    assert (V : heapVALIDATE_BLOCK_POINTER ucHeap (hd end_ f1.*1) h = Done tt h) by (apply validate_ok; lia).
    rewrite (bind_done _ _ _ _ _ V).
    apply IH; try assumption; [cbn in Hn; lia |]. intros a Ha. apply Hin. now right.
Qed.

(** ** Where a free segment is in the list *)

Definition prev_of (pre : list seg) : Z := endp xStart (frees start pre).

Lemma xStart_outside a : placed -> start <= a -> a + 8 <= ucHeap + configTOTAL_HEAP_SIZE -> xStart <> a.
Proof.
  intros Hp H1 H2. destruct (heap_bounds Hp) as (B1 & _). destruct Hp as (_ & _ & _ & [P | P]); lia.
Qed.

(** ** Replacing the middle of a represented heap *)

Lemma links_join m m' q p l1 l2 e : links m' p l1 (hd e l2.*1) -> links m q l2 e ->
  (forall a, a ∈ l2.*1 -> m' !! a = m !! a) -> links m' p (l1 ++ l2) e.
Proof.
  intros H1 H2 Hf. revert p H1. induction l1 as [| [b s] l1 IH]; intros p H1; cbn in *.
  - destruct l2 as [| [b s] l2]; cbn in *; [exact H1 |]. destruct H2 as (H2 & H3 & H4).
    split; [exact H1 |]. split; [unfold szo; rewrite Hf by left; exact H3 |].
    apply links_frame with (m := m); [| exact H4]. intros a [-> | Ha]; apply Hf; [left | now right].
  - destruct H1 as (H1 & H3 & H4). auto.
Qed.

Lemma free_bytes_app l1 l2 : free_bytes (l1 ++ l2) = free_bytes l1 + free_bytes l2.
Proof. unfold free_bytes. rewrite filter_app. apply total_app. Qed.

(** What a represented heap says about its middle. *)
Lemma middle_facts h pre mid post : placed -> rep h (pre ++ mid ++ post) ->
  let b := start + total pre in let c := b + total mid in let p := prev_of pre in
  Forall seg_ok pre /\ Forall seg_ok mid /\ Forall seg_ok post /\ start <= b <= c /\ c <= end_ /\
  b mod 8 = 0 /\ c + total post = end_ /\
  NoDup (xStart :: (frees start pre).*1) /\ (p = xStart \/ start <= p /\ p + 16 <= b) /\
  path (blocks h) xStart (frees start pre) /\
  links (blocks h) p (frees b mid ++ frees c post) end_ /\
  exists sp, blocks h !! p = Some (mk_block (hd end_ (frees b mid ++ frees c post).*1) sp).
Proof.
  intros Hp Hr b c p. destruct (heap_bounds Hp) as (B1 & B2 & B3 & B4 & B5 & B6).
  pose proof (rep_sizes h _ Hr) as Hok. pose proof (rep_total h _ Hr) as Ht.
  rewrite !total_app in Ht. rewrite !Forall_app in Hok. destruct Hok as (Hok1 & Hok2 & Hok3).
  pose proof (total_nonneg _ Hok1). pose proof (total_nonneg _ Hok2). pose proof (total_nonneg _ Hok3).
  pose proof (rep_links h _ Hr) as Hl. rewrite !frees_app in Hl. fold b c in Hl.
  apply links_app in Hl as [Hl1 Hl2]. change (endp _ _) with p in Hl2.
  split; [exact Hok1 |]. split; [exact Hok2 |]. split; [exact Hok3 |]. split; [unfold b, c; lia |].
  split; [unfold b, c; lia |]. split.
  { unfold b. rewrite Z.add_mod, B2, (total_mod8 _ Hok1) by lia. reflexivity. }
  split; [unfold b, c; lia |]. split; [| split; [| split; [exact Hl1 | split; [exact Hl2 |]]]].
  - constructor; [| now apply frees_nodup]. intros Hin.
    apply list_elem_of_fmap in Hin as [[a z] [E Hin]]. apply frees_range in Hin; [| exact Hok1].
    cbn in E. subst a. apply (xStart_outside xStart Hp); lia.
  - unfold p, prev_of. destruct (endp_in xStart (frees start pre)) as [-> | Hin]; [now left | right].
    apply list_elem_of_fmap in Hin as [[a z] [-> Hin]]. apply frees_range in Hin; [| exact Hok1].
    cbn. unfold b. lia.
  - apply links_next in Hl2. unfold nx in Hl2.
    destruct (blocks h !! p) as [[n sp] |]; [| discriminate]. cbn in Hl2. injection Hl2 as ->. now exists sp.
Qed.

Lemma hd_range (l : list (Z * Z)) lo : 0 < lo <= end_ ->
  (forall a z, (a, z) ∈ l -> lo <= a <= end_) -> lo <= hd end_ l.*1 <= end_.
Proof. intros Hlo H. destruct l as [| [a z] l]; cbn; [lia |]. apply (H a z). left. Qed.

Lemma splice h h' pre mid mid' post : placed -> rep h (pre ++ mid ++ post) ->
  let b := start + total pre in let c := b + total mid in let p := prev_of pre in
  total mid' = total mid -> Forall seg_ok mid' -> coalesced (pre ++ mid' ++ post) ->
  pxEnd h' = pxEnd h ->
  xFreeBytesRemaining h' = xFreeBytesRemaining h - free_bytes mid + free_bytes mid' ->
  (forall a, a <> p -> a < b \/ c <= a -> blocks h' !! a = blocks h !! a) ->
  szo (blocks h') p = szo (blocks h) p ->
  links (blocks h') p (frees b mid') (hd end_ (frees c post).*1) ->
  (forall a s, (a, s) ∈ useds b mid' -> blocks h' !! a = Some (mk_block 0 (s + 2147483648))) ->
  rep h' (pre ++ mid' ++ post).
Proof.
  intros Hp Hr b c p Ht Hok' Hco He HF Hfr Hsz Hlk Hus.
  destruct (middle_facts h pre mid post Hp Hr) as
    (Ho1 & Ho2 & Ho3 & Hb & Hc & _ & Htot & Hnd & Hpr & Hpath & Hlinks & sp & Ep).
  fold b c p in Hb, Hc, Htot, Hpr, Hlinks, Ep. destruct (heap_bounds Hp) as (B1 & _ & _ & _ & B5 & B6).
  assert (Hx : xStart <> p -> blocks h' !! xStart = blocks h !! xStart).
  { intros N. apply Hfr; [exact N |]. destruct (Z.lt_ge_cases xStart b); [now left | right].
    assert (xStart <> c) by (intros ->; apply (xStart_outside c Hp); lia).
    destruct Hp as (_ & _ & _ & [P | P]); lia. }
  assert (Hused : forall a s, (a, s) ∈ useds start (pre ++ mid ++ post) -> a < b \/ c <= a ->
                  blocks h' !! a = Some (mk_block 0 (s + 2147483648))).
  { intros a s Hin Ha. pose proof (rep_used h _ Hr _ _ Hin) as E. rewrite Hfr; [exact E | | exact Ha].
    intros ->. rewrite Ep in E. injection E as E _.
    assert (b <= hd end_ (frees b mid ++ frees c post).*1 <= end_); [| lia].
    apply hd_range; [lia |]. intros a z [Hz | Hz]%elem_of_app; apply frees_range in Hz; auto; lia. }
  constructor.
  - rewrite He. apply Hr.
  - rewrite <- (rep_total h _ Hr), !total_app. lia.
  - rewrite !Forall_app. auto.
  - destruct (decide (xStart = p)) as [E | N].
    + rewrite E, Hsz, <- E. apply Hr.
    + unfold szo. rewrite Hx by exact N. apply Hr.
  - rewrite !frees_app. apply links_app. fold b. change (endp _ _) with p. split.
    + apply path_frame with (m := blocks h); [exact Hnd | | exact Hsz | exact Hpath].
      intros a [-> | Ha] N; [now apply Hx |]. apply Hfr; [exact N | left].
      apply list_elem_of_fmap in Ha as [[a' z] [-> Ha]]. apply frees_range in Ha; [| exact Ho1]. cbn. lia.
    + rewrite Ht. fold c. apply links_app in Hlinks as [_ Hlinks].
      apply (links_join (blocks h) _ _ _ _ _ _ Hlk Hlinks). intros a Ha.
      apply list_elem_of_fmap in Ha as [[a' z] [-> Ha]]. apply frees_range in Ha; [| exact Ho3]. cbn.
      apply Hfr; [| lia]. destruct Hpr as [-> |]; [| lia].
      intros E. apply (xStart_outside a' Hp); lia.
  - rewrite Hfr; [apply Hr | | lia]. destruct Hpr as [-> |]; [| lia].
    intros E. symmetry in E. apply (xStart_outside end_ Hp); [lia | lia | exact E].
  - intros a s Hin. rewrite !useds_app in Hin. fold b in Hin. rewrite Ht in Hin. fold c in Hin.
    rewrite !elem_of_app in Hin. destruct Hin as [Hin | [Hin | Hin]].
    + apply Hused; [rewrite !useds_app, !elem_of_app; now left |].
      apply useds_range in Hin; [lia | exact Ho1].
    + now apply Hus.
    + apply Hused; [rewrite !useds_app, !elem_of_app; right; now right |].
      apply useds_range in Hin; [lia | exact Ho3].
  - rewrite HF, (rep_bytes h _ Hr), !free_bytes_app. lia.
  - exact Hco.
Qed.
End Allocator.
