(* ===== verification/Heap4Malloc.v ===== *)
(** [pvPortMalloc] of [Heap4] against the abstract heaps of [Heap4Proofs]: the first call initialises
    the heap, and every call takes the first segment that fits, splitting it when enough is left over,
    or returns [NULL] and changes nothing. *)
From Stdlib Require Import ZArith Lia Bool.
From stdpp Require Import base decidable list gmap.
From S2P Require Import Prelude Heap4 Heap4Proofs.

(** The bytes taken from a segment of [sz] bytes for a block of [w] bytes. *)
Definition splits (w sz : Z) : bool := heapMINIMUM_BLOCK_SIZE <? sz - w.
Definition taken (w sz : Z) : Z := if splits w sz then w else sz.

(** The size of the block that holds [n] bytes: with its header, in whole units of 8. *)
Definition block_for (n : Z) : Z := 8 * ((n + 15) / 8).

(** ** Facts on the abstract heap *)

Lemma coalesced_right pre l : coalesced (pre ++ l) -> coalesced l.
Proof.
  induction pre as [| s pre IH]; [auto |]. intros H. apply IH. cbn in H.
  destruct (pre ++ l); [exact I | apply H].
Qed.

Lemma coalesced_left pre s l s' l' : coalesced (pre ++ s :: l) -> (used s = true -> used s' = true) ->
  coalesced (s' :: l') -> coalesced (pre ++ s' :: l').
Proof.
  intros H Hu Hc. induction pre as [| t pre IH]; [exact Hc |]. destruct pre as [| t' pre]; cbn in *.
  - split; [| exact Hc]. destruct H as [[H | H] _]; [now left | right; auto].
  - destruct H as [H1 H2]. split; [exact H1 |]. exact (IH H2).
Qed.

Lemma free_bytes_cons s l : free_bytes (s :: l) = (if used s then 0 else size s) + free_bytes l.
Proof.
  unfold free_bytes. rewrite filter_cons. destruct (used s) eqn:E.
  - now rewrite decide_False by congruence.
  - now rewrite decide_True by reflexivity.
Qed.

Lemma free_bytes_le l : Forall seg_ok l -> 0 <= free_bytes l <= total l.
Proof.
  unfold free_bytes. induction 1 as [| s l [H _] _ IH]; [cbn; lia |].
  rewrite filter_cons. cbn [total]. case_decide; cbn [total]; lia.
Qed.

Lemma frees_length a l : Forall seg_ok l -> 16 * Z.of_nat (length (frees a l)) <= total l.
Proof.
  intros H. revert a. induction H as [| s l [H _] _ IH]; intros a; cbn [frees total]; [cbn; lia |].
  rewrite length_app, Nat2Z.inj_add. specialize (IH (a + size s)). destruct (used s); cbn [length]; lia.
Qed.

Lemma first_fit_too_large w l : Forall seg_ok l -> free_bytes l < w -> first_fit w l = None.
Proof.
  intros H. induction H as [| s l Hs H IH]; intros Hw; [reflexivity |]. cbn [first_fit].
  unfold free_bytes in *. rewrite filter_cons in Hw. pose proof (free_bytes_le l H) as HF.
  unfold free_bytes in HF. destruct Hs as [Hs _].
  destruct (used s) eqn:E; [rewrite decide_False in Hw by congruence | rewrite decide_True in Hw by reflexivity];
    cbn [negb andb total] in *.
  - now rewrite IH by lia.
  - destruct (Z.leb_spec w (size s)); [lia |]. now rewrite IH by lia.
Qed.

Lemma split_seg_shape w sz : split_seg w sz = [mk_seg true (taken w sz)] ++ (if splits w sz then [mk_seg false (sz - w)] else []).
Proof. unfold split_seg, taken. fold (splits w sz). now destruct (splits w sz). Qed.

Lemma taken_enough w sz : w <= sz -> w <= taken w sz.
Proof. unfold taken. destruct (splits w sz); lia. Qed.

Lemma split_seg_total w sz : total (split_seg w sz) = sz.
Proof. unfold split_seg. destruct (_ <? _); cbn; lia. Qed.

Lemma split_seg_free w sz : free_bytes (split_seg w sz) = sz - taken w sz.
Proof.
  unfold split_seg, taken, splits. destruct (heapMINIMUM_BLOCK_SIZE <? sz - w).
  - change (sz - w + 0 = sz - w). lia.
  - change (0 = sz - sz). lia.
Qed.

Lemma split_seg_ok w sz : 16 <= w <= sz -> w mod 8 = 0 -> sz mod 8 = 0 -> Forall seg_ok (split_seg w sz).
Proof.
  intros H H1 H2. unfold split_seg, heapMINIMUM_BLOCK_SIZE. change (Z.shiftl xHeapStructSize 1) with 16.
  destruct (Z.ltb_spec 16 (sz - w)); repeat constructor; cbn; try lia.
  all: rewrite Zminus_mod, H1, H2; reflexivity.
Qed.

Lemma split_seg_coalesced pre w sz post : coalesced (pre ++ mk_seg false sz :: post) ->
  coalesced (pre ++ split_seg w sz ++ post).
Proof.
  intros H. pose proof (coalesced_right _ _ H) as Hr. unfold split_seg.
  destruct (heapMINIMUM_BLOCK_SIZE <? sz - w); cbn [app]; apply (coalesced_left _ _ _ _ _ H); try (cbn; congruence); cbn in *;
    destruct post as [| t post]; auto.
  destruct Hr as [_ Hr]. auto.
Qed.

Lemma block_for_ok n : 0 < n -> 16 <= block_for n /\ block_for n mod 8 = 0 /\ n + 8 <= block_for n < n + 16.
Proof.
  intros H. unfold block_for. rewrite (Z.mul_comm 8), Z.mod_mul by lia.
  pose proof (Z.div_mod (n + 15) 8 ltac:(lia)). pose proof (Z.mod_pos_bound (n + 15) 8 ltac:(lia)).
  split; [| split; [reflexivity |]]; lia.
Qed.

(** The size computation overflows only for requests no heap can serve, and gives 0 then. *)
Lemma block_size_for_spec n : is_u32 n ->
  block_size_for n = if n =? 0 then 0 else if block_for n <=? heapSIZE_MAX then block_for n else 0.
Proof.
  intros H. unfold is_u32 in H. unfold block_size_for, heapADD_WILL_OVERFLOW, heapSIZE_MAX.
  change xHeapStructSize with 8. change portBYTE_ALIGNMENT with 8. rewrite !land_mask.
  destruct (Z.eqb_spec n 0) as [-> | N]; [reflexivity |].
  destruct (Z.ltb_spec 0 n); [| lia]. destruct (block_for_ok n ltac:(lia)) as (_ & _ & B).
  destruct (Z.ltb_spec (0xffffffff - 8) n); cbn [negb]; [destruct (Z.leb_spec (block_for n) 0xffffffff); lia |].
  rewrite (u32_id (n + 8)) by lia. unfold block_for in *.
  pose proof (Z.div_mod (n + 8) 8 ltac:(lia)). pose proof (Z.mod_pos_bound (n + 8) 8 ltac:(lia)).
  pose proof (Z.div_mod (n + 15) 8 ltac:(lia)). pose proof (Z.mod_pos_bound (n + 15) 8 ltac:(lia)).
  destruct (Z.eqb_spec ((n + 8) mod 8) 0) as [E | E]; cbn [negb].
  - destruct (Z.leb_spec (8 * ((n + 15) / 8)) 0xffffffff); lia.
  - set (x := 8 - (n + 8) mod 8) in *.
    destruct (Z.ltb_spec (0xffffffff - x) (n + 8)); cbn [negb];
      destruct (Z.leb_spec (8 * ((n + 15) / 8)) 0xffffffff); try (unfold x in *; lia).
    rewrite u32_id; unfold x in *; lia.
Qed.

Section Malloc.
Variable ucHeap xStart : Z.
Variable fuel : nat.

#[local] Abbreviation start := (heap_start ucHeap).
#[local] Abbreviation end_ := (heap_end ucHeap).
#[local] Abbreviation prev := (prev_of ucHeap xStart).

Lemma load_bind {B} a h b (k : BlockLink_t -> prog heap B) :
  blocks h !! a = Some b -> bind (load a) k h = k b h.
Proof. intros E. unfold bind, load. now rewrite E. Qed.

Lemma store_bind {B} a f h (k : unit -> prog heap B) : is_object ucHeap xStart a = true ->
  bind (store ucHeap xStart a f) k h =
  k tt (set_blocks (<[a := f (default (mk_block 0 0) (blocks h !! a))]> (blocks h)) h).
Proof. intros E. unfold bind. now rewrite store_ok. Qed.

Lemma validate_bind {B} p h (k : unit -> prog heap B) :
  ucHeap <= p -> p < ucHeap + configTOTAL_HEAP_SIZE ->
  bind (heapVALIDATE_BLOCK_POINTER ucHeap p) k h = k tt h.
Proof. intros H1 H2. unfold bind. now rewrite validate_ok. Qed.

Lemma assert_bind {B} (b : bool) (h : heap) (k : unit -> prog heap B) :
  b = true -> bind (configASSERT b) k h = k tt h.
Proof. now intros ->. Qed.

Lemma bind_assoc {A B C} (m : prog heap A) (f : A -> prog heap B) (g : B -> prog heap C) h :
  bind (bind m f) g h = bind m (fun x => bind (f x) g) h.
Proof. unfold bind. now destruct (m h). Qed.

(** What taking the block at [b], between the header at [p] and [nb], leaves in memory. *)
Record took (m m' : gmap Z BlockLink_t) (p b nb sp w sz : Z) : Prop := {
  took_block : m' !! b = Some (mk_block 0 (taken w sz + 2147483648));
  took_prev : m' !! p = Some (mk_block (if splits w sz then b + w else nb) sp);
  took_rest : splits w sz = true -> m' !! (b + w) = Some (mk_block nb (sz - w));
  took_frame : forall a, a <> b -> a <> p -> (splits w sz = true -> a <> b + w) -> m' !! a = m !! a
}.

Lemma finish m m' e f f' mn mn' na nf (x : Z) : m = m' -> f = f' -> 
  (if f' <? mn then f' else mn) = mn' -> 
  (count_allocation ;; ret x) (mk_heap m e f (if f <? mn then f else mn) na nf) =
  Done x (mk_heap m' e f' mn' (u32 (na + 1)) nf).
Proof. now intros -> -> <-. Qed.

Lemma min_if a b : (if a <? b then a else b) = Z.min a b.
Proof. destruct (Z.ltb_spec a b); lia. Qed.

#[local] Ltac look := repeat first
  [ rewrite lookup_insert_eq
  | rewrite lookup_insert_ne by (auto; lia) ].

#[local] Ltac took_field :=
  repeat (look; cbn [default from_option id with_next with_size xBlockSize pxNextFreeBlock]);
  rewrite ?mark_size by lia;
  try match goal with H : blocks _ !! _ = Some _ |- context [blocks _ !! _] =>
    rewrite H; cbn; rewrite mark_size by lia end;
  try reflexivity; try (apply lookup_insert_ne; now auto).

(** The end of [malloc_take]: the counters, and the block marked. *)
#[local] Ltac run_tail Hbo :=
  erewrite load_bind by (cbn; look; (reflexivity || eassumption));
  rewrite (bind_done get _ _ _ _ eq_refl);
  cbn [set_blocks blocks pxEnd xFreeBytesRemaining xMinimumEverFreeBytesRemaining with_size with_next xBlockSize];
  rewrite (bind_done (set_free_bytes _ _) _ _ _ _ eq_refl);
  rewrite store_bind by exact Hbo; cbn [set_blocks blocks];
  rewrite store_bind by exact Hbo; cbn [set_blocks blocks];
  apply finish; [reflexivity | apply u32_id; lia | apply min_if].

Lemma malloc_take_run p b nb sp sz w h :
  placed ucHeap xStart -> blocks h !! p = Some (mk_block b sp) -> blocks h !! b = Some (mk_block nb sz) ->
  start <= b -> b + sz <= end_ -> b mod 8 = 0 -> w mod 8 = 0 -> 16 <= w <= sz ->
  p = xStart \/ start <= p /\ p + 16 <= b -> sz <= xFreeBytesRemaining h < 2147483648 ->
  exists m', took (blocks h) m' p b nb sp w sz /\
    malloc_take ucHeap xStart p b w h =
    Done (b + 8) (mk_heap m' (pxEnd h) (xFreeBytesRemaining h - taken w sz)
      (Z.min (xFreeBytesRemaining h - taken w sz) (xMinimumEverFreeBytesRemaining h))
      (u32 (xNumberOfSuccessfulAllocations h + 1)) (xNumberOfSuccessfulFrees h)).
Proof.
  intros Hpl Ep Eb Hb1 Hb2 Hb8 Hw8 Hw Hp HF.
  destruct (heap_bounds _ _ Hpl) as (B1 & B2 & B3 & B4 & B5 & B6).
  assert (Hlim : ucHeap + configTOTAL_HEAP_SIZE + 8 < 2147483648) by apply Hpl.
  assert (Hpo : is_object ucHeap xStart p = true).
  { destruct Hp as [-> |]; [apply object_start | apply object_heap; lia]. }
  assert (Hbo : is_object ucHeap xStart b = true) by (apply object_heap; lia).
  assert (Hpb : p <> b).
  { destruct Hp as [-> | Hp]; [apply (xStart_outside ucHeap xStart b Hpl); lia | lia]. }
  assert (Hpn : splits w sz = true -> p <> b + w).
  { unfold splits, heapMINIMUM_BLOCK_SIZE. change (Z.shiftl xHeapStructSize 1) with 16.
    rewrite Z.ltb_lt. intros L.
    destruct Hp as [-> | Hp]; [apply (xStart_outside ucHeap xStart _ Hpl); lia | lia]. }
  unfold malloc_take, set_next, set_size. erewrite load_bind by exact Ep. cbn [pxNextFreeBlock].
  change xHeapStructSize with 8. rewrite (u32_id (b + 8)) by lia.
  rewrite validate_bind by lia. erewrite load_bind by exact Eb. cbn [pxNextFreeBlock].
  rewrite store_bind by exact Hpo. cbn [set_blocks blocks]. rewrite Ep. cbn [default from_option id with_next xBlockSize].
  erewrite load_bind by (cbn; rewrite lookup_insert_ne by exact Hpb; exact Eb). cbn [xBlockSize].
  rewrite assert_bind by (unfold heapSUBTRACT_WILL_UNDERFLOW; apply negb_true_iff, Z.ltb_ge; lia).
  rewrite (u32_id (sz - w)) by lia. fold (splits w sz). rewrite (u32_id (b + w)) by lia.
  unfold taken. destruct (splits w sz) eqn:Es; eexists; split.
  2: { assert (Hno : is_object ucHeap xStart (b + w) = true).
    { unfold splits, heapMINIMUM_BLOCK_SIZE in Es. change (Z.shiftl xHeapStructSize 1) with 16 in Es.
      apply Z.ltb_lt in Es. apply object_heap; lia. }
    rewrite bind_assoc, assert_bind by (rewrite land_mask, Z.add_mod, Hb8, Hw8 by lia; reflexivity).
    rewrite bind_assoc, store_bind by exact Hno. rewrite bind_assoc, store_bind by exact Hbo.
    cbn [set_blocks blocks]. rewrite bind_assoc.
    erewrite load_bind by (cbn; rewrite !lookup_insert_ne by (auto; lia); apply lookup_insert_eq).
    rewrite bind_assoc, store_bind by exact Hno. cbn [set_blocks blocks].
    rewrite store_bind by exact Hpo. cbn [set_blocks blocks].
    run_tail Hbo. }
  3: { rewrite (bind_done (ret tt) _ _ _ _ eq_refl). cbn [set_blocks blocks with_next xBlockSize].
    run_tail Hbo. }
  all: constructor; rewrite ?Es; unfold taken; rewrite ?Es; intros; try discriminate; try specialize (Hpn eq_refl);
    took_field.
Qed.

(** Taking a segment of a represented heap. *)
Lemma malloc_take_rep h pre sz post w : placed ucHeap xStart ->
  rep ucHeap xStart h (pre ++ [mk_seg false sz] ++ post) -> w mod 8 = 0 -> 16 <= w <= sz ->
  exists h', malloc_take ucHeap xStart (prev pre) (start + total pre) w h = Done (start + total pre + 8) h' /\
    rep ucHeap xStart h' (pre ++ split_seg w sz ++ post) /\
    xMinimumEverFreeBytesRemaining h' = Z.min (xFreeBytesRemaining h') (xMinimumEverFreeBytesRemaining h) /\
    xNumberOfSuccessfulAllocations h' = u32 (xNumberOfSuccessfulAllocations h + 1) /\
    xNumberOfSuccessfulFrees h' = xNumberOfSuccessfulFrees h.
Proof.
  intros Hp Hr Hw8 Hw.
  destruct (middle_facts _ _ h pre _ post Hp Hr) as
    (Ho1 & Ho2 & Ho3 & Hb & Hc & Hb8 & Htot & Hnd & Hpr & _ & Hl & sp & Ep).
  cbn [total frees used app size] in *. rewrite Z.add_0_r in *. cbn [fmap list_fmap hd fst] in Ep.
  destruct (heap_bounds _ _ Hp) as (B1 & _ & _ & _ & B5 & B6).
  assert (Hlim : ucHeap + configTOTAL_HEAP_SIZE + 8 < 2147483648) by apply Hp.
  set (b := start + total pre) in *. set (c := b + sz) in *. set (p := prev pre) in *.
  cbn in Hl. destruct Hl as (_ & Hsb & Hl). apply links_next in Hl as Hnb. unfold nx, szo in *.
  destruct (blocks h !! b) as [[nb zb] |] eqn:Eb; [| discriminate]. cbn in Hnb, Hsb.
  injection Hnb as ->. injection Hsb as ->.
  assert (HF : sz <= xFreeBytesRemaining h < 2147483648).
  { rewrite (rep_bytes _ _ _ _ Hr), free_bytes_app, free_bytes_cons. cbn [used size]. pose proof (free_bytes_le _ Ho1).
    pose proof (free_bytes_le _ Ho3). unfold c, b in *. lia. }
  apply Forall_cons in Ho2 as [[_ Hs8] _]. cbn in Hs8.
  destruct (malloc_take_run p b (hd end_ (frees c post).*1) sp sz w h Hp Ep Eb) as (m' & Hm & E); try assumption; try lia.
  eexists. split; [exact E |]. split; [| repeat split].
  destruct Hm as [Hm1 Hm2 Hm3 Hm4].
  apply (splice ucHeap xStart h _ pre [mk_seg false sz] _ post Hp Hr); cbn [total size blocks pxEnd xFreeBytesRemaining];
    rewrite ?Z.add_0_r; fold b c p.
  - rewrite split_seg_total. lia.
  - now apply split_seg_ok.
  - apply split_seg_coalesced. apply Hr.
  - reflexivity.
  - rewrite split_seg_free. change (free_bytes [mk_seg false sz]) with (sz + 0). lia.
  - intros a N Ha. apply Hm4; [lia | exact N |]. intros S. unfold splits in S. apply Z.ltb_lt in S.
    unfold heapMINIMUM_BLOCK_SIZE in S. change (Z.shiftl xHeapStructSize 1) with 16 in S. lia.
  - unfold szo. now rewrite Hm2, Ep.
  - unfold splits, taken in *. unfold split_seg. fold (splits w sz) in *. destruct (splits w sz); cbn; unfold nx, szo.
    + rewrite Hm2, Hm3 by reflexivity. auto.
    + now rewrite Hm2.
  - intros a s Hin. unfold split_seg in Hin. unfold taken in Hm1. fold (splits w sz) in Hin.
    destruct (splits w sz); cbn in Hin; apply list_elem_of_singleton in Hin as [= -> ->]; exact Hm1.
Qed.

(** The heap is too small for the first test of the code to reject a block that would fit. *)
Lemma rep_limits h l : placed ucHeap xStart -> rep ucHeap xStart h l ->
  0 <= free_bytes l <= 76800 /\ 16 * Z.of_nat (length (frees start l)) <= 76800.
Proof.
  intros Hp Hr. destruct (heap_bounds _ _ Hp) as (B1 & _ & _ & _ & B5 & _).
  pose proof (rep_total _ _ _ _ Hr). pose proof (rep_sizes _ _ _ _ Hr) as Hok.
  pose proof (free_bytes_le l Hok). pose proof (frees_length start l Hok).
  unfold configTOTAL_HEAP_SIZE in *. lia.
Qed.

(** The search from [xStart]. *)
Lemma malloc_search h l w : placed ucHeap xStart -> rep ucHeap xStart h l -> 4800 < Z.of_nat fuel -> 0 < w ->
  blocks h !! xStart = Some (mk_block (hd end_ (frees start l).*1) 0) /\
  ucHeap <= hd end_ (frees start l).*1 < ucHeap + configTOTAL_HEAP_SIZE /\
  malloc_find ucHeap fuel xStart (hd end_ (frees start l).*1) w h =
  Done (match first_fit w l with
        | Some (pre, _, _) => (prev pre, start + total pre)
        | None => (endp xStart (frees start l), end_)
        end) h.
Proof.
  intros Hp Hr Hf Hw. destruct (rep_limits h l Hp Hr) as [HF HL].
  destruct (heap_bounds _ _ Hp) as (B1 & _ & _ & B4 & B5 & B6).
  assert (Hin : forall a, a ∈ (frees start l).*1 -> start <= a /\ a + 16 <= end_)
    by (intros a; now apply (frees_in_heap ucHeap xStart h)).
  split; [| split].
  - pose proof (rep_start _ _ _ _ Hr) as Es. pose proof (links_next _ _ _ _ (rep_links _ _ _ _ Hr)) as En.
    unfold szo, nx in *. destruct (blocks h !! xStart) as [[n s] |]; [| discriminate].
    cbn in Es, En. congruence.
  - assert (start <= hd end_ (frees start l).*1 <= end_); [| lia].
    destruct (frees start l) as [| [a z] fl]; cbn; [lia |]. destruct (Hin a); [left | lia].
  - destruct (first_fit w l) as [[[pre sz] post] |] eqn:E.
    + apply first_fit_Some in E as (-> & Hle & Hpre). rewrite frees_app in *. cbn [frees used app] in *.
      pose proof (rep_endblock _ _ _ _ Hr) as Ee.
      pose proof (rep_links _ _ _ _ Hr) as Hl. rewrite frees_app in Hl. cbn [frees used app] in Hl.
      assert (Hhd : forall (f1 : list (Z * Z)) x f2, hd end_ (f1 ++ x :: f2).*1 = hd x.1 f1.*1)
        by (intros [| x1 f1] x f2; reflexivity).
      rewrite Hhd. cbn [fst]. assert (Hlt : (length (frees start pre) < fuel)%nat) by (rewrite length_app in HL; lia).
      rewrite (malloc_find_ok ucHeap xStart w (blocks h) (frees start pre) _ xStart _ _ _ h Hp eq_refl Hlt Hl);
        try assumption; try (unfold szo, nx; now rewrite Ee); try lia; [reflexivity |].
      now apply frees_sizes with (P := fun z => z < w).
    + apply (malloc_find_none ucHeap xStart w (frees start l)); try assumption; [lia | | |].
      * apply Hr.
      * apply Hr.
      * apply frees_sizes with (P := fun z => z < w). now apply first_fit_None.
Qed.

(** The body of [pvPortMalloc] once the heap is initialised. *)
Definition malloc_body (w F e : Z) : prog heap Z :=
  if heapBLOCK_SIZE_IS_VALID w then
    if (0 <? w) && (w <=? F) then
      start <- load xStart ;;
      let pxBlock := pxNextFreeBlock start in
      heapVALIDATE_BLOCK_POINTER ucHeap pxBlock ;;
      ' (pxPreviousBlock, pxBlock) <- malloc_find ucHeap fuel xStart pxBlock w ;;
      if negb (pxBlock =? e) then malloc_take ucHeap xStart pxPreviousBlock pxBlock w
      else ret 0
    else ret 0
  else ret 0.

Lemma pvPortMalloc_unfold n h l r h' : placed ucHeap xStart -> rep ucHeap xStart h l ->
  malloc_body (block_size_for n) (free_bytes l) end_ h = Done r h' -> r mod 8 = 0 ->
  pvPortMalloc ucHeap xStart fuel n h = Done r h'.
Proof.
  intros Hp Hr E Er. destruct (heap_bounds _ _ Hp) as (B1 & _ & _ & B4 & _ & B6).
  unfold pvPortMalloc. rewrite (bind_done get _ _ _ _ eq_refl).
  rewrite (rep_end _ _ _ _ Hr). destruct (Z.eqb_spec end_ 0); [lia |].
  rewrite (bind_done (ret tt) _ _ _ _ eq_refl), (bind_done get _ _ _ _ eq_refl), (rep_bytes _ _ _ _ Hr).
  rewrite (rep_end _ _ _ _ Hr). fold (malloc_body (block_size_for n) (free_bytes l) end_).
  rewrite (bind_done _ _ _ _ _ E). now rewrite assert_bind by (rewrite land_mask, Er; reflexivity).
Qed.

(** The search and what follows, for a block size the counters allow. *)
Lemma malloc_body_search h l w : placed ucHeap xStart -> rep ucHeap xStart h l -> 4800 < Z.of_nat fuel ->
  0 < w <= free_bytes l ->
  malloc_body w (free_bytes l) end_ h =
  match first_fit w l with
  | Some (pre, _, _) => malloc_take ucHeap xStart (prev pre) (start + total pre) w h
  | None => Done 0 h
  end.
Proof.
  intros Hp Hr Hf Hw. destruct (heap_bounds _ _ Hp) as (B1 & _ & _ & _ & B5 & _).
  destruct (rep_limits h l Hp Hr) as [HF HL].
  destruct (malloc_search h l w Hp Hr Hf ltac:(lia)) as (S1 & S2 & S3).
  unfold malloc_body. rewrite size_valid by lia. destruct (Z.ltb_spec w 2147483648); [| lia].
  destruct (Z.ltb_spec 0 w); [| lia]. destruct (Z.leb_spec w (free_bytes l)); [| lia]. cbn [andb].
  erewrite load_bind by exact S1. cbn zeta. cbn [pxNextFreeBlock].
  rewrite validate_bind by lia. rewrite (bind_done _ _ _ _ _ S3).
  destruct (first_fit w l) as [[[pre sz] post] |] eqn:E; [| now rewrite Z.eqb_refl].
  apply first_fit_Some in E as (-> & Hle & _).
  destruct (middle_facts _ _ h pre [mk_seg false sz] post Hp Hr) as (_ & _ & _ & Hb & Hc & _).
  cbn [total size] in Hb, Hc. destruct (Z.eqb_spec (start + total pre) end_); [lia | reflexivity].
Qed.

(** A request that fits. *)
Lemma malloc_serves n h l pre sz post : placed ucHeap xStart -> rep ucHeap xStart h l ->
  0 < n < 4294967296 -> 4800 < Z.of_nat fuel -> first_fit (block_for n) l = Some (pre, sz, post) ->
  l = pre ++ mk_seg false sz :: post /\ n + 8 <= block_for n <= sz /\ (start + total pre + 8) mod 8 = 0 /\
  exists h', pvPortMalloc ucHeap xStart fuel n h = Done (start + total pre + 8) h' /\
    rep ucHeap xStart h' (pre ++ split_seg (block_for n) sz ++ post) /\
    xMinimumEverFreeBytesRemaining h' = Z.min (free_bytes (pre ++ split_seg (block_for n) sz ++ post))
                                              (xMinimumEverFreeBytesRemaining h) /\
    xNumberOfSuccessfulAllocations h' = u32 (xNumberOfSuccessfulAllocations h + 1) /\
    xNumberOfSuccessfulFrees h' = xNumberOfSuccessfulFrees h.
Proof.
  intros Hp Hr Hn Hf E. destruct (block_for_ok n ltac:(lia)) as (K1 & K2 & K3).
  destruct (rep_limits h l Hp Hr) as [HF _].
  pose proof (malloc_body_search h l (block_for n) Hp Hr Hf) as S. rewrite E in S.
  destruct (first_fit_Some _ _ _ _ _ E) as (El & Hle & _). subst l.
  destruct (middle_facts _ _ h pre [mk_seg false sz] post Hp Hr) as (O1 & _ & O3 & Hb & Hc & Hb8 & _).
  cbn [total size] in Hb, Hc. assert (M : (start + total pre + 8) mod 8 = 0) by (rewrite Z.add_mod, Hb8 by lia; reflexivity).
  destruct (malloc_take_rep h pre sz post (block_for n) Hp Hr K2 ltac:(lia)) as (h' & T1 & T2 & T3 & T4 & T5).
  split; [reflexivity |]. split; [lia |]. split; [exact M |]. exists h'.
  split; [| split; [exact T2 | split; [now rewrite T3, (rep_bytes _ _ _ _ T2) | now split]]].
  assert (W : block_for n <= free_bytes (pre ++ mk_seg false sz :: post)).
  { rewrite free_bytes_app, free_bytes_cons. cbn [used size]. pose proof (free_bytes_le _ O1).
    pose proof (free_bytes_le _ O3). lia. }
  apply (pvPortMalloc_unfold n h _ _ h' Hp Hr); [| exact M].
  rewrite block_size_for_spec by exact ltac:(unfold is_u32; lia). destruct (Z.eqb_spec n 0); [lia |].
  unfold heapSIZE_MAX. destruct (Z.leb_spec (block_for n) 0xffffffff); [| lia]. rewrite S by lia. exact T1.
Qed.

Lemma malloc_first_fit n h l : placed ucHeap xStart -> rep ucHeap xStart h l ->
  is_u32 n -> 4800 < Z.of_nat fuel ->
  match (if n =? 0 then None else first_fit (block_for n) l) with
  | Some (pre, sz, post) =>
    l = pre ++ mk_seg false sz :: post /\ n + 8 <= block_for n <= sz /\
    (start + total pre + 8) mod 8 = 0 /\
    exists h', pvPortMalloc ucHeap xStart fuel n h = Done (start + total pre + 8) h' /\
      rep ucHeap xStart h' (pre ++ split_seg (block_for n) sz ++ post) /\
      xMinimumEverFreeBytesRemaining h' = Z.min (free_bytes (pre ++ split_seg (block_for n) sz ++ post))
                                                (xMinimumEverFreeBytesRemaining h) /\
      xNumberOfSuccessfulAllocations h' = u32 (xNumberOfSuccessfulAllocations h + 1) /\
      xNumberOfSuccessfulFrees h' = xNumberOfSuccessfulFrees h
  | None => pvPortMalloc ucHeap xStart fuel n h = Done 0 h
  end.
Proof.
  intros Hp Hr Hn Hf. unfold is_u32 in Hn. destruct (rep_limits h l Hp Hr) as [HF HL].
  destruct (if n =? 0 then None else first_fit (block_for n) l) as [[[pre sz] post] |] eqn:E.
  { destruct (Z.eqb_spec n 0); [discriminate |]. apply (malloc_serves n h l); auto; lia. }
  apply (pvPortMalloc_unfold n h l 0 h Hp Hr); [| reflexivity]. rewrite block_size_for_spec by exact Hn.
  destruct (Z.eqb_spec n 0) as [-> | N]; [reflexivity |].
  destruct (Z.leb_spec (block_for n) heapSIZE_MAX); [| reflexivity].
  destruct (block_for_ok n ltac:(lia)) as (K1 & K2 & K3).
  destruct (Z.leb_spec (block_for n) (free_bytes l)) as [L | L].
  - rewrite malloc_body_search by (auto; lia). now rewrite E.
  - unfold malloc_body. destruct (heapBLOCK_SIZE_IS_VALID _); [| reflexivity].
    destruct (Z.leb_spec (block_for n) (free_bytes l)); [lia |]. now rewrite andb_false_r.
Qed.

(** C13: On an initialised heap, [pvPortMalloc] serves a request of [n] bytes from the first free segment
    of the heap (in address order) that can hold a block of [block_for n] bytes, its header included:
    the pointer returned is 8 bytes past the start of that segment and 8-byte aligned, the segment is
    split when more than 16 bytes are left over, the free-byte count, its minimum and the call counter
    are updated, and no block already in use is touched. If no segment fits, or nothing is requested,
    it returns [NULL] and leaves the heap as it was. *)
Theorem pvPortMalloc_first_fit n h l : placed ucHeap xStart -> rep ucHeap xStart h l ->
  is_u32 n -> 4800 < Z.of_nat fuel ->
  match (if n =? 0 then None else first_fit (block_for n) l) with
  | Some (pre, sz, post) =>
    l = pre ++ mk_seg false sz :: post /\ n + 8 <= block_for n <= sz /\
    (start + total pre + 8) mod 8 = 0 /\
    exists h', pvPortMalloc ucHeap xStart fuel n h = Done (start + total pre + 8) h' /\
      rep ucHeap xStart h' (pre ++ split_seg (block_for n) sz ++ post) /\
      xMinimumEverFreeBytesRemaining h' = Z.min (free_bytes (pre ++ split_seg (block_for n) sz ++ post))
                                                (xMinimumEverFreeBytesRemaining h) /\
      xNumberOfSuccessfulAllocations h' = u32 (xNumberOfSuccessfulAllocations h + 1) /\
      xNumberOfSuccessfulFrees h' = xNumberOfSuccessfulFrees h
  | None => pvPortMalloc ucHeap xStart fuel n h = Done 0 h
  end.
Proof. exact (malloc_first_fit n h l). Qed.

Lemma heap_initialises h : placed ucHeap xStart -> pxEnd h = 0 ->
  exists h1, prvHeapInit ucHeap xStart h = Done tt h1 /\
    rep ucHeap xStart h1 [mk_seg false (end_ - start)] /\
    xMinimumEverFreeBytesRemaining h1 = end_ - start /\
    xNumberOfSuccessfulAllocations h1 = xNumberOfSuccessfulAllocations h /\
    xNumberOfSuccessfulFrees h1 = xNumberOfSuccessfulFrees h /\
    forall n, pvPortMalloc ucHeap xStart fuel n h = pvPortMalloc ucHeap xStart fuel n h1.
Proof.
  intros Hp He. destruct (heap_bounds _ _ Hp) as (B1 & B2 & B3 & B4 & B5 & B6).
  assert (Hlim : ucHeap + configTOTAL_HEAP_SIZE + 8 < 2147483648) by apply Hp.
  assert (Ho1 : is_object ucHeap xStart xStart = true) by apply object_start.
  assert (Ho2 : is_object ucHeap xStart start = true) by (apply object_heap; lia).
  assert (Ho3 : is_object ucHeap xStart end_ = true) by (apply object_heap; lia).
  assert (N1 : xStart <> start) by (apply (xStart_outside ucHeap xStart _ Hp); lia).
  assert (N2 : xStart <> end_) by (apply (xStart_outside ucHeap xStart _ Hp); lia).
  assert (N3 : start <> end_) by lia.
  assert (E : exists m, prvHeapInit ucHeap xStart h =
            Done tt (mk_heap m end_ (end_ - start) (end_ - start) (xNumberOfSuccessfulAllocations h)
                      (xNumberOfSuccessfulFrees h)) /\
            m !! xStart = Some (mk_block start 0) /\ m !! start = Some (mk_block end_ (end_ - start)) /\
            m !! end_ = Some (mk_block 0 0)).
  { eexists. split.
    - unfold prvHeapInit, set_next, set_size. cbn zeta. rewrite !store_bind by assumption.
      rewrite (bind_done (set_pxEnd _) _ _ _ _ eq_refl). rewrite !store_bind by assumption.
      erewrite load_bind by apply lookup_insert_eq.
      unfold set_free_bytes, modify. cbn -[heap_start heap_end].
      repeat (look; cbn -[heap_start heap_end]). rewrite u32_id by lia. reflexivity.
    - repeat split; repeat (look; cbn -[heap_start heap_end]); now rewrite ?u32_id by lia. }
  destruct E as (m & E & M1 & M2 & M3). eexists. split; [exact E |].
  split; [| split; [reflexivity | split; [reflexivity | split; [reflexivity |]]]].
  - constructor; cbn -[heap_start heap_end]; unfold nx, szo; rewrite ?M1, ?M2; auto; try lia.
    + repeat constructor; cbn; [lia | rewrite Zminus_mod, B2, B3; reflexivity].
    + intros a s Hin. now apply elem_of_nil in Hin.
    + change (end_ - start = end_ - start + 0). lia.
  - intros n. unfold pvPortMalloc. rewrite !(bind_done get _ _ _ _ eq_refl). rewrite He. cbn [Z.eqb pxEnd].
    rewrite (bind_done _ _ _ _ _ E). destruct (Z.eqb_spec end_ 0); [lia | reflexivity].
Qed.

(** The first call, recognised by [pxEnd] being [NULL], initialises the heap whatever the
    memory holds: from the first aligned address of [ucHeap] up to the end marker it is one free
    segment, all of whose bytes are counted as free; the call then proceeds on that heap. *)
Theorem pvPortMalloc_initialises h : placed ucHeap xStart -> pxEnd h = 0 ->
  exists h1, prvHeapInit ucHeap xStart h = Done tt h1 /\
    rep ucHeap xStart h1 [mk_seg false (end_ - start)] /\
    xMinimumEverFreeBytesRemaining h1 = end_ - start /\
    xNumberOfSuccessfulAllocations h1 = xNumberOfSuccessfulAllocations h /\
    xNumberOfSuccessfulFrees h1 = xNumberOfSuccessfulFrees h /\
    forall n, pvPortMalloc ucHeap xStart fuel n h = pvPortMalloc ucHeap xStart fuel n h1.
Proof. exact (heap_initialises h). Qed.
End Malloc.
