(* ===== verification/Heap4Free.v ===== *)
(** [vPortFree] of [Heap4] against the abstract heaps of [Heap4Proofs]: the block goes back to its place
    in the address-ordered free list, merged with the free segments next to it. *)
From Stdlib Require Import ZArith Lia Bool.
From stdpp Require Import base decidable list gmap.
From S2P Require Import Prelude Heap4 Heap4Proofs Heap4Malloc.

(** ** Merging in the abstract heap *)

Definition ends_used (l : list seg) : Prop := forall l1 s, l = l1 ++ [s] -> used s = true.
Definition starts_used (l : list seg) : Prop := match l with s :: _ => used s = true | [] => True end.

Lemma coalesced_join pre x l y l' : coalesced (pre ++ x :: l) -> ends_used pre -> coalesced (y :: l') ->
  coalesced (pre ++ y :: l').
Proof.
  intros H Hu Hc. induction pre as [| t pre IH]; [exact Hc |]. destruct pre as [| t' pre]; cbn in *.
  - split; [left; now apply (Hu [] t) | exact Hc].
  - destruct H as [H1 H2]. split; [exact H1 |]. apply (IH H2). intros l1 s E. apply (Hu (t :: l1) s).
    cbn. now rewrite E.
Qed.

Lemma merge_cons_used pre sz post : ends_used pre -> merge pre sz post = pre ++ merge_right sz post.
Proof.
  induction pre as [| s pre IH]; intros H; [reflexivity |]. destruct pre as [| s' pre].
  - cbn. now rewrite (H [] s eq_refl).
  - change (s :: merge (s' :: pre) sz post = s :: (s' :: pre) ++ merge_right sz post). f_equal. apply IH.
    intros l1 t E. apply (H (s :: l1) t). cbn. now rewrite E.
Qed.

Lemma merge_cons_free pre z sz post : merge (pre ++ [mk_seg false z]) sz post = pre ++ merge_right (z + sz) post.
Proof.
  induction pre as [| s pre IH]; [reflexivity |]. cbn [app merge]. rewrite IH.
  destruct (pre ++ [mk_seg false z]) eqn:E; [| reflexivity]. destruct pre; discriminate.
Qed.

(** The parts of the heap around a used segment: what merges with it on either side. *)
Lemma left_part pre : 
  (ends_used pre) \/ (exists pre1 z, pre = pre1 ++ [mk_seg false z]).
Proof.
  destruct pre as [| [u z] pre1 _] using rev_ind.
  - left. intros l1 s E. now destruct l1.
  - destruct u; [left | right; now exists pre1, z].
    intros l1 s E. apply app_inj_tail in E as [_ <-]. reflexivity.
Qed.

Lemma ends_used_free pre z l : coalesced (pre ++ mk_seg false z :: l) -> ends_used pre.
Proof.
  intros H l1 s ->. rewrite <- app_assoc in H. apply coalesced_right in H. cbn in H.
  destruct H as [[H | H] _]; [exact H | discriminate].
Qed.

Section Free.
Variable ucHeap xStart : Z.
Variable fuel : nat.

#[local] Abbreviation start := (heap_start ucHeap).
#[local] Abbreviation end_ := (heap_end ucHeap).
#[local] Abbreviation prev := (prev_of ucHeap xStart).

(** The traversal stops in front of the first free block behind [b]. *)
Lemma insert_find_ok b nb fl : forall n p h, (length fl < n)%nat ->
  path (blocks h) p fl -> nx (blocks h) (endp p fl) = Some nb -> b <= nb ->
  (forall a, a ∈ fl.*1 -> a < b) -> insert_find n p b h = Done (endp p fl) h.
Proof.
  induction fl as [| [a s] fl IH]; intros n p h Hn Hp He Hb Hl; (destruct n as [| n]; [cbn in Hn; lia |]);
    cbn [insert_find endp path] in *.
  - unfold nx in He. destruct (blocks h !! p) as [blk |] eqn:E; [| discriminate]. injection He as <-.
    rewrite (load_bind _ _ _ _ E). destruct (Z.ltb_spec (pxNextFreeBlock blk) b); [lia | reflexivity].
  - destruct Hp as (Hx & Hs & Hp). unfold nx in Hx.
    destruct (blocks h !! p) as [blk |] eqn:E; [| discriminate]. injection Hx as <-.
    rewrite (load_bind _ _ _ _ E). pose proof (Hl (pxNextFreeBlock blk) ltac:(left)).
    destruct (Z.ltb_spec (pxNextFreeBlock blk) b); [| lia].
    apply IH; auto; [cbn in Hn; lia |]. intros c Hc. apply Hl. now right.
Qed.

#[local] Ltac look := repeat first
  [ rewrite lookup_insert_eq
  | rewrite lookup_insert_ne by (auto; lia) ];
  cbn [default from_option id set_blocks blocks];
  unfold with_size, with_next; cbn [pxNextFreeBlock xBlockSize].

(** The second half of [prvInsertBlockIntoFreeList], from the test for a block behind [k] on. *)
Lemma insert_tail_run p k kx ks nb nn ns psz h :
  pxEnd h = end_ -> is_object ucHeap xStart p = true -> is_object ucHeap xStart k = true ->
  blocks h !! k = Some (mk_block kx ks) -> blocks h !! p = Some (mk_block nb psz) ->
  blocks h !! nb = Some (mk_block nn ns) -> p <> nb -> k <> nb -> 
  0 <= k -> 0 <= ks -> k + ks < 2147483648 -> 0 <= ns -> ks + ns < 2147483648 ->
  let R := (k + ks =? nb) && negb (nb =? end_) in
  exists m', m' !! k = Some (mk_block (if R then nn else nb) (ks + (if R then ns else 0))) /\
    (k <> p -> m' !! p = Some (mk_block k psz)) /\
    (forall a, a <> k -> a <> p -> m' !! a = blocks h !! a) /\
    (b <- load k ;;
     it <- load p ;;
     h <- get ;;
     (if u32 (k + xBlockSize b) =? pxNextFreeBlock it then
        if negb (pxNextFreeBlock it =? pxEnd h) then
          nx <- load (pxNextFreeBlock it) ;;
          store ucHeap xStart k (with_size (u32 (xBlockSize b + xBlockSize nx))) ;;
          store ucHeap xStart k (with_next (pxNextFreeBlock nx))
        else store ucHeap xStart k (with_next (pxEnd h))
      else store ucHeap xStart k (with_next (pxNextFreeBlock it))) ;;
     (if negb (p =? k) then store ucHeap xStart p (with_next k) else ret tt)) h =
    Done tt (set_blocks m' h).
Proof.
  intros He Hpo Hko Ek Ep En Npn Nkn Hk Hks Hlim Hns Hlim2 R.
  rewrite (load_bind _ _ _ _ Ek), (load_bind _ _ _ _ Ep), (bind_done get _ _ _ _ eq_refl).
  cbn [pxNextFreeBlock xBlockSize]. rewrite He, (u32_id (k + ks)) by lia.
  assert (E1 : exists m1, m1 !! k = Some (mk_block (if R then nn else nb) (ks + (if R then ns else 0))) /\
    (forall a, a <> k -> m1 !! a = blocks h !! a) /\
    (if k + ks =? nb then
        if negb (nb =? end_) then
          nx <- load nb ;;
          store ucHeap xStart k (with_size (u32 (ks + xBlockSize nx))) ;;
          store ucHeap xStart k (with_next (pxNextFreeBlock nx))
        else store ucHeap xStart k (with_next end_)
      else store ucHeap xStart k (with_next nb)) h = Done tt (set_blocks m1 h)).
  { unfold R. destruct (Z.eqb_spec (k + ks) nb) as [E | N]; cbn [andb].
    - destruct (Z.eqb_spec nb end_) as [-> | N2]; cbn [negb].
      + rewrite store_ok by exact Hko. eexists. split; [| split; [| reflexivity]].
        * rewrite Ek. look. do 2 f_equal. lia.
        * intros a Na. now look.
      + rewrite (load_bind _ _ _ _ En). cbn [xBlockSize pxNextFreeBlock]. rewrite (u32_id (ks + ns)) by lia.
        rewrite store_bind, store_ok by exact Hko. eexists. split; [| split; [| reflexivity]]; cbn [set_blocks blocks].
        * rewrite Ek. repeat look. reflexivity.
        * intros a Na. now look.
    - rewrite store_ok by exact Hko. eexists. split; [| split; [| reflexivity]].
      + rewrite Ek. look. do 2 f_equal. lia.
      + intros a Na. now look. }
  destruct E1 as (m1 & M1 & M2 & E1). rewrite (bind_done _ _ _ _ _ E1).
  destruct (Z.eqb_spec p k) as [-> | N]; cbn [negb].
  - exists m1. split; [exact M1 |]. split; [congruence |]. split; [auto | reflexivity].
  - rewrite store_ok by exact Hpo. eexists. split; [| split; [| split; [| reflexivity]]]; cbn [set_blocks blocks].
    + now look.
    + intros _. rewrite M2, Ep by exact N. now look.
    + intros a Na1 Na2. look. auto.
Qed.

(** What inserting the block of [s] bytes at [b] after the header at [p] leaves in memory: [left] and
    [right] say whether it was merged with the block before and the block behind it. *)
Record inserted (m m' : gmap Z BlockLink_t) (left right : bool) (p b nb nn sp s ns : Z) : Prop := {
  ins_block : m' !! (if left then p else b) =
    Some (mk_block (if right then nn else nb) ((if left then sp + s else s) + (if right then ns else 0)));
  ins_prev : left = false -> m' !! p = Some (mk_block b sp);
  ins_frame : forall a, a <> b -> a <> p -> m' !! a = m !! a
}.

Lemma prvInsert_run p b x nb nn sp s ns h :
  placed ucHeap xStart -> pxEnd h = end_ -> insert_find fuel xStart b h = Done p h ->
  blocks h !! p = Some (mk_block nb sp) -> blocks h !! b = Some (mk_block x s) ->
  blocks h !! nb = Some (mk_block nn ns) ->
  p = xStart /\ sp = 0 \/ start <= p /\ 16 <= sp /\ p + sp <= b -> start <= b -> 16 <= s -> b + s <= nb ->
  nb = end_ /\ ns = 0 \/ nb + ns <= end_ /\ 16 <= ns ->
  exists m', inserted (blocks h) m' (p + sp =? b) ((b + s =? nb) && negb (nb =? end_)) p b nb nn sp s ns /\
    prvInsertBlockIntoFreeList ucHeap xStart fuel b h = Done tt (set_blocks m' h).
Proof.
  intros Hp He Hfind Ep Eb Enb Hprev Hb Hs Hnb Hnb'.
  destruct (heap_bounds _ _ Hp) as (B1 & B2 & B3 & B4 & B5 & B6).
  assert (Hlim : ucHeap + configTOTAL_HEAP_SIZE + 8 < 2147483648) by apply Hp.
  assert (Hx : 0 < xStart < 4294967296) by apply Hp.
  assert (Hpo : is_object ucHeap xStart p = true)
    by (destruct Hprev as [[-> _] |]; [apply object_start | apply object_heap; lia]).
  assert (Hbo : is_object ucHeap xStart b = true) by (apply object_heap; lia).
  assert (Hpb : p <> b).
  { destruct Hprev as [[-> _] |]; [apply (xStart_outside ucHeap xStart b Hp); lia | lia]. }
  assert (Hsum : u32 (p + sp) = p + sp) by (apply u32_id; destruct Hprev as [[-> ->] |]; lia).
  unfold prvInsertBlockIntoFreeList, set_next, set_size. rewrite (bind_done _ _ _ _ _ Hfind).
  assert (Hval : (if negb (p =? xStart) then heapVALIDATE_BLOCK_POINTER ucHeap p else ret tt) h = Done tt h).
  { destruct (Z.eqb_spec p xStart) as [| N]; [reflexivity |]. apply validate_ok; lia. }
  rewrite (bind_done _ _ _ _ _ Hval). rewrite (load_bind _ _ _ _ Ep). cbn [xBlockSize]. rewrite Hsum.
  assert (Hnx : nb <> p /\ nb <> b).
  { split; [| lia]. destruct Hprev as [[-> _] |]; [| lia]. intros E.
    apply (xStart_outside ucHeap xStart nb Hp); try lia. }
  destruct (Z.eqb_spec (p + sp) b) as [EL | NL]; rewrite ?bind_assoc.
  - destruct Hprev as [[-> ->] | Hprev]; [lia |].
    rewrite (load_bind _ _ _ _ Eb). rewrite bind_assoc, store_bind by exact Hpo. rewrite Ep.
    cbn [default from_option id with_size pxNextFreeBlock xBlockSize]. rewrite (u32_id (sp + s)) by lia.
    rewrite (bind_done (ret _) _ _ _ _ eq_refl).
    set (h1 := set_blocks _ h). assert (L1 : blocks h1 !! p = Some (mk_block nb (sp + s))) by (cbn; now look).
    assert (L2 : blocks h1 !! nb = Some (mk_block nn ns)) by (cbn; look; exact Enb).
    destruct (insert_tail_run p p nb (sp + s) nb nn ns (sp + s) h1 He Hpo Hpo L1 L1 L2) as (m' & M1 & M2 & M3 & E);
      try lia.
    rewrite E. exists m'. split; [| reflexivity]. rewrite <- EL.
    replace (p + sp + s) with (p + (sp + s)) by lia. constructor.
    + exact M1.
    + discriminate.
    + intros a N1 N2. rewrite M3 by auto. cbn. now look.
  - rewrite (bind_done (ret _) _ _ _ _ eq_refl).
    destruct (insert_tail_run p b x s nb nn ns sp h He Hpo Hbo Eb Ep Enb) as (m' & M1 & M2 & M3 & E); try lia.
    rewrite E. exists m'. split; [| reflexivity]. constructor; auto.
Qed.

Lemma path_endp m l : forall p, path m p l ->
  endp p l = p /\ l = [] \/ exists s, (endp p l, s) ∈ l /\ szo m (endp p l) = Some s.
Proof.
  induction l as [| [b s] l IH]; intros p H; cbn in *; [now left |]. right.
  destruct H as (_ & Hs & H). destruct (IH b H) as [[E ->] | (z & Hin & Hz)].
  - cbn. exists s. split; [left | exact Hs].
  - exists z. split; [now right | exact Hz].
Qed.

(** The headers on both sides of a used segment. *)
Lemma neighbours h pre s post : placed ucHeap xStart -> rep ucHeap xStart h (pre ++ [mk_seg true s] ++ post) ->
  let b := start + total pre in let nb := hd end_ (frees (b + s) post).*1 in
  exists sp nn ns,
    blocks h !! prev pre = Some (mk_block nb sp) /\ blocks h !! nb = Some (mk_block nn ns) /\
    (prev pre = xStart /\ sp = 0 /\ frees start pre = [] \/ (prev pre, sp) ∈ frees start pre) /\
    (nb = end_ /\ ns = 0 /\ frees (b + s) post = [] \/
     exists fl, frees (b + s) post = (nb, ns) :: fl /\ nn = hd end_ fl.*1).
Proof.
  intros Hp Hr b nb. destruct (middle_facts _ _ h pre _ post Hp Hr) as
    (Ho1 & Ho2 & Ho3 & Hb & Hc & Hb8 & Htot & Hnd & Hpr & Hpath & Hl & sp & Ep).
  cbn [total frees used app size] in *. rewrite Z.add_0_r in *. fold b nb in Ep, Hl.
  assert (En : exists nn ns, blocks h !! nb = Some (mk_block nn ns) /\
    (nb = end_ /\ ns = 0 /\ frees (b + s) post = [] \/
     exists fl, frees (b + s) post = (nb, ns) :: fl /\ nn = hd end_ fl.*1)).
  { unfold nb. destruct (frees (b + s) post) as [| [a z] fl]; cbn [fmap list_fmap hd fst].
    - exists 0, 0. split; [apply Hr | auto].
    - cbn [links] in Hl. destruct Hl as (_ & Hz & Hl). apply links_next in Hl. unfold szo, nx in *.
      destruct (blocks h !! a) as [[nn ns] |]; [| discriminate]. cbn in Hz, Hl. injection Hz as ->.
      injection Hl as ->. eexists _, z. split; [reflexivity |]. right. exists fl. auto. }
  destruct En as (nn & ns & En & Hn). exists sp, nn, ns. split; [exact Ep |]. split; [exact En |].
  split; [| exact Hn]. destruct (path_endp _ _ _ Hpath) as [[E El] | (z & Hin & Hz)].
  - left. fold (prev pre) in E. split; [exact E |]. split; [| exact El].
    pose proof (rep_start _ _ _ _ Hr) as Es. unfold szo in Es. fold (prev pre) in Ep.
    rewrite <- E, Ep in Es. now injection Es as ->.
  - right. fold (prev pre) in *. unfold szo in Hz. rewrite Ep in Hz. now injection Hz as ->.
Qed.

(** Running [vPortFree] on a used segment. *)
Lemma vPortFree_run h pre s post : placed ucHeap xStart -> rep ucHeap xStart h (pre ++ [mk_seg true s] ++ post) ->
  4800 < Z.of_nat fuel ->
  let b := start + total pre in let nb := hd end_ (frees (b + s) post).*1 in
  forall sp nn ns, blocks h !! prev pre = Some (mk_block nb sp) -> blocks h !! nb = Some (mk_block nn ns) ->
    (prev pre = xStart /\ sp = 0 /\ frees start pre = [] \/ (prev pre, sp) ∈ frees start pre) ->
    (nb = end_ /\ ns = 0 /\ frees (b + s) post = [] \/
     exists fl, frees (b + s) post = (nb, ns) :: fl /\ nn = hd end_ fl.*1) ->
  exists m', inserted (<[b := mk_block 0 s]> (blocks h)) m' (prev pre + sp =? b)
               ((b + s =? nb) && negb (nb =? end_)) (prev pre) b nb nn sp s ns /\
    vPortFree ucHeap xStart fuel (b + 8) h =
    Done tt (mk_heap m' (pxEnd h) (xFreeBytesRemaining h + s) (xMinimumEverFreeBytesRemaining h)
               (xNumberOfSuccessfulAllocations h) (u32 (xNumberOfSuccessfulFrees h + 1))).
Proof.
  intros Hp Hr Hf b nb sp nn ns Ep En Hsp Hns.
  destruct (rep_limits _ _ h _ Hp Hr) as [HF HL].
  destruct (middle_facts _ _ h pre _ post Hp Hr) as
    (Ho1 & Ho2 & Ho3 & Hb & Hc & Hb8 & Htot & Hnd & Hpr & Hpath & Hl & _ & _).
  cbn [total size] in *. rewrite Z.add_0_r in *. fold b in Hb, Hc, Hb8, Hpr.
  destruct (heap_bounds _ _ Hp) as (B1 & B2 & B3 & B4 & B5 & B6).
  assert (Hlim : ucHeap + configTOTAL_HEAP_SIZE + 8 < 2147483648) by apply Hp.
  apply Forall_cons in Ho2 as [[S1 _] _]. cbn in S1.
  assert (Eb : blocks h !! b = Some (mk_block 0 (s + 2147483648))).
  { apply Hr. rewrite useds_app. cbn. apply elem_of_app. right. left. }
  unfold vPortFree. destruct (Z.eqb_spec (b + 8) 0); [lia |]. cbn [negb]. change xHeapStructSize with 8.
  replace (b + 8 - 8) with b by lia. rewrite u32_id by lia. rewrite validate_bind by lia.
  rewrite (load_bind _ _ _ _ Eb).
  assert (Ha : heapBLOCK_IS_ALLOCATED (mk_block 0 (s + 2147483648)) = true).
  { pose proof (size_valid (s + 2147483648) ltac:(lia)) as V. unfold heapBLOCK_SIZE_IS_VALID in V.
    unfold heapBLOCK_IS_ALLOCATED. cbn [xBlockSize]. rewrite V.
    destruct (Z.ltb_spec (s + 2147483648) 2147483648); [lia | reflexivity]. }
  rewrite Ha. cbn [pxNextFreeBlock xBlockSize Z.eqb]. rewrite !assert_bind by reflexivity.
  unfold set_size at 1. rewrite store_bind by (apply object_heap; lia). rewrite Eb.
  cbn [default from_option id]. unfold with_size. cbn [xBlockSize pxNextFreeBlock].
  rewrite unmark_size by lia. erewrite load_bind by (cbn [set_blocks blocks]; apply lookup_insert_eq).
  rewrite (bind_done get _ _ _ _ eq_refl). cbn [xBlockSize].
  rewrite (bind_done (set_free_bytes _ _) _ _ _ _ eq_refl). cbn [set_blocks blocks pxEnd xFreeBytesRemaining
    xMinimumEverFreeBytesRemaining xNumberOfSuccessfulAllocations xNumberOfSuccessfulFrees].
  rewrite (u32_id (xFreeBytesRemaining h + s)) by (rewrite (rep_bytes _ _ _ _ Hr); lia).
  set (h1 := mk_heap _ _ _ _ _ _).
  assert (Nb : forall a, (a = xStart \/ a ∈ (frees start pre).*1) -> b <> a).
  { intros a [-> | Ha'] E; [subst; apply (xStart_outside ucHeap _ b Hp); try lia |].
    apply list_elem_of_fmap in Ha' as [[a' z] [-> Ha']]. apply frees_range in Ha'; [| exact Ho1].
    cbn in E. lia. }
  assert (Nnb : b + s <= nb <= end_).
  { apply hd_range; [lia |]. intros a z Hz. apply frees_range in Hz; [lia | exact Ho3]. }
  assert (Npb : b <> prev pre) by (apply Nb, endp_in).
  assert (Hfind : insert_find fuel xStart b h1 = Done (prev pre) h1).
  { apply insert_find_ok with (nb := nb); [| | | lia |].
    - rewrite !frees_app, !length_app in HL. lia.
    - apply path_frame with (m := blocks h); [exact Hnd | | | exact Hpath].
      + intros a Ha' _. cbn. apply lookup_insert_ne. now apply Nb.
      + unfold szo. cbn. rewrite lookup_insert_ne; [reflexivity | exact Npb].
    - fold (prev pre). unfold nx. cbn. rewrite lookup_insert_ne by exact Npb. now rewrite Ep.
    - intros a Ha'. apply list_elem_of_fmap in Ha' as [[a' z] [-> Ha']].
      apply frees_range in Ha'; [| exact Ho1]. cbn. lia. }
  destruct (prvInsert_run (prev pre) b 0 nb nn sp s ns h1 Hp) as (m' & Hm & E); try assumption; try lia.
  - apply Hr.
  - cbn. rewrite lookup_insert_ne by exact Npb. exact Ep.
  - cbn. apply lookup_insert_eq.
  - cbn. rewrite lookup_insert_ne by lia. exact En.
  - destruct Hsp as [(E1 & E2 & _) | Hin]; [now left | right].
    apply frees_range in Hin; [lia | exact Ho1].
  - destruct Hns as [(E1 & E2 & _) | (fl & El & _)]; [now left | right].
    assert (Hin : (nb, ns) ∈ frees (b + s) post) by (rewrite El; left).
    apply frees_range in Hin; [lia | exact Ho3].
  - exists m'. split; [exact Hm |]. rewrite (bind_done _ _ _ _ _ E). reflexivity.
Qed.

(** What is merged on the left: the segments that stay, and the free one next to the block. *)
Lemma left_case h pre s post sp : placed ucHeap xStart -> rep ucHeap xStart h (pre ++ [mk_seg true s] ++ post) ->
  (prev pre = xStart /\ sp = 0 /\ frees start pre = [] \/ (prev pre, sp) ∈ frees start pre) ->
  let L := prev pre + sp =? start + total pre in
  exists pre', pre = pre' ++ (if L then [mk_seg false sp] else []) /\ ends_used pre' /\
    (if L then prev pre = start + total pre' else pre = pre') /\
    forall z, merge pre z post = pre' ++ merge_right ((if L then sp else 0) + z) post.
Proof.
  intros Hp Hr Hsp L. destruct (middle_facts _ _ h pre _ post Hp Hr) as (Ho1 & Ho2 & _ & Hb & Hc & _).
  cbn [total size] in Hc. apply Forall_cons in Ho2 as [[S1 _] _]. cbn in S1. destruct (heap_bounds _ _ Hp) as (B1 & _ & _ & _ & B5 & _).
  destruct (left_part pre) as [Hu | (pre1 & z & ->)].
  - assert (EL : L = false).
    { unfold L. apply Z.eqb_neq. destruct Hsp as [(-> & -> & _) | Hin].
      - rewrite Z.add_0_r. apply (xStart_outside ucHeap xStart _ Hp); lia.
      - destruct pre as [| [u z] pre1 _] using rev_ind; [now apply elem_of_nil in Hin |].
        pose proof (Hu pre1 _ eq_refl) as Eu. cbn in Eu. subst u.
        rewrite frees_app in Hin. cbn [frees used app] in Hin. rewrite app_nil_r in Hin.
        apply Forall_app in Ho1 as [Ho1 Ho1']. apply Forall_cons in Ho1' as [[Hz _] _]. cbn in Hz.
        apply frees_range in Hin; [| exact Ho1]. rewrite total_app. cbn [total size]. lia. }
    rewrite EL. exists pre. rewrite app_nil_r. repeat split; auto.
    intros z. now rewrite merge_cons_used.
  - assert (E : prev (pre1 ++ [mk_seg false z]) = start + total pre1).
    { unfold prev_of. rewrite frees_app, endp_app. reflexivity. }
    assert (Esp : sp = z).
    { destruct Hsp as [(_ & _ & En) | Hin].
      - rewrite frees_app in En. apply app_eq_nil in En as [_ En]. discriminate.
      - rewrite E, frees_app in Hin. apply elem_of_app in Hin as [Hin | Hin].
        + apply Forall_app in Ho1 as [Ho1 _]. apply frees_range in Hin; [lia | exact Ho1].
        + cbn [frees used app size] in Hin. apply list_elem_of_singleton in Hin. congruence. }
    assert (EL : L = true) by (unfold L; rewrite E, total_app, Esp; cbn; apply Z.eqb_eq; lia).
    rewrite EL. exists pre1. rewrite Esp. split; [reflexivity |]. split; [| split; [exact E |]].
    + pose proof (rep_coalesced _ _ _ _ Hr) as Hco. rewrite <- app_assoc in Hco.
      eapply ends_used_free. exact Hco.
    + intros x. apply merge_cons_free.
Qed.

(** What is merged on the right. *)
Lemma right_case h pre s post nn ns : placed ucHeap xStart ->
  rep ucHeap xStart h (pre ++ [mk_seg true s] ++ post) ->
  let c := start + total pre + s in let nb := hd end_ (frees c post).*1 in
  (nb = end_ /\ ns = 0 /\ frees c post = [] \/
     exists fl, frees c post = (nb, ns) :: fl /\ nn = hd end_ fl.*1) ->
  let R := (c =? nb) && negb (nb =? end_) in
  exists post', post = (if R then [mk_seg false ns] else []) ++ post' /\
    starts_used post' /\
    (if R then nn else nb) = hd end_ (frees (c + (if R then ns else 0)) post').*1 /\
    forall z, merge_right z post = mk_seg false (z + (if R then ns else 0)) :: post'.
Proof.
  intros Hp Hr c nb Hns R. destruct (middle_facts _ _ h pre _ post Hp Hr) as (_ & _ & Ho3 & Hb & Hc & _ & Htot & _).
  cbn [total size] in *. rewrite Z.add_0_r in *. fold c in Hc, Htot.
  destruct post as [| [u z] post'].
  - assert (ER : R = false).
    { unfold R. assert (E : nb = end_) by reflexivity. now rewrite E, Z.eqb_refl, andb_false_r. }
    rewrite ER. exists []. repeat split. intros z. cbn. now rewrite Z.add_0_r.
  - apply Forall_cons in Ho3 as [[Hz _] Ho3]. cbn in Hz, Htot. pose proof (total_nonneg _ Ho3) as Hn.
    destruct u; cbn [frees used size app] in *.
    + assert (ER : R = false).
      { unfold R. apply andb_false_iff. destruct Hns as [(-> & _) | (fl & E & _)];
          [rewrite Z.eqb_refl; now right | left]. apply Z.eqb_neq.
        assert (Hin : (nb, ns) ∈ frees (c + z) post') by (rewrite E; left).
        apply frees_range in Hin; [lia | exact Ho3]. }
      rewrite ER. exists (mk_seg true z :: post'). rewrite Z.add_0_r. repeat split.
      intros x. cbn. now rewrite Z.add_0_r.
    + assert (E : nb = c) by reflexivity.
      assert (ER : R = true).
      { unfold R. rewrite E, Z.eqb_refl. cbn. apply negb_true_iff, Z.eqb_neq. lia. }
      rewrite ER. destruct Hns as [(_ & _ & Ens) | (fl & Ens & Enn)]; [discriminate |].
      injection Ens as <- <-. exists post'. repeat split; [| exact Enn].
      pose proof (rep_coalesced _ _ _ _ Hr) as Hco.
      apply coalesced_right in Hco. cbn in Hco. destruct Hco as [_ Hco].
      destruct post' as [| t post']; [exact I |]. destruct Hco as [[Hco | Hco] _]; [discriminate | exact Hco].
Qed.

(** The memory after an insertion, against the segments left over. *)
Lemma inserted_rep h h' pre s post sp nn ns (L R : bool) pre' post' nb : placed ucHeap xStart ->
  rep ucHeap xStart h (pre ++ [mk_seg true s] ++ post) ->
  let b := start + total pre in
  inserted (<[b := mk_block 0 s]> (blocks h)) (blocks h') L R (prev pre) b nb nn sp s ns ->
  blocks h !! prev pre = Some (mk_block nb sp) ->
  pxEnd h' = pxEnd h -> xFreeBytesRemaining h' = xFreeBytesRemaining h + s ->
  pre = pre' ++ (if L then [mk_seg false sp] else []) -> ends_used pre' ->
  (if L then prev pre = start + total pre' else pre = pre') ->
  post = (if R then [mk_seg false ns] else []) ++ post' -> starts_used post' ->
  (if R then nn else nb) = hd end_ (frees (b + s + (if R then ns else 0)) post').*1 ->
  rep ucHeap xStart h' (pre' ++ [mk_seg false ((if L then sp else 0) + s + (if R then ns else 0))] ++ post').
Proof.
  intros Hp Hr b [I1 I2 I3] Ep He HF Epre Hu Hk Epost Hsu Hnb.
  set (midl := if L then [mk_seg false sp] else []) in *. set (midr := if R then [mk_seg false ns] else []) in *.
  assert (El : pre ++ [mk_seg true s] ++ post = pre' ++ (midl ++ [mk_seg true s] ++ midr) ++ post')
    by (rewrite Epre, Epost, <- !app_assoc; reflexivity).
  rewrite El in Hr. assert (Tl : total midl = if L then sp else 0) by (unfold midl; destruct L; cbn; lia).
  assert (Tr : total midr = if R then ns else 0) by (unfold midr; destruct R; cbn; lia).
  assert (Tm : total (midl ++ [mk_seg true s] ++ midr) = (if L then sp else 0) + s + (if R then ns else 0))
    by (rewrite !total_app; cbn [total size]; lia).
  destruct (middle_facts _ _ h pre' _ post' Hp Hr) as
    (Ho1 & Ho2 & Ho3 & Hb & Hc & _ & Htot & _ & Hpr & _ & _ & sp' & Ep'). rewrite Tm in *.
  rewrite !Forall_app in Ho2. destruct Ho2 as (O1 & O2 & O3).
  apply Forall_cons in O2 as [[S1 S2] _]. cbn in S1, S2.
  pose proof (total_nonneg _ O1) as N1. pose proof (total_nonneg _ O3) as N2. rewrite Tl in N1. rewrite Tr in N2.
  set (k := start + total pre') in *.
  assert (Bk : b = k + (if L then sp else 0)) by (unfold b, k; rewrite Epre, total_app, Tl; lia).
  assert (Ekk : (if L then prev pre else b) = k) by (destruct L; [exact Hk | lia]). rewrite Ekk in I1.
  assert (Ehd : hd end_ (frees k (midl ++ [mk_seg true s] ++ midr) ++ frees (k + ((if L then sp else 0) + s + (if R then ns else 0))) post').*1 =
                if L then k else nb).
  { destruct L; [reflexivity |]. subst pre'. rewrite Ep in Ep'. injection Ep' as Ehd _. symmetry. exact Ehd. }
  rewrite Ehd in Ep'.
  destruct (heap_bounds _ _ Hp) as (B1 & _ & _ & _ & B5 & B6).
  assert (Npk : prev pre' <> k /\ prev pre' <> b).
  { destruct Hpr as [-> |]; [| lia]. split; apply (xStart_outside ucHeap xStart _ Hp); lia. }
  assert (Ip : blocks h' !! prev pre' = Some (mk_block k sp')).
  { destruct L.
    - rewrite I3, lookup_insert_ne by (rewrite ?Hk; intuition). exact Ep'.
    - subst pre'. rewrite Ep in Ep'. injection Ep' as <-. rewrite I2 by reflexivity. f_equal; f_equal; lia. }
  apply (splice ucHeap xStart h h' pre' (midl ++ [mk_seg true s] ++ midr) _ post' Hp Hr); fold k; rewrite ?Tm.
  - cbn. lia.
  - constructor; [| constructor]. split; cbn [size]; [lia |].
    pose proof (total_mod8 (midl ++ [mk_seg true s] ++ midr)) as M. rewrite Tm in M. apply M.
    rewrite !Forall_app. repeat constructor; auto.
  - pose proof (rep_coalesced _ _ _ _ Hr) as Hco.
    destruct (midl ++ [mk_seg true s] ++ midr) as [| x l] eqn:Emid; [destruct midl; discriminate |].
    apply (coalesced_join _ _ _ _ _ Hco Hu). destruct post' as [| t post'']; [exact I |].
    split; [right; exact Hsu |]. rewrite app_assoc in Hco. now apply coalesced_right in Hco.
  - exact He.
  - rewrite HF, !free_bytes_app. unfold midl, midr. destruct L, R;
      rewrite ?free_bytes_cons; change (free_bytes []) with 0; cbn [used size]; lia.
  - intros a N Ha. assert (Nb : a <> b) by (destruct L; lia). rewrite I3; [now apply lookup_insert_ne | exact Nb |].
    destruct L; [intros -> |]; lia || (subst pre'; exact N).
  - unfold szo. now rewrite Ip, Ep'.
  - cbn [frees used app size links]. replace (k + _) with (b + s + (if R then ns else 0)) by lia.
    rewrite <- Hnb. unfold nx, szo. rewrite Ip, I1. cbn [fmap option_fmap option_map pxNextFreeBlock xBlockSize].
    repeat split; f_equal; destruct L; lia.
  - cbn. intros a z Hin. now apply elem_of_nil in Hin.
Qed.

Lemma vPortFree_rep h pre s post : placed ucHeap xStart ->
  rep ucHeap xStart h (pre ++ [mk_seg true s] ++ post) -> 4800 < Z.of_nat fuel ->
  exists h', vPortFree ucHeap xStart fuel (start + total pre + 8) h = Done tt h' /\
    rep ucHeap xStart h' (merge pre s post) /\
    xFreeBytesRemaining h' = xFreeBytesRemaining h + s /\
    xMinimumEverFreeBytesRemaining h' = xMinimumEverFreeBytesRemaining h /\
    xNumberOfSuccessfulAllocations h' = xNumberOfSuccessfulAllocations h /\
    xNumberOfSuccessfulFrees h' = u32 (xNumberOfSuccessfulFrees h + 1).
Proof.
  intros Hp Hr Hf. destruct (neighbours h pre s post Hp Hr) as (sp & nn & ns & Ep & En & Hsp & Hns).
  destruct (vPortFree_run h pre s post Hp Hr Hf sp nn ns Ep En Hsp Hns) as (m' & I & E).
  eexists. split; [exact E |]. split; [| now repeat split].
  destruct (left_case h pre s post sp Hp Hr Hsp) as (pre' & Epre & Hu & Hk & Hm).
  destruct (right_case h pre s post nn ns Hp Hr Hns) as (post' & Epost & Hsu & Hnb & Hm').
  rewrite Hm, Hm'. eapply inserted_rep; [exact Hp | exact Hr | exact I | ..]; eauto.
Qed.

(** C30: [vPortFree] on the pointer of a used segment makes that segment free, merged with the free
    segments before and behind it, so that the heap again has no two adjacent free segments; the
    free-byte count grows by the size of the segment, and all other used blocks stay as they are. *)
Theorem vPortFree_merges h pre s post : placed ucHeap xStart ->
  rep ucHeap xStart h (pre ++ [mk_seg true s] ++ post) -> 4800 < Z.of_nat fuel ->
  exists h', vPortFree ucHeap xStart fuel (start + total pre + 8) h = Done tt h' /\
    rep ucHeap xStart h' (merge pre s post) /\ coalesced (merge pre s post) /\
    xFreeBytesRemaining h' = xFreeBytesRemaining h + s /\
    xMinimumEverFreeBytesRemaining h' = xMinimumEverFreeBytesRemaining h /\
    xNumberOfSuccessfulAllocations h' = xNumberOfSuccessfulAllocations h /\
    xNumberOfSuccessfulFrees h' = u32 (xNumberOfSuccessfulFrees h + 1).
Proof.
  intros Hp Hr Hf. destruct (vPortFree_rep h pre s post Hp Hr Hf) as (h' & E & Hr' & H).
  exists h'. split; [exact E |]. split; [exact Hr' |]. split; [apply Hr' | exact H].
Qed.

(** [vPortFree] never returns for a pointer into a segment that is already free, whether it was
    freed twice or never allocated: the assertion on the allocation bit stops the program before
    anything is changed. Freeing [NULL] does nothing. *)
Theorem vPortFree_rejects h pre s post : placed ucHeap xStart ->
  rep ucHeap xStart h (pre ++ [mk_seg false s] ++ post) ->
  vPortFree ucHeap xStart fuel (start + total pre + 8) h = Halted /\
  vPortFree ucHeap xStart fuel 0 h = Done tt h.
Proof.
  intros Hp Hr. split; [| reflexivity].
  destruct (middle_facts _ _ h pre _ post Hp Hr) as (_ & Ho2 & _ & Hb & Hc & _ & Htot & _ & _ & _ & Hl & _).
  cbn [total size frees used app] in *. rewrite Z.add_0_r in *. apply Forall_cons in Ho2 as [[S1 _] _]. cbn in S1.
  destruct (heap_bounds _ _ Hp) as (B1 & _ & _ & _ & B5 & B6). destruct (rep_limits _ _ h _ Hp Hr) as [_ _].
  assert (Hlim : ucHeap + configTOTAL_HEAP_SIZE + 8 < 2147483648) by apply Hp.
  cbn [links] in Hl. destruct Hl as (_ & Hs & _). unfold szo in Hs.
  destruct (blocks h !! (start + total pre)) as [[x z] |] eqn:Eb; [| discriminate]. injection Hs as ->.
  unfold vPortFree. destruct (Z.eqb_spec (start + total pre + 8) 0); [lia |]. cbn [negb].
  change xHeapStructSize with 8. replace (start + total pre + 8 - 8) with (start + total pre) by lia.
  rewrite u32_id by lia. rewrite validate_bind by lia. rewrite (load_bind _ _ _ _ Eb).
  assert (Ha : heapBLOCK_IS_ALLOCATED (mk_block x s) = false).
  { pose proof (size_valid s ltac:(lia)) as V. unfold heapBLOCK_SIZE_IS_VALID in V.
    unfold heapBLOCK_IS_ALLOCATED. cbn [xBlockSize]. rewrite V.
    destruct (Z.ltb_spec s 2147483648); [reflexivity | lia]. }
  rewrite Ha. reflexivity.
Qed.

(** ** Allocating and freeing *)

Lemma merge_split pre w sz post : coalesced (pre ++ mk_seg false sz :: post) ->
  merge pre (taken w sz) ((if splits w sz then [mk_seg false (sz - w)] else []) ++ post) =
  pre ++ mk_seg false sz :: post.
Proof.
  intros H. rewrite merge_cons_used by now apply (ends_used_free pre sz post). f_equal.
  unfold taken. destruct (splits w sz); cbn.
  - do 2 f_equal. lia.
  - apply coalesced_right in H. destruct post as [| t post]; [reflexivity |]. cbn in *.
    destruct H as [[H | H] _]; [discriminate | now rewrite H].
Qed.

Lemma malloc_free_restores n h l r h1 : placed ucHeap xStart -> rep ucHeap xStart h l -> is_u32 n ->
  4800 < Z.of_nat fuel -> first_fit (block_for n) l <> None -> 0 < n ->
  pvPortMalloc ucHeap xStart fuel n h = Done r h1 ->
  r <> 0 /\ exists h2, vPortFree ucHeap xStart fuel r h1 = Done tt h2 /\
    rep ucHeap xStart h2 l /\ xFreeBytesRemaining h2 = xFreeBytesRemaining h.
Proof.
  intros Hp Hr Hn Hf Hfit N E. unfold is_u32 in Hn.
  destruct (first_fit (block_for n) l) as [[[pre sz] post] |] eqn:Efit; [| congruence].
  destruct (malloc_serves ucHeap xStart fuel n h l pre sz post Hp Hr ltac:(lia) Hf Efit)
    as (-> & Hw & _ & h' & E' & Hr' & _).
  rewrite E' in E. injection E as <- <-. pose proof (rep_coalesced _ _ _ _ Hr) as Hco.
  rewrite split_seg_shape, <- app_assoc in Hr'. destruct (middle_facts _ _ h' pre _ _ Hp Hr') as (_ & _ & _ & Hb & _).
  destruct (heap_bounds _ _ Hp) as (B1 & _ & _ & _ & B5 & B6).
  destruct (vPortFree_rep h' pre _ _ Hp Hr' Hf) as (h2 & E2 & Hr2 & _).
  rewrite merge_split in Hr2 by exact Hco. split; [lia |]. exists h2. split; [exact E2 |].
  split; [exact Hr2 |]. now rewrite (rep_bytes _ _ _ _ Hr2), (rep_bytes _ _ _ _ Hr).
Qed.

(** Freeing a block right after it was allocated gives back exactly the heap there was before:
    the same segments and the same number of free bytes. *)
Theorem malloc_free_roundtrip n h l r h1 : placed ucHeap xStart -> rep ucHeap xStart h l -> is_u32 n ->
  4800 < Z.of_nat fuel -> first_fit (block_for n) l <> None -> 0 < n ->
  pvPortMalloc ucHeap xStart fuel n h = Done r h1 ->
  r <> 0 /\ exists h2, vPortFree ucHeap xStart fuel r h1 = Done tt h2 /\
    rep ucHeap xStart h2 l /\ xFreeBytesRemaining h2 = xFreeBytesRemaining h.
Proof. exact (malloc_free_restores n h l r h1). Qed.

(** ** Statistics *)

Lemma stats_loop_ok fl : forall n p k mx mn h, (length fl < n)%nat -> pxEnd h = end_ ->
  links (blocks h) p fl end_ -> (forall a, a ∈ fl.*1 -> a <> end_) ->
  stats_loop n (hd end_ fl.*1) k mx mn h =
  Done (k + Z.of_nat (length fl), foldr Z.max mx fl.*2, foldr Z.min mn fl.*2) h.
Proof.
  induction fl as [| [b s] fl IH]; intros n p k mx mn h Hn He Hl Hne; (destruct n as [| n]; [cbn in Hn; lia |]);
    cbn [stats_loop hd fmap list_fmap fst]; rewrite (bind_done get _ _ _ _ eq_refl), He.
  - rewrite Z.eqb_refl. cbn. unfold ret. now rewrite Z.add_0_r.
  - cbn [links] in Hl. destruct Hl as (_ & Hs & Hl). destruct (Z.eqb_spec b end_) as [E |].
    + exfalso. apply (Hne b); [left | exact E].
    + cbn [negb]. unfold szo in Hs. destruct (blocks h !! b) as [[x z] |] eqn:Eb; [| discriminate].
      injection Hs as ->. rewrite (load_bind _ _ _ _ Eb). cbn [xBlockSize pxNextFreeBlock].
      pose proof (links_next _ _ _ _ Hl) as Hnext. unfold nx in Hnext. rewrite Eb in Hnext.
      injection Hnext as ->. rewrite (IH n b) by (auto; try (cbn in Hn; lia); intros a Ha; apply Hne; now right).
      f_equal. cbn [fmap list_fmap foldr snd length].
      assert (F1 : forall l' x y, foldr Z.max (Z.max x y) l' = Z.max y (foldr Z.max x l'))
        by (intros l'; induction l' as [| v l' IHl]; intros x' y; cbn [foldr]; [lia | rewrite IHl; lia]).
      assert (F2 : forall l' x y, foldr Z.min (Z.min x y) l' = Z.min y (foldr Z.min x l'))
        by (intros l'; induction l' as [| v l' IHl]; intros x' y; cbn [foldr]; [lia | rewrite IHl; lia]).
      replace (if mx <? s then s else mx) with (Z.max mx s) by (destruct (Z.ltb_spec mx s); lia).
      replace (if s <? mn then s else mn) with (Z.min mn s) by (destruct (Z.ltb_spec s mn); lia).
      rewrite F1, F2. f_equal. f_equal. lia.
Qed.

(** [vPortGetHeapStats] reports the heap there is: the free bytes, the largest and smallest free
    segment, how many there are, and the counters; it changes nothing. *)
Theorem vPortGetHeapStats_reports h l : placed ucHeap xStart -> rep ucHeap xStart h l -> 4800 < Z.of_nat fuel ->
  let sizes := (frees start l).*2 in
  vPortGetHeapStats xStart fuel h =
  Done (mk_stats (free_bytes l) (foldr Z.max 0 sizes) (foldr Z.min 0xffffffff sizes)
          (Z.of_nat (length sizes)) (xMinimumEverFreeBytesRemaining h)
          (xNumberOfSuccessfulAllocations h) (xNumberOfSuccessfulFrees h)) h.
Proof.
  intros Hp Hr Hf sizes. destruct (malloc_search ucHeap xStart fuel h l 1 Hp Hr Hf ltac:(lia)) as (S1 & S2 & _).
  destruct (rep_limits _ _ h l Hp Hr) as [_ HL]. destruct (heap_bounds _ _ Hp) as (B1 & _ & _ & _ & _ & B6).
  unfold vPortGetHeapStats. rewrite (load_bind _ _ _ _ S1). cbn [pxNextFreeBlock].
  assert (Hpos : 0 < ucHeap) by apply Hp. destruct (Z.eqb_spec (hd end_ (frees start l).*1) 0); [lia |].
  cbn [negb]. rewrite (bind_done _ _ _ _ _ (stats_loop_ok (frees start l) fuel xStart _ _ _ h ltac:(lia)
    (rep_end _ _ _ _ Hr) (rep_links _ _ _ _ Hr)
    ltac:(intros a Ha; apply (frees_in_heap ucHeap xStart h l a Hp Hr) in Ha; lia))).
  rewrite (bind_done get _ _ _ _ eq_refl). unfold ret. rewrite (rep_bytes _ _ _ _ Hr). cbn [fst snd].
  unfold sizes. now rewrite length_fmap.
Qed.
End Free.

(** * A concrete heap *)

Definition ex_ucHeap : Z := 0x20000004.
Definition ex_xStart : Z := 0x10000000.
Definition ex_fuel : nat := Z.to_nat 4801.

Definition final {A} (r : outcome heap A) (h : heap) : heap := match r with Done _ h' => h' | _ => h end.

Definition ex_heap0 : heap := heap_reset ∅.
Definition ex_heap1 : heap := final (prvHeapInit ex_ucHeap ex_xStart ex_heap0) ex_heap0.
Definition ex_heap2 : heap := final (pvPortMalloc ex_ucHeap ex_xStart ex_fuel 100 ex_heap1) ex_heap1.

Lemma ex_placed : placed ex_ucHeap ex_xStart.
Proof. unfold placed, ex_ucHeap, ex_xStart, configTOTAL_HEAP_SIZE. lia. Qed.

Lemma ex_rep1 : rep ex_ucHeap ex_xStart ex_heap1 [mk_seg false 76784].
Proof.
  constructor; try (vm_compute; tauto).
  - repeat constructor; cbn; lia.
  - intros a s Hin. now apply elem_of_nil in Hin.
Qed.

Lemma ex_rep2 : rep ex_ucHeap ex_xStart ex_heap2 [mk_seg true 112; mk_seg false 76672].
Proof.
  constructor; try (vm_compute; tauto).
  - repeat constructor; cbn; lia.
  - intros a s Hin. apply list_elem_of_singleton in Hin. injection Hin as -> ->. vm_compute. reflexivity.
Qed.

Lemma pvPortMalloc_first_fit_witness :
  exists h', pvPortMalloc ex_ucHeap ex_xStart ex_fuel 100 ex_heap1 = Done 0x20000010 h' /\
             rep ex_ucHeap ex_xStart h' [mk_seg true 112; mk_seg false 76672].
Proof.
  destruct (pvPortMalloc_first_fit ex_ucHeap ex_xStart ex_fuel 100 ex_heap1 _ ex_placed ex_rep1
              ltac:(unfold is_u32; lia) ltac:(vm_compute; reflexivity))
    as (_ & _ & _ & h' & E & R & _).
  exists h'. split; [exact E | exact R].
Defined.

Lemma pvPortMalloc_initialises_witness :
  pvPortMalloc ex_ucHeap ex_xStart ex_fuel 100 ex_heap0 = pvPortMalloc ex_ucHeap ex_xStart ex_fuel 100 ex_heap1.
Proof.
  destruct (pvPortMalloc_initialises ex_ucHeap ex_xStart ex_fuel ex_heap0 ex_placed eq_refl)
    as (h1 & E & _ & _ & _ & _ & H).
  rewrite H. unfold ex_heap1. rewrite E. reflexivity.
Defined.

Lemma vPortFree_merges_witness :
  exists h', vPortFree ex_ucHeap ex_xStart ex_fuel 0x20000010 ex_heap2 = Done tt h' /\
             rep ex_ucHeap ex_xStart h' [mk_seg false 76784].
Proof.
  destruct (vPortFree_merges ex_ucHeap ex_xStart ex_fuel ex_heap2 [] 112 [mk_seg false 76672] ex_placed ex_rep2
              ltac:(vm_compute; reflexivity)) as (h' & E & R & _).
  exists h'. split; [exact E | exact R].
Defined.

Lemma vPortFree_rejects_witness :
  vPortFree ex_ucHeap ex_xStart ex_fuel 0x20000080 ex_heap2 = Halted.
Proof.
  exact (proj1 (vPortFree_rejects ex_ucHeap ex_xStart ex_fuel ex_heap2 [mk_seg true 112] 76672 [] ex_placed ex_rep2)).
Defined.

Lemma malloc_free_roundtrip_witness :
  exists h2, vPortFree ex_ucHeap ex_xStart ex_fuel 0x20000010 ex_heap2 = Done tt h2 /\
             rep ex_ucHeap ex_xStart h2 [mk_seg false 76784].
Proof.
  destruct (malloc_free_roundtrip ex_ucHeap ex_xStart ex_fuel 100 ex_heap1 _ 0x20000010 ex_heap2 ex_placed ex_rep1
              ltac:(unfold is_u32; lia) ltac:(vm_compute; reflexivity) ltac:(vm_compute; congruence) ltac:(lia)
              ltac:(vm_compute; reflexivity)) as (_ & h2 & E & R & _).
  exists h2. split; [exact E | exact R].
Defined.

Lemma vPortGetHeapStats_reports_witness :
  vPortGetHeapStats ex_xStart ex_fuel ex_heap2 = Done (mk_stats 76672 76672 76672 1 76672 1 0) ex_heap2.
Proof.
  exact (vPortGetHeapStats_reports ex_ucHeap ex_xStart ex_fuel ex_heap2 _ ex_placed ex_rep2
           ltac:(vm_compute; reflexivity)).
Defined.
