(* ===== verification/Queue.v ===== *)
(** FreeRTOS queues, [FreeRTOS/queue.c].

    One queue: its [Queue_t] structure, the memory its storage area lies in, byte by byte, and what it
    does to the scheduler: the tasks it has made ready, in order, and whether a yield was missed. A task
    is a number. An access outside the storage area is undefined. The kernel functions it calls
    ([tasks.c]) are parameters: the result of [xTaskRemoveFromEventList], of [xTaskPriorityDisinherit],
    of [xTaskCheckForTimeOut], and the number of tasks. What happens between its critical sections is a
    parameter too: [interrupt] runs at every point where interrupts are enabled, and [suspended] while
    the task is blocked.

    The configuration is the application's: cooperative scheduling (so the yield macros are empty), no
    queue sets, 32-bit [UBaseType_t]. *)
From Stdlib Require Import ZArith Lia Bool.
From stdpp Require Import base decidable list gmap.
From S2P Require Import Prelude.

Definition pdFALSE : Z := 0.
Definition pdTRUE : Z := 1.
Definition pdPASS : Z := 1.
Definition pdFAIL : Z := 0.
Definition errQUEUE_EMPTY : Z := 0.
Definition errQUEUE_FULL : Z := 0.
Definition queueSEND_TO_BACK : Z := 0.
Definition queueSEND_TO_FRONT : Z := 1.
Definition queueOVERWRITE : Z := 2.
Definition queueUNLOCKED : Z := -1.
Definition queueLOCKED_UNMODIFIED : Z := 0.
Definition queueINT8_MAX : Z := 127.
Definition queueQUEUE_IS_MUTEX : Z := 0.
Definition SIZE_MAX : Z := 0xffffffff.

(** [pcTail] and [pcReadFrom] are the members of the union used by queues; a mutex keeps its holder in
    the place of [pcTail]. *)
Record Queue_t : Type := mk_queue {
  pcHead : Z;
  pcWriteTo : Z;
  pcTail : Z;
  pcReadFrom : Z;
  xTasksWaitingToSend : list nat;
  xTasksWaitingToReceive : list nat;
  uxMessagesWaiting : Z;
  uxLength : Z;
  uxItemSize : Z;
  cRxLock : Z;
  cTxLock : Z
}.

Record qstate : Type := mk_qstate {
  queue : Queue_t;
  memory : gmap Z Z;
  made_ready : list nat;     (** tasks moved to the ready lists *)
  xYieldPending : bool       (** set by [vTaskMissedYield] *)
}.

Definition with_pointers (w t r : Z) (q : Queue_t) : Queue_t :=
  mk_queue (pcHead q) w t r (xTasksWaitingToSend q) (xTasksWaitingToReceive q)
    (uxMessagesWaiting q) (uxLength q) (uxItemSize q) (cRxLock q) (cTxLock q).
Definition with_messages (n : Z) (q : Queue_t) : Queue_t :=
  mk_queue (pcHead q) (pcWriteTo q) (pcTail q) (pcReadFrom q) (xTasksWaitingToSend q)
    (xTasksWaitingToReceive q) n (uxLength q) (uxItemSize q) (cRxLock q) (cTxLock q).
Definition with_locks (rx tx : Z) (q : Queue_t) : Queue_t :=
  mk_queue (pcHead q) (pcWriteTo q) (pcTail q) (pcReadFrom q) (xTasksWaitingToSend q)
    (xTasksWaitingToReceive q) (uxMessagesWaiting q) (uxLength q) (uxItemSize q) rx tx.
Definition with_waiting (snd rcv : list nat) (q : Queue_t) : Queue_t :=
  mk_queue (pcHead q) (pcWriteTo q) (pcTail q) (pcReadFrom q) snd rcv
    (uxMessagesWaiting q) (uxLength q) (uxItemSize q) (cRxLock q) (cTxLock q).
Definition with_shape (head len size : Z) (q : Queue_t) : Queue_t :=
  mk_queue head (pcWriteTo q) (pcTail q) (pcReadFrom q) (xTasksWaitingToSend q)
    (xTasksWaitingToReceive q) (uxMessagesWaiting q) len size (cRxLock q) (cTxLock q).

Definition upd (f : Queue_t -> Queue_t) : prog qstate unit :=
  modify (fun s => mk_qstate (f (queue s)) (memory s) (made_ready s) (xYieldPending s)).
Definition getq : prog qstate Queue_t := s <- get ;; ret (queue s).

(** ** Memory *)

Fixpoint put_bytes (a : Z) (bs : list Z) (m : gmap Z Z) : gmap Z Z :=
  match bs with [] => m | b :: bs' => put_bytes (a + 1) bs' (<[a := b]> m) end.

Fixpoint get_bytes (a : Z) (n : nat) (m : gmap Z Z) : option (list Z) :=
  match n with
  | O => Some []
  | S n' => b ← m !! a; bs ← get_bytes (a + 1) n' m; Some (b :: bs)
  end.

(** [memcpy(dst, item, n)] into the storage area, with [n] bytes of [item] there. *)
Definition memcpy_in (dst : Z) (item : list Z) (n : Z) : prog qstate unit := fun s =>
  match get_bytes dst (Z.to_nat n) (memory s) with
  | Some _ =>
    if (Z.to_nat n <=? length item)%nat
    then Done tt (mk_qstate (queue s) (put_bytes dst (take (Z.to_nat n) item) (memory s)) (made_ready s)
                    (xYieldPending s))
    else Undefined
  | None => Undefined
  end.

(** [memcpy(buffer, src, n)] from the storage area. *)
Definition memcpy_out (src : Z) (n : Z) : prog qstate (list Z) := fun s =>
  match get_bytes src (Z.to_nat n) (memory s) with Some bs => Done bs s | None => Undefined end.

Section Queue.
Variable wakes_higher : nat -> bool.            (** result of [xTaskRemoveFromEventList] *)
Variable xTaskPriorityDisinherit : Z -> bool.
Variable uxTaskGetNumberOfTasks : Z.

#[local] Abbreviation M := (prog qstate).

(** [xTaskRemoveFromEventList], on either event list: the first task is made ready. *)
Definition unblock_receiver : M bool := fun s =>
  match xTasksWaitingToReceive (queue s) with
  | [] => Undefined
  | t :: ts => Done (wakes_higher t)
      (mk_qstate (with_waiting (xTasksWaitingToSend (queue s)) ts (queue s)) (memory s) (made_ready s ++ [t])
         (xYieldPending s))
  end.
Definition unblock_sender : M bool := fun s =>
  match xTasksWaitingToSend (queue s) with
  | [] => Undefined
  | t :: ts => Done (wakes_higher t)
      (mk_qstate (with_waiting ts (xTasksWaitingToReceive (queue s)) (queue s)) (memory s) (made_ready s ++ [t])
         (xYieldPending s))
  end.

Definition listLIST_IS_EMPTY (l : list nat) : bool := match l with [] => true | _ => false end.

Definition vTaskMissedYield : M unit :=
  modify (fun s => mk_qstate (queue s) (memory s) (made_ready s) true).

(** ** Creation *)

(** [xQueueGenericReset] on a queue (its handle is not [NULL]). *)
Definition xQueueGenericReset (xNewQueue : Z) : M Z :=
  q <- getq ;;
  xReturn <-
    (if (1 <=? uxLength q) && (uxItemSize q <=? SIZE_MAX / uxLength q) then
       upd (with_pointers (pcHead q) (u32 (pcHead q + u32 (uxLength q * uxItemSize q)))
              (u32 (pcHead q + u32 (u32 (uxLength q - 1) * uxItemSize q)))) ;;
       upd (with_messages 0) ;;
       upd (with_locks queueUNLOCKED queueUNLOCKED) ;;
       (if xNewQueue =? pdFALSE then
          (if negb (listLIST_IS_EMPTY (xTasksWaitingToSend q))
           then unblock_sender ;; ret tt else ret tt)
        else upd (with_waiting [] [])) ;;
       ret pdPASS
     else ret pdFAIL) ;;
  configASSERT (negb (xReturn =? pdFAIL)) ;;
  ret xReturn.

(** [prvInitialiseNewQueue]; [pxNewQueue] is the address of the queue structure. *)
Definition prvInitialiseNewQueue (uxQueueLength uxItemSize pucQueueStorage pxNewQueue : Z) : M unit :=
  upd (with_shape (if uxItemSize =? 0 then pxNewQueue else pucQueueStorage) uxQueueLength uxItemSize) ;;
  xQueueGenericReset pdTRUE ;;
  ret tt.

(** [xQueueGenericCreateStatic]: the handle; [NULL] pointers are 0. *)
Definition xQueueGenericCreateStatic (uxQueueLength uxItemSize pucQueueStorage pxStaticQueue : Z) : M Z :=
  configASSERT (negb (pxStaticQueue =? 0)) ;;
  if (0 <? uxQueueLength) && negb (pxStaticQueue =? 0) &&
     negb (negb (pucQueueStorage =? 0) && (uxItemSize =? 0)) &&
     negb ((pucQueueStorage =? 0) && negb (uxItemSize =? 0))
  then
    prvInitialiseNewQueue uxQueueLength uxItemSize pucQueueStorage pxStaticQueue ;;
    ret pxStaticQueue
  else
    configASSERT (negb (0 =? 0)) ;;
    ret 0.

(** ** Copying *)

Definition prvCopyDataToQueue (pvItemToQueue : list Z) (xPosition : Z) : M bool :=
  q <- getq ;;
  let uxMessagesWaiting := uxMessagesWaiting q in
  ' (xReturn, uxMessagesWaiting) <-
    (if uxItemSize q =? 0 then
       if pcHead q =? queueQUEUE_IS_MUTEX then
         upd (with_pointers (pcWriteTo q) 0 (pcReadFrom q)) ;;
         ret (xTaskPriorityDisinherit (pcTail q), uxMessagesWaiting)
       else ret (false, uxMessagesWaiting)
     else if xPosition =? queueSEND_TO_BACK then
       memcpy_in (pcWriteTo q) pvItemToQueue (uxItemSize q) ;;
       let pcWriteTo := u32 (pcWriteTo q + uxItemSize q) in
       upd (with_pointers (if pcTail q <=? pcWriteTo then pcHead q else pcWriteTo) (pcTail q) (pcReadFrom q)) ;;
       ret (false, uxMessagesWaiting)
     else
       memcpy_in (pcReadFrom q) pvItemToQueue (uxItemSize q) ;;
       let pcReadFrom := u32 (pcReadFrom q - uxItemSize q) in
       upd (with_pointers (pcWriteTo q) (pcTail q)
              (if pcReadFrom <? pcHead q then u32 (pcTail q - uxItemSize q) else pcReadFrom)) ;;
       ret (false, if (xPosition =? queueOVERWRITE) && (0 <? uxMessagesWaiting)
                   then u32 (uxMessagesWaiting - 1) else uxMessagesWaiting)) ;;
  upd (with_messages (u32 (uxMessagesWaiting + 1))) ;;
  ret xReturn.

(** The bytes left in the buffer; nothing for a semaphore. *)
Definition prvCopyDataFromQueue : M (list Z) :=
  q <- getq ;;
  if negb (uxItemSize q =? 0) then
    let pcReadFrom := u32 (pcReadFrom q + uxItemSize q) in
    let pcReadFrom := if pcTail q <=? pcReadFrom then pcHead q else pcReadFrom in
    upd (with_pointers (pcWriteTo q) (pcTail q) pcReadFrom) ;;
    memcpy_out pcReadFrom (uxItemSize q)
  else ret [].

(** ** Locking *)

Definition prvLockQueue : M unit :=
  q <- getq ;;
  upd (with_locks (if cRxLock q =? queueUNLOCKED then queueLOCKED_UNMODIFIED else cRxLock q)
         (if cTxLock q =? queueUNLOCKED then queueLOCKED_UNMODIFIED else cTxLock q)).

(** The value the [prvIncrementQueue...Lock] macros store. *)
Definition increment_lock (lock : Z) : M Z :=
  if u32 lock <? uxTaskGetNumberOfTasks then
    configASSERT (negb (lock =? queueINT8_MAX)) ;; ret (lock + 1)
  else ret lock.

Definition prvIncrementQueueTxLock (lock : Z) : M unit :=
  l <- increment_lock lock ;; q <- getq ;; upd (with_locks (cRxLock q) l).
Definition prvIncrementQueueRxLock (lock : Z) : M unit :=
  l <- increment_lock lock ;; q <- getq ;; upd (with_locks l (cTxLock q)).

(** The loops of [prvUnlockQueue], [n] being the lock count left. *)
Fixpoint unlock_tx_loop (n : nat) : M unit :=
  match n with
  | O => ret tt
  | S n' =>
    q <- getq ;;
    if negb (listLIST_IS_EMPTY (xTasksWaitingToReceive q)) then
      y <- unblock_receiver ;;
      (if y then vTaskMissedYield else ret tt) ;;
      unlock_tx_loop n'
    else ret tt
  end.
Fixpoint unlock_rx_loop (n : nat) : M unit :=
  match n with
  | O => ret tt
  | S n' =>
    q <- getq ;;
    if negb (listLIST_IS_EMPTY (xTasksWaitingToSend q)) then
      y <- unblock_sender ;;
      (if y then vTaskMissedYield else ret tt) ;;
      unlock_rx_loop n'
    else ret tt
  end.

(** The two critical sections of [prvUnlockQueue]. *)
Definition unlock_tx : M unit :=
  q <- getq ;;
  unlock_tx_loop (Z.to_nat (cTxLock q)) ;;
  q <- getq ;;
  upd (with_locks (cRxLock q) queueUNLOCKED).
Definition unlock_rx : M unit :=
  q <- getq ;;
  unlock_rx_loop (Z.to_nat (cRxLock q)) ;;
  q <- getq ;;
  upd (with_locks queueUNLOCKED (cTxLock q)).

Definition prvUnlockQueue (between : M unit) : M unit := unlock_tx ;; between ;; unlock_rx.

Definition prvIsQueueEmpty : M bool := q <- getq ;; ret (uxMessagesWaiting q =? 0).
Definition prvIsQueueFull : M bool := q <- getq ;; ret (uxMessagesWaiting q =? uxLength q).

(** [vTaskPlaceOnEventList]: the list is in priority order; [before] says whether an entry stays in
    front of the new one. *)
Variable before : nat -> nat -> bool.

Fixpoint place_on (t : nat) (l : list nat) : list nat :=
  match l with
  | [] => [t]
  | u :: l' => if before u t then u :: place_on t l' else t :: l
  end.

Definition place_receiver (t : nat) : M unit :=
  upd (fun q => with_waiting (xTasksWaitingToSend q) (place_on t (xTasksWaitingToReceive q)) q).
Definition place_sender (t : nat) : M unit :=
  upd (fun q => with_waiting (place_on t (xTasksWaitingToSend q)) (xTasksWaitingToReceive q) q).

(** ** The critical sections at the head of the loops

    [None] means that the task goes on to block. *)

(** The event list part of a send: a waiting receiver is unblocked. *)
Definition notify_receiver : M bool :=
  q <- getq ;;
  if negb (listLIST_IS_EMPTY (xTasksWaitingToReceive q)) then unblock_receiver else ret false.
Definition notify_sender : M bool :=
  q <- getq ;;
  if negb (listLIST_IS_EMPTY (xTasksWaitingToSend q)) then unblock_sender else ret false.

Definition send_try (pvItemToQueue : list Z) (xTicksToWait xCopyPosition : Z) : M (option Z) :=
  q <- getq ;;
  if (uxMessagesWaiting q <? uxLength q) || (xCopyPosition =? queueOVERWRITE) then
    prvCopyDataToQueue pvItemToQueue xCopyPosition ;;
    notify_receiver ;;
    ret (Some pdPASS)
  else if xTicksToWait =? 0 then ret (Some errQUEUE_FULL) else ret None.

(** The result, and the bytes copied to the buffer. *)
Definition receive_try (xTicksToWait : Z) : M (option (Z * list Z)) :=
  q <- getq ;;
  if 0 <? uxMessagesWaiting q then
    data <- prvCopyDataFromQueue ;;
    upd (with_messages (u32 (uxMessagesWaiting q - 1))) ;;
    notify_sender ;;
    ret (Some (pdPASS, data))
  else if xTicksToWait =? 0 then ret (Some (errQUEUE_EMPTY, [])) else ret None.

Definition peek_try (xTicksToWait : Z) : M (option (Z * list Z)) :=
  q <- getq ;;
  if 0 <? uxMessagesWaiting q then
    let pcOriginalReadPosition := pcReadFrom q in
    data <- prvCopyDataFromQueue ;;
    upd (fun q => with_pointers (pcWriteTo q) (pcTail q) pcOriginalReadPosition q) ;;
    notify_receiver ;;
    ret (Some (pdPASS, data))
  else if xTicksToWait =? 0 then ret (Some (errQUEUE_EMPTY, [])) else ret None.

(** ** The interrupt versions

    The second result is what is stored through [pxHigherPriorityTaskWoken]. *)

Definition xQueueGenericSendFromISR (pvItemToQueue : option (list Z)) (xCopyPosition : Z) : M (Z * bool) :=
  q <- getq ;;
  configASSERT (match pvItemToQueue with None => uxItemSize q =? 0 | Some _ => true end) ;;
  configASSERT (negb ((xCopyPosition =? queueOVERWRITE) && negb (uxLength q =? 1))) ;;
  if (uxMessagesWaiting q <? uxLength q) || (xCopyPosition =? queueOVERWRITE) then
    let lock := cTxLock q in
    prvCopyDataToQueue (default [] pvItemToQueue) xCopyPosition ;;
    woken <- (if lock =? queueUNLOCKED then notify_receiver
              else prvIncrementQueueTxLock lock ;; ret false) ;;
    ret (pdPASS, woken)
  else ret (errQUEUE_FULL, false).

(** [buffer] tells whether [pvBuffer] is not [NULL]. *)
Definition xQueueReceiveFromISR (buffer : bool) : M (Z * list Z * bool) :=
  q <- getq ;;
  configASSERT (negb (negb buffer && negb (uxItemSize q =? 0))) ;;
  if 0 <? uxMessagesWaiting q then
    let lock := cRxLock q in
    data <- prvCopyDataFromQueue ;;
    upd (with_messages (u32 (uxMessagesWaiting q - 1))) ;;
    woken <- (if lock =? queueUNLOCKED then notify_sender
              else prvIncrementQueueRxLock lock ;; ret false) ;;
    ret (pdPASS, data, woken)
  else ret (pdFAIL, [], false).

Definition xQueuePeekFromISR (buffer : bool) : M (Z * list Z) :=
  q <- getq ;;
  configASSERT (negb (negb buffer && negb (uxItemSize q =? 0))) ;;
  configASSERT (negb (uxItemSize q =? 0)) ;;
  if 0 <? uxMessagesWaiting q then
    let pcOriginalReadPosition := pcReadFrom q in
    data <- prvCopyDataFromQueue ;;
    upd (fun q => with_pointers (pcWriteTo q) (pcTail q) pcOriginalReadPosition q) ;;
    ret (pdPASS, data)
  else ret (pdFAIL, []).

Definition uxQueueMessagesWaiting : M Z := q <- getq ;; ret (uxMessagesWaiting q).
Definition uxQueueSpacesAvailable : M Z := q <- getq ;; ret (u32 (uxLength q - uxMessagesWaiting q)).
Definition uxQueueMessagesWaitingFromISR : M Z := q <- getq ;; ret (uxMessagesWaiting q).
Definition xQueueIsQueueEmptyFromISR : M Z :=
  q <- getq ;; ret (if uxMessagesWaiting q =? 0 then pdTRUE else pdFALSE).
Definition xQueueIsQueueFullFromISR : M Z :=
  q <- getq ;; ret (if uxMessagesWaiting q =? uxLength q then pdTRUE else pdFALSE).
Definition uxQueueGetQueueItemSize : M Z := q <- getq ;; ret (uxItemSize q).
Definition uxQueueGetQueueLength : M Z := q <- getq ;; ret (uxLength q).

(** ** The task versions

    [interrupt k i] runs at the [i]-th interruptible point of the [k]-th iteration, [suspended k] when
    the task has blocked, until it runs again; [expired k] is the time-out check of that iteration. *)
Variable interrupt : nat -> nat -> M unit.
Variable suspended : nat -> M unit.
Variable expired : nat -> bool.

(** The rest of an iteration of the send loop: [true] when the wait has expired. *)
Definition send_block (k task : nat) : M bool :=
  interrupt k 0 ;;
  prvLockQueue ;;
  interrupt k 1 ;;
  if negb (expired k) then
    full <- prvIsQueueFull ;;
    interrupt k 2 ;;
    if (full : bool) then
      place_sender task ;;
      interrupt k 3 ;;
      prvUnlockQueue (interrupt k 4) ;;
      suspended k ;;
      ret false
    else
      prvUnlockQueue (interrupt k 3) ;;
      ret false
  else
    prvUnlockQueue (interrupt k 2) ;;
    ret true.

Fixpoint send_loop (n k task : nat) (pvItemToQueue : list Z) (xTicksToWait xCopyPosition : Z) : M Z :=
  match n with
  | O => out_of_fuel
  | S n' =>
    r <- send_try pvItemToQueue xTicksToWait xCopyPosition ;;
    match r with
    | Some status => ret status
    | None =>
      over <- send_block k task ;;
      if (over : bool) then ret errQUEUE_FULL
      else send_loop n' (S k) task pvItemToQueue xTicksToWait xCopyPosition
    end
  end.

Definition xQueueGenericSend (n task : nat) (pvItemToQueue : option (list Z)) (xTicksToWait xCopyPosition : Z) : M Z :=
  q <- getq ;;
  configASSERT (match pvItemToQueue with None => uxItemSize q =? 0 | Some _ => true end) ;;
  configASSERT (negb ((xCopyPosition =? queueOVERWRITE) && negb (uxLength q =? 1))) ;;
  send_loop n 0 task (default [] pvItemToQueue) xTicksToWait xCopyPosition.

(** The rest of an iteration of the receive and peek loops: [None] when there is nothing more to wait
    for, otherwise the ticks left, 0 once the wait has expired. *)
Definition receive_block (k task : nat) (xTicksToWait : Z) : M (option Z) :=
  interrupt k 0 ;;
  prvLockQueue ;;
  interrupt k 1 ;;
  if negb (expired k) then
    empty <- prvIsQueueEmpty ;;
    interrupt k 2 ;;
    if (empty : bool) then
      place_receiver task ;;
      interrupt k 3 ;;
      prvUnlockQueue (interrupt k 4) ;;
      suspended k ;;
      ret (Some xTicksToWait)
    else
      prvUnlockQueue (interrupt k 3) ;;
      ret (Some xTicksToWait)
  else
    prvUnlockQueue (interrupt k 2) ;;
    interrupt k 3 ;;
    empty <- prvIsQueueEmpty ;;
    ret (if (empty : bool) then None else Some 0).

Fixpoint receive_loop (try : Z -> M (option (Z * list Z))) (n k task : nat) (xTicksToWait : Z) : M (Z * list Z) :=
  match n with
  | O => out_of_fuel
  | S n' =>
    r <- try xTicksToWait ;;
    match r with
    | Some result => ret result
    | None =>
      left <- receive_block k task xTicksToWait ;;
      match left with
      | None => ret (errQUEUE_EMPTY, [])
      | Some ticks => receive_loop try n' (S k) task ticks
      end
    end
  end.

Definition xQueueReceive (n task : nat) (buffer : bool) (xTicksToWait : Z) : M (Z * list Z) :=
  q <- getq ;;
  configASSERT (negb (negb buffer && negb (uxItemSize q =? 0))) ;;
  receive_loop receive_try n 0 task xTicksToWait.

Definition xQueuePeek (n task : nat) (buffer : bool) (xTicksToWait : Z) : M (Z * list Z) :=
  q <- getq ;;
  configASSERT (negb (negb buffer && negb (uxItemSize q =? 0))) ;;
  receive_loop peek_try n 0 task xTicksToWait.
End Queue.

(** * The registry *)

Definition configQUEUE_REGISTRY_SIZE : nat := 8.

Record QueueRegistryItem_t : Type := mk_registry_item { pcQueueName : option (list Z); xHandle : Z }.

(** The loop over the entries: the entry of the queue itself, or the first free one. *)
Fixpoint registry_search (items : list QueueRegistryItem_t) (ux : nat) (xQueue : Z) (pxEntryToWrite : option nat)
  : option nat :=
  match items with
  | [] => pxEntryToWrite
  | item :: items' =>
    if xQueue =? xHandle item then Some ux
    else registry_search items' (S ux) xQueue
           (match pxEntryToWrite, pcQueueName item with None, None => Some ux | _, _ => pxEntryToWrite end)
  end.

Definition vQueueAddToRegistry (xQueue : Z) (name : option (list Z)) : prog (list QueueRegistryItem_t) unit :=
  configASSERT (negb (xQueue =? 0)) ;;
  items <- get ;;
  match name with
  | Some _ =>
    match registry_search items 0 xQueue None with
    | Some ux => modify (fun items => <[ux := mk_registry_item name xQueue]> items)
    | None => ret tt
    end
  | None => ret tt
  end.
