(* ===== verification/QueueProofs.v ===== *)
(** The queues of [Queue] hold a FIFO of items.

    [ring s r l] says that the storage area of the queue in state [s] is a ring buffer that holds the
    items [l], the oldest right after slot [r]. Every copying operation is shown to be the list operation
    it stands for, whatever the tasks waiting and the locks. *)
From Stdlib Require Import ZArith Lia Bool.
From stdpp Require Import base decidable list gmap.
From S2P Require Import Prelude Queue.

(** * Memory *)

Lemma lookup_put_bytes_ne bs : forall a m x, x < a \/ a + Z.of_nat (length bs) <= x ->
  put_bytes a bs m !! x = m !! x.
Proof.
  induction bs as [| b bs IH]; intros a m x H; cbn [put_bytes length] in *; [reflexivity |].
  rewrite IH by lia. apply lookup_insert_ne. lia.
Qed.

Lemma get_put_same bs : forall a m, get_bytes a (length bs) (put_bytes a bs m) = Some bs.
Proof.
  induction bs as [| b bs IH]; intros a m; cbn [get_bytes put_bytes length]; [reflexivity |].
  rewrite lookup_put_bytes_ne by lia. rewrite lookup_insert_eq. cbn. now rewrite IH.
Qed.

Lemma get_put_other n : forall a bs b m, a + Z.of_nat n <= b \/ b + Z.of_nat (length bs) <= a ->
  get_bytes a n (put_bytes b bs m) = get_bytes a n m.
Proof.
  induction n as [| n IH]; intros a bs b m H; cbn [get_bytes]; [reflexivity |].
  rewrite lookup_put_bytes_ne by lia. rewrite IH by lia. reflexivity.
Qed.

Lemma get_bytes_length n : forall a m bs, get_bytes a n m = Some bs -> length bs = n.
Proof.
  induction n as [| n IH]; intros a m bs; cbn [get_bytes]; [now intros [= <-] |].
  destruct (m !! a); cbn; [| discriminate]. destruct (get_bytes (a + 1) n m) eqn:E; cbn; [| discriminate].
  intros [= <-]. cbn. f_equal. exact (IH _ _ _ E).
Qed.

(** * Positions *)

Lemma mod_ne a i n len : 0 <= i < n -> n < i + len -> (a + i) mod len <> (a + n) mod len.
Proof.
  intros H1 H2 E. pose proof (Z.div_mod (a + i) len ltac:(lia)). pose proof (Z.div_mod (a + n) len ltac:(lia)).
  rewrite E in *. assert (n - i = len * ((a + n) / len - (a + i) / len)) by lia.
  assert ((a + n) / len - (a + i) / len = 0 \/ (a + n) / len - (a + i) / len <= -1 \/ 1 <= (a + n) / len - (a + i) / len) by lia.
  nia.
Qed.

Lemma mod_succ a len : 0 < len ->
  (a + 1) mod len = if a mod len + 1 =? len then 0 else a mod len + 1.
Proof.
  intros H. pose proof (Z.mod_pos_bound a len H). rewrite Z.add_mod by lia.
  destruct (Z.eq_dec len 1) as [-> |]; [now rewrite !Z.mod_1_r |].
  rewrite (Z.mod_small 1) by lia. destruct (Z.eqb_spec (a mod len + 1) len) as [E | E].
  - rewrite E. apply Z.mod_same. lia.
  - apply Z.mod_small. lia.
Qed.

Lemma mod_shift a b c n : (a mod n + b + c) mod n = (a + b + c) mod n.
Proof. now rewrite <- !Z.add_assoc, Zplus_mod_idemp_l. Qed.

(** * Ring buffers *)

Definition slot (q : Queue_t) (i : Z) : Z := pcHead q + i * uxItemSize q.

Record ring (s : qstate) (r : Z) (l : list (list Z)) : Prop := {
  ring_length : 1 <= uxLength (queue s);
  ring_size : 1 <= uxItemSize (queue s) <= pcHead (queue s);
  ring_fits : slot (queue s) (uxLength (queue s)) < 4294967296;
  ring_tail : pcTail (queue s) = slot (queue s) (uxLength (queue s));
  ring_count : uxMessagesWaiting (queue s) = Z.of_nat (length l) /\ Z.of_nat (length l) <= uxLength (queue s);
  ring_read : 0 <= r < uxLength (queue s) /\ pcReadFrom (queue s) = slot (queue s) r;
  ring_write : pcWriteTo (queue s) = slot (queue s) ((r + 1 + Z.of_nat (length l)) mod uxLength (queue s));
  ring_items : forall i x, l !! i = Some x ->
    get_bytes (slot (queue s) ((r + 1 + Z.of_nat i) mod uxLength (queue s))) (Z.to_nat (uxItemSize (queue s)))
      (memory s) = Some x;
  ring_memory : forall i, 0 <= i < uxLength (queue s) ->
    is_Some (get_bytes (slot (queue s) i) (Z.to_nat (uxItemSize (queue s))) (memory s))
}.

(** Everything but the contents. *)
Record same_events (s s' : qstate) : Prop := {
  se_send : xTasksWaitingToSend (queue s') = xTasksWaitingToSend (queue s);
  se_receive : xTasksWaitingToReceive (queue s') = xTasksWaitingToReceive (queue s);
  se_rx : cRxLock (queue s') = cRxLock (queue s);
  se_tx : cTxLock (queue s') = cTxLock (queue s);
  se_ready : made_ready s' = made_ready s;
  se_yield : xYieldPending s' = xYieldPending s
}.

Record same_shape (s s' : qstate) : Prop := {
  ss_head : pcHead (queue s') = pcHead (queue s);
  ss_len : uxLength (queue s') = uxLength (queue s);
  ss_size : uxItemSize (queue s') = uxItemSize (queue s)
}.

(** An item of the queue's size. *)
Definition item_of (s : qstate) (item : list Z) : Prop := Z.of_nat (length item) = uxItemSize (queue s).

Lemma slot_disjoint q i j : 1 <= uxItemSize q -> i <> j ->
  slot q i + uxItemSize q <= slot q j \/ slot q j + uxItemSize q <= slot q i.
Proof. intros H N. unfold slot. assert (i + 1 <= j \/ j + 1 <= i) as [L | L] by lia; [left | right]; nia. Qed.

Lemma slot_bounds q i : 1 <= uxItemSize q -> 0 <= i < uxLength q ->
  pcHead q <= slot q i /\ slot q i + uxItemSize q <= slot q (uxLength q).
Proof. intros H N. unfold slot. nia. Qed.

Lemma slot_succ q i : slot q i + uxItemSize q = slot q (i + 1).
Proof. unfold slot. lia. Qed.

(** Writing an item into a slot. *)
Lemma memcpy_slot s r l i item : ring s r l -> item_of s item -> 0 <= i < uxLength (queue s) ->
  exists m', memcpy_in (slot (queue s) i) item (uxItemSize (queue s)) s =
             Done tt (mk_qstate (queue s) m' (made_ready s) (xYieldPending s)) /\
    get_bytes (slot (queue s) i) (Z.to_nat (uxItemSize (queue s))) m' = Some item /\
    forall j, j <> i -> get_bytes (slot (queue s) j) (Z.to_nat (uxItemSize (queue s))) m' =
                        get_bytes (slot (queue s) j) (Z.to_nat (uxItemSize (queue s))) (memory s).
Proof.
  intros Hr Hi Hb. unfold item_of in Hi. pose proof (ring_size _ _ _ Hr).
  exists (put_bytes (slot (queue s) i) item (memory s)).
  unfold memcpy_in. destruct (ring_memory _ _ _ Hr i Hb) as [bs ->].
  assert (E : Z.to_nat (uxItemSize (queue s)) = length item) by lia. rewrite E, Nat.leb_refl.
  rewrite firstn_all. split; [reflexivity |]. split; [apply get_put_same |].
  intros j N. apply get_put_other. destruct (slot_disjoint (queue s) j i ltac:(lia) N); lia.
Qed.

Lemma getq_bind {B} s (k : Queue_t -> prog qstate B) : bind getq k s = k (queue s) s.
Proof. reflexivity. Qed.

Lemma upd_bind {B} f s (k : unit -> prog qstate B) :
  bind (upd f) k s = k tt (mk_qstate (f (queue s)) (memory s) (made_ready s) (xYieldPending s)).
Proof. reflexivity. Qed.

Lemma qbind_assoc {A B C} (m : prog qstate A) (f : A -> prog qstate B) (g : B -> prog qstate C) s :
  bind (bind m f) g s = bind m (fun x => bind (f x) g) s.
Proof. unfold bind. now destruct (m s). Qed.

Lemma assertq_bind {B} (b : bool) (s : qstate) (k : unit -> prog qstate B) :
  b = true -> bind (configASSERT b) k s = k tt s.
Proof. now intros ->. Qed.

Lemma u32_eq z : 0 <= z < 4294967296 -> u32 z = z.
Proof. apply Z.mod_small. Qed.

(** A state whose queue has the shape of the one of [s], with the positions given by slots of [s]. *)
Lemma ring_build s s' r r' l l' : ring s r l -> same_shape s s' -> pcTail (queue s') = pcTail (queue s) ->
  let q := queue s in let len := uxLength q in let n := Z.to_nat (uxItemSize q) in
  uxMessagesWaiting (queue s') = Z.of_nat (length l') -> Z.of_nat (length l') <= len ->
  0 <= r' < len -> pcReadFrom (queue s') = slot q r' ->
  pcWriteTo (queue s') = slot q ((r' + 1 + Z.of_nat (length l')) mod len) ->
  (forall i x, l' !! i = Some x -> get_bytes (slot q ((r' + 1 + Z.of_nat i) mod len)) n (memory s') = Some x) ->
  (forall i, 0 <= i < len -> is_Some (get_bytes (slot q i) n (memory s'))) ->
  ring s' r' l'.
Proof.
  intros Hr [E1 E2 E3] Et q len n Hm Hl Hb Hrd Hw Hi Hmem.
  assert (Es : forall i, slot (queue s') i = slot q i) by (intros i; unfold slot; now rewrite E1, E3).
  destruct Hr. constructor; rewrite ?E2, ?E3, ?Es; auto.
  - now rewrite E1.
  - now rewrite Et.
  - intros i x Hx. rewrite Es. now apply Hi.
  - intros i Hi'. rewrite Es. now apply Hmem.
Qed.

Section Copying.
Variable disinherit : Z -> bool.

(** The next slot, as the pointer arithmetic of the code finds it. *)
Lemma next_slot s r l i : ring s r l -> 0 <= i < uxLength (queue s) ->
  let p := u32 (slot (queue s) i + uxItemSize (queue s)) in
  (if pcTail (queue s) <=? p then pcHead (queue s) else p) = slot (queue s) ((i + 1) mod uxLength (queue s)).
Proof.
  intros Hr Hi p. pose proof (ring_size _ _ _ Hr). pose proof (ring_fits _ _ _ Hr).
  destruct (slot_bounds (queue s) i ltac:(lia) Hi) as [B1 B2].
  unfold p. rewrite u32_eq by lia. rewrite (ring_tail _ _ _ Hr), slot_succ.
  rewrite (mod_succ i) by lia. rewrite (Z.mod_small i) by lia.
  destruct (Z.eqb_spec (i + 1) (uxLength (queue s))) as [-> | N].
  - rewrite Z.leb_refl. unfold slot. lia.
  - destruct (Z.leb_spec (slot (queue s) (uxLength (queue s))) (slot (queue s) (i + 1))) as [L |]; [| reflexivity].
    exfalso. unfold slot in L. nia.
Qed.

(** And the slot before. *)
Lemma prev_slot s r l i : ring s r l -> 0 <= i < uxLength (queue s) ->
  let p := u32 (slot (queue s) i - uxItemSize (queue s)) in
  (if p <? pcHead (queue s) then u32 (pcTail (queue s) - uxItemSize (queue s)) else p) =
  slot (queue s) ((i - 1) mod uxLength (queue s)).
Proof.
  intros Hr Hi p. pose proof (ring_size _ _ _ Hr). pose proof (ring_fits _ _ _ Hr).
  destruct (slot_bounds (queue s) i ltac:(lia) Hi) as [B1 B2].
  unfold p. rewrite u32_eq by lia. rewrite (ring_tail _ _ _ Hr).
  destruct (Z.eq_dec i 0) as [-> | N].
  - replace ((0 - 1) mod uxLength (queue s)) with (uxLength (queue s) - 1).
    2: { symmetry. rewrite <- (Z.mod_small (uxLength (queue s) - 1) (uxLength (queue s))) by lia.
         replace (0 - 1) with (uxLength (queue s) - 1 + -1 * uxLength (queue s)) by lia. now rewrite Z.mod_add by lia. }
    destruct (Z.ltb_spec (slot (queue s) 0 - uxItemSize (queue s)) (pcHead (queue s))) as [L | L];
      [| unfold slot in L; lia].
    rewrite u32_eq by lia. unfold slot. lia.
  - rewrite Z.mod_small by lia.
    destruct (Z.ltb_spec (slot (queue s) i - uxItemSize (queue s)) (pcHead (queue s))) as [L | L].
    + exfalso. unfold slot in L. nia.
    + unfold slot. lia.
Qed.

Lemma copy_back s r l item : ring s r l -> item_of s item -> Z.of_nat (length l) < uxLength (queue s) ->
  exists s', prvCopyDataToQueue disinherit item queueSEND_TO_BACK s = Done false s' /\
    ring s' r (l ++ [item]) /\ same_events s s' /\ same_shape s s'.
Proof.
  intros Hr Hi Hl. destruct (ring_read _ _ _ Hr) as [R1 R2]. pose proof (ring_size _ _ _ Hr) as [S1 S2].
  destruct (ring_count _ _ _ Hr) as [C1 C2]. set (len := uxLength (queue s)) in *.
  set (w := (r + 1 + Z.of_nat (length l)) mod len).
  assert (Hw : 0 <= w < len) by (apply Z.mod_pos_bound; lia).
  destruct (memcpy_slot s r l w item Hr Hi Hw) as (m' & E & M1 & M2).
  pose proof (next_slot s r l w Hr Hw) as En. cbn zeta in En. fold len in En.
  unfold prvCopyDataToQueue. rewrite getq_bind. cbn zeta.
  destruct (Z.eqb_spec (uxItemSize (queue s)) 0); [lia |].
  change (queueSEND_TO_BACK =? queueSEND_TO_BACK) with true. cbv iota.
  rewrite qbind_assoc, (ring_write _ _ _ Hr). fold len w. rewrite (bind_done _ _ _ _ _ E).
  rewrite qbind_assoc, upd_bind. rewrite (bind_done (ret _) _ _ _ _ eq_refl). rewrite upd_bind.
  cbn [queue]. rewrite En, C1, u32_eq. 2: { pose proof (ring_fits _ _ _ Hr). unfold slot, len in *. nia. }
  eexists. split; [reflexivity |]. split; [| split; constructor; reflexivity].
  apply (ring_build s _ r r l _ Hr); cbn [queue memory with_messages with_pointers pcTail uxMessagesWaiting
    pcReadFrom pcWriteTo]; fold len; auto.
  - constructor; reflexivity.
  - rewrite length_app. cbn. lia.
  - rewrite length_app. cbn. lia.
  - rewrite length_app, Nat2Z.inj_add. f_equal. unfold w. rewrite Zplus_mod_idemp_l. f_equal. cbn. lia.
  - intros i x Hx. apply lookup_app_Some in Hx as [Hx | [Hx1 Hx2]].
    + pose proof (lookup_lt_Some _ _ _ Hx). rewrite M2; [now apply (ring_items _ _ _ Hr) |].
      unfold w. apply mod_ne; lia.
    + assert (i = length l) as ->.
      { apply lookup_lt_Some in Hx2. cbn in Hx2. lia. }
      rewrite Nat.sub_diag in Hx2. injection Hx2 as <-. exact M1.
  - intros i Hb. destruct (Z.eq_dec i w) as [-> | N]; [eauto |].
    rewrite M2 by exact N. now apply (ring_memory _ _ _ Hr).
Qed.

Lemma copy_front s r l item pos : ring s r l -> item_of s item -> pos <> queueSEND_TO_BACK ->
  (if pos =? queueOVERWRITE then uxLength (queue s) = 1 else Z.of_nat (length l) < uxLength (queue s)) ->
  exists r' s', prvCopyDataToQueue disinherit item pos s = Done false s' /\
    ring s' r' (if pos =? queueOVERWRITE then [item] else item :: l) /\ same_events s s' /\ same_shape s s'.
Proof.
  intros Hr Hi Hpos Hl. destruct (ring_read _ _ _ Hr) as [R1 R2]. pose proof (ring_size _ _ _ Hr) as [S1 S2].
  destruct (ring_count _ _ _ Hr) as [C1 C2]. pose proof (ring_length _ _ _ Hr) as L1. pose proof (ring_fits _ _ _ Hr) as F1.
  set (len := uxLength (queue s)) in *.
  destruct (memcpy_slot s r l r item Hr Hi R1) as (m' & E & M1 & M2).
  pose proof (prev_slot s r l r Hr R1) as En. cbn zeta in En. fold len in En.
  set (r' := (r - 1) mod len) in *. assert (Hr' : 0 <= r' < len) by (apply Z.mod_pos_bound; lia).
  assert (Hnext : forall k, (r' + 1 + k) mod len = (r + k) mod len).
  { intros k. unfold r'. rewrite <- Z.add_assoc, Zplus_mod_idemp_l. f_equal. lia. }
  exists r'. unfold prvCopyDataToQueue. rewrite getq_bind. cbn zeta.
  destruct (Z.eqb_spec (uxItemSize (queue s)) 0); [lia |].
  destruct (Z.eqb_spec pos queueSEND_TO_BACK); [congruence |].
  rewrite qbind_assoc, R2, (bind_done _ _ _ _ _ E).
  rewrite qbind_assoc, upd_bind. rewrite (bind_done (ret _) _ _ _ _ eq_refl). rewrite upd_bind.
  cbn [queue]. rewrite En, C1. eexists. split; [reflexivity |]. split; [| split; constructor; reflexivity].
  assert (Hmem : forall i, 0 <= i < len -> is_Some (get_bytes (slot (queue s) i) (Z.to_nat (uxItemSize (queue s))) m')).
  { intros i Hb. destruct (Z.eq_dec i r) as [-> | N]; [eauto |]. rewrite M2 by exact N. now apply (ring_memory _ _ _ Hr). }
  assert (Hlim : len < 4294967296) by (unfold slot, len in *; nia).
  assert (Hhead : (r' + 1 + Z.of_nat 0) mod len = r) by (rewrite Hnext, Z.add_0_r; now apply Z.mod_small).
  apply (ring_build s _ r r' l _ Hr); cbn [queue memory with_messages with_pointers pcTail uxMessagesWaiting
    pcReadFrom pcWriteTo]; fold len; auto.
  - constructor; reflexivity.
  - destruct (Z.eqb_spec pos queueOVERWRITE); cbn [andb length].
    + destruct (Z.ltb_spec 0 (Z.of_nat (length l))).
      * rewrite (u32_eq (Z.of_nat (length l) - 1)), u32_eq by lia. lia.
      * rewrite u32_eq; lia.
    + rewrite u32_eq; lia.
  - destruct (pos =? queueOVERWRITE); cbn [length]; lia.
  - rewrite (ring_write _ _ _ Hr). fold len. f_equal. destruct (pos =? queueOVERWRITE).
    + rewrite Hl, !Z.mod_1_r. reflexivity.
    + rewrite Hnext. f_equal. cbn [length]. lia.
  - destruct (pos =? queueOVERWRITE); intros [| i] x Hx; cbn in Hx.
    + injection Hx as <-. now rewrite Hhead.
    + discriminate.
    + injection Hx as <-. now rewrite Hhead.
    + pose proof (lookup_lt_Some _ _ _ Hx). rewrite Hnext. replace (r + Z.of_nat (S i)) with (r + 1 + Z.of_nat i) by lia.
      rewrite M2; [now apply (ring_items _ _ _ Hr) |].
      rewrite <- (Z.mod_small r len R1) at 2. replace r with (r + 0) at 2 by lia.
      intros Eq. apply (mod_ne r 0 (1 + Z.of_nat i) len); try lia. rewrite <- Eq. f_equal. lia.
Qed.
End Copying.

Lemma copy_out s r x l : ring s r (x :: l) ->
  let r' := (r + 1) mod uxLength (queue s) in
  prvCopyDataFromQueue s =
  Done x (mk_qstate (with_pointers (pcWriteTo (queue s)) (pcTail (queue s)) (slot (queue s) r') (queue s))
            (memory s) (made_ready s) (xYieldPending s)).
Proof.
  intros Hr r'. destruct (ring_read _ _ _ Hr) as [R1 R2]. pose proof (ring_size _ _ _ Hr) as [S1 S2].
  pose proof (next_slot s r _ r Hr R1) as En. cbn zeta in En.
  unfold prvCopyDataFromQueue. rewrite getq_bind. destruct (Z.eqb_spec (uxItemSize (queue s)) 0); [lia |].
  cbn [negb]. cbn zeta. rewrite upd_bind, R2, En. unfold memcpy_out. cbn [memory].
  pose proof (ring_items _ _ _ Hr 0%nat x eq_refl) as Hx. rewrite Z.add_0_r in Hx.
  cbn [queue with_pointers uxItemSize pcWriteTo]. now rewrite Hx.
Qed.

(** Moving the read pointer past the oldest item takes it out. *)
Lemma ring_tl s s' r x l : ring s r (x :: l) -> same_shape s s' -> memory s' = memory s ->
  pcTail (queue s') = pcTail (queue s) -> pcWriteTo (queue s') = pcWriteTo (queue s) ->
  pcReadFrom (queue s') = slot (queue s) ((r + 1) mod uxLength (queue s)) ->
  uxMessagesWaiting (queue s') = Z.of_nat (length l) ->
  ring s' ((r + 1) mod uxLength (queue s)) l.
Proof.
  intros Hr Hs Hm Ht Hw Hrd Hn. pose proof (ring_length _ _ _ Hr). destruct (ring_count _ _ _ Hr) as [C1 C2].
  cbn [length] in *.
  apply (ring_build s s' r _ (x :: l) l Hr Hs Ht); auto.
  - lia.
  - apply Z.mod_pos_bound. lia.
  - rewrite Hw, (ring_write _ _ _ Hr). f_equal. rewrite mod_shift. f_equal. cbn. lia.
  - intros i y Hy. rewrite Hm, mod_shift.
    rewrite <- (ring_items _ _ _ Hr (S i) y Hy). do 3 f_equal. lia.
  - rewrite Hm. apply (ring_memory _ _ _ Hr).
Qed.

(** The contents do not depend on the event lists, the locks or the scheduler. *)
Lemma ring_events s s' r l : ring s r l -> memory s' = memory s -> same_shape s s' ->
  pcTail (queue s') = pcTail (queue s) -> pcWriteTo (queue s') = pcWriteTo (queue s) ->
  pcReadFrom (queue s') = pcReadFrom (queue s) -> uxMessagesWaiting (queue s') = uxMessagesWaiting (queue s) ->
  ring s' r l.
Proof.
  intros Hr Hm Hs Ht Hw Hrd Hn. destruct (ring_count _ _ _ Hr) as [C1 C2]. destruct (ring_read _ _ _ Hr) as [R1 R2].
  apply (ring_build s s' r r l l Hr Hs Ht); rewrite ?Hn, ?Hrd, ?Hw, ?Hm; auto; apply Hr.
Qed.

(** * The abstract queue *)

(** The queue holds the items [l]. *)
Definition holds (s : qstate) (l : list (list Z)) : Prop := exists r, ring s r l.

(** Where an item goes; [None] when there is no room. *)
Definition fifo_send (capacity xCopyPosition : Z) (item : list Z) (l : list (list Z)) : option (list (list Z)) :=
  if xCopyPosition =? queueOVERWRITE then Some [item]
  else if Z.of_nat (length l) <? capacity
  then Some (if xCopyPosition =? queueSEND_TO_BACK then l ++ [item] else item :: l)
  else None.

(** The first task of an event list is made ready. *)
Record woke_receiver (s s' : qstate) : Prop := {
  wr_receive : xTasksWaitingToReceive (queue s') = tail (xTasksWaitingToReceive (queue s));
  wr_ready : made_ready s' = made_ready s ++ take 1 (xTasksWaitingToReceive (queue s));
  wr_send : xTasksWaitingToSend (queue s') = xTasksWaitingToSend (queue s);
  wr_locks : cRxLock (queue s') = cRxLock (queue s) /\ cTxLock (queue s') = cTxLock (queue s)
}.
Record woke_sender (s s' : qstate) : Prop := {
  ws_send : xTasksWaitingToSend (queue s') = tail (xTasksWaitingToSend (queue s));
  ws_ready : made_ready s' = made_ready s ++ take 1 (xTasksWaitingToSend (queue s));
  ws_receive : xTasksWaitingToReceive (queue s') = xTasksWaitingToReceive (queue s);
  ws_locks : cRxLock (queue s') = cRxLock (queue s) /\ cTxLock (queue s') = cTxLock (queue s)
}.

(** A position the API documents: overwriting is for queues of length 1. *)
Definition valid_position (s : qstate) (pos : Z) : Prop :=
  pos = queueSEND_TO_BACK \/ pos = queueSEND_TO_FRONT \/ pos = queueOVERWRITE /\ uxLength (queue s) = 1.

(** Only the event lists, the locks and the scheduler may differ. *)
Record same_contents (s s' : qstate) : Prop := {
  sc_memory : memory s' = memory s;
  sc_shape : same_shape s s';
  sc_pointers : pcTail (queue s') = pcTail (queue s) /\ pcWriteTo (queue s') = pcWriteTo (queue s) /\
                pcReadFrom (queue s') = pcReadFrom (queue s);
  sc_messages : uxMessagesWaiting (queue s') = uxMessagesWaiting (queue s)
}.

Ltac by_contents := repeat (first [reflexivity | constructor]).

Lemma holds_contents s s' l : holds s l -> same_contents s s' -> holds s' l.
Proof. intros [r Hr] [M S (P1 & P2 & P3) N]. exists r. now apply (ring_events s s' r l Hr). Qed.

Lemma holds_messages s l : holds s l -> uxMessagesWaiting (queue s) = Z.of_nat (length l).
Proof. intros [r Hr]. apply (ring_count _ _ _ Hr). Qed.

Lemma holds_small s l : holds s l -> Z.of_nat (length l) < 4294967296.
Proof.
  intros [r Hr]. destruct (ring_count _ _ _ Hr). pose proof (ring_size _ _ _ Hr). pose proof (ring_fits _ _ _ Hr) as F.
  unfold slot in F. pose proof (ring_length _ _ _ Hr). nia.
Qed.

Lemma same_shape_trans s1 s2 s3 : same_shape s1 s2 -> same_shape s2 s3 -> same_shape s1 s3.
Proof. intros [] []. constructor; congruence. Qed.

Section Operations.
Variable wakes_higher : nat -> bool.
Variable disinherit : Z -> bool.
Variable tasks : Z.
Variable before : nat -> nat -> bool.

Lemma notify_receiver_ok s : exists b s', notify_receiver wakes_higher s = Done b s' /\
  woke_receiver s s' /\ same_contents s s'.
Proof.
  unfold notify_receiver. rewrite getq_bind. unfold listLIST_IS_EMPTY.
  destruct (xTasksWaitingToReceive (queue s)) as [| t ts] eqn:E; cbn [negb].
  - exists false, s. split; [reflexivity |]. split; [| by_contents].
    constructor; rewrite ?E; try reflexivity; [now rewrite app_nil_r | now split].
  - unfold unblock_receiver. rewrite E. eexists _, _. split; [reflexivity |].
    split; [| by_contents]. constructor; cbn; rewrite ?E; try reflexivity. now split.
Qed.

Lemma notify_sender_ok s : exists b s', notify_sender wakes_higher s = Done b s' /\
  woke_sender s s' /\ same_contents s s'.
Proof.
  unfold notify_sender. rewrite getq_bind. unfold listLIST_IS_EMPTY.
  destruct (xTasksWaitingToSend (queue s)) as [| t ts] eqn:E; cbn [negb].
  - exists false, s. split; [reflexivity |]. split; [| by_contents].
    constructor; rewrite ?E; try reflexivity; [now rewrite app_nil_r | now split].
  - unfold unblock_sender. rewrite E. eexists _, _. split; [reflexivity |].
    split; [| by_contents]. constructor; cbn; rewrite ?E; try reflexivity. now split.
Qed.

(** Copying in, at any valid position. *)
Lemma copy_in s l item pos l' : holds s l -> item_of s item -> valid_position s pos ->
  fifo_send (uxLength (queue s)) pos item l = Some l' ->
  exists s', prvCopyDataToQueue disinherit item pos s = Done false s' /\
    holds s' l' /\ same_events s s' /\ same_shape s s'.
Proof.
  intros [r Hr] Hi Hpos E. unfold fifo_send in E. destruct Hpos as [-> | [-> | [-> Hlen]]]; cbn in E.
  - destruct (Z.ltb_spec (Z.of_nat (length l)) (uxLength (queue s))) as [L |]; [| discriminate]. injection E as <-.
    destruct (copy_back disinherit s r l item Hr Hi L) as (s' & E & H). exists s'. split; [exact E |].
    split; [exists r; apply H | apply H].
  - destruct (Z.ltb_spec (Z.of_nat (length l)) (uxLength (queue s))) as [L |]; [| discriminate]. injection E as <-.
    destruct (copy_front disinherit s r l item queueSEND_TO_FRONT Hr Hi ltac:(discriminate) L) as (r' & s' & E & H).
    exists s'. split; [exact E |]. split; [exists r'; apply H | apply H].
  - injection E as <-.
    destruct (copy_front disinherit s r l item queueOVERWRITE Hr Hi ltac:(discriminate) Hlen) as (r' & s' & E & H).
    exists s'. split; [exact E |]. split; [exists r'; apply H | apply H].
Qed.

(** The test for room. *)
Lemma room s l item pos : holds s l -> valid_position s pos ->
  (uxMessagesWaiting (queue s) <? uxLength (queue s)) || (pos =? queueOVERWRITE) =
  match fifo_send (uxLength (queue s)) pos item l with Some _ => true | None => false end.
Proof.
  intros Hh _. rewrite (holds_messages _ _ Hh). unfold fifo_send. destruct (pos =? queueOVERWRITE).
  - now rewrite orb_true_r.
  - rewrite orb_false_r. now destruct (_ <? _).
Qed.

Lemma send_try_ok s l item pos ticks : holds s l -> item_of s item -> valid_position s pos ->
  match fifo_send (uxLength (queue s)) pos item l with
  | Some l' => exists s', send_try wakes_higher disinherit item ticks pos s = Done (Some pdPASS) s' /\
      holds s' l' /\ woke_receiver s s' /\ same_shape s s'
  | None => send_try wakes_higher disinherit item ticks pos s =
      Done (if ticks =? 0 then Some errQUEUE_FULL else None) s
  end.
Proof.
  intros Hh Hi Hpos. unfold send_try. rewrite getq_bind, (room s l item pos Hh Hpos).
  destruct (fifo_send _ pos item l) as [l' |] eqn:E; [| now destruct (ticks =? 0)].
  destruct (copy_in s l item pos l' Hh Hi Hpos E) as (s1 & E1 & H1 & [e1 e2 e3 e4 e5 e6] & S1).
  destruct (notify_receiver_ok s1) as (b & s2 & E2 & [w1 w2 w3 [w4 w5]] & C2).
  rewrite (bind_done _ _ _ _ _ E1), (bind_done _ _ _ _ _ E2). exists s2. split; [reflexivity |].
  split; [now apply holds_contents with s1 |]. split; [constructor; [congruence .. | split; congruence] |].
  now apply same_shape_trans with s1; [| apply C2].
Qed.

(** Copying out, with the oldest item taken. *)
Lemma take_out s x l : holds s (x :: l) ->
  exists s1, prvCopyDataFromQueue s = Done x s1 /\ same_events s s1 /\ same_shape s s1 /\
    uxMessagesWaiting (queue s1) = uxMessagesWaiting (queue s) /\
    holds (mk_qstate (with_messages (u32 (uxMessagesWaiting (queue s) - 1)) (queue s1)) (memory s1)
             (made_ready s1) (xYieldPending s1)) l /\
    holds (mk_qstate (with_pointers (pcWriteTo (queue s1)) (pcTail (queue s1)) (pcReadFrom (queue s)) (queue s1))
             (memory s1) (made_ready s1) (xYieldPending s1)) (x :: l).
Proof.
  intros Hh. pose proof (holds_small _ _ Hh) as Hsm. destruct Hh as [r Hr].
  eexists. split; [exact (copy_out s r x l Hr) |]. split; [constructor; reflexivity |].
  split; [constructor; reflexivity |]. split; [reflexivity |].
  destruct (ring_count _ _ _ Hr) as [C1 C2]. cbn [length] in *. split.
  - eexists. apply (ring_tl s _ r x l Hr); try reflexivity; [constructor; reflexivity |].
    cbn. rewrite C1, u32_eq by lia. lia.
  - exists r. apply (ring_events s _ r _ Hr); try reflexivity. constructor; reflexivity.
Qed.

Lemma receive_try_ok s l ticks : holds s l ->
  match l with
  | x :: l' => exists s', receive_try wakes_higher ticks s = Done (Some (pdPASS, x)) s' /\
      holds s' l' /\ woke_sender s s' /\ same_shape s s'
  | [] => receive_try wakes_higher ticks s = Done (if ticks =? 0 then Some (errQUEUE_EMPTY, []) else None) s
  end.
Proof.
  intros Hh. unfold receive_try. rewrite getq_bind, (holds_messages _ _ Hh).
  destruct l as [| x l']; cbn [length]; [cbn; now destruct (ticks =? 0) |].
  destruct (Z.ltb_spec 0 (Z.of_nat (S (length l')))); [| lia].
  destruct (take_out s x l' Hh) as (s1 & E1 & [e1 e2 e3 e4 e5 e6] & S1 & N1 & H1 & _).
  rewrite (holds_messages _ _ Hh) in H1. cbn [length] in H1.
  rewrite (bind_done _ _ _ _ _ E1), upd_bind. set (s1' := mk_qstate _ _ _ _) in *.
  destruct (notify_sender_ok s1') as (b & s2 & E2 & [w1 w2 w3 [w4 w5]] & C2). rewrite (bind_done _ _ _ _ _ E2).
  exists s2. split; [reflexivity |]. split; [now apply holds_contents with s1' |].
  cbn [queue s1' with_messages xTasksWaitingToSend xTasksWaitingToReceive cRxLock cTxLock made_ready] in *.
  split; [constructor; [congruence .. | split; congruence] |].
  apply same_shape_trans with s1; [exact S1 |]. apply same_shape_trans with s1'; [by_contents | apply C2].
Qed.

Lemma peek_try_ok s l ticks : holds s l ->
  match l with
  | x :: _ => exists s', peek_try wakes_higher ticks s = Done (Some (pdPASS, x)) s' /\
      holds s' l /\ woke_receiver s s' /\ same_shape s s'
  | [] => peek_try wakes_higher ticks s = Done (if ticks =? 0 then Some (errQUEUE_EMPTY, []) else None) s
  end.
Proof.
  intros Hh. unfold peek_try. rewrite getq_bind, (holds_messages _ _ Hh).
  destruct l as [| x l']; cbn [length]; [cbn; now destruct (ticks =? 0) |].
  destruct (Z.ltb_spec 0 (Z.of_nat (S (length l')))); [| lia]. cbn zeta.
  destruct (take_out s x l' Hh) as (s1 & E1 & [e1 e2 e3 e4 e5 e6] & S1 & N1 & _ & H1).
  rewrite (bind_done _ _ _ _ _ E1), upd_bind. set (s1' := mk_qstate _ _ _ _) in *.
  destruct (notify_receiver_ok s1') as (b & s2 & E2 & [w1 w2 w3 [w4 w5]] & C2). rewrite (bind_done _ _ _ _ _ E2).
  exists s2. split; [reflexivity |]. split; [now apply holds_contents with s1' |].
  cbn [queue s1' with_pointers xTasksWaitingToSend xTasksWaitingToReceive cRxLock cTxLock made_ready] in *.
  split; [constructor; [congruence .. | split; congruence] |].
  apply same_shape_trans with s1; [exact S1 |]. apply same_shape_trans with s1'; [by_contents | apply C2].
Qed.
End Operations.
