(* ===== verification/Heap4Calloc.v ===== *)
(** [pvPortCalloc] of [heap_4.c], over the block headers of [Heap4] and the bytes between them. *)
From Stdlib Require Import ZArith Lia Bool.
From stdpp Require Import base decidable list gmap.
From S2P Require Import Prelude Queue QueueProofs Heap4 Heap4Proofs Heap4Malloc Heap4Free.

(** The headers in the heap memory, and the bytes stored there by others than the allocator. *)
Record heap_memory : Type := mk_heap_memory { headers : heap; payload : gmap Z Z }.

#[local] Abbreviation M := (prog heap_memory).

Definition on_headers {A} (f : prog heap A) : M A := fun s =>
  match f (headers s) with
  | Done a h => Done a (mk_heap_memory h (payload s))
  | Undefined => Undefined
  | Halted => Halted
  | OutOfFuel => OutOfFuel
  end.

(** A header at [b] has none of its bytes among the [n] at [a]. *)
Definition apart (a n b : Z) : Prop := b + sizeof_BlockLink_t <= a \/ a + n <= b.

Section Calloc.
Variable ucHeap xStart : Z.
Variable fuel : nat.

(** [memset] in the heap memory; a header it writes over is lost. *)
Definition memset (a c n : Z) : M unit := fun s =>
  if (ucHeap <=? a) && (a + n <=? ucHeap + configTOTAL_HEAP_SIZE) then
    Done tt (mk_heap_memory (set_blocks (filter (fun e => apart a n e.1) (blocks (headers s))) (headers s))
               (put_bytes a (replicate (Z.to_nat n) (u8 c)) (payload s)))
  else Undefined.

Definition pvPortCalloc (xNum xSize : Z) : M Z :=
  if negb (heapMULTIPLY_WILL_OVERFLOW xNum xSize) then
    pv <- on_headers (pvPortMalloc ucHeap xStart fuel (u32 (xNum * xSize))) ;;
    (if negb (pv =? 0) then memset pv 0 (u32 (xNum * xSize)) else ret tt) ;;
    ret pv
  else ret 0.

#[local] Abbreviation start := (heap_start ucHeap).
#[local] Abbreviation end_ := (heap_end ucHeap).

(** The overflow check is exact. *)
Lemma multiply_overflows a b : is_u32 a -> is_u32 b -> heapMULTIPLY_WILL_OVERFLOW a b = (heapSIZE_MAX <? a * b).
Proof.
  unfold is_u32, heapMULTIPLY_WILL_OVERFLOW, heapSIZE_MAX. intros Ha Hb. destruct (Z.ltb_spec 0 a) as [L | L]; cbn [andb].
  - destruct (Z.ltb_spec (0xffffffff / a) b) as [K | K]; symmetry.
    + apply Z.ltb_lt. pose proof (Z.mul_succ_div_gt 0xffffffff a L). nia.
    + apply Z.ltb_ge. pose proof (Z.mul_div_le 0xffffffff a L). nia.
  - symmetry. apply Z.ltb_ge. nia.
Qed.

(** The headers a represented heap relies on. *)
Definition live (l : list seg) (b : Z) : Prop :=
  b = xStart \/ b = end_ \/ b ∈ (frees start l).*1 \/ b ∈ (useds start l).*1.

Lemma rep_live h h' l : rep ucHeap xStart h l -> (forall b, live l b -> blocks h' !! b = blocks h !! b) ->
  pxEnd h' = pxEnd h -> xFreeBytesRemaining h' = xFreeBytesRemaining h -> rep ucHeap xStart h' l.
Proof.
  intros [R1 R2 R3 R4 R5 R6 R7 R8 R9] K E F. split; auto; try congruence.
  - unfold szo. rewrite K by now left. exact R4.
  - revert R5. apply links_frame. intros a [-> | Ha]; apply K; [now left | right; right; now left].
  - rewrite K by (right; now left). exact R6.
  - intros a s Ha. rewrite K; [now apply R7 |]. do 3 right. apply list_elem_of_fmap. now exists (a, s).
Qed.

(** The bytes of a used segment behind its header hold no header. *)
Lemma live_apart h pre s post n b : placed ucHeap xStart -> rep ucHeap xStart h (pre ++ [mk_seg true s] ++ post) ->
  0 <= n -> n + 8 <= s -> live (pre ++ [mk_seg true s] ++ post) b -> apart (start + total pre + 8) n b.
Proof.
  intros Hp Hr Hn Hs. destruct (heap_bounds _ _ Hp) as (B1 & _ & _ & _ & B5 & _).
  destruct (middle_facts _ _ h pre [mk_seg true s] post Hp Hr) as (O1 & _ & O3 & Hb & Hc & _ & Ht & _). cbn [total size] in *.
  unfold apart, live. change sizeof_BlockLink_t with 8. pose proof (total_nonneg _ O1). pose proof (total_nonneg _ O3).
  intros [-> | [-> | [K | K]]].
  - destruct Hp as (_ & _ & _ & [P | P]); lia.
  - lia.
  - apply list_elem_of_fmap in K as [[a z] [-> K]]. rewrite !frees_app, !elem_of_app in K. cbn in K. destruct K as [K | [K | K]].
    + apply frees_range in K; [cbn; lia | exact O1].
    + now apply elem_of_nil in K.
    + apply frees_range in K; [cbn; lia | exact O3].
  - apply list_elem_of_fmap in K as [[a z] [-> K]]. rewrite !useds_app, !elem_of_app in K. cbn in K. destruct K as [K | [K | K]].
    + apply useds_range in K; [cbn; lia | exact O1].
    + apply list_elem_of_singleton in K. injection K as -> ->. cbn. lia.
    + apply useds_range in K; [cbn; lia | exact O3].
Qed.

Lemma cleared_rep h pre s post n : placed ucHeap xStart -> rep ucHeap xStart h (pre ++ [mk_seg true s] ++ post) -> 0 <= n -> n + 8 <= s ->
  rep ucHeap xStart (set_blocks (filter (fun e => apart (start + total pre + 8) n e.1) (blocks h)) h) (pre ++ [mk_seg true s] ++ post).
Proof.
  intros Hp Hr Hn Hs. apply (rep_live h); [exact Hr | | reflexivity | reflexivity]. intros b Hb. cbn.
  pose proof (live_apart h pre s post n b Hp Hr Hn Hs Hb) as A.
  destruct (blocks h !! b) as [x |] eqn:E.
  - now apply map_lookup_filter_Some.
  - apply map_lookup_filter_None. now left.
Qed.

(** The memory after [n] bytes at [p] have been cleared. *)
Record cleared_at (p n : Z) (m m' : gmap Z Z) : Prop := {
  cl_zero : get_bytes p (Z.to_nat n) m' = Some (replicate (Z.to_nat n) 0);
  cl_other : forall a, a < p \/ p + n <= a -> m' !! a = m !! a
}.

(** [pvPortCalloc] returns a block of [xNum * xSize] zero bytes, from the segment [pvPortMalloc] takes, and
    touches no other byte and no header in use; it returns [NULL] and changes nothing if no segment fits, nothing
    is requested, or the product does not fit [size_t]: the product is never taken modulo 2^32. *)
Theorem pvPortCalloc_clears xNum xSize h m l : placed ucHeap xStart -> rep ucHeap xStart h l ->
  is_u32 xNum -> is_u32 xSize -> 4800 < Z.of_nat fuel ->
  let n := xNum * xSize in
  match (if (n =? 0) || (heapSIZE_MAX <? n) then None else first_fit (block_for n) l) with
  | Some (pre, sz, post) => let p := start + total pre + 8 in exists h' m',
      pvPortCalloc xNum xSize (mk_heap_memory h m) = Done p (mk_heap_memory h' m') /\
      rep ucHeap xStart h' (pre ++ split_seg (block_for n) sz ++ post) /\ cleared_at p n m m'
  | None => pvPortCalloc xNum xSize (mk_heap_memory h m) = Done 0 (mk_heap_memory h m)
  end.
Proof.
  intros Hp Hr Ha Hb Hf n. unfold pvPortCalloc. rewrite multiply_overflows by assumption. fold n.
  assert (N : 0 <= n) by (unfold n, is_u32 in *; nia). rewrite orb_comm. destruct (Z.ltb_spec heapSIZE_MAX n) as [L | L]; cbn [negb orb]; [reflexivity |].
  unfold heapSIZE_MAX in L. rewrite (u32_id n) by lia.
  pose proof (malloc_first_fit ucHeap xStart fuel n h l Hp Hr ltac:(unfold is_u32; lia) Hf) as F.
  destruct (if n =? 0 then None else first_fit (block_for n) l) as [[[pre sz] post] |]; cbn zeta.
  - destruct F as (-> & Hw & _ & h' & E & Hr' & _). unfold bind at 1, on_headers. cbn [headers payload]. rewrite E.
    rewrite split_seg_shape, <- app_assoc in *. pose proof (taken_enough (block_for n) sz ltac:(lia)) as Ht.
    destruct (heap_bounds _ _ Hp) as (B1 & _ & _ & _ & B5 & B6).
    destruct (middle_facts _ _ h' pre _ _ Hp Hr') as (_ & _ & _ & Hb1 & Hb2 & _). cbn [total size] in Hb1, Hb2.
    rewrite (proj2 (Z.eqb_neq (start + total pre + 8) 0)) by lia. cbn [negb]. unfold bind, memset, ret. cbn [headers payload].
    rewrite (proj2 (Z.leb_le ucHeap _)), (proj2 (Z.leb_le (_ + n) _)) by lia. cbn [andb].
    eexists _, _. split; [reflexivity |]. split; [apply cleared_rep; auto; lia |]. change (u8 0) with 0. split.
    + pose proof (get_put_same (replicate (Z.to_nat n) 0) (start + total pre + 8) m) as G. now rewrite length_replicate in G.
    + intros a Hx. apply lookup_put_bytes_ne. rewrite length_replicate. lia.
  - unfold bind, on_headers. cbn [headers payload]. now rewrite F.
Qed.
End Calloc.

(** Twenty-five words, in an empty heap; and a product that does not fit. *)
Lemma pvPortCalloc_clears_witness :
  (exists h' m', pvPortCalloc ex_ucHeap ex_xStart ex_fuel 25 4 (mk_heap_memory ex_heap1 ∅) = Done 0x20000010 (mk_heap_memory h' m') /\
     rep ex_ucHeap ex_xStart h' [mk_seg true 112; mk_seg false 76672] /\ cleared_at 0x20000010 100 ∅ m') /\
  pvPortCalloc ex_ucHeap ex_xStart ex_fuel 0x10000 0x10001 (mk_heap_memory ex_heap1 ∅) = Done 0 (mk_heap_memory ex_heap1 ∅).
Proof.
  pose proof (fun a b Ha Hb => pvPortCalloc_clears ex_ucHeap ex_xStart ex_fuel a b ex_heap1 ∅ _ ex_placed ex_rep1 Ha Hb ltac:(vm_compute; reflexivity)) as C.
  split.
  - exact (C 25 4 ltac:(unfold is_u32; lia) ltac:(unfold is_u32; lia)).
  - exact (C 0x10000 0x10001 ltac:(unfold is_u32; lia) ltac:(unfold is_u32; lia)).
Defined.
