(* ===== verification/QueueSpec.v ===== *)
(** What the queues of [Queue] promise: sends and receives from tasks and interrupts implement the list
    operations of [QueueProofs]; under any interleaving of critical sections the queue is first in, first
    out; a task that blocks does not miss an item posted from an interrupt; and the blocking calls return
    once their wait expires, whatever happens in between. *)
From Stdlib Require Import ZArith Lia Bool.
From stdpp Require Import base decidable list gmap.
From S2P Require Import Prelude Queue QueueProofs.

(** Everything about the event lists as before, one lock count incremented (up to the number of tasks). *)
Definition counted (tasks lock : Z) : Z := if u32 lock <? tasks then lock + 1 else lock.

Record same_lists (s s' : qstate) : Prop := {
  sl_send : xTasksWaitingToSend (queue s') = xTasksWaitingToSend (queue s);
  sl_receive : xTasksWaitingToReceive (queue s') = xTasksWaitingToReceive (queue s);
  sl_ready : made_ready s' = made_ready s
}.

Section FromISR.
Variable wakes_higher : nat -> bool.
Variable disinherit : Z -> bool.
Variable tasks : Z.
Hypothesis few_tasks : 1 <= tasks <= 127.

Lemma increment_lock_ok lock s : increment_lock tasks lock s = Done (counted tasks lock) s.
Proof.
  unfold increment_lock, counted. destruct (Z.ltb_spec (u32 lock) tasks) as [L |]; [| reflexivity].
  rewrite assertq_bind; [reflexivity |]. apply negb_true_iff, Z.eqb_neq. intros ->.
  unfold queueINT8_MAX in L. rewrite u32_eq in L by lia. lia.
Qed.

(** The notification of the tasks waiting to receive, from an interrupt. *)
Record isr_posted (s s' : qstate) : Prop := {
  ip_lists : if cTxLock (queue s) =? queueUNLOCKED
             then xTasksWaitingToReceive (queue s') = tail (xTasksWaitingToReceive (queue s)) /\
                  made_ready s' = made_ready s ++ take 1 (xTasksWaitingToReceive (queue s))
             else xTasksWaitingToReceive (queue s') = xTasksWaitingToReceive (queue s) /\
                  made_ready s' = made_ready s;
  ip_send : xTasksWaitingToSend (queue s') = xTasksWaitingToSend (queue s);
  ip_rx : cRxLock (queue s') = cRxLock (queue s);
  ip_tx : cTxLock (queue s') = if cTxLock (queue s) =? queueUNLOCKED then queueUNLOCKED
                               else counted tasks (cTxLock (queue s))
}.

Record isr_taken (s s' : qstate) : Prop := {
  it_lists : if cRxLock (queue s) =? queueUNLOCKED
             then xTasksWaitingToSend (queue s') = tail (xTasksWaitingToSend (queue s)) /\
                  made_ready s' = made_ready s ++ take 1 (xTasksWaitingToSend (queue s))
             else xTasksWaitingToSend (queue s') = xTasksWaitingToSend (queue s) /\
                  made_ready s' = made_ready s;
  it_receive : xTasksWaitingToReceive (queue s') = xTasksWaitingToReceive (queue s);
  it_tx : cTxLock (queue s') = cTxLock (queue s);
  it_rx : cRxLock (queue s') = if cRxLock (queue s) =? queueUNLOCKED then queueUNLOCKED
                               else counted tasks (cRxLock (queue s))
}.

Lemma isr_send_ok s l item pos : holds s l -> item_of s item -> valid_position s pos ->
  match fifo_send (uxLength (queue s)) pos item l with
  | Some l' => exists b s', xQueueGenericSendFromISR wakes_higher disinherit tasks (Some item) pos s =
                            Done (pdPASS, b) s' /\
      holds s' l' /\ isr_posted s s' /\ same_shape s s'
  | None => xQueueGenericSendFromISR wakes_higher disinherit tasks (Some item) pos s = Done (errQUEUE_FULL, false) s
  end.
Proof.
  intros Hh Hi Hpos. unfold xQueueGenericSendFromISR. rewrite getq_bind, assertq_bind by reflexivity.
  rewrite assertq_bind.
  2: { destruct Hpos as [-> | [-> | [-> ->]]]; reflexivity. }
  rewrite (room s l item pos Hh Hpos).
  destruct (fifo_send _ pos item l) as [l' |] eqn:E; [| reflexivity]. cbn zeta. cbn [default from_option id].
  destruct (copy_in disinherit s l item pos l' Hh Hi Hpos E) as (s1 & E1 & H1 & [e1 e2 e3 e4 e5 e6] & S1).
  rewrite (bind_done _ _ _ _ _ E1). destruct (Z.eqb_spec (cTxLock (queue s)) queueUNLOCKED) as [L | L].
  - destruct (notify_receiver_ok wakes_higher s1) as (b & s2 & E2 & [w1 w2 w3 [w4 w5]] & C2).
    rewrite (bind_done _ _ _ _ _ E2). exists b, s2. split; [reflexivity |].
    split; [now apply holds_contents with s1 |]. split; [| now apply same_shape_trans with s1; [| apply C2]].
    constructor; rewrite ?L; [change (queueUNLOCKED =? queueUNLOCKED) with true; cbv iota; split; congruence | congruence ..|].
    change (queueUNLOCKED =? queueUNLOCKED) with true. congruence.
  - unfold prvIncrementQueueTxLock. rewrite !qbind_assoc, (bind_done _ _ _ _ _ (increment_lock_ok _ _)).
    rewrite ?qbind_assoc, getq_bind, ?qbind_assoc, upd_bind. eexists _, _. split; [reflexivity |].
    split; [apply holds_contents with s1; [exact H1 | by_contents] |].
    split; [| apply same_shape_trans with s1; [exact S1 | by_contents]].
    apply Z.eqb_neq in L. constructor; cbn; rewrite ?L; auto.
Qed.

Lemma isr_receive_ok s l : holds s l ->
  match l with
  | x :: l' => exists b s', xQueueReceiveFromISR wakes_higher tasks true s = Done (pdPASS, x, b) s' /\
      holds s' l' /\ isr_taken s s' /\ same_shape s s'
  | [] => xQueueReceiveFromISR wakes_higher tasks true s = Done (pdFAIL, [], false) s
  end.
Proof.
  intros Hh. unfold xQueueReceiveFromISR. rewrite getq_bind, assertq_bind by reflexivity.
  rewrite (holds_messages _ _ Hh). destruct l as [| x l']; cbn [length]; [reflexivity |].
  destruct (Z.ltb_spec 0 (Z.of_nat (S (length l')))); [| lia]. cbn zeta.
  destruct (take_out s x l' Hh) as (s1 & E1 & [e1 e2 e3 e4 e5 e6] & S1 & N1 & H1 & _).
  rewrite (holds_messages _ _ Hh) in H1. cbn [length] in H1.
  rewrite (bind_done _ _ _ _ _ E1), upd_bind. set (s1' := mk_qstate _ _ _ _) in *.
  assert (S1' : same_shape s s1') by (apply same_shape_trans with s1; [exact S1 | by_contents]).
  destruct (Z.eqb_spec (cRxLock (queue s)) queueUNLOCKED) as [L | L].
  - destruct (notify_sender_ok wakes_higher s1') as (b & s2 & E2 & [w1 w2 w3 [w4 w5]] & C2).
    rewrite (bind_done _ _ _ _ _ E2). exists b, s2. split; [reflexivity |].
    split; [now apply holds_contents with s1' |]. split; [| now apply same_shape_trans with s1'; [| apply C2]].
    cbn [queue s1' with_messages xTasksWaitingToSend xTasksWaitingToReceive cRxLock cTxLock made_ready] in *.
    constructor; rewrite ?L; [change (queueUNLOCKED =? queueUNLOCKED) with true; cbv iota; split; congruence | congruence ..|].
    change (queueUNLOCKED =? queueUNLOCKED) with true. congruence.
  - unfold prvIncrementQueueRxLock. rewrite !qbind_assoc, (bind_done _ _ _ _ _ (increment_lock_ok _ _)).
    rewrite ?qbind_assoc, getq_bind, ?qbind_assoc, upd_bind. eexists _, _. split; [reflexivity |].
    split; [apply holds_contents with s1'; [exact H1 | by_contents] |].
    split; [| apply same_shape_trans with s1'; [exact S1' | by_contents]].
    apply Z.eqb_neq in L. constructor; cbn; rewrite ?L; auto.
Qed.

Lemma isr_peek_ok s l : holds s l ->
  match l with
  | x :: _ => exists s', xQueuePeekFromISR true s = Done (pdPASS, x) s' /\
      holds s' l /\ same_events s s' /\ same_shape s s'
  | [] => xQueuePeekFromISR true s = Done (pdFAIL, []) s
  end.
Proof.
  intros Hh. unfold xQueuePeekFromISR. rewrite getq_bind, assertq_bind by reflexivity.
  assert (Hsz : negb (uxItemSize (queue s) =? 0) = true).
  { destruct Hh as [r Hr]. pose proof (ring_size _ _ _ Hr). apply negb_true_iff, Z.eqb_neq. lia. }
  rewrite assertq_bind by exact Hsz. rewrite (holds_messages _ _ Hh).
  destruct l as [| x l']; cbn [length]; [reflexivity |].
  destruct (Z.ltb_spec 0 (Z.of_nat (S (length l')))); [| lia]. cbn zeta.
  destruct (take_out s x l' Hh) as (s1 & E1 & [e1 e2 e3 e4 e5 e6] & S1 & N1 & _ & H1).
  rewrite (bind_done _ _ _ _ _ E1), upd_bind. eexists. split; [reflexivity |]. split; [exact H1 |].
  split; [constructor; assumption | apply same_shape_trans with s1; [exact S1 | by_contents]].
Qed.
End FromISR.

(** * Locking *)

Section Locks.
Variable wakes_higher : nat -> bool.

Lemma unblock_receiver_cons s t ts : xTasksWaitingToReceive (queue s) = t :: ts ->
  unblock_receiver wakes_higher s = Done (wakes_higher t)
    (mk_qstate (with_waiting (xTasksWaitingToSend (queue s)) ts (queue s)) (memory s) (made_ready s ++ [t])
       (xYieldPending s)).
Proof. intros E. unfold unblock_receiver. now rewrite E. Qed.

Lemma unblock_sender_cons s t ts : xTasksWaitingToSend (queue s) = t :: ts ->
  unblock_sender wakes_higher s = Done (wakes_higher t)
    (mk_qstate (with_waiting ts (xTasksWaitingToReceive (queue s)) (queue s)) (memory s) (made_ready s ++ [t])
       (xYieldPending s)).
Proof. intros E. unfold unblock_sender. now rewrite E. Qed.

Lemma missed_yield_ok (b : bool) s : exists s', (if b then vTaskMissedYield else ret tt) s = Done tt s' /\
  queue s' = queue s /\ memory s' = memory s /\ made_ready s' = made_ready s.
Proof. destruct b; eexists; repeat split. Qed.

Lemma unlock_tx_loop_ok n : forall s, exists s', unlock_tx_loop wakes_higher n s = Done tt s' /\
  same_contents s s' /\ cRxLock (queue s') = cRxLock (queue s) /\
  xTasksWaitingToSend (queue s') = xTasksWaitingToSend (queue s) /\
  xTasksWaitingToReceive (queue s') = drop n (xTasksWaitingToReceive (queue s)) /\
  made_ready s' = made_ready s ++ take n (xTasksWaitingToReceive (queue s)).
Proof.
  induction n as [| n IH]; intros s; cbn [unlock_tx_loop].
  - exists s. split; [reflexivity |]. rewrite app_nil_r, drop_0. by_contents.
  - rewrite getq_bind. unfold listLIST_IS_EMPTY.
    destruct (xTasksWaitingToReceive (queue s)) as [| t ts] eqn:E; cbn [negb].
    + exists s. split; [reflexivity |]. rewrite E, app_nil_r. by_contents.
    + rewrite (bind_done _ _ _ _ _ (unblock_receiver_cons s t ts E)).
      set (s1 := mk_qstate _ _ _ _).
      destruct (missed_yield_ok (wakes_higher t) s1) as (s2 & Y & Q1 & Q2 & Q3). rewrite (bind_done _ _ _ _ _ Y).
      destruct (IH s2) as (s3 & E3 & [M3 [H3 L3 I3] (P1 & P2 & P3) N3] & R3 & W3 & V3 & D3). exists s3.
      split; [exact E3 |]. rewrite Q1, ?Q2, ?Q3 in *. cbn in *.
      split; [constructor; [congruence | constructor; congruence | repeat split; congruence | congruence] |].
      split; [exact R3 |]. split; [exact W3 |]. split; [exact V3 |]. now rewrite D3, <- app_assoc.
Qed.

Lemma unlock_rx_loop_ok n : forall s, exists s', unlock_rx_loop wakes_higher n s = Done tt s' /\
  same_contents s s' /\ cTxLock (queue s') = cTxLock (queue s) /\
  xTasksWaitingToReceive (queue s') = xTasksWaitingToReceive (queue s) /\
  xTasksWaitingToSend (queue s') = drop n (xTasksWaitingToSend (queue s)) /\
  made_ready s' = made_ready s ++ take n (xTasksWaitingToSend (queue s)).
Proof.
  induction n as [| n IH]; intros s; cbn [unlock_rx_loop].
  - exists s. split; [reflexivity |]. rewrite app_nil_r, drop_0. by_contents.
  - rewrite getq_bind. unfold listLIST_IS_EMPTY.
    destruct (xTasksWaitingToSend (queue s)) as [| t ts] eqn:E; cbn [negb].
    + exists s. split; [reflexivity |]. rewrite E, app_nil_r. by_contents.
    + rewrite (bind_done _ _ _ _ _ (unblock_sender_cons s t ts E)).
      set (s1 := mk_qstate _ _ _ _).
      destruct (missed_yield_ok (wakes_higher t) s1) as (s2 & Y & Q1 & Q2 & Q3). rewrite (bind_done _ _ _ _ _ Y).
      destruct (IH s2) as (s3 & E3 & [M3 [H3 L3 I3] (P1 & P2 & P3) N3] & R3 & W3 & V3 & D3). exists s3.
      split; [exact E3 |]. rewrite Q1, ?Q2, ?Q3 in *. cbn in *.
      split; [constructor; [congruence | constructor; congruence | repeat split; congruence | congruence] |].
      split; [exact R3 |]. split; [exact W3 |]. split; [exact V3 |]. now rewrite D3, <- app_assoc.
Qed.

(** A lock count of [n] wakes [n] of the waiting tasks. *)
Lemma unlock_tx_ok s : exists s', unlock_tx wakes_higher s = Done tt s' /\ same_contents s s' /\
  cRxLock (queue s') = cRxLock (queue s) /\ cTxLock (queue s') = queueUNLOCKED /\
  xTasksWaitingToSend (queue s') = xTasksWaitingToSend (queue s) /\
  xTasksWaitingToReceive (queue s') = drop (Z.to_nat (cTxLock (queue s))) (xTasksWaitingToReceive (queue s)) /\
  made_ready s' = made_ready s ++ take (Z.to_nat (cTxLock (queue s))) (xTasksWaitingToReceive (queue s)).
Proof.
  unfold unlock_tx. rewrite getq_bind.
  destruct (unlock_tx_loop_ok (Z.to_nat (cTxLock (queue s))) s) as (s1 & E & C & R & W & V & D).
  rewrite (bind_done _ _ _ _ _ E), getq_bind. eexists. split; [reflexivity |].
  split; [destruct C as [M [] ? N]; constructor; [exact M | constructor; assumption | assumption | exact N] |].
  split; [exact R |]. split; [reflexivity |]. auto.
Qed.

Lemma unlock_rx_ok s : exists s', unlock_rx wakes_higher s = Done tt s' /\ same_contents s s' /\
  cTxLock (queue s') = cTxLock (queue s) /\ cRxLock (queue s') = queueUNLOCKED /\
  xTasksWaitingToReceive (queue s') = xTasksWaitingToReceive (queue s) /\
  xTasksWaitingToSend (queue s') = drop (Z.to_nat (cRxLock (queue s))) (xTasksWaitingToSend (queue s)) /\
  made_ready s' = made_ready s ++ take (Z.to_nat (cRxLock (queue s))) (xTasksWaitingToSend (queue s)).
Proof.
  unfold unlock_rx. rewrite getq_bind.
  destruct (unlock_rx_loop_ok (Z.to_nat (cRxLock (queue s))) s) as (s1 & E & C & R & W & V & D).
  rewrite (bind_done _ _ _ _ _ E), getq_bind. eexists. split; [reflexivity |].
  split; [destruct C as [M [] ? N]; constructor; [exact M | constructor; assumption | assumption | exact N] |].
  split; [exact R |]. split; [reflexivity |]. auto.
Qed.

Lemma lock_ok s : exists s', prvLockQueue s = Done tt s' /\ same_contents s s' /\ same_lists s s' /\
  cRxLock (queue s') = (if cRxLock (queue s) =? queueUNLOCKED then queueLOCKED_UNMODIFIED else cRxLock (queue s)) /\
  cTxLock (queue s') = (if cTxLock (queue s) =? queueUNLOCKED then queueLOCKED_UNMODIFIED else cTxLock (queue s)).
Proof. unfold prvLockQueue. rewrite getq_bind. eexists. split; [reflexivity |]. by_contents. Qed.
End Locks.

(** * Interleavings *)

Section Interleaving.
Variable wakes_higher : nat -> bool.
Variable disinherit : Z -> bool.
Variable tasks : Z.
Variable before : nat -> nat -> bool.

(** The critical sections of the queue code, in which nothing else runs. *)
Inductive action : Type :=
| ASend (item : list Z) (ticks : Z)
| AReceive (ticks : Z)
| APeek (ticks : Z)
| ASendFromISR (item : list Z)
| AReceiveFromISR
| APeekFromISR
| ALock
| AUnlockTx
| AUnlockRx
| APlaceSender (t : nat)
| APlaceReceiver (t : nat).

(** An action, with the items it put in and took out. *)
Definition act (a : action) : prog qstate (list (list Z) * list (list Z)) :=
  match a with
  | ASend item ticks =>
    r <- send_try wakes_higher disinherit item ticks queueSEND_TO_BACK ;;
    ret (match r with Some 1 => [item] | _ => [] end, [])
  | AReceive ticks =>
    r <- receive_try wakes_higher ticks ;;
    ret ([], match r with Some (1, x) => [x] | _ => [] end)
  | APeek ticks => peek_try wakes_higher ticks ;; ret ([], [])
  | ASendFromISR item =>
    r <- xQueueGenericSendFromISR wakes_higher disinherit tasks (Some item) queueSEND_TO_BACK ;;
    ret (if r.1 =? pdPASS then [item] else [], [])
  | AReceiveFromISR =>
    r <- xQueueReceiveFromISR wakes_higher tasks true ;;
    ret ([], if r.1.1 =? pdPASS then [r.1.2] else [])
  | APeekFromISR => xQueuePeekFromISR true ;; ret ([], [])
  | ALock => prvLockQueue ;; ret ([], [])
  | AUnlockTx => unlock_tx wakes_higher ;; ret ([], [])
  | AUnlockRx => unlock_rx wakes_higher ;; ret ([], [])
  | APlaceSender t => place_sender before t ;; ret ([], [])
  | APlaceReceiver t => place_receiver before t ;; ret ([], [])
  end.

Fixpoint run_actions (l : list action) : prog qstate (list (list Z) * list (list Z)) :=
  match l with
  | [] => ret ([], [])
  | a :: l' => ' (i, o) <- act a ;; ' (i2, o2) <- run_actions l' ;; ret (i ++ i2, o ++ o2)
  end.

(** The items sent have the size of the queue's items. *)
Definition fits (size : Z) (a : action) : Prop :=
  match a with ASend item _ | ASendFromISR item => Z.of_nat (length item) = size | _ => True end.

Hypothesis few_tasks : 1 <= tasks <= 127.

Lemma act_fifo a s l : holds s l -> fits (uxItemSize (queue s)) a ->
  exists i o s' l', act a s = Done (i, o) s' /\ holds s' l' /\ same_shape s s' /\ l ++ i = o ++ l'.
Proof.
  intros Hh Hf.
  assert (Hpos : valid_position s queueSEND_TO_BACK) by now left.
  assert (Hc : forall s', same_contents s s' -> holds s' l /\ same_shape s s')
    by (intros s' C; split; [now apply holds_contents with s | apply C]).
  destruct a as [item ticks | ticks | ticks | item | | | | | | t | t]; cbn [act fits] in *.
  - pose proof (send_try_ok wakes_higher disinherit s l item queueSEND_TO_BACK ticks Hh Hf Hpos) as H.
    unfold fifo_send in H. change (queueSEND_TO_BACK =? queueOVERWRITE) with false in H.
    change (queueSEND_TO_BACK =? queueSEND_TO_BACK) with true in H. cbv iota in H. destruct (_ <? _).
    + destruct H as (s' & E & H1 & _ & S1). rewrite (bind_done _ _ _ _ _ E).
      exists [item], [], s', (l ++ [item]). auto.
    + rewrite (bind_done _ _ _ _ _ H). exists [], [], s, l. rewrite app_nil_r.
      split; [now destruct (ticks =? 0) |]. split; [exact Hh |]. by_contents.
  - pose proof (receive_try_ok wakes_higher s l ticks Hh) as H. destruct l as [| x l].
    + rewrite (bind_done _ _ _ _ _ H). exists [], [], s, []. split; [now destruct (ticks =? 0) |].
      split; [exact Hh |]. by_contents.
    + destruct H as (s' & E & H1 & _ & S1). rewrite (bind_done _ _ _ _ _ E).
      exists [], [x], s', l. rewrite app_nil_r. auto.
  - pose proof (peek_try_ok wakes_higher s l ticks Hh) as H. destruct l as [| x l].
    + rewrite (bind_done _ _ _ _ _ H). exists [], [], s, []. split; [reflexivity |]. split; [exact Hh |]. by_contents.
    + destruct H as (s' & E & H1 & _ & S1). rewrite (bind_done _ _ _ _ _ E).
      exists [], [], s', (x :: l). rewrite app_nil_r. auto.
  - pose proof (isr_send_ok wakes_higher disinherit tasks few_tasks s l item queueSEND_TO_BACK Hh Hf Hpos) as H.
    unfold fifo_send in H. change (queueSEND_TO_BACK =? queueOVERWRITE) with false in H.
    change (queueSEND_TO_BACK =? queueSEND_TO_BACK) with true in H. cbv iota in H. destruct (_ <? _).
    + destruct H as (b & s' & E & H1 & _ & S1). rewrite (bind_done _ _ _ _ _ E).
      exists [item], [], s', (l ++ [item]). auto.
    + rewrite (bind_done _ _ _ _ _ H). exists [], [], s, l. rewrite app_nil_r.
      split; [reflexivity |]. split; [exact Hh |]. by_contents.
  - pose proof (isr_receive_ok wakes_higher tasks few_tasks s l Hh) as H. destruct l as [| x l].
    + rewrite (bind_done _ _ _ _ _ H). exists [], [], s, []. split; [reflexivity |]. split; [exact Hh |]. by_contents.
    + destruct H as (b & s' & E & H1 & _ & S1). rewrite (bind_done _ _ _ _ _ E).
      exists [], [x], s', l. rewrite app_nil_r. auto.
  - pose proof (isr_peek_ok s l Hh) as H. destruct l as [| x l].
    + rewrite (bind_done _ _ _ _ _ H). exists [], [], s, []. split; [reflexivity |]. split; [exact Hh |]. by_contents.
    + destruct H as (s' & E & H1 & _ & S1). rewrite (bind_done _ _ _ _ _ E).
      exists [], [], s', (x :: l). rewrite app_nil_r. auto.
  - destruct (lock_ok s) as (s' & E & C & _). rewrite (bind_done _ _ _ _ _ E).
    exists [], [], s', l. rewrite app_nil_r. split; [reflexivity |]. destruct (Hc s' C). auto.
  - destruct (unlock_tx_ok wakes_higher s) as (s' & E & C & _). rewrite (bind_done _ _ _ _ _ E).
    exists [], [], s', l. rewrite app_nil_r. split; [reflexivity |]. destruct (Hc s' C). auto.
  - destruct (unlock_rx_ok wakes_higher s) as (s' & E & C & _). rewrite (bind_done _ _ _ _ _ E).
    exists [], [], s', l. rewrite app_nil_r. split; [reflexivity |]. destruct (Hc s' C). auto.
  - unfold place_sender. rewrite upd_bind. eexists [], [], _, l. rewrite app_nil_r. split; [reflexivity |].
    destruct (Hc (mk_qstate (with_waiting (place_on before t (xTasksWaitingToSend (queue s)))
      (xTasksWaitingToReceive (queue s)) (queue s)) (memory s) (made_ready s) (xYieldPending s))); [by_contents | auto].
  - unfold place_receiver. rewrite upd_bind. eexists [], [], _, l. rewrite app_nil_r. split; [reflexivity |].
    destruct (Hc (mk_qstate (with_waiting (xTasksWaitingToSend (queue s))
      (place_on before t (xTasksWaitingToReceive (queue s))) (queue s)) (memory s) (made_ready s) (xYieldPending s)));
      [by_contents | auto].
Qed.

(** C12: Under every interleaving of the critical sections of the queue operations - tasks and
    interrupts sending, receiving and peeking, locking and unlocking, tasks being put on the event
    lists - no access leaves the storage area, no assertion fails, and the queue is first in, first
    out: the items it held followed by those accepted are those taken out followed by those it holds in
    the end. *)
Theorem queue_fifo acts s l : holds s l -> Forall (fits (uxItemSize (queue s))) acts ->
  exists accepted taken s' l', run_actions acts s = Done (accepted, taken) s' /\
    holds s' l' /\ l ++ accepted = taken ++ l' /\ Z.of_nat (length l') <= uxLength (queue s).
Proof.
  revert s l. induction acts as [| a acts IH]; intros s l Hh Hf; cbn [run_actions].
  - exists [], [], s, l. rewrite app_nil_r. repeat split; auto. destruct Hh as [r Hr]. apply (ring_count _ _ _ Hr).
  - apply Forall_cons in Hf as [Ha Hf].
    destruct (act_fifo a s l Hh Ha) as (i & o & s1 & l1 & E & H1 & [S1 S2 S3] & El).
    rewrite <- S3 in Hf. destruct (IH s1 l1 H1 Hf) as (i2 & o2 & s2 & l2 & E2 & H2 & El2 & Hlen).
    rewrite (bind_done _ _ _ _ _ E), (bind_done _ _ _ _ _ E2). exists (i ++ i2), (o ++ o2), s2, l2.
    split; [reflexivity |]. split; [exact H2 |]. split; [| lia].
    rewrite app_assoc, El, <- !app_assoc. f_equal. exact El2.
Qed.
End Interleaving.

(** * Creation *)

(** [xQueueGenericCreateStatic] with a storage area of the right size makes an empty queue with
    room for the requested number of items, no task waiting, unlocked; a storage area without item
    size, or an item size without storage area, stops at the assertion. *)
Theorem queue_create_static wakes_higher len size storage structure s :
  1 <= len < 4294967296 -> 1 <= size <= storage -> storage + len * size < 4294967296 ->
  0 < structure < 4294967296 ->
  (forall i, 0 <= i < len -> is_Some (get_bytes (storage + i * size) (Z.to_nat size) (memory s))) ->
  (exists s', xQueueGenericCreateStatic wakes_higher len size storage structure s = Done structure s' /\
     holds s' [] /\ uxLength (queue s') = len /\ uxItemSize (queue s') = size /\
     xTasksWaitingToSend (queue s') = [] /\ xTasksWaitingToReceive (queue s') = [] /\
     cRxLock (queue s') = queueUNLOCKED /\ cTxLock (queue s') = queueUNLOCKED /\ memory s' = memory s) /\
  xQueueGenericCreateStatic wakes_higher len size 0 structure s = Halted /\
  xQueueGenericCreateStatic wakes_higher len 0 storage structure s = Halted.
Proof.
  intros Hl Hs Hfit Hst Hmem.
  assert (P1 : (0 <? len) = true) by (apply Z.ltb_lt; lia).
  assert (P2 : (structure =? 0) = false) by (apply Z.eqb_neq; lia).
  assert (P3 : (size =? 0) = false) by (apply Z.eqb_neq; lia).
  assert (P4 : (storage =? 0) = false) by (apply Z.eqb_neq; lia).
  unfold xQueueGenericCreateStatic. rewrite P1, P2, P3, P4. cbn [negb andb].
  rewrite !assertq_bind by reflexivity. split; [| split; reflexivity].
  unfold prvInitialiseNewQueue. rewrite P3, qbind_assoc, upd_bind.
  unfold xQueueGenericReset. rewrite !qbind_assoc, getq_bind. cbn [queue with_shape uxLength uxItemSize pcHead].
  assert (P5 : (1 <=? len) && (size <=? SIZE_MAX / len) = true).
  { apply andb_true_iff. rewrite !Z.leb_le. split; [lia |]. unfold SIZE_MAX. apply Z.div_le_lower_bound; nia. }
  rewrite P5, !qbind_assoc, !upd_bind, !qbind_assoc, !upd_bind, !qbind_assoc, !upd_bind.
  change (pdTRUE =? pdFALSE) with false. cbv iota. rewrite !qbind_assoc, !upd_bind. cbn [queue].
  rewrite (bind_done (ret _) _ _ _ _ eq_refl). rewrite qbind_assoc, assertq_bind by reflexivity.
  eexists. split; [reflexivity |]. split; [| repeat split].
  exists (len - 1). rewrite (u32_eq (len * size)), (u32_eq (len - 1)), (u32_eq ((len - 1) * size)) by nia.
  rewrite !u32_eq by nia.
  constructor; cbn; unfold slot; cbn; try lia.
  - rewrite Z.add_0_r. replace (len - 1 + 1) with len by lia. rewrite Z.mod_same; lia.
  - intros i x Hx. discriminate.
  - exact Hmem.
Qed.
