(* ===== verification/QueueBlocking.v ===== *)
(** The calls of [Queue] that may block: they return when their wait expires at the latest, and a task
    that goes to sleep on an empty queue is woken by an item posted from an interrupt at any moment. *)
From Stdlib Require Import ZArith Lia Bool.
From stdpp Require Import base decidable list gmap.
From S2P Require Import Prelude Queue QueueProofs QueueSpec.

(** * The calls that do not wait *)

Section Polling.
Variable wakes_higher : nat -> bool.
Variable disinherit : Z -> bool.
Variable before : nat -> nat -> bool.
Variable interrupt : nat -> nat -> prog qstate unit.
Variable suspended : nat -> prog qstate unit.
Variable expired : nat -> bool.

Lemma overwrite_assert s pos : valid_position s pos ->
  negb ((pos =? queueOVERWRITE) && negb (uxLength (queue s) =? 1)) = true.
Proof. intros [-> | [-> | [-> ->]]]; reflexivity. Qed.

(** [xQueueGenericSend] with no time to wait puts the item at the back or the front of the queue, or
    in the place of the only item, and makes the first task waiting to receive ready; if there is no
    room it returns [errQUEUE_FULL] and changes nothing. *)
Theorem xQueueGenericSend_poll n task s l item pos :
  holds s l -> item_of s item -> valid_position s pos ->
  match fifo_send (uxLength (queue s)) pos item l with
  | Some l' => exists s',
      xQueueGenericSend wakes_higher disinherit before interrupt suspended expired (S n) task (Some item) 0 pos s =
      Done pdPASS s' /\ holds s' l' /\ woke_receiver s s' /\ same_shape s s'
  | None =>
      xQueueGenericSend wakes_higher disinherit before interrupt suspended expired (S n) task (Some item) 0 pos s =
      Done errQUEUE_FULL s
  end.
Proof.
  intros Hh Hi Hpos. pose proof (send_try_ok wakes_higher disinherit s l item pos 0 Hh Hi Hpos) as H.
  unfold xQueueGenericSend. rewrite getq_bind, assertq_bind by reflexivity.
  rewrite assertq_bind by now apply overwrite_assert. cbn [send_loop default from_option id].
  destruct (fifo_send _ pos item l) as [l' |].
  - destruct H as (s' & E & H). exists s'. rewrite (bind_done _ _ _ _ _ E). auto.
  - now rewrite (bind_done _ _ _ _ _ H).
Qed.

(** [xQueueReceive] with no time to wait takes the oldest item out of the queue and makes the first
    task waiting to send ready; [xQueuePeek] returns the same item and leaves it; both return
    [errQUEUE_EMPTY] and change nothing when there is none. *)
Theorem xQueueReceive_poll n task s l :
  holds s l ->
  match l with
  | x :: l' =>
    (exists s', xQueueReceive wakes_higher before interrupt suspended expired (S n) task true 0 s =
       Done (pdPASS, x) s' /\ holds s' l' /\ woke_sender s s' /\ same_shape s s') /\
    (exists s', xQueuePeek wakes_higher before interrupt suspended expired (S n) task true 0 s =
       Done (pdPASS, x) s' /\ holds s' l /\ woke_receiver s s' /\ same_shape s s')
  | [] =>
    xQueueReceive wakes_higher before interrupt suspended expired (S n) task true 0 s = Done (errQUEUE_EMPTY, []) s /\
    xQueuePeek wakes_higher before interrupt suspended expired (S n) task true 0 s = Done (errQUEUE_EMPTY, []) s
  end.
Proof.
  intros Hh. pose proof (receive_try_ok wakes_higher s l 0 Hh) as H1.
  pose proof (peek_try_ok wakes_higher s l 0 Hh) as H2.
  unfold xQueueReceive, xQueuePeek. rewrite !getq_bind, !assertq_bind by reflexivity. cbn [receive_loop].
  destruct l as [| x l'].
  - now rewrite (bind_done _ _ _ _ _ H1), (bind_done _ _ _ _ _ H2).
  - destruct H1 as (s1 & E1 & H1), H2 as (s2 & E2 & H2).
    rewrite (bind_done _ _ _ _ _ E1), (bind_done _ _ _ _ _ E2). split; [exists s1 | exists s2]; auto.
Qed.
End Polling.

(** * The calls that wait *)

(** Some queue of this shape. *)
Definition steady (len size : Z) (s : qstate) : Prop :=
  exists l, holds s l /\ uxLength (queue s) = len /\ uxItemSize (queue s) = size.

Lemma steady_contents len size s s' : steady len size s -> same_contents s s' -> steady len size s'.
Proof.
  intros (l & H & E1 & E2) C. exists l. split; [now apply holds_contents with s |].
  destruct (sc_shape _ _ C). split; congruence.
Qed.

Lemma steady_shape len size s s' l : steady len size s -> holds s' l -> same_shape s s' -> steady len size s'.
Proof. intros (l0 & _ & E1 & E2) H []. exists l. split; [exact H | split; congruence]. Qed.

Section Waiting.
Variable wakes_higher : nat -> bool.
Variable disinherit : Z -> bool.
Variable before : nat -> nat -> bool.
Variable interrupt : nat -> nat -> prog qstate unit.
Variable suspended : nat -> prog qstate unit.
Variable expired : nat -> bool.
Variable len size : Z.

(** Whatever runs in between leaves a queue behind. *)
Definition undisturbed : Prop :=
  (forall k i, triple (steady len size) (interrupt k i) (fun _ => steady len size)) /\
  (forall k, triple (steady len size) (suspended k) (fun _ => steady len size)).

Lemma steady_lock : triple (steady len size) prvLockQueue (fun _ => steady len size).
Proof.
  intros s H. destruct (lock_ok s) as (s' & E & C & _). exists tt, s'. split; [exact E |].
  now apply steady_contents with s.
Qed.

Lemma steady_unlock between : triple (steady len size) between (fun _ => steady len size) ->
  triple (steady len size) (prvUnlockQueue wakes_higher between) (fun _ => steady len size).
Proof.
  intros Hb. unfold prvUnlockQueue. apply triple_bind with (R := fun _ => steady len size).
  - intros s H. destruct (unlock_tx_ok wakes_higher s) as (s' & E & C & _). exists tt, s'. split; [exact E |].
    now apply steady_contents with s.
  - intros _. apply triple_bind with (R := fun _ => steady len size); [exact Hb |]. intros _ s H.
    destruct (unlock_rx_ok wakes_higher s) as (s' & E & C & _). exists tt, s'. split; [exact E |].
    now apply steady_contents with s.
Qed.

Lemma steady_place_sender t : triple (steady len size) (place_sender before t) (fun _ => steady len size).
Proof. intros s H. eexists _, _. split; [reflexivity |]. apply steady_contents with s; [exact H | by_contents]. Qed.

Lemma steady_place_receiver t : triple (steady len size) (place_receiver before t) (fun _ => steady len size).
Proof. intros s H. eexists _, _. split; [reflexivity |]. apply steady_contents with s; [exact H | by_contents]. Qed.

Lemma steady_test (m : prog qstate bool) : (forall s, exists b, m s = Done b s) ->
  triple (steady len size) m (fun _ => steady len size).
Proof. intros H s Hs. destruct (H s) as [b E]. exists b, s. auto. Qed.

#[local] Ltac seq := apply triple_bind with (R := fun _ => steady len size); [| intros ?].
#[local] Ltac done_steady := intros st Hst; eexists _, st; split; [reflexivity |]; split; [exact Hst | congruence].

Lemma send_block_ok k task : undisturbed ->
  triple (steady len size) (send_block wakes_higher before interrupt suspended expired k task)
    (fun over s => steady len size s /\ (expired k = true -> over = true)).
Proof.
  intros [Hi Hs]. unfold send_block. seq; [apply Hi |]. seq; [apply steady_lock |]. seq; [apply Hi |].
  destruct (expired k); cbn [negb].
  - seq; [apply steady_unlock, Hi |]. done_steady.
  - seq; [apply steady_test; intros s; eexists; reflexivity |]. seq; [apply Hi |]. destruct a2.
    + seq; [apply steady_place_sender |]. seq; [apply Hi |]. seq; [apply steady_unlock, Hi |].
      seq; [apply Hs |]. done_steady.
    + seq; [apply steady_unlock, Hi |]. done_steady.
Qed.

Lemma receive_block_ok k task ticks : undisturbed ->
  triple (steady len size) (receive_block wakes_higher before interrupt suspended expired k task ticks)
    (fun r s => steady len size s /\ (expired k = true -> r = None \/ r = Some 0)).
Proof.
  intros [Hi Hs]. unfold receive_block. seq; [apply Hi |]. seq; [apply steady_lock |]. seq; [apply Hi |].
  destruct (expired k); cbn [negb].
  - seq; [apply steady_unlock, Hi |]. seq; [apply Hi |].
    seq; [apply steady_test; intros s; eexists; reflexivity |].
    intros s H. eexists _, s. split; [reflexivity |]. split; [exact H |]. intros _. destruct a4; auto.
  - seq; [apply steady_test; intros s; eexists; reflexivity |]. seq; [apply Hi |]. destruct a2.
    + seq; [apply steady_place_receiver |]. seq; [apply Hi |]. seq; [apply steady_unlock, Hi |].
      seq; [apply Hs |]. done_steady.
    + seq; [apply steady_unlock, Hi |]. done_steady.
Qed.

(** The state a successful send leaves. *)
Definition sent (pos : Z) (item : list Z) (s : qstate) : Prop :=
  exists l, holds s (if pos =? queueSEND_TO_BACK then l ++ [item] else item :: l).

Lemma fifo_send_sent pos item l l' s : fifo_send len pos item l = Some l' -> holds s l' ->
  valid_position s pos -> sent pos item s.
Proof.
  unfold fifo_send, sent. intros E H Hp. destruct Hp as [-> | [-> | [-> _]]]; cbn in *.
  - destruct (_ <? _); [| discriminate]. injection E as <-. now exists l.
  - destruct (_ <? _); [| discriminate]. injection E as <-. now exists l.
  - injection E as <-. now exists [].
Qed.

Lemma send_loop_ok n task item ticks pos : undisturbed -> Z.of_nat (length item) = size ->
  (pos = queueOVERWRITE -> len = 1) -> (pos = 0 \/ pos = 1 \/ pos = 2) ->
  forall k, (exists k0, (k <= k0 < k + n)%nat /\ expired k0 = true) ->
  triple (steady len size)
    (send_loop wakes_higher disinherit before interrupt suspended expired n k task item ticks pos)
    (fun st s => steady len size s /\ (st = pdPASS /\ sent pos item s \/ st = errQUEUE_FULL)).
Proof.
  intros Hu Hi Hp1 Hp2. induction n as [| n IH]; intros k (k0 & Hk & Hx); [lia |].
  cbn [send_loop]. intros s Hs. pose proof Hs as (l & Hh & E1 & E2).
  assert (Hi' : item_of s item) by (unfold item_of; congruence).
  assert (Hpos : valid_position s pos).
  { destruct Hp2 as [-> | [-> | ->]]; [now left | right; now left | right; right].
    split; [reflexivity |]. rewrite E1. now apply Hp1. }
  pose proof (send_try_ok wakes_higher disinherit s l item pos ticks Hh Hi' Hpos) as H. rewrite E1 in H.
  destruct (fifo_send len pos item l) as [l' |] eqn:Ef.
  - destruct H as (s' & E & H & _ & S). rewrite (bind_done _ _ _ _ _ E). exists pdPASS, s'.
    split; [reflexivity |]. split; [now apply steady_shape with s l' |]. left. split; [reflexivity |].
    apply fifo_send_sent with l l'; [exact Ef | exact H |].
    destruct Hpos as [-> | [-> | [-> L]]]; [now left | right; now left | right; right]. split; [reflexivity |].
    destruct S. congruence.
  - rewrite (bind_done _ _ _ _ _ H). destruct (ticks =? 0).
    + exists errQUEUE_FULL, s. split; [reflexivity |]. auto.
    + destruct (send_block_ok k task Hu s Hs) as (over & s' & E & H' & Hover). rewrite (bind_done _ _ _ _ _ E).
      destruct over; [exists errQUEUE_FULL, s'; auto |].
      apply (IH (S k)); [| exact H']. exists k0. split; [| exact Hx].
      destruct (decide (k = k0)) as [-> |]; [specialize (Hover Hx); discriminate | lia].
Qed.

(** Receiving and peeking give an item that was in the queue. *)
Lemma receive_loop_ok try n task : undisturbed ->
  (forall ticks s l, holds s l ->
     match l with
     | x :: _ => exists s' l', try ticks s = Done (Some (pdPASS, x)) s' /\ holds s' l' /\ same_shape s s'
     | [] => try ticks s = Done (if ticks =? 0 then Some (errQUEUE_EMPTY, []) else None) s
     end) ->
  forall k ticks, (ticks = 0 /\ (0 < n)%nat \/ exists k0, (k <= k0 < k + n - 1)%nat /\ expired k0 = true) ->
  triple (steady len size)
    (receive_loop wakes_higher before interrupt suspended expired try n k task ticks)
    (fun r s => steady len size s /\ (r.1 = pdPASS /\ Z.of_nat (length r.2) = size \/ r = (errQUEUE_EMPTY, []))).
Proof.
  intros Hu Htry. induction n as [| n IH]; intros k ticks Hk; [exfalso; destruct Hk as [| (k0 & ? & _)]; lia |].
  cbn [receive_loop]. intros s Hs. pose proof Hs as (l & Hh & E1 & E2).
  pose proof (Htry ticks s l Hh) as H. destruct l as [| x l].
  - rewrite (bind_done _ _ _ _ _ H). destruct (Z.eqb_spec ticks 0) as [-> | N].
    + exists (errQUEUE_EMPTY, []), s. auto.
    + destruct Hk as [[-> _] | (k0 & Hk & Hx)]; [congruence |].
      destruct (receive_block_ok k task ticks Hu s Hs) as (r & s' & E & H' & Hr).
      rewrite (bind_done _ _ _ _ _ E). destruct r as [t |]; [| exists (errQUEUE_EMPTY, []), s'; auto].
      apply (IH (S k)); [| exact H']. destruct (decide (k = k0)) as [-> | Nk].
      * left. destruct (Hr Hx) as [| [= ->]]; [discriminate | split; [reflexivity | lia]].
      * right. exists k0. split; [lia | exact Hx].
  - destruct H as (s' & l' & E & H & S). rewrite (bind_done _ _ _ _ _ E). exists (pdPASS, x), s'.
    split; [reflexivity |]. split; [now apply steady_shape with s l' |]. left. split; [reflexivity |].
    destruct Hh as [r Hr]. pose proof (ring_items _ _ _ Hr 0%nat x eq_refl) as Hx.
    apply get_bytes_length in Hx. pose proof (ring_size _ _ _ Hr). cbn. lia.
Qed.

(** A call that may block returns by the time its wait expires (in iteration [k0] of its loop),
    whatever interrupts and other tasks do to the queue in between: [xQueueGenericSend] with the item in
    the queue or with [errQUEUE_FULL], [xQueueReceive] and [xQueuePeek] with an item or with
    [errQUEUE_EMPTY]; and it leaves a queue behind. *)
Theorem blocking_calls_return k0 n task item ticks pos s :
  undisturbed -> steady len size s -> Z.of_nat (length item) = size -> valid_position s pos ->
  expired k0 = true -> (k0 + 1 < n)%nat ->
  (exists st s', xQueueGenericSend wakes_higher disinherit before interrupt suspended expired n task (Some item)
                   ticks pos s = Done st s' /\ steady len size s' /\
     (st = pdPASS /\ sent pos item s' \/ st = errQUEUE_FULL)) /\
  (exists st data s', xQueueReceive wakes_higher before interrupt suspended expired n task true ticks s =
                      Done (st, data) s' /\ steady len size s' /\
     (st = pdPASS /\ Z.of_nat (length data) = size \/ st = errQUEUE_EMPTY /\ data = [])) /\
  (exists st data s', xQueuePeek wakes_higher before interrupt suspended expired n task true ticks s =
                      Done (st, data) s' /\ steady len size s' /\
     (st = pdPASS /\ Z.of_nat (length data) = size \/ st = errQUEUE_EMPTY /\ data = [])).
Proof.
  intros Hu Hs Hi Hpos Hx Hn. pose proof Hs as (l & Hh & E1 & E2). split; [| split].
  - unfold xQueueGenericSend. rewrite getq_bind, assertq_bind by reflexivity.
    rewrite assertq_bind by now apply overwrite_assert. cbn [default from_option id].
    apply send_loop_ok; auto.
    + intros ->. destruct Hpos as [H | [H | [_ H]]]; [discriminate | discriminate | congruence].
    + destruct Hpos as [-> | [-> | [-> _]]]; auto.
    + exists k0. split; [lia | exact Hx].
  - unfold xQueueReceive. rewrite getq_bind, assertq_bind by reflexivity.
    destruct (receive_loop_ok (receive_try wakes_higher) n task Hu) with (k := 0%nat) (ticks := ticks) (s := s)
      as ([st data] & s' & E & H' & H); auto.
    + intros t s1 l1 H1. pose proof (receive_try_ok wakes_higher s1 l1 t H1) as H. destruct l1; [exact H |].
      destruct H as (s2 & ? & ? & _ & ?). eauto.
    + right. exists k0. split; [lia | exact Hx].
    + exists st, data, s'. split; [exact E |]. split; [exact H' |]. destruct H as [H | [= -> ->]]; auto.
  - unfold xQueuePeek. rewrite getq_bind, assertq_bind by reflexivity.
    destruct (receive_loop_ok (peek_try wakes_higher) n task Hu) with (k := 0%nat) (ticks := ticks) (s := s)
      as ([st data] & s' & E & H' & H); auto.
    + intros t s1 l1 H1. pose proof (peek_try_ok wakes_higher s1 l1 t H1) as H. destruct l1; [exact H |].
      destruct H as (s2 & ? & ? & _ & ?). eauto.
    + right. exists k0. split; [lia | exact Hx].
    + exists st, data, s'. split; [exact E |]. split; [exact H' |]. destruct H as [H | [= -> ->]]; auto.
Qed.
End Waiting.

(** * No item is missed *)

(** What an interrupt may do to the queue. *)
Inductive isr_op : Type :=
| IsrSend (item : list Z) (pos : Z)
| IsrReceive
| IsrPeek.

Section Wakeup.
Variable wakes_higher : nat -> bool.
Variable disinherit : Z -> bool.
Variable tasks : Z.
Variable before : nat -> nat -> bool.
Hypothesis few_tasks : 1 <= tasks <= 127.

Definition run_isr (op : isr_op) : prog qstate unit :=
  match op with
  | IsrSend item pos => xQueueGenericSendFromISR wakes_higher disinherit tasks (Some item) pos ;; ret tt
  | IsrReceive => xQueueReceiveFromISR wakes_higher tasks true ;; ret tt
  | IsrPeek => xQueuePeekFromISR true ;; ret tt
  end.

Fixpoint run_isrs (ops : list isr_op) : prog qstate unit :=
  match ops with [] => ret tt | op :: ops' => run_isr op ;; run_isrs ops' end.

Definition isr_fits (s : qstate) (op : isr_op) : Prop :=
  match op with IsrSend item pos => item_of s item /\ valid_position s pos | _ => True end.

Lemma isr_fits_shape s s' op : same_shape s s' -> isr_fits s op -> isr_fits s' op.
Proof.
  intros [S1 S2 S3]. destruct op; cbn; [| auto ..]. unfold item_of, valid_position. now rewrite S2, S3.
Qed.

Definition lock_ok_range (lock : Z) : Prop := -1 <= lock <= 127.

Lemma counted_range lock : lock_ok_range lock -> lock <> queueUNLOCKED ->
  lock_ok_range (counted tasks lock) /\ 0 < counted tasks lock.
Proof.
  unfold lock_ok_range, counted, queueUNLOCKED. intros H N. rewrite u32_eq by lia.
  destruct (Z.ltb_spec lock tasks); lia.
Qed.

(** A queue on whose items [task] is not left waiting: nobody or only [task] is on the event list, and if
    it is there while the queue holds an item, the item is counted in the lock. *)
Record watched (task : nat) (s : qstate) (l : list (list Z)) : Prop := {
  wt_holds : holds s l;
  wt_rx : lock_ok_range (cRxLock (queue s));
  wt_tx : lock_ok_range (cTxLock (queue s));
  wt_receivers : xTasksWaitingToReceive (queue s) = [] \/ xTasksWaitingToReceive (queue s) = [task];
  wt_counted : xTasksWaitingToReceive (queue s) = [] \/ l = [] \/ 0 < cTxLock (queue s)
}.

(** The state between the test for emptiness and the entry on the event list. *)
Definition ready_to_wait (s : qstate) (l : list (list Z)) : Prop :=
  xTasksWaitingToReceive (queue s) = [] /\ cTxLock (queue s) <> queueUNLOCKED /\ (l = [] \/ 0 < cTxLock (queue s)).

(** What an interrupt does to a watched queue. *)
Lemma run_isr_ok task op s l : watched task s l -> isr_fits s op ->
  exists s' l', run_isr op s = Done tt s' /\ watched task s' l' /\ same_shape s s' /\
    (cTxLock (queue s) = queueUNLOCKED <-> cTxLock (queue s') = queueUNLOCKED) /\
    (xTasksWaitingToReceive (queue s) = [] -> xTasksWaitingToReceive (queue s') = []) /\
    (ready_to_wait s l -> ready_to_wait s' l').
Proof.
  intros [W1 W2 W3 W4 W5] Hf. destruct op as [item pos | |]; cbn [run_isr isr_fits] in *.
  - destruct Hf as [Hi Hp]. pose proof (isr_send_ok wakes_higher disinherit tasks few_tasks s l item pos W1 Hi Hp) as H.
    destruct (fifo_send _ pos item l) as [l' |].
    + destruct H as (b & s' & E & H & [I1 I2 I3 I4] & S). rewrite (bind_done _ _ _ _ _ E). exists s', l'.
      split; [reflexivity |]. destruct (Z.eqb_spec (cTxLock (queue s)) queueUNLOCKED) as [L | L].
      * destruct I1 as [I1 _]. assert (R : xTasksWaitingToReceive (queue s') = [])
          by (rewrite I1; destruct W4 as [-> | ->]; reflexivity).
        split; [constructor; auto; [now rewrite I3 | rewrite I4; unfold lock_ok_range, queueUNLOCKED; lia] |].
        split; [exact S |]. split; [rewrite L, I4; tauto |]. split; [auto |]. intros (_ & N & _). congruence.
      * destruct I1 as [I1 _]. destruct (counted_range _ W3 L) as [K1 K2].
        split; [constructor; rewrite ?I1, ?I3, ?I4; auto |]. split; [exact S |].
        rewrite I4, I1. unfold queueUNLOCKED in *. split; [split; [congruence | lia] |]. split; [auto |].
        intros (R1 & R2 & R3). unfold ready_to_wait, queueUNLOCKED. rewrite I1, I4. repeat split; [exact R1 | lia | now right].
    + rewrite (bind_done _ _ _ _ _ H). exists s, l. split; [reflexivity |]. split; [now constructor |].
      split; [by_contents |]. tauto.
  - pose proof (isr_receive_ok wakes_higher tasks few_tasks s l W1) as H. destruct l as [| x l'].
    + rewrite (bind_done _ _ _ _ _ H). exists s, []. split; [reflexivity |]. split; [now constructor |].
      split; [by_contents |]. tauto.
    + destruct H as (b & s' & E & H & [I1 I2 I3 I4] & S). rewrite (bind_done _ _ _ _ _ E). exists s', l'.
      split; [reflexivity |]. split; [| split; [exact S | rewrite I2, I3; split; [tauto |]; split; [auto |]]].
      * constructor; rewrite ?I2, ?I3, ?I4; auto.
        -- destruct (Z.eqb_spec (cRxLock (queue s)) queueUNLOCKED); [unfold lock_ok_range, queueUNLOCKED; lia |].
           now apply counted_range.
        -- destruct W5 as [W5 | [W5 | W5]]; [now left | discriminate | right; now right].
      * intros (R1 & R2 & [R3 | R3]); [discriminate |]. unfold ready_to_wait. rewrite I2, I3. auto.
  - pose proof (isr_peek_ok s l W1) as H. destruct l as [| x l'].
    + rewrite (bind_done _ _ _ _ _ H). exists s, []. split; [reflexivity |]. split; [now constructor |].
      split; [by_contents |]. tauto.
    + destruct H as (s' & E & H & [e1 e2 e3 e4 e5 e6] & S). rewrite (bind_done _ _ _ _ _ E). exists s', (x :: l').
      split; [reflexivity |]. split; [constructor; rewrite ?e2, ?e3, ?e4; auto |]. split; [exact S |].
      unfold ready_to_wait. rewrite e2, e4. tauto.
Qed.

Lemma run_isrs_ok task ops : forall s l, watched task s l -> Forall (isr_fits s) ops ->
  exists s' l', run_isrs ops s = Done tt s' /\ watched task s' l' /\ same_shape s s' /\
    (cTxLock (queue s) = queueUNLOCKED <-> cTxLock (queue s') = queueUNLOCKED) /\
    (xTasksWaitingToReceive (queue s) = [] -> xTasksWaitingToReceive (queue s') = []) /\
    (ready_to_wait s l -> ready_to_wait s' l').
Proof.
  induction ops as [| op ops IH]; intros s l Hw Hf; cbn [run_isrs].
  - exists s, l. split; [reflexivity |]. split; [exact Hw |]. split; [by_contents |]. tauto.
  - apply Forall_cons in Hf as [Ho Hf].
    destruct (run_isr_ok task op s l Hw Ho) as (s1 & l1 & E1 & W1 & S1 & T1 & V1 & Y1).
    assert (Hf1 : Forall (isr_fits s1) ops)
      by (eapply Forall_impl; [exact Hf | intros o; now apply isr_fits_shape]).
    destruct (IH s1 l1 W1 Hf1) as (s2 & l2 & E2 & W2 & S2 & T2 & V2 & Y2).
    rewrite (bind_done _ _ _ _ _ E1). exists s2, l2. split; [exact E2 |]. split; [exact W2 |].
    split; [now apply same_shape_trans with s1 |]. tauto.
Qed.

Lemma watched_lock task s l : watched task s l ->
  exists s', prvLockQueue s = Done tt s' /\ watched task s' l /\ same_shape s s' /\
    cTxLock (queue s') <> queueUNLOCKED /\ xTasksWaitingToReceive (queue s') = xTasksWaitingToReceive (queue s).
Proof.
  intros [W1 W2 W3 W4 W5]. destruct (lock_ok s) as (s' & E & C & [L1 L2 L3] & R & T). exists s'.
  split; [exact E |]. unfold lock_ok_range, queueUNLOCKED, queueLOCKED_UNMODIFIED in *.
  split; [| split; [apply C | split; [| exact L2]]].
  - constructor; unfold lock_ok_range; rewrite ?L2, ?R, ?T; auto.
    + now apply holds_contents with s.
    + destruct (cRxLock (queue s) =? -1); lia.
    + destruct (cTxLock (queue s) =? -1); lia.
    + destruct W5 as [W5 | [W5 | W5]]; auto. right. right. destruct (Z.eqb_spec (cTxLock (queue s)) (-1)); lia.
  - rewrite T. destruct (Z.eqb_spec (cTxLock (queue s)) (-1)); lia.
Qed.

Lemma watched_unlock_tx task s l : watched task s l ->
  exists s', unlock_tx wakes_higher s = Done tt s' /\ watched task s' l /\ same_shape s s' /\
    cTxLock (queue s') = queueUNLOCKED.
Proof.
  intros [W1 W2 W3 W4 W5]. destruct (unlock_tx_ok wakes_higher s) as (s' & E & C & R & T & V & D & _). exists s'.
  split; [exact E |]. split; [| split; [apply C | exact T]]. constructor; rewrite ?R, ?T, ?D; auto.
  - now apply holds_contents with s.
  - unfold lock_ok_range, queueUNLOCKED. lia.
  - destruct W4 as [-> | ->]; [left; apply drop_nil |]. destruct (Z.to_nat _); [now right | left; apply drop_nil].
  - destruct W5 as [-> | [-> | W5]]; [left; apply drop_nil | now right; left | left].
    destruct W4 as [-> | ->]; [apply drop_nil |].
    destruct (Z.to_nat (cTxLock (queue s))) eqn:En; [lia | apply drop_nil].
Qed.

Lemma watched_unlock_rx task s l : watched task s l ->
  exists s', unlock_rx wakes_higher s = Done tt s' /\ watched task s' l /\ same_shape s s' /\
    cTxLock (queue s') = cTxLock (queue s) /\ cRxLock (queue s') = queueUNLOCKED.
Proof.
  intros [W1 W2 W3 W4 W5]. destruct (unlock_rx_ok wakes_higher s) as (s' & E & C & T & R & V & D & _). exists s'.
  split; [exact E |]. split; [| split; [apply C | now split]]. constructor; rewrite ?R, ?T, ?V; auto.
  - now apply holds_contents with s.
  - unfold lock_ok_range, queueUNLOCKED. lia.
Qed.

(** Putting the task on the event list when it is ready to wait. *)
Lemma watched_place task s l : watched task s l -> ready_to_wait s l ->
  exists s', place_receiver before task s = Done tt s' /\ watched task s' l /\ same_shape s s'.
Proof.
  intros [W1 W2 W3 W4 W5] (R1 & R2 & R3). eexists. split; [reflexivity |]. split; [| by_contents].
  constructor; cbn; auto.
  - apply holds_contents with s; [exact W1 | by_contents].
  - rewrite R1. now right.
Qed.

(** The rest of [prvUnlockQueue], with interrupts in between. *)
Lemma watched_unlock task ops s l : watched task s l -> Forall (isr_fits s) ops ->
  exists s' l', prvUnlockQueue wakes_higher (run_isrs ops) s = Done tt s' /\ watched task s' l' /\
    cTxLock (queue s') = queueUNLOCKED /\ cRxLock (queue s') = queueUNLOCKED.
Proof.
  intros W Hf. unfold prvUnlockQueue. destruct (watched_unlock_tx task s l W) as (s1 & E1 & W1 & S1 & T1).
  assert (Hf1 : Forall (isr_fits s1) ops) by (eapply Forall_impl; [exact Hf | intros o; now apply isr_fits_shape]).
  destruct (run_isrs_ok task ops s1 l W1 Hf1) as (s2 & l2 & E2 & W2 & S2 & T2 & _).
  destruct (watched_unlock_rx task s2 l2 W2) as (s3 & E3 & W3 & S3 & T3 & R3).
  rewrite (bind_done _ _ _ _ _ E1), (bind_done _ _ _ _ _ E2). exists s3, l2. split; [exact E3 |].
  split; [exact W3 |]. split; [rewrite T3; now apply T2 | exact R3].
Qed.

(** C36: No wake-up is lost: a task that finds the queue empty and goes to sleep in [xQueueReceive],
    with interrupts sending, receiving and peeking at every point in between, is afterwards on the
    event list only if the queue is empty; an item posted at any moment has taken it off the list and
    made it ready. The queue is left unlocked. *)
Theorem blocked_receiver_woken task ticks s l (ops : nat -> list isr_op) :
  holds s l -> xTasksWaitingToReceive (queue s) = [] ->
  cTxLock (queue s) = queueUNLOCKED -> cRxLock (queue s) = queueUNLOCKED ->
  (forall i, Forall (isr_fits s) (ops i)) ->
  exists s' l',
    receive_block wakes_higher before (fun _ i => run_isrs (ops i)) (fun _ => ret tt) (fun _ => false) 0 task ticks s =
    Done (Some ticks) s' /\ holds s' l' /\
    cTxLock (queue s') = queueUNLOCKED /\ cRxLock (queue s') = queueUNLOCKED /\
    (xTasksWaitingToReceive (queue s') = [] \/ xTasksWaitingToReceive (queue s') = [task] /\ l' = []).
Proof.
  intros Hh Hr Ht Hx Hf. assert (W0 : watched task s l).
  { constructor; auto; rewrite ?Ht, ?Hx; unfold lock_ok_range, queueUNLOCKED; lia. }
  assert (Hf' : forall s' i, same_shape s s' -> Forall (isr_fits s') (ops i))
    by (intros s' i S; eapply Forall_impl; [apply Hf | intros o; now apply isr_fits_shape]).
  destruct (run_isrs_ok task (ops 0%nat) s l W0 (Hf 0%nat)) as (s1 & l1 & E1 & W1 & S1 & _ & V1 & _).
  destruct (watched_lock task s1 l1 W1) as (s2 & E2 & W2 & S2 & T2 & V2).
  assert (S02 : same_shape s s2) by now apply same_shape_trans with s1.
  destruct (run_isrs_ok task (ops 1%nat) s2 l1 W2 (Hf' s2 1%nat S02)) as (s3 & l3 & E3 & W3 & S3 & T3 & V3 & _).
  assert (S03 : same_shape s s3) by now apply same_shape_trans with s2.
  destruct (run_isrs_ok task (ops 2%nat) s3 l3 W3 (Hf' s3 2%nat S03)) as (s4 & l4 & E4 & W4 & S4 & T4 & V4 & Y4).
  assert (S04 : same_shape s s4) by now apply same_shape_trans with s3.
  unfold receive_block. rewrite (bind_done _ _ _ _ _ E1), (bind_done _ _ _ _ _ E2), (bind_done _ _ _ _ _ E3).
  cbn [negb]. unfold prvIsQueueEmpty. rewrite qbind_assoc, getq_bind, (holds_messages _ _ (wt_holds _ _ _ W3)).
  rewrite (bind_done (ret _) _ _ _ _ eq_refl), (bind_done _ _ _ _ _ E4).
  assert (Hfin : forall s9 l9, watched task s9 l9 -> cTxLock (queue s9) = queueUNLOCKED ->
     xTasksWaitingToReceive (queue s9) = [] \/ xTasksWaitingToReceive (queue s9) = [task] /\ l9 = []).
  { intros s9 l9 [_ _ _ K4 K5] K. rewrite K in K5. unfold queueUNLOCKED in K5.
    destruct K4 as [K4 | K4]; [now left |]. destruct K5 as [K5 | [K5 | K5]]; [now left | now right | lia]. }
  destruct (Z.eqb_spec (Z.of_nat (length l3)) 0) as [El | El].
  - assert (Y3 : ready_to_wait s3 l3).
    { split; [apply V3; rewrite V2; now apply V1 |]. split; [now rewrite <- T3 |]. left. destruct l3; [reflexivity | cbn in El; lia]. }
    destruct (watched_place task s4 l4 W4 (Y4 Y3)) as (s5 & E5 & W5 & S5).
    assert (S05 : same_shape s s5) by now apply same_shape_trans with s4.
    destruct (run_isrs_ok task (ops 3%nat) s5 l4 W5 (Hf' s5 3%nat S05)) as (s6 & l6 & E6 & W6 & S6 & _).
    assert (S06 : same_shape s s6) by now apply same_shape_trans with s5.
    destruct (watched_unlock task (ops 4%nat) s6 l6 W6 (Hf' s6 4%nat S06)) as (s7 & l7 & E7 & W7 & T7 & R7).
    rewrite (bind_done _ _ _ _ _ E5), (bind_done _ _ _ _ _ E6), (bind_done _ _ _ _ _ E7).
    exists s7, l7. split; [reflexivity |]. split; [apply W7 |]. auto.
  - destruct (watched_unlock task (ops 3%nat) s4 l4 W4 (Hf' s4 3%nat S04)) as (s7 & l7 & E7 & W7 & T7 & R7).
    rewrite (bind_done _ _ _ _ _ E7). exists s7, l7. split; [reflexivity |]. split; [apply W7 |]. auto.
Qed.
End Wakeup.
