(* ===== verification/QueueApp.v ===== *)
(** The queues of the application ([App]) on top of the queues of FreeRTOS ([Queue]): the list functions
    [App] uses for its three queues of buffer pointers are what the ring buffers of [queue.c] do; and
    instances of the theorems on queues at such a queue. *)
From Stdlib Require Import ZArith Lia Bool.
From stdpp Require Import base decidable list gmap.
From S2P Require Import Prelude Queue QueueProofs QueueSpec QueueBlocking App.

Definition sizeof_eth_packet_buff_t : Z := 1602.

(** The four bytes of [&eth_packets[b]], for [eth_packets] at [base]. *)
Definition pointer_bytes (base : Z) (b : nat) : list Z :=
  let a := base + sizeof_eth_packet_buff_t * Z.of_nat b in
  [a mod 256; (a / 256) mod 256; (a / 65536) mod 256; (a / 16777216) mod 256].

Section AppQueue.
Variable wakes_higher : nat -> bool.
Variable disinherit : Z -> bool.
Variable before : nat -> nat -> bool.
Variable interrupt : nat -> nat -> prog qstate unit.
Variable suspended : nat -> prog qstate unit.
Variable expired : nat -> bool.
Variable base : Z.

(** C37: The queues of the application model are implemented by [queue.c]: on a queue of
    [MAX_ETH_PACKETS] pointers, [xQueueGenericSend] and [xQueueReceive] without waiting are the functions
    [App.xQueueSend] and [App.xQueueReceive] on the list of buffers the queue holds, success and failure
    included, and leave such a queue again. *)
Theorem app_queue_implemented n task (q : list nat) b s :
  holds s (pointer_bytes base <$> q) -> uxLength (queue s) = Z.of_nat MAX_ETH_PACKETS -> uxItemSize (queue s) = 4 ->
  match App.xQueueSend q b with
  | Some q' => exists s',
      xQueueGenericSend wakes_higher disinherit before interrupt suspended expired (S n) task
        (Some (pointer_bytes base b)) 0 queueSEND_TO_BACK s = Done pdPASS s' /\ holds s' (pointer_bytes base <$> q')
  | None =>
      xQueueGenericSend wakes_higher disinherit before interrupt suspended expired (S n) task
        (Some (pointer_bytes base b)) 0 queueSEND_TO_BACK s = Done errQUEUE_FULL s
  end /\
  match App.xQueueReceive q with
  | Some (b', q') => exists s',
      Queue.xQueueReceive wakes_higher before interrupt suspended expired (S n) task true 0 s =
      Done (pdPASS, pointer_bytes base b') s' /\ holds s' (pointer_bytes base <$> q')
  | None =>
      Queue.xQueueReceive wakes_higher before interrupt suspended expired (S n) task true 0 s =
      Done (errQUEUE_EMPTY, []) s
  end.
Proof.
  intros Hh Hl Hs. split.
  - assert (Hi : item_of s (pointer_bytes base b)) by (unfold item_of; now rewrite Hs).
    pose proof (send_try_ok wakes_higher disinherit s _ (pointer_bytes base b) queueSEND_TO_BACK 0 Hh Hi ltac:(now left)) as H.
    unfold xQueueGenericSend. rewrite getq_bind, !assertq_bind by reflexivity. cbn [send_loop default from_option id].
    unfold fifo_send in H. change (queueSEND_TO_BACK =? queueOVERWRITE) with false in H.
    change (queueSEND_TO_BACK =? queueSEND_TO_BACK) with true in H. cbv iota in H.
    rewrite Hl, length_fmap in H. unfold App.xQueueSend.
    destruct (Nat.ltb_spec (length q) MAX_ETH_PACKETS) as [L | L];
      destruct (Z.ltb_spec (Z.of_nat (length q)) (Z.of_nat MAX_ETH_PACKETS)); try lia.
    + destruct H as (s' & E & H & _). rewrite (bind_done _ _ _ _ _ E). exists s'. split; [reflexivity |].
      now rewrite fmap_app.
    + now rewrite (bind_done _ _ _ _ _ H).
  - pose proof (receive_try_ok wakes_higher s _ 0 Hh) as H.
    unfold Queue.xQueueReceive. rewrite getq_bind, !assertq_bind by reflexivity. cbn [receive_loop].
    destruct q as [| b' q]; cbn [fmap list_fmap App.xQueueReceive] in *.
    + now rewrite (bind_done _ _ _ _ _ H).
    + destruct H as (s' & E & H & _). rewrite (bind_done _ _ _ _ _ E). now exists s'.
Qed.
End AppQueue.

(** * A concrete queue *)

Definition ex_storage : Z := 0x20000000.
Definition ex_structure : Z := 0x20000100.
Definition ex_empty_structure : Queue_t := mk_queue 0 0 0 0 [] [] 0 0 0 0 0.
Definition ex_memory : gmap Z Z := put_bytes ex_storage (repeat 0 32) ∅.
Definition ex_state : qstate := mk_qstate ex_empty_structure ex_memory [] false.

Definition q_after {A} (r : outcome qstate A) : qstate := match r with Done _ s => s | _ => ex_state end.
Definition ex_high (t : nat) : bool := (2 <? t)%nat.
Definition ex_disinherit (t : Z) : bool := false.
Definition ex_before (t u : nat) : bool := (u <=? t)%nat.
Definition ex_quiet (k i : nat) : prog qstate unit := ret tt.

(** A new queue of eight pointers, and the same queue after two sends and a receive. *)
Definition ex_queue0 : qstate := q_after (xQueueGenericCreateStatic ex_high 8 4 ex_storage ex_structure ex_state).
Definition ex_ops : prog qstate (option (Z * list Z)) :=
  send_try ex_high ex_disinherit [1; 2; 3; 4] 0 queueSEND_TO_BACK ;;
  send_try ex_high ex_disinherit [5; 6; 7; 8] 0 queueSEND_TO_BACK ;;
  receive_try ex_high 0.
Definition ex_queue1 : qstate := q_after (ex_ops ex_queue0).

Definition ex_pointer : list Z := pointer_bytes 0x20001000 3.

Definition slots_readable (s : qstate) : bool :=
  forallb (fun i => bool_decide (is_Some (get_bytes (slot (queue s) i) (Z.to_nat (uxItemSize (queue s))) (memory s))))
    (zrange (Z.to_nat (uxLength (queue s)))).

Lemma slots_check s : slots_readable s = true -> forall i, 0 <= i < uxLength (queue s) ->
  is_Some (get_bytes (slot (queue s) i) (Z.to_nat (uxItemSize (queue s))) (memory s)).
Proof.
  intros H i Hi. assert (E := zrange_forallb _ _ i H ltac:(lia)). now apply bool_decide_eq_true_1 in E.
Qed.

Lemma ex_queue0_value : queue ex_queue0 =
  mk_queue 0x20000000 0x20000000 0x20000020 0x2000001c [] [] 0 8 4 queueUNLOCKED queueUNLOCKED.
Proof. vm_compute. reflexivity. Qed.

Lemma ex_queue1_value : queue ex_queue1 =
  mk_queue 0x20000000 0x20000008 0x20000020 0x20000000 [] [] 1 8 4 queueUNLOCKED queueUNLOCKED.
Proof. vm_compute. reflexivity. Qed.

Lemma ex_slots0 : slots_readable ex_queue0 = true.
Proof. vm_compute. reflexivity. Qed.

Lemma ex_slots1 : slots_readable ex_queue1 = true.
Proof. vm_compute. reflexivity. Qed.

Lemma ex_item1 : get_bytes 0x20000004 4 (memory ex_queue1) = Some [5; 6; 7; 8].
Proof. vm_compute. reflexivity. Qed.

Lemma ex_holds0 : holds ex_queue0 [].
Proof.
  exists 7. constructor; try (rewrite ex_queue0_value; unfold slot; cbn; first [reflexivity | lia]).
  - intros i x Hx. discriminate.
  - apply slots_check, ex_slots0.
Qed.

Lemma ex_holds1 : holds ex_queue1 [[5; 6; 7; 8]].
Proof.
  exists 0. constructor; try (rewrite ex_queue1_value; unfold slot; cbn; first [reflexivity | lia]).
  - intros [| i] x Hx; [injection Hx as <- | discriminate]. rewrite ex_queue1_value. exact ex_item1.
  - apply slots_check, ex_slots1.
Qed.

Definition ex_actions : list action :=
  [AReceive 0; ASendFromISR [1; 1; 1; 1]; ALock; ASendFromISR [2; 2; 2; 2]; AReceiveFromISR; AUnlockTx; AUnlockRx].

Lemma ex_actions_fit : Forall (fits (uxItemSize (queue ex_queue1))) ex_actions.
Proof. rewrite ex_queue1_value. unfold ex_actions. repeat constructor. Qed.

Lemma queue_fifo_witness :
  exists accepted taken s' l', run_actions ex_high ex_disinherit 5 ex_before ex_actions ex_queue1 = Done (accepted, taken) s' /\
    holds s' l' /\ [[5; 6; 7; 8]] ++ accepted = taken ++ l'.
Proof.
  destruct (queue_fifo ex_high ex_disinherit 5 ex_before ltac:(lia) ex_actions ex_queue1 _ ex_holds1 ex_actions_fit)
    as (i & o & s' & l' & E & H & El & _).
  exists i, o, s', l'. exact (conj E (conj H El)).
Defined.

Definition ex_readable (i : Z) : bool := bool_decide (is_Some (get_bytes (ex_storage + i * 4) (Z.to_nat 4) ex_memory)).

Lemma ex_all_readable : forallb ex_readable (zrange 8) = true.
Proof. vm_compute. reflexivity. Qed.

Lemma queue_create_static_witness :
  exists s', xQueueGenericCreateStatic ex_high 8 4 ex_storage ex_structure ex_state = Done ex_structure s' /\
    holds s' [].
Proof.
  destruct (queue_create_static ex_high 8 4 ex_storage ex_structure ex_state) as [(s' & E & H & _) _];
    [lia | unfold ex_storage; lia | unfold ex_storage; lia | unfold ex_structure; lia | | exists s'; exact (conj E H)].
  intros i Hi. exact (bool_decide_eq_true_1 _ (zrange_forallb _ _ i ex_all_readable Hi)).
Defined.

Lemma xQueueGenericSend_poll_witness :
  exists s', xQueueGenericSend ex_high ex_disinherit ex_before ex_quiet (fun _ => ret tt) (fun _ => false) 1 0
               (Some [9; 9; 9; 9]) 0 queueSEND_TO_FRONT ex_queue1 = Done pdPASS s' /\
    holds s' [[9; 9; 9; 9]; [5; 6; 7; 8]].
Proof.
  assert (G : forall s, holds s [[5; 6; 7; 8]] -> uxLength (queue s) = 8 -> item_of s [9; 9; 9; 9] -> exists s',
    xQueueGenericSend ex_high ex_disinherit ex_before ex_quiet (fun _ => ret tt) (fun _ => false) 1 0
      (Some [9; 9; 9; 9]) 0 queueSEND_TO_FRONT s = Done pdPASS s' /\ holds s' [[9; 9; 9; 9]; [5; 6; 7; 8]]).
  { intros s Hs Hl Hi. pose proof (xQueueGenericSend_poll ex_high ex_disinherit ex_before ex_quiet (fun _ => ret tt)
      (fun _ => false) 0 0 s _ [9; 9; 9; 9] queueSEND_TO_FRONT Hs Hi ltac:(right; now left)) as P. rewrite Hl in P.
    destruct P as (s' & E & H & _). exists s'. exact (conj E H). }
  apply G; [exact ex_holds1 | now rewrite ex_queue1_value | unfold item_of; now rewrite ex_queue1_value].
Defined.

Lemma xQueueReceive_poll_witness :
  (exists s', Queue.xQueueReceive ex_high ex_before ex_quiet (fun _ => ret tt) (fun _ => false) 1 0 true 0 ex_queue1 =
    Done (pdPASS, [5; 6; 7; 8]) s' /\ holds s' []) /\
  Queue.xQueueReceive ex_high ex_before ex_quiet (fun _ => ret tt) (fun _ => false) 1 0 true 0 ex_queue0 =
    Done (errQUEUE_EMPTY, []) ex_queue0.
Proof.
  split.
  - destruct (xQueueReceive_poll ex_high ex_before ex_quiet (fun _ => ret tt) (fun _ => false) 0 0 ex_queue1 _ ex_holds1)
      as [(s' & E & H & _) _]. exists s'. exact (conj E H).
  - exact (proj1 (xQueueReceive_poll ex_high ex_before ex_quiet (fun _ => ret tt) (fun _ => false) 0 0 ex_queue0 _ ex_holds0)).
Defined.

Lemma ex_undisturbed : undisturbed ex_quiet (fun _ => ret tt) 8 4.
Proof. split; intros; intros s H; exists tt, s; split; auto. Qed.

Lemma ex_steady : steady 8 4 ex_queue0.
Proof. exists []. split; [exact ex_holds0 | vm_compute; auto]. Qed.

Lemma blocking_calls_return_witness :
  exists st data s', Queue.xQueueReceive ex_high ex_before ex_quiet (fun _ => ret tt) (fun k => (3 <=? k)%nat) 5 0 true 10
      ex_queue0 = Done (st, data) s' /\ steady 8 4 s'.
Proof.
  destruct (blocking_calls_return ex_high ex_disinherit ex_before ex_quiet (fun _ => ret tt) (fun k => (3 <=? k)%nat) 8 4
              3 5 0 [1; 2; 3; 4] 10 queueSEND_TO_BACK ex_queue0 ex_undisturbed ex_steady eq_refl ltac:(now left) eq_refl
              ltac:(lia)) as (_ & (st & data & s' & E & H & _) & _).
  exists st, data, s'. exact (conj E H).
Defined.

Definition ex_isrs (i : nat) : list isr_op :=
  match i with 3%nat => [IsrSend [7; 7; 7; 7] queueSEND_TO_BACK] | _ => [] end.

Lemma blocked_receiver_woken_witness :
  exists s' l',
    receive_block ex_high ex_before (fun _ i => run_isrs ex_high ex_disinherit 5 (ex_isrs i)) (fun _ => ret tt)
      (fun _ => false) 0 1 10 ex_queue0 = Done (Some 10) s' /\ holds s' l' /\
    (xTasksWaitingToReceive (queue s') = [] \/ xTasksWaitingToReceive (queue s') = [1%nat] /\ l' = []).
Proof.
  destruct (blocked_receiver_woken ex_high ex_disinherit 5 ex_before ltac:(lia) 1 10 ex_queue0 [] ex_isrs ex_holds0
              ltac:(vm_compute; reflexivity) ltac:(vm_compute; reflexivity) ltac:(vm_compute; reflexivity))
    as (s' & l' & E & H & _ & _ & W); [| exists s', l'; exact (conj E (conj H W))].
  intros i. unfold ex_isrs. destruct i as [| [| [| [| i]]]]; repeat constructor; try (vm_compute; reflexivity).
Defined.

Lemma app_queue_implemented_witness :
  exists s', xQueueGenericSend ex_high ex_disinherit ex_before ex_quiet (fun _ => ret tt) (fun _ => false) 1 0
               (Some ex_pointer) 0 queueSEND_TO_BACK ex_queue0 = Done pdPASS s' /\ holds s' [ex_pointer].
Proof.
  destruct (app_queue_implemented ex_high ex_disinherit ex_before ex_quiet (fun _ => ret tt) (fun _ => false) 0x20001000
              0 0 [] 3 ex_queue0 ex_holds0) as [(s' & E & H) _];
    [now rewrite ex_queue0_value | now rewrite ex_queue0_value | exists s'; exact (conj E H)].
Defined.
