(* ===== verification/KernelList.v ===== *)
(** FreeRTOS lists, [FreeRTOS/list.c], the lists the scheduler and the queues keep their tasks in.

    A list is circular and doubly linked; its end marker, a mini list item inside the list structure, is
    one of the nodes. The model has the list items and the list structures in memory, by address; the
    integrity check bytes are configured off. *)
From Stdlib Require Import ZArith Lia Bool.
From stdpp Require Import base decidable list gmap.
From S2P Require Import Prelude.

Definition portMAX_DELAY : Z := 0xffffffff.

Record ListItem_t : Type := mk_item {
  xItemValue : Z;
  pxNext : Z;
  pxPrevious : Z;
  pvOwner : Z;
  pxContainer : Z
}.

(** The list structure without its end marker. *)
Record List_t : Type := mk_list { uxNumberOfItems : Z; pxIndex : Z }.

(** [&pxList->xListEnd], behind the count and the index. *)
Definition xListEnd (pxList : Z) : Z := pxList + 8.

Record lstate : Type := mk_lstate { items : gmap Z ListItem_t; lists : gmap Z List_t }.

Definition item_next (v : Z) (i : ListItem_t) : ListItem_t :=
  mk_item (xItemValue i) v (pxPrevious i) (pvOwner i) (pxContainer i).
Definition item_previous (v : Z) (i : ListItem_t) : ListItem_t :=
  mk_item (xItemValue i) (pxNext i) v (pvOwner i) (pxContainer i).
Definition item_value (v : Z) (i : ListItem_t) : ListItem_t :=
  mk_item v (pxNext i) (pxPrevious i) (pvOwner i) (pxContainer i).
Definition item_container (v : Z) (i : ListItem_t) : ListItem_t :=
  mk_item (xItemValue i) (pxNext i) (pxPrevious i) (pvOwner i) v.
Definition list_count (n : Z) (l : List_t) : List_t := mk_list n (pxIndex l).
Definition list_index (p : Z) (l : List_t) : List_t := mk_list (uxNumberOfItems l) p.

Definition load_item (a : Z) : prog lstate ListItem_t := fun s =>
  match items s !! a with Some i => Done i s | None => Undefined end.
Definition store_item (a : Z) (f : ListItem_t -> ListItem_t) : prog lstate unit := fun s =>
  match items s !! a with
  | Some i => Done tt (mk_lstate (<[a := f i]> (items s)) (lists s))
  | None => Undefined
  end.
Definition load_list (a : Z) : prog lstate List_t := fun s =>
  match lists s !! a with Some l => Done l s | None => Undefined end.
Definition store_list (a : Z) (f : List_t -> List_t) : prog lstate unit := fun s =>
  match lists s !! a with
  | Some l => Done tt (mk_lstate (items s) (<[a := f l]> (lists s)))
  | None => Undefined
  end.

Definition vListInitialise (pxList : Z) : prog lstate unit :=
  let e := xListEnd pxList in
  store_list pxList (list_index e) ;;
  store_item e (item_value portMAX_DELAY) ;;
  store_item e (item_next e) ;;
  store_item e (item_previous e) ;;
  store_list pxList (list_count 0).

Definition vListInitialiseItem (pxItem : Z) : prog lstate unit := store_item pxItem (item_container 0).

Definition vListInsertEnd (pxList pxNewListItem : Z) : prog lstate unit :=
  l <- load_list pxList ;;
  let pxIndex := pxIndex l in
  store_item pxNewListItem (item_next pxIndex) ;;
  i <- load_item pxIndex ;;
  store_item pxNewListItem (item_previous (pxPrevious i)) ;;
  i <- load_item pxIndex ;;
  store_item (pxPrevious i) (item_next pxNewListItem) ;;
  store_item pxIndex (item_previous pxNewListItem) ;;
  store_item pxNewListItem (item_container pxList) ;;
  l <- load_list pxList ;;
  store_list pxList (list_count (u32 (uxNumberOfItems l + 1))).

(** The search of [vListInsert]. *)
Fixpoint insert_position (n : nat) (pxIterator xValueOfInsertion : Z) : prog lstate Z :=
  match n with
  | O => out_of_fuel
  | S n' =>
    i <- load_item pxIterator ;;
    j <- load_item (pxNext i) ;;
    if xItemValue j <=? xValueOfInsertion then insert_position n' (pxNext i) xValueOfInsertion
    else ret pxIterator
  end.

Definition vListInsert (n : nat) (pxList pxNewListItem : Z) : prog lstate unit :=
  new <- load_item pxNewListItem ;;
  let xValueOfInsertion := xItemValue new in
  pxIterator <-
    (if xValueOfInsertion =? portMAX_DELAY
     then e <- load_item (xListEnd pxList) ;; ret (pxPrevious e)
     else insert_position n (xListEnd pxList) xValueOfInsertion) ;;
  i <- load_item pxIterator ;;
  store_item pxNewListItem (item_next (pxNext i)) ;;
  new <- load_item pxNewListItem ;;
  store_item (pxNext new) (item_previous pxNewListItem) ;;
  store_item pxNewListItem (item_previous pxIterator) ;;
  store_item pxIterator (item_next pxNewListItem) ;;
  store_item pxNewListItem (item_container pxList) ;;
  l <- load_list pxList ;;
  store_list pxList (list_count (u32 (uxNumberOfItems l + 1))).

Definition uxListRemove (pxItemToRemove : Z) : prog lstate Z :=
  i <- load_item pxItemToRemove ;;
  let pxList := pxContainer i in
  store_item (pxNext i) (item_previous (pxPrevious i)) ;;
  i <- load_item pxItemToRemove ;;
  store_item (pxPrevious i) (item_next (pxNext i)) ;;
  l <- load_list pxList ;;
  i <- load_item pxItemToRemove ;;
  (if pxIndex l =? pxItemToRemove then store_list pxList (list_index (pxPrevious i)) else ret tt) ;;
  store_item pxItemToRemove (item_container 0) ;;
  l <- load_list pxList ;;
  store_list pxList (list_count (u32 (uxNumberOfItems l - 1))) ;;
  l <- load_list pxList ;;
  ret (uxNumberOfItems l).

(** The macros of [list.h] that read a list. *)
Definition listGET_HEAD_ENTRY (pxList : Z) : prog lstate Z := e <- load_item (xListEnd pxList) ;; ret (pxNext e).
Definition listGET_OWNER_OF_HEAD_ENTRY (pxList : Z) : prog lstate Z :=
  e <- load_item (xListEnd pxList) ;; i <- load_item (pxNext e) ;; ret (pvOwner i).
Definition listCURRENT_LIST_LENGTH (pxList : Z) : prog lstate Z := l <- load_list pxList ;; ret (uxNumberOfItems l).

(** Round robin: the index moves to the next item, past the end marker. *)
Definition listGET_OWNER_OF_NEXT_ENTRY (pxList : Z) : prog lstate Z :=
  l <- load_list pxList ;;
  i <- load_item (pxIndex l) ;;
  store_list pxList (list_index (pxNext i)) ;;
  (if pxNext i =? xListEnd pxList then
     e <- load_item (xListEnd pxList) ;;
     store_list pxList (list_index (pxNext e))
   else ret tt) ;;
  l <- load_list pxList ;;
  i <- load_item (pxIndex l) ;;
  ret (pvOwner i).
