(* ===== verification/KernelListProofs.v ===== *)
(** The lists of [KernelList] are sequences of items.

    [is_list s p l] says that the list at [p] links the items [l], in this order, into a circle through
    its end marker. Insertion and removal are insertion and removal in the sequence; [vListInsert] puts
    an item behind all items whose value is not larger, which keeps the sequence sorted. *)
From Stdlib Require Import ZArith Lia Bool.
From stdpp Require Import base decidable list gmap sorting.
From S2P Require Import Prelude KernelList.

Definition nextp (s : lstate) (a : Z) : option Z := pxNext <$> items s !! a.
Definition prevp (s : lstate) (a : Z) : option Z := pxPrevious <$> items s !! a.
Definition valuep (s : lstate) (a : Z) : option Z := xItemValue <$> items s !! a.

(** The nodes [l] lie between [x] and [y]. *)
Fixpoint chain (s : lstate) (x : Z) (l : list Z) (y : Z) : Prop :=
  match l with
  | [] => nextp s x = Some y /\ prevp s y = Some x
  | a :: l' => nextp s x = Some a /\ prevp s a = Some x /\ chain s a l' y
  end.

Definition lastof (x : Z) (l : list Z) : Z := List.last l x.

Record is_list (s : lstate) (p : Z) (l : list Z) : Prop := {
  il_chain : chain s (xListEnd p) l (xListEnd p);
  il_distinct : NoDup (xListEnd p :: l);
  il_end : valuep s (xListEnd p) = Some portMAX_DELAY;
  il_items : Forall (fun a => exists i, items s !! a = Some i /\ pxContainer i = p /\
                                        0 <= xItemValue i <= portMAX_DELAY) l;
  il_head : exists h, lists s !! p = Some h /\ uxNumberOfItems h = Z.of_nat (length l) /\
                      pxIndex h ∈ xListEnd p :: l;
  il_size : Z.of_nat (length l) < 4294967296
}.

Lemma lastof_cons x a l : lastof x (a :: l) = lastof a l.
Proof. unfold lastof. revert x a. induction l as [| b l IH]; intros x a; [reflexivity |].
  transitivity (List.last (b :: l) x); [reflexivity | now rewrite (IH x b), (IH a b)].
Qed.

Lemma lastof_in x l : lastof x l ∈ x :: l.
Proof.
  revert x. induction l as [| a l IH]; intros x; [left |]. rewrite lastof_cons. right. apply IH.
Qed.

Lemma lastof_snoc x l a : lastof x (l ++ [a]) = a.
Proof. apply last_last. Qed.

Lemma chain_app s l1 a l2 : forall x y, chain s x (l1 ++ a :: l2) y <-> chain s x l1 a /\ chain s a l2 y.
Proof. induction l1 as [| b l1 IH]; intros x y; cbn; [tauto |]. rewrite IH. tauto. Qed.

(** A chain only depends on the links it follows. *)
Lemma chain_frame s s' l : forall x y, (forall a, a ∈ x :: l -> nextp s' a = nextp s a) ->
  (forall a, a ∈ l ++ [y] -> prevp s' a = prevp s a) -> chain s x l y -> chain s' x l y.
Proof.
  induction l as [| b l IH]; intros x y Hn Hp; cbn.
  - rewrite Hn by left. rewrite Hp by left. auto.
  - intros (H1 & H2 & H3). rewrite Hn by left. rewrite Hp by (cbn; left). split; [exact H1 |]. split; [exact H2 |].
    apply IH; [| | exact H3].
    + intros a Ha. apply Hn. now right.
    + intros a Ha. apply Hp. cbn. now right.
Qed.

(** Changing where a chain ends. *)
Lemma chain_retarget s s' l y n : forall x, NoDup (x :: l) -> chain s x l y ->
  (forall a, a ∈ x :: l -> a <> lastof x l -> nextp s' a = nextp s a) ->
  (forall a, a ∈ l -> prevp s' a = prevp s a) ->
  nextp s' (lastof x l) = Some n -> prevp s' n = Some (lastof x l) -> chain s' x l n.
Proof.
  induction l as [| b l IH]; intros x Hnd; cbn [chain]; [auto |].
  intros (H1 & H2 & H3) Hn Hp. rewrite lastof_cons in *. intros E1 E2.
  apply NoDup_cons in Hnd as [Hx Hnd].
  assert (Nx : x <> lastof b l) by (intros ->; apply Hx, lastof_in).
  rewrite Hn by (exact Nx || left). rewrite Hp by left. split; [exact H1 |]. split; [exact H2 |].
  apply IH; auto.
  - intros a Ha. apply Hn. now right.
  - intros a Ha. apply Hp. now right.
Qed.

(** The list_neighbours of a position. *)
Lemma chain_next s l y : forall x, chain s x l y -> nextp s x = Some (List.hd y l).
Proof. destruct l; cbn; tauto. Qed.

Lemma chain_next_last s l y : forall x, chain s x l y -> nextp s (lastof x l) = Some y.
Proof.
  induction l as [| b l IH]; intros x; cbn [chain]; [tauto |]. rewrite lastof_cons. intros (_ & _ & H). now apply IH.
Qed.

Lemma chain_prev s l y : forall x, chain s x l y -> prevp s y = Some (lastof x l).
Proof.
  induction l as [| b l IH]; intros x; cbn [chain]; [tauto |]. rewrite lastof_cons. intros (_ & _ & H). now apply IH.
Qed.

Lemma chain_split s e pre post y : chain s e (pre ++ post) y ->
  chain s e pre (List.hd y post) /\
  match post with [] => True | a :: post' => chain s a post' y end.
Proof.
  destruct post as [| a post]; cbn; [now rewrite app_nil_r |]. intros H. now apply chain_app in H.
Qed.

(** Linking a new node [n] between [pre] and [post]. *)
Lemma chain_insert s s' e pre post n : NoDup (e :: pre ++ post) -> n ∉ e :: pre ++ post ->
  chain s e (pre ++ post) e ->
  let u := lastof e pre in let v := List.hd e post in
  nextp s' u = Some n -> prevp s' n = Some u -> nextp s' n = Some v -> prevp s' v = Some n ->
  (forall a, a <> u -> a <> n -> nextp s' a = nextp s a) ->
  (forall a, a <> v -> a <> n -> prevp s' a = prevp s a) ->
  chain s' e (pre ++ n :: post) e.
Proof.
  intros Hnd Hn Hc u v E1 E2 E3 E4 Fn Fp. apply chain_split in Hc as [Hc1 Hc2]. fold v in Hc1.
  apply NoDup_cons in Hnd as [He Hnd]. apply NoDup_app in Hnd as (Hnd1 & Hdis & Hnd2).
  rewrite elem_of_cons, elem_of_app in Hn. rewrite elem_of_app in He.
  apply chain_app. split.
  - apply chain_retarget with (s := s) (y := v); auto.
    + constructor; tauto.
    + intros a Ha N. apply Fn; [exact N |]. apply elem_of_cons in Ha. intros ->. tauto.
    + intros a Ha. apply Fp.
      * intros ->. unfold v in *. destruct post as [| w post]; cbn in *; [tauto |]. apply (Hdis _ Ha). left.
      * intros ->. tauto.
  - destruct post as [| w post]; cbn in *; [auto |]. split; [exact E3 |]. split; [exact E4 |].
    apply NoDup_cons in Hnd2 as [Hw Hnd2].
    apply chain_frame with (s := s); [| | exact Hc2].
    + intros a Ha. apply Fn.
      * intros ->. pose proof (lastof_in e pre) as Hu. fold u in Hu. apply elem_of_cons in Hu as [-> | Hu]; [tauto |].
        exact (Hdis _ Hu Ha).
      * intros ->. tauto.
    + intros a Ha. apply elem_of_app in Ha. rewrite list_elem_of_singleton in Ha. apply Fp.
      * intros ->. destruct Ha as [Ha | ->]; [tauto |]. apply He. right. left.
      * intros ->. destruct Ha as [Ha | ->]; [apply Hn; right; right; now right | tauto].
Qed.

(** Unlinking [n]. *)
Lemma chain_remove s s' e pre post n : NoDup (e :: pre ++ n :: post) -> chain s e (pre ++ n :: post) e ->
  let u := lastof e pre in let v := List.hd e post in
  nextp s' u = Some v -> prevp s' v = Some u ->
  (forall a, a <> u -> nextp s' a = nextp s a) -> (forall a, a <> v -> prevp s' a = prevp s a) ->
  chain s' e (pre ++ post) e.
Proof.
  intros Hnd Hc u v E1 E2 Fn Fp. apply chain_app in Hc as [Hc1 Hc2].
  apply NoDup_cons in Hnd as [He Hnd]. apply NoDup_app in Hnd as (Hnd1 & Hdis & Hnd2).
  apply NoDup_cons in Hnd2 as [Hn Hnd2]. rewrite elem_of_app, elem_of_cons in He.
  assert (H : chain s' e pre v).
  { apply chain_retarget with (s := s) (y := n); auto.
    - constructor; tauto.
    - intros a Ha. apply Fp. intros ->. unfold v in *. destruct post as [| w post]; cbn in *; [tauto |].
      apply (Hdis _ Ha). right. left. }
  destruct post as [| w post]; [now rewrite app_nil_r |]. apply chain_app. split; [exact H |].
  apply NoDup_cons in Hnd2 as [Hw Hnd2]. cbn in Hc2. destruct Hc2 as (_ & _ & Hc2).
  apply chain_frame with (s := s); [| | exact Hc2].
  - intros a Ha. apply Fn. intros ->. pose proof (lastof_in e pre) as Hu. fold u in Hu.
    apply elem_of_cons in Hu as [-> | Hu]; [tauto |]. apply (Hdis _ Hu). now right.
  - intros a Ha. apply elem_of_app in Ha. rewrite list_elem_of_singleton in Ha. apply Fp. cbn in v. unfold v.
    intros ->. destruct Ha as [Ha | ->]; [tauto |]. apply He. right. right. left.
Qed.

(** * Running the operations *)

Definition restp (s : lstate) (a : Z) : option (Z * Z * Z) :=
  (fun i => (xItemValue i, pvOwner i, pxContainer i)) <$> items s !! a.

Lemma load_item_bind {B} s a i (k : ListItem_t -> prog lstate B) :
  items s !! a = Some i -> bind (load_item a) k s = k i s.
Proof. intros E. unfold bind, load_item. now rewrite E. Qed.

Lemma load_list_bind {B} s a l (k : List_t -> prog lstate B) :
  lists s !! a = Some l -> bind (load_list a) k s = k l s.
Proof. intros E. unfold bind, load_list. now rewrite E. Qed.

Lemma store_item_bind {B} s a f i (k : unit -> prog lstate B) :
  items s !! a = Some i -> bind (store_item a f) k s = k tt (mk_lstate (<[a := f i]> (items s)) (lists s)).
Proof. intros E. unfold bind, store_item. now rewrite E. Qed.

Lemma store_list_run s a f l : lists s !! a = Some l ->
  store_list a f s = Done tt (mk_lstate (items s) (<[a := f l]> (lists s))).
Proof. intros E. unfold store_list. now rewrite E. Qed.

(** The effect of linking the node [n] between [u] and [v] of the list [p]. *)
Record linked_in (s s' : lstate) (p u n v : Z) (h : List_t) : Prop := {
  li_next_u : nextp s' u = Some n;
  li_prev_n : prevp s' n = Some u;
  li_next_n : nextp s' n = Some v;
  li_prev_v : prevp s' v = Some n;
  li_next : forall a, a <> u -> a <> n -> nextp s' a = nextp s a;
  li_prev : forall a, a <> v -> a <> n -> prevp s' a = prevp s a;
  li_rest : forall a, a <> n -> restp s' a = restp s a;
  li_new : restp s' n = (fun i => (xItemValue i, pvOwner i, p)) <$> items s !! n;
  li_lists : lists s' = <[p := list_count (u32 (uxNumberOfItems h + 1)) h]> (lists s)
}.

#[local] Ltac look := repeat first
  [ rewrite lookup_insert_eq
  | rewrite lookup_insert_ne by congruence ];
  cbn [items lists].
#[local] Ltac step :=
  first [ erewrite load_item_bind by (cbn [items]; look; (reflexivity || eassumption))
        | erewrite store_item_bind by (cbn [items]; look; (reflexivity || eassumption))
        | erewrite load_list_bind by (cbn [lists]; eassumption)
        | erewrite store_list_run by (cbn [lists]; eassumption) ];
  cbn [pxNext pxPrevious xItemValue pvOwner pxContainer items lists
       item_next item_previous item_container item_value list_count list_index uxNumberOfItems pxIndex].
#[local] Ltac field :=
  intros; unfold nextp, prevp, restp; cbn [items lists];
  rewrite !lookup_insert; repeat case_decide; subst; try congruence;
  repeat match goal with H : items _ !! _ = Some _ |- _ => rewrite H end; try reflexivity.

Lemma insert_end_run s p n v u h iv iu inew :
  lists s !! p = Some h -> pxIndex h = v -> items s !! v = Some iv -> pxPrevious iv = u ->
  items s !! u = Some iu -> items s !! n = Some inew -> n <> u -> n <> v ->
  exists s', vListInsertEnd p n s = Done tt s' /\ linked_in s s' p u n v h.
Proof.
  intros Hh Hv Eiv Hu Eiu Einew N1 N2. unfold vListInsertEnd. step. rewrite Hv.
  destruct (decide (u = v)) as [E | N].
  - rewrite E in *. assert (iu = iv) as -> by congruence. repeat (step; rewrite ?Hu).
    eexists. split; [reflexivity |]. constructor; try reflexivity; field.
  - repeat (step; rewrite ?Hu). eexists. split; [reflexivity |]. constructor; try reflexivity; field.
Qed.

Lemma insert_link_run s p n u v h iu iv inew :
  lists s !! p = Some h -> items s !! u = Some iu -> pxNext iu = v ->
  items s !! v = Some iv -> items s !! n = Some inew -> n <> u -> n <> v ->
  exists s',
    (i <- load_item u ;;
     store_item n (item_next (pxNext i)) ;;
     new <- load_item n ;;
     store_item (pxNext new) (item_previous n) ;;
     store_item n (item_previous u) ;;
     store_item u (item_next n) ;;
     store_item n (item_container p) ;;
     l <- load_list p ;;
     store_list p (list_count (u32 (uxNumberOfItems l + 1)))) s = Done tt s' /\
    linked_in s s' p u n v h.
Proof.
  intros Hh Eiu Hv Eiv Einew N1 N2. destruct (decide (u = v)) as [E | N].
  - rewrite E in *. assert (iu = iv) as -> by congruence. repeat (step; rewrite ?Hv).
    eexists. split; [reflexivity |]. constructor; try reflexivity; field.
  - repeat (step; rewrite ?Hv). eexists. split; [reflexivity |]. constructor; try reflexivity; field.
Qed.

(** The effect of unlinking [n] from between [u] and [v]. *)
Record linked_out (s s' : lstate) (p u n v : Z) (h : List_t) : Prop := {
  lo_next_u : nextp s' u = Some v;
  lo_prev_v : prevp s' v = Some u;
  lo_next : forall a, a <> u -> nextp s' a = nextp s a;
  lo_prev : forall a, a <> v -> prevp s' a = prevp s a;
  lo_rest : forall a, a <> n -> restp s' a = restp s a;
  lo_old : restp s' n = (fun i => (xItemValue i, pvOwner i, 0)) <$> items s !! n;
  lo_lists : lists s' = <[p := mk_list (u32 (uxNumberOfItems h - 1))
                                 (if pxIndex h =? n then u else pxIndex h)]> (lists s)
}.

Lemma remove_run s p u n v h iu iv i :
  lists s !! p = Some h -> items s !! n = Some i -> pxContainer i = p -> pxNext i = v -> pxPrevious i = u ->
  items s !! u = Some iu -> items s !! v = Some iv -> n <> u -> n <> v ->
  exists s', uxListRemove n s = Done (u32 (uxNumberOfItems h - 1)) s' /\ linked_out s s' p u n v h.
Proof.
  intros Hh Ei Ec Ev Eu Eiu Eiv N1 N2. unfold uxListRemove. step. rewrite Ec, Ev, Eu.
  assert (L : forall s1, lists s1 = lists s ->
    (if pxIndex h =? n then store_list p (list_index u) else ret tt) s1 =
    Done tt (mk_lstate (items s1) (if pxIndex h =? n then <[p := list_index u h]> (lists s) else lists s))).
  { intros [m1 l1]. cbn [lists]. intros ->. destruct (pxIndex h =? n); [| reflexivity].
    unfold store_list. cbn [lists]. now rewrite Hh. }
  assert (H2 : (if pxIndex h =? n then <[p := list_index u h]> (lists s) else lists s) !! p =
               Some (mk_list (uxNumberOfItems h) (if pxIndex h =? n then u else pxIndex h))).
  { destruct (pxIndex h =? n); [apply lookup_insert_eq |]. rewrite Hh. now destruct h. }
  set (m2 := if pxIndex h =? n then <[p := list_index u h]> (lists s) else lists s) in *.
  assert (E2 : forall x, <[p := x]> m2 = <[p := x]> (lists s)).
  { intros x. unfold m2. destruct (pxIndex h =? n); [apply insert_insert_eq | reflexivity]. }
  assert (Hend : forall m1, m1 !! n = Some i ->
    (store_item n (item_container 0) ;;
     l <- load_list p ;;
     store_list p (list_count (u32 (uxNumberOfItems l - 1))) ;;
     l <- load_list p ;;
     ret (uxNumberOfItems l)) (mk_lstate m1 m2) =
    Done (u32 (uxNumberOfItems h - 1))
      (mk_lstate (<[n := item_container 0 i]> m1)
         (<[p := mk_list (u32 (uxNumberOfItems h - 1)) (if pxIndex h =? n then u else pxIndex h)]> (lists s)))).
  { intros m1 Hm. erewrite store_item_bind by exact Hm. cbn [items lists].
    erewrite load_list_bind by exact H2. erewrite bind_done by (apply store_list_run; exact H2).
    erewrite load_list_bind by apply lookup_insert_eq. cbn [items lists list_count uxNumberOfItems pxIndex].
    now rewrite E2. }
  destruct (decide (u = v)) as [E | N].
  - rewrite E in *. assert (iu = iv) as -> by congruence. do 5 (step; rewrite ?Ev, ?Eu, ?E).
    erewrite bind_done by (apply L; reflexivity). cbn [items]. rewrite Hend by (look; exact Ei).
    eexists. split; [reflexivity |]. constructor; try reflexivity; field.
  - do 5 (step; rewrite ?Ev, ?Eu, ?E).
    erewrite bind_done by (apply L; reflexivity). cbn [items]. rewrite Hend by (look; exact Ei).
    eexists. split; [reflexivity |]. constructor; try reflexivity; field.
Qed.

(** * The operations on sequences *)

Definition valof (s : lstate) (a : Z) : Z := default 0 (valuep s a).

Lemma is_node s p l a : is_list s p l -> a ∈ xListEnd p :: l -> exists i, items s !! a = Some i.
Proof.
  intros H Ha. apply elem_of_cons in Ha as [-> | Ha].
  - pose proof (il_end _ _ _ H) as E. unfold valuep in E. destruct (items s !! xListEnd p); [eauto | discriminate].
  - pose proof (il_items _ _ _ H) as F. rewrite Forall_forall in F. destruct (F a Ha) as (i & E & _). eauto.
Qed.

Lemma rest_value s s' a : restp s' a = restp s a -> valuep s' a = valuep s a.
Proof.
  unfold restp, valuep. destruct (items s' !! a), (items s !! a); cbn; congruence.
Qed.

Lemma rest_item s s' a i : restp s' a = restp s a -> items s !! a = Some i ->
  exists i', items s' !! a = Some i' /\ xItemValue i' = xItemValue i /\ pxContainer i' = pxContainer i.
Proof.
  unfold restp. intros E H. rewrite H in E. destruct (items s' !! a) as [i' |]; [| discriminate].
  cbn in E. injection E as E1 E2 E3. eauto.
Qed.

(** A node in front of a position and the one behind it. *)
Lemma hd_in e (post : list Z) : List.hd e post ∈ e :: post.
Proof. destruct post; cbn; [left | right; left]. Qed.

Lemma list_linked_in s s' p pre post n h inew : is_list s p (pre ++ post) ->
  n ∉ xListEnd p :: pre ++ post -> items s !! n = Some inew -> 0 <= xItemValue inew <= portMAX_DELAY ->
  lists s !! p = Some h -> Z.of_nat (length (pre ++ post)) + 1 < 4294967296 ->
  linked_in s s' p (lastof (xListEnd p) pre) n (List.hd (xListEnd p) post) h ->
  is_list s' p (pre ++ n :: post) /\ (forall a, valuep s' a = valuep s a).
Proof.
  intros Hl Hn Ei Hv Hh Hlen [L1 L2 L3 L4 L5 L6 L7 L8 L9].
  assert (Hval : forall a, valuep s' a = valuep s a).
  { intros a. destruct (decide (a = n)) as [-> | N]; [| now apply rest_value, L7].
    unfold valuep. rewrite Ei. unfold restp in L8. rewrite Ei in L8. destruct (items s' !! n); cbn in *; congruence. }
  split; [| exact Hval]. pose proof (il_distinct _ _ _ Hl) as Hd.
  destruct (il_head _ _ _ Hl) as (h' & Hh' & Hc & Hi). assert (h' = h) as -> by congruence.
  rewrite length_app in *. constructor.
  - apply (chain_insert s s' _ pre post n Hd Hn (il_chain _ _ _ Hl)); auto.
  - apply NoDup_cons in Hd as [He Hd]. apply NoDup_cons. rewrite elem_of_cons in Hn.
    rewrite elem_of_app, elem_of_cons. rewrite elem_of_app in He. split; [intuition congruence |].
    rewrite <- Permutation_middle. constructor; tauto.
  - rewrite Hval. apply Hl.
  - pose proof (il_items _ _ _ Hl) as F. rewrite Forall_forall in *. intros a Ha.
    destruct (decide (a = n)) as [-> | N].
    + unfold restp in L8. rewrite Ei in L8. destruct (items s' !! n) as [i' |]; [| discriminate].
      cbn in L8. injection L8 as E1 E2 E3. exists i'. rewrite E1, E3. auto.
    + assert (Ha' : a ∈ pre ++ post).
      { apply elem_of_app in Ha as [Ha | Ha]; [apply elem_of_app; now left |].
        apply elem_of_cons in Ha as [Ha | Ha]; [congruence |]. apply elem_of_app. now right. }
      destruct (F a Ha') as (i & E & C & V). destruct (rest_item s s' a i (L7 a N) E) as (i' & E' & V' & C').
      exists i'. rewrite V', C'. auto.
  - exists (list_count (u32 (uxNumberOfItems h + 1)) h). rewrite L9, lookup_insert_eq. split; [reflexivity |].
    cbn. split.
    + rewrite Hc, length_app. cbn. unfold u32. rewrite Z.mod_small; lia.
    + rewrite elem_of_cons, elem_of_app, elem_of_cons. rewrite elem_of_cons, elem_of_app in Hi. tauto.
  - rewrite length_app. cbn. lia.
Qed.

Lemma list_linked_out s s' p pre post n h i : is_list s p (pre ++ n :: post) -> items s !! n = Some i ->
  lists s !! p = Some h ->
  linked_out s s' p (lastof (xListEnd p) pre) n (List.hd (xListEnd p) post) h ->
  is_list s' p (pre ++ post) /\ (forall a, valuep s' a = valuep s a).
Proof.
  intros Hl Ei Hh [L1 L2 L5 L6 L7 L8 L9].
  assert (Hval : forall a, valuep s' a = valuep s a).
  { intros a. destruct (decide (a = n)) as [-> | N]; [| now apply rest_value, L7].
    unfold valuep. rewrite Ei. unfold restp in L8. rewrite Ei in L8. destruct (items s' !! n); cbn in *; congruence. }
  split; [| exact Hval]. pose proof (il_distinct _ _ _ Hl) as Hd. pose proof (il_size _ _ _ Hl) as Hsz.
  destruct (il_head _ _ _ Hl) as (h' & Hh' & Hc & Hi). assert (h' = h) as -> by congruence.
  rewrite length_app in *. cbn [length] in *.
  assert (Hnn : (n ∉ xListEnd p :: pre ++ post) /\ NoDup (xListEnd p :: pre ++ post)).
  { rewrite <- Permutation_middle in Hd. apply NoDup_cons in Hd as [He Hd]. apply NoDup_cons in Hd as [Hn Hd].
    rewrite elem_of_cons in He. split; [rewrite elem_of_cons; intuition congruence |]. constructor; tauto. }
  destruct Hnn as [Hn Hnd]. constructor; auto.
  - apply (chain_remove s s' _ pre post n Hd (il_chain _ _ _ Hl)); auto.
  - rewrite Hval. apply Hl.
  - pose proof (il_items _ _ _ Hl) as F. rewrite Forall_forall in *. intros a Ha.
    assert (N : a <> n) by (intros ->; apply Hn; now right).
    destruct (F a) as (j & E & C & V).
    { rewrite elem_of_app, elem_of_cons. rewrite elem_of_app in Ha. tauto. }
    destruct (rest_item s s' a j (L7 a N) E) as (i' & E' & V' & C'). exists i'. rewrite V', C'. auto.
  - eexists. rewrite L9, lookup_insert_eq. split; [reflexivity |]. cbn. split.
    + rewrite Hc, length_app. unfold u32. rewrite Z.mod_small; lia.
    + destruct (Z.eqb_spec (pxIndex h) n) as [E | E].
      * pose proof (lastof_in (xListEnd p) pre) as Hu. rewrite elem_of_cons, elem_of_app. apply elem_of_cons in Hu. tauto.
      * rewrite elem_of_cons, elem_of_app, elem_of_cons in Hi. rewrite elem_of_cons, elem_of_app. tauto.
  - rewrite length_app. lia.
Qed.

(** The items in front of the position: the longest prefix of values up to [v]. *)
Fixpoint upto (s : lstate) (v : Z) (l : list Z) : list Z :=
  match l with [] => [] | a :: l' => if valof s a <=? v then a :: upto s v l' else [] end.
Fixpoint from (s : lstate) (v : Z) (l : list Z) : list Z :=
  match l with [] => [] | a :: l' => if valof s a <=? v then from s v l' else l end.

Lemma upto_from s v l : upto s v l ++ from s v l = l.
Proof. induction l as [| a l IH]; cbn; [reflexivity |]. destruct (_ <=? _); cbn; [now rewrite IH | reflexivity]. Qed.

Lemma insert_position_ok s v e l : forall n x, (length l < n)%nat -> chain s x l e -> valuep s e = Some portMAX_DELAY ->
  v < portMAX_DELAY -> (forall a, a ∈ x :: l -> is_Some (items s !! a)) ->
  insert_position n x v s = Done (lastof x (upto s v l)) s.
Proof.
  induction l as [| a l IH]; intros n x Hn Hc He Hv Hex; (destruct n as [| n]; [cbn in Hn; lia |]);
    cbn [insert_position chain upto] in *.
  - destruct Hc as [Hc _]. unfold nextp in Hc. destruct (items s !! x) as [i |] eqn:E; [| discriminate].
    injection Hc as Hc. rewrite (load_item_bind _ _ _ _ E), Hc. unfold valuep in He.
    destruct (items s !! e) as [j |] eqn:Ee; [| discriminate]. injection He as He.
    rewrite (load_item_bind _ _ _ _ Ee), He. destruct (Z.leb_spec portMAX_DELAY v); [lia | reflexivity].
  - destruct Hc as (H1 & H2 & Hc). unfold nextp in H1. destruct (items s !! x) as [i |] eqn:E; [| discriminate].
    injection H1 as H1. rewrite (load_item_bind _ _ _ _ E), H1.
    destruct (Hex a ltac:(right; left)) as [j Ej]. rewrite (load_item_bind _ _ _ _ Ej).
    assert (Va : valof s a = xItemValue j) by (unfold valof, valuep; now rewrite Ej). rewrite Va.
    destruct (xItemValue j <=? v); [| reflexivity]. rewrite lastof_cons. apply IH; auto; [cbn in Hn; lia |].
    intros b Hb. apply Hex. now right.
Qed.

Definition ordered (s : lstate) (l : list Z) : Prop := StronglySorted Z.le (valof s <$> l).

Lemma upto_small s v l : Forall (fun a => valof s a <= v) (upto s v l).
Proof. induction l as [| a l IH]; cbn; [constructor |]. destruct (Z.leb_spec (valof s a) v); now constructor. Qed.

Lemma from_large s v l : ordered s l -> Forall (fun a => v < valof s a) (from s v l).
Proof.
  unfold ordered. induction l as [| a l IH]; cbn; [constructor |]. intros H. apply StronglySorted_inv in H as [H1 H2].
  destruct (Z.leb_spec (valof s a) v); [auto |]. constructor; [lia |].
  rewrite Forall_fmap in H2. eapply Forall_impl; [exact H2 |]. cbn. intros b Hb. lia.
Qed.

Lemma ordered_insert s pre post n v : ordered s (pre ++ post) -> valof s n = v ->
  Forall (fun a => valof s a <= v) pre -> Forall (fun a => v < valof s a) post -> ordered s (pre ++ n :: post).
Proof.
  unfold ordered. intros H Hn H1 H2. induction pre as [| a pre IH]; cbn in *.
  - constructor; [exact H |]. apply Forall_fmap. eapply Forall_impl; [exact H2 |]. cbn. intros b Hb. lia.
  - apply StronglySorted_inv in H as [Ha Hb]. apply Forall_cons in H1 as [Hav H1]. constructor; [now apply IH |].
    rewrite fmap_app in *. cbn. rewrite Forall_app in *. destruct Hb as [Hb1 Hb2]. split; [exact Hb1 |].
    constructor; [lia | exact Hb2].
Qed.

(** The search ends at the item behind which the new one belongs. *)
Lemma insert_iterator fuel s p l v : is_list s p l -> ordered s l -> 0 <= v <= portMAX_DELAY ->
  (length l < fuel)%nat ->
  (if v =? portMAX_DELAY then e <- load_item (xListEnd p) ;; ret (pxPrevious e)
   else insert_position fuel (xListEnd p) v) s = Done (lastof (xListEnd p) (upto s v l)) s.
Proof.
  intros Hl Ho Hv Hf. destruct (Z.eqb_spec v portMAX_DELAY) as [-> | N].
  - assert (E : upto s portMAX_DELAY l = l).
    { pose proof (il_items _ _ _ Hl) as F. clear -F. induction F as [| a l (i & E & _ & V) F IH]; cbn; [reflexivity |].
      unfold valof at 1, valuep. rewrite E. cbn. destruct (Z.leb_spec (xItemValue i) portMAX_DELAY); [now rewrite IH | lia]. }
    rewrite E. destruct (is_node s p l (xListEnd p) Hl ltac:(left)) as [j Ej].
    rewrite (load_item_bind _ _ _ _ Ej). pose proof (chain_prev _ _ _ _ (il_chain _ _ _ Hl)) as Hp.
    unfold prevp in Hp. rewrite Ej in Hp. cbn in Hp. injection Hp as ->. reflexivity.
  - apply insert_position_ok with (e := xListEnd p); try apply Hl; [lia | lia |].
    intros a Ha. destruct (is_node s p l a Hl Ha) as [j Ej]. now exists j.
Qed.

(** Position facts shared by insertion and removal. *)
Lemma list_neighbours s p pre post : is_list s p (pre ++ post) ->
  let e := xListEnd p in
  exists iu iv, items s !! lastof e pre = Some iu /\ items s !! List.hd e post = Some iv /\
    pxNext iu = List.hd e post /\ pxPrevious iv = lastof e pre.
Proof.
  intros Hl e. pose proof (chain_split s e pre post e (il_chain _ _ _ Hl)) as [Hc _].
  assert (Hu : lastof e pre ∈ e :: pre ++ post).
  { pose proof (lastof_in e pre) as Hu. rewrite elem_of_cons in *. rewrite elem_of_app. tauto. }
  assert (Hv : List.hd e post ∈ e :: pre ++ post).
  { pose proof (hd_in e post) as Hv. rewrite elem_of_cons in *. rewrite elem_of_app. tauto. }
  destruct (is_node _ _ _ _ Hl Hu) as [iu Eu]. destruct (is_node _ _ _ _ Hl Hv) as [iv Ev].
  exists iu, iv. repeat (split; [assumption |]).
  pose proof (chain_next_last _ _ _ _ Hc) as Hn. pose proof (chain_prev _ _ _ _ Hc) as Hp.
  unfold nextp in Hn. unfold prevp in Hp. rewrite Eu in Hn. rewrite Ev in Hp. cbn in *. split; congruence.
Qed.

Lemma not_neighbour n e (pre post : list Z) : n ∉ e :: pre ++ post -> n <> lastof e pre /\ n <> List.hd e post.
Proof.
  rewrite elem_of_cons, elem_of_app. intros H. pose proof (lastof_in e pre) as Hu. pose proof (hd_in e post) as Hv.
  rewrite elem_of_cons in *. split; intros ->; tauto.
Qed.

Lemma ordered_same s s' l : (forall a, valuep s' a = valuep s a) -> ordered s l -> ordered s' l.
Proof.
  intros H. unfold ordered. replace (valof s' <$> l) with (valof s <$> l); [auto |].
  apply list_fmap_ext. intros i a _. unfold valof. now rewrite H.
Qed.

(** [vListInsert] puts an item that is in no list into a sorted list behind all items whose value
    is not larger and in front of all others, so the list stays sorted and items of equal value keep the
    order in which they came; the marker value [portMAX_DELAY] goes to the end. The values of all
    items are kept. The search loop ends after at most one step per item. *)
Theorem vListInsert_sorted fuel s p l n i :
  is_list s p l -> ordered s l -> items s !! n = Some i -> n ∉ xListEnd p :: l ->
  0 <= xItemValue i <= portMAX_DELAY -> Z.of_nat (length l) + 1 < 4294967296 -> (length l < fuel)%nat ->
  exists s' pre post, vListInsert fuel p n s = Done tt s' /\ l = pre ++ post /\
    is_list s' p (pre ++ n :: post) /\ ordered s' (pre ++ n :: post) /\
    Forall (fun a => valof s a <= xItemValue i) pre /\ Forall (fun a => xItemValue i < valof s a) post /\
    (forall a, valof s' a = valof s a).
Proof.
  intros Hl Ho Ei Hn Hv Hlen Hf. unfold vListInsert. rewrite (load_item_bind _ _ _ _ Ei).
  rewrite (bind_done _ _ _ _ _ (insert_iterator fuel s p l _ Hl Ho Hv Hf)).
  pose proof (upto_from s (xItemValue i) l) as El. pose proof (upto_small s (xItemValue i) l) as H1.
  pose proof (from_large s (xItemValue i) l Ho) as H2.
  set (pre := upto s (xItemValue i) l) in *. set (post := from s (xItemValue i) l) in *.
  rewrite <- El in *. destruct (il_head _ _ _ Hl) as (h & Hh & _).
  destruct (list_neighbours _ _ _ _ Hl) as (iu & iv & Eu & Ev & Hnext & _).
  destruct (not_neighbour _ _ _ _ Hn) as [N1 N2].
  destruct (insert_link_run s p n _ _ h iu iv i Hh Eu Hnext Ev Ei N1 N2) as (s' & E & L).
  destruct (list_linked_in _ _ _ _ _ _ _ _ Hl Hn Ei Hv Hh Hlen L) as [Hl' Hval].
  exists s', pre, post. split; [exact E |]. split; [reflexivity |]. split; [exact Hl' |].
  split; [| split; [exact H1 | split; [exact H2 |]]].
  - apply (ordered_same s s' _ Hval). apply ordered_insert with (v := xItemValue i); auto.
    unfold valof, valuep. now rewrite Ei.
  - intros a. unfold valof. now rewrite Hval.
Qed.

(** The item between its neighbours is unlinked; the index steps back if it pointed to it. *)
Lemma uxListRemove_run s p pre n post h : is_list s p (pre ++ n :: post) -> lists s !! p = Some h ->
  exists s', uxListRemove n s = Done (Z.of_nat (length (pre ++ post))) s' /\ is_list s' p (pre ++ post) /\
    linked_out s s' p (lastof (xListEnd p) pre) n (List.hd (xListEnd p) post) h /\ (forall a, valof s' a = valof s a).
Proof.
  intros Hl Hh. pose proof (il_distinct _ _ _ Hl) as Hd. pose proof (il_items _ _ _ Hl) as F.
  rewrite Forall_app, Forall_cons in F. destruct F as (_ & (i & Ei & Ec & _) & _).
  destruct (il_head _ _ _ Hl) as (h' & Hh' & Hcount & _). assert (h' = h) as -> by congruence.
  destruct (list_neighbours _ _ _ _ Hl) as (iu & i' & Eu & Ei' & _ & Hprev). cbn [List.hd] in Ei', Hprev.
  assert (i' = i) as -> by congruence.
  assert (Hl2 : is_list s p ((pre ++ [n]) ++ post)) by now rewrite <- app_assoc.
  destruct (list_neighbours _ _ _ _ Hl2) as (j & iv & Ej & Ev & Hnext & _). rewrite lastof_snoc in Ej.
  assert (j = i) as -> by congruence.
  assert (Hn : n ∉ xListEnd p :: pre ++ post).
  { rewrite <- Permutation_middle in Hd. apply NoDup_cons in Hd as [He Hd]. apply NoDup_cons in Hd as [Hn Hd].
    rewrite elem_of_cons in *. intuition congruence. }
  destruct (not_neighbour _ _ _ _ Hn) as [N1 N2].
  destruct (remove_run s p _ n _ h iu iv i Hh Ei Ec Hnext Hprev Eu Ev N1 N2) as (s' & E & L).
  destruct (list_linked_out _ _ _ _ _ _ _ _ Hl Ei Hh L) as [Hl' Hval].
  exists s'. split; [| split; [exact Hl' | split; [exact L |]]].
  - rewrite E. f_equal. rewrite Hcount. pose proof (il_size _ _ _ Hl). rewrite !length_app in *. cbn in *.
    unfold u32. rewrite Z.mod_small; lia.
  - intros a. unfold valof. now rewrite Hval.
Qed.

(** [uxListRemove] takes an item out of the list it is in, wherever it is; the others keep their
    order, the item is in no list afterwards, and the number of the remaining items is returned. *)
Theorem uxListRemove_removes s p pre n post :
  is_list s p (pre ++ n :: post) ->
  exists s', uxListRemove n s = Done (Z.of_nat (length (pre ++ post))) s' /\ is_list s' p (pre ++ post) /\
    (pxContainer <$> items s' !! n) = Some 0 /\ (forall a, valof s' a = valof s a).
Proof.
  intros Hl. destruct (il_head _ _ _ Hl) as (h & Hh & _). destruct (uxListRemove_run s p pre n post h Hl Hh) as (s' & E & Hl' & L & V).
  exists s'. split; [exact E |]. split; [exact Hl' |]. split; [| exact V].
  pose proof (il_items _ _ _ Hl) as F. rewrite Forall_app, Forall_cons in F. destruct F as (_ & (i & Ei & _) & _).
  pose proof (lo_old _ _ _ _ _ _ _ L) as Eo. rewrite Ei in Eo. unfold restp in Eo.
  destruct (items s' !! n); [| discriminate]. cbn in *. congruence.
Qed.

(** ** An instance *)

Definition ex_list : Z := 0x20000000.
Definition ex_item (v : Z) : ListItem_t := mk_item v 0 0 0 0.

(** A list with items of the values 5 and 9, and an item of value 7 in no list. *)
Definition ex_memory : lstate :=
  mk_lstate (list_to_map [(xListEnd ex_list, ex_item 0); (16, ex_item 5); (32, ex_item 9); (48, ex_item 7)])
    {[ ex_list := mk_list 0 0 ]}.
Definition ex_lists : prog lstate unit :=
  vListInitialise ex_list ;; vListInsert 2 ex_list 32 ;; vListInsert 2 ex_list 16.
Definition ex_state : lstate := match ex_lists ex_memory with Done _ s => s | _ => ex_memory end.

Lemma ex_is_list : is_list ex_state ex_list [16; 32].
Proof.
  constructor.
  - vm_compute. repeat split.
  - apply (bool_decide_unpack (NoDup _)). vm_compute. exact I.
  - vm_compute. reflexivity.
  - repeat constructor; eexists; (split; [vm_compute; reflexivity |]); cbn; unfold portMAX_DELAY, ex_list; lia.
  - eexists. split; [vm_compute; reflexivity |]. split; [reflexivity | cbn; left].
  - cbn. lia.
Qed.

Lemma vListInsert_sorted_witness :
  exists s' pre post, vListInsert 3 ex_list 48 ex_state = Done tt s' /\ [16; 32] = pre ++ post /\
    is_list s' ex_list (pre ++ 48 :: post).
Proof.
  destruct (vListInsert_sorted 3 ex_state ex_list [16; 32] 48 (ex_item 7)) as (s' & pre & post & E & El & Hl & _).
  - exact ex_is_list.
  - unfold ordered. cbn. repeat constructor; cbn; intros H; discriminate.
  - vm_compute. reflexivity.
  - apply (bool_decide_unpack (_ ∉ _)). vm_compute. exact I.
  - cbn. unfold portMAX_DELAY. lia.
  - cbn. lia.
  - cbn. lia.
  - exact (ex_intro _ s' (ex_intro _ pre (ex_intro _ post (conj E (conj El Hl))))).
Defined.

Lemma uxListRemove_removes_witness :
  exists s', uxListRemove 16 ex_state = Done 1 s' /\ is_list s' ex_list [32].
Proof.
  destruct (uxListRemove_removes ex_state ex_list [] 16 [32] ex_is_list) as (s' & E & Hl & _).
  exact (ex_intro _ s' (conj E Hl)).
Defined.
