(* ===== verification/Netif.v ===== *)
(** The network interface: [tasks/ip_stack_task.c] up to its loop, and the functions of lwIP's
    [core/netif.c] and [core/ipv4/ip4.c] it relies on.

    The interface structures are in memory, by address; [netif_list] and [netif_default] are the pointers
    of the C code. What lwIP sends on its own is recorded: the interfaces a gratuitous ARP request has
    been sent on. The configuration is the application's: IPv4 only, ARP, several interfaces possible, no
    callbacks, no statistics, no loopback interface, assertions on. Changing an address also changes the
    protocol control blocks that use it; those are not part of the state. *)
From Stdlib Require Import ZArith Lia Bool.
From stdpp Require Import base decidable list gmap.
From S2P Require Import Prelude LwipChksum.

Definition ERR_OK : Z := 0.

Definition NETIF_FLAG_UP : Z := 0x01.
Definition NETIF_FLAG_BROADCAST : Z := 0x02.
Definition NETIF_FLAG_LINK_UP : Z := 0x04.
Definition NETIF_FLAG_ETHARP : Z := 0x08.
Definition NETIF_FLAG_ETHERNET : Z := 0x10.
Definition NETIF_FLAG_IGMP : Z := 0x20.
Definition NETIF_FLAG_MLD6 : Z := 0x40.

Definition NETIF_REPORT_TYPE_IPV4 : Z := 0x01.
Definition NETIF_REPORT_TYPE_IPV6 : Z := 0x02.

(** The functions an interface can point to, and whatever an uninitialised pointer holds. *)
Inductive netif_fn : Type :=
| netif_null_output_ip4 | etharp_output | enc28_netif_output | netif_input
| unknown_fn (a : Z).

Record netif : Type := mk_netif {
  next : Z;
  ip_addr : Z;
  netmask : Z;
  gw : Z;
  input : netif_fn;
  output : netif_fn;
  linkoutput : netif_fn;
  state : Z;
  mtu : Z;
  hwaddr : list Z;
  hwaddr_len : Z;
  flags : Z;
  name : list Z;
  num : Z
}.

Record lwip : Type := mk_lwip {
  netifs : gmap Z netif;
  netif_list : Z;
  netif_default : Z;
  netif_num : Z;
  gratuitous : list Z   (** history: [etharp_gratuitous] calls *)
}.

Definition set_next v n := mk_netif v (ip_addr n) (netmask n) (gw n) (input n) (output n) (linkoutput n)
  (state n) (mtu n) (hwaddr n) (hwaddr_len n) (flags n) (name n) (num n).
Definition set_ip_addr v n := mk_netif (next n) v (netmask n) (gw n) (input n) (output n) (linkoutput n)
  (state n) (mtu n) (hwaddr n) (hwaddr_len n) (flags n) (name n) (num n).
Definition set_netmask v n := mk_netif (next n) (ip_addr n) v (gw n) (input n) (output n) (linkoutput n)
  (state n) (mtu n) (hwaddr n) (hwaddr_len n) (flags n) (name n) (num n).
Definition set_gw v n := mk_netif (next n) (ip_addr n) (netmask n) v (input n) (output n) (linkoutput n)
  (state n) (mtu n) (hwaddr n) (hwaddr_len n) (flags n) (name n) (num n).
Definition set_input v n := mk_netif (next n) (ip_addr n) (netmask n) (gw n) v (output n) (linkoutput n)
  (state n) (mtu n) (hwaddr n) (hwaddr_len n) (flags n) (name n) (num n).
Definition set_output v n := mk_netif (next n) (ip_addr n) (netmask n) (gw n) (input n) v (linkoutput n)
  (state n) (mtu n) (hwaddr n) (hwaddr_len n) (flags n) (name n) (num n).
Definition set_linkoutput v n := mk_netif (next n) (ip_addr n) (netmask n) (gw n) (input n) (output n) v
  (state n) (mtu n) (hwaddr n) (hwaddr_len n) (flags n) (name n) (num n).
Definition set_state v n := mk_netif (next n) (ip_addr n) (netmask n) (gw n) (input n) (output n) (linkoutput n)
  v (mtu n) (hwaddr n) (hwaddr_len n) (flags n) (name n) (num n).
Definition set_mtu v n := mk_netif (next n) (ip_addr n) (netmask n) (gw n) (input n) (output n) (linkoutput n)
  (state n) v (hwaddr n) (hwaddr_len n) (flags n) (name n) (num n).
Definition set_hwaddr v n := mk_netif (next n) (ip_addr n) (netmask n) (gw n) (input n) (output n) (linkoutput n)
  (state n) (mtu n) v (hwaddr_len n) (flags n) (name n) (num n).
Definition set_hwaddr_len v n := mk_netif (next n) (ip_addr n) (netmask n) (gw n) (input n) (output n) (linkoutput n)
  (state n) (mtu n) (hwaddr n) v (flags n) (name n) (num n).
Definition set_flags v n := mk_netif (next n) (ip_addr n) (netmask n) (gw n) (input n) (output n) (linkoutput n)
  (state n) (mtu n) (hwaddr n) (hwaddr_len n) v (name n) (num n).
Definition set_name v n := mk_netif (next n) (ip_addr n) (netmask n) (gw n) (input n) (output n) (linkoutput n)
  (state n) (mtu n) (hwaddr n) (hwaddr_len n) (flags n) v (num n).
Definition set_num v n := mk_netif (next n) (ip_addr n) (netmask n) (gw n) (input n) (output n) (linkoutput n)
  (state n) (mtu n) (hwaddr n) (hwaddr_len n) (flags n) (name n) v.

(** ** Memory *)

Definition load_netif (a : Z) : prog lwip netif := fun s =>
  match netifs s !! a with Some n => Done n s | None => Undefined end.
Definition store_netif (a : Z) (f : netif -> netif) : prog lwip unit := fun s =>
  match netifs s !! a with
  | Some n => Done tt (mk_lwip (<[a := f n]> (netifs s)) (netif_list s) (netif_default s) (netif_num s) (gratuitous s))
  | None => Undefined
  end.
Definition write_netif_list (p : Z) : prog lwip unit :=
  modify (fun s => mk_lwip (netifs s) p (netif_default s) (netif_num s) (gratuitous s)).
Definition write_netif_default (p : Z) : prog lwip unit :=
  modify (fun s => mk_lwip (netifs s) (netif_list s) p (netif_num s) (gratuitous s)).
Definition write_netif_num (k : Z) : prog lwip unit :=
  modify (fun s => mk_lwip (netifs s) (netif_list s) (netif_default s) k (gratuitous s)).
Definition etharp_gratuitous (p : Z) : prog lwip unit :=
  modify (fun s => mk_lwip (netifs s) (netif_list s) (netif_default s) (netif_num s) (gratuitous s ++ [p])).

(** [LWIP_ASSERT]: the default of the platform macro aborts. *)
Definition LWIP_ASSERT (b : bool) : prog lwip unit := if b then ret tt else halt.

(** ** Interface functions *)

Definition netif_is_up (n : netif) : bool := truth (flags n .& NETIF_FLAG_UP).
Definition netif_is_link_up (n : netif) : bool := truth (flags n .& NETIF_FLAG_LINK_UP).

Definition netif_issue_reports (p report_type : Z) : prog lwip unit :=
  n <- load_netif p ;;
  if negb (truth (flags n .& NETIF_FLAG_LINK_UP)) || negb (truth (flags n .& NETIF_FLAG_UP)) then ret tt
  else if truth (report_type .& NETIF_REPORT_TYPE_IPV4) && negb (ip_addr n =? 0) then
    if truth (flags n .& NETIF_FLAG_ETHARP) then etharp_gratuitous p else ret tt
  else ret tt.

Definition netif_do_set_ipaddr (p ipaddr : Z) : prog lwip Z :=
  n <- load_netif p ;;
  if negb (ipaddr =? ip_addr n) then
    store_netif p (set_ip_addr ipaddr) ;;
    netif_issue_reports p NETIF_REPORT_TYPE_IPV4 ;;
    ret 1
  else ret 0.

Definition netif_do_set_netmask (p mask : Z) : prog lwip Z :=
  n <- load_netif p ;;
  if negb (mask =? netmask n) then store_netif p (set_netmask mask) ;; ret 1 else ret 0.

Definition netif_do_set_gw (p g : Z) : prog lwip Z :=
  n <- load_netif p ;;
  if negb (g =? gw n) then store_netif p (set_gw g) ;; ret 1 else ret 0.

(** An address parameter is a pointer to the address; [None] is [NULL]. *)
Definition netif_set_addr (p : Z) (ipaddr mask g : option Z) : prog lwip unit :=
  let ipaddr := default 0 ipaddr in
  let mask := default 0 mask in
  let g := default 0 g in
  let remove := ipaddr =? 0 in
  (if remove then netif_do_set_ipaddr p ipaddr else ret 0) ;;
  netif_do_set_netmask p mask ;;
  netif_do_set_gw p g ;;
  (if negb remove then netif_do_set_ipaddr p ipaddr else ret 0) ;;
  ret tt.

(** The inner loop of the numbering: the interface whose number clashes, or [NULL]. *)
Fixpoint number_pass (n : nat) (p netif2 num_netifs : Z) : prog lwip Z :=
  match n with
  | O => out_of_fuel
  | S n' =>
    if netif2 =? 0 then ret 0 else
    LWIP_ASSERT (negb (netif2 =? p)) ;;
    LWIP_ASSERT (num_netifs + 1 <=? 255) ;;
    i2 <- load_netif netif2 ;;
    i <- load_netif p ;;
    if num i2 =? num i then store_netif p (set_num (u8 (num i + 1))) ;; ret netif2
    else number_pass n' p (next i2) (num_netifs + 1)
  end.

(** The [do]-[while] loop that looks for a number no other interface has. *)
Fixpoint number_loop (n : nat) (p : Z) : prog lwip unit :=
  match n with
  | O => out_of_fuel
  | S n' =>
    i <- load_netif p ;;
    (if num i =? 255 then store_netif p (set_num 0) else ret tt) ;;
    s <- get ;;
    clash <- number_pass n p (netif_list s) 0 ;;
    if clash =? 0 then ret tt else number_loop n' p
  end.

(** [init] is the driver's function; [p] the address of the structure. *)
Definition netif_add (n : nat) (p : Z) (ipaddr mask g : option Z) (st : Z) (init : Z -> prog lwip Z) (inp : netif_fn)
  : prog lwip Z :=
  if p =? 0 then ret 0 else
  store_netif p (set_ip_addr 0) ;;
  store_netif p (set_netmask 0) ;;
  store_netif p (set_gw 0) ;;
  store_netif p (set_output netif_null_output_ip4) ;;
  store_netif p (set_mtu 0) ;;
  store_netif p (set_flags 0) ;;
  store_netif p (set_state st) ;;
  s <- get ;;
  store_netif p (set_num (netif_num s)) ;;
  store_netif p (set_input inp) ;;
  netif_set_addr p ipaddr mask g ;;
  err <- init p ;;
  if negb (err =? ERR_OK) then ret 0 else
  number_loop n p ;;
  i <- load_netif p ;;
  write_netif_num (if num i =? 254 then 0 else u8 (num i + 1)) ;;
  s <- get ;;
  store_netif p (set_next (netif_list s)) ;;
  write_netif_list p ;;
  ret p.

Definition netif_set_default (p : Z) : prog lwip unit := write_netif_default p.

Definition netif_set_up (p : Z) : prog lwip unit :=
  if p =? 0 then ret tt else
  i <- load_netif p ;;
  if negb (truth (flags i .& NETIF_FLAG_UP)) then
    store_netif p (fun i => set_flags (u8 (flags i .| NETIF_FLAG_UP)) i) ;;
    netif_issue_reports p (NETIF_REPORT_TYPE_IPV4 .| NETIF_REPORT_TYPE_IPV6)
  else ret tt.

Definition netif_set_link_up (p : Z) : prog lwip unit :=
  if p =? 0 then ret tt else
  i <- load_netif p ;;
  if negb (truth (flags i .& NETIF_FLAG_LINK_UP)) then
    store_netif p (fun i => set_flags (u8 (flags i .| NETIF_FLAG_LINK_UP)) i) ;;
    netif_issue_reports p (NETIF_REPORT_TYPE_IPV4 .| NETIF_REPORT_TYPE_IPV6)
  else ret tt.

(** ** Routing *)

Definition IP_CLASSA_NET : Z := 0xff000000.
Definition IP_LOOPBACKNET : Z := 127.

Definition ip4_addr_isloopback (a : Z) : bool :=
  a .& PP_HTONL IP_CLASSA_NET =? PP_HTONL (Z.shiftl IP_LOOPBACKNET 24).
Definition ip4_addr_net_eq (a b mask : Z) : bool := a .& mask =? b .& mask.

(** The loop over all interfaces: the matching interface or [NULL]. *)
Fixpoint route_search (n : nat) (p dest : Z) : prog lwip Z :=
  match n with
  | O => out_of_fuel
  | S n' =>
    if p =? 0 then ret 0 else
    i <- load_netif p ;;
    if netif_is_up i && netif_is_link_up i && negb (ip_addr i =? 0) &&
       (ip4_addr_net_eq dest (ip_addr i) (netmask i) ||
        ((flags i .& NETIF_FLAG_BROADCAST =? 0) && (dest =? gw i)))
    then ret p
    else route_search n' (next i) dest
  end.

Definition ip4_route (n : nat) (dest : Z) : prog lwip Z :=
  s <- get ;;
  found <- route_search n (netif_list s) dest ;;
  if negb (found =? 0) then ret found else
  if netif_default s =? 0 then ret 0 else
  d <- load_netif (netif_default s) ;;
  if negb (netif_is_up d) || negb (netif_is_link_up d) || (ip_addr d =? 0) || ip4_addr_isloopback dest
  then ret 0 else ret (netif_default s).

(** ** The application's interface *)

Definition MAC_ADDR_BYTE_0 : Z := 0xDE.
Definition MAC_ADDR_BYTE_1 : Z := 0xAD.
Definition MAC_ADDR_BYTE_2 : Z := 0xBE.
Definition MAC_ADDR_BYTE_3 : Z := 0xEF.
Definition MAC_ADDR_BYTE_4 : Z := 0xCC.
Definition MAC_ADDR_BYTE_5 : Z := 0xAA.
Definition ENC28_IP_ADDR : Z := Z.shiftl 192 0 .| Z.shiftl 168 8 .| Z.shiftl 0 16 .| Z.shiftl 22 24.

(** [sizeof(n_if->hwaddr)], NETIF_MAX_HWADDR_LEN. *)
Definition NETIF_MAX_HWADDR_LEN : Z := 6.

Definition set_hwaddr_byte (i : nat) (b : Z) (n : netif) : netif := set_hwaddr (<[i := b]> (hwaddr n)) n.

Definition enc28_ip_init_callback (n_if : Z) : prog lwip Z :=
  store_netif n_if (set_flags (NETIF_FLAG_BROADCAST .| NETIF_FLAG_ETHARP .| NETIF_FLAG_ETHERNET .| NETIF_FLAG_IGMP
                               .| NETIF_FLAG_MLD6)) ;;
  store_netif n_if (set_linkoutput enc28_netif_output) ;;
  store_netif n_if (set_output etharp_output) ;;
  store_netif n_if (set_mtu 1518) ;;
  store_netif n_if (set_hwaddr_byte 0 MAC_ADDR_BYTE_0) ;;
  store_netif n_if (set_hwaddr_byte 1 MAC_ADDR_BYTE_1) ;;
  store_netif n_if (set_hwaddr_byte 2 MAC_ADDR_BYTE_2) ;;
  store_netif n_if (set_hwaddr_byte 3 MAC_ADDR_BYTE_3) ;;
  store_netif n_if (set_hwaddr_byte 4 MAC_ADDR_BYTE_4) ;;
  store_netif n_if (set_hwaddr_byte 5 MAC_ADDR_BYTE_5) ;;
  store_netif n_if (set_hwaddr_len NETIF_MAX_HWADDR_LEN) ;;
  ret ERR_OK.

(** [ip_stack_task] up to its loop, on the structure [net_ifc] of its stack frame. *)
Definition ip_stack_task_start (n : nat) (net_ifc : Z) : prog lwip unit :=
  store_netif net_ifc (fun i => set_name (<[0%nat := 0x65]> (name i)) i) ;;
  store_netif net_ifc (fun i => set_name (<[1%nat := 0x31]> (name i)) i) ;;
  res <- netif_add n net_ifc (Some ENC28_IP_ADDR) (Some 0) (Some 0) 0 enc28_ip_init_callback netif_input ;;
  configASSERT (negb (res =? 0)) ;;
  netif_set_default net_ifc ;;
  netif_set_up net_ifc.
