(* ===== verification/NetifProofs.v ===== *)
(** What the start of the IP task leaves behind: a configured interface that no packet is routed to. *)
From Stdlib Require Import ZArith Lia Bool.
From stdpp Require Import base decidable list gmap.
From S2P Require Import Prelude LwipChksum Netif.

(** ** Running the memory operations *)

Lemma load_netif_bind {B} s a n (k : netif -> prog lwip B) :
  netifs s !! a = Some n -> bind (load_netif a) k s = k n s.
Proof. intros E. unfold bind, load_netif. now rewrite E. Qed.

Definition store_at (a : Z) (n : netif) (s : lwip) : lwip :=
  mk_lwip (<[a := n]> (netifs s)) (netif_list s) (netif_default s) (netif_num s) (gratuitous s).

Lemma store_at_twice a n m s : store_at a n (store_at a m s) = store_at a n s.
Proof. unfold store_at. cbn. now rewrite insert_insert_eq. Qed.

Lemma store_at_same a n s : netifs s !! a = Some n -> store_at a n s = s.
Proof. intros E. unfold store_at. rewrite insert_id by exact E. now destruct s. Qed.

Lemma store_at_lookup a n s : netifs (store_at a n s) !! a = Some n.
Proof. apply lookup_insert_eq. Qed.

(** The operations on one interface, the rest of the state being left alone: [at_netif a m n r n']: run on a
    state with [n] at [a], [m] returns [r] and leaves [n'] there. *)
Definition at_netif {A} (a : Z) (m : prog lwip A) (n : netif) (r : A) (n' : netif) : Prop :=
  forall s, m (store_at a n s) = Done r (store_at a n' s).

Lemma at_netif_ret {A} a n (r : A) : at_netif a (ret r) n r n.
Proof. intros s. reflexivity. Qed.

Lemma at_netif_bind {A B} a (m : prog lwip A) (k : A -> prog lwip B) n r n1 x n2 :
  at_netif a m n r n1 -> at_netif a (k r) n1 x n2 -> at_netif a (bind m k) n x n2.
Proof. intros H1 H2 s. rewrite (bind_done _ _ _ _ _ (H1 s)). apply H2. Qed.

Lemma at_netif_load a n : at_netif a (load_netif a) n n n.
Proof. intros s. unfold load_netif. now rewrite store_at_lookup. Qed.

Lemma at_netif_store a f n : at_netif a (store_netif a f) n tt (f n).
Proof. intros s. unfold store_netif. rewrite store_at_lookup. f_equal. exact (store_at_twice a (f n) n s). Qed.

(** Without a link nothing is announced. *)
Lemma at_netif_reports a t n : netif_is_link_up n = false -> at_netif a (netif_issue_reports a t) n tt n.
Proof.
  intros H. eapply at_netif_bind; [apply at_netif_load |]. unfold netif_is_link_up in H. rewrite H.
  apply at_netif_ret.
Qed.

Lemma at_netif_ipaddr a v n : netif_is_link_up n = false -> v <> ip_addr n ->
  at_netif a (netif_do_set_ipaddr a v) n 1 (set_ip_addr v n).
Proof.
  intros H N. eapply at_netif_bind; [apply at_netif_load |]. apply Z.eqb_neq in N. rewrite N. cbn [negb].
  eapply at_netif_bind; [apply at_netif_store |]. eapply at_netif_bind; [now apply at_netif_reports |].
  apply at_netif_ret.
Qed.

Lemma at_netif_netmask_same a n : at_netif a (netif_do_set_netmask a (netmask n)) n 0 n.
Proof. eapply at_netif_bind; [apply at_netif_load |]. rewrite Z.eqb_refl. apply at_netif_ret. Qed.

Lemma at_netif_gw_same a n : at_netif a (netif_do_set_gw a (gw n)) n 0 n.
Proof. eapply at_netif_bind; [apply at_netif_load |]. rewrite Z.eqb_refl. apply at_netif_ret. Qed.

(** Setting an address with no mask and no gateway on an interface that has none. *)
Lemma at_netif_set_addr a v n : netif_is_link_up n = false -> v <> 0 -> ip_addr n = 0 -> netmask n = 0 -> gw n = 0 ->
  at_netif a (netif_set_addr a (Some v) (Some 0) (Some 0)) n tt (set_ip_addr v n).
Proof.
  intros Hl Hv Hi Hm Hg. unfold netif_set_addr. cbn [default from_option id].
  pose proof Hv as Hv'. apply Z.eqb_neq in Hv'. rewrite Hv'. cbn [negb].
  eapply at_netif_bind; [apply at_netif_ret |].
  eapply at_netif_bind; [rewrite <- Hm at 1; apply at_netif_netmask_same |].
  eapply at_netif_bind; [rewrite <- Hg at 1; apply at_netif_gw_same |].
  eapply at_netif_bind; [apply at_netif_ipaddr; congruence | apply at_netif_ret].
Qed.

(** ** The start of the IP task *)

(** [net_ifc] as the start leaves it, whatever the stack held before. *)
Definition net_ifc_started (g : netif) : netif :=
  mk_netif 0 ENC28_IP_ADDR 0 0 netif_input etharp_output enc28_netif_output 0 1518
    [MAC_ADDR_BYTE_0; MAC_ADDR_BYTE_1; MAC_ADDR_BYTE_2; MAC_ADDR_BYTE_3; MAC_ADDR_BYTE_4; MAC_ADDR_BYTE_5]
    NETIF_MAX_HWADDR_LEN
    (NETIF_FLAG_BROADCAST .| NETIF_FLAG_ETHARP .| NETIF_FLAG_ETHERNET .| NETIF_FLAG_IGMP .| NETIF_FLAG_MLD6
     .| NETIF_FLAG_UP)
    [0x65; 0x31] 0.

(** lwIP before its first interface; the stack memory of [net_ifc] is at [p]. *)
Record booted (s : lwip) (p : Z) (g : netif) : Prop := {
  boot_ifc : netifs s !! p = Some g;
  boot_hwaddr : length (hwaddr g) = 6%nat;
  boot_name : length (name g) = 2%nat;
  boot_list : netif_list s = 0;
  boot_default : netif_default s = 0;
  boot_num : netif_num s = 0;
  boot_reports : gratuitous s = []
}.

Definition started_state (s : lwip) (p : Z) (i : netif) : lwip := mk_lwip (<[p := i]> (netifs s)) p p 1 [].

Lemma list_of_6 (l : list Z) : length l = 6%nat -> exists a b c d e f, l = [a; b; c; d; e; f].
Proof. destruct l as [| a [| b [| c [| d [| e [| f [| g l]]]]]]]; try discriminate. intros _. eauto 10. Qed.

Lemma list_of_2 (l : list Z) : length l = 2%nat -> exists a b, l = [a; b].
Proof. destruct l as [| a [| b [| c l]]]; try discriminate. intros _. eauto. Qed.

Lemma at_netif_init_callback p n : length (hwaddr n) = 6%nat ->
  at_netif p (enc28_ip_init_callback p) n ERR_OK
    (set_hwaddr_len NETIF_MAX_HWADDR_LEN
       (set_hwaddr [MAC_ADDR_BYTE_0; MAC_ADDR_BYTE_1; MAC_ADDR_BYTE_2; MAC_ADDR_BYTE_3; MAC_ADDR_BYTE_4; MAC_ADDR_BYTE_5]
          (set_mtu 1518 (set_output etharp_output (set_linkoutput enc28_netif_output
             (set_flags (NETIF_FLAG_BROADCAST .| NETIF_FLAG_ETHARP .| NETIF_FLAG_ETHERNET .| NETIF_FLAG_IGMP
                         .| NETIF_FLAG_MLD6) n)))))).
Proof.
  intros H. apply list_of_6 in H as (a & b & c & d & e & f & E).
  destruct n as [n1 n2 n3 n4 n5 n6 n7 n8 n9 n10 n11 n12 n13 n14]. cbn in E. subst n10.
  unfold enc28_ip_init_callback. do 11 (eapply at_netif_bind; [apply at_netif_store |]).
  match goal with |- at_netif _ _ ?x _ ?y => assert (Exy : x = y) by (lazy; reflexivity); rewrite Exy end.
  apply at_netif_ret.
Qed.

(** The first interface gets number 0. *)
Lemma number_first n p (s : lwip) i : netifs s !! p = Some i -> netif_list s = 0 -> num i = 0 ->
  number_loop (S n) p s = Done tt s.
Proof.
  intros E L N. cbn [number_loop]. rewrite (load_netif_bind _ _ _ _ E), N. cbn [Z.eqb].
  unfold bind, ret, get. cbn [number_pass]. rewrite L. reflexivity.
Qed.

(** Running a sequence step by step. *)
Lemma step_at {A B} a (m : prog lwip A) (k : A -> prog lwip B) n r n' s R :
  at_netif a m n r n' -> k r (store_at a n' s) = R -> bind m k (store_at a n s) = R.
Proof. intros H E. now rewrite (bind_done _ _ _ _ _ (H s)). Qed.

Lemma step_store {B} a f (k : unit -> prog lwip B) n s R :
  k tt (store_at a (f n) s) = R -> bind (store_netif a f) k (store_at a n s) = R.
Proof. apply step_at, at_netif_store. Qed.

Lemma step_get {B} (k : lwip -> prog lwip B) s R : k s s = R -> bind get k s = R.
Proof. auto. Qed.

Definition netif_reset (k : Z) (g : netif) : netif :=
  mk_netif (next g) 0 0 0 netif_input netif_null_output_ip4 (linkoutput g) 0 0 (hwaddr g) (hwaddr_len g) 0 (name g) k.

Lemma netif_add_run n s p g : p <> 0 -> length (hwaddr g) = 6%nat ->
  netif_list s = 0 -> netif_num s = 0 -> gratuitous s = [] ->
  netif_add (S n) p (Some ENC28_IP_ADDR) (Some 0) (Some 0) 0 enc28_ip_init_callback netif_input (store_at p g s) =
  Done p (mk_lwip (<[p := set_name (name g) (set_flags (NETIF_FLAG_BROADCAST .| NETIF_FLAG_ETHARP
            .| NETIF_FLAG_ETHERNET .| NETIF_FLAG_IGMP .| NETIF_FLAG_MLD6) (net_ifc_started g))]> (netifs s))
            p (netif_default s) 1 []).
Proof.
  intros Hp H6 Hl Hn Hr. unfold netif_add. apply Z.eqb_neq in Hp. rewrite Hp.
  do 7 apply step_store. apply step_get. do 2 apply step_store.
  change (netif_num (store_at _ _ s)) with (netif_num s). rewrite Hn.
  match goal with |- bind _ _ (store_at _ ?x _) = _ => change x with (netif_reset 0 g) end.
  eapply step_at; [now apply at_netif_set_addr |].
  eapply step_at; [now apply at_netif_init_callback |]. cbn [negb Z.eqb ERR_OK].
  match goal with |- bind _ _ (store_at p ?i s) = _ =>
    rewrite (bind_done _ _ _ _ _ (number_first n p (store_at p i s) i (store_at_lookup p i s) Hl eq_refl)) end.
  eapply step_at; [apply at_netif_load |].
  unfold bind at 1, write_netif_num, modify. apply step_get.
  unfold store_at. cbn [netifs netif_list netif_default netif_num gratuitous].
  unfold bind at 1, store_netif. cbn [netifs netif_list netif_default netif_num gratuitous].
  rewrite lookup_insert_eq, insert_insert_eq, Hl, Hr. reflexivity.
Qed.

Lemma ip_start_run n s p g : p <> 0 -> booted s p g ->
  ip_stack_task_start (S n) p s = Done tt (started_state s p (net_ifc_started g)).
Proof.
  intros Hp [E H6 H2 Hl Hd Hn Hr]. apply list_of_2 in H2 as (c1 & c2 & Ec).
  rewrite <- (store_at_same p g s E) at 1. unfold ip_stack_task_start. do 2 apply step_store.
  match goal with |- bind _ _ (store_at p ?i s) = _ =>
    rewrite (bind_done _ _ _ _ _ (netif_add_run n s p i Hp H6 Hl Hn Hr)) end.
  apply Z.eqb_neq in Hp. rewrite Hp. cbn [negb].
  unfold netif_set_up, netif_set_default, write_netif_default, modify, configASSERT, bind at 1 2, ret. rewrite Hp.
  cbn [netifs netif_list netif_default netif_num gratuitous name set_name]. rewrite Ec. cbn [insert list_insert].
  match goal with |- _ ?st = _ => change st with (store_at p (set_name [0x65; 0x31] (set_flags (NETIF_FLAG_BROADCAST
    .| NETIF_FLAG_ETHARP .| NETIF_FLAG_ETHERNET .| NETIF_FLAG_IGMP .| NETIF_FLAG_MLD6) (net_ifc_started g)))
    (mk_lwip (netifs s) p p 1 [])) end.
  eapply step_at; [apply at_netif_load |]. cbn [negb truth flags set_name set_flags].
  apply step_store. rewrite at_netif_reports by reflexivity. reflexivity.
Qed.

(** ** Properties *)

(** The IP task starts its interface whatever was in its stack memory: no assertion fails, the
    interface has the configured IP and MAC addresses, hands its packets to [netif_input] and sends
    them with [etharp_output] and [enc28_netif_output]; it is the only one, the default, and up. Its mask and
    gateway are zero, the MTU is 1518, and it has no link. *)
Theorem ip_interface_started (n : nat) (s : lwip) (p : Z) (g : netif) :
  p <> 0 -> booted s p g ->
  exists s' i, ip_stack_task_start (S n) p s = Done tt s' /\ netifs s' !! p = Some i /\
    netif_list s' = p /\ next i = 0 /\ netif_default s' = p /\
    ip_addr i = 192 + 168 * 256 + 22 * 16777216 /\ netmask i = 0 /\ gw i = 0 /\
    hwaddr i = [0xDE; 0xAD; 0xBE; 0xEF; 0xCC; 0xAA] /\ hwaddr_len i = 6 /\ mtu i = 1518 /\
    input i = netif_input /\ output i = etharp_output /\ linkoutput i = enc28_netif_output /\
    name i = [0x65; 0x31] /\ num i = 0 /\ netif_is_up i = true /\ netif_is_link_up i = false /\
    (forall a, a <> p -> netifs s' !! a = netifs s !! a).
Proof.
  intros Hp Hb. exists (started_state s p (net_ifc_started g)), (net_ifc_started g).
  split; [now apply ip_start_run |]. split; [apply lookup_insert_eq |].
  repeat (split; [reflexivity |]). intros a Ha. now apply lookup_insert_ne.
Qed.

Lemma route_search_first n s p i dest : p <> 0 -> netifs s !! p = Some i -> next i = 0 ->
  route_search (S (S n)) p dest s =
  Done (if netif_is_up i && netif_is_link_up i && negb (ip_addr i =? 0) &&
           (ip4_addr_net_eq dest (ip_addr i) (netmask i) ||
            ((flags i .& NETIF_FLAG_BROADCAST =? 0) && (dest =? gw i))) then p else 0) s.
Proof.
  intros Hp E Hn. apply Z.eqb_neq in Hp. cbn [route_search]. rewrite Hp, (load_netif_bind _ _ _ _ E), Hn.
  destruct (_ && _); reflexivity.
Qed.

Lemma net_eq_no_mask a b : ip4_addr_net_eq a b 0 = true.
Proof. unfold ip4_addr_net_eq. rewrite !Z.land_0_r. reflexivity. Qed.

(** C39: The interface is never marked as having a link, so after the start lwIP has no route to any
    destination: [ip4_route] returns [NULL], and the gratuitous ARP that announces the address is not sent.
    After [netif_set_link_up] every destination is routed to the interface, and the address has been
    announced once. *)
Theorem no_route_without_link (n : nat) (s : lwip) (p : Z) (g : netif) (dest : Z) :
  p <> 0 -> booted s p g ->
  (exists s', (ip_stack_task_start (S n) p ;; ip4_route (S (S n)) dest) s = Done 0 s' /\ gratuitous s' = []) /\
  (exists s', (ip_stack_task_start (S n) p ;; netif_set_link_up p ;; ip4_route (S (S n)) dest) s = Done p s' /\
     gratuitous s' = [p]).
Proof.
  intros Hp Hb. rewrite !(bind_done _ _ _ _ _ (ip_start_run n s p g Hp Hb)). unfold ip4_route.
  pose proof Hp as Hp'. apply Z.eqb_neq in Hp'. set (i := net_ifc_started g). split.
  - exists (started_state s p i). split; [| reflexivity]. apply step_get.
    rewrite (bind_done _ _ _ _ _ (route_search_first n (started_state s p i) p i dest Hp (lookup_insert_eq _ _ _) eq_refl)).
    cbn [netif_is_up netif_is_link_up i net_ifc_started flags andb negb Z.eqb].
    unfold started_state at 1. cbn [netif_default]. rewrite Hp'.
    rewrite (load_netif_bind _ _ i); [reflexivity | apply lookup_insert_eq].
  - set (j := set_flags (u8 (flags i .| NETIF_FLAG_LINK_UP)) i).
    exists (mk_lwip (<[p := j]> (netifs s)) p p 1 [p]). split; [| reflexivity].
    assert (E : netif_set_link_up p (started_state s p i) = Done tt (mk_lwip (<[p := j]> (netifs s)) p p 1 [p])).
    { unfold netif_set_link_up. rewrite Hp'. rewrite (load_netif_bind _ _ i) by apply lookup_insert_eq.
      change (negb (truth (flags i .& NETIF_FLAG_LINK_UP))) with true. cbv iota. change (started_state s p i) with
        (store_at p i (mk_lwip (netifs s) p p 1 [])). apply step_store.
      unfold netif_issue_reports. rewrite (load_netif_bind _ _ j) by apply lookup_insert_eq.
      reflexivity. }
    rewrite (bind_done _ _ _ _ _ E). apply step_get.
    cbn [netif_list netif_default].
    erewrite bind_done by (apply (route_search_first n _ p j dest Hp (lookup_insert_eq _ _ _) eq_refl)).
    replace (ip4_addr_net_eq dest (ip_addr j) (netmask j)) with true by (symmetry; apply net_eq_no_mask).
    assert (Eup : netif_is_up j && netif_is_link_up j && negb (ip_addr j =? 0) = true) by reflexivity.
    rewrite Eup. cbn [orb andb]. now rewrite Hp'.
Qed.

(** ** Instances *)

Definition ex_stack : netif :=
  mk_netif 0x1234 7 7 7 (unknown_fn 1) (unknown_fn 2) (unknown_fn 3) 9 9 (repeat 0xA5 6) 0xA5 0xFF [0xA5; 0xA5] 0xA5.
Definition ex_boot : lwip := mk_lwip {[ 0x20004000 := ex_stack ]} 0 0 0 [].

Lemma ex_booted : booted ex_boot 0x20004000 ex_stack.
Proof. constructor; reflexivity. Qed.

Lemma ip_interface_started_witness :
  exists s' i, ip_stack_task_start 1 0x20004000 ex_boot = Done tt s' /\ netifs s' !! 0x20004000 = Some i /\
    hwaddr i = [0xDE; 0xAD; 0xBE; 0xEF; 0xCC; 0xAA].
Proof.
  destruct (ip_interface_started 0 ex_boot 0x20004000 ex_stack ltac:(lia) ex_booted)
    as (s' & i & E & Ei & _ & _ & _ & _ & _ & _ & H & _).
  exists s', i. exact (conj E (conj Ei H)).
Defined.

Lemma no_route_without_link_witness :
  exists s', (ip_stack_task_start 1 0x20004000 ;; ip4_route 2 0x0100A8C0) ex_boot = Done 0 s'.
Proof.
  destruct (no_route_without_link 0 ex_boot 0x20004000 ex_stack 0x0100A8C0 ltac:(lia) ex_booted) as [(s' & E & _) _].
  exists s'. exact E.
Defined.
