(* ===== verification/Etharp.v ===== *)
(** Address resolution, [core/ipv4/etharp.c] of lwIP, with [ethernet_output] and [ip4_addr_isbroadcast].

    The table of addresses is the state, together with the frames handed to the interfaces and the number
    of packet buffers asked for. A packet is the list of its bytes with what matters of its buffers: whether
    there is room for an Ethernet header in front, and whether its memory may change. The interface
    structures are only read here; whether an allocation succeeds and what [linkoutput] returns are
    parameters. An interface is the address of its structure, 0 for [NULL]. Addresses are in network byte
    order on a little-endian machine. The configuration is lwIP's default: one packet queued for an address,
    no static entries, entries match their interface, no VLAN. *)
From Stdlib Require Import ZArith Lia Bool.
From stdpp Require Import base decidable list gmap.
From S2P Require Import Prelude LwipChksum Netif.

Definition ERR_MEM : Z := -1.
Definition ERR_BUF : Z := -2.
Definition ERR_RTE : Z := -4.
Definition ERR_ARG : Z := -16.

Definition ARP_TABLE_SIZE : nat := 10.
Definition ARP_MAXAGE : Z := 300.
Definition ARP_MAXPENDING : Z := 5.
Definition ARP_AGE_REREQUEST_USED_UNICAST : Z := ARP_MAXAGE - 30.
Definition ARP_AGE_REREQUEST_USED_BROADCAST : Z := ARP_MAXAGE - 15.
Definition ETHARP_FLAG_TRY_HARD : Z := 1.
Definition ETHARP_FLAG_FIND_ONLY : Z := 2.
Definition ETH_HWADDR_LEN : Z := 6.
Definition ETHTYPE_IP : Z := 0x0800.
Definition ETHTYPE_ARP : Z := 0x0806.
Definition LWIP_IANA_HWTYPE_ETHERNET : Z := 1.
Definition ARP_REQUEST : Z := 1.
Definition ARP_REPLY : Z := 2.
Definition LL_IP4_MULTICAST_ADDR_0 : Z := 0x01.
Definition LL_IP4_MULTICAST_ADDR_1 : Z := 0x00.
Definition LL_IP4_MULTICAST_ADDR_2 : Z := 0x5e.
Definition ethbroadcast : list Z := [0xff; 0xff; 0xff; 0xff; 0xff; 0xff].
Definition ethzero : list Z := [0; 0; 0; 0; 0; 0].
Definition IPADDR_ANY : Z := 0.
Definition IPADDR_BROADCAST : Z := 0xffffffff.

(** ** Addresses *)

Definition ip4_addr_isany_val (a : Z) : bool := a =? IPADDR_ANY.
Definition ip4_addr_ismulticast (a : Z) : bool := a .& PP_HTONL 0xf0000000 =? PP_HTONL 0xe0000000.
Definition ip4_addr_islinklocal (a : Z) : bool := a .& PP_HTONL 0xffff0000 =? PP_HTONL 0xa9fe0000.

(** [ip4_addr_isbroadcast_u32(addr, netif)] *)
Definition ip4_addr_isbroadcast (addr : Z) (n : netif) : bool :=
  if (u32 (Z.lnot addr) =? IPADDR_ANY) || (addr =? IPADDR_ANY) then true
  else if (flags n .& NETIF_FLAG_BROADCAST) =? 0 then false
  else if addr =? ip_addr n then false
  else ip4_addr_net_eq addr (ip_addr n) (netmask n) &&
       (addr .& u32 (Z.lnot (netmask n)) =? IPADDR_BROADCAST .& u32 (Z.lnot (netmask n))).

(** Values in memory. *)
Definition bytes16 (v : Z) : list Z := [v .& 0xFF; Z.shiftr v 8 .& 0xFF].
Definition bytes32 (v : Z) : list Z := [v .& 0xFF; Z.shiftr v 8 .& 0xFF; Z.shiftr v 16 .& 0xFF; Z.shiftr v 24 .& 0xFF].
Definition read16 (bs : list Z) : Z :=
  match bs with b0 :: b1 :: _ => b0 .| Z.shiftl b1 8 | _ => 0 end.
Definition read32 (bs : list Z) : Z :=
  match bs with
  | b0 :: b1 :: b2 :: b3 :: _ => b0 .| Z.shiftl b1 8 .| Z.shiftl b2 16 .| Z.shiftl b3 24
  | _ => 0
  end.

(** ** State *)

Inductive etharp_state : Type :=
| ETHARP_STATE_EMPTY
| ETHARP_STATE_PENDING
| ETHARP_STATE_STABLE
| ETHARP_STATE_STABLE_REREQUESTING_1
| ETHARP_STATE_STABLE_REREQUESTING_2.

#[export] Instance etharp_state_eq_dec : EqDecision etharp_state.
Proof. solve_decision. Defined.

(** [state >= ETHARP_STATE_STABLE] *)
Definition is_stable (st : etharp_state) : bool :=
  match st with ETHARP_STATE_EMPTY | ETHARP_STATE_PENDING => false | _ => true end.

Record packet : Type := mk_packet {
  bytes : list Z;
  link_room : bool;      (** room for an Ethernet header in front *)
  needs_copy : bool      (** [PBUF_NEEDS_COPY] of a buffer of the chain *)
}.

Record etharp_entry : Type := mk_entry {
  q : option packet;
  ipaddr : Z;
  entry_netif : Z;
  ethaddr : list Z;
  ctime : Z;
  entry_state : etharp_state
}.

Record arp : Type := mk_arp {
  arp_table : list etharp_entry;
  etharp_cached_entry : nat;
  link : list (Z * list Z);   (** history: frames passed to [linkoutput], with the interface *)
  allocations : nat           (** calls of [pbuf_alloc] so far *)
}.

(** Static storage. *)
Definition empty_entry : etharp_entry := mk_entry None 0 0 ethzero 0 ETHARP_STATE_EMPTY.
Definition arp_reset : arp := mk_arp (repeat empty_entry ARP_TABLE_SIZE) 0 [] 0.

Definition set_q v e := mk_entry v (ipaddr e) (entry_netif e) (ethaddr e) (ctime e) (entry_state e).
Definition set_ipaddr v e := mk_entry (q e) v (entry_netif e) (ethaddr e) (ctime e) (entry_state e).
Definition set_entry_netif v e := mk_entry (q e) (ipaddr e) v (ethaddr e) (ctime e) (entry_state e).
Definition set_ethaddr v e := mk_entry (q e) (ipaddr e) (entry_netif e) v (ctime e) (entry_state e).
Definition set_ctime v e := mk_entry (q e) (ipaddr e) (entry_netif e) (ethaddr e) v (entry_state e).
Definition set_entry_state v e := mk_entry (q e) (ipaddr e) (entry_netif e) (ethaddr e) (ctime e) v.

#[local] Abbreviation M := (prog arp).

Definition set_table (t : list etharp_entry) (s : arp) : arp := mk_arp t (etharp_cached_entry s) (link s) (allocations s).

(** [arp_table[i]]; an index outside the table is undefined. *)
Definition load_entry (i : nat) : M etharp_entry := fun s =>
  match arp_table s !! i with Some e => Done e s | None => Undefined end.
Definition update_entry (i : nat) (f : etharp_entry -> etharp_entry) : M unit := fun s =>
  match arp_table s !! i with Some e => Done tt (set_table (<[i := f e]> (arp_table s)) s) | None => Undefined end.

Definition LWIP_ASSERT_arp (b : bool) : M unit := if b then ret tt else halt.

(** [ETHARP_SET_ADDRHINT] *)
Definition ETHARP_SET_ADDRHINT (i : nat) : M unit :=
  modify (fun s => mk_arp (arp_table s) i (link s) (allocations s)).

Section Etharp.
Variable interface : Z -> netif.              (** the interface structures *)
Variable alloc : nat -> bool.                 (** whether the n-th allocation succeeds *)
Variable linkoutput_result : Z -> list Z -> Z.

(** [pbuf_alloc(PBUF_LINK, ...)]: whether there is memory. *)
Definition pbuf_alloc : M bool := fun s =>
  Done (alloc (allocations s)) (mk_arp (arp_table s) (etharp_cached_entry s) (link s) (S (allocations s))).

Definition linkoutput_call (netif : Z) (frame : list Z) : M Z := fun s =>
  Done (linkoutput_result netif frame)
    (mk_arp (arp_table s) (etharp_cached_entry s) (link s ++ [(netif, frame)]) (allocations s)).

(** ** [netif/ethernet.c] *)

Definition ethernet_output (netif : Z) (p : packet) (src dst : list Z) (eth_type : Z) : M Z :=
  if negb (link_room p) then ret ERR_BUF
  else
    LWIP_ASSERT_arp (hwaddr_len (interface netif) =? ETH_HWADDR_LEN) ;;
    linkoutput_call netif (dst ++ src ++ bytes16 (lwip_htons eth_type) ++ bytes p).

(** ** [core/ipv4/etharp.c] *)

Definition etharp_free_entry (i : nat) : M unit :=
  update_entry i (fun e => set_entry_state ETHARP_STATE_EMPTY (set_q None e)).

(** The packet of [struct etharp_hdr]. *)
Definition etharp_hdr (opcode : Z) (hwsrc : list Z) (ipsrc : Z) (hwdst : list Z) (ipdst : Z) : list Z :=
  bytes16 (PP_HTONS LWIP_IANA_HWTYPE_ETHERNET) ++ bytes16 (PP_HTONS ETHTYPE_IP) ++ [ETH_HWADDR_LEN; 4] ++
  bytes16 (lwip_htons opcode) ++ hwsrc ++ bytes32 ipsrc ++ hwdst ++ bytes32 ipdst.

Definition etharp_raw (netif : Z) (ethsrc_addr ethdst_addr hwsrc_addr : list Z) (ipsrc_addr : Z) (hwdst_addr : list Z)
  (ipdst_addr opcode : Z) : M Z :=
  ok <- pbuf_alloc ;;
  if negb ok then ret ERR_MEM
  else
    LWIP_ASSERT_arp (hwaddr_len (interface netif) =? ETH_HWADDR_LEN) ;;
    let p := mk_packet (etharp_hdr opcode hwsrc_addr ipsrc_addr hwdst_addr ipdst_addr) true false in
    ethernet_output netif p ethsrc_addr ethdst_addr ETHTYPE_ARP ;;
    ret ERR_OK.

Definition etharp_request_dst (netif ipaddr : Z) (hw_dst_addr : list Z) : M Z :=
  let n := interface netif in
  etharp_raw netif (hwaddr n) hw_dst_addr (hwaddr n) (ip_addr n) ethzero ipaddr ARP_REQUEST.

Definition etharp_request (netif ipaddr : Z) : M Z := etharp_request_dst netif ipaddr ethbroadcast.

(** The body of the loop of [etharp_tmr]. *)
Definition etharp_tmr_entry (i : nat) : M unit :=
  e <- load_entry i ;;
  if decide (entry_state e = ETHARP_STATE_EMPTY) then ret tt
  else
    update_entry i (fun e => set_ctime (u16 (ctime e + 1)) e) ;;
    e <- load_entry i ;;
    if (ARP_MAXAGE <=? ctime e) || (bool_decide (entry_state e = ETHARP_STATE_PENDING) && (ARP_MAXPENDING <=? ctime e))
    then etharp_free_entry i
    else if decide (entry_state e = ETHARP_STATE_STABLE_REREQUESTING_1)
    then update_entry i (set_entry_state ETHARP_STATE_STABLE_REREQUESTING_2)
    else if decide (entry_state e = ETHARP_STATE_STABLE_REREQUESTING_2)
    then update_entry i (set_entry_state ETHARP_STATE_STABLE)
    else if decide (entry_state e = ETHARP_STATE_PENDING)
    then etharp_request (entry_netif e) (ipaddr e) ;; ret tt
    else ret tt.

Fixpoint etharp_tmr_loop (n i : nat) : M unit :=
  match n with
  | O => ret tt
  | S n' => etharp_tmr_entry i ;; etharp_tmr_loop n' (S i)
  end.

Definition etharp_tmr : M unit := etharp_tmr_loop ARP_TABLE_SIZE 0.

(** *** [etharp_find_entry] *)

(** The candidates met so far; an index of [ARP_TABLE_SIZE] is none. *)
Record candidates : Type := mk_candidates {
  empty : nat;
  old_pending : nat; age_pending : Z;
  old_stable : nat; age_stable : Z;
  old_queue : nat; age_queue : Z
}.

Definition no_candidates : candidates := mk_candidates ARP_TABLE_SIZE ARP_TABLE_SIZE 0 ARP_TABLE_SIZE 0 ARP_TABLE_SIZE 0.

(** The address and the interface are those of the entry. *)
Definition entry_matches (ip netif : Z) (e : etharp_entry) : bool :=
  (ip =? ipaddr e) && ((netif =? 0) || (netif =? entry_netif e)).

(** What the sweep remembers of an entry that does not match. *)
Definition remember (i : nat) (e : etharp_entry) (c : candidates) : candidates :=
  match entry_state e with
  | ETHARP_STATE_EMPTY =>
    if (empty c =? ARP_TABLE_SIZE)%nat
    then mk_candidates i (old_pending c) (age_pending c) (old_stable c) (age_stable c) (old_queue c) (age_queue c)
    else c
  | ETHARP_STATE_PENDING =>
    match q e with
    | Some _ =>
      if age_queue c <=? ctime e
      then mk_candidates (empty c) (old_pending c) (age_pending c) (old_stable c) (age_stable c) i (ctime e) else c
    | None =>
      if age_pending c <=? ctime e
      then mk_candidates (empty c) i (ctime e) (old_stable c) (age_stable c) (old_queue c) (age_queue c) else c
    end
  | _ =>
    if age_stable c <=? ctime e
    then mk_candidates (empty c) (old_pending c) (age_pending c) i (ctime e) (old_queue c) (age_queue c) else c
  end.

(** The sweep over the table: a matching entry, or the candidates. *)
Fixpoint find_sweep (ip netif : Z) (i : nat) (es : list etharp_entry) (c : candidates) : nat + candidates :=
  match es with
  | [] => inr c
  | e :: es' =>
    if negb (bool_decide (entry_state e = ETHARP_STATE_EMPTY)) && entry_matches ip netif e then inl i
    else find_sweep ip netif (S i) es' (remember i e c)
  end.

(** The index of the entry, or [ERR_MEM]. The address is never [NULL] here. *)
Definition etharp_find_entry (ip flags netif : Z) : M (option nat) :=
  s <- get ;;
  match find_sweep ip netif 0 (arp_table s) no_candidates with
  | inl i => ret (Some i)
  | inr c =>
    if truth (flags .& ETHARP_FLAG_FIND_ONLY) ||
       ((empty c =? ARP_TABLE_SIZE)%nat && negb (truth (flags .& ETHARP_FLAG_TRY_HARD)))
    then ret None
    else
      i <-
        (if (empty c <? ARP_TABLE_SIZE)%nat then ret (Some (empty c))
         else
           i <- (if (old_stable c <? ARP_TABLE_SIZE)%nat then
                   e <- load_entry (old_stable c) ;;
                   LWIP_ASSERT_arp (bool_decide (q e = None)) ;;
                   ret (Some (old_stable c))
                 else if (old_pending c <? ARP_TABLE_SIZE)%nat then ret (Some (old_pending c))
                 else if (old_queue c <? ARP_TABLE_SIZE)%nat then ret (Some (old_queue c))
                 else ret None) ;;
           match i with
           | Some i => etharp_free_entry i ;; ret (Some i)
           | None => ret None
           end) ;;
      match i with
      | Some i =>
        e <- load_entry i ;;
        LWIP_ASSERT_arp (bool_decide (entry_state e = ETHARP_STATE_EMPTY)) ;;
        update_entry i (fun e => set_entry_netif netif (set_ctime 0 (set_ipaddr ip e))) ;;
        ret (Some i)
      | None => ret None
      end
  end.

Definition etharp_update_arp_entry (netif ip : Z) (eth : list Z) (flags : Z) : M Z :=
  let n := interface netif in
  LWIP_ASSERT_arp (hwaddr_len n =? ETH_HWADDR_LEN) ;;
  if ip4_addr_isany_val ip || ip4_addr_isbroadcast ip n || ip4_addr_ismulticast ip then ret ERR_ARG
  else
    i <- etharp_find_entry ip flags netif ;;
    match i with
    | None => ret ERR_MEM
    | Some i =>
      update_entry i (set_entry_state ETHARP_STATE_STABLE) ;;
      update_entry i (set_entry_netif netif) ;;
      update_entry i (set_ethaddr eth) ;;
      update_entry i (set_ctime 0) ;;
      e <- load_entry i ;;
      match q e with
      | Some p =>
        update_entry i (set_q None) ;;
        ethernet_output netif p (hwaddr n) eth ETHTYPE_IP ;;
        ret ERR_OK
      | None => ret ERR_OK
      end
    end.

Definition etharp_find_addr (netif ip : Z) : M (option (nat * list Z * Z)) :=
  i <- etharp_find_entry ip ETHARP_FLAG_FIND_ONLY netif ;;
  match i with
  | Some i =>
    e <- load_entry i ;;
    ret (if is_stable (entry_state e) then Some (i, ethaddr e, ipaddr e) else None)
  | None => ret None
  end.

Definition etharp_cleanup_entry (netif : Z) (i : nat) : M unit :=
  e <- load_entry i ;;
  if negb (bool_decide (entry_state e = ETHARP_STATE_EMPTY)) && (entry_netif e =? netif)
  then etharp_free_entry i else ret tt.

Fixpoint etharp_cleanup_loop (netif : Z) (n i : nat) : M unit :=
  match n with
  | O => ret tt
  | S n' => etharp_cleanup_entry netif i ;; etharp_cleanup_loop netif n' (S i)
  end.

Definition etharp_cleanup_netif (netif : Z) : M unit := etharp_cleanup_loop netif ARP_TABLE_SIZE 0.

(** The address, the interface and the Ethernet address of a stable entry. *)
Definition etharp_get_entry (i : nat) : M (option (Z * Z * list Z)) :=
  if (i <? ARP_TABLE_SIZE)%nat then
    e <- load_entry i ;;
    ret (if is_stable (entry_state e) then Some (ipaddr e, entry_netif e, ethaddr e) else None)
  else ret None.

(** [p] is the packet without its Ethernet header; reading the header of a shorter one is undefined. *)
Definition etharp_input (p : list Z) (netif : Z) : M unit :=
  if netif =? 0 then ret tt
  else if (length p <? 28)%nat then undefined
  else
    let hwtype := read16 p in
    let proto := read16 (drop 2 p) in
    let hwlen := p !!! 4%nat in
    let protolen := p !!! 5%nat in
    let opcode := read16 (drop 6 p) in
    let shwaddr := take 6 (drop 8 p) in
    let sipaddr := read32 (drop 14 p) in
    let dipaddr := read32 (drop 24 p) in
    if negb (hwtype =? PP_HTONS LWIP_IANA_HWTYPE_ETHERNET) || negb (hwlen =? ETH_HWADDR_LEN) || negb (protolen =? 4) ||
       negb (proto =? PP_HTONS ETHTYPE_IP)
    then ret tt
    else
      let n := interface netif in
      let configured := negb (ip4_addr_isany_val (ip_addr n)) in
      let for_us := configured && (dipaddr =? ip_addr n) in
      let from_us := configured && (sipaddr =? ip_addr n) in
      etharp_update_arp_entry netif sipaddr shwaddr (if for_us then ETHARP_FLAG_TRY_HARD else ETHARP_FLAG_FIND_ONLY) ;;
      if opcode =? PP_HTONS ARP_REQUEST then
        if for_us && negb from_us then
          etharp_raw netif (hwaddr n) shwaddr (hwaddr n) (ip_addr n) shwaddr sipaddr ARP_REPLY ;;
          ret tt
        else ret tt
      else ret tt.

Definition etharp_output_to_arp_index (netif : Z) (p : packet) (arp_idx : nat) : M Z :=
  e <- load_entry arp_idx ;;
  LWIP_ASSERT_arp (is_stable (entry_state e)) ;;
  (if decide (entry_state e = ETHARP_STATE_STABLE) then
     if ARP_AGE_REREQUEST_USED_BROADCAST <=? ctime e then
       r <- etharp_request netif (ipaddr e) ;;
       if r =? ERR_OK then update_entry arp_idx (set_entry_state ETHARP_STATE_STABLE_REREQUESTING_1) else ret tt
     else if ARP_AGE_REREQUEST_USED_UNICAST <=? ctime e then
       r <- etharp_request_dst netif (ipaddr e) (ethaddr e) ;;
       if r =? ERR_OK then update_entry arp_idx (set_entry_state ETHARP_STATE_STABLE_REREQUESTING_1) else ret tt
     else ret tt
   else ret tt) ;;
  e <- load_entry arp_idx ;;
  ethernet_output netif p (hwaddr (interface netif)) (ethaddr e) ETHTYPE_IP.

(** The packet as it can be kept: itself, or a copy of it. *)
Definition keep_packet (p : packet) : M (option packet) :=
  if needs_copy p then
    ok <- pbuf_alloc ;;
    ret (if ok then Some (mk_packet (bytes p) true false) else None)
  else ret (Some p).

Definition etharp_query (netif ip : Z) (p : option packet) : M Z :=
  let n := interface netif in
  if ip4_addr_isbroadcast ip n || ip4_addr_ismulticast ip || ip4_addr_isany_val ip then ret ERR_ARG
  else
    i <- etharp_find_entry ip ETHARP_FLAG_TRY_HARD netif ;;
    match i with
    | None => ret ERR_MEM
    | Some i =>
      e <- load_entry i ;;
      let is_new_entry := bool_decide (entry_state e = ETHARP_STATE_EMPTY) in
      (if is_new_entry then
         update_entry i (set_entry_state ETHARP_STATE_PENDING) ;; update_entry i (set_entry_netif netif)
       else ret tt) ;;
      result <-
        (if is_new_entry || bool_decide (p = None) then
           result <- etharp_request netif ip ;;
           e <- load_entry i ;;
           (if (result =? ERR_OK) && bool_decide (entry_state e = ETHARP_STATE_PENDING) && negb is_new_entry
            then update_entry i (set_ctime 0) else ret tt) ;;
           ret result
         else ret ERR_MEM) ;;
      match p with
      | None => ret result
      | Some p =>
        e <- load_entry i ;;
        if is_stable (entry_state e) then
          ETHARP_SET_ADDRHINT i ;;
          ethernet_output netif p (hwaddr n) (ethaddr e) ETHTYPE_IP
        else
          kept <- keep_packet p ;;
          match kept with
          | Some p => update_entry i (set_q (Some p)) ;; ret ERR_OK
          | None => ret ERR_MEM
          end
      end
    end.

(** The search for a stable entry in [etharp_output]. *)
Fixpoint find_stable (netif dst : Z) (i : nat) (es : list etharp_entry) : option nat :=
  match es with
  | [] => None
  | e :: es' =>
    if is_stable (entry_state e) && (entry_netif e =? netif) && (dst =? ipaddr e) then Some i
    else find_stable netif dst (S i) es'
  end.

Definition etharp_output (netif : Z) (p : packet) (ip : Z) : M Z :=
  let n := interface netif in
  if ip4_addr_isbroadcast ip n then ethernet_output netif p (hwaddr n) ethbroadcast ETHTYPE_IP
  else if ip4_addr_ismulticast ip then
    let mcastaddr := [LL_IP4_MULTICAST_ADDR_0; LL_IP4_MULTICAST_ADDR_1; LL_IP4_MULTICAST_ADDR_2;
                      (bytes32 ip !!! 1%nat) .& 0x7f; bytes32 ip !!! 2%nat; bytes32 ip !!! 3%nat] in
    ethernet_output netif p (hwaddr n) mcastaddr ETHTYPE_IP
  else
    let outside := negb (ip4_addr_net_eq ip (ip_addr n) (netmask n)) && negb (ip4_addr_islinklocal ip) in
    if outside && ip4_addr_isany_val (gw n) then ret ERR_RTE
    else
      let dst_addr := if outside then gw n else ip in
      s <- get ;;
      e <- load_entry (etharp_cached_entry s) ;;
      if is_stable (entry_state e) && (entry_netif e =? netif) && (dst_addr =? ipaddr e)
      then etharp_output_to_arp_index netif p (etharp_cached_entry s)
      else
        match find_stable netif dst_addr 0 (arp_table s) with
        | Some i => ETHARP_SET_ADDRHINT i ;; etharp_output_to_arp_index netif p i
        | None => etharp_query netif dst_addr (Some p)
        end.
End Etharp.
