(* ===== verification/EtharpTable.v ===== *)
(** The address table of [Etharp]: its invariant, what the search for an entry finds and recycles, and
    the frames that calls send. *)
From Stdlib Require Import ZArith Lia Bool.
From stdpp Require Import base decidable list gmap.
From S2P Require Import Prelude LwipChksum Netif Etharp.

(** * The monad *)

Lemma abind_assoc {A B C} (m : prog arp A) (f : A -> prog arp B) (g : B -> prog arp C) s :
  bind (bind m f) g s = bind m (fun a => bind (f a) g) s.
Proof. unfold bind. now destruct (m s). Qed.

Lemma aget_bind {A} (s : arp) (f : arp -> prog arp A) : bind get f s = f s s.
Proof. reflexivity. Qed.

Lemma aret_bind {A B} (a : A) (s : arp) (f : A -> prog arp B) : bind (ret a) f s = f a s.
Proof. reflexivity. Qed.

Lemma aassert_bind {A} (b : bool) (s : arp) (f : unit -> prog arp A) : b = true ->
  bind (LWIP_ASSERT_arp b) f s = f tt s.
Proof. now intros ->. Qed.

Lemma load_entry_bind {A} i e (s : arp) (f : etharp_entry -> prog arp A) : arp_table s !! i = Some e ->
  bind (load_entry i) f s = f e s.
Proof. intros H. unfold bind, load_entry. now rewrite H. Qed.

Lemma update_entry_run i e g (s : arp) : arp_table s !! i = Some e ->
  update_entry i g s = Done tt (set_table (<[i := g e]> (arp_table s)) s).
Proof. intros H. unfold update_entry. now rewrite H. Qed.

Lemma update_entry_bind {A} i e g (s : arp) (f : unit -> prog arp A) : arp_table s !! i = Some e ->
  bind (update_entry i g) f s = f tt (set_table (<[i := g e]> (arp_table s)) s).
Proof. intros H. now rewrite (bind_done _ _ _ _ _ (update_entry_run i e g s H)). Qed.

(** Calls that return, and what then holds. *)
Definition returns {S A} (m : prog S A) (s : S) (Q : A -> S -> Prop) : Prop :=
  match m s with Done a s' => Q a s' | _ => False end.

Lemma returns_done {S A} (m : prog S A) s (Q : A -> S -> Prop) a s' : m s = Done a s' -> Q a s' -> returns m s Q.
Proof. unfold returns. now intros ->. Qed.

Lemma returns_bind {S A B} (m : prog S A) (f : A -> prog S B) s (R : A -> S -> Prop) (Q : B -> S -> Prop) : returns m s R ->
  (forall a s', R a s' -> returns (f a) s' Q) -> returns (bind m f) s Q.
Proof. unfold returns, bind. destruct (m s); try easy. intros H K. now apply K. Qed.

Lemma returns_mono {S A} (m : prog S A) s (R Q : A -> S -> Prop) : returns m s R -> (forall a s', R a s' -> Q a s') ->
  returns m s Q.
Proof. unfold returns. destruct (m s); auto. Qed.

Lemma returns_exists {S A} (m : prog S A) s (Q : A -> S -> Prop) : returns m s Q -> exists a s', m s = Done a s' /\ Q a s'.
Proof. unfold returns. destruct (m s); try easy. eauto. Qed.

(** * The invariant *)

(** An Ethernet interface. *)
Record ethernet (n : netif) : Prop := {
  eth_len : hwaddr_len n = 6;
  eth_hwaddr : length (hwaddr n) = 6%nat
}.

Section Table.
Variable interface : Z -> netif.

Definition usable (netif : Z) : Prop := netif <> 0 /\ ethernet (interface netif).

Definition used (e : etharp_entry) : Prop := entry_state e <> ETHARP_STATE_EMPTY.

(** An entry: packets wait only for pending ones, ages are below the limits, addresses have six bytes. *)
Record entry_ok (e : etharp_entry) : Prop := {
  eo_queue : q e <> None -> entry_state e = ETHARP_STATE_PENDING;
  eo_age : 0 <= ctime e;
  eo_max : used e -> ctime e < ARP_MAXAGE;
  eo_pending : entry_state e = ETHARP_STATE_PENDING -> ctime e < ARP_MAXPENDING;
  eo_eth : length (ethaddr e) = 6%nat;
  eo_netif : used e -> usable (entry_netif e)
}.

Record arp_inv (s : arp) : Prop := {
  ai_size : length (arp_table s) = ARP_TABLE_SIZE;
  ai_cached : (etharp_cached_entry s < ARP_TABLE_SIZE)%nat;
  ai_entries : Forall entry_ok (arp_table s);
  ai_unique : forall i j e f, arp_table s !! i = Some e -> arp_table s !! j = Some f -> used e -> used f ->
                ipaddr e = ipaddr f -> entry_netif e = entry_netif f -> i = j
}.

Lemma entry_at s i : arp_inv s -> (i < ARP_TABLE_SIZE)%nat -> exists e, arp_table s !! i = Some e /\ entry_ok e.
Proof.
  intros H Hi. rewrite <- (ai_size s H) in Hi. destruct (lookup_lt_is_Some_2 _ _ Hi) as [e E].
  exists e. split; [exact E |]. exact (proj1 (Forall_lookup _ _) (ai_entries s H) i e E).
Qed.

Lemma entry_lt s i e : arp_inv s -> arp_table s !! i = Some e -> (i < ARP_TABLE_SIZE)%nat.
Proof. intros H E. rewrite <- (ai_size s H). now apply lookup_lt_Some in E. Qed.

(** Changing an entry without giving it the address of another one. *)
Lemma set_entry_inv s i e e' : arp_inv s -> arp_table s !! i = Some e -> entry_ok e' ->
  (used e' -> forall j f, j <> i -> arp_table s !! j = Some f -> used f ->
     ~ (ipaddr f = ipaddr e' /\ entry_netif f = entry_netif e')) ->
  arp_inv (set_table (<[i := e']> (arp_table s)) s).
Proof.
  intros H E He' Hu. pose proof (entry_lt s i e H E) as Hi. destruct H as [H1 H2 H3 H4].
  split; cbn [arp_table etharp_cached_entry set_table]; [now rewrite length_insert | exact H2 | now apply Forall_insert |].
  intros j k a b Ha Hb Ua Ub E1 E2.
  destruct (decide (j = i)) as [-> | Nj], (decide (k = i)) as [-> | Nk]; [reflexivity | | |].
  - rewrite list_lookup_insert_eq in Ha by (now rewrite H1). rewrite list_lookup_insert_ne in Hb by congruence.
    injection Ha as <-. exfalso. apply (Hu Ua k b Nk Hb Ub). split; congruence.
  - rewrite list_lookup_insert_eq in Hb by (now rewrite H1). rewrite list_lookup_insert_ne in Ha by congruence.
    injection Hb as <-. exfalso. apply (Hu Ub j a Nj Ha Ua). split; congruence.
  - rewrite list_lookup_insert_ne in Ha by congruence. rewrite list_lookup_insert_ne in Hb by congruence. eauto.
Qed.

(** Changing a used entry that keeps its address. *)
Lemma keep_address_inv s i e e' : arp_inv s -> arp_table s !! i = Some e -> entry_ok e' -> (used e' -> used e) ->
  ipaddr e' = ipaddr e -> entry_netif e' = entry_netif e -> arp_inv (set_table (<[i := e']> (arp_table s)) s).
Proof.
  intros H E He' Hu E1 E2. apply set_entry_inv with e; try assumption.
  intros Ue' j f Nj Ej Uf [F1 F2]. apply Nj. apply (ai_unique s H j i f e Ej E Uf (Hu Ue')); congruence.
Qed.

(** Frames sent and memory asked for do not matter. *)
Lemma inv_table s s' : arp_inv s -> arp_table s' = arp_table s -> (etharp_cached_entry s' < ARP_TABLE_SIZE)%nat ->
  arp_inv s'.
Proof. intros [H1 H2 H3 H4] E Hc. split; rewrite ?E; assumption. Qed.

Lemma arp_reset_inv : arp_inv arp_reset.
Proof.
  split; [reflexivity | cbn; unfold ARP_TABLE_SIZE; lia | |].
  - apply Forall_forall. intros e He. apply list_elem_of_In, repeat_spec in He. subst e.
    split; cbn; try (unfold ARP_MAXAGE; lia); try congruence; try reflexivity. now intros [].
  - intros i j e f Ei _ Ue. cbn in Ei. apply list_elem_of_lookup_2, list_elem_of_In in Ei.
    exfalso. apply Ue. change (repeat empty_entry ARP_TABLE_SIZE) with (repeat empty_entry 10) in *.
    apply (repeat_spec 10) in Ei. now subst e.
Qed.

(** * The search *)

Definition queued (e : etharp_entry) : Prop := entry_state e = ETHARP_STATE_PENDING /\ q e <> None.
Definition unqueued (e : etharp_entry) : Prop := entry_state e = ETHARP_STATE_PENDING /\ q e = None.
Definition stable (e : etharp_entry) : Prop := is_stable (entry_state e) = true.

(** The oldest of the first [n] entries of a kind, if there is one. *)
Definition oldest (P : etharp_entry -> Prop) (t : list etharp_entry) (n i : nat) (age : Z) : Prop :=
  (i = ARP_TABLE_SIZE /\ age = 0 /\ forall j e, (j < n)%nat -> t !! j = Some e -> ~ P e) \/
  (exists e, (i < n)%nat /\ t !! i = Some e /\ P e /\ age = ctime e /\
     forall j f, (j < n)%nat -> t !! j = Some f -> P f -> ctime f <= age).

Record swept (t : list etharp_entry) (n : nat) (c : candidates) : Prop := {
  sw_empty : (empty c = ARP_TABLE_SIZE /\ forall j e, (j < n)%nat -> t !! j = Some e -> used e) \/
             (exists e, (empty c < n)%nat /\ t !! empty c = Some e /\ ~ used e /\
                forall j f, (j < empty c)%nat -> t !! j = Some f -> used f);
  sw_pending : oldest unqueued t n (old_pending c) (age_pending c);
  sw_stable : oldest stable t n (old_stable c) (age_stable c);
  sw_queue : oldest queued t n (old_queue c) (age_queue c)
}.

Lemma oldest_skip P t n i age e : t !! n = Some e -> ~ P e -> oldest P t n i age -> oldest P t (S n) i age.
Proof.
  intros En Ne [(H1 & H2 & H3) | (f & H1 & H2 & H3 & H4 & H5)]; [left | right; exists f].
  - repeat split; try assumption. intros j g Hj Eg. destruct (decide (j = n)) as [-> | N]; [congruence |].
    apply (H3 j); [lia | exact Eg].
  - repeat split; try assumption; [lia |]. intros j g Hj Eg Pg. destruct (decide (j = n)) as [-> | N]; [congruence |].
    apply (H5 j); [lia | exact Eg | exact Pg].
Qed.

Lemma oldest_add P t n i age e : t !! n = Some e -> P e -> 0 <= ctime e -> oldest P t n i age ->
  if age <=? ctime e then oldest P t (S n) n (ctime e) else oldest P t (S n) i age.
Proof.
  intros En Pe Hc H. destruct (Z.leb_spec age (ctime e)) as [L | L].
  - right. exists e. repeat split; try assumption; [lia |]. intros j g Hj Eg Pg.
    destruct (decide (j = n)) as [-> | N]; [replace g with e by congruence; lia |].
    destruct H as [(_ & _ & H3) | (f & H1 & H2 & H3 & H4 & H5)]; [exfalso; apply (H3 j g); [lia | exact Eg | exact Pg] |].
    specialize (H5 j g ltac:(lia) Eg Pg). lia.
  - destruct H as [(H1 & -> & H3) | (f & H1 & H2 & H3 & H4 & H5)]; [lia |]. right. exists f.
    repeat split; try assumption; [lia |]. intros j g Hj Eg Pg.
    destruct (decide (j = n)) as [-> | N]; [replace g with e by congruence; lia |]. apply (H5 j g); [lia | exact Eg | exact Pg].
Qed.

Lemma entry_matches_spec ip netif e : netif <> 0 ->
  entry_matches ip netif e = true <-> ip = ipaddr e /\ netif = entry_netif e.
Proof.
  intros N. unfold entry_matches. rewrite andb_true_iff, orb_true_iff, !Z.eqb_eq. tauto.
Qed.

Lemma used_spec e : negb (bool_decide (entry_state e = ETHARP_STATE_EMPTY)) = true <-> used e.
Proof. unfold used. rewrite negb_true_iff, bool_decide_eq_false. reflexivity. Qed.

(** An entry is of one of the four kinds. *)
Lemma entry_kinds e :
  (~ used e /\ ~ stable e /\ ~ unqueued e /\ ~ queued e) \/
  (used e /\ stable e /\ ~ unqueued e /\ ~ queued e) \/
  (used e /\ ~ stable e /\ unqueued e /\ ~ queued e) \/
  (used e /\ ~ stable e /\ ~ unqueued e /\ queued e).
Proof.
  unfold used, stable, unqueued, queued.
  destruct (entry_state e), (q e); cbn; firstorder congruence.
Qed.

Lemma remember_ok t i e c : length t = ARP_TABLE_SIZE -> t !! i = Some e -> 0 <= ctime e -> swept t i c -> swept t (S i) (remember i e c).
Proof.
  intros Hlen He Hc [S1 S2 S3 S4].
  assert (E : used e -> (empty c = ARP_TABLE_SIZE /\ forall j f, (j < S i)%nat -> t !! j = Some f -> used f) \/
                        (exists f, (empty c < S i)%nat /\ t !! empty c = Some f /\ ~ used f /\
                           forall j g, (j < empty c)%nat -> t !! j = Some g -> used g)).
  { intros Ue. destruct S1 as [[A B] | (f & A & B)]; [left | right; exists f; split; [lia | exact B]].
    split; [exact A |]. intros j f Hj Ef.
    destruct (decide (j = i)) as [-> | N]; [congruence | apply (B j); [lia | exact Ef]]. }
  pose proof (fun P N => oldest_skip P t i (old_pending c) (age_pending c) e He N) as Kp.
  pose proof (fun P N => oldest_skip P t i (old_stable c) (age_stable c) e He N) as Ks.
  pose proof (fun P N => oldest_skip P t i (old_queue c) (age_queue c) e He N) as Kq.
  pose proof (fun P Pe => oldest_add P t i (old_pending c) (age_pending c) e He Pe Hc) as Ap.
  pose proof (fun P Pe => oldest_add P t i (old_stable c) (age_stable c) e He Pe Hc) as As.
  pose proof (fun P Pe => oldest_add P t i (old_queue c) (age_queue c) e He Pe Hc) as Aq.
  destruct (entry_kinds e) as [(U & N1 & N2 & N3) | [(U & Y & N2 & N3) | [(U & N1 & Y & N3) | (U & N1 & N2 & Y)]]];
    unfold remember.
  - assert (Es : entry_state e = ETHARP_STATE_EMPTY) by (unfold used in U; destruct (decide (entry_state e = ETHARP_STATE_EMPTY)); tauto).
    rewrite Es. destruct (empty c =? ARP_TABLE_SIZE)%nat eqn:Ee; split; cbn; auto.
    + destruct S1 as [[_ A] | (f & A & _)].
      * right. exists e. eauto.
      * apply Nat.eqb_eq in Ee. apply lookup_lt_Some in He. lia.
    + destruct S1 as [[A _] | (f & A & B)]; [rewrite A in Ee; discriminate |]. right. exists f. auto.
  - specialize (As _ Y S3).
    assert (Es : forall A (x y z : A), match entry_state e with ETHARP_STATE_EMPTY => x | ETHARP_STATE_PENDING => y | _ => z end = z)
      by (unfold stable in Y; destruct (entry_state e); try discriminate; reflexivity).
    rewrite Es. destruct (age_stable c <=? ctime e); split; cbn; auto.
  - specialize (Ap _ Y S2). destruct Y as [Es Eq]. rewrite Es, Eq.
    destruct (age_pending c <=? ctime e); split; cbn; auto.
  - specialize (Aq _ Y S4). destruct Y as [Es Eq]. rewrite Es. destruct (q e); [| congruence].
    destruct (age_queue c <=? ctime e); split; cbn; auto.
Qed.

Definition absent (t : list etharp_entry) (ip netif : Z) : Prop :=
  forall j e, t !! j = Some e -> used e -> ~ (ip = ipaddr e /\ netif = entry_netif e).

Lemma find_sweep_from ip netif t : netif <> 0 -> Forall entry_ok t -> length t = ARP_TABLE_SIZE ->
  forall es i c, drop i t = es -> swept t i c ->
  (i <= length t)%nat -> absent (take i t) ip netif ->
  match find_sweep ip netif i es c with
  | inl k => exists e, t !! k = Some e /\ used e /\ ip = ipaddr e /\ netif = entry_netif e
  | inr c' => swept t (length t) c' /\ absent t ip netif
  end.
Proof.
  intros Hn Hok Hlen. induction es as [| e es IH]; intros i c Hd Hsw Hi Hno; cbn [find_sweep].
  - assert (i = length t) as -> by (apply (f_equal length) in Hd; rewrite length_drop in Hd; cbn in Hd; lia).
    rewrite take_ge in Hno by lia. auto.
  - assert (He : t !! i = Some e) by (rewrite <- (Nat.add_0_r i), <- lookup_drop, Hd; reflexivity).
    destruct (negb _ && _) eqn:Em.
    + apply andb_true_iff in Em as [U M]. apply used_spec in U. apply entry_matches_spec in M; [| exact Hn].
      exists e. tauto.
    + apply IH.
      * rewrite (drop_S t e i He) in Hd. congruence.
      * apply remember_ok; [exact Hlen | exact He | exact (eo_age e (proj1 (Forall_lookup _ _) Hok i e He)) | exact Hsw].
      * apply lookup_lt_Some in He. lia.
      * intros j f Ej Uf. rewrite (take_S_r t i e He) in Ej. apply lookup_app_Some in Ej as [Ej | [Lj Ej]]; [eauto |].
        apply list_lookup_singleton_Some in Ej as [_ <-]. rewrite <- entry_matches_spec by exact Hn.
        apply used_spec in Uf. rewrite Uf in Em. cbn in Em. congruence.
Qed.

Lemma swept_none t : swept t 0 no_candidates.
Proof.
  split; cbn; left; repeat split; intros; lia.
Qed.

Lemma find_sweep_ok ip netif s : netif <> 0 -> arp_inv s ->
  match find_sweep ip netif 0 (arp_table s) no_candidates with
  | inl k => exists e, arp_table s !! k = Some e /\ used e /\ ip = ipaddr e /\ netif = entry_netif e
  | inr c => swept (arp_table s) ARP_TABLE_SIZE c /\ absent (arp_table s) ip netif
  end.
Proof.
  intros Hn H.
  pose proof (find_sweep_from ip netif (arp_table s) Hn (ai_entries s H) (ai_size s H) (arp_table s) 0 no_candidates eq_refl
    (swept_none _) (Nat.le_0_l _)) as K.
  destruct (find_sweep _ _ _ _ _); [| rewrite <- (ai_size s H)]; apply K; now intros j e.
Qed.

(** The entry a new address gets: the first empty one, else the oldest stable one, else the oldest pending
    one without a packet, else the oldest pending one. *)
Definition least_destructive (t : list etharp_entry) (i : nat) : Prop :=
  exists e, t !! i = Some e /\
  ((~ used e /\ forall j f, (j < i)%nat -> t !! j = Some f -> used f) \/
   (forall j f, t !! j = Some f -> used f) /\
   ((stable e /\ forall j f, t !! j = Some f -> stable f -> ctime f <= ctime e) \/
    (forall j f, t !! j = Some f -> ~ stable f) /\
    ((unqueued e /\ forall j f, t !! j = Some f -> unqueued f -> ctime f <= ctime e) \/
     (forall j f, t !! j = Some f -> ~ unqueued f) /\
     queued e /\ forall j f, t !! j = Some f -> queued f -> ctime f <= ctime e))).

(** The entry as [etharp_find_entry] creates it. *)
Definition fresh (ip netif : Z) (e : etharp_entry) : etharp_entry :=
  mk_entry None ip netif (ethaddr e) 0 ETHARP_STATE_EMPTY.

Lemma oldest_full P t i age : length t = ARP_TABLE_SIZE -> oldest P t ARP_TABLE_SIZE i age ->
  if (i <? ARP_TABLE_SIZE)%nat
  then exists e, t !! i = Some e /\ P e /\ forall j f, t !! j = Some f -> P f -> ctime f <= ctime e
  else forall j f, t !! j = Some f -> ~ P f.
Proof.
  intros Hl [(-> & _ & H) | (e & H1 & H2 & H3 & -> & H5)].
  - rewrite Nat.ltb_irrefl. intros j f Ej. apply (H j f); [apply lookup_lt_Some in Ej; lia | exact Ej].
  - rewrite (proj2 (Nat.ltb_lt _ _) H1). exists e. repeat split; try assumption.
    intros j f Ej Pf. apply (H5 j f); [apply lookup_lt_Some in Ej; lia | exact Ej | exact Pf].
Qed.

(** Freeing an entry and giving it to the address. *)
Lemma recycle_run i e ip netif s : arp_table s !! i = Some e ->
  bind (etharp_free_entry i) (fun _ => bind (load_entry i) (fun e =>
    bind (LWIP_ASSERT_arp (bool_decide (entry_state e = ETHARP_STATE_EMPTY))) (fun _ =>
    bind (update_entry i (fun e => set_entry_netif netif (set_ctime 0 (set_ipaddr ip e)))) (fun _ => ret (Some i))))) s =
  Done (Some i) (set_table (<[i := fresh ip netif e]> (arp_table s)) s).
Proof.
  intros E. pose proof (lookup_lt_Some _ _ _ E) as Hi. unfold etharp_free_entry. rewrite (update_entry_bind _ e) by exact E.
  set (e' := set_entry_state _ _). assert (E' : arp_table (set_table (<[i := e']> (arp_table s)) s) !! i = Some e')
    by (cbn; now apply list_lookup_insert_eq).
  rewrite (load_entry_bind _ e') by exact E'. rewrite aassert_bind by reflexivity.
  rewrite (update_entry_bind _ e') by exact E'. unfold ret, set_table; cbn. now rewrite list_insert_insert_eq.
Qed.

Lemma find_present ip fl netif s i e : arp_inv s -> netif <> 0 -> arp_table s !! i = Some e -> used e ->
  ip = ipaddr e -> netif = entry_netif e -> etharp_find_entry ip fl netif s = Done (Some i) s.
Proof.
  intros H Hn E U -> En. unfold etharp_find_entry. rewrite aget_bind.
  pose proof (find_sweep_ok (ipaddr e) netif s Hn H) as K. destruct (find_sweep _ _ _ _ _) as [k | c].
  - destruct K as (f & Ef & Uf & F1 & F2). unfold ret. do 2 f_equal.
    apply (ai_unique s H k i f e); congruence.
  - destruct K as [_ K]. exfalso. exact (K i e E U (conj eq_refl En)).
Qed.

(** Only [ETHARP_FLAG_TRY_HARD] recycles, and [ETHARP_FLAG_FIND_ONLY] creates nothing. *)
Definition may_create (t : list etharp_entry) (fl : Z) : Prop :=
  fl .& ETHARP_FLAG_FIND_ONLY = 0 /\
  ((exists i e, t !! i = Some e /\ ~ used e) \/ fl .& ETHARP_FLAG_TRY_HARD <> 0).

Lemma not_used_empty e : ~ used e -> entry_state e = ETHARP_STATE_EMPTY.
Proof. unfold used. destruct (decide (entry_state e = ETHARP_STATE_EMPTY)); tauto. Qed.

Lemma not_pending_q e : entry_ok e -> entry_state e <> ETHARP_STATE_PENDING -> q e = None.
Proof.
  intros He U. destruct (q e) eqn:Eq; [| reflexivity].
  exfalso. apply U, (eo_queue e He). congruence.
Qed.

Lemma fresh_empty ip netif e : entry_ok e -> ~ used e ->
  set_entry_netif netif (set_ctime 0 (set_ipaddr ip e)) = fresh ip netif e.
Proof.
  intros He Nu. unfold fresh, set_entry_netif, set_ctime, set_ipaddr. cbn.
  rewrite (not_used_empty e Nu), (not_pending_q e He); [reflexivity |]. rewrite (not_used_empty e Nu). discriminate.
Qed.

(** The candidates of a full sweep over a table without empty entries contain a victim. *)
Lemma victim t c : length t = ARP_TABLE_SIZE -> swept t ARP_TABLE_SIZE c -> (forall j f, t !! j = Some f -> used f) ->
  exists i e, t !! i = Some e /\ least_destructive t i /\
  (if (old_stable c <? ARP_TABLE_SIZE)%nat then i = old_stable c /\ stable e
   else if (old_pending c <? ARP_TABLE_SIZE)%nat then i = old_pending c
   else if (old_queue c <? ARP_TABLE_SIZE)%nat then i = old_queue c else False).
Proof.
  intros Hl [_ S2 S3 S4] Hu. apply oldest_full in S2, S3, S4; try exact Hl.
  destruct (old_stable c <? ARP_TABLE_SIZE)%nat.
  { destruct S3 as (e & E & Se & Hmax). exists (old_stable c), e. split; [exact E |]. split; [exists e; auto 10 | split; [reflexivity | exact Se]]. }
  destruct (old_pending c <? ARP_TABLE_SIZE)%nat.
  { destruct S2 as (e & E & Se & Hmax). exists (old_pending c), e. split; [exact E |]. split; [exists e; auto 10 | reflexivity]. }
  destruct (old_queue c <? ARP_TABLE_SIZE)%nat.
  { destruct S4 as (e & E & Se & Hmax). exists (old_queue c), e. split; [exact E |]. split; [exists e; auto 12 | reflexivity]. }
  exfalso. destruct (lookup_lt_is_Some_2 t 0) as [e E]; [rewrite Hl; unfold ARP_TABLE_SIZE; lia |].
  specialize (Hu 0%nat e E). specialize (S2 0%nat e E). specialize (S3 0%nat e E). specialize (S4 0%nat e E).
  destruct (entry_kinds e) as [K | [K | [K | K]]]; tauto.
Qed.

Lemma flag_off fl b : truth (fl .& b) = false <-> fl .& b = 0.
Proof. unfold truth. now rewrite negb_false_iff, Z.eqb_eq. Qed.

Lemma flag_on fl b : truth (fl .& b) = true <-> fl .& b <> 0.
Proof. unfold truth. now rewrite negb_true_iff, Z.eqb_neq. Qed.

Lemma find_absent ip fl netif s : arp_inv s -> netif <> 0 -> absent (arp_table s) ip netif ->
  (may_create (arp_table s) fl /\ exists i e, arp_table s !! i = Some e /\ least_destructive (arp_table s) i /\
     etharp_find_entry ip fl netif s = Done (Some i) (set_table (<[i := fresh ip netif e]> (arp_table s)) s)) \/
  (~ may_create (arp_table s) fl /\ etharp_find_entry ip fl netif s = Done None s).
Proof.
  intros H Hn Ha. unfold etharp_find_entry. rewrite aget_bind.
  pose proof (find_sweep_ok ip netif s Hn H) as K. destruct (find_sweep _ _ _ _ _) as [k | c].
  { destruct K as (e & E & U & E1 & E2). exfalso. exact (Ha k e E U (conj E1 E2)). }
  destruct K as [Sw _]. pose proof (ai_size s H) as Hl.
  destruct (truth (fl .& ETHARP_FLAG_FIND_ONLY)) eqn:Ef; cbn [orb].
  { right. split; [| reflexivity]. intros [F _]. apply flag_on in Ef. exact (Ef F). }
  apply flag_off in Ef. destruct (sw_empty _ _ _ Sw) as [[Ec Hu] | (e & Ei & E & Nu & Hfirst)].
  - assert (Hall : forall j f, arp_table s !! j = Some f -> used f)
      by (intros j f Ej; apply (Hu j f); [apply lookup_lt_Some in Ej; lia | exact Ej]).
    rewrite Ec, Nat.eqb_refl, Nat.ltb_irrefl. cbn [andb].
    destruct (truth (fl .& ETHARP_FLAG_TRY_HARD)) eqn:Et; cbn [negb].
    2: { right. split; [| reflexivity]. apply flag_off in Et.
      intros [_ [(i & e & E & Ne) | F]]; [exact (Ne (Hall i e E)) | exact (F Et)]. }
    left. split; [split; [exact Ef | right; now apply flag_on] |].
    destruct (victim _ c Hl Sw Hall) as (i & e & E & L & V). exists i, e. split; [exact E |]. split; [exact L |].
    destruct (old_stable c <? ARP_TABLE_SIZE)%nat; [destruct V as [<- Se] |
      destruct (old_pending c <? ARP_TABLE_SIZE)%nat; [rewrite <- V |
      destruct (old_queue c <? ARP_TABLE_SIZE)%nat; [rewrite <- V | easy]]].
    2-3: rewrite abind_assoc, aret_bind, abind_assoc; now apply recycle_run.
    assert (Eq : q e = None).
    { apply not_pending_q; [exact (proj1 (Forall_lookup _ _) (ai_entries s H) _ e E) |].
      intros F. unfold stable in Se. rewrite F in Se. discriminate. }
    rewrite !abind_assoc, (load_entry_bind _ e) by exact E. rewrite !abind_assoc, aassert_bind by now apply bool_decide_eq_true.
    rewrite aret_bind, abind_assoc. now apply recycle_run.
  - left. rewrite (proj2 (Nat.eqb_neq _ _)) by lia. cbn [andb]. rewrite (proj2 (Nat.ltb_lt _ _) Ei), aret_bind.
    split; [split; [exact Ef | left; eauto] |]. exists (empty c), e. split; [exact E |].
    split; [exists e; auto |]. pose proof (proj1 (Forall_lookup _ _) (ai_entries s H) _ e E) as He.
    rewrite (load_entry_bind _ e), aassert_bind by (try exact E; now apply bool_decide_eq_true, not_used_empty).
    rewrite (update_entry_bind _ e), fresh_empty by assumption. reflexivity.
Qed.


(** * Changes of the table *)

(** A change entry by entry that frees entries or lets them be, their addresses unchanged. *)
Lemma map_inv s s' (f : etharp_entry -> etharp_entry) : arp_inv s -> arp_table s' = f <$> arp_table s ->
  etharp_cached_entry s' = etharp_cached_entry s ->
  (forall e, entry_ok e -> entry_ok (f e) /\ (used (f e) -> used e) /\ ipaddr (f e) = ipaddr e /\
     entry_netif (f e) = entry_netif e) -> arp_inv s'.
Proof.
  intros [H1 H2 H3 H4] Et Ec Hf. split; rewrite ?Et, ?Ec; try assumption.
  - now rewrite length_fmap.
  - apply Forall_fmap. eapply Forall_impl; [exact H3 |]. intros e He. apply (Hf e He).
  - intros i j e e' Ei Ej. rewrite list_lookup_fmap in Ei, Ej. rewrite Forall_lookup in H3.
    destruct (arp_table s !! i) as [a |] eqn:Ea; [| discriminate].
    destruct (arp_table s !! j) as [b |] eqn:Eb; [| discriminate].
    cbn in Ei, Ej. injection Ei as <-. injection Ej as <-. intros Ua Ub E1 E2.
    destruct (Hf a (H3 i a Ea)) as (_ & A1 & A2 & A3), (Hf b (H3 j b Eb)) as (_ & B1 & B2 & B3).
    apply (H4 i j a b Ea Eb); auto; congruence.
Qed.

Lemma freed_ok e : entry_ok e ->
  entry_ok (set_entry_state ETHARP_STATE_EMPTY (set_q None e)).
Proof.
  intros [H1 H2 H3 H4 H5 H6]. split; cbn; try assumption; try congruence; intros []; reflexivity.
Qed.

(** An entry given to an address that is not in the table, its state still empty. *)
Lemma fresh_inv s i e ip netif : arp_inv s -> arp_table s !! i = Some e ->
  arp_inv (set_table (<[i := fresh ip netif e]> (arp_table s)) s).
Proof.
  intros H E. pose proof (proj1 (Forall_lookup _ _) (ai_entries s H) i e E) as He.
  apply (set_entry_inv s i e); [exact H | exact E | | intros []; reflexivity].
  unfold fresh. split; cbn; try congruence; try (intros []; reflexivity); [lia | apply He].
Qed.

(** An entry of an address that no other entry has. *)
Definition own (t : list etharp_entry) (i : nat) (ip netif : Z) : Prop :=
  forall j f, j <> i -> t !! j = Some f -> used f -> ~ (ip = ipaddr f /\ netif = entry_netif f).

(** ** Sending *)

Variable alloc : nat -> bool.
Variable linkoutput_result : Z -> list Z -> Z.

(** The Ethernet frame of a packet. *)
Definition frame (dst src : list Z) (eth_type : Z) (payload : list Z) : list Z :=
  dst ++ src ++ bytes16 (lwip_htons eth_type) ++ payload.

Definition log (netif : Z) (fr : list Z) (s : arp) : arp :=
  mk_arp (arp_table s) (etharp_cached_entry s) (link s ++ [(netif, fr)]) (allocations s).
Definition allocated (s : arp) : arp :=
  mk_arp (arp_table s) (etharp_cached_entry s) (link s) (S (allocations s)).

Lemma ethernet_output_run netif p src dst ty s : ethernet (interface netif) ->
  ethernet_output interface linkoutput_result netif p src dst ty s =
  if link_room p then Done (linkoutput_result netif (frame dst src ty (bytes p))) (log netif (frame dst src ty (bytes p)) s)
  else Done ERR_BUF s.
Proof.
  intros [Hl _]. unfold ethernet_output. destruct (link_room p); cbn [negb]; [| reflexivity].
  rewrite aassert_bind; [reflexivity |]. rewrite Hl. reflexivity.
Qed.

(** The frame of an ARP packet. *)
Definition arp_frame (dst src : list Z) (opcode : Z) (hwsrc : list Z) (ipsrc : Z) (hwdst : list Z) (ipdst : Z) : list Z :=
  frame dst src ETHTYPE_ARP (etharp_hdr opcode hwsrc ipsrc hwdst ipdst).

Lemma etharp_raw_run netif src dst hwsrc ipsrc hwdst ipdst op s : ethernet (interface netif) ->
  etharp_raw interface alloc linkoutput_result netif src dst hwsrc ipsrc hwdst ipdst op s =
  if alloc (allocations s) then Done ERR_OK (log netif (arp_frame dst src op hwsrc ipsrc hwdst ipdst) (allocated s))
  else Done ERR_MEM (allocated s).
Proof.
  intros Hn. unfold etharp_raw. rewrite (bind_done _ _ (alloc (allocations s)) s (allocated s)) by reflexivity.
  destruct (alloc (allocations s)); cbn [negb]; [| reflexivity].
  rewrite aassert_bind by (destruct Hn as [-> _]; reflexivity).
  erewrite bind_done; [reflexivity |]. rewrite ethernet_output_run by exact Hn. reflexivity.
Qed.

(** The request for an address. *)
Definition request_frame (netif ip : Z) (dst : list Z) : list Z :=
  let n := interface netif in arp_frame dst (hwaddr n) ARP_REQUEST (hwaddr n) (ip_addr n) ethzero ip.

Lemma etharp_request_dst_run netif ip dst s : ethernet (interface netif) ->
  etharp_request_dst interface alloc linkoutput_result netif ip dst s =
  if alloc (allocations s) then Done ERR_OK (log netif (request_frame netif ip dst) (allocated s))
  else Done ERR_MEM (allocated s).
Proof. apply etharp_raw_run. Qed.

(** Only frames and allocations: the table is as it was. *)
Definition same (s s' : arp) : Prop :=
  arp_table s' = arp_table s /\ etharp_cached_entry s' = etharp_cached_entry s.

Lemma same_inv s s' : arp_inv s -> same s s' -> arp_inv s'.
Proof. intros H [E1 E2]. apply inv_table with s; try assumption. rewrite E2. apply (ai_cached s H). Qed.

Lemma ethernet_output_same netif p src dst ty s : ethernet (interface netif) ->
  returns (ethernet_output interface linkoutput_result netif p src dst ty) s (fun _ => same s).
Proof. intros H. unfold returns. rewrite ethernet_output_run by exact H. now destruct (link_room p). Qed.

Lemma etharp_raw_same netif src dst hwsrc ipsrc hwdst ipdst op s : ethernet (interface netif) ->
  returns (etharp_raw interface alloc linkoutput_result netif src dst hwsrc ipsrc hwdst ipdst op) s (fun _ => same s).
Proof. intros H. unfold returns. rewrite etharp_raw_run by exact H. now destruct (alloc _). Qed.
End Table.
