(* ===== verification/EtharpProofs.v ===== *)
(** The calls of [Etharp]: every one returns and keeps the table's invariant, requests for the interface's
    address are answered, unknown addresses are resolved, and entries expire. *)
From Stdlib Require Import ZArith Lia Bool.
From stdpp Require Import base decidable list gmap.
From S2P Require Import Prelude LwipChksum Netif Etharp EtharpTable.

Section Calls.
Variable interface : Z -> netif.
Variable alloc : nat -> bool.
Variable linkoutput_result : Z -> list Z -> Z.

#[local] Abbreviation arp_inv := (arp_inv interface).
#[local] Abbreviation entry_ok := (entry_ok interface).
#[local] Abbreviation usable := (usable interface).
#[local] Abbreviation request_frame := (request_frame interface).

(** * Loops over the table *)

(** What a step does to an entry and to the state: entry [i] becomes [f e], and the frames of [out e] are
    sent if memory does not run out. *)
Record stepped (f : etharp_entry -> etharp_entry) (out : etharp_entry -> list (Z * list Z)) (i : nat) (e : etharp_entry)
  (s s' : arp) : Prop := {
  st_table : arp_table s' = <[i := f e]> (arp_table s);
  st_cached : etharp_cached_entry s' = etharp_cached_entry s;
  st_link : (forall k, alloc k = true) -> link s' = link s ++ out e
}.

Fixpoint for_each (body : nat -> prog arp unit) (n i : nat) : prog arp unit :=
  match n with O => ret tt | S n' => body i ;; for_each body n' (S i) end.

Lemma for_each_ok body f out :
  (forall i e s, entry_ok e -> arp_table s !! i = Some e -> returns (body i) s (fun _ => stepped f out i e s)) ->
  forall n i s, (i + n)%nat = length (arp_table s) -> Forall entry_ok (drop i (arp_table s)) ->
  returns (for_each body n i) s (fun _ s' => (
    arp_table s' = take i (arp_table s) ++ (f <$> drop i (arp_table s)) /\
    etharp_cached_entry s' = etharp_cached_entry s /\
    ((forall k, alloc k = true) -> link s' = link s ++ concat (out <$> drop i (arp_table s))))).
Proof.
  intros Hb. induction n as [| n IH]; intros i s Hi Hok; cbn [for_each].
  - rewrite drop_ge, take_ge by lia. cbn. now rewrite !app_nil_r.
  - destruct (lookup_lt_is_Some_2 (arp_table s) i) as [e E]; [lia |].
    rewrite (drop_S _ _ _ E) in Hok |- *. apply Forall_cons in Hok as [He Hok].
    eapply returns_bind; [exact (Hb i e s He E) |]. intros _ s1 [T1 C1 L1].
    assert (Ed : drop (S i) (arp_table s1) = drop (S i) (arp_table s))
      by (rewrite T1; apply drop_insert_lt; lia).
    eapply returns_mono; [apply IH; [rewrite T1, length_insert; lia | now rewrite Ed] |].
    cbn. intros _ s2 (T2 & C2 & L2). rewrite T2, C2, Ed, T1. split; [| split; [exact C1 |]].
    + rewrite (take_S_r _ _ (f e)) by (apply list_lookup_insert_eq; lia).
      rewrite take_insert_ge by lia. now rewrite <- app_assoc.
    + intros Ha. rewrite (L2 Ha), (L1 Ha), Ed, app_assoc. reflexivity.
Qed.

Lemma for_each_table body f out s : arp_inv s ->
  (forall i e s, entry_ok e -> arp_table s !! i = Some e -> returns (body i) s (fun _ => stepped f out i e s)) ->
  returns (for_each body ARP_TABLE_SIZE 0) s (fun _ s' =>
    arp_table s' = f <$> arp_table s /\ etharp_cached_entry s' = etharp_cached_entry s /\
    ((forall k, alloc k = true) -> link s' = link s ++ concat (out <$> arp_table s))).
Proof.
  intros H Hb. apply (for_each_ok body f out Hb ARP_TABLE_SIZE 0 s); [symmetry; apply (ai_size _ s H) | apply (ai_entries _ s H)].
Qed.

(** * The timer *)

Definition freed (e : etharp_entry) : etharp_entry := set_entry_state ETHARP_STATE_EMPTY (set_q None e).

(** An entry after a tick. *)
Definition aged (e : etharp_entry) : etharp_entry :=
  let e' := set_ctime (ctime e + 1) e in
  match entry_state e with
  | ETHARP_STATE_EMPTY => e
  | ETHARP_STATE_PENDING => if ARP_MAXPENDING <=? ctime e + 1 then freed e' else e'
  | ETHARP_STATE_STABLE => if ARP_MAXAGE <=? ctime e + 1 then freed e' else e'
  | ETHARP_STATE_STABLE_REREQUESTING_1 =>
    if ARP_MAXAGE <=? ctime e + 1 then freed e' else set_entry_state ETHARP_STATE_STABLE_REREQUESTING_2 e'
  | ETHARP_STATE_STABLE_REREQUESTING_2 =>
    if ARP_MAXAGE <=? ctime e + 1 then freed e' else set_entry_state ETHARP_STATE_STABLE e'
  end.

(** The request a tick sends for an entry. *)
Definition resent (e : etharp_entry) : list (Z * list Z) :=
  if decide (entry_state e = ETHARP_STATE_PENDING) then
    if ctime e + 1 <? ARP_MAXPENDING then [(entry_netif e, request_frame (entry_netif e) (ipaddr e) ethbroadcast)] else []
  else [].

Lemma aged_ok e : entry_ok e -> entry_ok (aged e) /\ (used (aged e) -> used e) /\ ipaddr (aged e) = ipaddr e /\
  entry_netif (aged e) = entry_netif e.
Proof.
  intros He. pose proof He as [H1 H2 H3 H4 H5 H6]. unfold aged, freed, used in *.
  destruct (entry_state e) eqn:Es; [split; [exact He | rewrite Es; tauto] | | | |];
    match goal with |- context [?a <=? ?b] => destruct (Z.leb_spec a b) end;
    (split; [| now split]); split; cbn; rewrite ?Es; unfold ARP_MAXPENDING, ARP_MAXAGE in *;
    try lia; try congruence; auto; try (intros []; reflexivity); intros K;
    first [apply H6; discriminate | discriminate (H1 K)].
Qed.

Lemma set_table_twice i e e' s : set_table (<[i := e']> (arp_table (set_table (<[i := e]> (arp_table s)) s)))
  (set_table (<[i := e]> (arp_table s)) s) = set_table (<[i := e']> (arp_table s)) s.
Proof. unfold set_table. cbn. now rewrite list_insert_insert_eq. Qed.

Lemma tmr_entry_ok i e s : entry_ok e -> arp_table s !! i = Some e ->
  returns (etharp_tmr_entry interface alloc linkoutput_result i) s (fun _ => stepped aged resent i e s).
Proof.
  intros He E. pose proof (lookup_lt_Some _ _ _ E) as Hi. unfold etharp_tmr_entry, returns.
  rewrite (load_entry_bind _ e) by exact E. destruct (decide (entry_state e = ETHARP_STATE_EMPTY)) as [Es | Hu].
  { split; [| reflexivity |].
    - unfold aged. rewrite Es. symmetry. now apply list_insert_id.
    - intros _. unfold resent. rewrite decide_False by congruence. now rewrite app_nil_r. }
  pose proof (eo_netif _ _ He Hu) as [_ Hnet]. pose proof (eo_max _ _ He Hu) as Hm. pose proof (eo_age _ _ He) as Ha. unfold ARP_MAXAGE in Hm.
  rewrite (update_entry_bind _ e) by exact E. rewrite u16_small by (unfold is_u16; lia).
  set (e' := set_ctime (ctime e + 1) e). set (s1 := set_table (<[i := e']> (arp_table s)) s).
  assert (E' : arp_table s1 !! i = Some e') by (cbn; now apply list_lookup_insert_eq).
  rewrite (load_entry_bind _ e') by exact E'.
  assert (Hs : forall f, update_entry i f s1 = Done tt (set_table (<[i := f e']> (arp_table s)) s))
    by (intros f; rewrite (update_entry_run _ e') by exact E'; unfold s1; now rewrite set_table_twice).
  assert (Hdone : forall f, aged e = f e' -> resent e = [] ->
    match update_entry i f s1 with Done a s' => stepped aged resent i e s s' | _ => False end).
  { intros f Ef Er. rewrite Hs. split; cbn; [now rewrite Ef | reflexivity |]. intros _. rewrite Er. now rewrite app_nil_r. }
  unfold etharp_free_entry. change (ctime e') with (ctime e + 1). change (entry_state e') with (entry_state e).
  unfold aged, resent, used in *. destruct (entry_state e) eqn:Es; [congruence | | | |].
  { pose proof (eo_pending _ _ He Es) as Hp. unfold ARP_MAXPENDING, ARP_MAXAGE in *.
    rewrite (proj2 (Z.leb_gt 300 _)), bool_decide_eq_true_2 by (reflexivity || lia). cbn [orb andb].
    rewrite (decide_True (P := ETHARP_STATE_PENDING = _)) in Hdone by reflexivity.
    destruct (Z.leb_spec 5 (ctime e + 1)) as [L | L].
    - apply Hdone; [reflexivity |]. now rewrite (proj2 (Z.ltb_ge _ _)) by lia.
    - rewrite !decide_False, decide_True by easy. unfold etharp_request, bind.
      rewrite etharp_request_dst_run by exact Hnet.
      destruct (alloc _) eqn:Eal; (split; [| reflexivity |]).
      1,3: cbn; unfold aged; rewrite Es, (proj2 (Z.leb_gt _ _)) by (unfold ARP_MAXPENDING; lia); reflexivity.
      1,2: unfold resent; rewrite decide_True by exact Es.
      1,2: rewrite (proj2 (Z.ltb_lt _ _)) by (unfold ARP_MAXPENDING; lia).
      1,2: intros Hal; cbn in *; congruence. }
  all: rewrite bool_decide_eq_false_2 by discriminate; cbn [andb]; rewrite orb_false_r; unfold ARP_MAXAGE in *.
  all: rewrite (decide_False (P := _ = ETHARP_STATE_PENDING)) in Hdone by discriminate.
  all: destruct (Z.leb_spec 300 (ctime e + 1)) as [L | L]; [now apply Hdone |].
  1: rewrite !decide_False by discriminate.
  2: rewrite decide_True by reflexivity; now apply Hdone.
  2: rewrite decide_False, decide_True by easy; now apply Hdone.
  split; cbn; [unfold aged; rewrite Es, (proj2 (Z.leb_gt _ _)) by (unfold ARP_MAXAGE; lia); reflexivity | reflexivity |].
  intros _. unfold resent. rewrite decide_False by congruence. now rewrite app_nil_r.
Qed.

Lemma tmr_loop_for_each n : forall i,
  etharp_tmr_loop interface alloc linkoutput_result n i = for_each (etharp_tmr_entry interface alloc linkoutput_result) n i.
Proof. induction n as [| n IH]; intros i; cbn; [| rewrite IH]; reflexivity. Qed.

Lemma etharp_tmr_ages s : arp_inv s ->
  returns (etharp_tmr interface alloc linkoutput_result) s (fun _ s' => arp_inv s' /\
    arp_table s' = aged <$> arp_table s /\ etharp_cached_entry s' = etharp_cached_entry s /\
    ((forall k, alloc k = true) -> link s' = link s ++ concat (resent <$> arp_table s))).
Proof.
  intros H. unfold etharp_tmr. rewrite tmr_loop_for_each.
  eapply returns_mono; [apply (for_each_table _ aged resent s H tmr_entry_ok) |].
  cbn. intros _ s' (T & C & L). split; [| auto]. exact (map_inv interface s s' aged H T C aged_ok).
Qed.

(** * Removing the entries of an interface *)

Definition removed (netif : Z) (e : etharp_entry) : etharp_entry :=
  if negb (bool_decide (entry_state e = ETHARP_STATE_EMPTY)) && (entry_netif e =? netif) then freed e else e.

Lemma cleanup_loop_for_each netif n : forall i, etharp_cleanup_loop netif n i = for_each (etharp_cleanup_entry netif) n i.
Proof. induction n as [| n IH]; intros i; cbn; [| rewrite IH]; reflexivity. Qed.

Lemma cleanup_entry_ok netif i e s : entry_ok e -> arp_table s !! i = Some e ->
  returns (etharp_cleanup_entry netif i) s (fun _ => stepped (removed netif) (fun _ => []) i e s).
Proof.
  intros He E. unfold returns, etharp_cleanup_entry, etharp_free_entry, removed. rewrite (load_entry_bind _ e) by exact E.
  destruct (negb _ && _) eqn:Er; [rewrite (update_entry_run _ e) by exact E |]; split; cbn; rewrite ?app_nil_r, ?Er; auto.
  now rewrite list_insert_id.
Qed.

Lemma etharp_cleanup_netif_ok netif s : arp_inv s ->
  returns (etharp_cleanup_netif netif) s (fun _ s' => arp_inv s' /\ arp_table s' = removed netif <$> arp_table s /\
    etharp_cached_entry s' = etharp_cached_entry s).
Proof.
  intros H. unfold etharp_cleanup_netif. rewrite cleanup_loop_for_each.
  eapply returns_mono; [apply (for_each_table _ _ _ s H (cleanup_entry_ok netif)) |].
  cbn. intros _ s' (T & C & L). split; [| auto]. apply (map_inv interface s s' (removed netif) H T C).
  intros e He. unfold removed. destruct (negb _ && _); [| now split]. split; [now apply freed_ok | split; [| now split]].
  intros []. reflexivity.
Qed.

(** * Learning an address *)

(** A unicast address on the interface. *)
Definition unicast (netif ip : Z) : bool :=
  negb (ip4_addr_isany_val ip || ip4_addr_isbroadcast ip (interface netif) || ip4_addr_ismulticast ip).

(** The packet waiting on an entry, as sent once the address is known. *)
Definition flushed (netif : Z) (eth : list Z) (e : etharp_entry) : list (Z * list Z) :=
  match q e with
  | Some p => if link_room p then [(netif, frame eth (hwaddr (interface netif)) ETHTYPE_IP (bytes p))] else []
  | None => []
  end.

Definition resolved (ip netif : Z) (eth : list Z) : etharp_entry := mk_entry None ip netif eth 0 ETHARP_STATE_STABLE.

Definition learn (i : nat) (e : etharp_entry) (ip netif : Z) (eth : list Z) (s : arp) : arp :=
  mk_arp (<[i := resolved ip netif eth]> (arp_table s)) (etharp_cached_entry s) (link s ++ flushed netif eth e)
    (allocations s).

Lemma learn_inv i e e0 ip netif eth s : arp_inv s -> usable netif -> length eth = 6%nat ->
  arp_table s !! i = Some e0 -> own (arp_table s) i ip netif -> arp_inv (learn i e ip netif eth s).
Proof.
  intros H Hn Hl E Ho. apply inv_table with (set_table (<[i := resolved ip netif eth]> (arp_table s)) s);
    [| reflexivity | apply (ai_cached _ s H)].
  apply set_entry_inv with e0; try assumption.
  - split; cbn; try congruence; try (unfold ARP_MAXAGE; lia); auto.
  - cbn. intros _ j f Nj Ej Uf [F1 F2]. apply (Ho j f Nj Ej Uf). auto.
Qed.

(** The end of [etharp_update_arp_entry], on the entry that was found or created. *)
Lemma update_found i e ip netif eth s : ethernet (interface netif) -> arp_table s !! i = Some e -> ipaddr e = ip ->
  (update_entry i (set_entry_state ETHARP_STATE_STABLE) ;;
   update_entry i (set_entry_netif netif) ;;
   update_entry i (set_ethaddr eth) ;;
   update_entry i (set_ctime 0) ;;
   e <- load_entry i ;;
   match q e with
   | Some p =>
     update_entry i (set_q None) ;;
     ethernet_output interface linkoutput_result netif p (hwaddr (interface netif)) eth ETHTYPE_IP ;;
     ret ERR_OK
   | None => ret ERR_OK
   end) s = Done ERR_OK (learn i e ip netif eth s).
Proof.
  intros Hn E <-. pose proof (lookup_lt_Some _ _ _ E) as Hi.
  assert (U : forall f e s A (k : unit -> prog arp A), (i < length (arp_table s))%nat ->
    bind (update_entry i f) k (set_table (<[i := e]> (arp_table s)) s) = k tt (set_table (<[i := f e]> (arp_table s)) s)).
  { intros f e0 s0 A k Hl. rewrite (update_entry_bind _ e0) by (cbn; now apply list_lookup_insert_eq).
    now rewrite set_table_twice. }
  rewrite (update_entry_bind _ e) by exact E. rewrite !U by exact Hi.
  erewrite load_entry_bind by (cbn; now apply list_lookup_insert_eq). cbn [q set_ctime set_ethaddr set_entry_netif set_entry_state].
  unfold learn, flushed, resolved. destruct (q e) as [p |] eqn:Eq.
  - rewrite U by exact Hi. unfold bind. rewrite ethernet_output_run by exact Hn.
    destruct (link_room p); unfold ret, log; cbn; rewrite ?app_nil_r; reflexivity.
  - unfold ret. cbn. rewrite app_nil_r. unfold set_table. cbn.
    unfold set_ctime, set_ethaddr, set_entry_netif, set_entry_state. cbn. now rewrite Eq.
Qed.

Lemma update_entry_present i e fl ip netif eth s : arp_inv s -> usable netif -> unicast netif ip = true ->
  arp_table s !! i = Some e -> used e -> ip = ipaddr e -> netif = entry_netif e ->
  etharp_update_arp_entry interface linkoutput_result netif ip eth fl s = Done ERR_OK (learn i e ip netif eth s).
Proof.
  intros H [Hn0 Hn] Hu E U Ei En. unfold etharp_update_arp_entry.
  rewrite aassert_bind by (destruct Hn as [-> _]; reflexivity). apply negb_true_iff in Hu. rewrite Hu.
  rewrite (bind_done _ _ _ _ _ (find_present interface ip fl netif s i e H Hn0 E U Ei En)).
  now apply update_found.
Qed.

Lemma update_entry_absent fl ip netif eth s : arp_inv s -> usable netif -> unicast netif ip = true ->
  absent (arp_table s) ip netif ->
  (may_create (arp_table s) fl /\ exists i e, arp_table s !! i = Some e /\ least_destructive (arp_table s) i /\
     etharp_update_arp_entry interface linkoutput_result netif ip eth fl s =
       Done ERR_OK (learn i (fresh ip netif e) ip netif eth s)) \/
  (~ may_create (arp_table s) fl /\
     etharp_update_arp_entry interface linkoutput_result netif ip eth fl s = Done ERR_MEM s).
Proof.
  intros H [Hn0 Hn] Hu Ha. unfold etharp_update_arp_entry.
  rewrite aassert_bind by (destruct Hn as [-> _]; reflexivity). apply negb_true_iff in Hu. rewrite Hu.
  destruct (find_absent interface ip fl netif s H Hn0 Ha) as [(Hc & i & e & E & L & F) | (Hc & F)];
    rewrite (bind_done _ _ _ _ _ F); [left | now right].
  split; [exact Hc |]. exists i, e. split; [exact E |]. split; [exact L |].
  rewrite (update_found i (fresh ip netif e) ip); [| exact Hn | | reflexivity].
  - unfold learn. cbn. now rewrite list_insert_insert_eq.
  - cbn. apply list_lookup_insert_eq. exact (lookup_lt_Some _ _ _ E).
Qed.

Lemma update_entry_not_unicast fl ip netif eth s : ethernet (interface netif) -> unicast netif ip = false ->
  etharp_update_arp_entry interface linkoutput_result netif ip eth fl s = Done ERR_ARG s.
Proof.
  intros Hn Hu. unfold etharp_update_arp_entry. rewrite aassert_bind by (destruct Hn as [-> _]; reflexivity).
  apply negb_false_iff in Hu. now rewrite Hu.
Qed.

Lemma present_or_absent t ip netif : absent t ip netif \/
  exists i e, t !! i = Some e /\ used e /\ ip = ipaddr e /\ netif = entry_netif e.
Proof.
  clear interface alloc linkoutput_result. induction t as [| e t [IH | (i & f & E & K)]].
  - left. intros j e Ej. discriminate.
  - destruct (decide (entry_state e = ETHARP_STATE_EMPTY)) as [N | U],
      (decide (ip = ipaddr e /\ netif = entry_netif e)) as [M | M].
    3: right; exists 0%nat, e; split; [reflexivity | tauto].
    all: left; intros [| j] f Ej Uf; [injection Ej as <-; unfold used in Uf; tauto | exact (IH j f Ej Uf)].
  - right. exists (S i), f. auto.
Qed.

Lemma absent_own t i ip netif : absent t ip netif -> own t i ip netif.
Proof. intros Ha j f _. exact (Ha j f). Qed.

Lemma present_own s i e : arp_inv s -> arp_table s !! i = Some e -> used e ->
  own (arp_table s) i (ipaddr e) (entry_netif e).
Proof.
  intros H E U j f Nj Ej Uf [F1 F2]. apply Nj. now apply (ai_unique _ s H j i f e).
Qed.

Lemma update_arp_entry_keeps fl ip netif eth s : arp_inv s -> usable netif -> length eth = 6%nat ->
  returns (etharp_update_arp_entry interface linkoutput_result netif ip eth fl) s (fun _ => arp_inv).
Proof.
  intros H Hn Hl. destruct (unicast netif ip) eqn:Hu.
  2: { eapply returns_done; [apply update_entry_not_unicast; [apply Hn | exact Hu] | exact H]. }
  destruct (present_or_absent (arp_table s) ip netif) as [Ha | (i & e & E & U & Ei & En)].
  - destruct (update_entry_absent fl ip netif eth s H Hn Hu Ha) as [(_ & i & e & E & _ & F) | [_ F]];
      (eapply returns_done; [exact F |]); [| exact H]. apply learn_inv with e; auto. now apply absent_own.
  - eapply returns_done; [apply (update_entry_present i e); eauto |]. apply learn_inv with e; auto.
    subst. now apply present_own.
Qed.

(** * Asking for an address *)

Definition requested (netif ip : Z) (dst : list Z) (s : arp) : arp :=
  if alloc (allocations s) then log netif (request_frame netif ip dst) (allocated s) else allocated s.

Lemma etharp_request_dst_requested netif ip dst s : ethernet (interface netif) ->
  etharp_request_dst interface alloc linkoutput_result netif ip dst s =
  Done (if alloc (allocations s) then ERR_OK else ERR_MEM) (requested netif ip dst s).
Proof. intros Hn. rewrite etharp_request_dst_run by exact Hn. unfold requested. now destruct (alloc _). Qed.

Lemma requested_same netif ip dst s : same s (requested netif ip dst s).
Proof. unfold requested. now destruct (alloc _). Qed.

Lemma requested_set_table netif ip dst t s :
  requested netif ip dst (set_table t s) = set_table t (requested netif ip dst s).
Proof. unfold requested. cbn. now destruct (alloc _). Qed.

(** The packet as it is kept, and the state after that. *)
Definition kept (p : packet) (s : arp) : option packet :=
  if needs_copy p then if alloc (allocations s) then Some (mk_packet (bytes p) true false) else None else Some p.
Definition after_keep (p : packet) (s : arp) : arp := if needs_copy p then allocated s else s.

Lemma keep_packet_run p s : keep_packet alloc p s = Done (kept p s) (after_keep p s).
Proof. unfold keep_packet, kept, after_keep. now destruct (needs_copy p). Qed.

Lemma after_keep_same p s : same s (after_keep p s).
Proof. unfold after_keep. now destruct (needs_copy p). Qed.

Lemma kept_set_table p t s : kept p (set_table t s) = kept p s.
Proof. reflexivity. Qed.

Lemma after_keep_set_table p t s : after_keep p (set_table t s) = set_table t (after_keep p s).
Proof. unfold after_keep. now destruct (needs_copy p). Qed.

Lemma set_table_set_table t t' s : set_table t (set_table t' s) = set_table t s.
Proof. reflexivity. Qed.

(** The packet put on a pending entry. *)
Lemma queue_packet_run i e p s : arp_table s !! i = Some e ->
  (kept <- keep_packet alloc p ;;
   match kept with
   | Some p => update_entry i (set_q (Some p)) ;; ret ERR_OK
   | None => ret ERR_MEM
   end) s =
  match kept p s with
  | Some p' => Done ERR_OK (set_table (<[i := set_q (Some p') e]> (arp_table s)) (after_keep p s))
  | None => Done ERR_MEM (after_keep p s)
  end.
Proof.
  intros E. rewrite (bind_done _ _ _ _ _ (keep_packet_run p s)).
  destruct (after_keep_same p s) as [T _]. destruct (kept p s) as [p' |]; [| reflexivity].
  rewrite (update_entry_bind _ e) by now rewrite T. now rewrite T.
Qed.

Lemma query_unicast netif ip : unicast netif ip = true ->
  ip4_addr_isbroadcast ip (interface netif) || ip4_addr_ismulticast ip || ip4_addr_isany_val ip = false.
Proof.
  unfold unicast. intros H. apply negb_true_iff in H. apply orb_false_iff in H as [H1 H3].
  apply orb_false_iff in H1 as [H1 H2]. now rewrite H1, H2, H3.
Qed.

(** A new address: a request is sent and the packet waits. *)
Lemma query_new netif ip p s : arp_inv s -> usable netif -> unicast netif ip = true -> absent (arp_table s) ip netif ->
  exists i e, arp_table s !! i = Some e /\ least_destructive (arp_table s) i /\
    let s1 := requested netif ip ethbroadcast s in
    etharp_query interface alloc linkoutput_result netif ip p s =
    match p with
    | Some p =>
      Done (match kept p s1 with Some _ => ERR_OK | None => ERR_MEM end)
        (set_table (<[i := mk_entry (kept p s1) ip netif (ethaddr e) 0 ETHARP_STATE_PENDING]> (arp_table s)) (after_keep p s1))
    | None =>
      Done (if alloc (allocations s) then ERR_OK else ERR_MEM)
        (set_table (<[i := mk_entry None ip netif (ethaddr e) 0 ETHARP_STATE_PENDING]> (arp_table s)) s1)
    end.
Proof.
  intros H [Hn0 Hn] Hu Ha.
  destruct (find_absent interface ip ETHARP_FLAG_TRY_HARD netif s H Hn0 Ha) as [(_ & i & e & E & L & F) | [Hc _]].
  2: { exfalso. apply Hc. split; [reflexivity | right; discriminate]. }
  exists i, e. split; [exact E |]. split; [exact L |]. cbv zeta. unfold etharp_query.
  rewrite query_unicast, (bind_done _ _ _ _ _ F) by exact Hu. pose proof (lookup_lt_Some _ _ _ E) as Hi.
  erewrite load_entry_bind by (cbn; now apply list_lookup_insert_eq). cbn [fresh entry_state].
  rewrite bool_decide_eq_true_2 by reflexivity. cbn [orb].
  rewrite abind_assoc. erewrite update_entry_bind by (cbn; now apply list_lookup_insert_eq).
  erewrite update_entry_bind by (cbn; rewrite list_insert_insert_eq; now apply list_lookup_insert_eq).
  rewrite !set_table_set_table. cbn [arp_table set_table]. rewrite !list_insert_insert_eq.
  change (set_entry_netif netif _) with (mk_entry None ip netif (ethaddr e) 0 ETHARP_STATE_PENDING).
  rewrite abind_assoc. unfold etharp_request.
  rewrite (bind_done _ _ _ _ _ (etharp_request_dst_requested _ _ _ _ Hn)), requested_set_table.
  rewrite abind_assoc. erewrite load_entry_bind by (cbn; now apply list_lookup_insert_eq).
  rewrite andb_false_r, abind_assoc, !aret_bind.
  destruct p as [p |]; [| reflexivity].
  erewrite load_entry_bind by (cbn; now apply list_lookup_insert_eq). cbn [is_stable entry_state].
  erewrite queue_packet_run by (cbn; now apply list_lookup_insert_eq).
  rewrite kept_set_table, after_keep_set_table. cbn [arp_table set_table].
  destruct (kept p _); [| reflexivity]. rewrite list_insert_insert_eq, set_table_set_table. reflexivity.
Qed.

(** A known address: a packet goes out at once if the address is resolved, else it replaces the one waiting. *)
Lemma query_packet_known netif ip p i e s : arp_inv s -> usable netif -> unicast netif ip = true ->
  arp_table s !! i = Some e -> used e -> ip = ipaddr e -> netif = entry_netif e ->
  etharp_query interface alloc linkoutput_result netif ip (Some p) s =
  if is_stable (entry_state e)
  then ethernet_output interface linkoutput_result netif p (hwaddr (interface netif)) (ethaddr e) ETHTYPE_IP
         (mk_arp (arp_table s) i (link s) (allocations s))
  else match kept p s with
       | Some p' => Done ERR_OK (set_table (<[i := set_q (Some p') e]> (arp_table s)) (after_keep p s))
       | None => Done ERR_MEM (after_keep p s)
       end.
Proof.
  intros H [Hn0 Hn] Hu E U Ei En. unfold etharp_query. rewrite query_unicast by exact Hu.
  rewrite (bind_done _ _ _ _ _ (find_present interface ip _ netif s i e H Hn0 E U Ei En)).
  rewrite (load_entry_bind _ e) by exact E. rewrite bool_decide_eq_false_2 by exact U.
  cbn [orb]. rewrite bool_decide_eq_false_2 by discriminate. rewrite !aret_bind.
  rewrite (load_entry_bind _ e) by exact E. destruct (is_stable (entry_state e)); [reflexivity |].
  now apply queue_packet_run.
Qed.

Lemma query_request_known netif ip i e s : arp_inv s -> usable netif -> unicast netif ip = true ->
  arp_table s !! i = Some e -> used e -> ip = ipaddr e -> netif = entry_netif e ->
  returns (etharp_query interface alloc linkoutput_result netif ip None) s (fun _ s' =>
    same s s' \/ same (set_table (<[i := set_ctime 0 e]> (arp_table s)) s) s').
Proof.
  intros H [Hn0 Hn] Hu E U Ei En. unfold returns, etharp_query. rewrite query_unicast by exact Hu.
  rewrite (bind_done _ _ _ _ _ (find_present interface ip _ netif s i e H Hn0 E U Ei En)).
  rewrite (load_entry_bind _ e) by exact E. rewrite bool_decide_eq_false_2 by exact U.
  cbn [orb]. rewrite bool_decide_eq_true_2 by reflexivity. rewrite aret_bind, abind_assoc. unfold etharp_request.
  rewrite (bind_done _ _ _ _ _ (etharp_request_dst_requested _ _ _ _ Hn)).
  destruct (requested_same netif ip ethbroadcast s) as [T C]. rewrite abind_assoc, (load_entry_bind _ e) by now rewrite T.
  rewrite abind_assoc. destruct (_ && _); [rewrite (update_entry_bind _ e) by now rewrite T | rewrite aret_bind].
  - right. split; cbn; [now rewrite T | exact C].
  - left. exact (conj T C).
Qed.

Lemma waiting_inv s s' i e0 e ip netif kp : arp_inv s -> usable netif -> arp_table s !! i = Some e0 ->
  length (ethaddr e) = 6%nat -> own (arp_table s) i ip netif -> same s s' ->
  arp_inv (set_table (<[i := mk_entry kp ip netif (ethaddr e) 0 ETHARP_STATE_PENDING]> (arp_table s)) s').
Proof.
  intros H Hn E Hl Ho [_ C].
  apply inv_table with (set_table (<[i := mk_entry kp ip netif (ethaddr e) 0 ETHARP_STATE_PENDING]> (arp_table s)) s);
    [| reflexivity | cbn; rewrite C; apply (ai_cached _ s H)].
  apply set_entry_inv with e0; try assumption.
  - split; cbn; try congruence; try (unfold ARP_MAXAGE, ARP_MAXPENDING; lia); auto.
  - cbn. intros _ j f Nj Ej Uf [F1 F2]. apply (Ho j f Nj Ej Uf). auto.
Qed.

(** Replacing fields of a used entry other than its address. *)
Lemma set_inv s s' i e e' : arp_inv s -> arp_table s !! i = Some e -> used e -> entry_ok e' -> ipaddr e' = ipaddr e ->
  entry_netif e' = entry_netif e -> same (set_table (<[i := e']> (arp_table s)) s) s' -> arp_inv s'.
Proof.
  intros H E U He' E1 E2 Hs. apply same_inv with (set_table (<[i := e']> (arp_table s)) s); [| exact Hs].
  now apply keep_address_inv with e.
Qed.

Lemma requested_after_keep_same netif ip dst p s : same s (after_keep p (requested netif ip dst s)).
Proof.
  destruct (requested_same netif ip dst s) as [T1 C1], (after_keep_same p (requested netif ip dst s)) as [T2 C2].
  split; congruence.
Qed.

Lemma etharp_query_keeps netif ip p s : arp_inv s -> usable netif ->
  returns (etharp_query interface alloc linkoutput_result netif ip p) s (fun _ => arp_inv).
Proof.
  intros H Hn. destruct (unicast netif ip) eqn:Hu.
  2: { unfold returns, etharp_query. unfold unicast in Hu. apply negb_false_iff in Hu.
    destruct (_ || _ || _) eqn:Ho in |- *; [exact H |]. exfalso. apply orb_false_iff in Ho as [Ho H3].
    apply orb_false_iff in Ho as [H1 H2]. rewrite H1, H2, H3 in Hu. discriminate. }
  destruct (present_or_absent (arp_table s) ip netif) as [Ha | (i & e & E & U & Ei & En)].
  - destruct (query_new netif ip p s H Hn Hu Ha) as (i & e & E & _ & F).
    pose proof (eo_eth _ _ (proj1 (Forall_lookup _ _) (ai_entries _ s H) i e E)) as Hl.
    pose proof (absent_own _ i _ _ Ha) as Ho. destruct p as [p |]; (eapply returns_done; [exact F |]);
      apply (waiting_inv s _ i e); try assumption; [apply requested_after_keep_same | apply requested_same].
  - pose proof (proj1 (Forall_lookup _ _) (ai_entries _ s H) i e E) as He. destruct p as [p |].
    + unfold returns. rewrite (query_packet_known netif ip p i e) by assumption. destruct (is_stable (entry_state e)) eqn:Es.
      * rewrite ethernet_output_run by apply Hn. assert (arp_inv (mk_arp (arp_table s) i (link s) (allocations s)))
          by (apply inv_table with s; [exact H | reflexivity | exact (entry_lt _ s i e H E)]).
        destruct (link_room p); [now apply (same_inv _ _ _ H0) | assumption].
      * pose proof (after_keep_same p s) as K. destruct (kept p s) as [p' |]; [| exact (same_inv _ _ _ H K)].
        apply (set_inv s _ i e (set_q (Some p') e)); try assumption; try reflexivity; [| split; [reflexivity | apply K]].
        destruct He as [H1 H2 H3 H4 H5 H6]. split; cbn; auto. intros _. unfold used in U.
        destruct (entry_state e); easy.
    + eapply returns_mono; [exact (query_request_known netif ip i e s H Hn Hu E U Ei En) |].
      intros _ s' [K | K]; [exact (same_inv _ _ _ H K) |].
      apply (set_inv s _ i e (set_ctime 0 e)); try assumption; try reflexivity.
      destruct He as [H1 H2 H3 H4 H5 H6]. split; cbn; auto; try (unfold ARP_MAXAGE, ARP_MAXPENDING; lia).
Qed.

(** * Sending to a resolved address *)

(** Whom a request goes to when the entry is about to expire. *)
Definition refresh_dst (e : etharp_entry) : option (list Z) :=
  match entry_state e with
  | ETHARP_STATE_STABLE =>
    if ARP_AGE_REREQUEST_USED_BROADCAST <=? ctime e then Some ethbroadcast
    else if ARP_AGE_REREQUEST_USED_UNICAST <=? ctime e then Some (ethaddr e) else None
  | _ => None
  end.

(** The state after that request, if there is one. *)
Definition refreshed (netif : Z) (i : nat) (e : etharp_entry) (s : arp) : arp :=
  match refresh_dst e with
  | Some dst =>
    set_table (if alloc (allocations s) then <[i := set_entry_state ETHARP_STATE_STABLE_REREQUESTING_1 e]> (arp_table s)
               else arp_table s) (requested netif (ipaddr e) dst s)
  | None => s
  end.

Lemma set_table_id s s' : same s s' -> set_table (arp_table s) s' = s'.
Proof. intros [T _]. unfold set_table. rewrite <- T. now destruct s'. Qed.

Lemma output_to_arp_index_run netif p i e s : ethernet (interface netif) -> arp_table s !! i = Some e -> stable e ->
  etharp_output_to_arp_index interface alloc linkoutput_result netif p i s =
  ethernet_output interface linkoutput_result netif p (hwaddr (interface netif)) (ethaddr e) ETHTYPE_IP (refreshed netif i e s).
Proof.
  intros Hn E Hst. pose proof (lookup_lt_Some _ _ _ E) as Hi. unfold etharp_output_to_arp_index.
  rewrite (load_entry_bind _ e), aassert_bind by assumption.
  assert (R : forall dst, refresh_dst e = Some dst ->
    (r <- etharp_request_dst interface alloc linkoutput_result netif (ipaddr e) dst ;;
     (if r =? ERR_OK then update_entry i (set_entry_state ETHARP_STATE_STABLE_REREQUESTING_1) else ret tt)) s =
    Done tt (refreshed netif i e s)).
  { intros dst Hd. rewrite (bind_done _ _ _ _ _ (etharp_request_dst_requested _ _ _ _ Hn)). unfold refreshed. rewrite Hd.
    destruct (requested_same netif (ipaddr e) dst s) as [T C]. destruct (alloc (allocations s)).
    - change (ERR_OK =? ERR_OK) with true. cbv iota. rewrite (update_entry_run _ e) by now rewrite T. now rewrite T.
    - change (ERR_MEM =? ERR_OK) with false. cbv iota. now rewrite set_table_id by (split; assumption). }
  assert (K : (if decide (entry_state e = ETHARP_STATE_STABLE) then
     if ARP_AGE_REREQUEST_USED_BROADCAST <=? ctime e then
       r <- etharp_request interface alloc linkoutput_result netif (ipaddr e) ;;
       if r =? ERR_OK then update_entry i (set_entry_state ETHARP_STATE_STABLE_REREQUESTING_1) else ret tt
     else if ARP_AGE_REREQUEST_USED_UNICAST <=? ctime e then
       r <- etharp_request_dst interface alloc linkoutput_result netif (ipaddr e) (ethaddr e) ;;
       if r =? ERR_OK then update_entry i (set_entry_state ETHARP_STATE_STABLE_REREQUESTING_1) else ret tt
     else ret tt
   else ret tt) s = Done tt (refreshed netif i e s)).
  { unfold etharp_request. assert (N : refresh_dst e = None -> ret tt s = Done tt (refreshed netif i e s))
      by (unfold refreshed; now intros ->).
    unfold refresh_dst in *. destruct (entry_state e) eqn:Es;
      try (rewrite decide_False by discriminate; now apply N). rewrite decide_True by reflexivity.
    destruct (ARP_AGE_REREQUEST_USED_BROADCAST <=? ctime e); [now apply R |].
    destruct (ARP_AGE_REREQUEST_USED_UNICAST <=? ctime e); [now apply R | now apply N]. }
  rewrite (bind_done _ _ _ _ _ K). clear R K.
  assert (Er : exists e', arp_table (refreshed netif i e s) !! i = Some e' /\ ethaddr e' = ethaddr e).
  { unfold refreshed. destruct (refresh_dst e) as [dst |]; [| eauto]. cbn. destruct (alloc _); [| eauto].
    rewrite list_lookup_insert_eq by exact Hi. eexists. split; reflexivity. }
  destruct Er as (e' & Er & <-). now rewrite (load_entry_bind _ e').
Qed.

Lemma refreshed_inv netif i e s : arp_inv s -> arp_table s !! i = Some e -> stable e -> arp_inv (refreshed netif i e s).
Proof.
  intros H E Hst. unfold refreshed. destruct (refresh_dst e) as [dst |]; [| exact H].
  pose proof (requested_same netif (ipaddr e) dst s) as Hs. destruct (alloc _).
  - apply (set_inv s _ i e (set_entry_state ETHARP_STATE_STABLE_REREQUESTING_1 e)); try assumption; try reflexivity.
    + intros U. unfold stable in Hst. rewrite U in Hst. discriminate.
    + pose proof (proj1 (Forall_lookup _ _) (ai_entries _ s H) i e E) as [H1 H2 H3 H4 H5 H6].
      assert (U : used e) by (intros U; unfold stable in Hst; rewrite U in Hst; discriminate).
      split; cbn; auto; try discriminate. intros Hq. specialize (H1 Hq). unfold stable in Hst. rewrite H1 in Hst. discriminate.
    + split; [reflexivity | apply Hs].
  - rewrite set_table_id by exact Hs. exact (same_inv _ _ _ H Hs).
Qed.

(** * Output *)

(** The address a unicast packet is handed to: the destination, or the gateway for one outside the network. *)
Definition next_hop (n : netif) (ip : Z) : option Z :=
  if ip4_addr_net_eq ip (ip_addr n) (netmask n) || ip4_addr_islinklocal ip then Some ip
  else if ip4_addr_isany_val (gw n) then None else Some (gw n).

(** The Ethernet address of an IP multicast address. *)
Definition multicast_eth (ip : Z) : list Z :=
  [LL_IP4_MULTICAST_ADDR_0; LL_IP4_MULTICAST_ADDR_1; LL_IP4_MULTICAST_ADDR_2;
   (bytes32 ip !!! 1%nat) .& 0x7f; bytes32 ip !!! 2%nat; bytes32 ip !!! 3%nat].

Definition resolves (netif dst : Z) (e : etharp_entry) : Prop := stable e /\ entry_netif e = netif /\ dst = ipaddr e.

Lemma resolves_spec netif dst e :
  is_stable (entry_state e) && (entry_netif e =? netif) && (dst =? ipaddr e) = true <-> resolves netif dst e.
Proof. unfold resolves, stable. rewrite !andb_true_iff, !Z.eqb_eq. tauto. Qed.

Lemma find_stable_ok netif dst es : forall i,
  match find_stable netif dst i es with
  | Some j => (i <= j)%nat /\ exists e, es !! (j - i)%nat = Some e /\ resolves netif dst e
  | None => forall k e, es !! k = Some e -> ~ resolves netif dst e
  end.
Proof.
  induction es as [| e es IH]; intros i; cbn [find_stable]; [intros k e E; discriminate |].
  destruct (_ && _ && _) eqn:R.
  - split; [lia |]. exists e. rewrite Nat.sub_diag. split; [reflexivity | now apply resolves_spec].
  - specialize (IH (S i)). destruct (find_stable netif dst (S i) es) as [j |].
    + destruct IH as (Hj & f & E & Rf). split; [lia |]. exists f. split; [| exact Rf].
      replace (j - i)%nat with (S (j - S i)) by lia. exact E.
    + intros [| k] f E; [injection E as <- | exact (IH k f E)]. rewrite <- resolves_spec. congruence.
Qed.

(** The cached entry, or the search through the table. *)
Lemma route_run netif p hop s : arp_inv s ->
  let m := (s <- get ;;
    e <- load_entry (etharp_cached_entry s) ;;
    if is_stable (entry_state e) && (entry_netif e =? netif) && (hop =? ipaddr e)
    then etharp_output_to_arp_index interface alloc linkoutput_result netif p (etharp_cached_entry s)
    else
      match find_stable netif hop 0 (arp_table s) with
      | Some i => ETHARP_SET_ADDRHINT i ;; etharp_output_to_arp_index interface alloc linkoutput_result netif p i
      | None => etharp_query interface alloc linkoutput_result netif hop (Some p)
      end) in
  (exists i e, arp_table s !! i = Some e /\ resolves netif hop e /\
     m s = etharp_output_to_arp_index interface alloc linkoutput_result netif p i
       (mk_arp (arp_table s) i (link s) (allocations s))) \/
  ((forall i e, arp_table s !! i = Some e -> ~ resolves netif hop e) /\
   m s = etharp_query interface alloc linkoutput_result netif hop (Some p) s).
Proof.
  intros H. cbv zeta. rewrite aget_bind.
  destruct (entry_at _ s (etharp_cached_entry s) H (ai_cached _ s H)) as (e & E & _).
  rewrite (load_entry_bind _ e) by exact E. destruct (_ && _ && _) eqn:R.
  { left. apply resolves_spec in R. exists (etharp_cached_entry s), e. split; [exact E |]. split; [exact R | now destruct s]. }
  pose proof (find_stable_ok netif hop (arp_table s) 0) as K. destruct (find_stable _ _ _ _) as [i |].
  - left. destruct K as (_ & f & Ef & Rf). rewrite Nat.sub_0_r in Ef. exists i, f. auto.
  - right. auto.
Qed.

(** A unicast packet: sent to the resolved address of the next hop, or handed to [etharp_query]. *)
Lemma etharp_output_unicast netif p ip hop s : arp_inv s -> ip4_addr_isbroadcast ip (interface netif) = false ->
  ip4_addr_ismulticast ip = false -> next_hop (interface netif) ip = Some hop ->
  (exists i e, arp_table s !! i = Some e /\ resolves netif hop e /\
     etharp_output interface alloc linkoutput_result netif p ip s =
     etharp_output_to_arp_index interface alloc linkoutput_result netif p i
       (mk_arp (arp_table s) i (link s) (allocations s))) \/
  ((forall i e, arp_table s !! i = Some e -> ~ resolves netif hop e) /\
   etharp_output interface alloc linkoutput_result netif p ip s =
   etharp_query interface alloc linkoutput_result netif hop (Some p) s).
Proof.
  intros H Hb Hm Hh. unfold etharp_output. rewrite Hb, Hm. unfold next_hop in Hh. rewrite <- negb_orb.
  destruct (_ || _); cbn [negb andb]; [injection Hh as <-; now apply route_run |].
  destruct (ip4_addr_isany_val _); [discriminate |]. injection Hh as <-. now apply route_run.
Qed.

Lemma etharp_output_no_route netif p ip s : ip4_addr_isbroadcast ip (interface netif) = false ->
  ip4_addr_ismulticast ip = false -> next_hop (interface netif) ip = None ->
  etharp_output interface alloc linkoutput_result netif p ip s = Done ERR_RTE s.
Proof.
  intros Hb Hm Hh. unfold etharp_output. rewrite Hb, Hm. unfold next_hop in Hh. rewrite <- negb_orb.
  destruct (_ || _); [discriminate |]. destruct (ip4_addr_isany_val _); [reflexivity | discriminate].
Qed.

Lemma cached_inv s i : arp_inv s -> (i < ARP_TABLE_SIZE)%nat -> arp_inv (mk_arp (arp_table s) i (link s) (allocations s)).
Proof. intros H Hi. now apply inv_table with s. Qed.

Lemma etharp_output_keeps netif p ip s : arp_inv s -> usable netif ->
  returns (etharp_output interface alloc linkoutput_result netif p ip) s (fun _ => arp_inv).
Proof.
  intros H Hn. assert (O : forall s dst, arp_inv s ->
    returns (ethernet_output interface linkoutput_result netif p (hwaddr (interface netif)) dst ETHTYPE_IP) s (fun _ => arp_inv)).
  { intros s0 dst H0. eapply returns_mono; [apply ethernet_output_same, Hn |]. intros a s' K. exact (same_inv _ s0 s' H0 K). }
  destruct (ip4_addr_isbroadcast ip (interface netif)) eqn:Hb; [unfold etharp_output; rewrite Hb; now apply O |].
  destruct (ip4_addr_ismulticast ip) eqn:Hm; [unfold etharp_output; rewrite Hb, Hm; now apply O |].
  destruct (next_hop (interface netif) ip) as [hop |] eqn:Hh.
  2: { eapply returns_done; [now apply etharp_output_no_route | exact H]. }
  unfold returns. destruct (etharp_output_unicast netif p ip hop s H Hb Hm Hh) as [(i & e & E & R & ->) | [_ ->]].
  - pose proof (cached_inv s i H (entry_lt _ s i e H E)) as H'.
    rewrite (output_to_arp_index_run netif p i e); [| apply Hn | exact E | apply R].
    apply O, refreshed_inv; [exact H' | exact E | apply R].
  - now apply etharp_query_keeps.
Qed.
End Calls.
