(* ===== verification/EtharpInput.v ===== *)
(** What [Etharp] does over time: a request for the interface's address is answered and its sender learnt, a
    packet for an unknown host is kept until the host answers, and entries expire. *)
From Stdlib Require Import ZArith Lia Bool.
From stdpp Require Import base decidable list gmap.
From S2P Require Import Prelude LwipChksum Netif NetifProofs Etharp EtharpTable EtharpProofs.

(** * Reading back a packet *)

Lemma read16_bytes16 v rest : is_u16 v -> read16 (bytes16 v ++ rest) = v.
Proof.
  intros H. cbn [bytes16 read16 app]. rewrite !land_ff, shiftr8, Z.lor_comm, byte_pair by apply u8_range.
  unfold u8, is_u16 in *. rewrite (Z.mod_small (v / 256)); [pose proof (Z.div_mod v 256); lia |].
  split; [apply Z.div_pos; lia | apply Z.div_lt_upper_bound; lia].
Qed.

Lemma read32_bytes32 v rest : is_u32 v -> read32 (bytes32 v ++ rest) = v.
Proof.
  intros H. cbn [bytes32 read32 app]. rewrite !land_ff, !Z.shiftr_div_pow2 by lia. unfold u8, is_u32 in *.
  set (b0 := v mod 256). set (b1 := _ mod 256). set (b2 := _ mod 256). set (b3 := _ mod 256).
  assert (0 <= b0 < 256 /\ 0 <= b1 < 256 /\ 0 <= b2 < 256) as (R0 & R1 & R2) by (repeat split; apply Z.mod_pos_bound; lia).
  rewrite (Z.lor_comm b0), (lor_disjoint_add b1 b0 8) by lia.
  rewrite (Z.lor_comm (b1 * _ + b0)), (lor_disjoint_add b2 _ 16) by lia.
  rewrite (Z.lor_comm (b2 * _ + _)), (lor_disjoint_add b3 _ 24) by lia.
  unfold b0, b1, b2, b3. change (2 ^ 24) with (256 * 256 * 256). change (2 ^ 16) with (256 * 256). change (2 ^ 8) with 256.
  rewrite <- !Z.div_div by lia.
  pose proof (Z.div_mod v 256 ltac:(lia)). pose proof (Z.div_mod (v / 256) 256 ltac:(lia)).
  pose proof (Z.div_mod (v / 256 / 256) 256 ltac:(lia)).
  assert (v / 256 / 256 / 256 < 256) by (repeat apply Z.div_lt_upper_bound; lia).
  assert (0 <= v / 256 / 256 / 256) by (repeat apply Z.div_pos; lia).
  rewrite (Z.mod_small (v / 256 / 256 / 256)) by lia. lia.
Qed.

(** The fields of a packet. *)
Lemma arp_fields op sha sip tha tip pad : length sha = 6%nat -> length tha = 6%nat ->
  let p := etharp_hdr op sha sip tha tip ++ pad in
  (28 <= length p)%nat /\ read16 p = read16 (bytes16 (PP_HTONS LWIP_IANA_HWTYPE_ETHERNET)) /\
  read16 (drop 2 p) = read16 (bytes16 (PP_HTONS ETHTYPE_IP)) /\ p !!! 4%nat = 6 /\ p !!! 5%nat = 4 /\
  read16 (drop 6 p) = read16 (bytes16 (lwip_htons op)) /\ take 6 (drop 8 p) = sha /\
  read32 (drop 14 p) = read32 (bytes32 sip) /\ read32 (drop 24 p) = read32 (bytes32 tip).
Proof.
  intros Hs Ht. do 6 (destruct sha as [| ? sha]; [discriminate |]). destruct sha; [| discriminate].
  do 6 (destruct tha as [| ? tha]; [discriminate |]). destruct tha; [| discriminate].
  cbv zeta. split; [cbn; lia |]. repeat split; reflexivity.
Qed.

Section Input.
Variable interface : Z -> netif.
Variable alloc : nat -> bool.
Variable linkoutput_result : Z -> list Z -> Z.

#[local] Abbreviation arp_inv := (arp_inv interface).
#[local] Abbreviation usable := (usable interface).
#[local] Abbreviation request_frame := (request_frame interface).
#[local] Abbreviation unicast := (unicast interface).
#[local] Abbreviation learn := (learn interface).
#[local] Abbreviation flushed := (flushed interface).
#[local] Abbreviation next_hop := (next_hop).
#[local] Abbreviation update := (etharp_update_arp_entry interface linkoutput_result).
#[local] Abbreviation input := (etharp_input interface alloc linkoutput_result).
#[local] Abbreviation output := (etharp_output interface alloc linkoutput_result).
#[local] Abbreviation query := (etharp_query interface alloc linkoutput_result).
#[local] Abbreviation tmr := (etharp_tmr interface alloc linkoutput_result).

(** The packet is for the interface's address, or comes from it. *)
Definition is_ours (netif ip : Z) : bool :=
  negb (ip4_addr_isany_val (ip_addr (interface netif))) && (ip =? ip_addr (interface netif)).

Lemma input_run netif op sha sip tha tip pad s : netif <> 0 -> length sha = 6%nat -> length tha = 6%nat ->
  is_u16 (lwip_htons op) -> is_u32 sip -> is_u32 tip ->
  let n := interface netif in
  input (etharp_hdr op sha sip tha tip ++ pad) netif s =
  (update netif sip sha (if is_ours netif tip then ETHARP_FLAG_TRY_HARD else ETHARP_FLAG_FIND_ONLY) ;;
   if lwip_htons op =? PP_HTONS ARP_REQUEST then
     if is_ours netif tip && negb (is_ours netif sip) then
       etharp_raw interface alloc linkoutput_result netif (hwaddr n) sha (hwaddr n) (ip_addr n) sha sip ARP_REPLY ;;
       ret tt
     else ret tt
   else ret tt) s.
Proof.
  intros Hn Hs Ht Ho Hsip Htip. destruct (arp_fields op sha sip tha tip pad Hs Ht) as (F0 & F1 & F2 & F3 & F4 & F5 & F6 & F7 & F8).
  unfold etharp_input. rewrite (proj2 (Z.eqb_neq _ _) Hn), (proj2 (Nat.ltb_ge _ _) F0). cbv zeta.
  rewrite F1, F2, F3, F4, F5, F6, F7, F8.
  rewrite <- (app_nil_r (bytes16 (lwip_htons op))), <- (app_nil_r (bytes32 sip)), <- (app_nil_r (bytes32 tip)).
  rewrite read16_bytes16, !read32_bytes32 by assumption. reflexivity.
Qed.

(** The frames sent on learning an address: the packet that waited for it. *)
Definition released (netif ip : Z) (eth : list Z) (s : arp) (sent : list (Z * list Z)) : Prop :=
  (unicast netif ip = false -> sent = []) /\
  (absent (arp_table s) ip netif -> sent = []) /\
  (forall i e, unicast netif ip = true -> arp_table s !! i = Some e -> used e -> ip = ipaddr e -> netif = entry_netif e ->
     sent = flushed netif eth e).

(** The entries that are in use afterwards have the addresses of ones that were, or the new one. *)
Definition learns (netif ip : Z) (eth : list Z) (s s' : arp) : Prop :=
  forall j f, arp_table s' !! j = Some f -> used f -> f = resolved ip netif eth \/ arp_table s !! j = Some f.

Record learnt (netif ip : Z) (eth : list Z) (fl : Z) (s s' : arp) : Prop := {
  ln_inv : arp_inv s';
  ln_link : exists sent, link s' = link s ++ sent /\ released netif ip eth s sent;
  ln_allocations : allocations s' = allocations s;
  ln_others : learns netif ip eth s s';
  ln_learnt : unicast netif ip = true -> may_create (arp_table s) fl \/ ~ absent (arp_table s) ip netif ->
    exists i, arp_table s' !! i = Some (resolved ip netif eth);
  ln_ignored : absent (arp_table s) ip netif -> ~ may_create (arp_table s) fl -> arp_table s' = arp_table s
}.

Lemma learn_learnt i e0 e ip netif eth fl s : arp_inv (learn i e ip netif eth s) -> arp_table s !! i = Some e0 ->
  released netif ip eth s (flushed netif eth e) -> (absent (arp_table s) ip netif -> may_create (arp_table s) fl) ->
  learnt netif ip eth fl s (learn i e ip netif eth s).
Proof.
  intros H E R C. pose proof (lookup_lt_Some _ _ _ E) as Hi. split; cbn; try assumption; try reflexivity.
  - eexists. split; [reflexivity | exact R].
  - intros j f Ej Uf. cbn in Ej. destruct (decide (j = i)) as [-> | N].
    + rewrite list_lookup_insert_eq in Ej by exact Hi. left. congruence.
    + rewrite list_lookup_insert_ne in Ej by congruence. now right.
  - intros _ _. exists i. now apply list_lookup_insert_eq.
  - intros Ha N. exfalso. auto.
Qed.

Lemma unchanged_learnt netif ip eth fl s : arp_inv s -> released netif ip eth s [] ->
  (unicast netif ip = true -> absent (arp_table s) ip netif /\ ~ may_create (arp_table s) fl) -> learnt netif ip eth fl s s.
Proof.
  intros H R C. split; try assumption; try reflexivity.
  - exists []. now rewrite app_nil_r.
  - intros j f Ej _. now right.
  - intros Hu Hc. destruct (C Hu). tauto.
Qed.

Lemma update_learns netif ip eth fl s : arp_inv s -> usable netif -> length eth = 6%nat ->
  returns (update netif ip eth fl) s (fun _ => learnt netif ip eth fl s).
Proof.
  intros H Hn Hl. destruct (unicast netif ip) eqn:Hu.
  2: { eapply returns_done; [apply update_entry_not_unicast; [apply Hn | exact Hu] |].
    apply unchanged_learnt; [exact H | | congruence]. split; [auto | split; [auto | congruence]]. }
  destruct (present_or_absent (arp_table s) ip netif) as [Ha | (i & e & E & U & Ei & En)].
  - assert (R : released netif ip eth s []).
    { split; [auto | split; [auto |]]. intros i e _ E U Ei En. exfalso. exact (Ha i e E U (conj Ei En)). }
    destruct (update_entry_absent interface linkoutput_result fl ip netif eth s H Hn Hu Ha) as [(C & i & e & E & _ & F) | [C F]];
      (eapply returns_done; [exact F |]); [| now apply unchanged_learnt].
    apply learn_learnt with e; [| exact E | exact R | auto].
    apply learn_inv with e; auto. now apply absent_own.
  - eapply returns_done; [apply (update_entry_present interface linkoutput_result i e); eauto |].
    apply learn_learnt with e; [| exact E | | intros Ha; exfalso; exact (Ha i e E U (conj Ei En))].
    + apply learn_inv with e; auto. subst. now apply present_own with interface.
    + split; [congruence | split; [intros Ha; exfalso; exact (Ha i e E U (conj Ei En)) |]].
      intros j f _ Ej Uf Fi Fn. assert (j = i) as -> by (apply (ai_unique _ s H j i f e); congruence). congruence.
Qed.

(** * Any sequence of calls *)

Inductive arp_call : Type :=
| call_input (p : list Z) (netif : Z)
| call_output (netif : Z) (p : packet) (ip : Z)
| call_query (netif ip : Z) (p : option packet)
| call_request (netif ip : Z)
| call_tmr
| call_cleanup (netif : Z).

Definition run_call (c : arp_call) : prog arp unit :=
  match c with
  | call_input p netif => input p netif
  | call_output netif p ip => output netif p ip ;; ret tt
  | call_query netif ip p => query netif ip p ;; ret tt
  | call_request netif ip => etharp_request interface alloc linkoutput_result netif ip ;; ret tt
  | call_tmr => tmr
  | call_cleanup netif => etharp_cleanup_netif netif
  end.

(** Calls name Ethernet interfaces, and the received packets hold an ARP header. *)
Definition call_ok (c : arp_call) : Prop :=
  match c with
  | call_input p netif => usable netif /\ (28 <= length p)%nat
  | call_output netif _ _ | call_query netif _ _ | call_request netif _ => usable netif
  | call_tmr | call_cleanup _ => True
  end.

Fixpoint run_calls (cs : list arp_call) : prog arp unit :=
  match cs with [] => ret tt | c :: cs' => run_call c ;; run_calls cs' end.

Lemma input_keeps p netif s : arp_inv s -> usable netif -> (28 <= length p)%nat ->
  returns (input p netif) s (fun _ => arp_inv).
Proof.
  intros H [Hn0 Hn] Hp. unfold etharp_input. rewrite (proj2 (Z.eqb_neq _ _) Hn0), (proj2 (Nat.ltb_ge _ _) Hp).
  cbv zeta. destruct (_ || _); [exact H |].
  eapply returns_bind.
  - apply update_arp_entry_keeps; [exact H | split; assumption |]. rewrite length_take, length_drop. lia.
  - intros r s1 H1. destruct (_ =? PP_HTONS ARP_REQUEST); [| exact H1]. destruct (_ && _); [| exact H1].
    eapply returns_bind; [apply etharp_raw_same, Hn |]. intros r' s2 K. exact (same_inv _ s1 s2 H1 K).
Qed.

Lemma run_call_keeps c s : arp_inv s -> call_ok c -> returns (run_call c) s (fun _ => arp_inv).
Proof.
  intros H Hc. assert (K : forall A (m : prog arp A), returns m s (fun _ => arp_inv) ->
    returns (m ;; ret tt) s (fun _ => arp_inv)) by (intros A m Hm; eapply returns_bind; [exact Hm | auto]).
  destruct c as [p netif | netif p ip | netif ip p | netif ip | | netif]; cbn in Hc |- *.
  - now apply input_keeps.
  - now apply K, etharp_output_keeps.
  - now apply K, etharp_query_keeps.
  - apply K. eapply returns_mono; [apply etharp_raw_same, Hc |]. intros r s'. exact (same_inv _ s s' H).
  - eapply returns_mono; [apply (etharp_tmr_ages interface alloc linkoutput_result s H) |]. now intros r s1 [].
  - eapply returns_mono; [apply (etharp_cleanup_netif_ok interface alloc netif s H) |]. now intros r s1 [].
Qed.

(** C17: any sequence of received ARP packets of at least 28 bytes, packets to send, queries, requests, timer ticks
    and interface removals, on Ethernet interfaces ([call_ok]), runs to its end with no failed assertion and no
    access outside the table, and keeps the table consistent: one entry at most for an address on an interface,
    packets waiting on pending entries only, pending entries younger than 5 ticks and all of them younger than 300. *)
Theorem arp_calls_ok cs s : arp_inv s -> Forall call_ok cs -> returns (run_calls cs) s (fun _ => arp_inv).
Proof.
  revert s. induction cs as [| c cs IH]; intros s H Hc; [exact H |]. apply Forall_cons in Hc as [Hc Hcs].
  eapply returns_bind; [now apply run_call_keeps |]. intros r s1 H1. now apply IH.
Qed.

(** * Which entry a new address gets *)

(** [etharp_find_entry] returns the entry of the address on the interface if there is one. Otherwise it
    returns nothing and changes nothing when it may not create one; and when it may, it takes the first empty
    entry, else recycles the oldest resolved one, else the oldest pending one without a packet, else the
    oldest pending one, and the entry it returns is empty, without a packet, and has the address. *)
Theorem etharp_find_entry_recycles ip fl netif s : arp_inv s -> netif <> 0 ->
  (exists i e, arp_table s !! i = Some e /\ used e /\ ip = ipaddr e /\ netif = entry_netif e /\
     etharp_find_entry ip fl netif s = Done (Some i) s) \/
  absent (arp_table s) ip netif /\
  ((may_create (arp_table s) fl /\ exists i e, arp_table s !! i = Some e /\ least_destructive (arp_table s) i /\
      etharp_find_entry ip fl netif s = Done (Some i) (set_table (<[i := fresh ip netif e]> (arp_table s)) s)) \/
   (~ may_create (arp_table s) fl /\ etharp_find_entry ip fl netif s = Done None s)).
Proof.
  intros H Hn. destruct (present_or_absent (arp_table s) ip netif) as [Ha | (i & e & E & U & Ei & En)].
  - right. split; [exact Ha |]. now apply find_absent with interface.
  - left. exists i, e. repeat split; try assumption. now apply find_present with interface e.
Qed.

(** * Requests *)

Lemma ours_spec netif ip : is_ours netif ip = true <-> ip_addr (interface netif) <> 0 /\ ip = ip_addr (interface netif).
Proof.
  unfold is_ours, ip4_addr_isany_val, IPADDR_ANY. rewrite andb_true_iff, negb_true_iff, Z.eqb_neq, Z.eqb_eq. tauto.
Qed.

Lemma may_create_hard t : may_create t ETHARP_FLAG_TRY_HARD.
Proof. split; [reflexivity | right; discriminate]. Qed.

Lemma may_not_create_find t : ~ may_create t ETHARP_FLAG_FIND_ONLY.
Proof. intros [F _]. discriminate. Qed.

Lemma request_answered netif sha sip tha pad s : arp_inv s -> usable netif -> length sha = 6%nat ->
  length tha = 6%nat -> is_u32 sip -> is_u32 (ip_addr (interface netif)) -> ip_addr (interface netif) <> 0 ->
  sip <> ip_addr (interface netif) -> alloc (allocations s) = true ->
  returns (input (etharp_hdr ARP_REQUEST sha sip tha (ip_addr (interface netif)) ++ pad) netif) s (fun _ s' =>
    arp_inv s' /\
    (exists sent, released netif sip sha s sent /\
       link s' = link s ++ sent ++
         [(netif, arp_frame sha (hwaddr (interface netif)) ARP_REPLY (hwaddr (interface netif)) (ip_addr (interface netif))
            sha sip)]) /\
    (unicast netif sip = true -> exists i, arp_table s' !! i = Some (resolved sip netif sha))).
Proof.
  intros H Hn Hs Ht Hsip Htip Hip Hne Hal. unfold returns.
  rewrite (input_run netif ARP_REQUEST sha sip tha _ pad s (proj1 Hn) Hs Ht)
    by (assumption || (vm_compute; split; congruence)).
  assert (Hours : is_ours netif (ip_addr (interface netif)) = true) by now apply ours_spec.
  assert (Hother : is_ours netif sip = false) by (apply not_true_iff_false; rewrite ours_spec; tauto).
  rewrite Hours, Hother. cbn [andb negb]. rewrite Z.eqb_refl.
  eapply returns_bind; [now apply update_learns |]. intros r s1 [I1 (sent & L1 & R1) A1 _ K1 _].
  unfold returns, bind. rewrite etharp_raw_run, A1, Hal by apply Hn. cbn. split; [| split].
  - apply (same_inv interface s1); [exact I1 | split; reflexivity].
  - exists sent. split; [exact R1 |]. now rewrite L1, app_assoc.
  - intros Hu. apply (K1 Hu). left. apply may_create_hard.
Qed.

(** a request for the interface's address is answered to the sender's Ethernet address with the interface's,
    if a packet buffer can be had, whatever follows the header; before that the packet that waited for the
    sender is sent to it; and the sender's address, if a unicast one, is in the table from then on. *)
Theorem arp_request_answered netif sha sip tha pad s : arp_inv s -> usable netif -> length sha = 6%nat ->
  length tha = 6%nat -> is_u32 sip -> is_u32 (ip_addr (interface netif)) -> ip_addr (interface netif) <> 0 ->
  sip <> ip_addr (interface netif) -> alloc (allocations s) = true ->
  returns (input (etharp_hdr ARP_REQUEST sha sip tha (ip_addr (interface netif)) ++ pad) netif) s (fun _ s' =>
    arp_inv s' /\
    (exists sent, released netif sip sha s sent /\
       link s' = link s ++ sent ++
         [(netif, arp_frame sha (hwaddr (interface netif)) ARP_REPLY (hwaddr (interface netif)) (ip_addr (interface netif))
            sha sip)]) /\
    (unicast netif sip = true -> exists i, arp_table s' !! i = Some (resolved sip netif sha))).
Proof. apply request_answered. Qed.

(** an ARP packet that is not for the interface's address is not answered and adds no address to the table: it
    refreshes the entry of its sender if there is one, which sends the packet that waited for it. *)
Theorem arp_for_others_adds_nothing netif op sha sip tha tip pad s : arp_inv s -> usable netif -> length sha = 6%nat ->
  length tha = 6%nat -> is_u32 sip -> is_u32 tip -> op = ARP_REQUEST \/ op = ARP_REPLY -> is_ours netif tip = false ->
  returns (input (etharp_hdr op sha sip tha tip ++ pad) netif) s (fun _ s' =>
    arp_inv s' /\
    (exists sent, released netif sip sha s sent /\ link s' = link s ++ sent) /\
    (absent (arp_table s) sip netif -> arp_table s' = arp_table s) /\
    (forall j f, arp_table s' !! j = Some f -> used f -> ~ absent (arp_table s) (ipaddr f) (entry_netif f))).
Proof.
  intros H Hn Hs Ht Hsip Htip Hop Ho. unfold returns.
  rewrite (input_run netif op sha sip tha tip pad s (proj1 Hn) Hs Ht)
    by (assumption || (destruct Hop as [-> | ->]; vm_compute; split; congruence)).
  rewrite Ho. cbn [andb]. eapply returns_bind; [now apply update_learns |].
  intros r s1 [I1 (sent & L1 & R1) A1 O1 K1 G1].
  assert (E : forall b : bool, (if b then ret tt else ret tt : prog arp unit) s1 = Done tt s1) by now intros [].
  unfold returns. rewrite E. split; [exact I1 |]. split; [eauto |].
  assert (Hk : absent (arp_table s) sip netif -> arp_table s1 = arp_table s) by (intros Ha; apply (G1 Ha), may_not_create_find).
  split; [exact Hk |]. intros j f Ej Uf. destruct (O1 j f Ej Uf) as [-> | Ej'].
  - cbn. intros Ha. rewrite (Hk Ha) in Ej. exact (Ha j _ Ej Uf (conj eq_refl eq_refl)).
  - intros Ha. exact (Ha j f Ej' Uf (conj eq_refl eq_refl)).
Qed.

(** * Time *)

(** [k] ticks of the timer. *)
Fixpoint ticks (k : nat) : prog arp unit :=
  match k with O => ret tt | S k' => tmr ;; ticks k' end.

Lemma ticks_age k : forall s, arp_inv s -> returns (ticks k) s (fun _ s' =>
  arp_inv s' /\ arp_table s' = Nat.iter k (fmap aged) (arp_table s) /\ etharp_cached_entry s' = etharp_cached_entry s).
Proof.
  induction k as [| k IH]; intros s H; cbn [ticks]; [cbn; auto |].
  eapply returns_bind; [apply (etharp_tmr_ages interface alloc linkoutput_result s H) |].
  intros r s1 (I1 & T1 & C1 & _). eapply returns_mono; [apply (IH s1 I1) |].
  intros r' s2 (I2 & T2 & C2). split; [exact I2 |]. rewrite T2, T1, C2. split; [| exact C1].
  symmetry. apply (Nat.iter_succ_r k (fmap aged)).
Qed.

Lemma ticks_lookup k (t : list etharp_entry) (i : nat) : Nat.iter k (fmap aged) t !! i = Nat.iter k aged <$> (t !! i).
Proof.
  induction k as [| k IH]; [cbn; now destruct (t !! i) |]. rewrite !Nat.iter_succ, list_lookup_fmap, IH. now destruct (t !! i).
Qed.

Lemma aged_used e : used (aged e) -> used e /\ ctime (aged e) = ctime e + 1.
Proof.
  unfold used, aged, freed. destruct (entry_state e) eqn:Es; [rewrite Es; tauto | | | |];
    match goal with |- context [?a <=? ?b] => destruct (a <=? b) end; cbn; split; congruence || tauto || reflexivity.
Qed.

Lemma ticks_ctime k e : used (Nat.iter k aged e) -> ctime (Nat.iter k aged e) = ctime e + Z.of_nat k.
Proof.
  induction k as [| k IH]; [cbn; lia |]. rewrite Nat.iter_succ. intros U.
  apply aged_used in U as [U ->]. rewrite IH by exact U. lia.
Qed.

(** entries do not outlive their time: an address that does not answer is given up, with its packet,
    after 5 ticks, and any entry not renewed is empty after 300. *)
Theorem arp_entries_expire k s : arp_inv s -> returns (ticks k) s (fun _ s' =>
  arp_inv s' /\
  (5 <= Z.of_nat k -> forall e, e ∈ arp_table s' -> entry_state e <> ETHARP_STATE_PENDING /\ q e = None) /\
  (300 <= Z.of_nat k -> forall e, e ∈ arp_table s' -> entry_state e = ETHARP_STATE_EMPTY)).
Proof.
  intros H. eapply returns_mono; [now apply ticks_age |]. intros r s' (I & T & _). split; [exact I |].
  assert (A : forall e, e ∈ arp_table s' -> entry_ok interface e /\ (used e -> Z.of_nat k <= ctime e)).
  { intros e He. pose proof (ai_entries _ s' I) as Hok. rewrite Forall_forall in Hok. split; [now apply Hok |].
    apply list_elem_of_lookup in He as [i E]. rewrite T, ticks_lookup in E.
    destruct (arp_table s !! i) as [e0 |] eqn:E0; [| discriminate]. cbn in E. injection E as <-. intros U.
    rewrite ticks_ctime by exact U.
    pose proof (eo_age _ _ (proj1 (Forall_lookup _ _) (ai_entries _ s H) i e0 E0)). lia. }
  split; intros Hk e He; destruct (A e He) as [Hok Hc].
  - assert (N : entry_state e <> ETHARP_STATE_PENDING).
    { intros P. pose proof (eo_pending _ _ Hok P). assert (used e) by (unfold used; congruence).
      specialize (Hc H1). unfold ARP_MAXPENDING in H0. lia. }
    split; [exact N |]. now apply not_pending_q with interface.
  - apply not_used_empty. intros U. pose proof (eo_max _ _ Hok U). specialize (Hc U). unfold ARP_MAXAGE in H0. lia.
Qed.

(** * Resolution *)

Lemma ticks_pending k e : entry_state e = ETHARP_STATE_PENDING -> ctime e + Z.of_nat k < ARP_MAXPENDING ->
  Nat.iter k aged e = set_ctime (ctime e + Z.of_nat k) e.
Proof.
  intros P. induction k as [| k IH]; intros Hk.
  - destruct e; cbn. now rewrite Z.add_0_r.
  - rewrite Nat.iter_succ, IH by lia. unfold aged. cbn [entry_state set_ctime ctime]. rewrite P, (proj2 (Z.leb_gt _ _)) by lia.
    unfold set_ctime. cbn. f_equal. lia.
Qed.

(** The packet as it goes out in the end. *)
Lemma kept_flushed netif eth ip p p' c s : kept alloc p s = Some p' -> needs_copy p = true \/ link_room p = true ->
  flushed netif eth (mk_entry (Some p') ip netif c 0 ETHARP_STATE_PENDING) =
  [(netif, frame eth (hwaddr (interface netif)) ETHTYPE_IP (bytes p))].
Proof.
  unfold kept, EtharpProofs.flushed. cbn. destruct (needs_copy p); [destruct (alloc _); [| discriminate] |];
    intros E [K | K]; injection E as <-; cbn; try discriminate; try reflexivity; now rewrite K.
Qed.

(** A unicast packet to a resolved next hop goes out at once. *)
(** A packet for an address that was learnt less than 270 ticks ago is sent there and then. *)
Lemma output_fresh netif p ip hop i eth t s : arp_inv s -> usable netif -> link_room p = true ->
  ip4_addr_isbroadcast ip (interface netif) = false -> ip4_addr_ismulticast ip = false ->
  next_hop (interface netif) ip = Some hop -> 0 <= t < 270 ->
  arp_table s !! i = Some (mk_entry None hop netif eth t ETHARP_STATE_STABLE) ->
  returns (output netif p ip) s (fun _ s' =>
    link s' = link s ++ [(netif, frame eth (hwaddr (interface netif)) ETHTYPE_IP (bytes p))]).
Proof.
  intros H Hn Hr Hb Hm Hh Ht E. unfold returns.
  destruct (etharp_output_unicast interface alloc linkoutput_result netif p ip hop s H Hb Hm Hh)
    as [(j & e & Ej & R & ->) | [N _]]; [| exfalso; apply (N i _ E); now split].
  assert (j = i) as ->.
  { destruct R as (R1 & R2 & R3). apply (ai_unique _ s H j i e _ Ej E); cbn; try congruence; try discriminate.
    intros U. unfold stable in R1. rewrite U in R1. discriminate. }
  rewrite E in Ej. injection Ej as <-.
  rewrite (output_to_arp_index_run interface alloc linkoutput_result netif p i (mk_entry None hop netif eth t ETHARP_STATE_STABLE));
    [| apply Hn | exact E | reflexivity].
  rewrite ethernet_output_run, Hr by apply Hn.
  unfold refreshed, refresh_dst. cbn [entry_state ctime].
  rewrite !(proj2 (Z.leb_gt _ _))
    by (unfold ARP_AGE_REREQUEST_USED_BROADCAST, ARP_AGE_REREQUEST_USED_UNICAST, ARP_MAXAGE; lia).
  reflexivity.
Qed.

Lemma output_resolved netif p ip hop i eth s : arp_inv s -> usable netif -> link_room p = true ->
  ip4_addr_isbroadcast ip (interface netif) = false -> ip4_addr_ismulticast ip = false ->
  next_hop (interface netif) ip = Some hop -> arp_table s !! i = Some (resolved hop netif eth) ->
  returns (output netif p ip) s (fun _ s' =>
    link s' = link s ++ [(netif, frame eth (hwaddr (interface netif)) ETHTYPE_IP (bytes p))]).
Proof. intros. apply output_fresh with hop i 0; first [assumption | lia]. Qed.

Lemma ticks_resolved k hop netif eth : Z.of_nat k < 300 ->
  Nat.iter k aged (resolved hop netif eth) = mk_entry None hop netif eth (Z.of_nat k) ETHARP_STATE_STABLE.
Proof.
  induction k as [| k IH]; [reflexivity |]. intros Hk. rewrite Nat.iter_succ, IH by lia. unfold aged. cbn [entry_state ctime].
  rewrite (proj2 (Z.leb_gt _ _)) by (unfold ARP_MAXAGE; lia). unfold set_ctime. cbn. f_equal. lia.
Qed.

Lemma output_unknown netif p ip hop s : arp_inv s -> usable netif -> (forall k, alloc k = true) ->
  ip4_addr_isbroadcast ip (interface netif) = false -> ip4_addr_ismulticast ip = false ->
  next_hop (interface netif) ip = Some hop -> unicast netif hop = true -> absent (arp_table s) hop netif ->
  exists i e p' s1, output netif p ip s = Done ERR_OK s1 /\ arp_inv s1 /\
    link s1 = link s ++ [(netif, request_frame netif hop ethbroadcast)] /\
    arp_table s1 !! i = Some (mk_entry (Some p') hop netif e 0 ETHARP_STATE_PENDING) /\
    kept alloc p s = Some p'.
Proof.
  intros H Hn Hal Hb Hm Hh Hu Ha.
  destruct (etharp_output_unicast interface alloc linkoutput_result netif p ip hop s H Hb Hm Hh) as [(i & e & E & R & _) | [_ F]].
  { exfalso. destruct R as (R1 & R2 & R3). apply (Ha i e E); [| auto]. intros U. unfold stable in R1. rewrite U in R1. discriminate. }
  destruct (query_new interface alloc linkoutput_result netif hop (Some p) s H Hn Hu Ha) as (i & e & E & _ & Q).
  pose proof (etharp_output_keeps interface alloc linkoutput_result netif p ip s H Hn) as K.
  unfold returns in K. rewrite F, Q in *. unfold requested in *. rewrite Hal in *.
  assert (Kp : exists p', kept alloc p s = Some p' /\ forall s', kept alloc p s' = Some p')
    by (unfold kept; destruct (needs_copy p); [rewrite Hal; setoid_rewrite Hal |]; eauto).
  destruct Kp as (p' & Kp & Ks). rewrite Ks in *. exists i, (ethaddr e), p'. eexists. split; [reflexivity |].
  split; [exact K |]. split; [cbn; unfold after_keep; now destruct (needs_copy p) |]. split; [| exact (Ks s)].
  cbn. apply list_lookup_insert_eq. exact (lookup_lt_Some _ _ _ E).
Qed.

Lemma reply_resolves netif i e hop mac tha pad s : arp_inv s -> usable netif -> length mac = 6%nat -> length tha = 6%nat ->
  is_u32 hop -> is_u32 (ip_addr (interface netif)) -> unicast netif hop = true ->
  arp_table s !! i = Some e -> used e -> ipaddr e = hop -> entry_netif e = netif ->
  returns (input (etharp_hdr ARP_REPLY mac hop tha (ip_addr (interface netif)) ++ pad) netif) s (fun _ s' =>
    arp_inv s' /\ link s' = link s ++ flushed netif mac e /\ exists j, arp_table s' !! j = Some (resolved hop netif mac)).
Proof.
  intros H Hn Hl Ht Hh Hi Hu E U <- En. unfold returns.
  rewrite (input_run netif ARP_REPLY mac _ tha _ pad s (proj1 Hn) Hl Ht)
    by (assumption || (vm_compute; split; congruence)).
  eapply returns_bind; [now apply update_learns |]. intros r s1 [I1 (sent & L1 & R1) A1 O1 K1 G1].
  split; [exact I1 |]. split.
  - rewrite L1. f_equal. apply R1 with i; auto.
  - apply K1; [exact Hu |]. right. intros Ha. exact (Ha i e E U (conj eq_refl (eq_sym En))).
Qed.

(** C16: when lwIP's allocations succeed, a packet for a unicast address whose next hop is not in the table causes a
    broadcast request and waits; if the next hop replies before the fifth tick of the ARP timer, nothing else having
    happened, the packet is sent to the Ethernet address of the reply; and a packet that is to go there up to 269
    ticks later, again with nothing else having happened, is sent there at once. *)
Theorem arp_resolves netif p ip hop k mac pad s : arp_inv s -> usable netif -> (forall k, alloc k = true) ->
  ip4_addr_isbroadcast ip (interface netif) = false -> ip4_addr_ismulticast ip = false ->
  next_hop (interface netif) ip = Some hop -> unicast netif hop = true -> absent (arp_table s) hop netif ->
  needs_copy p = true \/ link_room p = true -> Z.of_nat k < 5 -> length mac = 6%nat -> is_u32 hop ->
  is_u32 (ip_addr (interface netif)) ->
  let n := interface netif in
  exists s1 s2 s3,
    output netif p ip s = Done ERR_OK s1 /\ link s1 = link s ++ [(netif, request_frame netif hop ethbroadcast)] /\
    ticks k s1 = Done tt s2 /\
    input (etharp_hdr ARP_REPLY mac hop (hwaddr n) (ip_addr n) ++ pad) netif s2 = Done tt s3 /\
    link s3 = link s2 ++ [(netif, frame mac (hwaddr n) ETHTYPE_IP (bytes p))] /\
    forall p' j, link_room p' = true -> Z.of_nat j < 270 -> exists s4, ticks j s3 = Done tt s4 /\
      returns (output netif p' ip) s4 (fun _ s5 =>
        link s5 = link s4 ++ [(netif, frame mac (hwaddr n) ETHTYPE_IP (bytes p'))]).
Proof.
  intros H Hn Hal Hb Hm Hh Hu Ha Hp Hk Hl Hhop Hip n.
  destruct (output_unknown netif p ip hop s H Hn Hal Hb Hm Hh Hu Ha) as (i & c & p' & s1 & O1 & I1 & L1 & E1 & Kp).
  destruct (returns_exists _ _ _ (ticks_age k s1 I1)) as ([] & s2 & O2 & I2 & T2 & _).
  assert (E2 : arp_table s2 !! i = Some (mk_entry (Some p') hop netif c (Z.of_nat k) ETHARP_STATE_PENDING)).
  { rewrite T2, ticks_lookup, E1. cbn. rewrite ticks_pending; [reflexivity | reflexivity |]. cbn. unfold ARP_MAXPENDING. lia. }
  destruct (returns_exists _ _ _ (reply_resolves netif i _ hop mac (hwaddr n) pad s2 I2 Hn Hl (eth_hwaddr _ (proj2 Hn)) Hhop Hip Hu E2
    ltac:(discriminate) eq_refl eq_refl)) as ([] & s3 & O3 & I3 & L3 & i3 & E3).
  exists s1, s2, s3. repeat split; try assumption.
  - rewrite L3. f_equal. exact (kept_flushed netif mac hop p p' c s Kp Hp).
  - intros p2 j Hr Hj. destruct (returns_exists _ _ _ (ticks_age j s3 I3)) as ([] & s4 & O4 & I4 & T4 & _).
    exists s4. split; [exact O4 |].
    apply output_fresh with hop i3 (Z.of_nat j); try assumption; [lia |].
    rewrite T4, ticks_lookup, E3. cbn [fmap option_fmap option_map]. now rewrite ticks_resolved by lia.
Qed.
End Input.

(** * Instances *)

(** The application's interface at its address, memory enough, every frame accepted. *)
Definition ex_ifc : Z := 0x20004000.
Definition ex_interface (a : Z) : netif := net_ifc_started ex_stack.
Definition ex_alloc (k : nat) : bool := true.
Definition ex_linkoutput (netif : Z) (fr : list Z) : Z := ERR_OK.

(** 192.168.0.1 and its Ethernet address, and an IP packet. *)
Definition ex_peer : Z := 0x0100A8C0.
Definition ex_mac : list Z := [0x02; 0x42; 0xAC; 0x11; 0x00; 0x02].
Definition ex_packet : packet := mk_packet [0x45; 0x00; 0x00; 0x14] true false.

Lemma ex_usable : usable ex_interface ex_ifc.
Proof. split; [discriminate | split; reflexivity]. Qed.

Lemma ex_inv : arp_inv ex_interface arp_reset.
Proof. apply arp_reset_inv. Qed.

Lemma ex_absent ip : absent (arp_table arp_reset) ip ex_ifc.
Proof.
  intros j e E U. apply list_elem_of_lookup_2, list_elem_of_In in E. cbn in E.
  exfalso. apply U. repeat destruct E as [<- | E]; try reflexivity. destruct E.
Qed.

Lemma arp_calls_ok_witness :
  returns (run_calls ex_interface ex_alloc ex_linkoutput
    [call_output ex_ifc ex_packet ex_peer; call_tmr;
     call_input (etharp_hdr ARP_REPLY ex_mac ex_peer ethzero ENC28_IP_ADDR) ex_ifc;
     call_query ex_ifc ex_peer None; call_cleanup ex_ifc]) arp_reset (fun _ => arp_inv ex_interface).
Proof.
  apply arp_calls_ok; [exact ex_inv |].
  repeat (apply Forall_cons_2; [first [exact ex_usable | exact I | split; [exact ex_usable | cbn; lia]] |]). apply Forall_nil_2.
Defined.

Lemma etharp_find_entry_recycles_witness :
  may_create (arp_table arp_reset) ETHARP_FLAG_TRY_HARD /\
  exists i e, arp_table arp_reset !! i = Some e /\ least_destructive (arp_table arp_reset) i /\
    etharp_find_entry ex_peer ETHARP_FLAG_TRY_HARD ex_ifc arp_reset =
      Done (Some i) (set_table (<[i := fresh ex_peer ex_ifc e]> (arp_table arp_reset)) arp_reset).
Proof.
  destruct (etharp_find_entry_recycles ex_interface ex_peer ETHARP_FLAG_TRY_HARD ex_ifc arp_reset ex_inv ltac:(discriminate))
    as [(i & e & E & U & Ei & En & _) | (_ & [K | [K _]])].
  - exfalso. exact (ex_absent ex_peer i e E U (conj Ei En)).
  - exact K.
  - exfalso. exact (K (may_create_hard _)).
Defined.

Lemma arp_request_answered_witness :
  returns (etharp_input ex_interface ex_alloc ex_linkoutput
    (etharp_hdr ARP_REQUEST ex_mac ex_peer ethzero ENC28_IP_ADDR ++ repeat 0 18) ex_ifc) arp_reset (fun _ s' =>
    exists sent, link s' = sent ++
      [(ex_ifc, arp_frame ex_mac (hwaddr (ex_interface ex_ifc)) ARP_REPLY (hwaddr (ex_interface ex_ifc)) ENC28_IP_ADDR ex_mac ex_peer)]).
Proof.
  eapply returns_mono; [apply (arp_request_answered ex_interface ex_alloc ex_linkoutput ex_ifc ex_mac ex_peer ethzero
    (repeat 0 18) arp_reset ex_inv ex_usable); first [reflexivity | discriminate | vm_compute; split; congruence] |].
  intros r s' (_ & (sent & _ & L) & _). exists sent. exact L.
Defined.

Lemma arp_for_others_adds_nothing_witness :
  returns (etharp_input ex_interface ex_alloc ex_linkoutput
    (etharp_hdr ARP_REQUEST ex_mac ex_peer ethzero 0x0500A8C0) ex_ifc) arp_reset (fun _ s' =>
    arp_table s' = arp_table arp_reset).
Proof.
  rewrite <- (app_nil_r (etharp_hdr _ _ _ _ _)).
  eapply returns_mono; [apply (arp_for_others_adds_nothing ex_interface ex_alloc ex_linkoutput ex_ifc ARP_REQUEST ex_mac ex_peer
    ethzero 0x0500A8C0 [] arp_reset ex_inv ex_usable); first [reflexivity | now left | vm_compute; split; congruence] |].
  intros r s' (_ & _ & K & _). apply K, ex_absent.
Defined.

Lemma arp_entries_expire_witness :
  returns (ticks ex_interface ex_alloc ex_linkoutput 5) arp_reset (fun _ s' =>
    forall e, e ∈ arp_table s' -> entry_state e <> ETHARP_STATE_PENDING /\ q e = None).
Proof.
  eapply returns_mono; [apply (arp_entries_expire ex_interface ex_alloc ex_linkoutput 5 arp_reset ex_inv) |].
  intros r s' (_ & K & _). apply K. lia.
Defined.

Lemma arp_resolves_witness :
  exists s1 s2 s3,
    etharp_output ex_interface ex_alloc ex_linkoutput ex_ifc ex_packet ex_peer arp_reset = Done ERR_OK s1 /\
    ticks ex_interface ex_alloc ex_linkoutput 3 s1 = Done tt s2 /\
    etharp_input ex_interface ex_alloc ex_linkoutput
      (etharp_hdr ARP_REPLY ex_mac ex_peer (hwaddr (ex_interface ex_ifc)) ENC28_IP_ADDR ++ []) ex_ifc s2 = Done tt s3 /\
    link s3 = link s2 ++ [(ex_ifc, frame ex_mac (hwaddr (ex_interface ex_ifc)) ETHTYPE_IP (bytes ex_packet))].
Proof.
  assert (U : is_u32 ex_peer /\ is_u32 (ip_addr (ex_interface ex_ifc))) by (repeat split; vm_compute; congruence).
  destruct (arp_resolves ex_interface ex_alloc ex_linkoutput ex_ifc ex_packet ex_peer ex_peer 3 ex_mac [] arp_reset ex_inv ex_usable
    (fun _ => eq_refl) eq_refl eq_refl eq_refl eq_refl (ex_absent ex_peer) (or_intror eq_refl) ltac:(lia) eq_refl
    (proj1 U) (proj2 U)) as (s1 & s2 & s3 & O1 & _ & O2 & O3 & L3 & _).
  exists s1, s2, s3. auto.
Defined.

(** The answer as bytes on the wire: to 02:42:ac:11:00:02, from de:ad:be:ef:cc:aa. *)
Example ex_answer :
  match etharp_input ex_interface ex_alloc ex_linkoutput (etharp_hdr ARP_REQUEST ex_mac ex_peer ethzero ENC28_IP_ADDR) ex_ifc arp_reset with
  | Done _ s => link s
  | _ => []
  end = [(ex_ifc,
    [0x02; 0x42; 0xAC; 0x11; 0x00; 0x02; 0xDE; 0xAD; 0xBE; 0xEF; 0xCC; 0xAA; 0x08; 0x06;
     0x00; 0x01; 0x08; 0x00; 6; 4; 0x00; 0x02; 0xDE; 0xAD; 0xBE; 0xEF; 0xCC; 0xAA; 192; 168; 0; 22;
     0x02; 0x42; 0xAC; 0x11; 0x00; 0x02; 192; 168; 0; 1])].
Proof. vm_compute. reflexivity. Qed.
