(* ===== verification/Ip4.v ===== *)
(** Reception and sending of IPv4 packets, [core/ipv4/ip4.c], the ICMP messages of [core/ipv4/icmp.c], and the
    reception of frames, [ethernet_input] of [netif/ethernet.c] and [netif_input] of [core/netif.c].

    The state is that of [Etharp] and the counter of packet identifiers. A received packet is in one buffer;
    its [link_room] tells whether headers taken off can be put back in front. Its address matters to the
    checksum routine. The interfaces are those of [interface], in the order [netif_foreach]; what
    [ip4_route] of [Netif] finds for an address is [route]. UDP, TCP, reassembly and fragmentation are
    parameters: functions on the same state. A packet that is sent has one reference, as lwIP asserts. No raw
    sockets, no forwarding, no IGMP, IP options allowed, checksums generated and checked in software. *)
From Stdlib Require Import ZArith Lia Bool.
From stdpp Require Import base decidable list gmap.
From S2P Require Import Prelude LwipChksum Netif Etharp.

Definition ERR_IF : Z := -12.
Definition SIZEOF_ETH_HDR : nat := 14.
Definition IP_HLEN : Z := 20.
Definition IP_MF : Z := 0x2000.
Definition IP_OFFMASK : Z := 0x1fff.
Definition IP_PROTO_ICMP : Z := 1.
Definition IP_PROTO_UDP : Z := 17.
Definition IP_PROTO_TCP : Z := 6.
Definition ICMP_ER : Z := 0.
Definition ICMP_DUR : Z := 3.
Definition ICMP_ECHO : Z := 8.
Definition ICMP_DUR_PROTO : Z := 2.
Definition ICMP_TTL : Z := 255.
Definition ICMP_DEST_UNREACH_DATASIZE : Z := 8.

(** ** Headers *)

Definition IPH_V (h : list Z) : Z := Z.shiftr (h !!! 0%nat) 4.
Definition IPH_HL_BYTES (h : list Z) : Z := u8 ((h !!! 0%nat .& 0x0f) * 4).
Definition IPH_LEN (h : list Z) : Z := read16 (drop 2 h).
Definition IPH_OFFSET (h : list Z) : Z := read16 (drop 6 h).
Definition IPH_PROTO (h : list Z) : Z := h !!! 9%nat.
Definition IPH_SRC (h : list Z) : Z := read32 (drop 12 h).
Definition IPH_DEST (h : list Z) : Z := read32 (drop 16 h).

(** Writing bytes at an offset. *)
Definition patch (off : nat) (bs p : list Z) : list Z := take off p ++ bs ++ drop (off + length bs) p.

Definition tot_len (p : packet) : Z := Z.of_nat (length (bytes p)).

(** ** State *)

Record stack : Type := mk_stack { arp_state : arp; ip_id : Z }.

#[local] Abbreviation M := (prog stack).

Definition in_arp {A} (m : prog arp A) : M A := fun s =>
  match m (arp_state s) with
  | Done a t => Done a (mk_stack t (ip_id s))
  | Undefined => Undefined
  | Halted => Halted
  | OutOfFuel => OutOfFuel
  end.

(** [++ip_id], with the value before. *)
Definition next_ip_id : M Z := fun s => Done (ip_id s) (mk_stack (arp_state s) (u16 (ip_id s + 1))).

(** [ip_data]: what the upper layers can ask about the packet. *)
Record ip_data : Type := mk_ip_data {
  current_netif : Z;
  current_input_netif : Z;
  current_ip4_header : list Z;
  current_iphdr_src : Z;
  current_iphdr_dest : Z
}.

Section Ip4.
Variable interface : Z -> netif.
Variable alloc : nat -> bool.
Variable linkoutput_result : Z -> list Z -> Z.
Variable netif_foreach : list Z.
Variable route : Z -> Z.
Variable rx_addr : Z.                  (** address of the IP header of a received packet *)
Variable tx_addr : Z.                  (** address of the payload of a new buffer *)
Variable udp_input tcp_input : ip_data -> packet -> Z -> M unit.
Variable ip4_reass : packet -> M (option packet).
Variable ip4_frag : packet -> Z -> Z -> M Z.

(** ** Sending *)

(** [netif->output] *)
Definition netif_output (netif : Z) (p : packet) (dest : Z) : M Z :=
  match output (interface netif) with
  | Netif.etharp_output => in_arp (Etharp.etharp_output interface alloc linkoutput_result netif p dest)
  | netif_null_output_ip4 => ret ERR_IF
  | _ => undefined
  end.

(** The header [ip4_output_if_src] writes, with the checksum summed on the way; fields as in memory. *)
Definition ip4_header (len id src dest ttl tos proto : Z) : list Z :=
  let chk_sum := u32 (0 + PP_HTONS (proto .| Z.shiftl ttl 8)) in
  let chk_sum := u32 (chk_sum + (dest .& 0xFFFF)) in
  let chk_sum := u32 (chk_sum + Z.shiftr dest 16) in
  let v_hl := u8 (Z.shiftl 4 4 .| 5) in
  let chk_sum := u32 (chk_sum + PP_HTONS (tos .| Z.shiftl v_hl 8)) in
  let chk_sum := u32 (chk_sum + len) in
  let chk_sum := u32 (chk_sum + id) in
  let chk_sum := u32 (chk_sum + (src .& 0xFFFF)) in
  let chk_sum := u32 (chk_sum + Z.shiftr src 16) in
  let chk_sum := u32 (Z.shiftr chk_sum 16 + (chk_sum .& 0xFFFF)) in
  let chk_sum := u32 (Z.shiftr chk_sum 16 + chk_sum) in
  let chk_sum := u32 (Z.lnot chk_sum) in
  [v_hl; tos] ++ bytes16 len ++ bytes16 id ++ bytes16 0 ++ [ttl; proto] ++ bytes16 (u16 chk_sum) ++ bytes32 src ++
  bytes32 dest.

Definition ip4_output_send (p : packet) (dest netif : Z) : M Z :=
  if truth (mtu (interface netif)) && (mtu (interface netif) <? tot_len p) then ip4_frag p netif dest
  else netif_output netif p dest.

(** [dest] is [None] for [LWIP_IP_HDRINCL], [src] for [NULL]. *)
Definition ip4_output_if_src (p : packet) (src dest : option Z) (ttl tos proto netif : Z) : M Z :=
  match dest with
  | Some dest =>
    if negb (link_room p) then ret ERR_BUF
    else
      id <- next_ip_id ;;
      let hdr := ip4_header (lwip_htons (u16 (tot_len p + IP_HLEN))) (lwip_htons id) (default IPADDR_ANY src) dest ttl tos proto in
      ip4_output_send (mk_packet (hdr ++ bytes p) (link_room p) (needs_copy p)) dest netif
  | None =>
    if tot_len p <? IP_HLEN then ret ERR_BUF
    else ip4_output_send p (IPH_DEST (bytes p)) netif
  end.

Definition ip4_output_if (p : packet) (src dest : option Z) (ttl tos proto netif : Z) : M Z :=
  let src_used :=
    match dest with
    | Some _ => if ip4_addr_isany_val (default IPADDR_ANY src) then Some (ip_addr (interface netif)) else src
    | None => src
    end in
  ip4_output_if_src p src_used dest ttl tos proto netif.

(** ** ICMP *)

(** [pbuf_alloc], as in [Etharp]. *)
Definition pbuf_alloc : M bool := in_arp (Etharp.pbuf_alloc alloc).

(** [p] starts at its IP header. *)
Definition icmp_send_response (p : packet) (type code : Z) : M unit :=
  let response_pkt_len := Z.min (IP_HLEN + ICMP_DEST_UNREACH_DATASIZE) (tot_len p) in
  ok <- pbuf_alloc ;;
  if negb ok then ret tt
  else
    let copied := take (Z.to_nat response_pkt_len) (bytes p) in
    let iphdr_src := IPH_SRC (bytes p) in
    let netif := route iphdr_src in
    if negb (netif =? 0) then
      let chksum := inet_chksum (tx_addr, [type; code] ++ bytes16 0 ++ bytes32 0 ++ copied) in
      let q := mk_packet ([type; code] ++ bytes16 chksum ++ bytes32 0 ++ copied) true false in
      ip4_output_if q None (Some iphdr_src) ICMP_TTL 0 IP_PROTO_ICMP netif ;;
      ret tt
    else ret tt.

Definition icmp_dest_unreach (p : packet) (t : Z) : M unit := icmp_send_response p ICMP_DUR t.

(** The checksum of the reply from that of the request. *)
Definition adjust_chksum (chksum : Z) : Z :=
  if PP_HTONS (0xffff - Z.shiftl ICMP_ECHO 8) <? chksum
  then u16 (chksum + PP_HTONS (u16 (Z.shiftl ICMP_ECHO 8)) + 1)
  else u16 (chksum + PP_HTONS (Z.shiftl ICMP_ECHO 8)).

(** A buffer that holds the header and the message and has room in front: the packet itself or a copy. *)
Definition icmp_reply_buffer (d : ip_data) (p : packet) : M (option packet) :=
  let hdr := current_ip4_header d in
  let hlen := IPH_HL_BYTES hdr in
  if link_room p then ret (Some (mk_packet (hdr ++ bytes p) true (needs_copy p)))
  else
    let alloc_len := u16 (tot_len p + hlen) in
    if alloc_len <? tot_len p then ret None
    else
      ok <- pbuf_alloc ;;
      ret (if ok then Some (mk_packet (hdr ++ bytes p) true false) else None).

(** [p] starts at its ICMP header. *)
Definition icmp_input (d : ip_data) (p : packet) (inp : Z) : M unit :=
  let hdr := current_ip4_header d in
  let hlen := IPH_HL_BYTES hdr in
  let dest := current_iphdr_dest d in
  if hlen <? IP_HLEN then ret tt
  else if tot_len p <? 4 then ret tt
  else
    let type := bytes p !!! 0%nat in
    if type =? ICMP_ECHO then
      if ip4_addr_ismulticast dest then ret tt
      else if ip4_addr_isbroadcast dest (interface (current_netif d)) then ret tt
      else if tot_len p <? 8 then ret tt
      else if negb (inet_chksum_pbuf [(rx_addr + hlen, bytes p)] =? 0) then ret tt
      else
        r <- icmp_reply_buffer d p ;;
        match r with
        | None => ret tt
        | Some r =>
          let h := Z.to_nat hlen in
          let b := patch 12 (bytes32 dest) (bytes r) in
          let b := patch 16 (bytes32 (current_iphdr_src d)) b in
          let b := patch h [ICMP_ER] b in
          let b := patch (h + 2) (bytes16 (adjust_chksum (read16 (drop (h + 2) b)))) b in
          let b := patch 8 [ICMP_TTL] b in
          let b := patch 10 (bytes16 0) b in
          let b := patch 10 (bytes16 (inet_chksum (if link_room p then rx_addr else tx_addr, take h b))) b in
          ip4_output_if (mk_packet b true (needs_copy r)) (Some dest) None ICMP_TTL 0 IP_PROTO_ICMP inp ;;
          ret tt
        end
    else ret tt.

(** ** Reception *)

Definition ip4_input_accept (dest netif : Z) : bool :=
  let n := interface netif in
  netif_is_up n && negb (ip4_addr_isany_val (ip_addr n)) &&
  ((dest =? ip_addr n) || ip4_addr_isbroadcast dest n).

(** The walk over the other interfaces. *)
Fixpoint find_accepting (dest inp : Z) (ns : list Z) : option Z :=
  match ns with
  | [] => None
  | n :: ns' => if negb (n =? inp) && ip4_input_accept dest n then Some n else find_accepting dest inp ns'
  end.

(** The interface the packet is for. *)
Definition ip4_input_netif (dest inp : Z) : option Z :=
  let n := interface inp in
  if ip4_addr_ismulticast dest then
    if netif_is_up n && negb (ip4_addr_isany_val (ip_addr n)) then Some inp else None
  else if ip4_input_accept dest inp then Some inp
  else if negb (ip4_addr_isloopback dest) then find_accepting dest inp netif_foreach
  else None.

(** The upper layers; [p] starts at the IP header, [iphdr_hlen] is the length of the received header. *)
Definition ip4_deliver (p : packet) (iphdr_hlen src dest netif inp : Z) : M Z :=
  let iphdr := take (Z.to_nat iphdr_hlen) (bytes p) in
  let d := mk_ip_data netif inp iphdr src dest in
  let payload := mk_packet (drop (Z.to_nat iphdr_hlen) (bytes p)) (link_room p) (needs_copy p) in
  let proto := IPH_PROTO (bytes p) in
  (if proto =? IP_PROTO_UDP then udp_input d payload inp
   else if proto =? IP_PROTO_TCP then tcp_input d payload inp
   else if proto =? IP_PROTO_ICMP then icmp_input d payload inp
   else if negb (ip4_addr_isbroadcast dest (interface netif)) && negb (ip4_addr_ismulticast dest)
   then icmp_dest_unreach p ICMP_DUR_PROTO
   else ret tt) ;;
  ret ERR_OK.

(** Reading the header of a packet of less than 4 bytes is undefined, and so is a reassembled packet whose header is
    not as long as the one of its last fragment, which the code takes it to be. *)
Definition ip4_input (p : packet) (inp : Z) : M Z :=
  if (length (bytes p) <? 4)%nat then undefined
  else if negb (IPH_V (bytes p) =? 4) then ret ERR_OK
  else
    let iphdr_hlen := IPH_HL_BYTES (bytes p) in
    let iphdr_len := lwip_htons (IPH_LEN (bytes p)) in
    let p := mk_packet (if iphdr_len <? tot_len p then take (Z.to_nat iphdr_len) (bytes p) else bytes p)
               (link_room p) (needs_copy p) in
    if (tot_len p <? iphdr_hlen) || (tot_len p <? iphdr_len) || (iphdr_hlen <? IP_HLEN) then ret ERR_OK
    else if negb (inet_chksum (rx_addr, take (Z.to_nat iphdr_hlen) (bytes p)) =? 0) then ret ERR_OK
    else
      let dest := IPH_DEST (bytes p) in
      let src := IPH_SRC (bytes p) in
      let netif := ip4_input_netif dest inp in
      if ip4_addr_isbroadcast src (interface inp) || ip4_addr_ismulticast src then ret ERR_OK
      else
        match netif with
        | None => ret ERR_OK
        | Some netif =>
          if truth (IPH_OFFSET (bytes p) .& PP_HTONS (IP_OFFMASK .| IP_MF)) then
            r <- ip4_reass p ;;
            match r with
            | None => ret ERR_OK
            | Some p => if IPH_HL_BYTES (bytes p) =? iphdr_hlen then ip4_deliver p iphdr_hlen src dest netif inp else undefined
            end
          else ip4_deliver p iphdr_hlen src dest netif inp
        end.

(** [p] starts at its Ethernet header. *)
Definition ethernet_input (p : packet) (netif : Z) : M Z :=
  if (length (bytes p) <=? SIZEOF_ETH_HDR)%nat then ret ERR_OK
  else
    let type := read16 (drop 12 (bytes p)) in
    let n := interface netif in
    let rest := mk_packet (drop SIZEOF_ETH_HDR (bytes p)) (link_room p) (needs_copy p) in
    if type =? PP_HTONS ETHTYPE_IP then
      if negb (truth (flags n .& NETIF_FLAG_ETHARP)) then ret ERR_OK
      else ip4_input rest netif ;; ret ERR_OK
    else if type =? PP_HTONS ETHTYPE_ARP then
      if negb (truth (flags n .& NETIF_FLAG_ETHARP)) then ret ERR_OK
      else in_arp (etharp_input interface alloc linkoutput_result (bytes rest) netif) ;; ret ERR_OK
    else ret ERR_OK.

Definition netif_input (p : packet) (inp : Z) : M Z :=
  if truth (flags (interface inp) .& (NETIF_FLAG_ETHARP .| NETIF_FLAG_ETHERNET)) then ethernet_input p inp
  else ip4_input p inp.
End Ip4.
