(* ===== verification/Ip4Chksum.v ===== *)
(** The bytes [Ip4] writes: fields patched into a packet, the checksum summed while a header is written, the one
    adjusted in an echo reply, and the reply's header. *)
From Stdlib Require Import ZArith Lia Bool.
From stdpp Require Import base decidable list gmap.
From S2P Require Import Prelude LwipChksum Netif Etharp EtharpTable EtharpProofs EtharpInput Ip4.

(** * Bytes *)

Lemma is_u8_land z : is_u8 (z .& 0xFF).
Proof. rewrite land_ff. apply u8_range. Qed.

Lemma bytes16_u8 v : Forall is_u8 (bytes16 v).
Proof. repeat constructor; apply is_u8_land. Qed.

Lemma bytes32_u8 v : Forall is_u8 (bytes32 v).
Proof. repeat constructor; apply is_u8_land. Qed.

Lemma bytes16_sum v : is_u16 v -> le_sum (bytes16 v) = v.
Proof.
  intros H. unfold bytes16. cbn [le_sum]. rewrite !land_ff, shiftr8. unfold u8, is_u16 in *.
  rewrite (Z.mod_small (v / 256)); [pose proof (Z.div_mod v 256 ltac:(lia)); lia |].
  split; [apply Z.div_pos; lia | apply Z.div_lt_upper_bound; lia].
Qed.

Lemma bytes32_sum v : is_u32 v -> le_sum (bytes32 v) = v mod 65536 + v / 65536.
Proof.
  intros H. unfold bytes32. cbn [le_sum]. rewrite !land_ff, !Z.shiftr_div_pow2 by lia. unfold u8, is_u32 in *.
  change (2 ^ 24) with (256 * 256 * 256). change (2 ^ 16) with (256 * 256). change (2 ^ 8) with 256.
  change 65536 with (256 * 256). rewrite <- !Z.div_div by lia.
  rewrite Z.rem_mul_r by lia.
  rewrite (Z.mod_small (v / 256 / 256 / 256)).
  - pose proof (Z.div_mod (v / 256 / 256) 256 ltac:(lia)). lia.
  - split; [repeat apply Z.div_pos; lia | repeat apply Z.div_lt_upper_bound; lia].
Qed.

(** * Patching *)

Lemma length_patch off bs p : (off + length bs <= length p)%nat -> length (patch off bs p) = length p.
Proof. intros H. unfold patch. rewrite !length_app, length_take, length_drop. lia. Qed.

Lemma lookup_patch off bs p k : (off + length bs <= length p)%nat ->
  patch off bs p !! k = if decide (off <= k < off + length bs)%nat then bs !! (k - off)%nat else p !! k.
Proof.
  intros H. unfold patch. assert (Lt : length (take off p) = off) by (rewrite length_take; lia).
  destruct (Nat.lt_ge_cases k off) as [L | L].
  - rewrite decide_False by lia. rewrite lookup_app_l by lia. now rewrite lookup_take_lt.
  - rewrite lookup_app_r by lia. rewrite Lt. destruct (Nat.lt_ge_cases k (off + length bs)) as [L2 | L2].
    + rewrite decide_True by lia. now rewrite lookup_app_l by lia.
    + rewrite decide_False by lia. rewrite lookup_app_r by lia. rewrite lookup_drop. f_equal. lia.
Qed.

(** * Checksums *)

(** Data short enough for the checksum routines. *)
Lemma chksum_value a l : short l -> inet_chksum (a, l) = 65535 - ones (le_sum l).
Proof. intros H. unfold inet_chksum, LWIP_CHKSUM. cbn [fst snd]. now rewrite chksum_2_ones, not16_ones. Qed.

Lemma chksum_pbuf_value a l : short l -> inet_chksum_pbuf [(a, l)] = 65535 - ones (le_sum l).
Proof.
  intros H. unfold inet_chksum_pbuf. rewrite chain_sum_ones by (repeat constructor; try apply H; lia).
  rewrite Z.add_0_l, land_ffff_ones, not16_ones. unfold chain_data. cbn. now rewrite app_nil_r.
Qed.

(** The header without its checksum, and with it. *)
Definition header_start (len id ttl tos proto : Z) : list Z :=
  [0x45; tos] ++ bytes16 len ++ bytes16 id ++ [0; 0; ttl; proto].
Definition header_end (src dest : Z) : list Z := bytes32 src ++ bytes32 dest.

Lemma header_sum len id src dest ttl tos proto : is_u16 len -> is_u16 id -> is_u32 src -> is_u32 dest ->
  le_sum (header_start len id ttl tos proto) + le_sum (header_end src dest) =
  0x45 + 256 * tos + len + id + ttl + 256 * proto + (src mod 65536 + src / 65536) + (dest mod 65536 + dest / 65536).
Proof.
  intros Hl Hi Hs Hd. unfold header_end. destruct (le_sum_app (bytes32 src) (bytes32 dest)) as [-> _].
  change (Nat.even (length (bytes32 src))) with true. cbv iota. rewrite !bytes32_sum by assumption.
  pose proof (bytes16_sum len Hl) as El. pose proof (bytes16_sum id Hi) as Ei.
  unfold header_start. unfold bytes16 in *. cbn [app le_sum] in *. lia.
Qed.

Lemma htons_pair a b : is_u8 a -> is_u8 b -> PP_HTONS (a .| Z.shiftl b 8) = b + 256 * a.
Proof.
  intros Ha Hb. change (PP_HTONS ?x) with (lwip_htons x). rewrite Z.lor_comm, byte_pair by exact Ha.
  unfold is_u8 in *. rewrite htons_swap by lia. destruct (swap_spec (b * 256 + a)) as [-> _]; [lia |].
  rewrite <- (Z.mod_unique (b * 256 + a) 256 b a), <- (Z.div_unique (b * 256 + a) 256 b a) by lia. lia.
Qed.

(** The folding at the end of the header's sum. *)
Lemma inline_fold c : 0 <= c < 4294901760 ->
  let c1 := u32 (Z.shiftr c 16 + (c .& 0xFFFF)) in
  let c2 := u32 (Z.shiftr c1 16 + c1) in
  u16 (u32 (Z.lnot c2)) = 65535 - ones c.
Proof.
  intros Hc. cbv zeta. destruct (fold_spec c) as (E & R & O); [lia |]. unfold FOLD_U32T in *.
  set (c1 := u32 _) in *. destruct (fold_spec c1) as (E1 & _ & O1); [lia |]. unfold FOLD_U32T in E1, O1.
  pose proof (fold_small c1 ltac:(lia)) as S1. unfold FOLD_U32T in S1.
  set (c3 := u32 (Z.shiftr c1 16 + (c1 .& 0x0000ffff))) in *.
  assert (Ec : c3 = ones c) by (apply ones_unique; [lia |]; etransitivity; [exact O1 | exact O]).
  rewrite shiftr16. assert (Hd : 0 <= c1 / 65536 <= 1).
  { split; [apply Z.div_pos; lia |]. assert (c1 / 65536 < 2) by (apply Z.div_lt_upper_bound; lia). lia. }
  rewrite (u32_small (c1 / 65536 + c1)) by lia. pose proof (Z.div_mod c1 65536 ltac:(lia)) as D.
  unfold u32, u16. replace (4294967296) with (65536 * 65536) by reflexivity. rewrite Z.rem_mul_r by lia.
  rewrite Z.mul_comm, Z.mod_add, Z.mod_mod by lia. rewrite <- Ec. unfold Z.lnot.
  symmetry. apply Z.mod_unique with (q := - (c1 / 65536) - 1); lia.
Qed.

Lemma bytes16_u16 c : is_u16 c -> bytes16 c = [c .& 0xff; Z.shiftr c 8].
Proof.
  intros H. unfold bytes16. do 2 f_equal. rewrite land_ff, shiftr8. unfold is_u16 in H. apply u8_small. unfold is_u8.
  split; [apply Z.div_pos; lia | apply Z.div_lt_upper_bound; lia].
Qed.

Lemma header_pieces_u8 len id src dest ttl tos proto : is_u8 ttl -> is_u8 tos -> is_u8 proto ->
  Forall is_u8 (header_start len id ttl tos proto) /\ Forall is_u8 (header_end src dest).
Proof.
  intros H1 H2 H3. unfold header_start, header_end. rewrite !Forall_app. repeat split;
    auto using bytes16_u8, bytes32_u8; repeat constructor; try apply H1; try apply H2; try apply H3; unfold is_u8; lia.
Qed.

Lemma with_checksum_short l1 l2 c : Forall is_u8 l1 -> Forall is_u8 l2 -> is_u16 c ->
  Z.of_nat (length l1 + length l2) <= 65533 -> short (with_checksum l1 l2 c).
Proof.
  intros H1 H2 Hc Hl. unfold with_checksum. rewrite <- bytes16_u16 by exact Hc. split.
  - rewrite !Forall_app. auto using bytes16_u8.
  - rewrite !length_app. cbn [length bytes16]. lia.
Qed.

Lemma ones_u16 s : is_u16 (65535 - ones s).
Proof. pose proof (ones_range s). unfold is_u16. lia. Qed.

(** The inline checksum, as the checksum of the finished header. *)
Lemma ip4_header_spec a len id src dest ttl tos proto : is_u16 len -> is_u16 id -> is_u32 src -> is_u32 dest ->
  is_u8 ttl -> is_u8 tos -> is_u8 proto ->
  let l1 := header_start len id ttl tos proto in
  let l2 := header_end src dest in
  ip4_header len id src dest ttl tos proto = with_checksum l1 l2 (inet_chksum (a, with_checksum l1 l2 0)).
Proof.
  intros Hl Hi Hs Hd Ht Hto Hp l1 l2.
  destruct (header_pieces_u8 len id src dest ttl tos proto Ht Hto Hp) as [F1 F2].
  rewrite chksum_value by (apply with_checksum_short; try assumption; [unfold is_u16; lia | cbn; lia]).
  rewrite with_checksum_sum by (reflexivity || lia). unfold l1, l2.
  replace (le_sum (header_start len id ttl tos proto) + 0 + le_sum (header_end src dest)) with
    (0x45 + 256 * tos + len + id + ttl + 256 * proto + (src mod 65536 + src / 65536) + (dest mod 65536 + dest / 65536))
    by (pose proof (header_sum len id src dest ttl tos proto Hl Hi Hs Hd); lia).
  unfold with_checksum. rewrite <- bytes16_u16 by apply ones_u16.
  unfold ip4_header. change (u8 (Z.shiftl 4 4 .| 5)) with 0x45.
  rewrite (htons_pair proto), (htons_pair tos), !land_ffff, !shiftr16 by (assumption || (unfold is_u8; lia)).
  assert (D : forall x, is_u32 x -> 0 <= x / 65536 < 65536).
  { intros x Hx. unfold is_u32 in Hx. split; [apply Z.div_pos; lia | apply Z.div_lt_upper_bound; lia]. }
  pose proof (D src Hs). pose proof (D dest Hd).
  pose proof (Z.mod_pos_bound src 65536). pose proof (Z.mod_pos_bound dest 65536).
  unfold is_u8, is_u16, is_u32 in *.
  rewrite (u32_small (0 + _)) by lia. rewrite (u32_small (_ + dest mod 65536)) by lia.
  rewrite (u32_small (_ + dest / 65536)) by lia. rewrite (u32_small (_ + (0x45 + 256 * tos))) by lia.
  rewrite (u32_small (_ + len)) by lia. rewrite (u32_small (_ + id)) by lia.
  rewrite (u32_small (_ + src mod 65536)) by lia. rewrite (u32_small (_ + src / 65536)) by lia.
  set (c := _ + src / 65536). rewrite <- (shiftr16 c), <- (land_ffff c), <- (shiftr16 (u32 _)).
  rewrite inline_fold by (unfold c; lia).
  replace (0x45 + 256 * tos + len + id + ttl + 256 * proto + (src mod 65536 + src / 65536) + (dest mod 65536 + dest / 65536))
    with c by (unfold c; lia).
  reflexivity.
Qed.

(** ** The checksum of an echo reply *)

Lemma patch_app_l off bs l1 l2 : (off + length bs <= length l1)%nat -> patch off bs (l1 ++ l2) = patch off bs l1 ++ l2.
Proof. intros H. unfold patch. rewrite take_app_le, drop_app_le by lia. now rewrite !app_assoc. Qed.

Lemma patch_app_r off bs l1 l2 : patch (length l1 + off) bs (l1 ++ l2) = l1 ++ patch off bs l2.
Proof.
  unfold patch. rewrite take_app_add, <- Nat.add_assoc, drop_app_add. now rewrite <- app_assoc.
Qed.

Lemma adjust_spec c : is_u16 c -> is_u16 (adjust_chksum c) /\
  (adjust_chksum c = c + 8 \/ adjust_chksum c = c + 8 - 65535) /\ (adjust_chksum c = 0 -> False).
Proof.
  intros H. unfold adjust_chksum, ICMP_ECHO. change (PP_HTONS (0xffff - Z.shiftl 8 8)) with 0xfff7.
  change (PP_HTONS (u16 (Z.shiftl 8 8))) with 8. change (PP_HTONS (Z.shiftl 8 8)) with 8.
  unfold is_u16 in *. destruct (Z.ltb_spec 0xfff7 c) as [L | L].
  - assert (E : u16 (c + 8 + 1) = c + 8 - 65535); [| rewrite E; lia].
    unfold u16. symmetry. apply Z.mod_unique with 1; lia.
  - rewrite u16_small by (unfold is_u16; lia). lia.
Qed.

(** The message of a reply. *)
Definition echo_message (m : list Z) : list Z :=
  patch 2 (bytes16 (adjust_chksum (read16 (drop 2 m)))) (patch 0 [ICMP_ER] m).

Lemma echo_message_eq t c c0 c1 rest : echo_message (t :: c :: c0 :: c1 :: rest) =
  [ICMP_ER; c] ++ bytes16 (adjust_chksum (le16 c0 c1)) ++ rest.
Proof. reflexivity. Qed.

Lemma echo_message_valid a a' m : short m -> (4 <= length m)%nat -> m !!! 0%nat = ICMP_ECHO ->
  inet_chksum_pbuf [(a, m)] = 0 -> short (echo_message m) /\ inet_chksum_pbuf [(a', echo_message m)] = 0.
Proof.
  intros Hm Hl H0 Hv. destruct m as [| t [| c [| c0 [| c1 rest]]]]; cbn in Hl; try lia. cbn in H0. subst t.
  rewrite chksum_pbuf_value in Hv by exact Hm. rewrite echo_message_eq. destruct Hm as [Hb Hl'].
  do 4 (apply Forall_cons in Hb as [? Hb]).
  assert (R : is_u16 (le16 c0 c1)) by (apply le16_range; assumption).
  destruct (adjust_spec _ R) as (Ra & Ea & Na).
  assert (Hs : short ([ICMP_ER; c] ++ bytes16 (adjust_chksum (le16 c0 c1)) ++ rest)).
  { split; [| cbn in *; lia]. rewrite !Forall_app. split; [| split; [apply bytes16_u8 | exact Hb]].
    apply Forall_cons_2; [unfold is_u8, ICMP_ER; lia |]. apply Forall_cons_2; [assumption | apply Forall_nil_2]. }
  split; [exact Hs |]. rewrite chksum_pbuf_value by exact Hs.
  pose proof (bytes16_sum _ Ra) as Eb. unfold bytes16 in *. cbn [app le_sum] in *.
  assert (Ev : ones (ICMP_ECHO + 256 * c + (c0 + 256 * c1 + le_sum rest)) = 65535) by lia.
  rewrite <- (le16_value c0 c1) in Ev by assumption.
  match goal with |- 65535 - ones ?x = 0 => assert (E : ones x = 65535); [| lia] end.
  rewrite <- Ev. pose proof (le_sum_bound rest Hb). unfold is_u8, is_u16 in *. unfold ICMP_ECHO, ICMP_ER in *.
  symmetry. apply ones_eq. repeat split; try lia. 
  destruct Ea as [Ea | Ea]; [f_equal; lia |].
  replace (8 + 256 * c + (le16 c0 c1 + le_sum rest)) with
    ((0 + 256 * c + (adjust_chksum (le16 c0 c1) .& 255 + 256 * (Z.shiftr (adjust_chksum (le16 c0 c1)) 8 .& 255) + le_sum rest)) + 1 * 65535) by lia.
  now rewrite Z.mod_add by lia.
Qed.

(** ** The header of an echo reply *)

Ltac patch_length :=
  unfold patch; repeat (rewrite length_app || rewrite length_take || rewrite length_drop); cbn [length bytes16 bytes32]; lia.

Definition echo_header (a : Z) (hdr : list Z) (src dest : Z) : list Z :=
  let b := patch 8 [ICMP_TTL] (patch 16 (bytes32 src) (patch 12 (bytes32 dest) hdr)) in
  let b := patch 10 (bytes16 0) b in
  patch 10 (bytes16 (inet_chksum (a, b))) b.

Lemma patch_u8 off bs p : Forall is_u8 bs -> Forall is_u8 p -> Forall is_u8 (patch off bs p).
Proof. intros H1 H2. unfold patch. rewrite !Forall_app. auto using Forall_take, Forall_drop. Qed.

Lemma patch_checksum c hdr : (12 <= length hdr)%nat -> is_u16 c ->
  patch 10 (bytes16 c) hdr = with_checksum (take 10 hdr) (drop 12 hdr) c.
Proof. intros H Hc. unfold patch, with_checksum. now rewrite bytes16_u16. Qed.

Lemma patch_patch off bs bs' p : (off + length bs <= length p)%nat -> length bs = length bs' ->
  patch off bs' (patch off bs p) = patch off bs' p.
Proof.
  intros H E. apply list_eq. intros k. rewrite !lookup_patch by (rewrite ?length_patch; lia).
  rewrite E. destruct (decide _); reflexivity.
Qed.

Lemma length_echo_header a hdr src dest : (20 <= length hdr)%nat -> length (echo_header a hdr src dest) = length hdr.
Proof. intros H. unfold echo_header. patch_length. Qed.

Lemma echo_header_valid a a' hdr src dest : Forall is_u8 hdr -> (20 <= length hdr <= 60)%nat ->
  Forall is_u8 (echo_header a hdr src dest) /\ inet_chksum (a', echo_header a hdr src dest) = 0.
Proof.
  intros Hb Hl. unfold echo_header. set (b := patch 8 _ _).
  assert (Lb : length b = length hdr) by (unfold b; patch_length).
  assert (Fb : Forall is_u8 b).
  { unfold b. repeat apply patch_u8; auto using bytes32_u8. repeat constructor; discriminate. }
  assert (F0 : Forall is_u8 (patch 10 (bytes16 0) b)) by (apply patch_u8; auto using bytes16_u8).
  split; [apply patch_u8; auto using bytes16_u8 |].
  rewrite patch_patch by (cbn; lia).
  assert (Ec : is_u16 (inet_chksum (a, patch 10 (bytes16 0) b))).
  { rewrite chksum_value; [apply ones_u16 |]. split; [exact F0 | rewrite length_patch by (cbn; lia); lia]. }
  rewrite !patch_checksum in * by (lia || exact Ec || (unfold is_u16; lia)).
  apply stored_chksum_verifies; auto using Forall_take, Forall_drop.
  - rewrite length_take, length_drop. lia.
  - rewrite length_take, Nat.min_l by lia. reflexivity.
Qed.

(** Every byte of the reply's header. *)
Lemma echo_header_lookup a hdr src dest k : (20 <= length hdr)%nat -> (k < 10 \/ 12 <= k)%nat ->
  echo_header a hdr src dest !! k =
  if decide (k = 8)%nat then Some ICMP_TTL
  else if decide (12 <= k < 16)%nat then bytes32 dest !! (k - 12)%nat
  else if decide (16 <= k < 20)%nat then bytes32 src !! (k - 16)%nat
  else hdr !! k.
Proof.
  intros Hl Hk. unfold echo_header.
  assert (L1 : length (patch 12 (bytes32 dest) hdr) = length hdr) by (apply length_patch; cbn; lia).
  assert (L2 : length (patch 16 (bytes32 src) (patch 12 (bytes32 dest) hdr)) = length hdr)
    by (rewrite length_patch; cbn; lia).
  set (b := patch 8 _ _). assert (L3 : length b = length hdr) by (unfold b; rewrite length_patch; cbn; lia).
  assert (L4 : length (patch 10 (bytes16 0) b) = length hdr) by (rewrite length_patch; cbn; lia).
  rewrite lookup_patch by (cbn; lia). rewrite decide_False by (cbn; lia).
  rewrite lookup_patch by (cbn; lia). rewrite decide_False by (cbn; lia).
  unfold b. rewrite lookup_patch by (cbn; lia). cbn [length].
  destruct (decide (k = 8)%nat) as [-> | N]; [reflexivity |]. rewrite decide_False by lia.
  rewrite lookup_patch by (cbn; lia). change (16 + length (bytes32 src))%nat with 20%nat.
  destruct (decide (16 <= k < 20)%nat); [rewrite decide_False by lia; reflexivity |].
  rewrite lookup_patch by (cbn; lia). change (12 + length (bytes32 dest))%nat with 16%nat.
  destruct (decide (12 <= k < 16)%nat); reflexivity.
Qed.

Lemma read32_lookup p q off : (forall k, (off <= k < off + 4)%nat -> p !! k = q !! k) -> read32 (drop off p) = read32 (drop off q).
Proof.
  intros H. assert (E : forall l : list Z, read32 l = match l !! 0%nat, l !! 1%nat, l !! 2%nat, l !! 3%nat with
    | Some b0, Some b1, Some b2, Some b3 => b0 .| Z.shiftl b1 8 .| Z.shiftl b2 16 .| Z.shiftl b3 24 | _, _, _, _ => 0 end)
    by (now intros [| ? [| ? [| ? [| ? ?]]]]).
  rewrite !E, !lookup_drop. rewrite !H by lia. reflexivity.
Qed.

Lemma echo_header_dest a hdr src dest rest : (20 <= length hdr)%nat -> is_u32 src ->
  IPH_DEST (echo_header a hdr src dest ++ rest) = src.
Proof.
  intros Hl Hs. unfold IPH_DEST.
  rewrite (read32_lookup _ (patch 16 (bytes32 src) hdr)).
  - unfold patch. rewrite drop_app_length' by (rewrite length_take; lia). now apply read32_bytes32.
  - intros k Hk. rewrite lookup_app_l by (rewrite length_echo_header; lia). rewrite echo_header_lookup by lia.
    rewrite lookup_patch by (cbn; lia). change (16 + length (bytes32 src))%nat with 20%nat.
    rewrite !(decide_True (P := (16 <= k < 20)%nat)) by lia.
    rewrite (decide_False (P := k = 8%nat)), (decide_False (P := (12 <= k < 16)%nat)) by lia. reflexivity.
Qed.
