(* ===== verification/Ip4Proofs.v ===== *)
(** What [Ip4] does with packets: echo requests are answered, what is not acceptable is dropped, unknown protocols are
    reported, and the reception of a frame always returns. *)
From Stdlib Require Import ZArith Lia Bool.
From stdpp Require Import base decidable list gmap.
From S2P Require Import Prelude LwipChksum Netif Etharp EtharpTable EtharpProofs EtharpInput Ip4 Ip4Chksum.

(** * The functions *)

Section Reception.
Variable interface : Z -> netif.
Variable alloc : nat -> bool.
Variable linkoutput_result : Z -> list Z -> Z.
Variable netif_foreach : list Z.
Variable route : Z -> Z.
Variable rx_addr tx_addr : Z.
Variable udp_input tcp_input : ip_data -> packet -> Z -> prog stack unit.
Variable ip4_reass : packet -> prog stack (option packet).
Variable ip4_frag : packet -> Z -> Z -> prog stack Z.

#[local] Abbreviation icmp_input := (icmp_input interface alloc linkoutput_result rx_addr tx_addr ip4_frag).
#[local] Abbreviation ip4_output_send := (ip4_output_send interface alloc linkoutput_result ip4_frag).
#[local] Abbreviation netif_output := (netif_output interface alloc linkoutput_result).
#[local] Abbreviation icmp_send_response := (icmp_send_response interface alloc linkoutput_result route tx_addr ip4_frag).
#[local] Abbreviation ip4_input :=
  (ip4_input interface alloc linkoutput_result netif_foreach route rx_addr tx_addr udp_input tcp_input ip4_reass ip4_frag).
#[local] Abbreviation ip4_deliver :=
  (ip4_deliver interface alloc linkoutput_result route rx_addr tx_addr udp_input tcp_input ip4_frag).
#[local] Abbreviation ethernet_input :=
  (ethernet_input interface alloc linkoutput_result netif_foreach route rx_addr tx_addr udp_input tcp_input ip4_reass ip4_frag).
#[local] Abbreviation netif_input :=
  (netif_input interface alloc linkoutput_result netif_foreach route rx_addr tx_addr udp_input tcp_input ip4_reass ip4_frag).

(** The state after a buffer has been asked for. *)
Definition asked (s : stack) : stack := mk_stack (allocated (arp_state s)) (ip_id s).

Lemma pbuf_alloc_run s : pbuf_alloc alloc s = Done (alloc (allocations (arp_state s))) (asked s).
Proof. reflexivity. Qed.

(** A packet that can be answered: its message, its header, and room for the answer. *)
Record echo_request (a : Z) (hdr m : list Z) : Prop := {
  er_hdr : Forall is_u8 hdr;
  er_hlen : IPH_HL_BYTES hdr = Z.of_nat (length hdr);
  er_hlen_range : (20 <= length hdr <= 60)%nat;
  er_msg : Forall is_u8 m;
  er_len : (8 <= length m)%nat;
  er_total : Z.of_nat (length hdr + length m) <= 65535;
  er_type : m !!! 0%nat = ICMP_ECHO;
  er_chksum : inet_chksum_pbuf [(a + IPH_HL_BYTES hdr, m)] = 0
}.

Definition echo_state (room : bool) (s : stack) : stack := if room then s else asked s.

(** The reply to a request. *)
Definition echo_reply (room needs : bool) (hdr m : list Z) (src dest : Z) : packet :=
  mk_packet (echo_header (if room then rx_addr else tx_addr) hdr src dest ++ echo_message m) true (if room then needs else false).

Lemma reply_buffer_run d p s : (length (current_ip4_header d) <= 60)%nat ->
  IPH_HL_BYTES (current_ip4_header d) = Z.of_nat (length (current_ip4_header d)) ->
  Z.of_nat (length (current_ip4_header d) + length (bytes p)) <= 65535 ->
  link_room p = true \/ alloc (allocations (arp_state s)) = true ->
  icmp_reply_buffer alloc d p s =
  Done (Some (mk_packet (current_ip4_header d ++ bytes p) true (if link_room p then needs_copy p else false)))
    (echo_state (link_room p) s).
Proof.
  intros Hh Hl Ht Hr. unfold icmp_reply_buffer, echo_state. destruct (link_room p) eqn:Er; [reflexivity |].
  destruct Hr as [Hr | Hr]; [discriminate |]. unfold tot_len. rewrite Hl, u16_small by (unfold is_u16; lia).
  rewrite (proj2 (Z.ltb_ge _ _)) by lia. unfold bind. rewrite pbuf_alloc_run, Hr. reflexivity.
Qed.

Lemma echo_patches a hdr m src dest : (20 <= length hdr)%nat ->
  let h := length hdr in
  let b := patch 12 (bytes32 dest) (hdr ++ m) in
  let b := patch 16 (bytes32 src) b in
  let b := patch h [ICMP_ER] b in
  let b := patch (h + 2) (bytes16 (adjust_chksum (read16 (drop (h + 2) b)))) b in
  let b := patch 8 [ICMP_TTL] b in
  let b := patch 10 (bytes16 0) b in
  (4 <= length m)%nat ->
  patch 10 (bytes16 (inet_chksum (a, take h b))) b = echo_header a hdr src dest ++ echo_message m.
Proof.
  intros Hh h b1 b2 b3 b4 b5 b6 Hm.
  set (h2 := patch 16 (bytes32 src) (patch 12 (bytes32 dest) hdr)).
  assert (L2 : length h2 = h) by (unfold h2, h; patch_length).
  assert (E2 : b2 = h2 ++ m).
  { unfold b2, b1, h2. rewrite !patch_app_l by patch_length. reflexivity. }
  assert (E3 : b3 = h2 ++ patch 0 [ICMP_ER] m).
  { unfold b3. rewrite E2, <- L2. rewrite <- (Nat.add_0_r (length h2)) at 1. apply patch_app_r. }
  assert (E4 : b4 = h2 ++ echo_message m).
  { unfold b4. rewrite E3, <- L2, drop_app_add, patch_app_r. unfold echo_message. f_equal. do 4 f_equal.
    destruct m as [| t [| c m]]; cbn in Hm; try lia. reflexivity. }
  assert (E6 : b6 = patch 10 (bytes16 0) (patch 8 [ICMP_TTL] h2) ++ echo_message m).
  { unfold b6, b5. rewrite E4, !patch_app_l by patch_length. reflexivity. }
  rewrite E6. rewrite take_app_length' by (rewrite <- L2; patch_length).
  unfold echo_header. fold h2. rewrite patch_app_l by (cbn [length bytes16]; patch_length). reflexivity.
Qed.

Lemma fits_run p dest netif : mtu (interface netif) = 0 \/ tot_len p <= mtu (interface netif) ->
  ip4_output_send p dest netif = netif_output netif p dest.
Proof.
  intros H. unfold Ip4.ip4_output_send, truth. destruct (Z.eqb_spec (mtu (interface netif)) 0) as [E | N]; [reflexivity |].
  rewrite (proj2 (Z.ltb_ge _ _)) by (destruct H; [contradiction | assumption]). reflexivity.
Qed.

(** An echo request is answered with the reply, to its sender. *)
Lemma icmp_echo_run d p inp s : let hdr := current_ip4_header d in let dest := current_iphdr_dest d in
  let src := current_iphdr_src d in
  echo_request rx_addr hdr (bytes p) -> is_u32 src -> ip4_addr_ismulticast dest = false ->
  ip4_addr_isbroadcast dest (interface (current_netif d)) = false ->
  link_room p = true \/ alloc (allocations (arp_state s)) = true ->
  mtu (interface inp) = 0 \/ Z.of_nat (length hdr + length (bytes p)) <= mtu (interface inp) ->
  icmp_input d p inp s =
  bind (netif_output inp (echo_reply (link_room p) (needs_copy p) hdr (bytes p) src dest) src) (fun _ => ret tt)
    (echo_state (link_room p) s).
Proof.
  intros hdr dest src [Hb Hl Hr Hmb Hm Ht Hty Hck] Hsrc Hmc Hbc Hroom Hmtu. unfold Ip4.icmp_input.
  fold hdr dest src. rewrite Hl. unfold IP_HLEN, tot_len. rewrite !(proj2 (Z.ltb_ge _ _)) by lia.
  rewrite Hty, Z.eqb_refl, Hmc, Hbc. rewrite <- Hl, Hck. cbn [negb Z.eqb].
  rewrite (bind_done _ _ _ _ _ (reply_buffer_run d p s (proj2 Hr) Hl Ht Hroom)).
  cbv beta iota zeta. cbn [bytes needs_copy]. fold hdr. rewrite Hl, Nat2Z.id.
  rewrite echo_patches by lia.
  unfold ip4_output_if, ip4_output_if_src. unfold tot_len, IP_HLEN. cbn [bytes].
  set (a := if link_room p then rx_addr else tx_addr).
  assert (Lr : length (echo_header a hdr src dest ++ echo_message (bytes p)) = (length hdr + length (bytes p))%nat).
  { rewrite length_app, length_echo_header by lia. f_equal. unfold echo_message. patch_length. }
  rewrite (proj2 (Z.ltb_ge _ _)) by (rewrite Lr; lia).
  rewrite echo_header_dest by (lia || assumption).
  rewrite fits_run by (unfold tot_len; cbn [bytes]; rewrite Lr; exact Hmtu). reflexivity.
Qed.

(** * Reception *)

(** A packet with its header, as long as the header says. *)
Record ip_packet (hdr m : list Z) (src dest proto : Z) : Prop := {
  ip_v : IPH_V hdr = 4;
  ip_hlen : IPH_HL_BYTES hdr = Z.of_nat (length hdr);
  ip_range : (20 <= length hdr <= 60)%nat;
  ip_len : lwip_htons (IPH_LEN hdr) = Z.of_nat (length hdr + length m);
  ip_chksum : inet_chksum (rx_addr, hdr) = 0;
  ip_whole : IPH_OFFSET hdr .& PP_HTONS (IP_OFFMASK .| IP_MF) = 0;
  ip_src : IPH_SRC hdr = src;
  ip_dest : IPH_DEST hdr = dest;
  ip_proto : IPH_PROTO hdr = proto
}.

Lemma read16_app off (l x : list Z) : (off + 2 <= length l)%nat -> read16 (drop off (l ++ x)) = read16 (drop off l).
Proof.
  intros H. rewrite drop_app_le by lia. assert (length (drop off l) >= 2)%nat by (rewrite length_drop; lia).
  destruct (drop off l) as [| ? [| ? ?]]; cbn in *; first [lia | reflexivity].
Qed.

Lemma read32_app off (l x : list Z) : (off + 4 <= length l)%nat -> read32 (drop off (l ++ x)) = read32 (drop off l).
Proof.
  intros H. rewrite drop_app_le by lia. assert (length (drop off l) >= 4)%nat by (rewrite length_drop; lia).
  destruct (drop off l) as [| ? [| ? [| ? [| ? ?]]]]; cbn in *; first [lia | reflexivity].
Qed.

Lemma lookup_total_app_lt (l x : list Z) k : (k < length l)%nat -> (l ++ x) !!! k = l !!! k.
Proof. intros H. rewrite !list_lookup_total_alt. now rewrite lookup_app_l. Qed.

Lemma header_fields hdr x : (20 <= length hdr)%nat ->
  IPH_V (hdr ++ x) = IPH_V hdr /\ IPH_HL_BYTES (hdr ++ x) = IPH_HL_BYTES hdr /\ IPH_LEN (hdr ++ x) = IPH_LEN hdr /\
  IPH_OFFSET (hdr ++ x) = IPH_OFFSET hdr /\ IPH_PROTO (hdr ++ x) = IPH_PROTO hdr /\ IPH_SRC (hdr ++ x) = IPH_SRC hdr /\
  IPH_DEST (hdr ++ x) = IPH_DEST hdr.
Proof.
  intros H. unfold IPH_V, IPH_HL_BYTES, IPH_LEN, IPH_OFFSET, IPH_PROTO, IPH_SRC, IPH_DEST.
  rewrite !lookup_total_app_lt, !read16_app, !read32_app by lia. repeat split.
Qed.

(** An acceptable packet goes to the upper layers, without what follows it in the frame. *)
Lemma ip4_input_run hdr m pad src dest proto netif room needs inp s : ip_packet hdr m src dest proto ->
  ip4_addr_isbroadcast src (interface inp) = false -> ip4_addr_ismulticast src = false ->
  ip4_input_netif interface netif_foreach dest inp = Some netif ->
  ip4_input (mk_packet (hdr ++ m ++ pad) room needs) inp s =
  ip4_deliver (mk_packet (hdr ++ m) room needs) (Z.of_nat (length hdr)) src dest netif inp s.
Proof.
  intros [Hv Hl Hr Hlen Hck Hoff Hsrc Hdest Hproto] Hb Hm Hn. unfold Ip4.ip4_input.
  destruct (header_fields hdr (m ++ pad)) as (E1 & E2 & E3 & _); [lia |]. cbn [bytes link_room needs_copy].
  rewrite E1, E2, E3, Hv, Hl, Hlen. unfold tot_len. cbn [bytes].
  rewrite (proj2 (Nat.ltb_ge _ _)) by (rewrite length_app; lia). cbn [negb Z.eqb Pos.eqb].
  assert (Et : (if Z.of_nat (length hdr + length m) <? Z.of_nat (length (hdr ++ m ++ pad))
    then take (Z.to_nat (Z.of_nat (length hdr + length m))) (hdr ++ m ++ pad) else hdr ++ m ++ pad) = hdr ++ m).
  { rewrite !length_app. destruct (Z.ltb_spec (Z.of_nat (length hdr + length m)) (Z.of_nat (length hdr + (length m + length pad)))).
    - rewrite Nat2Z.id, app_assoc. apply take_app_length'. now rewrite length_app.
    - destruct pad; [now rewrite app_nil_r | cbn in *; lia]. }
  rewrite Et. rewrite !(proj2 (Z.ltb_ge _ _)) by (rewrite ?length_app; unfold IP_HLEN; lia). cbn [orb].
  rewrite Nat2Z.id, take_app_length, Hck. cbn [negb Z.eqb].
  destruct (header_fields hdr m) as (_ & _ & _ & E4 & _ & E6 & E7); [lia |].
  rewrite E6, E7, E4, Hsrc, Hdest, Hb, Hm, Hn, Hoff. reflexivity.
Qed.

Lemma ip4_deliver_icmp hdr m src dest netif room needs inp s : (20 <= length hdr)%nat -> IPH_PROTO hdr = IP_PROTO_ICMP ->
  ip4_deliver (mk_packet (hdr ++ m) room needs) (Z.of_nat (length hdr)) src dest netif inp s =
  bind (icmp_input (mk_ip_data netif inp hdr src dest) (mk_packet m room needs) inp) (fun _ => ret ERR_OK) s.
Proof.
  intros Hl Hp. unfold Ip4.ip4_deliver. destruct (header_fields hdr m) as (_ & _ & _ & _ & E & _); [exact Hl |].
  cbn [bytes link_room needs_copy]. rewrite E, Hp, Nat2Z.id, take_app_length, drop_app_length. reflexivity.
Qed.

Lemma netif_input_ip eth x room needs inp s : length eth = 14%nat -> read16 (drop 12 eth) = PP_HTONS ETHTYPE_IP ->
  x <> [] -> truth (flags (interface inp) .& NETIF_FLAG_ETHARP) = true ->
  truth (flags (interface inp) .& (NETIF_FLAG_ETHARP .| NETIF_FLAG_ETHERNET)) = true ->
  netif_input (mk_packet (eth ++ x) room needs) inp s =
  bind (ip4_input (mk_packet x room needs) inp) (fun _ => ret ERR_OK) s.
Proof.
  intros Hl Ht Hx Hf Hf'. unfold Ip4.netif_input, Ip4.ethernet_input. rewrite Hf'. cbn [bytes link_room needs_copy].
  rewrite (proj2 (Nat.leb_gt _ _)) by (rewrite length_app; unfold SIZEOF_ETH_HDR; destruct x; [easy | cbn; lia]).
  rewrite read16_app by lia. rewrite Ht, Z.eqb_refl, Hf. cbn [negb]. rewrite drop_app_length' by (symmetry; exact Hl). reflexivity.
Qed.

(** * Echo *)

(** An interface that can receive and answer IP packets over Ethernet. *)
Record ip_interface (n : netif) : Prop := {
  if_up : netif_is_up n = true;
  if_etharp : truth (flags n .& NETIF_FLAG_ETHARP) = true;
  if_addr : ip_addr n <> 0;
  if_unicast : ip4_addr_isbroadcast (ip_addr n) n = false /\ ip4_addr_ismulticast (ip_addr n) = false;
  if_output : output n = Netif.etharp_output
}.

Lemma etharp_flag n : ip_interface n -> truth (flags n .& (NETIF_FLAG_ETHARP .| NETIF_FLAG_ETHERNET)) = true.
Proof.
  intros H. pose proof (if_etharp n H) as E. unfold truth in *. rewrite Z.land_lor_distr_r.
  destruct (Z.eqb_spec (flags n .& NETIF_FLAG_ETHARP) 0) as [F | F]; [discriminate |].
  destruct (Z.eqb_spec (flags n .& NETIF_FLAG_ETHARP .| flags n .& NETIF_FLAG_ETHERNET) 0) as [G | G]; [| reflexivity].
  apply Z.lor_eq_0_iff in G as [G _]. contradiction.
Qed.

Lemma input_netif_own n inp : interface inp = n -> ip_interface n -> ip4_input_netif interface netif_foreach (ip_addr n) inp = Some inp.
Proof.
  intros <- H. destruct (if_unicast _ H) as [_ Hm]. unfold ip4_input_netif, ip4_input_accept. rewrite Hm, (if_up _ H).
  unfold ip4_addr_isany_val, IPADDR_ANY. rewrite (proj2 (Z.eqb_neq _ _) (if_addr _ H)), Z.eqb_refl. reflexivity.
Qed.

(** A frame that holds an echo request to the interface's address from a host that may be answered. *)
Record ping_frame (inp : Z) (eth hdr m : list Z) (src : Z) : Prop := {
  pf_eth : length eth = 14%nat;
  pf_type : read16 (drop 12 eth) = PP_HTONS ETHTYPE_IP;
  pf_packet : ip_packet hdr m src (ip_addr (interface inp)) IP_PROTO_ICMP;
  pf_echo : echo_request rx_addr hdr m;
  pf_src : is_u32 src;
  pf_unicast : ip4_addr_isbroadcast src (interface inp) = false /\ ip4_addr_ismulticast src = false;
  pf_mtu : mtu (interface inp) = 0 \/ Z.of_nat (length hdr + length m) <= mtu (interface inp)
}.

Lemma ping_run eth hdr m pad src room needs inp s : ip_interface (interface inp) -> ping_frame inp eth hdr m src ->
  room = true \/ alloc (allocations (arp_state s)) = true ->
  netif_input (mk_packet (eth ++ hdr ++ m ++ pad) room needs) inp s =
  bind (in_arp (etharp_output interface alloc linkoutput_result inp (echo_reply room needs hdr m src (ip_addr (interface inp))) src))
    (fun _ => ret ERR_OK) (echo_state room s).
Proof.
  intros Hi [H1 H2 H3 H4 H5 [H6 H7] H8] Hr. destruct (if_unicast _ Hi) as [Hb Hm].
  rewrite netif_input_ip; [| exact H1 | exact H2 | | apply Hi | now apply etharp_flag].
  2: { destruct hdr; [| discriminate]. pose proof (er_hlen_range _ _ _ H4) as R. cbn in R. lia. }
  unfold bind at 1. erewrite ip4_input_run by (try exact H3; try assumption; now apply input_netif_own).
  rewrite ip4_deliver_icmp by (try apply (ip_proto _ _ _ _ _ H3); apply (er_hlen_range _ _ _ H4)).
  unfold bind at 1. rewrite icmp_echo_run by assumption. cbn [current_iphdr_dest current_iphdr_src current_ip4_header link_room needs_copy bytes].
  unfold bind, ret. unfold Ip4.netif_output. rewrite (if_output _ Hi). destruct (in_arp _ _); reflexivity.
Qed.

(** The reply to an echo request: the request's header with the addresses exchanged and a new TTL and
    checksum, and its message with type 0 and a new checksum, both checksums valid at any address. *)
Record reply_to (hdr m : list Z) (src dest : Z) (hdr' m' : list Z) : Prop := {
  rt_length : length hdr' = length hdr /\ length m' = length m;
  rt_header : forall k, (k < 10 \/ 12 <= k)%nat -> hdr' !! k =
    if decide (k = 8)%nat then Some ICMP_TTL
    else if decide (12 <= k < 16)%nat then bytes32 dest !! (k - 12)%nat
    else if decide (16 <= k < 20)%nat then bytes32 src !! (k - 16)%nat
    else hdr !! k;
  rt_header_chksum : forall a, inet_chksum (a, hdr') = 0;
  rt_type : m' !! 0%nat = Some ICMP_ER;
  rt_message : forall k, (k = 1 \/ 4 <= k)%nat -> m' !! k = m !! k;
  rt_chksum : forall a, inet_chksum_pbuf [(a, m')] = 0
}.

Lemma echo_reply_to a hdr m src dest : echo_request rx_addr hdr m ->
  reply_to hdr m src dest (echo_header a hdr src dest) (echo_message m).
Proof.
  intros [Hb Hl Hr Hmb Hm Ht Hty Hck].
  assert (Lm : length (echo_message m) = length m) by (unfold echo_message; patch_length).
  assert (Sm : short m) by (split; [exact Hmb | lia]). split.
  - split; [apply length_echo_header; lia | exact Lm].
  - intros k Hk. apply echo_header_lookup; [lia | exact Hk].
  - intros a'. now apply echo_header_valid.
  - unfold echo_message. rewrite lookup_patch by patch_length. rewrite decide_False by lia. rewrite lookup_patch by patch_length. reflexivity.
  - intros k Hk. unfold echo_message. rewrite lookup_patch by patch_length.
    rewrite decide_False by (cbn; lia). rewrite lookup_patch by patch_length. rewrite decide_False by (cbn; lia). reflexivity.
  - intros a'. eapply echo_message_valid; eauto. lia.
Qed.

(** C11: an echo request to the interface's address, in a frame of any length that holds it, is answered if its pbuf
    has room for the link header or a new one can be allocated: lwIP calls [etharp_output], for the sender's
    address, with a packet with the exchanged addresses, type 0, the same identifier, number and data, and valid
    checksums, whatever the options of the header and the length of the packet; and [netif_input] returns [ERR_OK]
    if [etharp_output] returns. *)
Theorem lwip_answers_ping eth hdr m pad src room needs inp s : ip_interface (interface inp) ->
  ping_frame inp eth hdr m src -> room = true \/ alloc (allocations (arp_state s)) = true ->
  exists hdr' m', reply_to hdr m src (ip_addr (interface inp)) hdr' m' /\
    netif_input (mk_packet (eth ++ hdr ++ m ++ pad) room needs) inp s =
    bind (in_arp (etharp_output interface alloc linkoutput_result inp
            (mk_packet (hdr' ++ m') true (if room then needs else false)) src))
      (fun _ => ret ERR_OK) (echo_state room s).
Proof.
  intros Hi Hf Hr. do 2 eexists. split; [exact (echo_reply_to (if room then rx_addr else tx_addr) hdr m src (ip_addr (interface inp)) (pf_echo _ _ _ _ _ Hf)) |].
  rewrite (ping_run eth hdr m pad src) by assumption. reflexivity.
Qed.

(** * What is dropped *)

(** The bytes after the Ethernet header that are no packet for the interface: another version, a header of the wrong
    length, a packet longer than the frame, a bad checksum, a source that is no host, or another
    destination. *)
Inductive bad_packet (inp : Z) (x : list Z) : Prop :=
| bad_version : IPH_V x <> 4 -> bad_packet inp x
| bad_header : IPH_HL_BYTES x < 20 \/ lwip_htons (IPH_LEN x) < IPH_HL_BYTES x -> bad_packet inp x
| bad_length : Z.of_nat (length x) < lwip_htons (IPH_LEN x) -> bad_packet inp x
| bad_chksum : 20 <= IPH_HL_BYTES x <= lwip_htons (IPH_LEN x) -> lwip_htons (IPH_LEN x) <= Z.of_nat (length x) ->
    inet_chksum (rx_addr, take (Z.to_nat (IPH_HL_BYTES x)) x) <> 0 -> bad_packet inp x
| bad_source : 20 <= IPH_HL_BYTES x <= lwip_htons (IPH_LEN x) -> lwip_htons (IPH_LEN x) <= Z.of_nat (length x) ->
    ip4_addr_isbroadcast (IPH_SRC x) (interface inp) = true \/ ip4_addr_ismulticast (IPH_SRC x) = true -> bad_packet inp x
| bad_destination : 20 <= IPH_HL_BYTES x <= lwip_htons (IPH_LEN x) -> lwip_htons (IPH_LEN x) <= Z.of_nat (length x) ->
    ip4_input_netif interface netif_foreach (IPH_DEST x) inp = None -> bad_packet inp x.

(** The packet without what follows it. *)
Definition trimmed (x : list Z) : list Z :=
  if lwip_htons (IPH_LEN x) <? Z.of_nat (length x) then take (Z.to_nat (lwip_htons (IPH_LEN x))) x else x.

Lemma htons_range x : is_u16 (lwip_htons x).
Proof. apply u16_range. Qed.

Lemma length_trimmed x : Z.of_nat (length (trimmed x)) = Z.min (lwip_htons (IPH_LEN x)) (Z.of_nat (length x)).
Proof.
  pose proof (htons_range (IPH_LEN x)) as R. unfold is_u16 in R. unfold trimmed.
  destruct (Z.ltb_spec (lwip_htons (IPH_LEN x)) (Z.of_nat (length x))); rewrite ?length_take; lia.
Qed.

Lemma trimmed_split x : exists pad, x = trimmed x ++ pad.
Proof.
  unfold trimmed. destruct (_ <? _); [| exists []; now rewrite app_nil_r]. eexists. symmetry. apply take_drop.
Qed.

Lemma trimmed_fields x : 20 <= Z.min (lwip_htons (IPH_LEN x)) (Z.of_nat (length x)) ->
  IPH_SRC (trimmed x) = IPH_SRC x /\ IPH_DEST (trimmed x) = IPH_DEST x /\
  forall k, (k <= length (trimmed x))%nat -> take k (trimmed x) = take k x.
Proof.
  intros H. pose proof (length_trimmed x) as L. destruct (trimmed_split x) as [pad E].
  destruct (header_fields (trimmed x) pad) as (_ & _ & _ & _ & _ & E1 & E2); [lia |]. rewrite <- E in E1, E2.
  split; [congruence | split; [congruence |]]. intros k Hk. rewrite E at 2. symmetry. now apply take_app_le.
Qed.

Lemma ip4_input_bad x room needs inp s : (4 <= length x)%nat -> bad_packet inp x ->
  ip4_input (mk_packet x room needs) inp s = Done ERR_OK s.
Proof.
  intros Hl Hb. unfold Ip4.ip4_input. cbn [bytes link_room needs_copy]. rewrite (proj2 (Nat.ltb_ge _ _)) by lia.
  destruct (Z.eqb_spec (IPH_V x) 4) as [Ev | Nv]; cbn [negb]; [| reflexivity].
  unfold tot_len. cbn [bytes]. fold (trimmed x). rewrite length_trimmed. unfold IP_HLEN.
  destruct (Z.ltb_spec (Z.min (lwip_htons (IPH_LEN x)) (Z.of_nat (length x))) (IPH_HL_BYTES x)) as [| L1]; [reflexivity |].
  destruct (Z.ltb_spec (Z.min (lwip_htons (IPH_LEN x)) (Z.of_nat (length x))) (lwip_htons (IPH_LEN x))) as [| L2]; [reflexivity |].
  destruct (Z.ltb_spec (IPH_HL_BYTES x) 20) as [| L3]; [reflexivity |]. cbn [orb].
  destruct (trimmed_fields x) as (E1 & E2 & E3); [lia |]. pose proof (length_trimmed x) as Lt.
  rewrite E1, E2, E3 by lia.
  destruct Hb as [H | H | H | _ _ H | _ _ H | _ _ H]; try lia; try congruence.
  - apply Z.eqb_neq in H. rewrite H. reflexivity.
  - destruct (negb _); [reflexivity |]. destruct H as [-> | ->]; rewrite ?orb_true_r; reflexivity.
  - destruct (negb _); [reflexivity |]. rewrite H. destruct (_ || _); reflexivity.
Qed.

(** The ARP packets without effect: those whose header is not one for IPv4 over Ethernet, and those that are not for
    the interface and whose sender is not in the address table. *)
Inductive ignored_arp (inp : Z) (t : list etharp_entry) (x : list Z) : Prop :=
| arp_header : read16 x <> PP_HTONS LWIP_IANA_HWTYPE_ETHERNET \/ x !!! 4%nat <> ETH_HWADDR_LEN \/ x !!! 5%nat <> 4 \/
    read16 (drop 2 x) <> PP_HTONS ETHTYPE_IP -> ignored_arp inp t x
| arp_stranger : is_ours interface inp (read32 (drop 24 x)) = false -> absent t (read32 (drop 14 x)) inp ->
    ignored_arp inp t x.

Lemma etharp_input_ignored inp x s : usable interface inp -> arp_inv interface s -> (28 <= length x)%nat ->
  ignored_arp inp (arp_table s) x -> etharp_input interface alloc linkoutput_result x inp s = Done tt s.
Proof.
  intros [Hn0 Hn] I Hl Hx. unfold etharp_input. rewrite (proj2 (Z.eqb_neq _ _) Hn0), (proj2 (Nat.ltb_ge _ _) Hl). cbv zeta.
  destruct (_ || _) eqn:Eh; [reflexivity |]. apply orb_false_iff in Eh as [Eh E4]. apply orb_false_iff in Eh as [Eh E3].
  apply orb_false_iff in Eh as [E1 E2]. apply negb_false_iff, Z.eqb_eq in E1, E2, E3, E4.
  destruct Hx as [H | Ho Ha]; [tauto |]. unfold is_ours in Ho. rewrite Ho. cbn [andb].
  assert (U : exists r, etharp_update_arp_entry interface linkoutput_result inp (read32 (drop 14 x)) (take 6 (drop 8 x))
                          ETHARP_FLAG_FIND_ONLY s = Done r s).
  { destruct (unicast interface inp (read32 (drop 14 x))) eqn:Eu.
    - destruct (update_entry_absent interface linkoutput_result ETHARP_FLAG_FIND_ONLY _ inp (take 6 (drop 8 x)) s I
                  (conj Hn0 Hn) Eu Ha) as [[[C _] _] | [_ F]]; [discriminate | eauto].
    - eexists. now apply update_entry_not_unicast. }
  destruct U as [r U]. rewrite (bind_done _ _ _ _ _ U). cbn [andb]. now destruct (_ =? PP_HTONS ARP_REQUEST).
Qed.

(** C26: four kinds of frames are dropped: [netif_input] returns [ERR_OK] and neither sends nor remembers anything. These
    are frames without payload; frames that are neither IPv4 nor ARP; IPv4 frames with a payload of at least four
    bytes that is not an acceptable packet ([bad_packet]: its version, length, header length or checksum is wrong, its
    source is a broadcast or multicast address, or it is not for this interface); and ARP frames with a payload of at
    least 28 bytes and another header than that of IPv4 over Ethernet, or which are for another host and from one that
    is not in the address table. (Other ARP frames change the table; a shorter payload of either kind is read beyond
    its end.) *)
Theorem netif_input_drops eth x room needs inp s : ip_interface (interface inp) -> length eth = 14%nat ->
  x = [] \/
  (read16 (drop 12 eth) <> PP_HTONS ETHTYPE_IP /\ read16 (drop 12 eth) <> PP_HTONS ETHTYPE_ARP) \/
  (read16 (drop 12 eth) = PP_HTONS ETHTYPE_IP /\ (4 <= length x)%nat /\ bad_packet inp x) \/
  (read16 (drop 12 eth) = PP_HTONS ETHTYPE_ARP /\ (28 <= length x)%nat /\ usable interface inp /\
     arp_inv interface (arp_state s) /\ ignored_arp inp (arp_table (arp_state s)) x) ->
  netif_input (mk_packet (eth ++ x) room needs) inp s = Done ERR_OK s.
Proof.
  intros Hi Hl [-> | [[H1 H2] | [(H1 & H2 & H3) | (H1 & H2 & H3 & H4 & H5)]]].
  - unfold Ip4.netif_input, Ip4.ethernet_input. rewrite etharp_flag by exact Hi. cbn [bytes].
    rewrite (proj2 (Nat.leb_le _ _)) by (rewrite app_nil_r, Hl; unfold SIZEOF_ETH_HDR; lia). reflexivity.
  - unfold Ip4.netif_input, Ip4.ethernet_input. rewrite etharp_flag by exact Hi. cbn [bytes].
    destruct (_ <=? _)%nat; [reflexivity |]. rewrite read16_app by lia. apply Z.eqb_neq in H1, H2. now rewrite H1, H2.
  - rewrite netif_input_ip; [| exact Hl | exact H1 | | apply Hi | now apply etharp_flag].
    + now rewrite (bind_done _ _ _ _ _ (ip4_input_bad x room needs inp s H2 H3)).
    + intros ->. cbn in H2. lia.
  - unfold Ip4.netif_input, Ip4.ethernet_input. rewrite etharp_flag by exact Hi. cbn [bytes].
    destruct (_ <=? _)%nat; [reflexivity |]. rewrite read16_app by lia. rewrite H1.
    change (PP_HTONS ETHTYPE_ARP =? PP_HTONS ETHTYPE_IP) with false. rewrite Z.eqb_refl. cbv beta iota zeta.
    destruct (negb _); [reflexivity |]. change SIZEOF_ETH_HDR with 14%nat. rewrite <- Hl, drop_app_length.
    unfold bind, in_arp. rewrite (etharp_input_ignored inp x _ H3 H4 H2 H5). now destruct s.
Qed.

(** * Every frame *)

Lemma in_arp_returns {A} (m : prog arp A) s Q : returns m (arp_state s) Q ->
  returns (in_arp m) s (fun r s' => Q r (arp_state s')).
Proof. unfold returns, in_arp. destruct (m (arp_state s)); auto. Qed.

(** An interface that sends with [etharp_output]. *)
Definition sends (netif : Z) : Prop := usable interface netif /\ output (interface netif) = Netif.etharp_output.

Definition stack_inv (s : stack) : Prop := arp_inv interface (arp_state s).

(** What is asked of the other protocols: they return and leave the address table consistent; a reassembled packet
    has a header as long as its last fragment's. *)
Definition upper_ok (input : ip_data -> packet -> Z -> prog stack unit) : Prop :=
  forall d p inp s, stack_inv s -> sends inp -> returns (input d p inp) s (fun _ => stack_inv).
Definition reass_ok : Prop := forall p s, stack_inv s -> returns (ip4_reass p) s (fun r s' => stack_inv s' /\
  forall p', r = Some p' -> IPH_HL_BYTES (bytes p') = IPH_HL_BYTES (bytes p)).
Definition frag_ok : Prop := forall p netif dest s, stack_inv s -> sends netif ->
  returns (ip4_frag p netif dest) s (fun _ => stack_inv).
Definition route_ok : Prop := forall dest, route dest = 0 \/ sends (route dest).

Lemma ret_then {A B} (m : prog stack A) (b : B) s (Q : stack -> Prop) : returns m s (fun _ => Q) ->
  returns (m ;; ret b) s (fun r s' => r = b /\ Q s').
Proof. intros H. eapply returns_bind; [exact H |]. intros a s' K. now split. Qed.

Lemma output_send_returns p dest netif s : frag_ok -> stack_inv s -> sends netif ->
  returns (ip4_output_send p dest netif) s (fun _ => stack_inv).
Proof.
  intros Hfr Hs Hn. unfold Ip4.ip4_output_send. destruct (_ && _); [now apply Hfr |].
  unfold Ip4.netif_output. destruct Hn as [Hu ->]. 
  apply (in_arp_returns _ s (fun _ => arp_inv interface)). now apply etharp_output_keeps.
Qed.

Lemma output_if_returns p src dest ttl tos proto netif s : frag_ok -> stack_inv s -> sends netif ->
  returns (ip4_output_if interface alloc linkoutput_result ip4_frag p src dest ttl tos proto netif) s (fun _ => stack_inv).
Proof.
  intros Hfr Hs Hn. unfold ip4_output_if, ip4_output_if_src. destruct dest as [dest |].
  - destruct (negb (link_room p)); [exact Hs |].
    eapply returns_bind with (R := fun _ => stack_inv); [exact Hs |]. intros id s1 H1. now apply output_send_returns.
  - destruct (_ <? _); [exact Hs | now apply output_send_returns].
Qed.

Lemma asked_inv s : stack_inv s -> stack_inv (asked s).
Proof. intros H. apply (same_inv interface (arp_state s)); [exact H | split; reflexivity]. Qed.

Lemma icmp_send_response_returns p type code s : frag_ok -> route_ok -> stack_inv s ->
  returns (icmp_send_response p type code) s (fun _ => stack_inv).
Proof.
  intros Hfr Hro Hs. unfold Ip4.icmp_send_response.
  eapply returns_bind with (R := fun _ => stack_inv); [now apply asked_inv |]. intros ok s1 H1.
  destruct ok; cbn [negb]; [| exact H1]. cbv zeta. destruct (Z.eqb_spec (route (IPH_SRC (bytes p))) 0); cbn [negb]; [exact H1 |].
  eapply returns_mono; [apply ret_then, output_if_returns; try assumption; destruct (Hro (IPH_SRC (bytes p))); tauto |].
  now intros r s2 [].
Qed.

Lemma reply_buffer_returns d p s : stack_inv s -> returns (icmp_reply_buffer alloc d p) s (fun _ => stack_inv).
Proof.
  intros Hs. unfold icmp_reply_buffer. destruct (link_room p); [exact Hs |]. cbv zeta. destruct (_ <? _); [exact Hs |].
  now apply asked_inv.
Qed.

Lemma icmp_input_returns d p inp s : frag_ok -> stack_inv s -> sends inp ->
  returns (icmp_input d p inp) s (fun _ => stack_inv).
Proof.
  intros Hfr Hs Hn. unfold Ip4.icmp_input. cbv zeta.
  repeat (match goal with |- returns (if ?b then _ else _) _ _ => destruct b end; [exact Hs || idtac | exact Hs || idtac]).
  eapply returns_bind; [now apply reply_buffer_returns |]. intros [r |] s1 H1; [| exact H1].
  eapply returns_mono; [apply ret_then; now apply output_if_returns |]. now intros r' s2 [].
Qed.

Lemma ip4_deliver_returns p hl src dest netif inp s : upper_ok udp_input -> upper_ok tcp_input -> frag_ok -> route_ok ->
  stack_inv s -> sends inp -> returns (ip4_deliver p hl src dest netif inp) s (fun _ => stack_inv).
Proof.
  intros Hu Ht Hfr Hro Hs Hn. unfold Ip4.ip4_deliver. cbv zeta.
  eapply returns_bind with (R := fun _ => stack_inv); [| auto].
  destruct (_ =? _); [now apply Hu |]. destruct (_ =? _); [now apply Ht |].
  destruct (_ =? _); [now apply icmp_input_returns |]. destruct (_ && _); [now apply icmp_send_response_returns | exact Hs].
Qed.

Lemma trimmed_hlen x : 20 <= Z.min (lwip_htons (IPH_LEN x)) (Z.of_nat (length x)) -> IPH_HL_BYTES (trimmed x) = IPH_HL_BYTES x.
Proof.
  intros H. pose proof (length_trimmed x) as L. destruct (trimmed_split x) as [pad E].
  destruct (header_fields (trimmed x) pad) as (_ & E1 & _); [lia |]. congruence.
Qed.

Lemma ip4_input_returns p inp s : upper_ok udp_input -> upper_ok tcp_input -> reass_ok -> frag_ok -> route_ok ->
  stack_inv s -> sends inp -> (4 <= length (bytes p))%nat -> returns (ip4_input p inp) s (fun _ => stack_inv).
Proof.
  intros Hu Ht Hre Hfr Hro Hs Hn Hl. destruct p as [x room needs]. cbn [bytes] in Hl.
  unfold Ip4.ip4_input. cbn [bytes link_room needs_copy]. rewrite (proj2 (Nat.ltb_ge _ _)) by lia.
  destruct (negb _); [exact Hs |]. cbv zeta. unfold tot_len. cbn [bytes]. fold (trimmed x). rewrite length_trimmed. unfold IP_HLEN.
  destruct (Z.ltb_spec (Z.min (lwip_htons (IPH_LEN x)) (Z.of_nat (length x))) (IPH_HL_BYTES x)) as [| L1]; [exact Hs |].
  destruct (_ <? _); [exact Hs |]. destruct (Z.ltb_spec (IPH_HL_BYTES x) 20) as [| L3]; [exact Hs |]. cbn [orb].
  destruct (negb _); [exact Hs |].
  destruct (_ || _); [exact Hs |]. destruct (ip4_input_netif _ _ _ _) as [netif |]; [| exact Hs].
  destruct (truth _); [| now apply ip4_deliver_returns].
  eapply returns_bind; [now apply Hre |]. intros [q |] s1 [H1 Hq]; [| exact H1].
  rewrite (Hq q eq_refl). cbn [bytes]. rewrite trimmed_hlen, Z.eqb_refl by lia. now apply ip4_deliver_returns.
Qed.

Lemma netif_input_returns_spec p inp s : upper_ok udp_input -> upper_ok tcp_input -> reass_ok -> frag_ok -> route_ok ->
  stack_inv s -> sends inp -> ip_interface (interface inp) -> (42 <= length (bytes p))%nat ->
  returns (netif_input p inp) s (fun r s' => r = ERR_OK /\ stack_inv s').
Proof.
  intros Hu Ht Hre Hfr Hro Hs Hn Hi Hl. unfold Ip4.netif_input, Ip4.ethernet_input. rewrite etharp_flag by exact Hi.
  destruct (_ <=? _)%nat; [now split |]. cbv zeta.
  assert (Lr : (length (drop SIZEOF_ETH_HDR (bytes p)) >= 28)%nat) by (rewrite length_drop; unfold SIZEOF_ETH_HDR; lia).
  destruct (_ =? _).
  - destruct (negb _); [now split |]. apply ret_then, ip4_input_returns; try assumption. cbn [bytes]. lia.
  - destruct (_ =? _); [| now split]. destruct (negb _); [now split |]. apply ret_then.
    apply (in_arp_returns _ s (fun _ => arp_inv interface)). apply input_keeps; [exact Hs | apply Hn |]. cbn [bytes]. lia.
Qed.

(** whatever frame of at least 42 bytes arrives, [netif_input] returns [ERR_OK], which the IP task asserts,
    with no failed assertion inside lwIP and no access outside a packet, and the address table stays
    consistent. *)
Theorem netif_input_returns p inp s : upper_ok udp_input -> upper_ok tcp_input -> reass_ok -> frag_ok -> route_ok ->
  stack_inv s -> sends inp -> ip_interface (interface inp) -> (42 <= length (bytes p))%nat ->
  returns (netif_input p inp) s (fun r s' => r = ERR_OK /\ stack_inv s').
Proof. apply netif_input_returns_spec. Qed.

(** * Unknown protocols *)

Lemma htons_htons x : is_u16 x -> lwip_htons (lwip_htons x) = x.
Proof.
  unfold is_u16. intros H. rewrite (htons_swap x) by exact H. destruct (swap_spec x) as (E & R & _); [exact H |].
  rewrite htons_swap by exact R. destruct (swap_spec (SWAP_BYTES_IN_WORD x)) as (-> & _); [exact R |]. rewrite E.
  pose proof (Z.div_mod x 256 ltac:(lia)). pose proof (Z.mod_pos_bound x 256).
  assert (0 <= x / 256 < 256) by (split; [apply Z.div_pos; lia | apply Z.div_lt_upper_bound; lia]).
  rewrite <- (Z.mod_unique (x mod 256 * 256 + x / 256) 256 (x mod 256) (x / 256)) by lia.
  rewrite <- (Z.div_unique (x mod 256 * 256 + x / 256) 256 (x mod 256) (x / 256)) by lia. lia.
Qed.

(** The header [ip4_output_if_src] writes is that of a packet. *)
Lemma ip4_header_packet len id src dest ttl tos proto m : is_u16 id -> is_u32 src -> is_u32 dest -> is_u8 ttl -> is_u8 tos -> is_u8 proto ->
  len = lwip_htons (20 + Z.of_nat (length m)) -> 20 + Z.of_nat (length m) <= 65535 ->
  ip_packet (ip4_header len id src dest ttl tos proto) m src dest proto /\
  forall a, inet_chksum (a, ip4_header len id src dest ttl tos proto) = 0.
Proof.
  intros Hi Hs Hd Ht Hz Hp Hl Hm.
  assert (Rl : is_u16 len) by (subst len; apply htons_range).
  assert (C : forall a, inet_chksum (a, ip4_header len id src dest ttl tos proto) = 0).
  { intros a. rewrite (ip4_header_spec 0) by assumption.
    destruct (header_pieces_u8 len id src dest ttl tos proto Ht Hz Hp) as [F1 F2].
    apply stored_chksum_verifies; auto. cbn. lia. }
  split; [| exact C]. split; try reflexivity.
  - cbn. lia.
  - change (IPH_LEN _) with (read16 (bytes16 len ++ [])). rewrite read16_bytes16 by exact Rl.
    rewrite Hl, htons_htons by (unfold is_u16; lia). rewrite Nat2Z.inj_add. reflexivity.
  - apply C.
  - change (IPH_SRC _) with (read32 (bytes32 src ++ [])). now apply read32_bytes32.
  - change (IPH_DEST _) with (read32 (bytes32 dest ++ [])). now apply read32_bytes32.
Qed.

(** [ip4_output_if] hands the interface a packet whose header has the given addresses, TOS, TTL and protocol, the
    next identifier, the length of the packet, and the checksum that [inet_chksum] computes; the source is the
    interface's address if none is given. A packet that does not fit into the MTU goes to fragmentation, one
    without room for the header is refused. *)
Theorem ip4_output_if_sends p src dest ttl tos proto netif s : is_u16 (ip_id s) -> is_u32 src -> is_u32 dest ->
  is_u32 (ip_addr (interface netif)) -> is_u8 ttl -> is_u8 tos -> is_u8 proto -> tot_len p + 20 <= 65535 ->
  let source := if src =? IPADDR_ANY then ip_addr (interface netif) else src in
  let send := ip4_output_if interface alloc linkoutput_result ip4_frag p (Some src) (Some dest) ttl tos proto netif s in
  exists hdr, ip_packet hdr (bytes p) source dest proto /\ length hdr = 20%nat /\
    take 2 hdr = [0x45; tos] /\ read16 (drop 4 hdr) = lwip_htons (ip_id s) /\ hdr !!! 8%nat = ttl /\
    (forall a, read16 (drop 10 hdr) = inet_chksum (a, patch 10 (bytes16 0) hdr)) /\
    let p' := mk_packet (hdr ++ bytes p) true (needs_copy p) in
    let s' := mk_stack (arp_state s) (u16 (ip_id s + 1)) in
    send = if negb (link_room p) then Done ERR_BUF s
           else if truth (mtu (interface netif)) && (mtu (interface netif) <? tot_len p + 20) then ip4_frag p' netif dest s'
           else netif_output netif p' dest s'.
Proof.
  intros Hid Hs Hd Hi Ht Hto Hp Hl source send. unfold tot_len in Hl.
  assert (Hsrc : is_u32 source) by (unfold source; now destruct (_ =? _)).
  set (len := lwip_htons (20 + Z.of_nat (length (bytes p)))).
  destruct (ip4_header_packet len (lwip_htons (ip_id s)) source dest ttl tos proto (bytes p)) as [P _];
    try assumption; try reflexivity; try apply htons_range; [lia |].
  eexists. split; [exact P |]. split; [reflexivity |]. split; [reflexivity |]. split; [| split; [reflexivity | split]].
  - change (drop 4 _) with (bytes16 (lwip_htons (ip_id s)) ++
      drop 6 (ip4_header len (lwip_htons (ip_id s)) source dest ttl tos proto)).
    apply read16_bytes16, htons_range.
  - intros a. rewrite (ip4_header_spec a) by (assumption || apply htons_range). cbv zeta.
    destruct (header_pieces_u8 len (lwip_htons (ip_id s)) source dest ttl tos proto Ht Hto Hp) as [F1 F2].
    set (c := inet_chksum _). assert (Hc : is_u16 c).
    { unfold c. rewrite chksum_value by (apply with_checksum_short; try assumption; [unfold is_u16; lia | cbn; lia]). apply ones_u16. }
    unfold with_checksum. rewrite <- !bytes16_u16 by (assumption || (unfold is_u16; lia)).
    change (drop 10 _) with (bytes16 c ++ header_end source dest). rewrite read16_bytes16 by exact Hc.
    unfold c, with_checksum. rewrite <- bytes16_u16 by (unfold is_u16; lia). reflexivity.
  - unfold send, ip4_output_if, ip4_output_if_src. cbn [default from_option id].
    unfold ip4_addr_isany_val. replace (default IPADDR_ANY (if src =? IPADDR_ANY then _ else _)) with source
      by (unfold source; now destruct (_ =? _)).
    destruct (link_room p); cbn [negb]; [| reflexivity].
    unfold bind, next_ip_id. unfold Ip4.ip4_output_send, tot_len. cbn [bytes]. rewrite length_app.
    change (length (ip4_header _ _ _ _ _ _ _)) with 20%nat. unfold IP_HLEN.
    rewrite u16_small by (unfold is_u16; lia). rewrite Nat2Z.inj_add, !(Z.add_comm (Z.of_nat (length (bytes p)))).
    change (Z.of_nat 20) with 20. fold len. now destruct (truth _ && _).
Qed.

(** The message that reports a packet of an unknown protocol. *)
Definition unreachable_message (a : Z) (p : list Z) : list Z :=
  let copied := take 28 p in
  [ICMP_DUR; ICMP_DUR_PROTO] ++ bytes16 (inet_chksum (a, [ICMP_DUR; ICMP_DUR_PROTO] ++ bytes16 0 ++ bytes32 0 ++ copied)) ++
  bytes32 0 ++ copied.

Lemma unreachable_valid a a' p : Forall is_u8 p -> inet_chksum (a', unreachable_message a p) = 0.
Proof.
  intros Hp. assert (F : Forall is_u8 [ICMP_DUR; ICMP_DUR_PROTO]) 
    by (repeat (apply Forall_cons_2; [unfold is_u8, ICMP_DUR, ICMP_DUR_PROTO; lia |]); apply Forall_nil_2).
  assert (F2 : Forall is_u8 (bytes32 0 ++ take 28 p)) by (apply Forall_app; split; [apply bytes32_u8 | now apply Forall_take]).
  unfold unreachable_message. cbv zeta. rewrite bytes16_u16.
  - apply (stored_chksum_verifies a a' [ICMP_DUR; ICMP_DUR_PROTO] (bytes32 0 ++ take 28 p) F F2); [| reflexivity].
    rewrite length_app, length_take. change (length (bytes32 0)) with 4%nat. cbn [length]. lia.
  - rewrite chksum_value; [apply ones_u16 |]. split.
    + rewrite !Forall_app. auto using bytes16_u8, bytes32_u8, Forall_take.
    + rewrite !length_app, length_take. change (length (bytes32 0)) with 4%nat. change (length (bytes16 0)) with 2%nat.
      cbn [length]. lia.
Qed.

Lemma length_unreachable a p : (length (unreachable_message a p) <= 36)%nat.
Proof.
  unfold unreachable_message. cbv zeta. rewrite !length_app, length_take. cbn [length bytes16 bytes32]. lia.
Qed.

(** The response to [p], sent through the interface to its source. *)
Lemma unreachable_run p s : let src := IPH_SRC (bytes p) in let out := route src in
  out <> 0 -> alloc (allocations (arp_state s)) = true ->
  mtu (interface out) = 0 \/ 56 <= mtu (interface out) ->
  let m := unreachable_message tx_addr (bytes p) in
  let hdr := ip4_header (lwip_htons (u16 (Z.of_nat (length m) + 20))) (lwip_htons (ip_id s)) (ip_addr (interface out)) src
    ICMP_TTL 0 IP_PROTO_ICMP in
  icmp_dest_unreach interface alloc linkoutput_result route tx_addr ip4_frag p ICMP_DUR_PROTO s =
  bind (netif_output out (mk_packet (hdr ++ m) true false) src) (fun _ => ret tt)
    (mk_stack (allocated (arp_state s)) (u16 (ip_id s + 1))).
Proof.
  intros src out Ho Ha Hm m hdr. unfold icmp_dest_unreach, Ip4.icmp_send_response.
  rewrite (bind_done _ _ _ _ _ (pbuf_alloc_run s)), Ha. cbn [negb]. cbv zeta. fold src. fold out.
  rewrite (proj2 (Z.eqb_neq _ _) Ho). cbn [negb].
  assert (Et : take (Z.to_nat (Z.min (IP_HLEN + ICMP_DEST_UNREACH_DATASIZE) (tot_len p))) (bytes p) = take 28 (bytes p)).
  { unfold tot_len, IP_HLEN, ICMP_DEST_UNREACH_DATASIZE. destruct (Z.min_spec (20 + 8) (Z.of_nat (length (bytes p)))) as [[L ->] | [L ->]];
      [reflexivity |]. rewrite Nat2Z.id. rewrite !take_ge by lia. reflexivity. }
  rewrite Et. fold (unreachable_message tx_addr (bytes p)). fold m.
  unfold ip4_output_if, ip4_output_if_src. cbn [default from_option id link_room needs_copy bytes negb].
  change (ip4_addr_isany_val IPADDR_ANY) with true. cbv iota.
  unfold bind at 1 2, next_ip_id. cbn [arp_state ip_id asked]. unfold tot_len at 1. cbn [bytes]. fold hdr.
  rewrite fits_run; [reflexivity |].
  destruct Hm as [Hm | Hm]; [now left | right]. unfold tot_len. cbn [bytes]. rewrite length_app.
  pose proof (length_unreachable tx_addr (bytes p)) as Hlm. fold m in Hlm. change (length (ip4_header _ _ _ _ _ _ _)) with 20%nat.
  lia.
Qed.

(** a packet to the interface's address of a protocol the stack does not know is answered with a message that the
    protocol is unreachable, if there is a buffer and a route to the sender: an IP packet from the address of the
    outgoing interface to the sender, which carries the first 28 bytes of the packet that caused it, with valid
    checksums and the next identifier. Without a route nothing is sent. *)
Theorem unknown_protocol_reported eth hdr m pad src proto room needs inp s : ip_interface (interface inp) ->
  length eth = 14%nat -> read16 (drop 12 eth) = PP_HTONS ETHTYPE_IP -> Forall is_u8 hdr -> Forall is_u8 m ->
  ip_packet hdr m src (ip_addr (interface inp)) proto -> is_u32 src ->
  ip4_addr_isbroadcast src (interface inp) = false -> ip4_addr_ismulticast src = false ->
  proto <> IP_PROTO_UDP -> proto <> IP_PROTO_TCP -> proto <> IP_PROTO_ICMP -> alloc (allocations (arp_state s)) = true ->
  let out := route src in
  (out = 0 -> netif_input (mk_packet (eth ++ hdr ++ m ++ pad) room needs) inp s = Done ERR_OK (asked s)) /\
  (out <> 0 -> is_u32 (ip_addr (interface out)) -> output (interface out) = Netif.etharp_output ->
   mtu (interface out) = 0 \/ 56 <= mtu (interface out) -> is_u16 (ip_id s) ->
   exists hdr' msg, ip_packet hdr' msg (ip_addr (interface out)) src IP_PROTO_ICMP /\
     IPH_LEN hdr' = lwip_htons (20 + Z.of_nat (length msg)) /\ read16 (drop 4 hdr') = lwip_htons (ip_id s) /\
     (forall a, inet_chksum (a, hdr') = 0) /\ (forall a, inet_chksum (a, msg) = 0) /\
     take 2 msg = [ICMP_DUR; ICMP_DUR_PROTO] /\ drop 8 msg = take 28 (hdr ++ m) /\
     netif_input (mk_packet (eth ++ hdr ++ m ++ pad) room needs) inp s =
     bind (in_arp (etharp_output interface alloc linkoutput_result out (mk_packet (hdr' ++ msg) true false) src))
       (fun _ => ret ERR_OK) (mk_stack (allocated (arp_state s)) (u16 (ip_id s + 1)))).
Proof.
  intros Hi Hl Ht Fh Fm Hp Hsrc Hb Hm N1 N2 N3 Ha out. destruct (if_unicast _ Hi) as [Hub Hum].
  pose proof (ip_range _ _ _ _ _ Hp) as Hr.
  assert (E : netif_input (mk_packet (eth ++ hdr ++ m ++ pad) room needs) inp s =
    bind (icmp_dest_unreach interface alloc linkoutput_result route tx_addr ip4_frag (mk_packet (hdr ++ m) room needs) ICMP_DUR_PROTO)
      (fun _ => ret ERR_OK) s).
  { rewrite netif_input_ip; [| exact Hl | exact Ht | | apply Hi | now apply etharp_flag]; [| destruct hdr; [cbn in Hr; lia | discriminate]].
    unfold bind at 1. rewrite (ip4_input_run hdr m pad src (ip_addr (interface inp)) proto inp) by (try assumption; now apply input_netif_own).
    unfold Ip4.ip4_deliver. destruct (header_fields hdr m) as (_ & _ & _ & _ & E5 & _); [lia |]. cbn [bytes link_room needs_copy].
    rewrite E5, (ip_proto _ _ _ _ _ Hp). apply Z.eqb_neq in N1, N2, N3. rewrite N1, N2, N3, Hub, Hum. cbn [negb andb].
    unfold bind, ret. now destruct (icmp_dest_unreach _ _ _ _ _ _ _ _ _). }
  assert (Es : IPH_SRC (bytes (mk_packet (hdr ++ m) room needs)) = src).
  { cbn [bytes]. destruct (header_fields hdr m) as (_ & _ & _ & _ & _ & E6 & _); [lia |]. rewrite E6. apply (ip_src _ _ _ _ _ Hp). }
  rewrite E. split.
  - intros Ho. unfold icmp_dest_unreach, Ip4.icmp_send_response. unfold bind at 1.
    rewrite (bind_done _ _ _ _ _ (pbuf_alloc_run s)), Ha. cbn [negb]. cbv zeta. rewrite Es. fold out. rewrite Ho. reflexivity.
  - intros Ho Hadd Hout Hmtu Hid. set (msg := unreachable_message tx_addr (hdr ++ m)).
    assert (Lm : (length msg <= 36)%nat) by apply length_unreachable.
    destruct (ip4_header_packet (lwip_htons (20 + Z.of_nat (length msg))) (lwip_htons (ip_id s)) (ip_addr (interface out)) src
      ICMP_TTL 0 IP_PROTO_ICMP msg) as [P C]; try assumption; try reflexivity; try apply htons_range;
      try (unfold is_u8, ICMP_TTL, IP_PROTO_ICMP; lia).
    eexists _, msg. split; [exact P |]. split; [| split; [| split; [exact C |]]].
    + change (IPH_LEN _) with (read16 (bytes16 (lwip_htons (20 + Z.of_nat (length msg))) ++ [])).
      apply read16_bytes16, htons_range.
    + change (drop 4 _) with (bytes16 (lwip_htons (ip_id s)) ++
        drop 6 (ip4_header (lwip_htons (20 + Z.of_nat (length msg))) (lwip_htons (ip_id s)) (ip_addr (interface out)) src
          ICMP_TTL 0 IP_PROTO_ICMP)).
      apply read16_bytes16, htons_range.
    + split; [intros a; apply unreachable_valid; now apply Forall_app |].
      split; [reflexivity | split; [reflexivity |]].
      pose proof (unreachable_run (mk_packet (hdr ++ m) room needs) s) as U. cbv zeta in U. rewrite Es in U.
      unfold bind at 1. rewrite U by assumption. cbn [bytes]. fold out msg.
      rewrite u16_small by (unfold is_u16; lia). rewrite (Z.add_comm (Z.of_nat (length msg))).
      unfold Ip4.netif_output. rewrite Hout. unfold bind. now destruct (in_arp _ _).
Qed.
End Reception.
