(* ===== verification/Ip4Session.v ===== *)
(** A host on the network of the interface: it asks for the interface's Ethernet address and pings it. Then instances of the
    theorems about [Ip4] on the application's interface. *)
From Stdlib Require Import ZArith Lia Bool.
From stdpp Require Import base decidable list gmap.
From S2P Require Import Prelude LwipChksum Netif NetifProofs Etharp EtharpTable EtharpProofs EtharpInput Ip4 Ip4Chksum Ip4Proofs.

Section Session.
Variable interface : Z -> netif.
Variable alloc : nat -> bool.
Variable linkoutput_result : Z -> list Z -> Z.
Variable netif_foreach : list Z.
Variable route : Z -> Z.
Variable rx_addr tx_addr : Z.
Variable udp_input tcp_input : ip_data -> packet -> Z -> prog stack unit.
Variable ip4_reass : packet -> prog stack (option packet).
Variable ip4_frag : packet -> Z -> Z -> prog stack Z.

#[local] Abbreviation netif_input :=
  (netif_input interface alloc linkoutput_result netif_foreach route rx_addr tx_addr udp_input tcp_input ip4_reass ip4_frag).
#[local] Abbreviation ticks := (ticks interface alloc linkoutput_result).
#[local] Abbreviation stack_inv := (stack_inv interface).

Definition link_of (s : stack) : list (Z * list Z) := link (arp_state s).

(** A frame with an ARP packet goes to [etharp_input]. *)
Lemma netif_input_arp eth x room needs inp s : ip_interface (interface inp) -> length eth = 14%nat ->
  read16 (drop 12 eth) = PP_HTONS ETHTYPE_ARP -> x <> [] ->
  netif_input (mk_packet (eth ++ x) room needs) inp s =
  bind (in_arp (etharp_input interface alloc linkoutput_result x inp)) (fun _ => ret ERR_OK) s.
Proof.
  intros Hi Hl Ht Hx. unfold Ip4.netif_input, Ip4.ethernet_input. rewrite etharp_flag by exact Hi. cbn [bytes link_room needs_copy].
  rewrite (proj2 (Nat.leb_gt _ _)) by (rewrite length_app; unfold SIZEOF_ETH_HDR; destruct x; [easy | cbn; lia]).
  rewrite read16_app by lia. rewrite Ht, Z.eqb_refl. change (PP_HTONS ETHTYPE_ARP =? PP_HTONS ETHTYPE_IP) with false. cbv iota.
  rewrite (if_etharp _ Hi). cbn [negb]. rewrite drop_app_length' by (symmetry; exact Hl). reflexivity.
Qed.

Lemma in_arp_done {A} (m : prog arp A) (a : A) s t : m (arp_state s) = Done a t -> in_arp m s = Done a (mk_stack t (ip_id s)).
Proof. intros H. unfold in_arp. now rewrite H. Qed.

(** A host whose Ethernet address is known gets the reply to its ping in a frame of its own. *)
Lemma ping_framed eth hdr m pad src room needs inp mac i t s : stack_inv s -> sends interface inp ->
  ip_interface (interface inp) -> ping_frame interface rx_addr inp eth hdr m src ->
  next_hop (interface inp) src = Some src -> (forall k, alloc k = true) -> 0 <= t < 270 ->
  arp_table (arp_state s) !! i = Some (mk_entry None src inp mac t ETHARP_STATE_STABLE) ->
  exists s' hdr' m', netif_input (mk_packet (eth ++ hdr ++ m ++ pad) room needs) inp s = Done ERR_OK s' /\
    reply_to hdr m src (ip_addr (interface inp)) hdr' m' /\
    link_of s' = link_of s ++ [(inp, frame mac (hwaddr (interface inp)) ETHTYPE_IP (hdr' ++ m'))].
Proof.
  intros Hs Hn Hi Hf Hh Ha Ht E.
  pose proof (echo_reply_to rx_addr (if room then rx_addr else tx_addr) hdr m src (ip_addr (interface inp))
    (pf_echo _ _ _ _ _ _ _ Hf)) as R.
  set (p := echo_reply rx_addr tx_addr room needs hdr m src (ip_addr (interface inp))).
  destruct (pf_unicast _ _ _ _ _ _ _ Hf) as [Hb Hm].
  assert (Hs0 : stack_inv (echo_state room s)) by (destruct room; [exact Hs | now apply asked_inv]).
  assert (E0 : arp_table (arp_state (echo_state room s)) !! i = Some (mk_entry None src inp mac t ETHARP_STATE_STABLE))
    by (destruct room; exact E).
  destruct (returns_exists _ _ _ (output_fresh interface alloc linkoutput_result inp p src src i mac t _ Hs0 (proj1 Hn)
    eq_refl Hb Hm Hh Ht E0)) as (r & t' & O & L).
  exists (mk_stack t' (ip_id s)), (echo_header (if room then rx_addr else tx_addr) hdr src (ip_addr (interface inp))), (echo_message m).
  split; [| split; [exact R |]].
  - rewrite (ping_run interface alloc linkoutput_result netif_foreach route rx_addr tx_addr udp_input tcp_input ip4_reass ip4_frag
      eth hdr m pad src) by auto.
    fold p. rewrite (bind_done _ _ _ _ _ (in_arp_done _ r _ t' O)). now destruct room.
  - unfold link_of. cbn [arp_state]. rewrite L. now destruct room.
Qed.

(** C10: when lwIP's allocations succeed, a host of the interface's network that asks for the interface's Ethernet
    address is told it; and if the next frame to arrive, less than 270 ticks of the ARP timer later, is an echo request
    from it, it gets the reply in a frame to its Ethernet address, the only frame sent, whatever the reply's length.
    (Requests of ten other hosts in between could evict its entry from the address table.) *)
Theorem host_is_served eth0 eth hdr m pad0 pad src mac tha room0 needs0 room needs inp k s : stack_inv s ->
  sends interface inp -> ip_interface (interface inp) -> is_u32 (ip_addr (interface inp)) ->
  (forall k, alloc k = true) -> length mac = 6%nat -> length tha = 6%nat ->
  is_u32 src -> src <> ip_addr (interface inp) -> unicast interface inp src = true ->
  next_hop (interface inp) src = Some src -> length eth0 = 14%nat -> read16 (drop 12 eth0) = PP_HTONS ETHTYPE_ARP ->
  ping_frame interface rx_addr inp eth hdr m src -> Z.of_nat k < 270 ->
  let n := interface inp in
  exists s1 s2 s3 sent hdr' m',
    netif_input (mk_packet (eth0 ++ etharp_hdr ARP_REQUEST mac src tha (ip_addr n) ++ pad0) room0 needs0) inp s = Done ERR_OK s1 /\
    link_of s1 = link_of s ++ sent ++ [(inp, arp_frame mac (hwaddr n) ARP_REPLY (hwaddr n) (ip_addr n) mac src)] /\
    in_arp (ticks k) s1 = Done tt s2 /\
    netif_input (mk_packet (eth ++ hdr ++ m ++ pad) room needs) inp s2 = Done ERR_OK s3 /\
    reply_to hdr m src (ip_addr n) hdr' m' /\
    link_of s3 = link_of s2 ++ [(inp, frame mac (hwaddr n) ETHTYPE_IP (hdr' ++ m'))].
Proof.
  intros Hs Hn Hi Hip Ha Lm Lt Hsrc Hne Hu Hh L0 T0 Hf Hk n.
  destruct (returns_exists _ _ _ (request_answered interface alloc linkoutput_result inp mac src tha pad0 _ Hs (proj1 Hn) Lm Lt Hsrc
    Hip (if_addr _ Hi) Hne (Ha _))) as ([] & t1 & O1 & I1 & (sent & _ & L1) & R1).
  destruct (R1 Hu) as [i E1].
  destruct (returns_exists _ _ _ (ticks_age interface alloc linkoutput_result k t1 I1)) as ([] & t2 & O2 & I2 & T2 & _).
  assert (E2 : arp_table t2 !! i = Some (mk_entry None src inp mac (Z.of_nat k) ETHARP_STATE_STABLE)).
  { rewrite T2, ticks_lookup, E1. cbn [fmap option_fmap option_map]. rewrite ticks_resolved by lia. reflexivity. }
  destruct (ping_framed eth hdr m pad src room needs inp mac i (Z.of_nat k) (mk_stack t2 (ip_id s)) I2 Hn Hi Hf Hh Ha ltac:(lia) E2)
    as (s3 & hdr' & m' & O3 & R3 & L3).
  exists (mk_stack t1 (ip_id s)), (mk_stack t2 (ip_id s)), s3, sent, hdr', m'. split; [| split; [exact L1 | split; [| now split; [| split]]]].
  - rewrite netif_input_arp; try assumption; [| discriminate]. now rewrite (bind_done _ _ _ _ _ (in_arp_done _ tt _ t1 O1)).
  - exact (in_arp_done _ tt (mk_stack t1 (ip_id s)) t2 O2).
Qed.
End Session.

(** * Instances *)

(** The application's interface; no UDP, TCP or fragments. *)
Definition ex_upper (d : ip_data) (p : packet) (inp : Z) : prog stack unit := ret tt.
Definition ex_reass (p : packet) : prog stack (option packet) := ret None.
Definition ex_frag (p : packet) (netif dest : Z) : prog stack Z := ret ERR_OK.
Definition ex_route (dest : Z) : Z := ex_ifc.
Definition ex_rx : Z := 0x20001022.
Definition ex_tx : Z := 0x20002000.
Definition ex_start : stack := mk_stack arp_reset 0.

#[local] Abbreviation ex_input := (netif_input ex_interface ex_alloc ex_linkoutput [ex_ifc] ex_route ex_rx ex_tx ex_upper ex_upper
  ex_reass ex_frag).

(** [ping 192.168.0.22] with 4 bytes of data, from [ex_peer]. *)
Definition ex_eth (eth_type : list Z) : list Z := [0xDE; 0xAD; 0xBE; 0xEF; 0xCC; 0xAA] ++ ex_mac ++ eth_type.
Definition ex_header (proto : Z) : list Z := ip4_header (lwip_htons 32) 0 ex_peer ENC28_IP_ADDR 64 0 proto.
Definition ex_echo : list Z := [8; 0; 0x93; 0x97; 0; 1; 0; 1; 0x31; 0x32; 0x33; 0x34].

Lemma ex_sends : sends ex_interface ex_ifc.
Proof. split; [exact ex_usable | reflexivity]. Qed.

Lemma ex_ip_interface : ip_interface (ex_interface ex_ifc).
Proof. split; try reflexivity; [discriminate | split; reflexivity]. Qed.

Lemma ex_u8 l : forallb (fun b => (0 <=? b) && (b <? 256)) l = true -> Forall is_u8 l.
Proof.
  intros H. apply Forall_forall. intros b Hb. apply list_elem_of_In in Hb.
  pose proof (proj1 (forallb_forall _ _) H b Hb) as K. apply andb_true_iff in K as [K1 K2].
  apply Z.leb_le in K1. apply Z.ltb_lt in K2. unfold is_u8. lia.
Qed.

Lemma ex_packet_ok proto : proto = 1 \/ proto = 132 -> ip_packet ex_rx (ex_header proto) ex_echo ex_peer ENC28_IP_ADDR proto.
Proof. intros [-> | ->]; split; try (vm_compute; reflexivity); vm_compute; lia. Qed.

Lemma ex_ping : ping_frame ex_interface ex_rx ex_ifc (ex_eth [8; 0]) (ex_header 1) ex_echo ex_peer.
Proof.
  split; try (vm_compute; reflexivity).
  - apply ex_packet_ok. now left.
  - split; try (vm_compute; reflexivity); try (apply ex_u8; vm_compute; reflexivity); vm_compute; lia || (split; congruence) || congruence.
  - vm_compute. split; congruence.
  - split; reflexivity.
  - right. vm_compute. congruence.
Qed.

Lemma lwip_answers_ping_witness :
  ip_interface (ex_interface ex_ifc) /\ ping_frame ex_interface ex_rx ex_ifc (ex_eth [8; 0]) (ex_header 1) ex_echo ex_peer /\
  exists hdr' m', reply_to (ex_header 1) ex_echo ex_peer ENC28_IP_ADDR hdr' m' /\
    ex_input (mk_packet (ex_eth [8; 0] ++ ex_header 1 ++ ex_echo ++ repeat 0 14) false false) ex_ifc ex_start =
    bind (in_arp (etharp_output ex_interface ex_alloc ex_linkoutput ex_ifc (mk_packet (hdr' ++ m') true false) ex_peer))
      (fun _ => ret ERR_OK) (asked ex_start).
Proof.
  split; [exact ex_ip_interface | split; [exact ex_ping |]].
  exact (lwip_answers_ping ex_interface ex_alloc ex_linkoutput [ex_ifc] ex_route ex_rx ex_tx ex_upper ex_upper ex_reass ex_frag
    _ _ _ (repeat 0 14) _ false false ex_ifc ex_start ex_ip_interface ex_ping (or_intror eq_refl)).
Defined.

Lemma netif_input_drops_witness :
  ex_input (mk_packet (ex_eth [0x86; 0xdd] ++ repeat 0 40) true false) ex_ifc ex_start = Done ERR_OK ex_start /\
  ex_input (mk_packet (ex_eth [8; 0] ++ <[11%nat := 0]> (ex_header 1) ++ ex_echo) true false) ex_ifc ex_start = Done ERR_OK ex_start /\
  ex_input (mk_packet (ex_eth [8; 6] ++ etharp_hdr ARP_REQUEST ex_mac ex_peer ethzero ex_peer) true false) ex_ifc ex_start =
    Done ERR_OK ex_start.
Proof.
  split; [| split];
    apply (netif_input_drops ex_interface ex_alloc ex_linkoutput [ex_ifc] ex_route ex_rx ex_tx ex_upper ex_upper ex_reass ex_frag);
    try exact ex_ip_interface; try reflexivity; right.
  - left. split; vm_compute; congruence.
  - right. left. split; [reflexivity | split; [vm_compute; lia |]]. apply bad_chksum; [split | |]; vm_compute; congruence.
  - right. right. split; [reflexivity | split; [vm_compute; lia | split; [apply ex_sends | split; [exact ex_inv |]]]].
    apply arp_stranger; [reflexivity | apply ex_absent].
Defined.

Lemma netif_input_returns_witness :
  returns (ex_input (mk_packet (repeat 0xff 60) true false) ex_ifc) ex_start (fun r s' => r = ERR_OK /\ stack_inv ex_interface s').
Proof.
  apply (netif_input_returns ex_interface ex_alloc ex_linkoutput [ex_ifc] ex_route ex_rx ex_tx ex_upper ex_upper ex_reass ex_frag).
  - intros d p inp s H _. exact H.
  - intros d p inp s H _. exact H.
  - intros p s H. split; [exact H | discriminate].
  - intros p netif dest s H _. exact H.
  - intros dest. right. exact ex_sends.
  - exact ex_inv.
  - exact ex_sends.
  - exact ex_ip_interface.
  - cbn. lia.
Defined.

Lemma ip4_output_if_sends_witness :
  exists hdr, ip_packet ex_rx hdr ex_echo ENC28_IP_ADDR ex_peer IP_PROTO_ICMP /\
    ip4_output_if ex_interface ex_alloc ex_linkoutput ex_frag (mk_packet ex_echo true false) (Some IPADDR_ANY) (Some ex_peer) 255 0
      IP_PROTO_ICMP ex_ifc ex_start =
    netif_output ex_interface ex_alloc ex_linkoutput ex_ifc (mk_packet (hdr ++ ex_echo) true false) ex_peer (mk_stack arp_reset 1).
Proof.
  destruct (ip4_output_if_sends ex_interface ex_alloc ex_linkoutput ex_rx ex_frag (mk_packet ex_echo true false) IPADDR_ANY ex_peer 255
    0 IP_PROTO_ICMP ex_ifc ex_start) as (hdr & P & _ & _ & _ & _ & _ & O); try (vm_compute; split; congruence); [vm_compute; congruence |].
  exists hdr. split; [exact P | exact O].
Defined.

Lemma unknown_protocol_reported_witness :
  exists hdr' msg, ip_packet ex_rx hdr' msg ENC28_IP_ADDR ex_peer IP_PROTO_ICMP /\
    take 2 msg = [ICMP_DUR; ICMP_DUR_PROTO] /\ drop 8 msg = take 28 (ex_header 132 ++ ex_echo) /\
    ex_input (mk_packet (ex_eth [8; 0] ++ ex_header 132 ++ ex_echo ++ []) true false) ex_ifc ex_start =
    bind (in_arp (etharp_output ex_interface ex_alloc ex_linkoutput ex_ifc (mk_packet (hdr' ++ msg) true false) ex_peer))
      (fun _ => ret ERR_OK) (mk_stack (allocated arp_reset) 1).
Proof.
  destruct (unknown_protocol_reported ex_interface ex_alloc ex_linkoutput [ex_ifc] ex_route ex_rx ex_tx ex_upper ex_upper ex_reass
    ex_frag (ex_eth [8; 0]) (ex_header 132) ex_echo [] ex_peer 132 true false ex_ifc ex_start) as [_ K];
    try reflexivity; try (apply ex_u8; vm_compute; reflexivity); try discriminate; try (vm_compute; split; congruence);
    [exact ex_ip_interface | apply ex_packet_ok; now right |].
  destruct K as (hdr' & msg & P & _ & _ & _ & _ & M1 & M2 & O);
    [discriminate | vm_compute; split; congruence | reflexivity | right; vm_compute; congruence | vm_compute; split; congruence |].
  exists hdr', msg. exact (conj P (conj M1 (conj M2 O))).
Defined.

Lemma host_is_served_witness :
  exists s1 s2 s3 hdr' m',
    ex_input (mk_packet (ex_eth [8; 6] ++ etharp_hdr ARP_REQUEST ex_mac ex_peer ethzero ENC28_IP_ADDR ++ repeat 0 18) true false) ex_ifc
      ex_start = Done ERR_OK s1 /\
    in_arp (ticks ex_interface ex_alloc ex_linkoutput 3) s1 = Done tt s2 /\
    ex_input (mk_packet (ex_eth [8; 0] ++ ex_header 1 ++ ex_echo ++ repeat 0 14) true false) ex_ifc s2 = Done ERR_OK s3 /\
    reply_to (ex_header 1) ex_echo ex_peer ENC28_IP_ADDR hdr' m' /\
    link_of s3 = link_of s2 ++ [(ex_ifc, frame ex_mac (hwaddr (ex_interface ex_ifc)) ETHTYPE_IP (hdr' ++ m'))].
Proof.
  assert (U : is_u32 (ip_addr (ex_interface ex_ifc)) /\ is_u32 ex_peer) by (repeat split; vm_compute; congruence).
  destruct (host_is_served ex_interface ex_alloc ex_linkoutput [ex_ifc] ex_route ex_rx ex_tx ex_upper ex_upper ex_reass ex_frag
    (ex_eth [8; 6]) (ex_eth [8; 0]) (ex_header 1) ex_echo (repeat 0 18) (repeat 0 14) ex_peer ex_mac ethzero true false true false
    ex_ifc 3 ex_start ex_inv ex_sends ex_ip_interface (proj1 U) (fun _ => eq_refl) eq_refl eq_refl (proj2 U) ltac:(discriminate)
    eq_refl eq_refl eq_refl eq_refl ex_ping eq_refl) as (s1 & s2 & s3 & sent & hdr' & m' & O1 & _ & O2 & O3 & R & L).
  exists s1, s2, s3, hdr', m'. exact (conj O1 (conj O2 (conj O3 (conj R L)))).
Defined.
