(* ===== verification/Timeouts.v ===== *)
(** lwIP's timers, [core/timeouts.c], and [sys_now] of [tasks/ip_stack_task.c].

    The list of pending timeouts is a list of records. The handlers act on a world of their own; the
    configuration has the cyclic timers of TCP, reassembly and address resolution, each a parameter, as is
    [HAL_GetTick], which is not in the repository. Elements of the pool [MEMP_SYS_TIMEOUT] are counted. The
    loop of [sys_check_timeouts] has fuel; its [PBUF_CHECK_FREE_OOSEQ], which after a failed allocation of a pbuf frees
    what TCP connections have received out of order, is left out: there are no TCP connections. *)
From Stdlib Require Import ZArith Lia Bool.
From stdpp Require Import base decidable list gmap.
From S2P Require Import Prelude.

Definition LWIP_MAX_TIMEOUT : Z := 0x7fffffff.
Definition LWIP_UINT32_MAX : Z := 0xffffffff.
Definition SYS_TIMEOUTS_SLEEPTIME_INFINITE : Z := 0xFFFFFFFF.
Definition TCP_TMR_INTERVAL : Z := 250.
Definition IP_TMR_INTERVAL : Z := 1000.
Definition ARP_TMR_INTERVAL : Z := 1000.

(** TCP, reassembly and address resolution. *)
Definition MEMP_NUM_SYS_TIMEOUT : nat := 1 + 1 + 1.

(** The order of times that may have wrapped around. *)
Definition TIME_LESS_THAN (t compare_to : Z) : bool := LWIP_MAX_TIMEOUT <? u32 (t - compare_to).

(** The handlers this configuration schedules. *)
Inductive sys_timeout_handler : Type :=
| NULL_handler
| h_lwip_cyclic_timer       (** [lwip_cyclic_timer]; the argument is an index of [lwip_cyclic_timers] *)
| h_tcpip_tcp_timer.        (** [tcpip_tcp_timer] *)

#[export] Instance sys_timeout_handler_eq_dec : EqDecision sys_timeout_handler.
Proof. solve_decision. Defined.

Record sys_timeo : Type := mk_timeo { timeo_time : Z; timeo_h : sys_timeout_handler; timeo_arg : nat }.

Record timers (W : Type) : Type := mk_timers {
  next_timeout : list sys_timeo;
  current_timeout_due_time : Z;
  tcpip_tcp_timer_active : bool;
  pool_free : nat;                 (** free elements of [MEMP_SYS_TIMEOUT] *)
  world : W;
  expired : list sys_timeo         (** history: the timeouts whose handlers were called *)
}.
Arguments mk_timers {W}.
Arguments next_timeout {W}.
Arguments current_timeout_due_time {W}.
Arguments tcpip_tcp_timer_active {W}.
Arguments pool_free {W}.
Arguments world {W}.
Arguments expired {W}.

(** Static storage, before [lwip_init]. *)
Definition timers_reset {W} (w : W) : timers W := mk_timers [] 0 false MEMP_NUM_SYS_TIMEOUT w [].

Record lwip_cyclic_timer_t (W : Type) : Type := mk_cyclic { interval_ms : Z; handler : prog W unit }.
Arguments mk_cyclic {W}.
Arguments interval_ms {W}.
Arguments handler {W}.

Definition set_next_timeout {W} (l : list sys_timeo) (n : nat) (s : timers W) : timers W :=
  mk_timers l (current_timeout_due_time s) (tcpip_tcp_timer_active s) n (world s) (expired s).
Definition set_tcp_active {W} (b : bool) (s : timers W) : timers W :=
  mk_timers (next_timeout s) (current_timeout_due_time s) b (pool_free s) (world s) (expired s).

(** The world acts. *)
Definition in_world {W A} (m : prog W A) : prog (timers W) A := fun s =>
  match m (world s) with
  | Done a w => Done a (mk_timers (next_timeout s) (current_timeout_due_time s) (tcpip_tcp_timer_active s) (pool_free s) w (expired s))
  | Undefined => Undefined
  | Halted => Halted
  | OutOfFuel => OutOfFuel
  end.

Definition LWIP_ASSERT_timers {W} (b : bool) : prog (timers W) unit := if b then ret tt else halt.

(** The loop that finds the place behind the first element. *)
Fixpoint insert_after (timeout t : sys_timeo) (l : list sys_timeo) : list sys_timeo :=
  match l with
  | [] => [t; timeout]
  | n :: l' =>
    if TIME_LESS_THAN (timeo_time timeout) (timeo_time n) then t :: timeout :: l
    else t :: insert_after timeout n l'
  end.

Definition insert_timeout (timeout : sys_timeo) (l : list sys_timeo) : list sys_timeo :=
  match l with
  | [] => [timeout]
  | t :: l' => if TIME_LESS_THAN (timeo_time timeout) (timeo_time t) then timeout :: l else insert_after timeout t l'
  end.

(** The element [sys_untimeout] removes. *)
Fixpoint remove_first (h : sys_timeout_handler) (arg : nat) (l : list sys_timeo) : option (list sys_timeo) :=
  match l with
  | [] => None
  | t :: l' =>
    if bool_decide (timeo_h t = h) && (timeo_arg t =? arg)%nat then Some l'
    else cons t <$> remove_first h arg l'
  end.

Section Timeouts.
Context {W : Type}.
Variable HAL_GetTick : prog W Z.
Variable tcp_tmr ip_reass_tmr etharp_tmr : prog W unit.
Variable tcp_pcbs : W -> bool.        (** [tcp_active_pcbs || tcp_tw_pcbs] *)

#[local] Abbreviation M := (prog (timers W)).

Definition lwip_cyclic_timers : list (lwip_cyclic_timer_t W) :=
  [mk_cyclic TCP_TMR_INTERVAL tcp_tmr; mk_cyclic IP_TMR_INTERVAL ip_reass_tmr; mk_cyclic ARP_TMR_INTERVAL etharp_tmr].

(** Milliseconds, modulo 2^32. *)
Definition sys_now : M Z := in_world HAL_GetTick.

Definition sys_timeout_abs (abs_time : Z) (h : sys_timeout_handler) (arg : nat) : M unit := fun s =>
  match pool_free s with
  | O => Halted
  | S n => Done tt (set_next_timeout (insert_timeout (mk_timeo abs_time h arg) (next_timeout s)) n s)
  end.

Definition sys_timeout (msecs : Z) (h : sys_timeout_handler) (arg : nat) : M unit :=
  LWIP_ASSERT_timers (msecs <=? LWIP_UINT32_MAX / 4) ;;
  now <- sys_now ;;
  sys_timeout_abs (u32 (now + msecs)) h arg.

Definition tcpip_tcp_timer : M unit :=
  in_world tcp_tmr ;;
  s <- get ;;
  if tcp_pcbs (world s) then sys_timeout TCP_TMR_INTERVAL h_tcpip_tcp_timer 0
  else modify (set_tcp_active false).

Definition tcp_timer_needed : M unit :=
  s <- get ;;
  if negb (tcpip_tcp_timer_active s) && tcp_pcbs (world s) then
    modify (set_tcp_active true) ;;
    sys_timeout TCP_TMR_INTERVAL h_tcpip_tcp_timer 0
  else ret tt.

Definition lwip_cyclic_timer (arg : nat) : M unit :=
  match lwip_cyclic_timers !! arg with
  | None => undefined
  | Some cyclic =>
    in_world (handler cyclic) ;;
    now <- sys_now ;;
    s <- get ;;
    let next_timeout_time := u32 (current_timeout_due_time s + interval_ms cyclic) in
    if TIME_LESS_THAN next_timeout_time now
    then sys_timeout_abs (u32 (now + interval_ms cyclic)) h_lwip_cyclic_timer arg
    else sys_timeout_abs next_timeout_time h_lwip_cyclic_timer arg
  end.

(** The loop of [sys_timeouts_init], from [i] on. *)
Fixpoint sys_timeouts_init_loop (i : nat) (l : list (lwip_cyclic_timer_t W)) : M unit :=
  match l with
  | [] => ret tt
  | t :: l' => sys_timeout (interval_ms t) h_lwip_cyclic_timer i ;; sys_timeouts_init_loop (S i) l'
  end.

Definition sys_timeouts_init : M unit := sys_timeouts_init_loop 1 (drop 1 lwip_cyclic_timers).

Definition sys_untimeout (h : sys_timeout_handler) (arg : nat) : M unit :=
  modify (fun s =>
    match remove_first h arg (next_timeout s) with
    | Some l => set_next_timeout l (S (pool_free s)) s
    | None => s
    end).

Definition call_handler (h : sys_timeout_handler) (arg : nat) : M unit :=
  match h with
  | NULL_handler => ret tt
  | h_lwip_cyclic_timer => lwip_cyclic_timer arg
  | h_tcpip_tcp_timer => tcpip_tcp_timer
  end.

(** Without [PBUF_CHECK_FREE_OOSEQ()] at the start of an iteration. *)
Fixpoint check_loop (fuel : nat) (now : Z) : M unit :=
  match fuel with
  | O => out_of_fuel
  | S fuel' =>
    s <- get ;;
    match next_timeout s with
    | [] => ret tt
    | tmptimeout :: rest =>
      if TIME_LESS_THAN now (timeo_time tmptimeout) then ret tt
      else
        modify (fun s => mk_timers rest (timeo_time tmptimeout) (tcpip_tcp_timer_active s) (S (pool_free s)) (world s)
                           (expired s ++ [tmptimeout])) ;;
        call_handler (timeo_h tmptimeout) (timeo_arg tmptimeout) ;;
        check_loop fuel' now
    end
  end.

Definition sys_check_timeouts (fuel : nat) : M unit :=
  now <- sys_now ;;
  check_loop fuel now.

Definition sys_restart_timeouts : M unit :=
  s <- get ;;
  match next_timeout s with
  | [] => ret tt
  | t :: _ =>
    now <- sys_now ;;
    modify (fun s =>
      set_next_timeout ((fun x => mk_timeo (u32 (u32 (timeo_time x - timeo_time t) + now)) (timeo_h x) (timeo_arg x)) <$> next_timeout s)
        (pool_free s) s)
  end.

Definition sys_timeouts_sleeptime : M Z :=
  s <- get ;;
  match next_timeout s with
  | [] => ret SYS_TIMEOUTS_SLEEPTIME_INFINITE
  | t :: _ =>
    now <- sys_now ;;
    if TIME_LESS_THAN (timeo_time t) now then ret 0
    else
      let r := u32 (timeo_time t - now) in
      LWIP_ASSERT_timers (r <=? LWIP_MAX_TIMEOUT) ;;
      ret r
  end.
End Timeouts.
