(* ===== verification/TimeoutsProofs.v ===== *)
(** The timers of [Timeouts] against true times: due times are integers that do not wrap, and the list is sorted by them. *)
From Stdlib Require Import ZArith Lia Bool.
From stdpp Require Import base decidable list gmap sorting.
From S2P Require Import Prelude EtharpTable Timeouts.

(** * Times *)

Lemma time_less_than a b : -2147483648 <= a - b < 2147483648 -> TIME_LESS_THAN (u32 a) (u32 b) = (a <? b).
Proof.
  intros H. unfold TIME_LESS_THAN, LWIP_MAX_TIMEOUT, u32.
  rewrite <- Zminus_mod. destruct (Z.ltb_spec a b).
  - apply Z.ltb_lt. rewrite <- (Z.mod_add _ 1), Z.mod_small by lia. lia.
  - apply Z.ltb_ge. rewrite Z.mod_small by lia. lia.
Qed.

(** A timeout with its true due time. *)
Record timer : Type := mk_timer { due : Z; key : sys_timeout_handler * nat }.

Definition conc (t : timer) : sys_timeo := mk_timeo (u32 (due t)) (fst (key t)) (snd (key t)).

(** Insertion behind the timers that are due earlier or at the same time. *)
Fixpoint insert_due (x : timer) (l : list timer) : list timer :=
  match l with
  | [] => [x]
  | y :: l' => if due x <? due y then x :: l else y :: insert_due x l'
  end.

Definition near (x y : timer) : Prop := -2147483648 <= due x - due y < 2147483648.

Lemma insert_timeout_due x l : Forall (near x) l -> insert_timeout (conc x) (conc <$> l) = conc <$> insert_due x l.
Proof.
  assert (A : forall y l, Forall (near x) l -> insert_after (conc x) (conc y) (conc <$> l) = conc <$> (y :: insert_due x l)).
  { intros y l'. revert y. induction l' as [| z l' IH]; intros y H; [reflexivity |].
    apply Forall_cons in H as [Hz Hl]. cbn. rewrite time_less_than by exact Hz.
    destruct (due x <? due z); [reflexivity |]. f_equal. now apply IH. }
  destruct l as [| y l]; intros H; [reflexivity |]. apply Forall_cons in H as [Hy Hl]. cbn. rewrite time_less_than by exact Hy.
  destruct (due x <? due y); [reflexivity |]. now apply A.
Qed.

Lemma insert_due_perm x l : insert_due x l ≡ₚ x :: l.
Proof.
  induction l as [| y l IH]; cbn; [reflexivity |]. destruct (_ <? _); [reflexivity |].
  rewrite IH. constructor.
Qed.

Definition due_le (x y : timer) : Prop := due x <= due y.

Lemma insert_due_sorted x l : StronglySorted due_le l -> StronglySorted due_le (insert_due x l).
Proof.
  induction 1 as [| y l Hs IH Hy]; cbn; [repeat constructor |]. destruct (Z.ltb_spec (due x) (due y)).
  - constructor; [now constructor |]. constructor; [unfold due_le; lia |].
    eapply Forall_impl; [exact Hy |]. unfold due_le. lia.
  - constructor; [exact IH |]. rewrite insert_due_perm. constructor; [unfold due_le; lia | exact Hy].
Qed.

(** The place of a new timer: after all that are due no later. *)
Lemma insert_due_split x l : StronglySorted due_le l -> exists l1 l2, l = l1 ++ l2 /\ insert_due x l = l1 ++ x :: l2 /\
  Forall (fun y => due y <= due x) l1 /\ Forall (fun y => due x < due y) l2.
Proof.
  induction 1 as [| y l Hs (l1 & l2 & -> & E & F1 & F2) Hy]; [exists [], []; cbn; auto |]. cbn.
  destruct (Z.ltb_spec (due x) (due y)).
  - exists [], (y :: l1 ++ l2). cbn. repeat split; auto. constructor; [lia |].
    eapply Forall_impl; [exact Hy |]. unfold due_le. lia.
  - exists (y :: l1), l2. rewrite E. cbn. repeat split; auto.
Qed.

(** * One cyclic timer *)

(** When a timer due at [d] is due next if its handler returned at [r]. *)
Definition next_due (interval d r : Z) : Z := if d + interval <? r then r + interval else d + interval.

(** The times a timer that is due at [d] fires in a check that began at [now] and ended at [till], and when it is due next. *)
Inductive fires (interval now till : Z) : Z -> list Z -> Z -> Prop :=
| fires_not d : now < d -> fires interval now till d [] d
| fires_once d r l d' : d <= now -> now <= r <= till -> fires interval now till (next_due interval d r) l d' ->
    fires interval now till d (d :: l) d'.

Lemma next_due_later interval now till d r : 0 < interval -> d <= now -> now <= r <= till ->
  d < next_due interval d r /\ now <= next_due interval d r <= till + interval /\
  (next_due interval d r = now -> d + interval = now).
Proof. intros H1 H2 H3. unfold next_due. destruct (Z.ltb_spec (d + interval) r); lia. Qed.

Lemma fires_spec interval now till d l d' : 0 < interval -> fires interval now till d l d' ->
  (length l <= 2)%nat /\ (d < now -> d + interval <> now -> (length l <= 1)%nat) /\ (now <= d -> (length l <= 1)%nat) /\
  (now < d -> l = [] /\ d' = d) /\ (d <= now -> now < d' <= till + interval /\ exists l', l = d :: l').
Proof.
  intros Hi. induction 1 as [d Hd | d r l d' Hd Hr H (IH1 & IH2 & IH3 & IH4 & IH5)].
  - cbn. repeat split; auto; lia.
  - destruct (next_due_later interval now till d r Hi Hd Hr) as (N1 & N2 & N3).
    destruct (Z.eq_dec (next_due interval d r) now) as [E | N].
    + assert (L : (length l <= 1)%nat) by (apply IH3; lia). destruct IH5 as [R _]; [lia |]. cbn.
      repeat split; try lia. eauto.
    + destruct IH4 as [-> ->]; [lia |]. cbn. repeat split; try lia. eauto.
Qed.

(** Checked before it is due again, a timer keeps its rhythm; checked later than that, it fires once and starts anew. *)
Lemma fires_punctual interval now till d l d' : 0 < interval -> fires interval now till d l d' -> d <= now ->
  till < d + interval -> l = [d] /\ d' = d + interval.
Proof.
  intros Hi H Hd Ht. inversion H as [? ? | ? r l' ? Hd' Hr H']; subst; [lia |].
  assert (E : next_due interval d r = d + interval) by (unfold next_due; destruct (Z.ltb_spec (d + interval) r); lia).
  rewrite E in H'. destruct (fires_spec _ _ _ _ _ _ Hi H') as (_ & _ & _ & K & _). destruct K as [-> ->]; [lia |]. auto.
Qed.

Lemma fires_late interval now till d l d' : 0 < interval -> fires interval now till d l d' -> d + interval < now ->
  l = [d] /\ now + interval <= d' <= till + interval.
Proof.
  intros Hi H Hd. inversion H as [? ? | ? r l' ? Hd' Hr H']; subst; [lia |].
  assert (E : next_due interval d r = r + interval) by (unfold next_due; destruct (Z.ltb_spec (d + interval) r); lia).
  rewrite E in H'. destruct (fires_spec _ _ _ _ _ _ Hi H') as (_ & _ & _ & K & _). destruct K as [-> ->]; [lia |]. split; [auto | lia].
Qed.

(** * The world of the handlers *)

(** What the timers rely on: reading the tick and running a handler return, keep an invariant of the world and take at
    most [slack] milliseconds; the tick is the true time modulo 2^32. *)
Class TimerHost {W : Type} (HAL_GetTick : prog W Z) (tcp_tmr ip_reass_tmr etharp_tmr : prog W unit) := {
  world_ok : W -> Prop;
  clock : W -> Z;
  slack : Z;
  slack_small : 0 <= slack <= 1000000;
  tick_ok w : world_ok w -> returns HAL_GetTick w (fun t w' =>
    world_ok w' /\ clock w <= clock w' <= clock w + slack /\ t = u32 (clock w'));
  handlers_ok m w : m ∈ [tcp_tmr; ip_reass_tmr; etharp_tmr] -> world_ok w -> returns m w (fun _ w' =>
    world_ok w' /\ clock w <= clock w' <= clock w + slack)
}.

Section Timers.
Context {W : Type}.
Variable HAL_GetTick : prog W Z.
Variable tcp_tmr ip_reass_tmr etharp_tmr : prog W unit.
Variable tcp_pcbs : W -> bool.
Context {Host : TimerHost HAL_GetTick tcp_tmr ip_reass_tmr etharp_tmr}.

#[local] Abbreviation sys_timeout := (sys_timeout HAL_GetTick).
#[local] Abbreviation sys_now := (sys_now HAL_GetTick).
#[local] Abbreviation lwip_cyclic_timer := (lwip_cyclic_timer HAL_GetTick tcp_tmr ip_reass_tmr etharp_tmr).
#[local] Abbreviation tcpip_tcp_timer := (tcpip_tcp_timer HAL_GetTick tcp_tmr tcp_pcbs).
#[local] Abbreviation call_handler := (call_handler HAL_GetTick tcp_tmr ip_reass_tmr etharp_tmr tcp_pcbs).
#[local] Abbreviation check_loop := (check_loop HAL_GetTick tcp_tmr ip_reass_tmr etharp_tmr tcp_pcbs).
#[local] Abbreviation sys_check_timeouts := (sys_check_timeouts HAL_GetTick tcp_tmr ip_reass_tmr etharp_tmr tcp_pcbs).

Definition now_of (s : timers W) : Z := clock (world s).

(** The timers that are scheduled. *)
Definition cyclic (i : nat) : sys_timeout_handler * nat := (h_lwip_cyclic_timer, i).
Definition tcp_key : sys_timeout_handler * nat := (h_tcpip_tcp_timer, 0%nat).
Definition keys (tcp_active : bool) : list (sys_timeout_handler * nat) :=
  [cyclic 1; cyclic 2] ++ if tcp_active then [tcp_key] else [].

Record timers_ok (s : timers W) (ts : list timer) : Prop := {
  tk_list : next_timeout s = conc <$> ts;
  tk_sorted : StronglySorted due_le ts;
  tk_keys : key <$> ts ≡ₚ keys (tcpip_tcp_timer_active s);
  tk_pool : (pool_free s + length ts)%nat = MEMP_NUM_SYS_TIMEOUT;
  tk_soon : Forall (fun t => due t <= now_of s + 1000) ts;
  tk_world : world_ok (world s)
}.

(** What the world goes through: readings of the tick and calls of handlers, of which the list tells the keys. *)
Definition handler_of (k : sys_timeout_handler * nat) : option (prog W unit) :=
  if decide (k = cyclic 1) then Some ip_reass_tmr else if decide (k = cyclic 2) then Some etharp_tmr
  else if decide (k = tcp_key) then Some tcp_tmr else None.

Inductive acts : W -> list (sys_timeout_handler * nat) -> W -> Prop :=
| acts_nil w : acts w [] w
| acts_tick w t w1 l w2 : HAL_GetTick w = Done t w1 -> acts w1 l w2 -> acts w l w2
| acts_call k m w w1 l w2 : handler_of k = Some m -> m w = Done tt w1 -> acts w1 l w2 -> acts w (k :: l) w2.

Lemma acts_app w l w1 l' w2 : acts w l w1 -> acts w1 l' w2 -> acts w (l ++ l') w2.
Proof. induction 1; cbn; eauto using acts. Qed.

(** ** Single steps *)

(** The same timers in another world. *)
Definition moved (w : W) (s : timers W) : timers W :=
  mk_timers (next_timeout s) (current_timeout_due_time s) (tcpip_tcp_timer_active s) (pool_free s) w (expired s).

Lemma in_world_returns {A} (m : prog W A) s (Q : A -> W -> Prop) : returns m (world s) Q ->
  returns (in_world m) s (fun a s' => exists w, s' = moved w s /\ m (world s) = Done a w /\ Q a w).
Proof. unfold returns, in_world, moved. destruct (m (world s)); try easy. eauto. Qed.

Lemma sys_now_returns s : world_ok (world s) -> returns sys_now s (fun t s' => exists w, s' = moved w s /\
  HAL_GetTick (world s) = Done t w /\ world_ok w /\ now_of s <= clock w <= now_of s + slack /\ t = u32 (clock w)).
Proof.
  intros H. eapply returns_mono; [apply in_world_returns, tick_ok, H |]. intros t s' (w & E & R & K). eauto.
Qed.

Lemma u32_add a b : u32 (u32 a + b) = u32 (a + b).
Proof. apply Zplus_mod_idemp_l. Qed.

(** A timer that is not scheduled can be, if the others are near its due time. *)
Lemma sys_timeout_abs_run x ts (s : timers W) (n : nat) : next_timeout s = conc <$> ts -> Forall (near x) ts -> pool_free s = S n ->
  sys_timeout_abs (u32 (due x)) (fst (key x)) (snd (key x)) s =
  Done tt (set_next_timeout (conc <$> insert_due x ts) n s).
Proof. intros E H P. unfold sys_timeout_abs. rewrite P, E. change (mk_timeo _ _ _) with (conc x). now rewrite insert_timeout_due. Qed.

(** What becomes of the others when the handler of [x] has run, between the times [lo] and [hi]. *)
Inductive rescheduled (x : timer) (rest ts' : list timer) (lo hi : Z) : Prop :=
| resched_cyclic r : fst (key x) = h_lwip_cyclic_timer -> lo <= r <= hi ->
    ts' = insert_due (mk_timer (next_due 1000 (due x) r) (key x)) rest -> rescheduled x rest ts' lo hi
| resched_tcp r : key x = tcp_key -> lo <= r <= hi -> ts' = insert_due (mk_timer (r + 250) (key x)) rest ->
    rescheduled x rest ts' lo hi
| resched_off : key x = tcp_key -> ts' = rest -> rescheduled x rest ts' lo hi.

(** The state in which the handler of [x] is called. *)
Definition popped (x : timer) (rest : list timer) (s : timers W) : timers W :=
  mk_timers (conc <$> rest) (u32 (due x)) (tcpip_tcp_timer_active s) (S (pool_free s)) (world s) (expired s ++ [conc x]).

(** All due times are less than 2^30 milliseconds late. *)
Definition recent (now : Z) (ts : list timer) : Prop := Forall (fun t => now - 1073741824 <= due t) ts.

Lemma key_cases s x rest : timers_ok s (x :: rest) ->
  (key x = cyclic 1 \/ key x = cyclic 2) \/ (key x = tcp_key /\ tcpip_tcp_timer_active s = true).
Proof.
  intros H. pose proof (tk_keys _ _ H) as K. assert (E : key x ∈ keys (tcpip_tcp_timer_active s)).
  { rewrite <- K. cbn. left. }
  unfold keys in E. rewrite elem_of_app, !elem_of_cons in E. destruct E as [[E | [E | E]] | E]; [auto | auto | now apply elem_of_nil in E |].
  destruct (tcpip_tcp_timer_active s); [apply list_elem_of_singleton in E; auto | now apply elem_of_nil in E].
Qed.

Lemma resched_near now hi x d k rest : recent now (x :: rest) -> Forall (fun t => due t <= hi + 1000) (x :: rest) -> now <= d <= hi + 1000 ->
  hi <= now + 100000000 -> Forall (near (mk_timer d k)) rest.
Proof.
  intros Hr Hs Hd Hh. apply Forall_cons in Hr as [_ Hr]. apply Forall_cons in Hs as [_ Hs]. apply Forall_forall. intros y Hy.
  rewrite Forall_forall in Hr, Hs. specialize (Hr y Hy). specialize (Hs y Hy). unfold near. cbn in *. lia.
Qed.

(** A cyclic timer. *)
Lemma cyclic_step now x rest s i m : timers_ok s (x :: rest) -> recent now (x :: rest) -> due x <= now <= now_of s ->
  now_of s <= now + 50000000 -> key x = cyclic i -> handler_of (cyclic i) = Some m ->
  lwip_cyclic_timers tcp_tmr ip_reass_tmr etharp_tmr !! i = Some (mk_cyclic 1000 m) -> m ∈ [tcp_tmr; ip_reass_tmr; etharp_tmr] ->
  returns (lwip_cyclic_timer i) (popped x rest s) (fun _ s' => exists r w, 
    let ts' := insert_due (mk_timer (next_due 1000 (due x) r) (key x)) rest in
    s' = mk_timers (conc <$> ts') (u32 (due x)) (tcpip_tcp_timer_active s) (pool_free s) w (expired s ++ [conc x]) /\
    acts (world s) [key x] w /\ world_ok w /\ r = clock w /\ now_of s <= r <= now_of s + 2 * slack).
Proof.
  intros H Hr Hd Hn Hk Hh Hl Hm. pose proof slack_small as Sl. unfold Timeouts.lwip_cyclic_timer. rewrite Hl. cbn [handler interval_ms].
  eapply returns_bind; [apply in_world_returns, handlers_ok; [exact Hm | apply (tk_world _ _ H)] |].
  intros [] s1 (w1 & -> & R1 & O1 & C1). eapply returns_bind; [apply sys_now_returns; exact O1 |].
  intros t s2 (w2 & -> & R2 & O2 & C2 & ->). 
  cbn [now_of moved popped world] in C1, C2. change (clock (world s)) with (now_of s) in C1. unfold now_of in C2. cbn [world moved popped] in C2.
  set (y := mk_timer (next_due 1000 (due x) (clock w2)) (key x)).
  destruct (next_due_later 1000 now (clock w2) (due x) (clock w2)) as (_ & N & _); [lia | lia | lia |].
  assert (Near : Forall (near y) rest).
  { apply (resched_near now (clock w2) x); try assumption; try lia.
    eapply Forall_impl; [apply (tk_soon _ _ H) |]. cbn. lia. }
  assert (E : (if due x + 1000 <? clock w2 then sys_timeout_abs (u32 (clock w2 + 1000)) h_lwip_cyclic_timer i
               else sys_timeout_abs (u32 (due x + 1000)) h_lwip_cyclic_timer i) =
              sys_timeout_abs (W := W) (u32 (due y)) (fst (key y)) (snd (key y))).
  { unfold y, next_due. cbn [due key]. rewrite Hk. cbn [fst snd cyclic]. now destruct (_ <? _). }
  eapply returns_done.
  { unfold bind, get. cbn [current_timeout_due_time moved popped]. rewrite !u32_add.
    rewrite time_less_than by (apply Forall_cons in Hr as [Hx _]; cbn in Hx; lia). rewrite E.
    apply (sys_timeout_abs_run y rest) with (n := pool_free s); [reflexivity | exact Near | reflexivity]. }
  exists (clock w2), w2. cbn. split; [reflexivity |]. split; [| repeat split; auto; lia].
  rewrite Hk. eapply acts_call; [exact Hh | exact R1 |]. eapply acts_tick; [exact R2 |]. constructor.
Qed.

Lemma inserted_ok s x rest d w t e : timers_ok s (x :: rest) -> world_ok w -> now_of s <= clock w -> d <= clock w + 1000 ->
  let ts' := insert_due (mk_timer d (key x)) rest in
  timers_ok (mk_timers (conc <$> ts') t (tcpip_tcp_timer_active s) (pool_free s) w e) ts'.
Proof.
  intros [H1 H2 H3 H4 H5 H6] Hw Hc Hd ts'. assert (P : ts' ≡ₚ mk_timer d (key x) :: rest) by apply insert_due_perm.
  inversion H2; subst. split; cbn [next_timeout tcpip_tcp_timer_active pool_free world]; auto.
  - now apply insert_due_sorted.
  - rewrite P. exact H3.
  - rewrite P. exact H4.
  - rewrite P. apply Forall_cons in H5 as [_ H5]. unfold now_of. cbn [world]. constructor; [cbn; lia |].
    eapply Forall_impl; [exact H5 |]. cbn. unfold now_of in *. lia.
Qed.

(** The timer of TCP goes off. *)
Lemma removed_ok s x rest w t e : timers_ok s (x :: rest) -> key x = tcp_key -> world_ok w -> now_of s <= clock w ->
  timers_ok (mk_timers (conc <$> rest) t false (S (pool_free s)) w e) rest.
Proof.
  intros H Hk Hw Hc. destruct (key_cases s x rest H) as [[E | E] | [_ Ha]]; [rewrite Hk in E; discriminate E | rewrite Hk in E; discriminate E |].
  destruct H as [H1 H2 H3 H4 H5 H6]. inversion H2; subst. apply Forall_cons in H5 as [_ H5].
  split; cbn [next_timeout tcpip_tcp_timer_active pool_free world]; auto.
  - rewrite Ha in H3. cbn in H3. rewrite Hk in H3. unfold keys. cbn.
    apply (Permutation_cons_inv (a := tcp_key)). rewrite H3. change [cyclic 1; cyclic 2; tcp_key] with ([cyclic 1; cyclic 2] ++ [tcp_key]).
    now rewrite Permutation_app_comm.
  - cbn [length] in H4. lia.
  - eapply Forall_impl; [exact H5 |]. cbn. unfold now_of in *. cbn [world]. lia.
Qed.

Lemma tcp_step now x rest s : timers_ok s (x :: rest) -> recent now (x :: rest) -> now <= now_of s ->
  now_of s <= now + 50000000 -> key x = tcp_key ->
  returns tcpip_tcp_timer (popped x rest s) (fun _ s' => exists w, 
    acts (world s) [tcp_key] w /\ world_ok w /\ now_of s <= clock w <= now_of s + 2 * slack /\
    ((exists r, now_of s <= r <= clock w /\
      let ts' := insert_due (mk_timer (r + 250) (key x)) rest in
      s' = mk_timers (conc <$> ts') (u32 (due x)) (tcpip_tcp_timer_active s) (pool_free s) w (expired s ++ [conc x])) \/
     s' = mk_timers (conc <$> rest) (u32 (due x)) false (S (pool_free s)) w (expired s ++ [conc x]))).
Proof.
  intros H Hr Hd Hn Hk. pose proof slack_small as Sl. unfold Timeouts.tcpip_tcp_timer.
  eapply returns_bind; [apply in_world_returns, handlers_ok; [| apply (tk_world _ _ H)]; apply list_elem_of_here |].
  intros [] s1 (w1 & -> & R1 & O1 & C1). unfold returns. unfold bind at 1. unfold get.
  cbn [now_of moved popped world] in C1. change (clock (world s)) with (now_of s) in C1.
  destruct (tcp_pcbs _).
  - unfold Timeouts.sys_timeout. change (TCP_TMR_INTERVAL <=? LWIP_UINT32_MAX / 4) with true. cbn [LWIP_ASSERT_timers].
    rewrite (bind_done _ _ tt _ _ (eq_refl : ret tt _ = _)).
    eapply returns_bind; [apply sys_now_returns; exact O1 |]. intros t s2 (w2 & -> & R2 & O2 & C2 & ->).
    unfold now_of in C2. cbn [world moved popped] in C2. rewrite u32_add.
    set (y := mk_timer (clock w2 + TCP_TMR_INTERVAL) tcp_key).
    eapply returns_done.
    { apply (sys_timeout_abs_run y rest) with (n := pool_free s); [reflexivity | | reflexivity].
      unfold y, TCP_TMR_INTERVAL. apply (resched_near now (clock w2) x); try assumption; try lia.
      eapply Forall_impl; [apply (tk_soon _ _ H) |]. cbn. lia. }
    exists w2. split; [| split; [exact O2 | split; [lia | left]]].
    + eapply acts_call; [reflexivity | exact R1 |]. eapply acts_tick; [exact R2 |]. constructor.
    + exists (clock w2). split; [lia |]. unfold y. rewrite Hk. reflexivity.
  - cbn. exists w1. split; [| split; [exact O1 | split; [lia | right; reflexivity]]].
    eapply acts_call; [reflexivity | exact R1 | constructor].
Qed.

(** One turn of the loop: the first timer's handler is called, and it is scheduled again or not. *)
Lemma call_step now x rest s : timers_ok s (x :: rest) -> recent now (x :: rest) -> due x <= now <= now_of s ->
  now_of s <= now + 50000000 ->
  returns (call_handler (fst (key x)) (snd (key x))) (popped x rest s) (fun _ s' => exists ts',
    timers_ok s' ts' /\ rescheduled x rest ts' (now_of s) (now_of s') /\ now_of s <= now_of s' <= now_of s + 2 * slack /\
    acts (world s) [key x] (world s') /\ expired s' = expired s ++ [conc x]).
Proof.
  intros H Hr Hd Hn. destruct (key_cases s x rest H) as [K | [K Ha]].
  - assert (S : exists i m, key x = cyclic i /\ handler_of (cyclic i) = Some m /\
      lwip_cyclic_timers tcp_tmr ip_reass_tmr etharp_tmr !! i = Some (mk_cyclic 1000 m) /\ m ∈ [tcp_tmr; ip_reass_tmr; etharp_tmr]).
    { destruct K as [K | K]; rewrite K; [exists 1%nat, ip_reass_tmr | exists 2%nat, etharp_tmr]; repeat split.
      - apply list_elem_of_further, list_elem_of_here.
      - do 2 apply list_elem_of_further. apply list_elem_of_here. }
    destruct S as (i & m & Ki & S1 & S2 & S3).
    eapply returns_mono; [rewrite Ki; cbn [fst snd cyclic Timeouts.call_handler]; now apply (cyclic_step now x rest s i m) |].
    intros [] s' (r & w & -> & A & O & -> & C). eexists. split; [| split; [| split; [| split; [exact A | reflexivity]]]].
    + apply inserted_ok; auto; [lia |]. destruct (next_due_later 1000 now (clock w) (due x) (clock w)); lia.
    + eapply (resched_cyclic _ _ _ _ _ (clock w)); [now rewrite Ki | cbn; unfold now_of in *; cbn; lia | reflexivity].
    + unfold now_of in *. cbn. lia.
  - eapply returns_mono; [rewrite K; cbn [fst snd tcp_key Timeouts.call_handler]; now apply (tcp_step now x rest s); try lia |].
    intros [] s' (w & A & O & C & [(r & Hr' & ->) | ->]); eexists;
      (split; [| split; [| split; [| split; [rewrite K; exact A | reflexivity]]]]);
      try (unfold now_of in *; cbn; lia).
    + apply inserted_ok; auto; lia.
    + eapply (resched_tcp _ _ _ _ _ r); [exact K | unfold now_of in *; cbn; lia | reflexivity].
    + eapply removed_ok; eauto. lia.
    + now apply resched_off.
Qed.

(** ** The loop *)

(** How often a timer can still fire in a check that began at [now]. *)
Definition weight (now : Z) (t : timer) : nat :=
  if decide (key t = tcp_key) then (if due t <=? now then 1 else 0)
  else if due t <? now then 2 else if due t =? now then 1 else 0.

Definition total_weight (now : Z) (ts : list timer) : nat := sum_list_with (weight now) ts.

Lemma insert_weight now x l : total_weight now (insert_due x l) = (weight now x + total_weight now l)%nat.
Proof.
  induction l as [| y l IH]; cbn; [lia |]. destruct (_ <? _); cbn in *; [lia |]. unfold total_weight in *. lia.
Qed.

Lemma rescheduled_weight now x rest ts' lo hi : rescheduled x rest ts' lo hi -> due x <= now <= lo ->
  (total_weight now ts' < total_weight now (x :: rest))%nat.
Proof.
  intros H Hd. cbn [total_weight sum_list_with]. fold (total_weight now rest).
  destruct H as [r Hk Hr -> | r Hk Hr -> | Hk ->]; rewrite ?insert_weight; unfold weight; cbn [key due].
  - rewrite !(decide_False (P := key x = tcp_key)) by (intros E; rewrite E in Hk; discriminate).
    destruct (next_due_later 1000 now hi (due x) r) as (N1 & N2 & N3); [lia | lia | lia |].
    destruct (Z.ltb_spec (due x) now), (Z.ltb_spec (next_due 1000 (due x) r) now); try lia;
      destruct (Z.eqb_spec (due x) now), (Z.eqb_spec (next_due 1000 (due x) r) now); lia.
  - rewrite !decide_True by exact Hk. rewrite (proj2 (Z.leb_le (due x) now)), (proj2 (Z.leb_gt (r + 250) now)) by lia. lia.
  - rewrite decide_True by exact Hk. rewrite (proj2 (Z.leb_le _ _)) by lia. lia.
Qed.

Lemma weight_bound now s ts : timers_ok s ts -> (total_weight now ts <= 5)%nat.
Proof.
  intros H. assert (P : forall l, (total_weight now l <= sum_list_with (fun k => if decide (k = tcp_key) then 1 else 2) (key <$> l))%nat).
  { induction l as [| t l IH]; [reflexivity |]. cbn [total_weight sum_list_with fmap list_fmap]. apply Nat.add_le_mono; [| exact IH].
    unfold weight. cbv beta. destruct (decide (key t = tcp_key)); repeat case_match; lia. }
  etransitivity; [apply P |]. rewrite (tk_keys _ _ H). destruct (tcpip_tcp_timer_active s); vm_compute; repeat constructor.
Qed.

(** The times at which the timer [k] is among [l]. *)
Definition times_of (k : sys_timeout_handler * nat) (l : list timer) : list Z := due <$> filter (fun t => key t = k) l.

(** What a check that begins at [now] does to the timers [ts]: [fired] are the ones whose handlers it calls. *)
Record checked (now : Z) (s : timers W) (ts : list timer) (s' : timers W) (ts' fired : list timer) : Prop := {
  ch_ok : timers_ok s' ts';
  ch_time : now_of s <= now_of s' <= now + 10000000;
  ch_acts : acts (world s) (key <$> fired) (world s');
  ch_expired : expired s' = expired s ++ (conc <$> fired);
  ch_left : Forall (fun t => now < due t) ts';
  ch_fired : Forall (fun t => due t <= now) fired;
  ch_order : StronglySorted due_le fired;
  ch_count : (length fired <= total_weight now ts)%nat;
  ch_after : forall b, Forall (fun t => b <= due t) ts -> Forall (fun t => b <= due t) fired;
  ch_cyclic : forall i d, mk_timer d (cyclic i) ∈ ts -> exists d', mk_timer d' (cyclic i) ∈ ts' /\
      fires 1000 now (now_of s') d (times_of (cyclic i) fired) d'
}.

(** The timers of a sorted list are all due after its first one. *)
Lemma none_due now s x rest : timers_ok s (x :: rest) -> now < due x -> Forall (fun t => now < due t) (x :: rest).
Proof.
  intros H Hd. pose proof (tk_sorted _ _ H) as S. inversion S as [| ? ? ? Hx]; subst. constructor; [exact Hd |].
  eapply Forall_impl; [exact Hx |]. unfold due_le. cbn. lia.
Qed.

Lemma checked_nothing now s ts : timers_ok s ts -> now_of s <= now + 10000000 -> Forall (fun t => now < due t) ts ->
  checked now s ts s ts [].
Proof.
  intros H Hn Hl. split; auto.
  - lia.
  - constructor.
  - now rewrite app_nil_r.
  - constructor.
  - cbn. lia.
  - intros i d Hd. exists d. split; [exact Hd |]. constructor. rewrite Forall_forall in Hl. apply (Hl _ Hd).
Qed.

Lemma times_of_ne k x l : key x <> k -> times_of k (x :: l) = times_of k l.
Proof. intros H. unfold times_of. now rewrite filter_cons_False. Qed.
Lemma times_of_eq x l : times_of (key x) (x :: l) = due x :: times_of (key x) l.
Proof. unfold times_of. now rewrite filter_cons_True. Qed.

(** A turn of the loop, then the rest of it. *)
Lemma checked_step now x rest s ts1 s1 s' ts' fired : timers_ok s (x :: rest) -> due x <= now <= now_of s ->
  rescheduled x rest ts1 (now_of s) (now_of s1) -> now_of s <= now_of s1 -> acts (world s) [key x] (world s1) ->
  expired s1 = expired s ++ [conc x] -> timers_ok s1 ts1 ->
  checked now s1 ts1 s' ts' fired -> checked now s (x :: rest) s' ts' (x :: fired).
Proof.
  intros H Hd Hre Hc Ha He H1 [C1 C2 C3 C4 C5 C6 C7 CC C8 C9].
  pose proof (rescheduled_weight now x rest ts1 _ _ Hre ltac:(lia)) as Wt.
  pose proof (tk_sorted _ _ H) as S. inversion S as [| ? ? Sr Hx]; subst.
  assert (Later : forall b, Forall (fun t => b <= due t) (x :: rest) -> Forall (fun t => b <= due t) ts1).
  { intros b Hb. apply Forall_cons in Hb as [Hbx Hb]. destruct Hre as [r Hk Hr -> | r Hk Hr -> | Hk ->]; [| | exact Hb];
      rewrite insert_due_perm; (constructor; [cbn | exact Hb]); [| lia].
    destruct (next_due_later 1000 now (now_of s1) (due x) r); lia. }
  split; auto.
  - lia.
  - apply (acts_app _ [key x] (world s1)); assumption.
  - rewrite C4, He, <- app_assoc. reflexivity.
  - constructor; [lia | exact C6].
  - constructor; [exact C7 |]. apply C8, Later. constructor; [lia |]. exact Hx.
  - cbn [length]. lia.
  - intros b Hb. constructor; [now apply Forall_cons in Hb as [? _] | apply C8, Later, Hb].
  - intros i d Hi. apply elem_of_cons in Hi as [E | Hi].
    + subst x. destruct Hre as [r Hk Hr -> | r Hk _ _ | Hk _]; [| discriminate | discriminate]. cbn [key due fst] in *.
      destruct (C9 i (next_due 1000 d r)) as (d' & Hd' & F); [rewrite insert_due_perm; apply list_elem_of_here |].
      exists d'. split; [exact Hd' |]. rewrite (times_of_eq (mk_timer d (cyclic i))). cbn [due key].
      apply fires_once with r; [lia | lia | exact F].
    + assert (N : key x <> cyclic i).
      { intros E. pose proof (tk_keys _ _ H) as K. cbn in K. assert (ND : NoDup (keys (tcpip_tcp_timer_active s))).
        { destruct (tcpip_tcp_timer_active s); cbn; repeat (constructor; [rewrite ?elem_of_cons, ?elem_of_nil; intuition discriminate |]); constructor. }
        rewrite <- K in ND. inversion ND as [| ? ? Nin _]. apply Nin. rewrite E. 
        apply list_elem_of_fmap. now exists (mk_timer d (cyclic i)). }
      rewrite times_of_ne by exact N. apply C9. destruct Hre as [r Hk Hr -> | r Hk Hr -> | Hk ->]; [| | exact Hi];
        rewrite insert_due_perm; now apply list_elem_of_further.
Qed.

Lemma rescheduled_recent now x rest ts' s s1 : rescheduled x rest ts' (now_of s) (now_of s1) -> due x <= now <= now_of s ->
  now_of s <= now_of s1 -> recent now (x :: rest) -> recent now ts'.
Proof.
  intros H Hd Hn Hr. apply Forall_cons in Hr as [_ Hr]. destruct H as [r Hk Hlo -> | r Hk Hlo -> | Hk ->]; [| | exact Hr];
    unfold recent; rewrite insert_due_perm; (constructor; [cbn | exact Hr]); [| lia].
  destruct (next_due_later 1000 now (now_of s1) (due x) r); lia.
Qed.

Lemma check_loop_checks now : forall fuel s ts, timers_ok s ts -> recent now ts -> now <= now_of s ->
  now_of s + 2 * slack * Z.of_nat (total_weight now ts) <= now + 10000000 -> (total_weight now ts < fuel)%nat ->
  returns (check_loop fuel (u32 now)) s (fun _ s' => exists ts' fired, checked now s ts s' ts' fired).
Proof.
  pose proof slack_small as Sl.
  induction fuel as [| fuel IH]; intros s ts H Hr Hn Hb Hf; [lia |].
  cbn [Timeouts.check_loop]. unfold returns. unfold bind at 1, get.
  rewrite (tk_list _ _ H). destruct ts as [| x rest]; cbn [fmap list_fmap].
  { exists [], []. apply checked_nothing; auto. lia. }
  assert (Hx : -2147483648 <= now - due x < 2147483648).
  { pose proof (tk_soon _ _ H) as S. apply Forall_cons in S as [S _]. apply Forall_cons in Hr as [Hr _]. cbn in S, Hr. lia. }
  cbn [timeo_time conc]. rewrite time_less_than by exact Hx.
  destruct (Z.ltb_spec now (due x)) as [Hd | Hd].
  { exists (x :: rest), []. apply checked_nothing; auto; [lia |]. now apply none_due with s. }
  change (list_fmap _ _ conc rest) with (conc <$> rest).
  unfold bind at 1, modify.
  change (mk_timers (conc <$> rest) (u32 (due x)) (tcpip_tcp_timer_active s) (S (pool_free s)) (world s) (expired s ++ [conc x]))
    with (popped x rest s).
  eapply returns_bind; [apply (call_step now x rest s H Hr); lia |].
  intros [] s1 (ts1 & H1 & Re & C1 & A1 & E1).
  pose proof (rescheduled_weight now x rest ts1 _ _ Re ltac:(lia)) as Wt.
  eapply returns_mono; [apply (IH s1 ts1); try assumption; try lia |].
  - now apply (rescheduled_recent now x rest ts1 s s1).
  - nia.
  - intros [] s' (ts' & fired & C). exists ts', (x :: fired). now apply (checked_step now x rest s ts1 s1).
Qed.

Lemma moved_ok w s ts : timers_ok s ts -> world_ok w -> now_of s <= clock w -> timers_ok (moved w s) ts.
Proof.
  intros [H1 H2 H3 H4 H5 H6] Hw Hc. split; auto. eapply Forall_impl; [exact H5 |]. unfold now_of in *. cbn. lia.
Qed.

(** ** What callers see *)

Lemma check_spec (fuel : nat) (s : timers W) (ts : list timer) : timers_ok s ts ->
  Forall (fun t => now_of s - 1000000000 <= due t) ts -> (6 <= fuel)%nat ->
  returns (sys_check_timeouts fuel) s (fun _ s' => exists now w ts' fired,
    now_of s <= now <= now_of s + slack /\ HAL_GetTick (world s) = Done (u32 now) w /\
    now = clock w /\ checked now (moved w s) ts s' ts' fired /\ (length fired <= 5)%nat).
Proof.
  intros H Hl Hf. pose proof slack_small as Sl. unfold Timeouts.sys_check_timeouts.
  eapply returns_bind; [apply sys_now_returns, (tk_world _ _ H) |]. intros t s1 (w & -> & R & O & C & ->).
  assert (H1 : timers_ok (moved w s) ts) by (apply moved_ok; auto; lia).
  pose proof (weight_bound (clock w) _ _ H1) as Hw.
  eapply returns_mono; [apply (check_loop_checks (clock w) fuel (moved w s) ts H1); try (unfold now_of; cbn [world moved]; lia) |].
  - eapply Forall_impl; [exact Hl |]. cbv beta. intros t Ht. lia.
  - unfold now_of. cbn [world moved]. nia.
  - intros [] s' (ts' & fired & Ck). exists (clock w), w, ts', fired. pose proof (ch_count _ _ _ _ _ _ Ck).
    split; [exact C | split; [exact R | split; [reflexivity | split; [exact Ck | lia]]]].
Qed.
(** C18: [sys_check_timeouts] returns, after at most five calls of handlers, if no timer is more than 11 days late: it has
    called, in the order of their due times, the handlers of all timers due at the time of its call, and
    of no other; whatever is scheduled afterwards is due later, within a second, and the list is sorted again.
    Times may wrap around. *)
Theorem sys_check_timeouts_checks (fuel : nat) (s : timers W) (ts : list timer) : timers_ok s ts ->
  Forall (fun t => now_of s - 1000000000 <= due t) ts -> (6 <= fuel)%nat ->
  returns (sys_check_timeouts fuel) s (fun _ s' => exists now w ts' fired,
    now_of s <= now <= now_of s + slack /\ HAL_GetTick (world s) = Done (u32 now) w /\
    checked now (moved w s) ts s' ts' fired /\ (length fired <= 5)%nat).
Proof.
  intros H Hl Hf. eapply returns_mono; [now apply (check_spec fuel s ts) |].
  intros [] s' (now & w & ts' & fired & H1 & H2 & _ & H4). exists now, w, ts', fired. auto.
Qed.

(** C19: while no timer is more than eleven days late, a cyclic timer keeps its rhythm as long as it is checked in
    time, and does not make up for calls it has missed: not due,
    it is left alone; due, and checked before it is due again, it fires once and is next due a second after it
    was due, not after it was checked; more than a second late, it fires once and is next due a second after the check. *)
Theorem cyclic_timer_rhythm (fuel : nat) (s : timers W) (ts : list timer) (i : nat) (d : Z) : timers_ok s ts ->
  Forall (fun t => now_of s - 1000000000 <= due t) ts -> (6 <= fuel)%nat -> mk_timer d (cyclic i) ∈ ts ->
  returns (sys_check_timeouts fuel) s (fun _ s' => exists ts' fired d',
    timers_ok s' ts' /\ expired s' = expired s ++ (conc <$> fired) /\ mk_timer d' (cyclic i) ∈ ts' /\
    (now_of s' < d -> times_of (cyclic i) fired = [] /\ d' = d) /\
    (d <= now_of s -> now_of s' < d + 1000 -> times_of (cyclic i) fired = [d] /\ d' = d + 1000) /\
    (d + 1000 < now_of s -> times_of (cyclic i) fired = [d] /\ now_of s + 1000 <= d' <= now_of s' + 1000)).
Proof.
  intros H Hl Hf Hd.
  eapply returns_mono; [apply (check_spec fuel s ts H Hl Hf) |].
  intros [] s' (now & w & ts' & fired & Hn & _ & E & C & _). destruct (ch_cyclic _ _ _ _ _ _ C i d Hd) as (d' & Hd' & F).
  pose proof (ch_time _ _ _ _ _ _ C) as T. change (now_of (moved w s)) with (clock w) in T. rewrite <- E in T.
  exists ts', fired, d'. split; [apply C | split; [apply C | split; [exact Hd' | split; [| split]]]].
  - intros K. destruct (fires_spec 1000 now (now_of s') d _ d' eq_refl F) as (_ & _ & _ & N & _). apply N. lia.
  - intros K1 K2. apply (fires_punctual 1000 now (now_of s')); lia || exact F.
  - intros K. destruct (fires_late 1000 now (now_of s') d _ d' ltac:(lia) F ltac:(lia)). split; [assumption | lia].
Qed.

(** ** Scheduling *)

Lemma sys_timeout_spec msecs k s ts n : world_ok (world s) -> next_timeout s = conc <$> ts -> 0 <= msecs <= 1073741823 ->
  Forall (fun t => now_of s - 1000000000 <= due t <= now_of s + 1000000000) ts -> pool_free s = S n ->
  returns (sys_timeout msecs (fst k) (snd k)) s (fun _ s' => exists w,
    s' = set_next_timeout (conc <$> insert_due (mk_timer (clock w + msecs) k) ts) n (moved w s) /\
    HAL_GetTick (world s) = Done (u32 (clock w)) w /\ world_ok w /\ now_of s <= clock w <= now_of s + slack).
Proof.
  intros Hw E Hm Hn Hp. pose proof slack_small as Sl. unfold Timeouts.sys_timeout. change (LWIP_UINT32_MAX / 4) with 1073741823.
  rewrite (proj2 (Z.leb_le _ _)) by lia. cbn [LWIP_ASSERT_timers]. unfold returns. rewrite (bind_done (ret tt) _ tt s s eq_refl).
  eapply returns_bind; [apply sys_now_returns, Hw |]. intros t s1 (w & -> & R & O & C & ->). rewrite u32_add.
  eapply returns_done; [apply (sys_timeout_abs_run (mk_timer (clock w + msecs) k) ts (moved w s) n E); [| exact Hp] | eauto 8].
  eapply Forall_impl; [exact Hn |]. cbv beta. intros y Hy. unfold near. cbn [due]. lia.
Qed.

(** a timeout is scheduled behind all that are due no later, whether or not the counter has wrapped around, if no timer is
    more than 11 days away from now; a timeout of more than 2^32 / 4 milliseconds, or one for which there is
    no element, fails an assertion. *)
Theorem sys_timeout_schedules (msecs : Z) (k : sys_timeout_handler * nat) (s : timers W) (ts : list timer) : world_ok (world s) ->
  next_timeout s = conc <$> ts -> StronglySorted due_le ts -> 0 <= msecs ->
  Forall (fun t => now_of s - 1000000000 <= due t <= now_of s + 1000000000) ts ->
  if (LWIP_UINT32_MAX / 4 <? msecs) || (pool_free s =? 0)%nat then sys_timeout msecs (fst k) (snd k) s = Halted
  else returns (sys_timeout msecs (fst k) (snd k)) s (fun _ s' => exists r l1 l2,
    now_of s <= r <= now_of s + slack /\ ts = l1 ++ l2 /\
    next_timeout s' = conc <$> (l1 ++ mk_timer (r + msecs) k :: l2) /\
    Forall (fun y => due y <= r + msecs) l1 /\ Forall (fun y => r + msecs < due y) l2 /\ pool_free s = S (pool_free s')).
Proof.
  intros Hw E Hs Hm Hn. change (LWIP_UINT32_MAX / 4) with 1073741823. destruct (Z.ltb_spec 1073741823 msecs) as [L | L]; cbn [orb].
  { unfold Timeouts.sys_timeout. change (LWIP_UINT32_MAX / 4) with 1073741823. rewrite (proj2 (Z.leb_gt _ _)) by lia. reflexivity. }
  destruct (pool_free s) as [| n] eqn:Ep; cbn [Nat.eqb].
  - unfold Timeouts.sys_timeout. change (LWIP_UINT32_MAX / 4) with 1073741823. rewrite (proj2 (Z.leb_le _ _)) by lia.
    cbn [LWIP_ASSERT_timers]. rewrite (bind_done (ret tt) _ tt s s eq_refl).
    destruct (returns_exists _ _ _ (sys_now_returns s Hw)) as (t & s1 & O & w & -> & _).
    rewrite (bind_done _ _ _ _ _ O). unfold sys_timeout_abs. cbn [pool_free moved]. now rewrite Ep.
  - eapply returns_mono; [apply (sys_timeout_spec msecs k s ts n); auto; lia |]. intros [] s' (w & -> & _ & _ & C).
    destruct (insert_due_split (mk_timer (clock w + msecs) k) ts Hs) as (l1 & l2 & -> & El & F1 & F2).
    exists (clock w), l1, l2. rewrite <- El. cbn [next_timeout pool_free set_next_timeout]. auto 8.
Qed.

(** [sys_timeouts_init] schedules the timers of reassembly and address resolution, a second from now; TCP starts its own. *)
Lemma sys_timeouts_init_ok w : world_ok w ->
  returns (sys_timeouts_init HAL_GetTick tcp_tmr ip_reass_tmr etharp_tmr) (timers_reset w) (fun _ s' => exists ts,
    timers_ok s' ts /\ Forall (fun t => clock w + 1000 <= due t) ts /\ expired s' = [] /\ clock w <= now_of s' <= clock w + 2 * slack).
Proof.
  intros Hw. pose proof slack_small as Sl. unfold sys_timeouts_init. cbn [drop lwip_cyclic_timers sys_timeouts_init_loop interval_ms].
  eapply returns_bind; [apply (sys_timeout_spec 1000 (cyclic 1) (timers_reset w) [] 2 Hw eq_refl ltac:(lia) (Forall_nil_2 _) eq_refl) |].
  intros [] s1 (w1 & -> & R1 & O1 & C1). set (t1 := mk_timer (clock w1 + 1000) (cyclic 1)). cbn [timers_reset world] in R1.
  change (now_of (timers_reset w)) with (clock w) in C1.
  assert (N : Forall (fun t => clock w1 - 1000000000 <= due t <= clock w1 + 1000000000) [t1]).
  { constructor; [cbn; lia | constructor]. }
  eapply returns_bind; [apply (sys_timeout_spec 1000 (cyclic 2) (set_next_timeout [conc t1] 2 (moved w1 (timers_reset w))) [t1] 1 O1 eq_refl ltac:(lia) N eq_refl) |].
  intros [] s2 (w2 & -> & R2 & O2 & C2). set (t2 := mk_timer (clock w2 + 1000) (cyclic 2)). cbn in R2.
  change (now_of _) with (clock w1) in C2.
  assert (E : insert_due t2 [t1] = [t1; t2]) by (cbn; rewrite (proj2 (Z.ltb_ge _ _)) by lia; reflexivity).
  exists [t1; t2]. rewrite E. split; [split | split; [| split]]; cbn; auto.
  - repeat constructor. unfold due_le. cbn. lia.
  - repeat constructor; unfold now_of; cbn; lia.
  - repeat constructor; cbn; lia.
  - unfold now_of. cbn [world set_next_timeout moved]. lia.
Qed.

(** A PCB of TCP starts TCP's timer. *)
Lemma tcp_timer_needed_ok s ts : timers_ok s ts -> Forall (fun t => now_of s - 1000000000 <= due t) ts ->
  returns (tcp_timer_needed HAL_GetTick tcp_pcbs) s (fun _ s' => exists ts', timers_ok s' ts' /\ expired s' = expired s).
Proof.
  intros H Hl. pose proof slack_small as Sl. unfold tcp_timer_needed. unfold returns. unfold bind at 1, get.
  destruct (negb (tcpip_tcp_timer_active s) && _) eqn:Ea; [| cbn; eauto].
  apply andb_true_iff in Ea as [Ea _]. apply negb_true_iff in Ea.
  pose proof (tk_keys _ _ H) as K. rewrite Ea in K. pose proof (tk_pool _ _ H) as P.
  assert (L : length ts = 2%nat) by (rewrite <- (length_fmap key), K; reflexivity). rewrite L in P.
  assert (Ep : pool_free s = 1%nat) by (unfold MEMP_NUM_SYS_TIMEOUT in P; lia).
  rewrite (bind_done (modify (set_tcp_active true)) _ tt s (set_tcp_active true s) eq_refl).
  eapply returns_mono; [apply (sys_timeout_spec 250 tcp_key (set_tcp_active true s) ts 0 (tk_world _ _ H) (tk_list _ _ H) ltac:(lia)) |]; auto.
  - apply Forall_and. split; [exact Hl |]. eapply Forall_impl; [apply (tk_soon _ _ H) |]. cbv beta. change (now_of (set_tcp_active true s)) with (now_of s). lia.
  - intros [] s' (w & -> & R & O & C). change (now_of (set_tcp_active true s)) with (now_of s) in C.
    exists (insert_due (mk_timer (clock w + 250) tcp_key) ts). split; [| reflexivity].
    destruct H as [H1 H2 H3 H4 H5 H6]. split; cbn [set_next_timeout moved set_tcp_active next_timeout tcpip_tcp_timer_active pool_free world]; auto.
    + now apply insert_due_sorted.
    + rewrite insert_due_perm. cbn. rewrite K. change [cyclic 1; cyclic 2; tcp_key] with ([cyclic 1; cyclic 2] ++ [tcp_key]).
      now rewrite Permutation_app_comm.
    + rewrite insert_due_perm. cbn. rewrite L. reflexivity.
    + rewrite insert_due_perm. unfold now_of at 1. cbn [world moved set_tcp_active set_next_timeout]. constructor; [cbn; lia |].
      eapply Forall_impl; [exact H5 |]. cbv beta. intros y Hy. unfold now_of in *. cbn [world]. lia.
Qed.

(** [sys_timeouts_sleeptime]: the time until the first timer is due, 0 if it is overdue. *)
Lemma sys_timeouts_sleeptime_returns s x rest : timers_ok s (x :: rest) -> now_of s - 1000000000 <= due x ->
  returns (sys_timeouts_sleeptime HAL_GetTick) s (fun r s' => r = Z.max 0 (due x - now_of s') /\ timers_ok s' (x :: rest) /\
    now_of s <= now_of s' <= now_of s + slack).
Proof.
  intros H Hl. pose proof slack_small as Sl. unfold sys_timeouts_sleeptime. unfold returns. unfold bind at 1, get.
  rewrite (tk_list _ _ H). cbn [fmap list_fmap].
  pose proof (tk_soon _ _ H) as S. apply Forall_cons in S as [S _].
  eapply returns_bind; [apply sys_now_returns, (tk_world _ _ H) |]. intros t s1 (w & -> & R & O & C & ->).
  assert (Ok : timers_ok (moved w s) (x :: rest)) by (apply moved_ok; auto; lia).
  cbn [timeo_time conc]. rewrite time_less_than by lia. unfold returns. change (now_of (moved w s)) with (clock w).
  destruct (Z.ltb_spec (due x) (clock w)); [unfold ret; split; [change (now_of (moved w s)) with (clock w); lia | auto] |].
  assert (E : u32 (u32 (due x) - u32 (clock w)) = due x - clock w).
  { unfold u32. rewrite <- Zminus_mod, Z.mod_small; lia. }
  rewrite E. cbn zeta. unfold LWIP_MAX_TIMEOUT. rewrite (proj2 (Z.leb_le _ _)) by lia. unfold LWIP_ASSERT_timers, bind, ret. split; [change (now_of (moved w s)) with (clock w); lia | auto].
Qed.
End Timers.

(** * Instances *)

(** A clock that stands still, and handlers that do nothing. *)
Definition ex_tick : prog Z Z := fun now => Done (u32 now) now.

#[local] Instance ex_clock : TimerHost ex_tick (ret tt) (ret tt) (ret tt).
Proof.
  refine {| world_ok := fun _ => True; clock := fun now => now; slack := 0 |}.
  - lia.
  - intros w _. cbn. auto with lia.
  - intros m w Hm _. rewrite !elem_of_cons, elem_of_nil in Hm. destruct Hm as [-> | [-> | [-> | []]]]; cbn; auto with lia.
Defined.

(** The counter wraps around between the two due times. *)
Definition ex_due : list timer := [mk_timer 4294966796 (cyclic 2); mk_timer 4294967496 (cyclic 1)].
Definition ex_state (now : Z) : timers Z := mk_timers (conc <$> ex_due) 0 false 1 now [].

Lemma ex_state_ok now : 4294966496 <= now -> timers_ok ex_tick (ret tt) (ret tt) (ret tt) (ex_state now) ex_due.
Proof.
  intros H. split; try reflexivity.
  - repeat constructor. unfold due_le. cbn. lia.
  - apply Permutation_swap.
  - unfold now_of. cbn. repeat constructor; cbn; lia.
Qed.

Lemma ex_recent now : now <= 4294968296 -> Forall (fun t => now_of ex_tick (ret tt) (ret tt) (ret tt) (ex_state now) - 1000000000 <= due t) ex_due.
Proof. intros H. unfold now_of. cbn. repeat constructor; cbn; lia. Qed.

#[local] Abbreviation ex_check := (sys_check_timeouts ex_tick (ret tt) (ret tt) (ret tt) (fun _ => false) 6).

(** At 4294967396, when the counter is at 100, the first timer is 600 milliseconds late and the second not due. *)
Lemma sys_check_timeouts_checks_witness :
  returns ex_check (ex_state 4294967396) (fun _ s' => exists now w ts' fired,
    checked ex_tick (ret tt) (ret tt) (ret tt) now (moved w (ex_state 4294967396)) ex_due s' ts' fired) /\
  TIME_LESS_THAN (u32 4294967396) (u32 4294966796) = false.
Proof.
  split; [| reflexivity].
  eapply returns_mono; [apply (sys_check_timeouts_checks ex_tick (ret tt) (ret tt) (ret tt) (fun _ => false) 6 (ex_state 4294967396) ex_due);
    [apply ex_state_ok; lia | apply ex_recent; lia | lia] |].
  intros _ s' (now & w & ts' & fired & _ & _ & C & _). eauto.
Defined.

Lemma cyclic_timer_rhythm_witness :
  returns ex_check (ex_state 4294967396) (fun _ s' => exists ts' fired d',
    timers_ok ex_tick (ret tt) (ret tt) (ret tt) s' ts' /\ mk_timer d' (cyclic 2) ∈ ts' /\
    (now_of ex_tick (ret tt) (ret tt) (ret tt) s' < 4294967796 -> times_of (cyclic 2) fired = [4294966796] /\ d' = 4294967796)).
Proof.
  eapply returns_mono; [apply (cyclic_timer_rhythm ex_tick (ret tt) (ret tt) (ret tt) (fun _ => false) 6 (ex_state 4294967396) ex_due 2 4294966796);
    [apply ex_state_ok; lia | apply ex_recent; lia | lia | left] |].
  intros _ s' (ts' & fired & d' & H1 & _ & H2 & _ & H3 & _). exists ts', fired, d'. split; [exact H1 | split; [exact H2 |]].
  intros K. apply H3; [unfold now_of; cbn; lia | lia].
Defined.

Lemma sys_timeout_schedules_witness :
  sys_timeout ex_tick 1073741824 h_tcpip_tcp_timer 0 (ex_state 4294967396) = Halted /\
  returns (sys_timeout ex_tick 250 h_tcpip_tcp_timer 0) (ex_state 4294967396) (fun _ s' => exists r l1 l2,
    ex_due = l1 ++ l2 /\ next_timeout s' = conc <$> (l1 ++ mk_timer (r + 250) tcp_key :: l2)).
Proof.
  assert (N : Forall (fun t => now_of ex_tick (ret tt) (ret tt) (ret tt) (ex_state 4294967396) - 1000000000 <= due t <=
    now_of ex_tick (ret tt) (ret tt) (ret tt) (ex_state 4294967396) + 1000000000) ex_due)
    by (unfold now_of; cbn; repeat constructor; cbn; lia).
  assert (S : StronglySorted due_le ex_due) by (repeat constructor; unfold due_le; cbn; lia).
  split.
  - exact (sys_timeout_schedules ex_tick (ret tt) (ret tt) (ret tt) 1073741824 tcp_key (ex_state 4294967396) ex_due I eq_refl S
      ltac:(lia) N).
  - pose proof (sys_timeout_schedules ex_tick (ret tt) (ret tt) (ret tt) 250 tcp_key (ex_state 4294967396) ex_due I eq_refl S
      ltac:(lia) N) as K. cbn [orb Z.ltb] in K. eapply returns_mono; [exact K |].
    intros _ s' (r & l1 & l2 & _ & E1 & E2 & _). eauto.
Defined.
