(* ===== verification/LinkFrames.v ===== *)
(** The frames lwIP hands to its interfaces: bytes, with a whole Ethernet header, and no longer than the MTU allows, whatever
    the packets it receives hold. [enc28_netif_output] relies on it: it copies the frame into a buffer of a
    fixed size without looking at its length. *)
From Stdlib Require Import ZArith Lia Bool.
From stdpp Require Import base decidable list gmap.
From S2P Require Import Prelude LwipChksum Netif Etharp EtharpTable EtharpProofs EtharpInput Ip4 Ip4Chksum Ip4Proofs.

(** The largest packet without its Ethernet header. *)
Definition MAX_IP : Z := 1518.

Definition frame_fits (f : list Z) : Prop := Forall is_u8 f /\ (14 <= length f)%nat /\ Z.of_nat (length f) <= 14 + MAX_IP.
Definition packet_fits (p : packet) : Prop := Forall is_u8 (bytes p) /\ tot_len p <= MAX_IP.
Definition eth_ok (a : list Z) : Prop := length a = 6%nat /\ Forall is_u8 a.

Record entry_fits (e : etharp_entry) : Prop := {
  ef_q : match q e with Some p => packet_fits p | None => True end;
  ef_eth : eth_ok (ethaddr e)
}.

(** Nothing is taken back that has been sent: [sent] are the first frames. *)
Record arp_fits (sent : list (Z * list Z)) (s : arp) : Prop := {
  af_table : Forall entry_fits (arp_table s);
  af_link : Forall (fun x => frame_fits x.2) (link s);
  af_sent : sent `prefix_of` link s
}.

(** If the computation ends, the invariant holds again, and [Q] of the result. *)
Definition safe {S A} (P : S -> Prop) (m : prog S A) (Q : A -> Prop) : Prop :=
  forall s, P s -> match m s with Done a s' => P s' /\ Q a | _ => True end.

Section Safe.
Context {S : Type} (P : S -> Prop).

Lemma safe_ret {A} (a : A) (Q : A -> Prop) : Q a -> safe P (ret a) Q.
Proof. intros H s Hs. now split. Qed.
Lemma safe_bind {A B} (m : prog S A) (k : A -> prog S B) (R : A -> Prop) (Q : B -> Prop) : safe P m R ->
  (forall a, R a -> safe P (k a) Q) -> safe P (bind m k) Q.
Proof. intros Hm Hk s Hs. specialize (Hm s Hs). unfold bind. destruct (m s); auto. destruct Hm. now apply Hk. Qed.
Lemma safe_mono {A} (m : prog S A) (R Q : A -> Prop) : safe P m R -> (forall a, R a -> Q a) -> safe P m Q.
Proof. intros Hm H s Hs. specialize (Hm s Hs). destruct (m s); auto. destruct Hm. auto. Qed.
Lemma safe_halt {A} (Q : A -> Prop) : safe P halt Q. Proof. now intros s Hs. Qed.
Lemma safe_undefined {A} (Q : A -> Prop) : safe P undefined Q. Proof. now intros s Hs. Qed.
Lemma safe_modify (f : S -> S) : (forall s, P s -> P (f s)) -> safe P (modify f) (fun _ => True).
Proof. intros H s Hs. split; auto. Qed.
Lemma safe_get {A} (k : S -> prog S A) (Q : A -> Prop) : (forall t, P t -> safe P (k t) Q) -> safe P (bind get k) Q.
Proof. intros H s Hs. apply (H s Hs s Hs). Qed.
Lemma safe_if {A} (b : bool) (m1 m2 : prog S A) Q : (b = true -> safe P m1 Q) -> (b = false -> safe P m2 Q) ->
  safe P (if b then m1 else m2) Q.
Proof. destruct b; auto. Qed.
Lemma safe_decide {A} (p : Prop) {D : Decision p} (m1 m2 : prog S A) Q : safe P m1 Q -> safe P m2 Q ->
  safe P (if decide p then m1 else m2) Q.
Proof. destruct (decide p); auto. Qed.
End Safe.

Create HintDb fits.
#[export] Hint Resolve safe_ret safe_halt safe_undefined : fits.

(** Conditions go both ways; sequences pass through what their first part promises. *)
Ltac safe_step :=
  match goal with
  | |- safe _ (ret _) _ => apply safe_ret
  | |- safe _ halt _ => apply safe_halt
  | |- safe _ undefined _ => apply safe_undefined
  | |- safe _ (if decide _ then _ else _) _ => apply safe_decide
  | |- safe _ (if _ then _ else _) _ => apply safe_if; intros ?
  | |- safe _ (bind get _) _ => apply safe_get; intros ? ?
  | |- safe _ (bind _ _) _ => eapply safe_bind; [solve [eauto with fits] | cbv beta; intros ? ?]
  | |- safe _ (bind _ _) _ => eapply (safe_bind _ _ _ (fun _ => True)); [| intros ? _]
  | |- safe _ (match ?o with Some _ => _ | None => _ end) _ => destruct o eqn:?
  | |- safe _ (let _ := _ in _) _ => cbv zeta
  | |- forall _, _ -> safe _ _ _ => intros ? ?
  | |- True => exact I
  | |- safe _ _ _ => solve [eauto with fits | eapply safe_mono; [eauto with fits | auto]]
  end.
Ltac safe_all := repeat safe_step.

Section Frames.
Variable interface : Z -> netif.
Variable alloc : nat -> bool.
Variable linkoutput_result : Z -> list Z -> Z.
Variable sent : list (Z * list Z).
Hypothesis hwaddr_ok : forall n, eth_ok (hwaddr (interface n)).

#[local] Abbreviation safe_arp := (safe (arp_fits sent)).

Lemma load_entry_fits i : safe_arp (load_entry i) entry_fits.
Proof.
  intros s H. unfold load_entry. destruct (arp_table s !! i) eqn:E; [| exact I]. split; [exact H |].
  exact (Forall_lookup_1 _ _ _ _ (af_table _ s H) E).
Qed.

Lemma update_entry_fits i f : (forall e, entry_fits e -> entry_fits (f e)) -> safe_arp (update_entry i f) (fun _ => True).
Proof.
  intros Hf s H. unfold update_entry. destruct (arp_table s !! i) eqn:E; [| exact I]. split; [| exact I].
  split; [| apply H | apply H]. cbn. apply Forall_insert; [apply H |].
  apply Hf. exact (Forall_lookup_1 _ _ _ _ (af_table _ s H) E).
Qed.

Lemma assert_fits b : safe_arp (LWIP_ASSERT_arp b) (fun _ => True).
Proof. destruct b; [now apply safe_ret | apply safe_halt]. Qed.

Lemma addrhint_fits i : safe_arp (ETHARP_SET_ADDRHINT i) (fun _ => True).
Proof. apply safe_modify. now intros s [H1 H2 H3]. Qed.

Lemma pbuf_alloc_fits : safe_arp (Etharp.pbuf_alloc alloc) (fun _ => True).
Proof. intros s [H1 H2 H3]. now repeat split. Qed.

Lemma set_q_fits o e : match o with Some p => packet_fits p | None => True end -> entry_fits e -> entry_fits (set_q o e).
Proof. intros Ho [H1 H2]. now split. Qed.
Lemma set_ethaddr_fits a e : eth_ok a -> entry_fits e -> entry_fits (set_ethaddr a e).
Proof. intros Ha [H1 H2]. now split. Qed.
Lemma set_other_fits e : entry_fits e -> (forall v, entry_fits (set_ipaddr v e)) /\ (forall v, entry_fits (set_entry_netif v e)) /\
  (forall v, entry_fits (set_ctime v e)) /\ (forall v, entry_fits (set_entry_state v e)).
Proof. intros [H1 H2]. split; [| split; [| split]]; intros v; split; assumption. Qed.

Ltac entry_fits_tac := intros; repeat (apply set_q_fits || apply set_ethaddr_fits ||
  match goal with |- entry_fits (set_ipaddr _ ?e) => apply (set_other_fits e) | |- entry_fits (set_entry_netif _ ?e) => apply (set_other_fits e)
  | |- entry_fits (set_ctime _ ?e) => apply (set_other_fits e) | |- entry_fits (set_entry_state _ ?e) => apply (set_other_fits e) end); auto.

#[local] Hint Resolve load_entry_fits assert_fits addrhint_fits pbuf_alloc_fits : fits.
#[local] Hint Extern 2 (safe _ (update_entry _ _) _) => apply update_entry_fits; solve [entry_fits_tac] : fits.

Lemma bytes_fits_u8 l : Forall is_u8 l -> forall v, Forall is_u8 (bytes16 v ++ l).
Proof. intros H v. apply Forall_app. split; [apply bytes16_u8 | exact H]. Qed.

Lemma ethernet_output_fits netif p src dst type : eth_ok src -> eth_ok dst -> packet_fits p ->
  safe_arp (ethernet_output interface linkoutput_result netif p src dst type) (fun _ => True).
Proof.
  intros [S1 S2] [D1 D2] [P1 P2]. unfold ethernet_output. safe_all.
  intros s [H1 H2 H3]. split; [| exact I]. split; [exact H1 | | now apply prefix_app_r]. cbn [link]. apply Forall_app. split; [exact H2 |].
  constructor; [| constructor]. split; [| split]; cbn [snd].
  - rewrite !Forall_app. split; [exact D2 | split; [exact S2 | split; [apply bytes16_u8 | exact P1]]].
  - rewrite !length_app, S1, D1. cbn. lia.
  - rewrite !length_app, S1, D1. unfold tot_len in P2. change (length (bytes16 _)) with 2%nat. lia.
Qed.

Lemma etharp_free_entry_fits i : safe_arp (etharp_free_entry i) (fun _ => True).
Proof. unfold etharp_free_entry. apply update_entry_fits. entry_fits_tac. Qed.
#[local] Hint Resolve etharp_free_entry_fits : fits.

Lemma eth_zero : eth_ok ethzero. Proof. split; [reflexivity | repeat constructor; discriminate]. Qed.
Lemma eth_broadcast : eth_ok ethbroadcast. Proof. split; [reflexivity | repeat constructor; discriminate]. Qed.
#[local] Hint Resolve eth_zero eth_broadcast hwaddr_ok ethernet_output_fits ef_eth : fits.

Lemma etharp_hdr_fits op a b c d : eth_ok a -> eth_ok c -> packet_fits (mk_packet (etharp_hdr op a b c d) true false).
Proof.
  intros [A1 A2] [C1 C2]. unfold packet_fits, tot_len, etharp_hdr. cbn [bytes]. split.
  - rewrite !Forall_app. repeat split; auto using bytes16_u8, bytes32_u8. repeat constructor; discriminate.
  - rewrite !length_app, A1, C1. cbn. unfold MAX_IP. lia.
Qed.

Lemma etharp_raw_fits netif es ed hs si hd di op : eth_ok es -> eth_ok ed -> eth_ok hs -> eth_ok hd ->
  safe_arp (etharp_raw interface alloc linkoutput_result netif es ed hs si hd di op) (fun _ => True).
Proof. intros. unfold etharp_raw. safe_all; auto using ethernet_output_fits, etharp_hdr_fits. Qed.
#[local] Hint Resolve etharp_raw_fits : fits.

Lemma etharp_request_dst_fits netif ip dst : eth_ok dst ->
  safe_arp (etharp_request_dst interface alloc linkoutput_result netif ip dst) (fun _ => True).
Proof. intros. unfold etharp_request_dst. cbv zeta. auto with fits. Qed.
#[local] Hint Resolve etharp_request_dst_fits : fits.

Lemma etharp_request_fits netif ip : safe_arp (etharp_request interface alloc linkoutput_result netif ip) (fun _ => True).
Proof. unfold etharp_request. auto with fits. Qed.
#[local] Hint Resolve etharp_request_fits : fits.

(** *** Address resolution *)

Lemma tmr_entry_fits i : safe_arp (etharp_tmr_entry interface alloc linkoutput_result i) (fun _ => True).
Proof. unfold etharp_tmr_entry. safe_all. Qed.
#[local] Hint Resolve tmr_entry_fits : fits.

Lemma etharp_tmr_fits : safe_arp (etharp_tmr interface alloc linkoutput_result) (fun _ => True).
Proof.
  unfold etharp_tmr. generalize ARP_TABLE_SIZE. intros n. generalize 0%nat.
  induction n as [| n IH]; intros i; cbn [etharp_tmr_loop]; safe_all.
Qed.

Lemma find_entry_fits ip fl netif : safe_arp (etharp_find_entry ip fl netif) (fun _ => True).
Proof. unfold etharp_find_entry. apply safe_get. intros t _. destruct (find_sweep _ _ _ _ _); safe_all. Qed.
#[local] Hint Resolve find_entry_fits : fits.

Lemma update_arp_entry_fits netif ip eth fl : eth_ok eth ->
  safe_arp (etharp_update_arp_entry interface linkoutput_result netif ip eth fl) (fun _ => True).
Proof.
  intros He. unfold etharp_update_arp_entry. safe_all.
  match goal with H : entry_fits ?e, Hq : q ?e = Some _ |- _ => destruct H as [Hp _]; rewrite Hq in Hp end. safe_all.
Qed.
#[local] Hint Resolve update_arp_entry_fits : fits.

Lemma read_eth_ok (p : list Z) : Forall is_u8 p -> (28 <= length p)%nat -> eth_ok (take 6 (drop 8 p)).
Proof.
  intros H L. split; [rewrite length_take, length_drop; lia |]. now apply Forall_take, Forall_drop.
Qed.

Lemma etharp_input_fits p netif : Forall is_u8 p ->
  safe_arp (etharp_input interface alloc linkoutput_result p netif) (fun _ => True).
Proof.
  intros Hp. unfold etharp_input. safe_step; [safe_all |]. destruct (Nat.ltb_spec (length p) 28) as [L | L]; [safe_all |].
  pose proof (read_eth_ok p Hp L) as He. cbv zeta. safe_step; [now apply safe_ret |].
  eapply safe_bind; [now apply update_arp_entry_fits | cbv beta; intros _ _].
  do 2 (apply safe_if; intros _; [| now apply safe_ret]).
  eapply safe_bind; [now apply etharp_raw_fits | intros _ _; now apply safe_ret].
Qed.

Lemma output_to_arp_index_fits netif p i : packet_fits p ->
  safe_arp (etharp_output_to_arp_index interface alloc linkoutput_result netif p i) (fun _ => True).
Proof. intros Hp. unfold etharp_output_to_arp_index. safe_all. Qed.
#[local] Hint Resolve output_to_arp_index_fits : fits.

Lemma keep_packet_fits p : packet_fits p ->
  safe_arp (keep_packet alloc p) (fun o => match o with Some p' => packet_fits p' | None => True end).
Proof. intros Hp. unfold keep_packet. safe_all; try exact Hp. destruct a; [exact Hp | exact I]. Qed.
#[local] Hint Resolve keep_packet_fits : fits.

Lemma etharp_query_fits netif ip o : match o with Some p => packet_fits p | None => True end ->
  safe_arp (etharp_query interface alloc linkoutput_result netif ip o) (fun _ => True).
Proof. intros Ho. unfold etharp_query. safe_all. Qed.
#[local] Hint Resolve etharp_query_fits : fits.

Lemma eth_multicast ip : eth_ok [LL_IP4_MULTICAST_ADDR_0; LL_IP4_MULTICAST_ADDR_1; LL_IP4_MULTICAST_ADDR_2;
  (bytes32 ip !!! 1%nat) .& 0x7f; bytes32 ip !!! 2%nat; bytes32 ip !!! 3%nat].
Proof.
  split; [reflexivity |]. assert (L : forall x, is_u8 (x .& 0x7f)).
  { intros x. change 0x7f with (Z.ones 7). rewrite Z.land_ones by lia. unfold is_u8. pose proof (Z.mod_pos_bound x (2 ^ 7)). lia. }
  repeat (apply Forall_cons_2; [first [apply L | apply is_u8_land | unfold is_u8; lia | vm_compute; split; congruence] |]).
  apply Forall_nil_2.
Qed.
#[local] Hint Resolve eth_multicast : fits.

Lemma etharp_output_fits netif p ip : packet_fits p ->
  safe_arp (Etharp.etharp_output interface alloc linkoutput_result netif p ip) (fun _ => True).
Proof. intros Hp. unfold Etharp.etharp_output. safe_all. Qed.
#[local] Hint Resolve etharp_input_fits etharp_output_fits : fits.

(** *** IP *)

Variable netif_foreach : list Z.
Variable route : Z -> Z.
Variable rx_addr tx_addr : Z.
Variable udp_input tcp_input : ip_data -> packet -> Z -> prog stack unit.
Variable ip4_reass : packet -> prog stack (option packet).
Variable ip4_frag : packet -> Z -> Z -> prog stack Z.
Hypothesis mtu_ok : forall n, 0 < mtu (interface n) <= MAX_IP.

Definition stack_fits (s : stack) : Prop := arp_fits sent (arp_state s).
#[local] Abbreviation safe_ip := (safe stack_fits).

Definition bytes_ok (p : packet) : Prop := Forall is_u8 (bytes p).

(** The other protocols and fragmentation do the same, if what they are given are bytes. *)
Record others_fit : Prop := {
  of_udp : forall d p inp, bytes_ok p -> safe_ip (udp_input d p inp) (fun _ => True);
  of_tcp : forall d p inp, bytes_ok p -> safe_ip (tcp_input d p inp) (fun _ => True);
  of_reass : forall p, bytes_ok p -> safe_ip (ip4_reass p) (fun o => match o with Some p' => bytes_ok p' | None => True end);
  of_frag : forall p netif dest, bytes_ok p -> safe_ip (ip4_frag p netif dest) (fun _ => True)
}.
Hypothesis others : others_fit.

Lemma in_arp_fits {A} (m : prog arp A) Q : safe_arp m Q -> safe_ip (in_arp m) Q.
Proof. intros H s Hs. specialize (H (arp_state s) Hs). unfold in_arp. now destruct (m (arp_state s)). Qed.

Lemma next_ip_id_fits : safe_ip next_ip_id (fun _ => True).
Proof. now intros s Hs. Qed.

Lemma ip_alloc_fits : safe_ip (pbuf_alloc alloc) (fun _ => True).
Proof. apply in_arp_fits, pbuf_alloc_fits. Qed.
#[local] Hint Resolve next_ip_id_fits ip_alloc_fits : fits.

Lemma ip4_output_send_fits p dest netif : bytes_ok p ->
  safe_ip (ip4_output_send interface alloc linkoutput_result ip4_frag p dest netif) (fun _ => True).
Proof.
  intros Hp. unfold ip4_output_send. safe_step; [now apply (of_frag others) |].
  assert (F : packet_fits p).
  { split; [exact Hp |]. pose proof (mtu_ok netif) as M. unfold truth in *.
    rewrite (proj2 (Z.eqb_neq _ _)) in * by lia. cbn [negb andb] in *.
    match goal with H : (_ <? _) = false |- _ => apply Z.ltb_ge in H end. lia. }
  unfold netif_output. destruct (output (interface netif)); safe_all. now apply in_arp_fits, etharp_output_fits.
Qed.
#[local] Hint Resolve ip4_output_send_fits : fits.

Lemma ip4_header_u8 len id src dest ttl tos proto : is_u8 ttl -> is_u8 tos -> is_u8 proto ->
  Forall is_u8 (ip4_header len id src dest ttl tos proto).
Proof.
  intros. unfold ip4_header. cbv zeta. rewrite !Forall_app.
  repeat split; auto using bytes16_u8, bytes32_u8; repeat (apply Forall_cons_2; [first [apply u8_range | assumption] |]); apply Forall_nil_2.
Qed.

Lemma ip4_output_if_fits p src dest ttl tos proto netif : bytes_ok p -> is_u8 ttl -> is_u8 tos -> is_u8 proto ->
  safe_ip (ip4_output_if interface alloc linkoutput_result ip4_frag p src dest ttl tos proto netif) (fun _ => True).
Proof.
  intros Hp H1 H2 H3. unfold ip4_output_if, ip4_output_if_src. destruct dest; safe_all.
  apply ip4_output_send_fits. unfold bytes_ok. cbn [bytes]. apply Forall_app. split; [now apply ip4_header_u8 | exact Hp].
Qed.

Lemma is_u8_const : is_u8 ICMP_TTL /\ is_u8 0 /\ is_u8 IP_PROTO_ICMP.
Proof. repeat split; vm_compute; congruence. Qed.

Lemma icmp_send_response_fits p type code : bytes_ok p -> is_u8 type -> is_u8 code ->
  safe_ip (icmp_send_response interface alloc linkoutput_result route tx_addr ip4_frag p type code) (fun _ => True).
Proof.
  intros Hp Ht Hc. destruct is_u8_const as (C1 & C2 & C3). unfold icmp_send_response. safe_all.
  apply ip4_output_if_fits; auto. unfold bytes_ok. cbn [bytes].
  rewrite !Forall_app. repeat split; auto using bytes16_u8, bytes32_u8, Forall_take.
Qed.

Lemma icmp_reply_fits d p : bytes_ok p -> Forall is_u8 (current_ip4_header d) ->
  safe_ip (icmp_reply_buffer alloc d p) (fun o => match o with Some r => bytes_ok r | None => True end).
Proof.
  intros Hp Hh. assert (Hb : Forall is_u8 (current_ip4_header d ++ bytes p)) by (apply Forall_app; now split).
  unfold icmp_reply_buffer. cbv zeta. safe_all; [exact Hb |]. destruct a; [exact Hb | exact I].
Qed.

Lemma icmp_input_fits d p inp : bytes_ok p -> Forall is_u8 (current_ip4_header d) ->
  safe_ip (icmp_input interface alloc linkoutput_result rx_addr tx_addr ip4_frag d p inp) (fun _ => True).
Proof.
  intros Hp Hh. destruct is_u8_const as (C1 & C2 & C3). unfold icmp_input. cbv zeta.
  do 2 (safe_step; [safe_all |]). safe_step; [| safe_all]. do 4 (safe_step; [safe_all |]).
  eapply safe_bind; [now apply icmp_reply_fits |]. intros [r |] Hr; [| safe_all].
  eapply safe_bind; [apply ip4_output_if_fits; auto | safe_all]. unfold bytes_ok. cbn [bytes].
  assert (F : Forall is_u8 [ICMP_ER] /\ Forall is_u8 [ICMP_TTL])
    by (split; (apply Forall_cons_2; [vm_compute; split; congruence | apply Forall_nil_2])).
  destruct F. unfold bytes_ok in Hr. repeat (apply patch_u8; auto using bytes16_u8, bytes32_u8).
Qed.

Lemma ip4_deliver_fits p hl src dest netif inp : bytes_ok p ->
  safe_ip (ip4_deliver interface alloc linkoutput_result route rx_addr tx_addr udp_input tcp_input ip4_frag p hl src dest netif inp)
    (fun _ => True).
Proof.
  intros Hp. unfold ip4_deliver. cbv zeta. assert (D : Forall is_u8 (drop (Z.to_nat hl) (bytes p))) by now apply Forall_drop.
  eapply (safe_bind _ _ _ (fun _ => True)); [| safe_all].
  safe_step; [now apply (of_udp others) |]. safe_step; [now apply (of_tcp others) |].
  safe_step; [apply icmp_input_fits; [exact D | now apply Forall_take] |]. safe_step; [| safe_all].
  apply icmp_send_response_fits; [exact Hp | |]; vm_compute; split; congruence.
Qed.

Lemma ip4_input_fits p inp : bytes_ok p ->
  safe_ip (ip4_input interface alloc linkoutput_result netif_foreach route rx_addr tx_addr udp_input tcp_input ip4_reass ip4_frag p inp)
    (fun _ => True).
Proof.
  intros Hp. unfold ip4_input. do 2 (safe_step; [safe_all |]). cbv zeta.
  set (b := if _ <? _ then _ else _). assert (Hb : Forall is_u8 b) by (unfold b; case_match; [now apply Forall_take | exact Hp]).
  do 3 (safe_step; [safe_all |]). destruct (ip4_input_netif _ _ _ _); [| safe_all]. safe_step; [| now apply ip4_deliver_fits].
  eapply safe_bind; [apply (of_reass others); exact Hb |]. intros [r |] Hr; [| safe_all]. safe_step; [now apply ip4_deliver_fits | safe_all].
Qed.

Lemma netif_input_fits_spec p inp : bytes_ok p ->
  safe_ip (netif_input interface alloc linkoutput_result netif_foreach route rx_addr tx_addr udp_input tcp_input ip4_reass ip4_frag p inp)
    (fun _ => True).
Proof.
  intros Hp. assert (D : Forall is_u8 (drop SIZEOF_ETH_HDR (bytes p))) by now apply Forall_drop.
  assert (E : safe_ip (ethernet_input interface alloc linkoutput_result netif_foreach route rx_addr tx_addr udp_input tcp_input ip4_reass
    ip4_frag p inp) (fun _ => True)).
  { unfold ethernet_input. safe_step; [safe_all |]. cbv zeta. safe_step.
    - safe_step; [safe_all |]. eapply safe_bind; [now apply ip4_input_fits | safe_all].
    - safe_step; [| safe_all]. safe_step; [safe_all |].
      eapply safe_bind; [now apply in_arp_fits, etharp_input_fits | safe_all]. }
  unfold netif_input. safe_step; [exact E | now apply ip4_input_fits].
Qed.
End Frames.
