(* ===== verification/Host.v ===== *)
(** lwIP as the IP task runs it ([tasks/ip_stack_task.c]): the input function of the interface it has started, and the timers
    of [Timeouts] with the handler of address resolution.

    The rest of lwIP and what the hardware decides is an environment: memory for packets, the tick of the HAL,
    UDP, TCP, reassembly, fragmentation and their timers, and how a packet that is sent is split into buffers.
    A reading of the tick takes some time. There is one interface, and no route to anywhere, which
    [NetifProofs.no_route_without_link] shows of the state the IP task leaves. *)
From Stdlib Require Import ZArith Lia Bool.
From stdpp Require Import base decidable list gmap sorting.
From S2P Require Import Prelude LwipChksum Netif NetifProofs Etharp EtharpTable EtharpProofs EtharpInput.
From S2P Require Import Ip4 Ip4Chksum Ip4Proofs LinkFrames Timeouts TimeoutsProofs App.

(** ** The environment *)

Record environment : Type := mk_environment {
  e_ifc : Z;                                   (** address of [net_ifc] *)
  e_stack : netif;                             (** what its memory holds before *)
  e_alloc : nat -> bool;
  e_latency : nat -> Z;                        (** milliseconds until the n-th reading of the tick *)
  e_rx_addr : nat -> Z;                        (** where the IP header is in a packet buffer *)
  e_tx_addr : Z;
  e_segments : list Z -> pbuf;
  e_udp_input : ip_data -> packet -> Z -> prog stack unit;
  e_tcp_input : ip_data -> packet -> Z -> prog stack unit;
  e_ip4_reass : packet -> prog stack (option packet);
  e_ip4_frag : packet -> Z -> Z -> prog stack Z;
  e_tcp_tmr : prog stack unit;
  e_ip_reass_tmr : prog stack unit;
  e_tcp_pcbs : stack -> bool
}.

(** A host: the protocols, the milliseconds since it was started, and how often the tick has been read. *)
Record host : Type := mk_host { net : stack; uptime : Z; readings : nat }.

Definition in_net {A} (m : prog stack A) : prog host A := fun s =>
  match m (net s) with
  | Done a t => Done a (mk_host t (uptime s) (readings s))
  | Undefined => Undefined
  | Halted => Halted
  | OutOfFuel => OutOfFuel
  end.

(** No interface is anywhere else. *)
Definition no_interface : netif :=
  mk_netif 0 0 0 0 netif_null_output_ip4 netif_null_output_ip4 netif_null_output_ip4 0 1518 (repeat 0 6) 0 0 [] 0.

Definition link_of (s : stack) : list (list Z) := (link (arp_state s)).*2.

Section Host.
Variable e : environment.

Definition interface (a : Z) : netif := if a =? e_ifc e then net_ifc_started (e_stack e) else no_interface.

(** [linkoutput] is [enc28_netif_output], which always returns [ERR_OK]. *)
Definition linkoutput_result (netif : Z) (frame : list Z) : Z := ERR_OK.

Definition HAL_GetTick : prog host Z := fun s =>
  let t := uptime s + e_latency e (readings s) in Done (u32 t) (mk_host (net s) t (S (readings s))).

Definition etharp_tmr_host : prog host unit := in_net (in_arp (etharp_tmr interface (e_alloc e) linkoutput_result)).

#[local] Abbreviation ip_input b :=
  (Ip4.netif_input interface (e_alloc e) linkoutput_result [e_ifc e] (fun _ => 0) (e_rx_addr e b) (e_tx_addr e) (e_udp_input e)
    (e_tcp_input e) (e_ip4_reass e) (e_ip4_frag e)).

(** [net_ifc.input] on a packet in the buffer [b]: a custom pbuf that refers to it. *)
Definition lwip_input (b : nat) (data : list Z) : prog (timers host) Z :=
  in_world (in_net (ip_input b (mk_packet data false true) (e_ifc e))).

(** The loop of [sys_check_timeouts] runs at most five handlers. *)
Definition lwip_check : prog (timers host) unit :=
  sys_check_timeouts HAL_GetTick (in_net (e_tcp_tmr e)) (in_net (e_ip_reass_tmr e)) etharp_tmr_host (fun s => e_tcp_pcbs e (net s)) 6.

(** The start of the timers in [lwip_init], [t] milliseconds after the start of the system. *)
Definition lwip_boot (t : Z) : outcome (timers host) unit :=
  sys_timeouts_init HAL_GetTick (in_net (e_tcp_tmr e)) (in_net (e_ip_reass_tmr e)) etharp_tmr_host
    (timers_reset (mk_host (mk_stack arp_reset 0) t 0)).

(** ** What is relied on *)

#[local] Abbreviation sinv := (stack_inv interface).

Definition keeps_stack {A} (m : prog stack A) : Prop :=
  forall s sent, sinv s -> stack_fits sent s -> returns m s (fun _ s' => sinv s' /\ stack_fits sent s').

Record env_ok : Prop := {
  eo_ifc : e_ifc e <> 0;
  eo_latency : forall n, 0 <= e_latency e n <= 1000000;
  eo_segments : forall f, pbuf_data (e_segments e f) = f /\ ((14 <= length f)%nat -> (14 <= length (payload (e_segments e f)))%nat);
  eo_udp : upper_ok interface (e_udp_input e);
  eo_tcp : upper_ok interface (e_tcp_input e);
  eo_reass : reass_ok interface (e_ip4_reass e);
  eo_frag : frag_ok interface (e_ip4_frag e);
  eo_fit : forall sent, others_fit sent (e_udp_input e) (e_tcp_input e) (e_ip4_reass e) (e_ip4_frag e);
  eo_tcp_tmr : keeps_stack (e_tcp_tmr e);
  eo_reass_tmr : keeps_stack (e_ip_reass_tmr e)
}.
Hypothesis ok : env_ok.

Lemma interface_own : interface (e_ifc e) = net_ifc_started (e_stack e).
Proof. unfold interface. now rewrite Z.eqb_refl. Qed.

Lemma interface_hwaddr n : eth_ok (hwaddr (interface n)).
Proof.
  unfold interface. destruct (_ =? _); split; try reflexivity;
    repeat (apply Forall_cons_2; [vm_compute; split; congruence |]); apply Forall_nil_2.
Qed.

Lemma interface_mtu n : 0 < mtu (interface n) <= MAX_IP.
Proof. unfold interface, MAX_IP. destruct (_ =? _); vm_compute; split; congruence. Qed.

Lemma interface_sends : sends interface (e_ifc e).
Proof. unfold sends, usable. rewrite interface_own. split; [split; [apply (eo_ifc ok) | split; reflexivity] | reflexivity]. Qed.

Lemma interface_ip : ip_interface (interface (e_ifc e)).
Proof. rewrite interface_own. split; try reflexivity; [discriminate | split; reflexivity]. Qed.

(** *** Preservation *)

(** [sent]: the frames that have been sent before. *)
Variable sent : list (Z * list Z).

Definition host_ok (h : host) : Prop := sinv (net h) /\ stack_fits sent (net h).

Lemma safe_returns {S A} (P : S -> Prop) (m : prog S A) s (Q : A -> S -> Prop) R : safe P m R -> P s -> returns m s Q ->
  returns m s (fun a s' => Q a s' /\ P s').
Proof. intros Hs Hp. specialize (Hs s Hp). unfold returns. destruct (m s); auto. destruct Hs. auto. Qed.

Lemma etharp_tmr_keeps : keeps_stack (in_arp (etharp_tmr interface (e_alloc e) linkoutput_result)).
Proof.
  intros s sent' Hi Hf. eapply returns_mono.
  - apply (safe_returns (stack_fits sent') _ s (fun _ s' => sinv s') (fun _ => True)); [| exact Hf |].
    + apply in_arp_fits, etharp_tmr_fits, interface_hwaddr.
    + apply (in_arp_returns _ s (fun _ => arp_inv interface)). eapply returns_mono; [now apply etharp_tmr_ages |]. cbn. tauto.
  - cbn. tauto.
Qed.

Lemma in_net_returns {A} (m : prog stack A) h Q : returns m (net h) Q ->
  returns (in_net m) h (fun a h' => exists t, h' = mk_host t (uptime h) (readings h) /\ m (net h) = Done a t /\ Q a t).
Proof. unfold returns, in_net. destruct (m (net h)); try easy. eauto. Qed.

#[export] Instance host_timers :
  TimerHost HAL_GetTick (in_net (e_tcp_tmr e)) (in_net (e_ip_reass_tmr e)) etharp_tmr_host.
Proof.
  refine {| world_ok := host_ok; clock := uptime; slack := 1000000 |}.
  - lia.
  - intros h Hh. pose proof (eo_latency ok (readings h)). split; [exact Hh | split; [cbn [uptime]; lia | reflexivity]].
  - intros m h Hm [H1 H2]. assert (K : exists m', m = in_net m' /\ keeps_stack m').
    { rewrite !elem_of_cons, elem_of_nil in Hm. destruct Hm as [-> | [-> | [-> | []]]]; eexists; (split; [reflexivity |]);
        [apply (eo_tcp_tmr ok) | apply (eo_reass_tmr ok) | apply etharp_tmr_keeps]. }
    destruct K as (m' & -> & K). eapply returns_mono; [apply in_net_returns, (K _ sent H1 H2) |].
    intros a h' (t & -> & _ & T1 & T2). split; [split; [exact T1 | exact T2] | cbn [uptime]; lia].
Defined.

(** ** Address resolution and time *)

(** The timers of TCP and reassembly leave the table of addresses alone. *)
Definition spares_arp (m : prog stack unit) : Prop :=
  forall s, returns m s (fun _ s' => arp_table (arp_state s') = arp_table (arp_state s)).

Definition table_of (h : host) : list etharp_entry := arp_table (arp_state (net h)).

Definition arp_calls (l : list (sys_timeout_handler * nat)) : nat := length (filter (fun k => k = cyclic 2) l).

Lemma handler_acts k m h h' : spares_arp (e_tcp_tmr e) -> spares_arp (e_ip_reass_tmr e) -> host_ok h ->
  handler_of (in_net (e_tcp_tmr e)) (in_net (e_ip_reass_tmr e)) etharp_tmr_host k = Some m -> m h = Done tt h' ->
  host_ok h' /\ table_of h' = Nat.iter (arp_calls [k]) (fmap aged) (table_of h).
Proof.
  intros S1 S2 [H1 H2] Hk E. unfold handler_of in Hk.
  assert (K : forall m', keeps_stack m' -> m = in_net m' -> exists t, net h' = t /\ m' (net h) = Done tt t /\ sinv t /\ stack_fits sent t).
  { intros m' Km ->. specialize (Km (net h) sent H1 H2). unfold returns, in_net in *. destruct (m' (net h)) as [[] t | | |]; try easy.
    injection E as <-. eauto. }
  unfold arp_calls. cbn [filter list_filter]. 
  destruct (decide (k = cyclic 1)) as [-> | N1]; [| destruct (decide (k = cyclic 2)) as [-> | N2]; [| destruct (decide (k = tcp_key)) as [-> | N3]; [| discriminate]]];
    injection Hk as <-.
  - destruct (K _ (eo_reass_tmr ok) eq_refl) as (t & <- & Et & T). split; [exact T |]. cbn.
    specialize (S2 (net h)). unfold returns in S2. now rewrite Et in S2.
  - destruct (K _ etharp_tmr_keeps eq_refl) as (t & <- & Et & T). split; [exact T |]. cbn.
    pose proof (etharp_tmr_ages interface (e_alloc e) linkoutput_result _ H1) as A. unfold returns, in_arp in *.
    destruct (etharp_tmr _ _ _ (arp_state (net h))) as [[] t' | | |]; try easy. injection Et as Et. unfold table_of. rewrite <- Et. apply A.
  - destruct (K _ (eo_tcp_tmr ok) eq_refl) as (t & <- & Et & T). split; [exact T |]. cbn.
    specialize (S1 (net h)). unfold returns in S1. now rewrite Et in S1.
Qed.

Lemma acts_age l h h' : spares_arp (e_tcp_tmr e) -> spares_arp (e_ip_reass_tmr e) -> host_ok h ->
  acts HAL_GetTick (in_net (e_tcp_tmr e)) (in_net (e_ip_reass_tmr e)) etharp_tmr_host h l h' ->
  host_ok h' /\ table_of h' = Nat.iter (arp_calls l) (fmap aged) (table_of h).
Proof.
  intros S1 S2 Hh A. revert Hh. induction A as [h | h t h1 l h2 E A IH | k m h h1 l h2 Hk E A IH]; intros Hh; [now split | |].
  - injection E as _ <-. apply IH. exact Hh.
  - destruct (handler_acts k m h h1 S1 S2 Hh Hk E) as [H1 T1]. destruct (IH H1) as [H2 T2]. split; [exact H2 |].
    rewrite T2, T1. change (k :: l) with ([k] ++ l). unfold arp_calls. rewrite filter_app, length_app, (Nat.add_comm (length (filter _ [k]))), <- Nat.iter_add.
    reflexivity.
Qed.

Lemma arp_calls_times fired : arp_calls (key <$> fired) = length (times_of (cyclic 2) fired).
Proof.
  unfold arp_calls, times_of. induction fired as [| t l IH]; [reflexivity |]. cbn [fmap list_fmap]. rewrite !filter_cons.
  destruct (decide (key t = cyclic 2)); cbn; now rewrite <- IH.
Qed.

(** C20: the IP task looks at lwIP's timers only after a packet has arrived, and if it has waited for one until more
    than a second after the ARP timer was due, but no timer is more than eleven days late, the entries of the address
    table age by one tick, however long the wait was within these bounds: what should be forgotten after five
    minutes is still there. (After a shorter wait they age by one tick or not at all.) *)
Theorem arp_ages_once (s : timers host) (ts : list timer) (d : Z) : spares_arp (e_tcp_tmr e) -> spares_arp (e_ip_reass_tmr e) ->
  timers_ok HAL_GetTick (in_net (e_tcp_tmr e)) (in_net (e_ip_reass_tmr e)) etharp_tmr_host s ts ->
  Forall (fun t => uptime (world s) - 1000000000 <= due t) ts -> mk_timer d (cyclic 2) ∈ ts -> d + 1000 < uptime (world s) ->
  returns lwip_check s (fun _ s' => table_of (world s') = aged <$> table_of (world s)).
Proof.
  intros S1 S2 H Hl Hd Hlate. eapply returns_mono; [apply check_spec; [exact H | exact Hl | lia] |].
  intros [] s' (now & w & ts' & fired & Hn & Et & _ & C & _). destruct (ch_cyclic _ _ _ _ _ _ _ _ _ _ C 2%nat d Hd) as (d' & _ & F).
  change (now_of _ _ _ _ s) with (uptime (world s)) in Hn.
  destruct (fires_late 1000 now _ d _ d' eq_refl F) as [E _]; [lia |].
  assert (Hw : host_ok w) by (injection Et as _ <-; exact (tk_world _ _ _ _ _ _ H)).
  destruct (acts_age _ _ _ S1 S2 Hw (ch_acts _ _ _ _ _ _ _ _ _ _ C)) as [_ T].
  rewrite T, arp_calls_times, E. injection Et as _ <-. reflexivity.
Qed.

(** ** The calls of the IP task *)

#[local] Abbreviation timers_ok :=
  (TimeoutsProofs.timers_ok HAL_GetTick (in_net (e_tcp_tmr e)) (in_net (e_ip_reass_tmr e)) etharp_tmr_host).

Lemma ip_input_returns b data s : stack_inv interface s -> stack_fits sent s -> Forall is_u8 data -> (42 <= length data)%nat ->
  returns (ip_input b (mk_packet data false true) (e_ifc e)) s (fun r s' => (r = ERR_OK /\ sinv s') /\ stack_fits sent s').
Proof.
  intros H1 H2 Hu Hl. apply (safe_returns (stack_fits sent) _ s (fun r s' => r = ERR_OK /\ sinv s') (fun _ => True)); [| exact H2 |].
  - apply netif_input_fits_spec; [apply interface_hwaddr | apply interface_mtu | apply (eo_fit ok) | exact Hu].
  - apply netif_input_returns_spec; try apply ok; try assumption; [intros dest; now left | apply interface_sends | apply interface_ip].
Qed.

(** The input function returns [ERR_OK] and takes no time. *)
Lemma lwip_input_returns b data s ts : timers_ok s ts -> Forall is_u8 data -> (42 <= length data)%nat ->
  returns (lwip_input b data) s (fun r s' => r = ERR_OK /\ timers_ok s' ts /\ uptime (world s') = uptime (world s)).
Proof.
  intros H Hu Hl. destruct (tk_world _ _ _ _ _ _ H) as [H1 H2].
  eapply returns_mono; [apply in_world_returns, in_net_returns, (ip_input_returns b data _ H1 H2 Hu Hl) |].
  intros r s' (h & -> & _ & t & -> & _ & [-> I1] & I2). split; [reflexivity |]. split; [| reflexivity].
  destruct H as [K1 K2 K3 K4 K5 K6]. split; auto. now split.
Qed.

(** The timers that are scheduled after a check were not due when it began. *)
Lemma lwip_check_returns s ts : timers_ok s ts -> Forall (fun t => uptime (world s) - 1000000000 <= due t) ts ->
  returns lwip_check s (fun _ s' => exists ts', timers_ok s' ts' /\ Forall (fun t => uptime (world s) <= due t) ts' /\
    uptime (world s) <= uptime (world s') <= uptime (world s) + 20000000).
Proof.
  intros H Hl. eapply returns_mono; [apply check_spec; [exact H | exact Hl | lia] |].
  intros [] s' (now & w & ts' & fired & Hn & _ & E & C & _). exists ts'.
  change (now_of _ _ _ _ s) with (uptime (world s)) in Hn. change (slack) with 1000000 in Hn.
  pose proof (ch_time _ _ _ _ _ _ _ _ _ _ C) as T. change (now_of _ _ _ _ (moved w s)) with (uptime w) in T.
  change (now_of _ _ _ _ s') with (uptime (world s')) in T. change (clock w) with (uptime w) in E.
  split; [apply C | split; [| lia]]. eapply Forall_impl; [apply (ch_left _ _ _ _ _ _ _ _ _ _ C) |]. cbv beta. lia.
Qed.

Lemma reset_fits : sent = [] -> stack_fits sent (mk_stack arp_reset 0).
Proof.
  intros E. unfold stack_fits. rewrite E. split; [| constructor | apply prefix_nil].
  apply Forall_forall. intros x Hx. apply list_elem_of_In, repeat_spec in Hx as ->. split; [exact I | apply eth_zero].
Qed.

Lemma lwip_boot_returns t : sent = [] -> exists s ts, lwip_boot t = Done tt s /\ timers_ok s ts /\
  Forall (fun x => t <= due x) ts /\ t <= uptime (world s) <= t + 20000000.
Proof.
  intros Hs. assert (Hw : host_ok (mk_host (mk_stack arp_reset 0) t 0)) by (split; [apply arp_reset_inv | now apply reset_fits]).
  pose proof (sys_timeouts_init_ok HAL_GetTick (in_net (e_tcp_tmr e)) (in_net (e_ip_reass_tmr e)) etharp_tmr_host _ Hw) as B.
  destruct (returns_exists _ _ _ B) as ([] & s & E & ts & H & D & _ & A). exists s, ts.
  split; [exact E | split; [exact H | split]].
  - eapply Forall_impl; [exact D |]. cbv beta. change (clock (mk_host _ t 0)) with t. lia.
  - change (t <= now_of HAL_GetTick (in_net (e_tcp_tmr e)) (in_net (e_ip_reass_tmr e)) etharp_tmr_host s <= t + 20000000).
    change (clock (mk_host _ t 0)) with t in A. change slack with 1000000 in A. lia.
Qed.
End Host.
