(* ===== verification/Tasks.v ===== *)
(** Creating tasks and starting the scheduler: the part of [FreeRTOS/tasks.c] the application's start-up
    runs through, with [pxPortInitialiseStack] of the Cortex-M4F port.

    Task control blocks are in memory, by address; their memory and the stacks come from [heap_4]
    ([Heap4]). The words of the stacks are a map. A ready list is the sequence of its tasks: before the
    scheduler runs every list's [pxIndex] is its end marker, so inserting at the end appends ([KernelList]
    has the linked structure). The configuration is the application's: one core, no preemption, task
    notifications with one entry, port optimised selection (a bit mask of the priorities in use), stacks
    filled with a known value. Text is a list of characters ended by 0; the address of a task function is a
    number. *)
From Stdlib Require Import ZArith Lia Bool.
From stdpp Require Import base decidable list gmap.
From S2P Require Import Prelude Heap4 Queue.

Definition configMAX_PRIORITIES : Z := 5.
Definition configMINIMAL_STACK_SIZE : Z := 130.
Definition configMAX_TASK_NAME_LEN : nat := 10.
Definition tskSTACK_FILL_BYTE : Z := 0xa5.
Definition tskDYNAMICALLY_ALLOCATED_STACK_AND_TCB : Z := 0.
Definition tskSTATICALLY_ALLOCATED_STACK_AND_TCB : Z := 2.
Definition taskNOT_WAITING_NOTIFICATION : Z := 0.
Definition taskWAITING_NOTIFICATION : Z := 1.
Definition taskNOTIFICATION_RECEIVED : Z := 2.
Definition errCOULD_NOT_ALLOCATE_REQUIRED_MEMORY : Z := -1.
Definition configTASK_NOTIFICATION_ARRAY_ENTRIES : Z := 1.
Definition configINITIAL_TICK_COUNT : Z := 0.
Definition portMAX_DELAY : Z := 0xffffffff.
Definition portINITIAL_XPSR : Z := 0x01000000.
Definition portINITIAL_EXC_RETURN : Z := 0xfffffffd.
Definition portSTART_ADDRESS_MASK : Z := 0xfffffffe.
Definition sizeof_StackType_t : Z := 4.

Record TCB_t : Type := mk_tcb {
  pxTopOfStack : Z;
  xEventListItem_value : Z;
  xEventListItem_listed : bool;   (** its container is not [NULL] *)
  uxPriority : Z;
  pxStack : Z;
  pcTaskName : list Z;
  uxTCBNumber : Z;
  uxBasePriority : Z;
  ulNotifiedValue : Z;
  ucNotifyState : Z;
  ucStaticallyAllocated : Z
}.

(** After [memset(pxNewTCB, 0x00, sizeof(TCB_t))]. *)
Definition zero_tcb : TCB_t := mk_tcb 0 0 false 0 0 (repeat 0 configMAX_TASK_NAME_LEN) 0 0 0 0 0.

Record kernel : Type := mk_kernel {
  k_heap : heap;
  words : gmap Z Z;                    (** memory of the stacks *)
  tcbs : gmap Z TCB_t;
  pxCurrentTCB : Z;
  uxCurrentNumberOfTasks : Z;
  uxTaskNumber : Z;
  uxTopReadyPriority : Z;              (** bit mask *)
  pxReadyTasksLists : list (list Z);   (** by priority *)
  blocked : list Z;                    (** the delayed and the suspended tasks *)
  xPendingReadyList : list Z;
  xSchedulerRunning : Z;
  uxSchedulerSuspended : Z;
  xYieldPending : Z;
  xNextTaskUnblockTime : Z;
  xTickCount : Z;
  xIdleTaskHandle : Z
}.

Definition kernel_reset (h : heap) : kernel :=
  mk_kernel h ∅ ∅ 0 0 0 0 (repeat [] (Z.to_nat configMAX_PRIORITIES)) [] [] pdFALSE 0 pdFALSE 0 0 0.

Definition set_k_heap v k := mk_kernel v (words k) (tcbs k) (pxCurrentTCB k) (uxCurrentNumberOfTasks k) (uxTaskNumber k)
  (uxTopReadyPriority k) (pxReadyTasksLists k) (blocked k) (xPendingReadyList k) (xSchedulerRunning k)
  (uxSchedulerSuspended k) (xYieldPending k) (xNextTaskUnblockTime k) (xTickCount k) (xIdleTaskHandle k).
Definition set_words v k := mk_kernel (k_heap k) v (tcbs k) (pxCurrentTCB k) (uxCurrentNumberOfTasks k) (uxTaskNumber k)
  (uxTopReadyPriority k) (pxReadyTasksLists k) (blocked k) (xPendingReadyList k) (xSchedulerRunning k)
  (uxSchedulerSuspended k) (xYieldPending k) (xNextTaskUnblockTime k) (xTickCount k) (xIdleTaskHandle k).
Definition set_tcbs v k := mk_kernel (k_heap k) (words k) v (pxCurrentTCB k) (uxCurrentNumberOfTasks k) (uxTaskNumber k)
  (uxTopReadyPriority k) (pxReadyTasksLists k) (blocked k) (xPendingReadyList k) (xSchedulerRunning k)
  (uxSchedulerSuspended k) (xYieldPending k) (xNextTaskUnblockTime k) (xTickCount k) (xIdleTaskHandle k).
Definition set_current v k := mk_kernel (k_heap k) (words k) (tcbs k) v (uxCurrentNumberOfTasks k) (uxTaskNumber k)
  (uxTopReadyPriority k) (pxReadyTasksLists k) (blocked k) (xPendingReadyList k) (xSchedulerRunning k)
  (uxSchedulerSuspended k) (xYieldPending k) (xNextTaskUnblockTime k) (xTickCount k) (xIdleTaskHandle k).
Definition set_counts n m k := mk_kernel (k_heap k) (words k) (tcbs k) (pxCurrentTCB k) n m
  (uxTopReadyPriority k) (pxReadyTasksLists k) (blocked k) (xPendingReadyList k) (xSchedulerRunning k)
  (uxSchedulerSuspended k) (xYieldPending k) (xNextTaskUnblockTime k) (xTickCount k) (xIdleTaskHandle k).
Definition set_ready top l k := mk_kernel (k_heap k) (words k) (tcbs k) (pxCurrentTCB k) (uxCurrentNumberOfTasks k)
  (uxTaskNumber k) top l (blocked k) (xPendingReadyList k) (xSchedulerRunning k)
  (uxSchedulerSuspended k) (xYieldPending k) (xNextTaskUnblockTime k) (xTickCount k) (xIdleTaskHandle k).
Definition set_blocked b p k := mk_kernel (k_heap k) (words k) (tcbs k) (pxCurrentTCB k) (uxCurrentNumberOfTasks k)
  (uxTaskNumber k) (uxTopReadyPriority k) (pxReadyTasksLists k) b p (xSchedulerRunning k)
  (uxSchedulerSuspended k) (xYieldPending k) (xNextTaskUnblockTime k) (xTickCount k) (xIdleTaskHandle k).
Definition set_scheduler r y u t k := mk_kernel (k_heap k) (words k) (tcbs k) (pxCurrentTCB k) (uxCurrentNumberOfTasks k)
  (uxTaskNumber k) (uxTopReadyPriority k) (pxReadyTasksLists k) (blocked k) (xPendingReadyList k) r
  (uxSchedulerSuspended k) y u t (xIdleTaskHandle k).
Definition set_idle v k := mk_kernel (k_heap k) (words k) (tcbs k) (pxCurrentTCB k) (uxCurrentNumberOfTasks k)
  (uxTaskNumber k) (uxTopReadyPriority k) (pxReadyTasksLists k) (blocked k) (xPendingReadyList k) (xSchedulerRunning k)
  (uxSchedulerSuspended k) (xYieldPending k) (xNextTaskUnblockTime k) (xTickCount k) v.

(** A call of the allocator. *)
Definition on_heap {A} (m : prog heap A) : prog kernel A := fun k =>
  match m (k_heap k) with
  | Done a h => Done a (set_k_heap h k)
  | Undefined => Undefined
  | Halted => Halted
  | OutOfFuel => OutOfFuel
  end.

Definition load_tcb (a : Z) : prog kernel TCB_t := fun k =>
  match tcbs k !! a with Some t => Done t k | None => Undefined end.
Definition store_tcb (a : Z) (t : TCB_t) : prog kernel unit := modify (fun k => set_tcbs (<[a := t]> (tcbs k)) k).
Definition store_word (a v : Z) : prog kernel unit := modify (fun k => set_words (<[a := v]> (words k)) k).

(** [memset] of a stack of [n] words. *)
Fixpoint fill_words (a : Z) (n : nat) (v : Z) (m : gmap Z Z) : gmap Z Z :=
  match n with O => m | S n' => fill_words (a + sizeof_StackType_t) n' v (<[a := v]> m) end.

(** The copy of the task name: at most [n] characters, up to and including the terminating 0. *)
Fixpoint copy_name (n : nat) (i : nat) (pcName name : list Z) : option (list Z) :=
  match n with
  | O => Some name
  | S n' =>
    match pcName with
    | [] => None
    | c :: pcName' =>
      let name := <[i := c]> name in
      if c =? 0 then Some name else copy_name n' (S i) pcName' name
    end
  end.

Section Tasks.
Variable ucHeap : Z.                   (** the heap of [heap_4.c] *)
Variable xStart : Z.
Variable fuel : nat.
Variable sizeof_TCB_t : Z.
Variable portTASK_RETURN_ADDRESS : Z.  (** [prvTaskExitError] *)
Variable prvIdleTask : Z.
Variable xIdleTaskTCB : Z.             (** the static variables of [vApplicationGetIdleTaskMemory] *)
Variable uxIdleTaskStack : Z.

#[local] Abbreviation M := (prog kernel).

(** The frame a context switch would have left: status register, program counter, return address, the
    argument in R0, and room for R12, R3-R1 and R11-R4. *)
Definition pxPortInitialiseStack (pxTopOfStack pxCode pvParameters : Z) : M Z :=
  let top := u32 (pxTopOfStack - 4) in
  store_word top portINITIAL_XPSR ;;
  let top := u32 (top - 4) in
  store_word top (pxCode .& portSTART_ADDRESS_MASK) ;;
  let top := u32 (top - 4) in
  store_word top portTASK_RETURN_ADDRESS ;;
  let top := u32 (top - 5 * 4) in
  store_word top pvParameters ;;
  let top := u32 (top - 4) in
  store_word top portINITIAL_EXC_RETURN ;;
  ret (u32 (top - 8 * 4)).

(** [pxNewTCB] is the address of a block whose [pxStack] is set; the result goes to [*pxCreatedTask]. *)
Definition prvInitialiseNewTask (pxTaskCode : Z) (pcName : option (list Z)) (uxStackDepth pvParameters uxPriority
  pxNewTCB : Z) : M Z :=
  t <- load_tcb pxNewTCB ;;
  let fill := tskSTACK_FILL_BYTE * 0x01010101 in
  modify (fun k => set_words (fill_words (pxStack t) (Z.to_nat uxStackDepth) fill (words k)) k) ;;
  let top := u32 (pxStack t + sizeof_StackType_t * (uxStackDepth - 1)) .& Z.lnot portBYTE_ALIGNMENT_MASK in
  configASSERT (top .& portBYTE_ALIGNMENT_MASK =? 0) ;;
  name <-
    match pcName with
    | Some pcName =>
      match copy_name configMAX_TASK_NAME_LEN 0 pcName (pcTaskName t) with
      | Some name => ret (<[(configMAX_TASK_NAME_LEN - 1)%nat := 0]> name)
      | None => undefined
      end
    | None => ret (pcTaskName t)
    end ;;
  configASSERT (uxPriority <? configMAX_PRIORITIES) ;;
  let uxPriority := if configMAX_PRIORITIES <=? uxPriority then configMAX_PRIORITIES - 1 else uxPriority in
  top <- pxPortInitialiseStack top pxTaskCode pvParameters ;;
  store_tcb pxNewTCB (mk_tcb top (u32 (configMAX_PRIORITIES - uxPriority)) false uxPriority (pxStack t) name (uxTCBNumber t)
                        uxPriority (ulNotifiedValue t) (ucNotifyState t) (ucStaticallyAllocated t)) ;;
  ret pxNewTCB.

(** A block as the two creating functions prepare it. *)
Definition new_tcb (stack allocated : Z) : TCB_t :=
  mk_tcb 0 0 false 0 stack (repeat 0 configMAX_TASK_NAME_LEN) 0 0 0 0 allocated.

(** The stack first, then the control block; the new task, [NULL] when there is no memory. *)
Definition prvCreateTask (pxTaskCode : Z) (pcName : option (list Z)) (uxStackDepth pvParameters uxPriority : Z) : M Z :=
  pxStack <- on_heap (pvPortMalloc ucHeap xStart fuel (u32 (uxStackDepth * sizeof_StackType_t))) ;;
  pxNewTCB <-
    (if negb (pxStack =? 0) then
       pxNewTCB <- on_heap (pvPortMalloc ucHeap xStart fuel sizeof_TCB_t) ;;
       if negb (pxNewTCB =? 0) then
         store_tcb pxNewTCB (new_tcb pxStack tskDYNAMICALLY_ALLOCATED_STACK_AND_TCB) ;; ret pxNewTCB
       else on_heap (vPortFree ucHeap xStart fuel pxStack) ;; ret 0
     else ret 0) ;;
  if negb (pxNewTCB =? 0) then
    prvInitialiseNewTask pxTaskCode pcName uxStackDepth pvParameters uxPriority pxNewTCB
  else ret 0.

Definition prvInitialiseTaskLists : M unit :=
  modify (fun k => set_blocked [] [] (set_ready (uxTopReadyPriority k) (repeat [] (Z.to_nat configMAX_PRIORITIES)) k)).

(** [listREMOVE_ITEM] of the state item of a task: it leaves the list it is in. *)
Definition remove_state_item (pxTCB : Z) : M unit :=
  modify (fun k => set_ready (uxTopReadyPriority k) (filter (fun x => x <> pxTCB) <$> pxReadyTasksLists k)
                     (set_blocked (filter (fun x => x <> pxTCB) (blocked k)) (xPendingReadyList k) k)).

Definition prvAddTaskToReadyList (pxTCB : Z) : M unit :=
  t <- load_tcb pxTCB ;;
  modify (fun k => set_ready (uxTopReadyPriority k .| bit (uxPriority t))
    (alter (fun l => l ++ [pxTCB]) (Z.to_nat (uxPriority t)) (pxReadyTasksLists k)) k).

Definition prvAddNewTaskToReadyList (pxNewTCB : Z) : M unit :=
  modify (fun k => set_counts (u32 (uxCurrentNumberOfTasks k + 1)) (uxTaskNumber k) k) ;;
  k <- get ;;
  (if pxCurrentTCB k =? 0 then
     modify (set_current pxNewTCB) ;;
     if uxCurrentNumberOfTasks k =? 1 then prvInitialiseTaskLists else ret tt
   else if xSchedulerRunning k =? pdFALSE then
     cur <- load_tcb (pxCurrentTCB k) ;;
     new <- load_tcb pxNewTCB ;;
     if uxPriority cur <=? uxPriority new then modify (set_current pxNewTCB) else ret tt
   else ret tt) ;;
  modify (fun k => set_counts (uxCurrentNumberOfTasks k) (u32 (uxTaskNumber k + 1)) k) ;;
  k <- get ;;
  t <- load_tcb pxNewTCB ;;
  store_tcb pxNewTCB (mk_tcb (pxTopOfStack t) (xEventListItem_value t) (xEventListItem_listed t) (uxPriority t) (pxStack t) (pcTaskName t)
    (uxTaskNumber k) (uxBasePriority t) (ulNotifiedValue t) (ucNotifyState t) (ucStaticallyAllocated t)) ;;
  prvAddTaskToReadyList pxNewTCB.

(** The status and what is stored in [*pxCreatedTask], if anything. *)
Definition xTaskCreate (pxTaskCode : Z) (pcName : option (list Z)) (uxStackDepth pvParameters uxPriority : Z)
  : M (Z * option Z) :=
  pxNewTCB <- prvCreateTask pxTaskCode pcName uxStackDepth pvParameters uxPriority ;;
  if negb (pxNewTCB =? 0) then prvAddNewTaskToReadyList pxNewTCB ;; ret (pdPASS, Some pxNewTCB)
  else ret (errCOULD_NOT_ALLOCATE_REQUIRED_MEMORY, None).

Definition xTaskCreateStatic (pxTaskCode : Z) (pcName : option (list Z)) (uxStackDepth pvParameters uxPriority
  puxStackBuffer pxTaskBuffer : Z) : M Z :=
  configASSERT (negb (puxStackBuffer =? 0)) ;;
  configASSERT (negb (pxTaskBuffer =? 0)) ;;
  if negb (pxTaskBuffer =? 0) && negb (puxStackBuffer =? 0) then
    store_tcb pxTaskBuffer (new_tcb puxStackBuffer tskSTATICALLY_ALLOCATED_STACK_AND_TCB) ;;
    pxNewTCB <- prvInitialiseNewTask pxTaskCode pcName uxStackDepth pvParameters uxPriority pxTaskBuffer ;;
    prvAddNewTaskToReadyList pxNewTCB ;;
    ret pxNewTCB
  else ret 0.

(** "IDLE" *)
Definition configIDLE_TASK_NAME : list Z := [0x49; 0x44; 0x4c; 0x45; 0].

Definition prvCreateIdleTasks : M Z :=
  h <- xTaskCreateStatic prvIdleTask (Some configIDLE_TASK_NAME) configMINIMAL_STACK_SIZE 0 0 uxIdleTaskStack xIdleTaskTCB ;;
  modify (set_idle h) ;;
  ret (if negb (h =? 0) then pdPASS else pdFAIL).

(** [vTaskStartScheduler] up to [xPortStartScheduler], which does not return: the task the port starts,
    or [None] when the scheduler could not be started. *)
Definition vTaskStartScheduler : M (option Z) :=
  xReturn <- prvCreateIdleTasks ;;
  if xReturn =? pdPASS then
    modify (fun k => set_scheduler pdTRUE (xYieldPending k) portMAX_DELAY configINITIAL_TICK_COUNT k) ;;
    k <- get ;;
    ret (Some (pxCurrentTCB k))
  else
    configASSERT (negb (xReturn =? errCOULD_NOT_ALLOCATE_REQUIRED_MEMORY)) ;;
    ret None.

(** [vTaskNotifyGiveFromISR(xTaskToNotify, NULL)]. *)
Definition vTaskGenericNotifyGiveFromISR (xTaskToNotify uxIndexToNotify : Z) : M unit :=
  configASSERT (negb (xTaskToNotify =? 0)) ;;
  configASSERT (uxIndexToNotify <? configTASK_NOTIFICATION_ARRAY_ENTRIES) ;;
  t <- load_tcb xTaskToNotify ;;
  let ucOriginalNotifyState := ucNotifyState t in
  let notified listed := mk_tcb (pxTopOfStack t) (xEventListItem_value t) listed (uxPriority t) (pxStack t)
    (pcTaskName t) (uxTCBNumber t) (uxBasePriority t) (u32 (ulNotifiedValue t + 1)) taskNOTIFICATION_RECEIVED
    (ucStaticallyAllocated t) in
  store_tcb xTaskToNotify (notified (xEventListItem_listed t)) ;;
  if ucOriginalNotifyState =? taskWAITING_NOTIFICATION then
    configASSERT (negb (xEventListItem_listed t)) ;;
    k <- get ;;
    (if uxSchedulerSuspended k =? 0 then
       remove_state_item xTaskToNotify ;;
       prvAddTaskToReadyList xTaskToNotify
     else
       modify (fun k => set_blocked (blocked k) (xPendingReadyList k ++ [xTaskToNotify]) k) ;;
       store_tcb xTaskToNotify (notified true)) ;;
    k <- get ;;
    cur <- load_tcb (pxCurrentTCB k) ;;
    if uxPriority cur <? uxPriority t
    then modify (fun k => set_scheduler (xSchedulerRunning k) pdTRUE (xNextTaskUnblockTime k) (xTickCount k) k)
    else ret tt
  else ret tt.
End Tasks.
