(* ===== verification/TasksProofs.v ===== *)
(** Creating a task: the memory it gets, the frame it starts from, and which task runs first. *)
From Stdlib Require Import ZArith Lia Bool.
From stdpp Require Import base decidable list gmap.
From S2P Require Import Prelude Heap4 Heap4Proofs Heap4Malloc Heap4Free Queue Tasks.

Lemma kbind_assoc {A B C} (m : prog kernel A) (f : A -> prog kernel B) (g : B -> prog kernel C) k :
  bind (bind m f) g k = bind m (fun x => bind (f x) g) k.
Proof. unfold bind. now destruct (m k). Qed.

Lemma kget_bind {A} (k : kernel) (f : kernel -> prog kernel A) : bind get f k = f k k.
Proof. reflexivity. Qed.

Lemma kmodify_bind {A} g (k : kernel) (f : unit -> prog kernel A) : bind (modify g) f k = f tt (g k).
Proof. reflexivity. Qed.

Lemma kassert_bind {A} (b : bool) (k : kernel) (f : unit -> prog kernel A) :
  b = true -> bind (configASSERT b) f k = f tt k.
Proof. now intros ->. Qed.

Lemma kret_bind {A B} (a : A) (k : kernel) (f : A -> prog kernel B) : bind (ret a) f k = f a k.
Proof. reflexivity. Qed.

Lemma load_tcb_bind {A} a t (k : kernel) (f : TCB_t -> prog kernel A) :
  tcbs k !! a = Some t -> bind (load_tcb a) f k = f t k.
Proof. intros H. unfold bind, load_tcb. now rewrite H. Qed.

Lemma store_tcb_bind {A} a t (k : kernel) (f : unit -> prog kernel A) :
  bind (store_tcb a t) f k = f tt (set_tcbs (<[a := t]> (tcbs k)) k).
Proof. reflexivity. Qed.

(** * The stack of a new task *)

Definition fill_word : Z := tskSTACK_FILL_BYTE * 0x01010101.
Definition stack_top (stack depth : Z) : Z := align_mask (stack + 4 * (depth - 1)).
Definition frame_size : Z := 68.

Definition frame_words (code arg return_address top : Z) (m : gmap Z Z) : gmap Z Z :=
  <[top - 36 := portINITIAL_EXC_RETURN]> (<[top - 32 := arg]> (<[top - 12 := return_address]>
    (<[top - 8 := code .& portSTART_ADDRESS_MASK]> (<[top - 4 := portINITIAL_XPSR]> m)))).

(** What restoring a context from [sp] finds. *)
Record starts_at (k : kernel) (return_address sp code arg : Z) : Prop := {
  at_xpsr : words k !! (sp + 64) = Some portINITIAL_XPSR;
  at_pc : words k !! (sp + 60) = Some (code .& portSTART_ADDRESS_MASK);
  at_lr : words k !! (sp + 56) = Some return_address;
  at_r0 : words k !! (sp + 36) = Some arg;
  at_exc : words k !! (sp + 32) = Some portINITIAL_EXC_RETURN
}.

Lemma stack_top_range stack depth : stack + 4 * depth - 11 <= stack_top stack depth <= stack + 4 * depth - 4.
Proof.
  unfold stack_top. rewrite align_mask_value. pose proof (Z.div_mod (stack + 4 * (depth - 1)) 8 ltac:(lia)).
  pose proof (Z.mod_pos_bound (stack + 4 * (depth - 1)) 8 ltac:(lia)). lia.
Qed.

Lemma fill_words_out n : forall a v m x, (x < a \/ a + 4 * Z.of_nat n <= x) -> fill_words a n v m !! x = m !! x.
Proof.
  induction n as [| n IH]; intros a v m x Hx; [reflexivity |]. cbn [fill_words]. unfold sizeof_StackType_t.
  rewrite IH by lia. apply lookup_insert_ne. lia.
Qed.

Lemma frame_words_out code arg lr top m x : (x < top - 36 \/ top - 4 < x) -> frame_words code arg lr top m !! x = m !! x.
Proof. intros Hx. unfold frame_words. now rewrite !lookup_insert_ne by lia. Qed.

Lemma frame_words_start k code arg lr top m : words k = frame_words code arg lr top m ->
  starts_at k lr (top - frame_size) code arg.
Proof.
  intros E. unfold frame_size. split; rewrite E; unfold frame_words;
    repeat first [rewrite lookup_insert_eq | match goal with |- <[?a := _]> _ !! ?b = _ => replace b with a by lia end
                 | rewrite lookup_insert_ne by lia]; reflexivity.
Qed.

Section Proofs.
Variable ucHeap : Z.
Variable xStart : Z.
Variable fuel : nat.
Variable sizeof_TCB_t : Z.
Variable portTASK_RETURN_ADDRESS : Z.

Lemma pxPortInitialiseStack_run top code arg k : frame_size <= top < 4294967296 ->
  pxPortInitialiseStack portTASK_RETURN_ADDRESS top code arg k =
  Done (top - frame_size) (set_words (frame_words code arg portTASK_RETURN_ADDRESS top (words k)) k).
Proof.
  unfold frame_size. intros H. unfold pxPortInitialiseStack, store_word. cbv zeta.
  rewrite (u32_id (top - 4)), (u32_id (top - 4 - 4)), (u32_id (top - 4 - 4 - 4)), (u32_id (top - 4 - 4 - 4 - 5 * 4)),
    (u32_id (top - 4 - 4 - 4 - 5 * 4 - 4)), (u32_id (top - 4 - 4 - 4 - 5 * 4 - 4 - 8 * 4)) by lia.
  rewrite !kmodify_bind. unfold ret, frame_words. f_equal; [lia |].
  cbn [set_words words]. unfold set_words. cbn. f_equal.
  replace (top - 4 - 4 - 4 - 5 * 4 - 4) with (top - 36) by lia.
  replace (top - 4 - 4 - 4 - 5 * 4) with (top - 32) by lia.
  replace (top - 4 - 4 - 4) with (top - 12) by lia. now replace (top - 4 - 4) with (top - 8) by lia.
Qed.

(** The control block [prvInitialiseNewTask] leaves. *)
Definition initialised (depth prio : Z) (name : list Z) (t : TCB_t) : TCB_t :=
  mk_tcb (stack_top (pxStack t) depth - frame_size) (configMAX_PRIORITIES - prio) false prio (pxStack t)
    (<[9%nat := 0]> name) (uxTCBNumber t) prio (ulNotifiedValue t) (ucNotifyState t) (ucStaticallyAllocated t).

Lemma prvInitialiseNewTask_run code pcName depth arg prio a t name k :
  tcbs k !! a = Some t -> copy_name configMAX_TASK_NAME_LEN 0 pcName (pcTaskName t) = Some name ->
  0 <= prio < configMAX_PRIORITIES -> 20 <= depth -> 0 < pxStack t -> pxStack t + 4 * depth < 4294967296 ->
  prvInitialiseNewTask portTASK_RETURN_ADDRESS code (Some pcName) depth arg prio a k =
  Done a (set_tcbs (<[a := initialised depth prio name t]> (tcbs k))
           (set_words (frame_words code arg portTASK_RETURN_ADDRESS (stack_top (pxStack t) depth)
                         (fill_words (pxStack t) (Z.to_nat depth) fill_word (words k))) k)).
Proof.
  intros Ht Hn Hp Hd Hs Hfit. unfold prvInitialiseNewTask.
  pose proof (stack_top_range (pxStack t) depth) as Hr.
  rewrite (load_tcb_bind _ _ _ _ Ht), kmodify_bind. cbv zeta.
  change sizeof_StackType_t with 4. rewrite (u32_id (pxStack t + _)) by lia.
  change (_ .& Z.lnot portBYTE_ALIGNMENT_MASK) with (stack_top (pxStack t) depth).
  assert (E8 : (stack_top (pxStack t) depth .& portBYTE_ALIGNMENT_MASK =? 0) = true).
  { apply Z.eqb_eq. unfold stack_top. rewrite align_mask_value, land_mask, Z.mul_comm. apply Z.mod_mul. lia. }
  rewrite (kassert_bind _ _ _ E8), Hn, kret_bind.
  assert (E5 : (prio <? configMAX_PRIORITIES) = true) by (apply Z.ltb_lt; lia).
  rewrite (kassert_bind _ _ _ E5).
  assert (E6 : (configMAX_PRIORITIES <=? prio) = false) by (apply Z.leb_gt; lia). rewrite E6.
  assert (Hframe : frame_size <= stack_top (pxStack t) depth < 4294967296) by (unfold frame_size; lia).
  rewrite (bind_done _ _ _ _ _ (pxPortInitialiseStack_run _ code arg _ Hframe)).
  rewrite store_tcb_bind. unfold ret. rewrite u32_id by (unfold configMAX_PRIORITIES in *; lia). reflexivity.
Qed.

(** * The ready lists *)

Definition with_number (n : Z) (t : TCB_t) : TCB_t :=
  mk_tcb (pxTopOfStack t) (xEventListItem_value t) (xEventListItem_listed t) (uxPriority t) (pxStack t) (pcTaskName t) n
    (uxBasePriority t) (ulNotifiedValue t) (ucNotifyState t) (ucStaticallyAllocated t).

(** The task that runs first once [a] has been added. *)
Definition first_to_run (k : kernel) (a : Z) (t : TCB_t) : Z :=
  if pxCurrentTCB k =? 0 then a else
  match tcbs k !! pxCurrentTCB k with
  | Some cur => if uxPriority cur <=? uxPriority t then a else pxCurrentTCB k
  | None => pxCurrentTCB k
  end.

Definition empty_lists : list (list Z) := repeat [] (Z.to_nat configMAX_PRIORITIES).

(** The scheduler has not been suspended, and no task has been blocked. *)
Definition quiet (k : kernel) : Prop :=
  uxSchedulerSuspended k = 0 /\ xYieldPending k = pdFALSE /\ blocked k = [] /\ xPendingReadyList k = [].

Record ready_added (a : Z) (t : TCB_t) (k k' : kernel) : Prop := {
  ra_heap : k_heap k' = k_heap k;
  ra_words : words k' = words k;
  ra_tcbs : tcbs k' = <[a := with_number (u32 (uxTaskNumber k + 1)) t]> (tcbs k);
  ra_current : pxCurrentTCB k' = first_to_run k a t;
  ra_ready : pxReadyTasksLists k' = alter (fun l => l ++ [a]) (Z.to_nat (uxPriority t)) (pxReadyTasksLists k);
  ra_mask : uxTopReadyPriority k' = uxTopReadyPriority k .| bit (uxPriority t);
  ra_count : uxCurrentNumberOfTasks k' = u32 (uxCurrentNumberOfTasks k + 1);
  ra_number : uxTaskNumber k' = u32 (uxTaskNumber k + 1);
  ra_running : xSchedulerRunning k' = xSchedulerRunning k;
  ra_quiet : quiet k -> quiet k'
}.

Lemma prvAddNewTaskToReadyList_run a t k :
  tcbs k !! a = Some t -> xSchedulerRunning k = pdFALSE ->
  (pxCurrentTCB k = 0 -> pxReadyTasksLists k = empty_lists) ->
  (pxCurrentTCB k <> 0 -> is_Some (tcbs k !! pxCurrentTCB k)) ->
  exists k', prvAddNewTaskToReadyList a k = Done tt k' /\ ready_added a t k k'.
Proof.
  intros Ht Hrun Hfirst Hcur. unfold prvAddNewTaskToReadyList. rewrite kmodify_bind, kget_bind.
  set (k1 := set_counts _ _ k).
  assert (E : exists k2, (if pxCurrentTCB k1 =? 0 then
       modify (set_current a) ;; if uxCurrentNumberOfTasks k1 =? 1 then prvInitialiseTaskLists else ret tt
     else if xSchedulerRunning k1 =? pdFALSE then
       cur <- load_tcb (pxCurrentTCB k1) ;; new <- load_tcb a ;;
       if uxPriority cur <=? uxPriority new then modify (set_current a) else ret tt
     else ret tt) k1 = Done tt k2 /\ k_heap k2 = k_heap k /\ words k2 = words k /\ tcbs k2 = tcbs k /\
     pxCurrentTCB k2 = first_to_run k a t /\ pxReadyTasksLists k2 = pxReadyTasksLists k /\
     uxTopReadyPriority k2 = uxTopReadyPriority k /\ uxCurrentNumberOfTasks k2 = uxCurrentNumberOfTasks k1 /\
     uxTaskNumber k2 = uxTaskNumber k /\ xSchedulerRunning k2 = xSchedulerRunning k /\ (quiet k -> quiet k2)).
  { unfold first_to_run. change (pxCurrentTCB k1) with (pxCurrentTCB k).
    change (xSchedulerRunning k1) with (xSchedulerRunning k). rewrite Hrun. change (pdFALSE =? pdFALSE) with true.
    destruct (Z.eqb_spec (pxCurrentTCB k) 0) as [E0 | E0].
    - rewrite kmodify_bind. destruct (uxCurrentNumberOfTasks k1 =? 1); eexists; (split; [reflexivity |]);
        (do 9 (split; [auto; cbn; now rewrite (Hfirst E0) |])); intros Q; apply Q || (split; [apply Q | split; [apply Q | now split]]).
    - destruct (Hcur E0) as [cur Ec]. rewrite Ec, (load_tcb_bind _ cur), (load_tcb_bind _ t) by assumption.
      destruct (uxPriority cur <=? uxPriority t); eexists; (split; [reflexivity |]); do 9 (split; [auto |]); auto. }
  destruct E as (k2 & E & H1 & H2 & H3 & H4 & H5 & H6 & H7 & H8 & H9 & H10).
  rewrite (bind_done _ _ _ _ _ E), kmodify_bind, kget_bind.
  rewrite (load_tcb_bind _ t) by (cbn; now rewrite H3). rewrite store_tcb_bind.
  unfold prvAddTaskToReadyList. erewrite load_tcb_bind by (cbn; apply lookup_insert_eq).
  eexists. split; [reflexivity |]. split; cbn; rewrite ?H1, ?H2, ?H3, ?H4, ?H5, ?H6, ?H7, ?H8, ?H9; try reflexivity. exact H10.
Qed.

(** * Creating a task *)

Definition all_used (l : list seg) : Prop := Forall (fun s => used s = true) l.

Lemma first_fit_tail w pre sz : all_used pre -> w <= sz -> first_fit w (pre ++ [mk_seg false sz]) = Some (pre, sz, []).
Proof.
  intros Hu Hw. induction Hu as [| s pre Hs Hu IH]; cbn.
  - now rewrite (proj2 (Z.leb_le _ _) Hw).
  - rewrite Hs. cbn. now rewrite IH.
Qed.

Lemma first_fit_none_tail w pre sz : all_used pre -> sz < w -> first_fit w (pre ++ [mk_seg false sz]) = None.
Proof.
  intros Hu Hw. induction Hu as [| s pre Hs Hu IH]; cbn.
  - now rewrite (proj2 (Z.leb_gt _ _) Hw).
  - rewrite Hs. cbn. now rewrite IH.
Qed.

#[local] Abbreviation start := (heap_start ucHeap).

(** An allocation from the end of the heap. *)
Lemma malloc_tail n h pre sz : placed ucHeap xStart -> rep ucHeap xStart h (pre ++ [mk_seg false sz]) -> all_used pre ->
  0 < n < 4294967296 -> 4800 < Z.of_nat fuel -> block_for n + 16 < sz ->
  exists h', pvPortMalloc ucHeap xStart fuel n h = Done (start + total pre + 8) h' /\
    rep ucHeap xStart h' ((pre ++ [mk_seg true (block_for n)]) ++ [mk_seg false (sz - block_for n)]) /\
    0 < start + total pre + 8 /\ start + total pre + sz + 8 < 2147483648.
Proof.
  intros Hp Hr Hu Hn Hf Hsz. destruct (block_for_ok n ltac:(lia)) as (K1 & K2 & K3).
  pose proof (first_fit_tail (block_for n) pre sz Hu ltac:(lia)) as Hff.
  destruct (malloc_serves ucHeap xStart fuel n h _ pre sz [] Hp Hr Hn Hf Hff)
    as (_ & _ & _ & h' & E & R & _).
  exists h'. split; [exact E |]. split.
  - unfold split_seg in R. change heapMINIMUM_BLOCK_SIZE with 16 in R.
    rewrite (proj2 (Z.ltb_lt 16 _)) in R by lia. now rewrite <- app_assoc.
  - destruct (heap_bounds _ _ Hp) as (B1 & B2 & B3 & B4 & B5 & B6). destruct Hp as (P1 & P2 & _).
    pose proof (rep_total _ _ _ _ Hr) as T. rewrite total_app in T. cbn [total size] in T.
    pose proof (rep_sizes _ _ _ _ Hr) as S. apply Forall_app in S as [S _].
    pose proof (total_nonneg _ S). lia.
Qed.

(** What [xTaskCreate] leaves, for the new control block [a] with its stack at [stack]. *)
Record task_created (code depth arg prio : Z) (name : list Z) (stack a : Z) (k k' : kernel) : Prop := {
  tc_tcb : tcbs k' = <[a := with_number (u32 (uxTaskNumber k + 1))
             (initialised depth prio name (new_tcb stack tskDYNAMICALLY_ALLOCATED_STACK_AND_TCB))]> (tcbs k);
  tc_frame : starts_at k' portTASK_RETURN_ADDRESS (stack_top stack depth - frame_size) code arg;
  tc_inside : stack <= stack_top stack depth - frame_size /\ stack_top stack depth <= stack + 4 * depth - 4;
  tc_words : forall x, (x < stack \/ stack + 4 * depth <= x) -> words k' !! x = words k !! x;
  tc_current : pxCurrentTCB k' = if pxCurrentTCB k =? 0 then a else
                 match tcbs k !! pxCurrentTCB k with
                 | Some cur => if uxPriority cur <=? prio then a else pxCurrentTCB k
                 | None => pxCurrentTCB k
                 end;
  tc_ready : pxReadyTasksLists k' = alter (fun l => l ++ [a]) (Z.to_nat prio) (pxReadyTasksLists k);
  tc_mask : uxTopReadyPriority k' = uxTopReadyPriority k .| bit prio;
  tc_count : uxCurrentNumberOfTasks k' = u32 (uxCurrentNumberOfTasks k + 1);
  tc_number : uxTaskNumber k' = u32 (uxTaskNumber k + 1);
  tc_running : xSchedulerRunning k' = xSchedulerRunning k;
  tc_quiet : quiet k -> quiet k'
}.

Lemma with_pxStack depth prio name stack : pxStack (initialised depth prio name (new_tcb stack 0)) = stack.
Proof. reflexivity. Qed.

(** Creating a task from the end of the heap: memory for its stack, then for its control block. *)
Lemma xTaskCreate_run code pcName name depth arg prio k pre sz :
  placed ucHeap xStart -> 4800 < Z.of_nat fuel ->
  rep ucHeap xStart (k_heap k) (pre ++ [mk_seg false sz]) -> all_used pre ->
  20 <= depth < 65536 -> 0 < sizeof_TCB_t < 65536 ->
  block_for (4 * depth) + block_for sizeof_TCB_t + 16 < sz ->
  copy_name configMAX_TASK_NAME_LEN 0 pcName (repeat 0 configMAX_TASK_NAME_LEN) = Some name ->
  0 <= prio < configMAX_PRIORITIES -> xSchedulerRunning k = pdFALSE ->
  (pxCurrentTCB k = 0 -> pxReadyTasksLists k = empty_lists) ->
  (pxCurrentTCB k <> 0 -> is_Some (tcbs k !! pxCurrentTCB k)) ->
  let stack := start + total pre + 8 in
  let a := stack + block_for (4 * depth) in
  exists k', xTaskCreate ucHeap xStart fuel sizeof_TCB_t portTASK_RETURN_ADDRESS code (Some pcName) depth arg prio k =
             Done (pdPASS, Some a) k' /\
    task_created code depth arg prio name stack a k k' /\
    rep ucHeap xStart (k_heap k')
      ((pre ++ [mk_seg true (block_for (4 * depth)); mk_seg true (block_for sizeof_TCB_t)]) ++
       [mk_seg false (sz - block_for (4 * depth) - block_for sizeof_TCB_t)]).
Proof.
  intros Hp Hf Hr Hu Hd Hsz Hfit Hn Hprio Hrun Hfirst Hcur stack a.
  destruct (block_for_ok (4 * depth) ltac:(lia)) as (K1 & K2 & K3).
  destruct (block_for_ok sizeof_TCB_t ltac:(lia)) as (J1 & J2 & J3).
  destruct (malloc_tail (4 * depth) (k_heap k) pre sz Hp Hr Hu ltac:(lia) Hf ltac:(lia)) as (h1 & E1 & R1 & B1 & B2).
  assert (Hu1 : all_used (pre ++ [mk_seg true (block_for (4 * depth))])).
  { apply Forall_app. split; [exact Hu | now repeat constructor]. }
  destruct (malloc_tail sizeof_TCB_t h1 _ _ Hp R1 Hu1 ltac:(lia) Hf ltac:(lia)) as (h2 & E2 & R2 & C1 & C2).
  assert (Ea : start + total (pre ++ [mk_seg true (block_for (4 * depth))]) + 8 = a).
  { rewrite total_app. cbn [total size]. unfold a, stack. lia. }
  rewrite Ea in E2, C1. fold stack in E1, B1.
  set (k2 := set_k_heap h2 (set_k_heap h1 k)).
  set (t := new_tcb stack tskDYNAMICALLY_ALLOCATED_STACK_AND_TCB). set (k3 := set_tcbs (<[a := t]> (tcbs k2)) k2).
  destruct (prvAddNewTaskToReadyList_run a (initialised depth prio name t)
    (set_tcbs (<[a := initialised depth prio name t]> (tcbs k3))
       (set_words (frame_words code arg portTASK_RETURN_ADDRESS (stack_top stack depth)
          (fill_words stack (Z.to_nat depth) fill_word (words k3))) k3))) as (k' & E3 & A).
  { cbn. apply lookup_insert_eq. } { exact Hrun. } { exact Hfirst. }
  { cbn. intros N. destruct (Hcur N) as [x Hx]. rewrite insert_insert_eq.
    destruct (decide (a = pxCurrentTCB k)) as [<- | Ne]; [rewrite lookup_insert_eq; eauto |].
    rewrite lookup_insert_ne by exact Ne. rewrite Hx. eauto. }
  exists k'. split; [| split].
  - unfold xTaskCreate, prvCreateTask. rewrite kbind_assoc. change sizeof_StackType_t with 4.
    rewrite (u32_id (depth * 4)), (Z.mul_comm depth 4) by lia.
    assert (S1 : on_heap (pvPortMalloc ucHeap xStart fuel (4 * depth)) k = Done stack (set_k_heap h1 k)).
    { unfold on_heap. now rewrite E1. }
    rewrite (bind_done _ _ _ _ _ S1). rewrite (proj2 (Z.eqb_neq stack 0)) by lia. cbn [negb].
    assert (S2 : on_heap (pvPortMalloc ucHeap xStart fuel sizeof_TCB_t) (set_k_heap h1 k) = Done a k2).
    { unfold on_heap. cbn [k_heap set_k_heap]. now rewrite E2. }
    rewrite !kbind_assoc, (bind_done _ _ _ _ _ S2). rewrite (proj2 (Z.eqb_neq a 0)) by lia. cbn [negb].
    rewrite kbind_assoc, store_tcb_bind. fold t k3. rewrite kret_bind, (proj2 (Z.eqb_neq a 0)) by lia. cbn [negb].
    erewrite bind_done; [| eapply (prvInitialiseNewTask_run code pcName depth arg prio a t name k3)];
      [| cbn; apply lookup_insert_eq | exact Hn | exact Hprio | lia | exact B1 | cbn; lia].
    rewrite (proj2 (Z.eqb_neq a 0)) by lia. cbn [negb]. cbn [pxStack t new_tcb]. rewrite (bind_done _ _ _ _ _ E3). reflexivity.
  - pose proof (stack_top_range stack depth) as Hr2.
    destruct A as [A1 A2 A3 A4 A5 A6 A7 A8 A9 A10]. cbn in A2, A3, A4, A5, A6, A7, A8, A9. split; auto.
    + rewrite A3. now rewrite !insert_insert_eq.
    + apply frame_words_start with (m := fill_words stack (Z.to_nat depth) fill_word (words k)). exact A2.
    + unfold frame_size. lia.
    + intros x Hx. rewrite A2, frame_words_out, fill_words_out by lia. reflexivity.
    + rewrite A4. unfold first_to_run. cbn. rewrite insert_insert_eq.
      destruct (Z.eqb_spec (pxCurrentTCB k) 0) as [_ | N]; [reflexivity |].
      destruct (decide (a = pxCurrentTCB k)) as [Ea' | Ne].
      * rewrite <- Ea', lookup_insert_eq. cbn. rewrite Z.leb_refl. destruct (tcbs k !! a) as [c |]; [now destruct (_ <=? _) | reflexivity].
      * now rewrite lookup_insert_ne by exact Ne.
  - destruct A as [A1 _ _ _ _ _ _ _ _ _]. rewrite A1. cbn. rewrite <- app_assoc in R2.
    rewrite <- app_assoc. rewrite <- app_assoc in R2. exact R2.
Qed.

(** Without memory for the stack, or for the control block after it, nothing is created. *)
Lemma xTaskCreate_no_memory code pcName depth arg prio k l :
  placed ucHeap xStart -> 4800 < Z.of_nat fuel -> rep ucHeap xStart (k_heap k) l ->
  0 < depth < 65536 -> 0 < sizeof_TCB_t < 65536 ->
  match first_fit (block_for (4 * depth)) l with
  | None => True
  | Some (pre, sz, post) => first_fit (block_for sizeof_TCB_t) (pre ++ split_seg (block_for (4 * depth)) sz ++ post) = None
  end ->
  exists h', xTaskCreate ucHeap xStart fuel sizeof_TCB_t portTASK_RETURN_ADDRESS code pcName depth arg prio k =
             Done (errCOULD_NOT_ALLOCATE_REQUIRED_MEMORY, None) (set_k_heap h' k) /\ rep ucHeap xStart h' l.
Proof.
  intros Hp Hf Hr Hd Hsz Hfit. unfold xTaskCreate, prvCreateTask. rewrite kbind_assoc. change sizeof_StackType_t with 4.
  rewrite (u32_id (depth * 4)), (Z.mul_comm depth 4) by lia.
  pose proof (malloc_first_fit ucHeap xStart fuel (4 * depth) (k_heap k) l Hp Hr ltac:(unfold is_u32; lia) Hf) as H.
  rewrite (proj2 (Z.eqb_neq (4 * depth) 0)) in H by lia.
  destruct (first_fit (block_for (4 * depth)) l) as [[[pre sz] post] |] eqn:E.
  - destruct H as (El & _ & _ & h1 & E1 & R1 & _). set (r := start + total pre + 8) in *.
    destruct (malloc_free_restores ucHeap xStart fuel (4 * depth) (k_heap k) l r h1 Hp Hr ltac:(unfold is_u32; lia) Hf
      ltac:(congruence) ltac:(lia) E1) as (Nr & h2 & E2 & R2 & _).
    assert (S1 : on_heap (pvPortMalloc ucHeap xStart fuel (4 * depth)) k = Done r (set_k_heap h1 k)).
    { unfold on_heap. now rewrite E1. }
    rewrite (bind_done _ _ _ _ _ S1), (proj2 (Z.eqb_neq r 0)) by exact Nr. cbn [negb].
    pose proof (malloc_first_fit ucHeap xStart fuel sizeof_TCB_t h1 _ Hp R1 ltac:(unfold is_u32; lia) Hf) as H2.
    rewrite (proj2 (Z.eqb_neq sizeof_TCB_t 0)), Hfit in H2 by lia.
    assert (S2 : on_heap (pvPortMalloc ucHeap xStart fuel sizeof_TCB_t) (set_k_heap h1 k) = Done 0 (set_k_heap h1 k)).
    { unfold on_heap. cbn [k_heap set_k_heap]. now rewrite H2. }
    rewrite !kbind_assoc, (bind_done _ _ _ _ _ S2). cbn [Z.eqb negb].
    assert (S3 : on_heap (vPortFree ucHeap xStart fuel r) (set_k_heap h1 k) = Done tt (set_k_heap h2 k)).
    { unfold on_heap. cbn [k_heap set_k_heap]. now rewrite E2. }
    rewrite kbind_assoc, (bind_done _ _ _ _ _ S3). exists h2. split; [reflexivity | exact R2].
  - assert (S1 : on_heap (pvPortMalloc ucHeap xStart fuel (4 * depth)) k = Done 0 (set_k_heap (k_heap k) k)).
    { unfold on_heap. now rewrite H. }
    rewrite (bind_done _ _ _ _ _ S1). exists (k_heap k). split; [reflexivity | exact Hr].
Qed.

(** C28: Before the scheduler runs, and when the heap is some blocks in use followed by one free block, as
    at the start of the application, [xTaskCreate] either reports that there is no memory, the heap being as
    before even when only the control block did not fit, or creates the task: its stack and its control
    block are two new blocks of the heap, its initial frame lies inside that stack and holds the task
    function, its argument and the return address, no word outside the stack is written, it is last in the
    ready list of its priority, and it becomes the first task to run unless the one chosen so far has a
    higher priority. (Left open: a free block as large as the block for the stack, or those for the stack and the control
    block, or up to 16 bytes larger, which the allocator does not split.) *)
Theorem xTaskCreate_creates code pcName name depth arg prio k pre sz :
  placed ucHeap xStart -> 4800 < Z.of_nat fuel ->
  rep ucHeap xStart (k_heap k) (pre ++ [mk_seg false sz]) -> Forall (fun s => used s = true) pre ->
  20 <= depth < 65536 -> 0 < sizeof_TCB_t < 65536 ->
  copy_name configMAX_TASK_NAME_LEN 0 pcName (repeat 0 configMAX_TASK_NAME_LEN) = Some name ->
  0 <= prio < configMAX_PRIORITIES -> xSchedulerRunning k = pdFALSE ->
  (pxCurrentTCB k = 0 -> pxReadyTasksLists k = empty_lists) ->
  (pxCurrentTCB k <> 0 -> is_Some (tcbs k !! pxCurrentTCB k)) ->
  let stack := start + total pre + 8 in
  let a := stack + block_for (4 * depth) in
  let create := xTaskCreate ucHeap xStart fuel sizeof_TCB_t portTASK_RETURN_ADDRESS code (Some pcName) depth arg prio in
  (block_for (4 * depth) + block_for sizeof_TCB_t + 16 < sz ->
   exists k', create k = Done (pdPASS, Some a) k' /\ task_created code depth arg prio name stack a k k' /\
     rep ucHeap xStart (k_heap k')
       ((pre ++ [mk_seg true (block_for (4 * depth)); mk_seg true (block_for sizeof_TCB_t)]) ++
        [mk_seg false (sz - block_for (4 * depth) - block_for sizeof_TCB_t)])) /\
  (sz < block_for (4 * depth) \/
   block_for (4 * depth) + 16 < sz < block_for (4 * depth) + block_for sizeof_TCB_t ->
   exists h', create k = Done (errCOULD_NOT_ALLOCATE_REQUIRED_MEMORY, None) (set_k_heap h' k) /\
     rep ucHeap xStart h' (pre ++ [mk_seg false sz])).
Proof.
  intros Hp Hf Hr Hu Hd Hsz Hn Hprio Hrun Hfirst Hcur stack a create. split.
  - intros Hfit. exact (xTaskCreate_run code pcName name depth arg prio k pre sz Hp Hf Hr Hu Hd Hsz Hfit Hn Hprio Hrun Hfirst Hcur).
  - intros Hno. apply (xTaskCreate_no_memory code (Some pcName) depth arg prio k); try assumption; [lia |].
    destruct (Z.le_gt_cases (block_for (4 * depth)) sz) as [L | L].
    + rewrite first_fit_tail by assumption. unfold split_seg. change heapMINIMUM_BLOCK_SIZE with 16.
      rewrite (proj2 (Z.ltb_lt 16 _)) by lia. cbn [app].
      pose proof (first_fit_none_tail (block_for sizeof_TCB_t) (pre ++ [mk_seg true (block_for (4 * depth))])
                    (sz - block_for (4 * depth))) as G.
      rewrite <- app_assoc in G. apply G; [| lia]. apply Forall_app. split; [exact Hu | now repeat constructor].
    + now rewrite first_fit_none_tail by assumption.
Qed.
End Proofs.

(** * A first task *)

Definition ex_name : list Z := [0x69; 0x70; 0].
Definition ex_kernel : kernel := kernel_reset ex_heap1.

Lemma xTaskCreate_creates_witness :
  exists k', xTaskCreate ex_ucHeap ex_xStart ex_fuel 100 0x8000001 0x8000101 (Some ex_name) 1000 7 2 ex_kernel =
             Done (pdPASS, Some 0x20000fb8) k' /\ pxCurrentTCB k' = 0x20000fb8 /\
             starts_at k' 0x8000001 0x20000f64 0x8000101 7.
Proof.
  destruct (xTaskCreate_creates ex_ucHeap ex_xStart ex_fuel 100 0x8000001 0x8000101 ex_name
              [0x69; 0x70; 0; 0; 0; 0; 0; 0; 0; 0] 1000 7 2 ex_kernel [] 76784) as [H _].
  - exact ex_placed.
  - vm_compute. reflexivity.
  - exact ex_rep1.
  - constructor.
  - lia.
  - lia.
  - reflexivity.
  - unfold configMAX_PRIORITIES. lia.
  - reflexivity.
  - reflexivity.
  - intros N. contradiction N. reflexivity.
  - destruct H as (k' & E & T & _); [vm_compute; reflexivity |].
    exists k'. split; [exact E |]. split; [exact (tc_current _ _ _ _ _ _ _ _ _ _ T) | exact (tc_frame _ _ _ _ _ _ _ _ _ _ T)].
Defined.
