(* ===== verification/AppStart.v ===== *)
(** The start of the application, [stm32_app/stm32_network_app.c].

    [enc28_test_app] brings up the device, creates the two tasks and the three queues and starts the
    scheduler. Its state is everything it touches: the driver and the device behind it, the kernel ([Tasks]),
    the static variables of the file with the memory of the three queues ([Queue]), and the registry of
    queues. A failed [ASSERT_STATUS] or [configASSERT] is an endless loop. The messages it prints are left
    out. *)
From Stdlib Require Import ZArith Lia Bool.
From stdpp Require Import base decidable list gmap.
From S2P Require Import Prelude Enc28Regs Enc28Driver Enc28Device Enc28Spec Enc28Hoare Enc28Init.
From S2P Require Import Enc28Transmit Enc28Receive Enc28Control App Netif Heap4 Heap4Proofs Heap4Malloc.
From S2P Require Import Queue QueueProofs QueueSpec Tasks TasksProofs.

Definition PACKET_HANDLER_STACK_DEPTH_WORDS : Z := 600.
Definition IP_STACK_TASK_DEPTH_WORDS : Z := 1000.
Definition PACKET_HANDLER_TASK_PRIO : Z := 1.
Definition IP_STACK_TASK_PRIO : Z := 2.
Definition PACKET_PTR_SIZE : Z := 4.
Definition STATIC_PACKET_QUEUE_SIZE : Z := Z.of_nat MAX_ETH_PACKETS * PACKET_PTR_SIZE.

(** [ASSERT_STATUS(s)] *)
Definition ASSERT_STATUS {S} (s : ENC28_CommandStatus) : prog S unit := if is_ok s then ret tt else halt.

(** Names, as the C strings they are. *)
Definition packet_handler_name : list Z :=
  [0x70; 0x61; 0x63; 0x6b; 0x65; 0x74; 0x5f; 0x68; 0x61; 0x6e; 0x64; 0x6c; 0x65; 0x72; 0].
Definition ip_stack_name : list Z := [0x69; 0x70; 0x5f; 0x73; 0x74; 0x61; 0x63; 0x6b; 0].
Definition ready_packets_name : list Z := [0x72; 0x65; 0x61; 0x64; 0x79; 0x5f; 0x70; 0x61; 0x63; 0x6b; 0x65; 0x74; 0x73; 0].
Definition free_packets_name : list Z := [0x66; 0x72; 0x65; 0x65; 0x5f; 0x70; 0x61; 0x63; 0x6b; 0x65; 0x74; 0x73; 0].
Definition transmit_queue_name : list Z :=
  [0x74; 0x72; 0x61; 0x6e; 0x73; 0x6d; 0x69; 0x74; 0x5f; 0x71; 0x75; 0x65; 0x75; 0x65; 0].

(** One of the static queues: its structure and storage, and the variable holding its handle. *)
Record static_queue : Type := mk_static_queue { sq_memory : qstate; sq_handle : Z }.

Record board (W : Type) : Type := mk_board {
  b_drv : drv W;
  b_kernel : kernel;
  packet_task_handle : Z;
  ip_task_handle : Z;
  free_queue : static_queue;
  ready_queue : static_queue;
  transmit_queue : static_queue;
  registry : list QueueRegistryItem_t
}.
Arguments mk_board {W}.
Arguments b_drv {W}.
Arguments b_kernel {W}.
Arguments packet_task_handle {W}.
Arguments ip_task_handle {W}.
Arguments free_queue {W}.
Arguments ready_queue {W}.
Arguments transmit_queue {W}.
Arguments registry {W}.

(** A computation on a part of a state. *)
Definition within {S T A} (get : S -> T) (put : T -> S -> S) (m : prog T A) : prog S A := fun s =>
  match m (get s) with
  | Done a t => Done a (put t s)
  | Undefined => Undefined
  | Halted => Halted
  | OutOfFuel => OutOfFuel
  end.

Section AppStart.
Context {W : Type}.

Definition set_b_drv v (b : board W) : board W := mk_board v (b_kernel b) (packet_task_handle b) (ip_task_handle b) (free_queue b)
  (ready_queue b) (transmit_queue b) (registry b).
Definition set_b_kernel v (b : board W) : board W := mk_board (b_drv b) v (packet_task_handle b) (ip_task_handle b) (free_queue b)
  (ready_queue b) (transmit_queue b) (registry b).
Definition set_handles p i (b : board W) : board W := mk_board (b_drv b) (b_kernel b) p i (free_queue b)
  (ready_queue b) (transmit_queue b) (registry b).
Definition set_free_queue v (b : board W) : board W := mk_board (b_drv b) (b_kernel b) (packet_task_handle b) (ip_task_handle b) v
  (ready_queue b) (transmit_queue b) (registry b).
Definition set_ready_queue v (b : board W) : board W := mk_board (b_drv b) (b_kernel b) (packet_task_handle b) (ip_task_handle b)
  (free_queue b) v (transmit_queue b) (registry b).
Definition set_transmit_queue v (b : board W) : board W := mk_board (b_drv b) (b_kernel b) (packet_task_handle b) (ip_task_handle b)
  (free_queue b) (ready_queue b) v (registry b).
Definition set_registry v (b : board W) : board W := mk_board (b_drv b) (b_kernel b) (packet_task_handle b) (ip_task_handle b)
  (free_queue b) (ready_queue b) (transmit_queue b) v.

Definition on_drv {A} (m : prog (drv W) A) : prog (board W) A := within b_drv set_b_drv m.
Definition on_kernel {A} (m : prog kernel A) : prog (board W) A := within b_kernel set_b_kernel m.
Definition on_registry {A} (m : prog (list QueueRegistryItem_t) A) : prog (board W) A := within registry set_registry m.

Variable poll_fuel : nat.               (** iteration bound of the driver's polling loops *)
Variable ctx : option (ENC28_SPI_Context W).

(** ** The device *)

Definition app_mac : ENC28_MAC_Address := {| addr :=
  [MAC_ADDR_BYTE_0; MAC_ADDR_BYTE_1; MAC_ADDR_BYTE_2; MAC_ADDR_BYTE_3; MAC_ADDR_BYTE_4; MAC_ADDR_BYTE_5] |}.

(** [hw_rev] is an uninitialised local variable. *)
Definition device_start (hw_rev : ENC28_HW_Rev) : prog (drv W) ENC28_HW_Rev :=
  call_nss_pin_op ctx 1 ;;
  status <- enc28_do_soft_reset ctx ;;
  ASSERT_STATUS status ;;
  status <- enc28_do_init poll_fuel app_mac ctx ;;
  ASSERT_STATUS status ;;
  ' (status, hw_rev) <- byref (enc28_do_read_hw_rev poll_fuel ctx) hw_rev ;;
  ASSERT_STATUS status ;;
  status <- enc28_begin_packet_transfer ctx ;;
  ASSERT_STATUS status ;;
  ret hw_rev.

(** ** Tasks and queues *)

Variable ucHeap : Z.
Variable xStart : Z.
Variable heap_fuel : nat.
Variable sizeof_TCB_t : Z.
Variable portTASK_RETURN_ADDRESS : Z.
Variable prvIdleTask : Z.
Variable xIdleTaskTCB : Z.
Variable uxIdleTaskStack : Z.
Variable packet_handling_task : Z.      (** addresses of the task functions and of [ctx] *)
Variable ip_stack_task : Z.
Variable ctx_address : Z.
Variable free_packet_buffer_queue_mem : Z.   (** addresses of the static queue structures and storage areas *)
Variable ready_packet_buffer_queue_mem : Z.
Variable transmit_packet_queue_mem : Z.
Variable free_packet_buff_storage : Z.
Variable ready_packet_buff_storage : Z.
Variable transmit_packet_storage : Z.
Variable wakes_higher : nat -> bool.

Definition create_task (code : Z) (name : list Z) (depth arg prio : Z) : prog (board W) (Z * option Z) :=
  on_kernel (xTaskCreate ucHeap xStart heap_fuel sizeof_TCB_t portTASK_RETURN_ADDRESS code (Some name) depth arg prio).

(** [handle = xQueueCreateStatic(MAX_ETH_PACKETS, PACKET_PTR_SIZE, storage, structure)] *)
Definition create_queue (get : board W -> static_queue) (put : static_queue -> board W -> board W)
  (storage structure : Z) : prog (board W) Z :=
  h <- within (fun b => sq_memory (get b)) (fun q b => put (mk_static_queue q (sq_handle (get b))) b)
         (xQueueGenericCreateStatic wakes_higher (Z.of_nat MAX_ETH_PACKETS) PACKET_PTR_SIZE storage structure) ;;
  modify (fun b : board W => put (mk_static_queue (sq_memory (get b)) h) b) ;;
  ret h.

(** [enc28_test_app] up to the first task it starts. *)
Definition enc28_test_app (hw_rev : ENC28_HW_Rev) : prog (board W) Z :=
  on_drv (device_start hw_rev) ;;
  ' (task_status, created) <- create_task packet_handling_task packet_handler_name PACKET_HANDLER_STACK_DEPTH_WORDS
                                ctx_address PACKET_HANDLER_TASK_PRIO ;;
  modify (fun b : board W => set_handles (default (packet_task_handle b) created) (ip_task_handle b) b) ;;
  configASSERT (task_status =? pdPASS) ;;
  ' (task_status, created) <- create_task ip_stack_task ip_stack_name IP_STACK_TASK_DEPTH_WORDS 0 IP_STACK_TASK_PRIO ;;
  modify (fun b : board W => set_handles (packet_task_handle b) (default (ip_task_handle b) created) b) ;;
  configASSERT (task_status =? pdPASS) ;;
  h <- create_queue free_queue set_free_queue free_packet_buff_storage free_packet_buffer_queue_mem ;;
  configASSERT (negb (h =? 0)) ;;
  h <- create_queue ready_queue set_ready_queue ready_packet_buff_storage ready_packet_buffer_queue_mem ;;
  configASSERT (negb (h =? 0)) ;;
  create_queue transmit_queue set_transmit_queue transmit_packet_storage transmit_packet_queue_mem ;;
  b <- get ;;
  on_registry (vQueueAddToRegistry (sq_handle (ready_queue b)) (Some ready_packets_name)) ;;
  on_registry (vQueueAddToRegistry (sq_handle (free_queue b)) (Some free_packets_name)) ;;
  on_registry (vQueueAddToRegistry (sq_handle (transmit_queue b)) (Some transmit_queue_name)) ;;
  first <- on_kernel (vTaskStartScheduler portTASK_RETURN_ADDRESS prvIdleTask xIdleTaskTCB uxIdleTaskStack) ;;
  match first with
  | Some task => ret task
  | None => halt
  end.

(** The interrupt of the device. *)
Definition enc28_test_app_handle_packet_recv_interrupt : prog (board W) unit :=
  b <- get ;;
  on_kernel (vTaskGenericNotifyGiveFromISR (packet_task_handle b) 0).
End AppStart.
