(* ===== verification/AppStartProofs.v ===== *)
(** What the start of the application establishes. *)
From Stdlib Require Import ZArith Lia Bool.
From stdpp Require Import base decidable list gmap.
From S2P Require Import Prelude Enc28Regs Enc28Driver Enc28Device Enc28Spec Enc28Hoare Enc28Init.
From S2P Require Import Enc28Transmit Enc28Receive Enc28Control Enc28Sim App Netif Heap4 Heap4Proofs Heap4Malloc.
From S2P Require Import Heap4Free Queue QueueProofs QueueSpec Tasks TasksProofs AppStart.

(** * The device *)

(** What survives from the reset to the end of the start. *)
Definition fresh_rest (c0 c : chip) : Prop :=
  phy c = phy c0 /\ sent c = sent c0 /\ released c = 0%nat /\ arrived c = 0%nat.

#[export] Instance fresh_rest_free c0 : BufferFree (fresh_rest c0).
Proof. intros c c' E1 E2 E3 E4 (H1 & H2 & H3 & H4). unfold fresh_rest. rewrite E1, E2, E3, E4. auto. Qed.

(** The device as the start leaves it: ready for [enc28_read_packet]. *)
Record device_ready (c : chip) : Prop := {
  dr_configured : exists full, configured (addr app_mac) full c;
  dr_ready : rx_ready c;
  dr_settled : rx_settled c;
  dr_read_ptr : read_ptr c = ENC28_CONF_RX_ADDRESS_START;
  dr_rxen : Z.testbit (reg c (0, ENC28_CR_ECON1)) ENC28_ECON1_RXEN = true;
  dr_interrupts : reg c (0, ENC28_CR_EIE) = eie_mask;
  dr_packets : released c = 0%nat /\ arrived c = 0%nat
}.

Section Device.
Context {W : Type} {d : spi_callbacks W} `{HD : !Enc28Device d}.
Variable fuel : nat.
#[local] Abbreviation ctx := (Some (context_of d)).

Lemma assert_ok_bind {S A} (k : unit -> prog S A) s : bind (ASSERT_STATUS ENC28_OK) k s = k tt s.
Proof. reflexivity. Qed.

Lemma app_mac_ok : length (addr app_mac) = 6%nat /\ Forall is_u8 (addr app_mac).
Proof. split; [reflexivity |]. repeat constructor; discriminate. Qed.

(** From the reset device to the configured one. *)
Lemma init_from_reset c0 c s : after_reset clk_bound mii_bound c0 c -> is_chip c s ->
  (clk_bound + 1 < fuel)%nat -> (mii_bound < fuel)%nat ->
  exists c' s' full, enc28_do_init fuel app_mac ctx s = Done ENC28_OK s' /\ is_chip c' s' /\
    latched ENC28_CONF_RX_ADDRESS_END (fresh_rest c) c' /\ configured (addr app_mac) full c' /\
    reg c' (0, ENC28_CR_ECON2) = 0x80 /\ reg c' (0, ENC28_CR_EIE) = 0.
Proof.
  intros (R1 & R2 & R3 & R4 & R5 & R6 & R7 & R8 & R9 & R10 & R11 & R12) Hs Hf1 Hf2.
  set (K := mk_known 0 [((0, ENC28_CR_ECON2), Some 0x80); ((0, ENC28_CR_EIE), Some 0)] clk_bound mii_bound).
  destruct app_mac_ok as [M1 M2].
  destruct (enc28_do_init_spec fuel (addr app_mac) (phy c !!! 0) K (fresh_rest c) M1 M2 R10
              ltac:(now intros x (-> & _)) Hf1 Hf2 s) as (st & s' & E & -> & c' & Hs' & HF & Hc & Hk).
  { exists c. split; [exact Hs |]. split; [unfold chip_bank; now rewrite R1 |].
    split; [| split; [exact R4 | split; [exact R5 | repeat split; assumption]]].
    intros k v. cbn. repeat case_decide; subst; congruence. }
  exists c', s', (truth (phy c !!! 0 .& bit ENC28_PHCON1_PDPXMD)).
  split; [exact E |]. split; [exact Hs' |]. split; [exact HF |]. split; [exact Hc |].
  split; apply Hk; try reflexivity; unfold init_keeps; rewrite !elem_of_cons; tauto.
Qed.

Lemma device_start_ready w c0 hw :
  Enc28Device.rep w c0 -> is_u16 (phy c0 !!! ENC28_PHYR_PHID1) -> is_u16 (phy c0 !!! ENC28_PHYR_PHID2) ->
  (clk_bound + 1 < fuel)%nat -> (mii_bound < fuel)%nat ->
  exists c s' hw', device_start fuel ctx hw (mk_drv 0 w) = Done hw' s' /\ is_chip c s' /\ device_ready c /\
    sent c = sent c0 /\ phid1 hw' = phy c0 !!! ENC28_PHYR_PHID1 /\ phid2 hw' = phy c0 !!! ENC28_PHYR_PHID2.
Proof.
  intros Hrep Hp1 Hp2 Hf1 Hf2. unfold device_start.
  assert (E0 : call_nss_pin_op ctx 1 (mk_drv 0 w) = Done tt (mk_drv 0 (dev_nss d 1 w))) by reflexivity.
  rewrite (bind_done _ _ _ _ _ E0).
  destruct (soft_reset_spec c0 (dev_nss d 1 w) 0 (deselect_ok w c0 Hrep)) as (c1 & s1 & E1 & Hr1 & Hb1 & Hreset & Hbk1).
  rewrite (bind_done _ _ _ _ _ E1), assert_ok_bind.
  assert (Hs1 : is_chip c1 s1) by (split; congruence).
  destruct (init_from_reset c0 c1 s1 Hreset Hs1 Hf1 Hf2) as (c2 & s2 & full & E2 & Hs2 & [(F1 & F2 & F3 & F4) F5] & Hc2 & G1 & G2).
  rewrite (bind_done _ _ _ _ _ E2), assert_ok_bind.
  destruct Hreset as (_ & _ & _ & _ & _ & _ & R7 & R8 & R9 & _).
  destruct (read_hw_rev_spec fuel c2 hw Hf2) with (s := s2) as (r & s3 & E3 & -> & c3 & Hs3 & Hrest3 & Hk3);
    [now rewrite F1, R8 | now rewrite F1, R9 | exact Hs2 |].
  match type of E3 with _ = Done (_, Some ?h) _ =>
    assert (E3' : byref (enc28_do_read_hw_rev fuel ctx) hw s2 = Done (ENC28_OK, h) s3)
      by (unfold byref; now rewrite (bind_done _ _ _ _ _ E3)) end.
  rewrite (bind_done _ _ _ _ _ E3').
  rewrite assert_ok_bind.
  assert (Hkept : forall k, k ∈ kept_regs -> reg c3 k = reg c2 k).
  { intros k Hk. apply Hk3. apply elem_of_app. now left. }
  assert (K1 : reg c3 (0, ENC28_CR_ECON2) = 0x80).
  { rewrite Hk3; [exact G1 |]. rewrite elem_of_app, !elem_of_cons. tauto. }
  assert (K2 : reg c3 (0, ENC28_CR_EIE) = 0).
  { rewrite Hk3; [exact G2 |]. rewrite elem_of_app, !elem_of_cons. tauto. }
  assert (Hring : rx_start c3 = ENC28_CONF_RX_ADDRESS_START /\ rx_end c3 = ENC28_CONF_RX_ADDRESS_END).
  { destruct Hc2 as (_ & C1 & C2 & _). unfold rx_start, rx_end, pointer in C1, C2 |- *.
    rewrite !Hkept by (unfold kept_regs; rewrite !elem_of_cons; tauto). auto. }
  destruct (begin_packet_transfer_spec c3 (proj1 Hring) (proj2 Hring) ltac:(now rewrite K1) s3 Hs3)
    as (st & s4 & E4 & -> & c4 & Hs4 & Hrest4 & Hb4 & Hrdy & Hptr & Heie & Hrx & Hk4).
  rewrite (bind_done _ _ _ _ _ E4), assert_ok_bind.
  destruct Hrest3 as (_ & A2 & A3 & A4 & A5 & A6 & _), Hrest4 as (_ & B2 & B3 & B4 & B5 & B6 & _).
  eexists c4, s4, _. split; [reflexivity |]. split; [exact Hs4 |]. split; [| cbn; repeat split; congruence].
  split; try assumption.
  - exists full. apply (configured_kept _ full c2 c4); [| exact Hb4 | exact Hc2].
    intros k Hk. rewrite Hk4, Hkept by exact Hk. reflexivity.
  - right. rewrite B2, A2, F5, Hptr. reflexivity.
  - rewrite Heie, K2. reflexivity.
  - split; congruence.
Qed.
End Device.

(** * The scheduler *)

Section Kernel.
Variable ucHeap : Z.
Variable xStart : Z.
Variable fuel : nat.
Variable sizeof_TCB_t : Z.
Variable portTASK_RETURN_ADDRESS : Z.
Variable prvIdleTask : Z.
Variable xIdleTaskTCB : Z.
Variable uxIdleTaskStack : Z.

(** The first allocation initialises the heap. *)
Lemma xTaskCreate_fresh code name depth arg prio k h1 :
  (forall n, pvPortMalloc ucHeap xStart fuel n (k_heap k) = pvPortMalloc ucHeap xStart fuel n h1) ->
  xTaskCreate ucHeap xStart fuel sizeof_TCB_t portTASK_RETURN_ADDRESS code name depth arg prio k =
  xTaskCreate ucHeap xStart fuel sizeof_TCB_t portTASK_RETURN_ADDRESS code name depth arg prio (set_k_heap h1 k).
Proof.
  intros H. unfold xTaskCreate, prvCreateTask. rewrite !kbind_assoc.
  match goal with |- bind ?m _ _ = _ =>
    assert (E : m k = m (set_k_heap h1 k)) by (unfold on_heap; cbn [k_heap set_k_heap]; rewrite H; now destruct (pvPortMalloc _ _ _ _ h1))
  end.
  unfold bind at 1. rewrite E. reflexivity.
Qed.

Definition idle_name : list Z := [0x49; 0x44; 0x4c; 0x45; 0; 0; 0; 0; 0; 0].

Definition idle_tcb (n : Z) : TCB_t :=
  with_number n (initialised configMINIMAL_STACK_SIZE 0 idle_name
    (new_tcb uxIdleTaskStack tskSTATICALLY_ALLOCATED_STACK_AND_TCB)).

(** What starting the scheduler leaves. *)
Record scheduler_started (k k' : kernel) : Prop := {
  ss_tcbs : tcbs k' = <[xIdleTaskTCB := idle_tcb (u32 (uxTaskNumber k + 1))]> (tcbs k);
  ss_words : forall x, (x < uxIdleTaskStack \/ uxIdleTaskStack + 4 * configMINIMAL_STACK_SIZE <= x) -> words k' !! x = words k !! x;
  ss_frame : starts_at k' portTASK_RETURN_ADDRESS (stack_top uxIdleTaskStack configMINIMAL_STACK_SIZE - frame_size) prvIdleTask 0;
  ss_current : pxCurrentTCB k' = pxCurrentTCB k;
  ss_ready : pxReadyTasksLists k' = alter (fun l => l ++ [xIdleTaskTCB]) 0%nat (pxReadyTasksLists k);
  ss_count : uxCurrentNumberOfTasks k' = u32 (uxCurrentNumberOfTasks k + 1);
  ss_running : xSchedulerRunning k' = pdTRUE;
  ss_mask : uxTopReadyPriority k' = uxTopReadyPriority k .| bit 0;
  ss_clock : xTickCount k' = configINITIAL_TICK_COUNT /\ xNextTaskUnblockTime k' = portMAX_DELAY;
  ss_quiet : quiet k -> quiet k'
}.

Lemma vTaskStartScheduler_run k cur :
  pxCurrentTCB k <> 0 -> tcbs k !! pxCurrentTCB k = Some cur -> 0 < uxPriority cur -> xIdleTaskTCB <> pxCurrentTCB k ->
  xSchedulerRunning k = pdFALSE -> xIdleTaskTCB <> 0 -> 0 < uxIdleTaskStack < 4294966000 ->
  exists k', vTaskStartScheduler portTASK_RETURN_ADDRESS prvIdleTask xIdleTaskTCB uxIdleTaskStack k =
             Done (Some (pxCurrentTCB k)) k' /\ scheduler_started k k'.
Proof.
  intros Hc Hcur Hp Hne Hrun Hi Hs. unfold vTaskStartScheduler, prvCreateIdleTasks, xTaskCreateStatic.
  assert (N1 : (uxIdleTaskStack =? 0) = false) by (apply Z.eqb_neq; lia).
  assert (N2 : (xIdleTaskTCB =? 0) = false) by (now apply Z.eqb_neq).
  rewrite !kbind_assoc, kassert_bind by now rewrite N1. rewrite kbind_assoc, kassert_bind by now rewrite N2.
  rewrite N1, N2. cbn [negb andb]. rewrite kbind_assoc, store_tcb_bind. set (k1 := set_tcbs _ k).
  set (t := new_tcb uxIdleTaskStack tskSTATICALLY_ALLOCATED_STACK_AND_TCB) in *.
  assert (Hd : configMINIMAL_STACK_SIZE = 130) by reflexivity.
  rewrite kbind_assoc. erewrite bind_done;
    [| eapply (prvInitialiseNewTask_run portTASK_RETURN_ADDRESS prvIdleTask configIDLE_TASK_NAME
                 configMINIMAL_STACK_SIZE 0 0 xIdleTaskTCB t idle_name k1)];
    [| cbn; apply lookup_insert_eq | reflexivity | unfold configMAX_PRIORITIES; lia | lia | cbn; lia | cbn; lia].
  set (k2 := set_tcbs _ (set_words _ k1)).
  destruct (prvAddNewTaskToReadyList_run xIdleTaskTCB (initialised configMINIMAL_STACK_SIZE 0 idle_name t) k2)
    as (k3 & E3 & A).
  { cbn. apply lookup_insert_eq. } { exact Hrun. } { intros Z0. contradiction (Hc Z0). }
  { intros _. cbn. rewrite !lookup_insert_ne by congruence. rewrite Hcur. eauto. }
  rewrite kbind_assoc, (bind_done _ _ _ _ _ E3), kret_bind, kbind_assoc, kmodify_bind, kret_bind, N2. cbn [negb].
  change (pdPASS =? pdPASS) with true. cbv iota. rewrite kmodify_bind, kget_bind.
  destruct A as [A1 A2 A3 A4 A5 A6 A7 A8 A9 A10]. cbn in A2, A3, A4, A5, A6, A7, A8, A9.
  assert (Ecur : pxCurrentTCB k3 = pxCurrentTCB k).
  { rewrite A4. unfold first_to_run. cbn. rewrite (proj2 (Z.eqb_neq _ _) Hc).
    rewrite !lookup_insert_ne by congruence. rewrite Hcur, (proj2 (Z.leb_gt _ _) Hp). reflexivity. }
  pose proof (stack_top_range uxIdleTaskStack configMINIMAL_STACK_SIZE) as Hr. rewrite Hd in Hr.
  eexists. split; [unfold ret; cbn; rewrite Ecur; reflexivity |]. split; cbn; auto.
  - rewrite A3. now rewrite !insert_insert_eq.
  - intros x Hx. rewrite Hd in Hx. rewrite A2, frame_words_out, fill_words_out; [reflexivity | |].
    + rewrite Hd, Z2Nat.id by lia. cbn [pxStack t new_tcb]. lia.
    + rewrite Hd. cbn [pxStack t new_tcb]. lia.
  - apply frame_words_start in A2. split; apply A2.
Qed.

(** ** The two tasks *)

Definition packet_stack : Z := heap_start ucHeap + 8.
Definition packet_tcb : Z := packet_stack + block_for (4 * PACKET_HANDLER_STACK_DEPTH_WORDS).
Definition ip_stack : Z := packet_tcb + block_for sizeof_TCB_t.
Definition ip_tcb : Z := ip_stack + block_for (4 * IP_STACK_TASK_DEPTH_WORDS).

Definition packet_handler_copied : list Z := [0x70; 0x61; 0x63; 0x6b; 0x65; 0x74; 0x5f; 0x68; 0x61; 0x6e].
Definition packet_handler_pcTaskName : list Z := [0x70; 0x61; 0x63; 0x6b; 0x65; 0x74; 0x5f; 0x68; 0x61; 0].
Definition ip_stack_pcTaskName : list Z := [0x69; 0x70; 0x5f; 0x73; 0x74; 0x61; 0x63; 0x6b; 0; 0].

#[local] Abbreviation create := (xTaskCreate ucHeap xStart fuel sizeof_TCB_t portTASK_RETURN_ADDRESS).

Lemma tasks_created h0 code1 code2 arg :
  placed ucHeap xStart -> 4800 < Z.of_nat fuel -> pxEnd h0 = 0 -> 0 < sizeof_TCB_t < 1024 ->
  exists k1 k2,
    create code1 (Some packet_handler_name) PACKET_HANDLER_STACK_DEPTH_WORDS arg PACKET_HANDLER_TASK_PRIO (kernel_reset h0) =
      Done (pdPASS, Some packet_tcb) k1 /\
    create code2 (Some ip_stack_name) IP_STACK_TASK_DEPTH_WORDS 0 IP_STACK_TASK_PRIO k1 = Done (pdPASS, Some ip_tcb) k2 /\
    task_created portTASK_RETURN_ADDRESS code1 PACKET_HANDLER_STACK_DEPTH_WORDS arg PACKET_HANDLER_TASK_PRIO
      packet_handler_copied packet_stack packet_tcb (kernel_reset h0) k1 /\
    task_created portTASK_RETURN_ADDRESS code2 IP_STACK_TASK_DEPTH_WORDS 0 IP_STACK_TASK_PRIO
      ip_stack_pcTaskName ip_stack ip_tcb k1 k2.
Proof.
  intros Hp Hf He Hsz. destruct (heap_initialises ucHeap xStart fuel h0 Hp He) as (h1 & _ & R & _ & _ & _ & Hsame).
  pose proof (heap_size ucHeap xStart Hp) as Hsize. change (configTOTAL_HEAP_SIZE - 24) with 76776 in Hsize.
  destruct (block_for_ok sizeof_TCB_t ltac:(lia)) as (_ & _ & Hb).
  assert (B1 : block_for (4 * PACKET_HANDLER_STACK_DEPTH_WORDS) = 2408) by reflexivity.
  assert (B2 : block_for (4 * IP_STACK_TASK_DEPTH_WORDS) = 4008) by reflexivity.
  destruct (xTaskCreate_run ucHeap xStart fuel sizeof_TCB_t portTASK_RETURN_ADDRESS code1 packet_handler_name
    packet_handler_copied PACKET_HANDLER_STACK_DEPTH_WORDS arg PACKET_HANDLER_TASK_PRIO
    (set_k_heap h1 (kernel_reset h0)) [] (heap_end ucHeap - heap_start ucHeap) Hp Hf R) as (k1 & E1 & T1 & R1);
    [now apply Forall_nil | unfold PACKET_HANDLER_STACK_DEPTH_WORDS; lia | lia | lia | reflexivity
    | unfold PACKET_HANDLER_TASK_PRIO, configMAX_PRIORITIES; lia | reflexivity | reflexivity
    | intros N; now contradiction N |].
  cbn [total] in E1, T1, R1. rewrite Z.add_0_r in E1, T1.
  destruct T1 as [C1 C2 C3 C4 C5 C6 C7 C8 C9 C10 C11].
  assert (Hcur : pxCurrentTCB k1 = packet_tcb) by exact C5.
  assert (Hpos : 0 < packet_tcb).
  { unfold packet_tcb, packet_stack. destruct (heap_bounds _ _ Hp) as (X1 & _). destruct Hp as (X2 & _). lia. }
  destruct (xTaskCreate_run ucHeap xStart fuel sizeof_TCB_t portTASK_RETURN_ADDRESS code2 ip_stack_name
    ip_stack_pcTaskName IP_STACK_TASK_DEPTH_WORDS 0 IP_STACK_TASK_PRIO k1 _ _ Hp Hf R1) as (k2 & E2 & T2 & _);
    [now repeat constructor | unfold IP_STACK_TASK_DEPTH_WORDS; lia | lia | lia | reflexivity
    | unfold IP_STACK_TASK_PRIO, configMAX_PRIORITIES; lia | exact C10 | intros N; lia
    | intros _; rewrite Hcur, C1; rewrite lookup_insert_eq; eauto |].
  assert (Es : heap_start ucHeap + total ([] ++ [mk_seg true (block_for (4 * PACKET_HANDLER_STACK_DEPTH_WORDS));
     mk_seg true (block_for sizeof_TCB_t)]) + 8 = ip_stack).
  { cbn [total size app]. unfold ip_stack, packet_tcb, packet_stack. lia. }
  rewrite Es in E2, T2.
  exists k1, k2. split; [| split; [exact E2 | split; [| exact T2]]].
  - rewrite (xTaskCreate_fresh code1 (Some packet_handler_name) _ _ _ (kernel_reset h0) h1 Hsame). exact E1.
  - split; try assumption; reflexivity.
Qed.

(** A task ready for its first run: its control block, and the frame at its saved stack pointer. *)
Definition task_ready (k : kernel) (a sp prio : Z) (name : list Z) (code arg : Z) : Prop :=
  exists t, tcbs k !! a = Some t /\ uxPriority t = prio /\ pcTaskName t = name /\ ulNotifiedValue t = 0 /\
    ucNotifyState t = taskNOT_WAITING_NOTIFICATION /\ xEventListItem_listed t = false /\ pxTopOfStack t = sp /\
    starts_at k portTASK_RETURN_ADDRESS sp code arg.

Lemma task_ready_kept k k' a sp prio name code arg : tcbs k' !! a = tcbs k !! a ->
  (forall x, sp <= x < sp + frame_size -> words k' !! x = words k !! x) ->
  task_ready k a sp prio name code arg -> task_ready k' a sp prio name code arg.
Proof.
  intros Ht Hw (t & H1 & H2 & H3 & H4 & H5 & H6 & H7 & [S1 S2 S3 S4 S5]). unfold frame_size in Hw.
  exists t. rewrite Ht. repeat (split; [assumption |]). split; rewrite Hw by lia; assumption.
Qed.

Lemma created_ready code depth arg prio name stack a k k' :
  task_created portTASK_RETURN_ADDRESS code depth arg prio name stack a k k' ->
  task_ready k' a (stack_top stack depth - frame_size) prio (<[9%nat := 0]> name) code arg.
Proof.
  intros [C1 C2 _ _ _ _ _ _ _ _ _]. eexists. split; [rewrite C1; apply lookup_insert_eq |]. repeat split; apply C2.
Qed.

Definition packet_sp : Z := stack_top packet_stack PACKET_HANDLER_STACK_DEPTH_WORDS - frame_size.
Definition ip_sp : Z := stack_top ip_stack IP_STACK_TASK_DEPTH_WORDS - frame_size.
Definition idle_sp : Z := stack_top uxIdleTaskStack configMINIMAL_STACK_SIZE - frame_size.

Record kernel_started (k : kernel) (code1 code2 arg : Z) : Prop := {
  ks_current : pxCurrentTCB k = ip_tcb;
  ks_ready : pxReadyTasksLists k = [[xIdleTaskTCB]; [packet_tcb]; [ip_tcb]; []; []];
  ks_packet : task_ready k packet_tcb packet_sp PACKET_HANDLER_TASK_PRIO packet_handler_pcTaskName code1 arg;
  ks_ip : task_ready k ip_tcb ip_sp IP_STACK_TASK_PRIO ip_stack_pcTaskName code2 0;
  ks_idle : task_ready k xIdleTaskTCB idle_sp 0 idle_name prvIdleTask 0;
  ks_count : uxCurrentNumberOfTasks k = 3;
  ks_running : xSchedulerRunning k = pdTRUE;
  ks_tasks : forall a, is_Some (tcbs k !! a) -> a = xIdleTaskTCB \/ a = packet_tcb \/ a = ip_tcb;
  ks_mask : uxTopReadyPriority k = 7;
  ks_clock : xTickCount k = configINITIAL_TICK_COUNT /\ xNextTaskUnblockTime k = portMAX_DELAY;
  ks_quiet : quiet k;
  ks_distinct : NoDup [xIdleTaskTCB; packet_tcb; ip_tcb]
}.

(** Where the idle task has its control block and its stack: not in the heap. *)
Definition idle_memory : Prop :=
  xIdleTaskTCB <> 0 /\ (xIdleTaskTCB < ucHeap \/ ucHeap + configTOTAL_HEAP_SIZE <= xIdleTaskTCB) /\
  0 < uxIdleTaskStack < 4294966000 /\
  (uxIdleTaskStack + 4 * configMINIMAL_STACK_SIZE <= ucHeap \/ ucHeap + configTOTAL_HEAP_SIZE <= uxIdleTaskStack).

(** The two tasks in memory: one stack and one control block after the other, inside the heap. *)
Lemma task_memory : placed ucHeap xStart -> 0 < sizeof_TCB_t < 1024 ->
  ucHeap < packet_stack /\ packet_stack <= packet_sp /\ packet_sp + frame_size <= packet_tcb /\
  packet_tcb < ip_stack /\ ip_stack <= ip_sp /\ ip_sp + frame_size <= ip_tcb /\ ip_tcb < ucHeap + configTOTAL_HEAP_SIZE.
Proof.
  intros Hp Hsz. destruct (heap_bounds _ _ Hp) as (X1 & X2 & X3 & X4 & X5 & X6).
  pose proof (heap_size ucHeap xStart Hp) as Hsize. change (configTOTAL_HEAP_SIZE - 24) with 76776 in Hsize.
  destruct (block_for_ok sizeof_TCB_t ltac:(lia)) as (_ & _ & Hb).
  assert (B1 : block_for (4 * PACKET_HANDLER_STACK_DEPTH_WORDS) = 2408) by reflexivity.
  assert (B2 : block_for (4 * IP_STACK_TASK_DEPTH_WORDS) = 4008) by reflexivity.
  pose proof (stack_top_range packet_stack PACKET_HANDLER_STACK_DEPTH_WORDS) as T1.
  pose proof (stack_top_range ip_stack IP_STACK_TASK_DEPTH_WORDS) as T2.
  unfold packet_sp, ip_sp, ip_tcb, frame_size. unfold ip_stack, packet_tcb, packet_stack in *.
  unfold PACKET_HANDLER_STACK_DEPTH_WORDS, IP_STACK_TASK_DEPTH_WORDS in *. lia.
Qed.

#[local] Abbreviation scheduler := (vTaskStartScheduler portTASK_RETURN_ADDRESS prvIdleTask xIdleTaskTCB uxIdleTaskStack).

Lemma kernel_starts h0 code1 code2 arg :
  placed ucHeap xStart -> 4800 < Z.of_nat fuel -> pxEnd h0 = 0 -> 0 < sizeof_TCB_t < 1024 -> idle_memory ->
  exists k1 k2 k3,
    create code1 (Some packet_handler_name) PACKET_HANDLER_STACK_DEPTH_WORDS arg PACKET_HANDLER_TASK_PRIO (kernel_reset h0) =
      Done (pdPASS, Some packet_tcb) k1 /\
    create code2 (Some ip_stack_name) IP_STACK_TASK_DEPTH_WORDS 0 IP_STACK_TASK_PRIO k1 = Done (pdPASS, Some ip_tcb) k2 /\
    scheduler k2 = Done (Some ip_tcb) k3 /\ kernel_started k3 code1 code2 arg.
Proof.
  intros Hp Hf He Hsz (I1 & I2 & I3 & I4).
  destruct (tasks_created h0 code1 code2 arg Hp Hf He Hsz) as (k1 & k2 & E1 & E2 & T1 & T2).
  destruct (task_memory Hp Hsz) as (M1 & M2 & M3 & M4 & M5 & M6 & M7).
  pose proof (created_ready _ _ _ _ _ _ _ _ _ T1) as R1. pose proof (created_ready _ _ _ _ _ _ _ _ _ T2) as R2.
  destruct T1 as [C1 C2 C3 C4 C5 C6 C7 C8 C9 C10 C11], T2 as [D1 D2 D3 D4 D5 D6 D7 D8 D9 D10 D11].
  assert (P0 : 0 < ucHeap) by apply Hp. unfold frame_size, configTOTAL_HEAP_SIZE in *.
  assert (Hcur1 : pxCurrentTCB k1 = packet_tcb) by exact C5.
  assert (Hcur2 : pxCurrentTCB k2 = ip_tcb).
  { rewrite D5, Hcur1, (proj2 (Z.eqb_neq packet_tcb 0)), C1, lookup_insert_eq by lia. reflexivity. }
  assert (Ht2 : exists t, tcbs k2 !! ip_tcb = Some t /\ 0 < uxPriority t).
  { eexists. rewrite D1, lookup_insert_eq. split; [reflexivity | cbn; unfold IP_STACK_TASK_PRIO; lia]. }
  destruct Ht2 as (t2 & Ht2 & Hprio).
  destruct (vTaskStartScheduler_run k2 t2)
    as (k3 & E3 & [S1 S2 S3 S4 S5 S6 S7 S8 S9 S10]);
    [lia | now rewrite Hcur2 | exact Hprio | lia | now rewrite D10, C10 | exact I1 | exact I3 |].
  rewrite Hcur2 in E3. exists k1, k2, k3. split; [exact E1 |]. split; [exact E2 |]. split; [exact E3 |].
  assert (Hd : configMINIMAL_STACK_SIZE = 130) by reflexivity. split.
  - congruence.
  - rewrite S5, D6, C6. reflexivity.
  - apply task_ready_kept with k2; [rewrite S1; apply lookup_insert_ne; lia | intros x Hx; apply S2; unfold frame_size in *; lia |].
    apply task_ready_kept with k1; [rewrite D1; apply lookup_insert_ne; lia
      | intros x Hx; apply D4; unfold frame_size, IP_STACK_TASK_DEPTH_WORDS in *; lia | exact R1].
  - apply task_ready_kept with k2; [rewrite S1; apply lookup_insert_ne; lia | intros x Hx; apply S2; unfold frame_size in *; lia | exact R2].
  - eexists. split; [rewrite S1; apply lookup_insert_eq |]. repeat split; apply S3.
  - rewrite S6, D8, C8. reflexivity.
  - exact S7.
  - intros a [t E]. rewrite S1, D1, C1 in E. repeat (rewrite lookup_insert in E; destruct (decide _); [auto |]).
    change (tcbs (kernel_reset h0)) with (∅ : gmap Z TCB_t) in E. now rewrite lookup_empty in E.
  - rewrite S8, D7, C7. reflexivity.
  - exact S9.
  - apply S10, D11, C11. now split.
  - repeat constructor; rewrite ?elem_of_cons, ?elem_of_nil; lia.
Qed.
End Kernel.

(** * The queues *)

Lemma within_done {S T A} (g : S -> T) (put : T -> S -> S) (m : prog T A) s a t :
  m (g s) = Done a t -> within g put m s = Done a (put t s).
Proof. intros E. unfold within. now rewrite E. Qed.

(** The memory of a static queue: storage for its items, and a place for its structure. *)
Definition queue_memory (storage structure : Z) (q : static_queue) : Prop :=
  PACKET_PTR_SIZE <= storage /\ storage + STATIC_PACKET_QUEUE_SIZE < 4294967296 /\ 0 < structure < 4294967296 /\
  forall i, 0 <= i < Z.of_nat MAX_ETH_PACKETS ->
    is_Some (get_bytes (storage + i * PACKET_PTR_SIZE) (Z.to_nat PACKET_PTR_SIZE) (memory (sq_memory q))).

(** An empty queue of [MAX_ETH_PACKETS] pointers, nobody waiting for it. *)
Record queue_ready (structure : Z) (q : static_queue) : Prop := {
  qr_handle : sq_handle q = structure;
  qr_empty : holds (sq_memory q) [];
  qr_length : uxLength (queue (sq_memory q)) = Z.of_nat MAX_ETH_PACKETS;
  qr_item : uxItemSize (queue (sq_memory q)) = PACKET_PTR_SIZE;
  qr_unlocked : cRxLock (queue (sq_memory q)) = queueUNLOCKED /\ cTxLock (queue (sq_memory q)) = queueUNLOCKED;
  qr_waiting : xTasksWaitingToSend (queue (sq_memory q)) = [] /\ xTasksWaitingToReceive (queue (sq_memory q)) = []
}.

Lemma create_queue_run {W} wakes_higher (g : board W -> static_queue) put storage structure b :
  (forall q b, g (put q b) = q) -> (forall q q' b, put q (put q' b) = put q b) ->
  queue_memory storage structure (g b) ->
  exists q, create_queue wakes_higher g put storage structure b = Done structure (put q b) /\ queue_ready structure q.
Proof.
  intros Hg Hput (M1 & M2 & M3 & M4). unfold PACKET_PTR_SIZE, STATIC_PACKET_QUEUE_SIZE in *.
  destruct (queue_create_static wakes_higher (Z.of_nat MAX_ETH_PACKETS) 4 storage structure (sq_memory (g b)))
    as [(q & E & Hq1 & Hq2 & Hq3 & Hq4 & Hq5 & Hq6 & Hq7 & _) _];
    [unfold MAX_ETH_PACKETS; lia | lia | exact M2 | exact M3 | exact M4 |].
  exists (mk_static_queue q structure). unfold create_queue. split; [| now split].
  erewrite bind_done by (eapply within_done; exact E). cbn. now rewrite Hg, Hput.
Qed.

Definition empty_registry : list QueueRegistryItem_t := repeat (mk_registry_item None 0) configQUEUE_REGISTRY_SIZE.

Lemma three_registered r f t : r <> 0 -> f <> 0 -> t <> 0 -> r <> f -> r <> t -> f <> t ->
  exists l1 l2, vQueueAddToRegistry r (Some ready_packets_name) empty_registry = Done tt l1 /\
    vQueueAddToRegistry f (Some free_packets_name) l1 = Done tt l2 /\
    vQueueAddToRegistry t (Some transmit_queue_name) l2 =
    Done tt ([mk_registry_item (Some ready_packets_name) r; mk_registry_item (Some free_packets_name) f;
              mk_registry_item (Some transmit_queue_name) t] ++ repeat (mk_registry_item None 0) 5).
Proof.
  intros Hr Hf Ht D1 D2 D3. unfold vQueueAddToRegistry, empty_registry. cbn [repeat configQUEUE_REGISTRY_SIZE].
  assert (Ne : forall a, a <> 0 -> (a =? 0) = false) by (intros a; apply Z.eqb_neq).
  eexists _, _. split; [| split].
  - unfold configASSERT, bind, get. rewrite (Ne _ Hr). cbn -[ready_packets_name]. rewrite (Ne _ Hr). reflexivity.
  - unfold configASSERT, bind, get. rewrite (Ne _ Hf). cbn -[ready_packets_name free_packets_name].
    rewrite (Ne _ Hf), (proj2 (Z.eqb_neq f r)) by congruence. reflexivity.
  - unfold configASSERT, bind, get. rewrite (Ne _ Ht). cbn -[ready_packets_name free_packets_name transmit_queue_name].
    rewrite (Ne _ Ht), (proj2 (Z.eqb_neq t r)), (proj2 (Z.eqb_neq t f)) by congruence. reflexivity.
Qed.

(** * The whole start *)

Section Start.
Context {W : Type} {d : spi_callbacks W} `{HD : !Enc28Device d}.
Variable poll_fuel : nat.
Variable ucHeap : Z.
Variable xStart : Z.
Variable heap_fuel : nat.
Variable sizeof_TCB_t : Z.
Variable portTASK_RETURN_ADDRESS : Z.
Variable prvIdleTask : Z.
Variable xIdleTaskTCB : Z.
Variable uxIdleTaskStack : Z.
Variable packet_handling_task : Z.
Variable ip_stack_task : Z.
Variable ctx_address : Z.
Variable free_mem : Z.
Variable ready_mem : Z.
Variable transmit_mem : Z.
Variable free_storage : Z.
Variable ready_storage : Z.
Variable transmit_storage : Z.
Variable wakes_higher : nat -> bool.

#[local] Abbreviation ctx := (Some (context_of d)).
#[local] Abbreviation start_app := (enc28_test_app poll_fuel ctx ucHeap xStart heap_fuel sizeof_TCB_t portTASK_RETURN_ADDRESS
  prvIdleTask xIdleTaskTCB uxIdleTaskStack packet_handling_task ip_stack_task ctx_address free_mem ready_mem transmit_mem
  free_storage ready_storage transmit_storage wakes_higher).
#[local] Abbreviation packet_task := (packet_tcb ucHeap).
#[local] Abbreviation ip_task := (ip_tcb ucHeap sizeof_TCB_t).

(** The application after its start, on a device that was [c0] before. *)
Record app_started (c0 : chip) (b : board W) : Prop := {
  as_device : exists c, is_chip c (b_drv b) /\ device_ready c /\ sent c = sent c0;
  as_kernel : kernel_started ucHeap sizeof_TCB_t portTASK_RETURN_ADDRESS prvIdleTask xIdleTaskTCB uxIdleTaskStack
                (b_kernel b) packet_handling_task ip_stack_task ctx_address;
  as_handles : packet_task_handle b = packet_task /\ ip_task_handle b = ip_task;
  as_free : queue_ready free_mem (free_queue b);
  as_ready : queue_ready ready_mem (ready_queue b);
  as_transmit : queue_ready transmit_mem (transmit_queue b);
  as_registry : registry b = [mk_registry_item (Some ready_packets_name) ready_mem;
                              mk_registry_item (Some free_packets_name) free_mem;
                              mk_registry_item (Some transmit_queue_name) transmit_mem] ++ repeat (mk_registry_item None 0) 5
}.

(** The memory the linker gives the application. *)
Record app_memory (fq rq tq : static_queue) : Prop := {
  am_heap : placed ucHeap xStart;
  am_tcb : 0 < sizeof_TCB_t < 1024;
  am_idle : idle_memory ucHeap xIdleTaskTCB uxIdleTaskStack;
  am_free : queue_memory free_storage free_mem fq;
  am_ready : queue_memory ready_storage ready_mem rq;
  am_transmit : queue_memory transmit_storage transmit_mem tq;
  am_distinct : ready_mem <> free_mem /\ ready_mem <> transmit_mem /\ free_mem <> transmit_mem
}.

Definition board_at_reset (w : W) (h0 : heap) (fq rq tq : static_queue) : board W :=
  mk_board (mk_drv 0 w) (kernel_reset h0) 0 0 fq rq tq empty_registry.

(** C6: [enc28_test_app] starts the application: on a device in any state that conforms to [Enc28Device] - in
    particular, that carries out commands right after a soft reset, whatever CLKRDY reads as, where erratum 1 of
    revision B7 asks for a wait of 1 ms that the driver does not make - and with [ucHeap] not yet used, it gets past every assertion, leaves the device configured and receiving with an empty ring and nothing
    sent, both tasks ready at their priorities with their functions and arguments, the three queues empty
    with room for [MAX_ETH_PACKETS] pointers and registered by name, and hands the processor to the IP task,
    the idle task being ready below the two. *)
Theorem enc28_test_app_starts w c0 h0 fq rq tq hw :
  app_memory fq rq tq -> 4800 < Z.of_nat heap_fuel -> (clk_bound + 1 < poll_fuel)%nat -> (mii_bound < poll_fuel)%nat ->
  Enc28Device.rep w c0 -> is_u16 (phy c0 !!! ENC28_PHYR_PHID1) -> is_u16 (phy c0 !!! ENC28_PHYR_PHID2) -> pxEnd h0 = 0 ->
  exists b, start_app hw (board_at_reset w h0 fq rq tq) = Done ip_task b /\ app_started c0 b.
Proof.
  intros [Hp Hsz Hidle Hfq Hrq Htq (D1 & D2 & D3)] Hhf Hf1 Hf2 Hrep Hp1 Hp2 He.
  destruct (device_start_ready poll_fuel w c0 hw Hrep Hp1 Hp2 Hf1 Hf2) as (c & s1 & hw' & Ed & Hs1 & Hc & Hsent & _).
  destruct (kernel_starts ucHeap xStart heap_fuel sizeof_TCB_t portTASK_RETURN_ADDRESS prvIdleTask xIdleTaskTCB uxIdleTaskStack
              h0 packet_handling_task ip_stack_task ctx_address Hp Hhf He Hsz Hidle) as (k1 & k2 & k3 & E1 & E2 & E3 & Hk).
  destruct (three_registered ready_mem free_mem transmit_mem) as (l1 & l2 & L1 & L2 & L3);
    [destruct Hrq as (_ & _ & ? & _); lia | destruct Hfq as (_ & _ & ? & _); lia | destruct Htq as (_ & _ & ? & _); lia
    | exact D1 | exact D2 | exact D3 |].
  destruct Hfq as (F1 & F2 & F3 & F4), Hrq as (R1 & R2 & R3 & R4), Htq as (T1 & T2 & T3 & T4).
  unfold enc28_test_app.
  erewrite bind_done by (eapply within_done; exact Ed). cbv beta.
  erewrite bind_done by (eapply within_done; exact E1). cbv beta iota.
  erewrite bind_done by reflexivity. cbn [default from_option].
  erewrite bind_done by reflexivity. cbv beta.
  erewrite bind_done by (eapply within_done; exact E2). cbv beta iota.
  erewrite bind_done by reflexivity. erewrite bind_done by reflexivity.
  match goal with |- exists b, bind (create_queue _ ?g ?put _ _) _ ?s = _ /\ _ =>
    destruct (create_queue_run wakes_higher g put free_storage free_mem s) as (q1 & Q1 & G1);
      [reflexivity | reflexivity | now split |] end.
  rewrite (bind_done _ _ _ _ _ Q1). rewrite (proj2 (Z.eqb_neq free_mem 0)) by lia. erewrite bind_done by reflexivity.
  match goal with |- exists b, bind (create_queue _ ?g ?put _ _) _ ?s = _ /\ _ =>
    destruct (create_queue_run wakes_higher g put ready_storage ready_mem s) as (q2 & Q2 & G2);
      [reflexivity | reflexivity | now split |] end.
  rewrite (bind_done _ _ _ _ _ Q2). rewrite (proj2 (Z.eqb_neq ready_mem 0)) by lia. erewrite bind_done by reflexivity.
  match goal with |- exists b, bind (create_queue _ ?g ?put _ _) _ ?s = _ /\ _ =>
    destruct (create_queue_run wakes_higher g put transmit_storage transmit_mem s) as (q3 & Q3 & G3);
      [reflexivity | reflexivity | now split |] end.
  rewrite (bind_done _ _ _ _ _ Q3). erewrite bind_done by reflexivity.
  rewrite <- (qr_handle _ _ G2) in L1 at 1. rewrite <- (qr_handle _ _ G1) in L2 at 1. rewrite <- (qr_handle _ _ G3) in L3 at 1.
  erewrite bind_done by (eapply within_done; exact L1). cbv beta.
  erewrite bind_done by (eapply within_done; exact L2). cbv beta.
  erewrite bind_done by (eapply within_done; exact L3). cbv beta.
  erewrite bind_done by (eapply within_done; exact E3). cbv iota beta.
  eexists. split; [reflexivity |]. split; try assumption.
  - exists c. now split.
  - now split.
  - reflexivity.
Qed.

(** C40: A frame that arrives too early stops the system. Once [enc28_begin_packet_transfer] has returned, before
    the first task is created, the device receives and its interrupts are enabled; the handler of that
    interrupt passes the handle of the packet task, still [NULL], to [vTaskNotifyGiveFromISR], whose assertion
    never returns. *)
Theorem early_interrupt_halts w c0 h0 fq rq tq hw :
  (clk_bound + 1 < poll_fuel)%nat -> (mii_bound < poll_fuel)%nat ->
  Enc28Device.rep w c0 -> is_u16 (phy c0 !!! ENC28_PHYR_PHID1) -> is_u16 (phy c0 !!! ENC28_PHYR_PHID2) ->
  exists hw' b c, on_drv (device_start poll_fuel ctx hw) (board_at_reset w h0 fq rq tq) = Done hw' b /\
    is_chip c (b_drv b) /\ Z.testbit (reg c (0, ENC28_CR_ECON1)) ENC28_ECON1_RXEN = true /\
    reg c (0, ENC28_CR_EIE) = eie_mask /\ enc28_test_app_handle_packet_recv_interrupt b = Halted.
Proof.
  intros Hf1 Hf2 Hrep Hp1 Hp2.
  destruct (device_start_ready poll_fuel w c0 hw Hrep Hp1 Hp2 Hf1 Hf2) as (c & s1 & hw' & Ed & Hs1 & Hc & _).
  exists hw', (set_b_drv s1 (board_at_reset w h0 fq rq tq)), c.
  split; [apply within_done; exact Ed |]. split; [exact Hs1 |]. split; [apply Hc | split; [apply Hc |]]. reflexivity.
Qed.
End Start.

(** * The start on the simulated device *)

Definition ex_storage_bytes (a : Z) : gmap Z Z := list_to_map ((fun i => (a + i, 0)) <$> zrange 32).
Definition ex_static_queue (storage : Z) : static_queue :=
  mk_static_queue (mk_qstate (mk_queue 0 0 0 0 [] [] 0 0 0 0 0) (ex_storage_bytes storage) [] false) 0.

Lemma ex_queue_memory storage structure : PACKET_PTR_SIZE <= storage -> storage + STATIC_PACKET_QUEUE_SIZE < 4294967296 ->
  0 < structure < 4294967296 ->
  forallb (fun i => bool_decide (is_Some (get_bytes (storage + i * 4) 4 (ex_storage_bytes storage)))) (zrange 8) = true ->
  queue_memory storage structure (ex_static_queue storage).
Proof.
  intros H1 H2 H3 H. split; [exact H1 |]. split; [exact H2 |]. split; [exact H3 |]. intros i Hi.
  assert (E := zrange_forallb _ _ i H ltac:(unfold MAX_ETH_PACKETS in Hi; lia)). now apply bool_decide_eq_true_1 in E.
Qed.

Lemma ex_app_memory : app_memory ex_ucHeap ex_xStart 100 0x20018000 0x20018100 0x20019000 0x20019050 0x200190a0
  0x20019200 0x20019220 0x20019240 (ex_static_queue 0x20019200) (ex_static_queue 0x20019220) (ex_static_queue 0x20019240).
Proof.
  split; [exact ex_placed | lia | | | | | lia].
  - unfold idle_memory, ex_ucHeap, configTOTAL_HEAP_SIZE, configMINIMAL_STACK_SIZE. lia.
  - apply ex_queue_memory; [unfold PACKET_PTR_SIZE | unfold STATIC_PACKET_QUEUE_SIZE, PACKET_PTR_SIZE, MAX_ETH_PACKETS | |
      vm_compute; reflexivity]; lia.
  - apply ex_queue_memory; [unfold PACKET_PTR_SIZE | unfold STATIC_PACKET_QUEUE_SIZE, PACKET_PTR_SIZE, MAX_ETH_PACKETS | |
      vm_compute; reflexivity]; lia.
  - apply ex_queue_memory; [unfold PACKET_PTR_SIZE | unfold STATIC_PACKET_QUEUE_SIZE, PACKET_PTR_SIZE, MAX_ETH_PACKETS | |
      vm_compute; reflexivity]; lia.
Qed.

Lemma ex_chip_rep : Enc28Device.rep (mk_sim chip_reset []) chip_reset.
Proof. split; [reflexivity |]. apply wf_check_ok. vm_compute. reflexivity. Qed.

Lemma enc28_test_app_starts_witness :
  exists b, enc28_test_app 2 (Some (context_of simulated)) ex_ucHeap ex_xStart ex_fuel 100 0x8000001 0x8000301 0x20018000
    0x20018100 0x8000101 0x8000201 0x20000000 0x20019000 0x20019050 0x200190a0 0x20019200 0x20019220 0x20019240
    (fun _ => false) (Build_ENC28_HW_Rev 0 0 0)
    (board_at_reset (mk_sim chip_reset []) ex_heap0 (ex_static_queue 0x20019200) (ex_static_queue 0x20019220)
      (ex_static_queue 0x20019240)) = Done 0x20001990 b /\ sq_handle (transmit_queue b) = 0x200190a0.
Proof.
  destruct (enc28_test_app_starts (d := simulated) 2 ex_ucHeap ex_xStart ex_fuel 100 0x8000001 0x8000301 0x20018000 0x20018100
    0x8000101 0x8000201 0x20000000 0x20019000 0x20019050 0x200190a0 0x20019200 0x20019220 0x20019240 (fun _ => false)
    (mk_sim chip_reset []) chip_reset ex_heap0 _ _ _ (Build_ENC28_HW_Rev 0 0 0) ex_app_memory) as (b & E & H).
  - vm_compute. reflexivity.
  - cbn. lia.
  - cbn. lia.
  - exact ex_chip_rep.
  - vm_compute. split; congruence.
  - vm_compute. split; congruence.
  - reflexivity.
  - exists b. split; [exact E | destruct H as [_ _ _ _ _ [Hh _ _ _ _ _] _]; exact Hh].
Defined.

Lemma early_interrupt_halts_witness :
  exists b : board sim, enc28_test_app_handle_packet_recv_interrupt b = Halted.
Proof.
  destruct (early_interrupt_halts (d := simulated) 2 (mk_sim chip_reset []) chip_reset ex_heap0 (ex_static_queue 0x20019200)
    (ex_static_queue 0x20019220) (ex_static_queue 0x20019240) (Build_ENC28_HW_Rev 0 0 0)) as (hw' & b & c & _ & _ & _ & _ & H).
  - cbn. lia.
  - cbn. lia.
  - exact ex_chip_rep.
  - vm_compute. split; congruence.
  - vm_compute. split; congruence.
  - exists b. exact H.
Defined.
