(* ===== verification/Sched.v ===== *)
(** The scheduler of [FreeRTOS/tasks.c] while it runs: ticks, blocking and unblocking, the choice of the next
    task, and notifications.

    A list of tasks is the sequence of their list items. Only the ready lists are walked with
    [pxIndex], so a ready list is a cycle that also has the end marker in it ([cyc]); [KernelList] has the
    linked structure. The queues' lists of waiting tasks are by address. Configuration: one core, no
    preemption, so nothing here switches by itself; a switch is the call of [vTaskSwitchContext]. *)
From Stdlib Require Import ZArith Lia Bool.
From stdpp Require Import base decidable list gmap.
From S2P Require Import Prelude Queue Tasks.

(** ** Ready lists *)

(** The items from [pxIndex->pxNext] on, and [pxIndex]; [None] is the end marker. *)
Record cyc : Type := mk_cyc { after : list (option Z); pxIndex : option Z }.

Definition cyc_empty : cyc := mk_cyc [] None.
Definition cyc_items (c : cyc) : list (option Z) := after c ++ [pxIndex c].

(** The tasks, the next to be chosen first. *)
Definition members (c : cyc) : list Z := omap id (cyc_items c).

(** [listINSERT_END]: in front of [pxIndex]. *)
Definition listINSERT_END (x : Z) (c : cyc) : cyc := mk_cyc (after c ++ [Some x]) (pxIndex c).

(** [listREMOVE_ITEM]: [pxIndex] steps back if it points to the item. *)
Definition cyc_remove (x : Z) (c : cyc) : cyc :=
  if decide (pxIndex c = Some x) then mk_cyc (removelast (after c)) (List.last (after c) None)
  else mk_cyc (filter (fun i => i <> Some x) (after c)) (pxIndex c).

Definition cyc_next (c : cyc) : cyc :=
  match after c with [] => c | i :: l => mk_cyc (l ++ [pxIndex c]) i end.

(** [listGET_OWNER_OF_NEXT_ENTRY]: one step, and another one if that was the end marker. *)
Definition listGET_OWNER_OF_NEXT_ENTRY (c : cyc) : cyc :=
  let c' := cyc_next c in if decide (pxIndex c' = None) then cyc_next c' else c'.

(** ** The state *)

(** Where the event list item of a task is. *)
Inductive event_place : Type :=
| NoList
| InEventList (l : Z)
| InPendingReady.

#[export] Instance event_place_eq_dec : EqDecision event_place.
Proof. solve_decision. Defined.

Record stcb : Type := mk_stcb {
  prio : Z;
  xItemValue : Z;                  (** of the state list item: the time to wake *)
  event : event_place;
  notified : Z;                    (** [ulNotifiedValue[0]] *)
  notify_state : Z                 (** [ucNotifyState[0]] *)
}.

Record sched : Type := mk_sched {
  tasks : gmap Z stcb;
  current : Z;                                 (** [pxCurrentTCB] *)
  top_ready : Z;                               (** [uxTopReadyPriority], a bit mask *)
  ready : list cyc;                            (** [pxReadyTasksLists] *)
  pxDelayedTaskList : list Z;
  pxOverflowDelayedTaskList : list Z;
  xSuspendedTaskList : list Z;
  pending : list Z;                            (** [xPendingReadyList] *)
  event_lists : gmap Z (list Z);
  tick : Z;                                    (** [xTickCount] *)
  xPendedTicks : Z;
  xNumOfOverflows : Z;
  next_unblock : Z;                            (** [xNextTaskUnblockTime] *)
  suspended : Z;                               (** [uxSchedulerSuspended] *)
  yield_pending : Z                            (** [xYieldPendings[0]] *)
}.

Definition with_tasks v s := mk_sched v (current s) (top_ready s) (ready s) (pxDelayedTaskList s) (pxOverflowDelayedTaskList s)
  (xSuspendedTaskList s) (pending s) (event_lists s) (tick s) (xPendedTicks s) (xNumOfOverflows s) (next_unblock s) (suspended s)
  (yield_pending s).
Definition with_current v y s := mk_sched (tasks s) v (top_ready s) (ready s) (pxDelayedTaskList s) (pxOverflowDelayedTaskList s)
  (xSuspendedTaskList s) (pending s) (event_lists s) (tick s) (xPendedTicks s) (xNumOfOverflows s) (next_unblock s) (suspended s) y.
Definition with_ready m r s := mk_sched (tasks s) (current s) m r (pxDelayedTaskList s) (pxOverflowDelayedTaskList s)
  (xSuspendedTaskList s) (pending s) (event_lists s) (tick s) (xPendedTicks s) (xNumOfOverflows s) (next_unblock s) (suspended s)
  (yield_pending s).
Definition with_blocked d o u s := mk_sched (tasks s) (current s) (top_ready s) (ready s) d o
  u (pending s) (event_lists s) (tick s) (xPendedTicks s) (xNumOfOverflows s) (next_unblock s) (suspended s) (yield_pending s).
Definition with_events p l s := mk_sched (tasks s) (current s) (top_ready s) (ready s) (pxDelayedTaskList s) (pxOverflowDelayedTaskList s)
  (xSuspendedTaskList s) p l (tick s) (xPendedTicks s) (xNumOfOverflows s) (next_unblock s) (suspended s) (yield_pending s).
Definition with_time t p o n s := mk_sched (tasks s) (current s) (top_ready s) (ready s) (pxDelayedTaskList s) (pxOverflowDelayedTaskList s)
  (xSuspendedTaskList s) (pending s) (event_lists s) t p o n (suspended s) (yield_pending s).
Definition with_suspended n s := mk_sched (tasks s) (current s) (top_ready s) (ready s) (pxDelayedTaskList s) (pxOverflowDelayedTaskList s)
  (xSuspendedTaskList s) (pending s) (event_lists s) (tick s) (xPendedTicks s) (xNumOfOverflows s) (next_unblock s) n (yield_pending s).

Definition set_value v t := mk_stcb (prio t) v (event t) (notified t) (notify_state t).
Definition set_event e t := mk_stcb (prio t) (xItemValue t) e (notified t) (notify_state t).
Definition set_notify n st t := mk_stcb (prio t) (xItemValue t) (event t) n st.

#[local] Abbreviation M := (prog sched).

Definition load (x : Z) : M stcb := fun s => match tasks s !! x with Some t => Done t s | None => Undefined end.
Definition update (x : Z) (f : stcb -> stcb) : M unit := modify (fun s => with_tasks (alter f x (tasks s)) s).

(** The wake time of a task in the list. *)
Definition value_of (m : gmap Z stcb) (x : Z) : Z := default 0 (xItemValue <$> m !! x).

(** ** List items *)

Definition without (x : Z) (l : list Z) : list Z := filter (fun y => y <> x) l.

(** [listREMOVE_ITEM] of the state list item. *)
Definition remove_state (x : Z) : M unit :=
  modify (fun s => with_ready (top_ready s) (cyc_remove x <$> ready s)
    (with_blocked (without x (pxDelayedTaskList s)) (without x (pxOverflowDelayedTaskList s)) (without x (xSuspendedTaskList s)) s)).

(** The list the state list item is in. *)
Definition container (x : Z) (s : sched) : list Z :=
  match list_find (fun l => x ∈ l)
    ((members <$> ready s) ++ [pxDelayedTaskList s; pxOverflowDelayedTaskList s; xSuspendedTaskList s]) with
  | Some (_, l) => l
  | None => []
  end.

(** [uxListRemove] of it: how many items are left in the list. *)
Definition uxListRemove (x : Z) : M Z :=
  s <- get ;;
  remove_state x ;;
  ret (Z.of_nat (length (without x (container x s)))).

(** [listREMOVE_ITEM] of the event list item, which must be in a list. *)
Definition remove_event (x : Z) : M unit :=
  t <- load x ;;
  match event t with
  | NoList => undefined
  | InEventList l => modify (fun s => with_events (pending s) (alter (without x) l (event_lists s)) s)
  | InPendingReady => modify (fun s => with_events (without x (pending s)) (event_lists s) s)
  end ;;
  update x (set_event NoList).

(** [vListInsert]: behind the items with values up to that of [x]. *)
Fixpoint insert_sorted (value : Z -> Z) (x : Z) (l : list Z) : list Z :=
  match l with
  | [] => [x]
  | y :: l' => if value x <? value y then x :: l else y :: insert_sorted value x l'
  end.

Definition prvAddTaskToReadyList (x : Z) : M unit :=
  t <- load x ;;
  modify (fun s => with_ready (top_ready s .| bit (prio t)) (alter (listINSERT_END x) (Z.to_nat (prio t)) (ready s)) s).

(** ** Time *)

Definition prvResetNextTaskUnblockTime : M unit :=
  modify (fun s =>
    with_time (tick s) (xPendedTicks s) (xNumOfOverflows s)
      (match pxDelayedTaskList s with [] => portMAX_DELAY | x :: _ => value_of (tasks s) x end) s).

Definition taskSWITCH_DELAYED_LISTS : M unit :=
  s <- get ;;
  configASSERT (bool_decide (pxDelayedTaskList s = [])) ;;
  modify (fun s => with_blocked (pxOverflowDelayedTaskList s) (pxDelayedTaskList s) (xSuspendedTaskList s)
    (with_time (tick s) (xPendedTicks s) (xNumOfOverflows s + 1) (next_unblock s) s)) ;;
  prvResetNextTaskUnblockTime.

(** The loop of [xTaskIncrementTick]: the items of the list of delayed tasks from its head on. *)
Fixpoint unblock_loop (now : Z) (l : list Z) : M unit :=
  match l with
  | [] => modify (fun s => with_time (tick s) (xPendedTicks s) (xNumOfOverflows s) portMAX_DELAY s)
  | x :: l' =>
    t <- load x ;;
    if now <? xItemValue t then
      modify (fun s => with_time (tick s) (xPendedTicks s) (xNumOfOverflows s) (xItemValue t) s)
    else
      remove_state x ;;
      (if decide (event t = NoList) then ret tt else remove_event x) ;;
      prvAddTaskToReadyList x ;;
      unblock_loop now l'
  end.

(** Without preemption it never asks for a switch. *)
Definition xTaskIncrementTick : M Z :=
  s <- get ;;
  if suspended s =? 0 then
    let xConstTickCount := u32 (tick s + 1) in
    modify (fun s => with_time xConstTickCount (xPendedTicks s) (xNumOfOverflows s) (next_unblock s) s) ;;
    (if xConstTickCount =? 0 then taskSWITCH_DELAYED_LISTS else ret tt) ;;
    s <- get ;;
    (if next_unblock s <=? xConstTickCount then unblock_loop xConstTickCount (pxDelayedTaskList s) else ret tt) ;;
    ret pdFALSE
  else
    modify (fun s => with_time (tick s) (u32 (xPendedTicks s + 1)) (xNumOfOverflows s) (next_unblock s) s) ;;
    ret pdFALSE.

(** ** Suspending the scheduler *)

Definition vTaskSuspendAll : M unit := modify (fun s => with_suspended (u32 (suspended s + 1)) s).

(** The tasks that became ready meanwhile, from the head of [xPendingReadyList] on. *)
Fixpoint pending_loop (l : list Z) : M unit :=
  match l with
  | [] => ret tt
  | x :: l' =>
    remove_event x ;;
    remove_state x ;;
    prvAddTaskToReadyList x ;;
    t <- load x ;;
    s <- get ;;
    cur <- load (current s) ;;
    (if prio cur <? prio t then modify (fun s => with_current (current s) pdTRUE s) else ret tt) ;;
    pending_loop l'
  end.

(** The ticks that have passed meanwhile. *)
Fixpoint pended_loop (n : nat) : M unit :=
  match n with
  | O => ret tt
  | S n' =>
    r <- xTaskIncrementTick ;;
    (if negb (r =? pdFALSE) then modify (fun s => with_current (current s) pdTRUE s) else ret tt) ;;
    pended_loop n'
  end.

Definition xTaskResumeAll : M Z :=
  s <- get ;;
  configASSERT (negb (suspended s =? 0)) ;;
  modify (fun s => with_suspended (u32 (suspended s - 1)) s) ;;
  s <- get ;;
  (if (suspended s =? 0) && negb (bool_decide (tasks s = ∅)) then
     let l := pending s in
     pending_loop l ;;
     (if bool_decide (l = []) then ret tt else prvResetNextTaskUnblockTime) ;;
     s <- get ;;
     if 0 <? xPendedTicks s then
       pended_loop (Z.to_nat (xPendedTicks s)) ;;
       modify (fun s => with_time (tick s) 0 (xNumOfOverflows s) (next_unblock s) s)
     else ret tt
   else ret tt) ;;
  ret pdFALSE.

(** ** Choosing the next task *)

(** [31 - clz]: the highest bit of the mask; without any it wraps around. *)
Definition portGET_HIGHEST_PRIORITY (mask : Z) : Z := if mask =? 0 then 0xffffffff else Z.log2 mask.

Definition vTaskSwitchContext : M unit :=
  s <- get ;;
  if negb (suspended s =? 0) then modify (fun s => with_current (current s) pdTRUE s)
  else
    let top := Z.to_nat (portGET_HIGHEST_PRIORITY (top_ready s)) in
    match ready s !! top with
    | None => undefined
    | Some c =>
      configASSERT (0 <? Z.of_nat (length (members c))) ;;
      let c' := listGET_OWNER_OF_NEXT_ENTRY c in
      match pxIndex c' with
      | None => undefined
      | Some x =>
        modify (fun s => with_current x pdFALSE (with_ready (top_ready s) (<[top := c']> (ready s)) s))
      end
    end.

(** ** Blocking *)

Definition prvAddCurrentTaskToDelayedList (xTicksToWait : Z) (xCanBlockIndefinitely : bool) : M unit :=
  s <- get ;;
  let cur := current s in
  t <- load cur ;;
  left <- uxListRemove cur ;;
  (if left =? 0 then modify (fun s => with_ready (top_ready s .& Z.lnot (bit (prio t))) (ready s) s) else ret tt) ;;
  if (xTicksToWait =? portMAX_DELAY) && xCanBlockIndefinitely then
    modify (fun s => with_blocked (pxDelayedTaskList s) (pxOverflowDelayedTaskList s) (xSuspendedTaskList s ++ [cur]) s)
  else
    let xTimeToWake := u32 (tick s + xTicksToWait) in
    update cur (set_value xTimeToWake) ;;
    if xTimeToWake <? tick s then
      modify (fun s => with_blocked (pxDelayedTaskList s) (insert_sorted (value_of (tasks s)) cur (pxOverflowDelayedTaskList s))
        (xSuspendedTaskList s) s)
    else
      modify (fun s => with_blocked (insert_sorted (value_of (tasks s)) cur (pxDelayedTaskList s)) (pxOverflowDelayedTaskList s)
        (xSuspendedTaskList s) s) ;;
      modify (fun s => with_time (tick s) (xPendedTicks s) (xNumOfOverflows s)
        (if xTimeToWake <? next_unblock s then xTimeToWake else next_unblock s) s).

(** Event lists are sorted by priority, the highest first. *)
Definition event_value (m : gmap Z stcb) (x : Z) : Z := configMAX_PRIORITIES - default 0 (prio <$> m !! x).

Definition vTaskPlaceOnEventList (l xTicksToWait : Z) : M unit :=
  configASSERT (negb (l =? 0)) ;;
  s <- get ;;
  modify (fun s => with_events (pending s)
    (<[l := insert_sorted (event_value (tasks s)) (current s) (default [] (event_lists s !! l))]> (event_lists s)) s) ;;
  update (current s) (set_event (InEventList l)) ;;
  prvAddCurrentTaskToDelayedList xTicksToWait true.

(** A task is made ready, or, while the scheduler is suspended, kept until it is resumed. *)
Definition make_ready (x : Z) : M unit :=
  s <- get ;;
  if suspended s =? 0 then remove_state x ;; prvAddTaskToReadyList x
  else
    modify (fun s => with_events (pending s ++ [x]) (event_lists s) s) ;;
    update x (set_event InPendingReady).

(** The result, and whether a switch should follow. *)
Definition ask_for_switch (x : Z) : M Z :=
  t <- load x ;;
  s <- get ;;
  cur <- load (current s) ;;
  if prio cur <? prio t then modify (fun s => with_current (current s) pdTRUE s) ;; ret pdTRUE else ret pdFALSE.

Definition xTaskRemoveFromEventList (l : Z) : M Z :=
  s <- get ;;
  match event_lists s !! l with
  | Some (x :: _) =>
    remove_event x ;;
    make_ready x ;;
    ask_for_switch x
  | _ => undefined
  end.

(** ** Notifications *)

Definition vTaskGenericNotifyGiveFromISR (xTaskToNotify uxIndexToNotify : Z) : M unit :=
  configASSERT (negb (xTaskToNotify =? 0)) ;;
  configASSERT (uxIndexToNotify <? configTASK_NOTIFICATION_ARRAY_ENTRIES) ;;
  t <- load xTaskToNotify ;;
  update xTaskToNotify (set_notify (u32 (notified t + 1)) taskNOTIFICATION_RECEIVED) ;;
  if notify_state t =? taskWAITING_NOTIFICATION then
    configASSERT (bool_decide (event t = NoList)) ;;
    make_ready xTaskToNotify ;;
    ask_for_switch xTaskToNotify ;;
    ret tt
  else ret tt.

(** The parts of [ulTaskGenericNotifyTake], for index 0, between which interrupts may happen; [vTaskSuspendAll] comes first,
    and [xTaskResumeAll] after [take_block]. The first one decides whether to block. *)
Definition take_mark (xTicksToWait : Z) : M bool :=
  s <- get ;;
  t <- load (current s) ;;
  if notified t =? 0 then
    update (current s) (set_notify (notified t) taskWAITING_NOTIFICATION) ;;
    ret (0 <? xTicksToWait)
  else ret false.

Definition take_block (xShouldBlock : bool) (xTicksToWait : Z) : M unit :=
  if xShouldBlock then prvAddCurrentTaskToDelayedList xTicksToWait true else ret tt.

(** [portYIELD] when the call is to block. *)
Definition take_yield (xShouldBlock : bool) : M unit := if xShouldBlock then vTaskSwitchContext else ret tt.

Definition take_finish (xClearCountOnExit : bool) : M Z :=
  s <- get ;;
  t <- load (current s) ;;
  let ulReturn := notified t in
  update (current s) (set_notify
    (if ulReturn =? 0 then 0 else if xClearCountOnExit then 0 else u32 (ulReturn - 1)) taskNOT_WAITING_NOTIFICATION) ;;
  ret ulReturn.
