(* ===== verification/SchedProofs.v ===== *)
(** What the scheduler keeps, and what its operations do. *)
From Stdlib Require Import ZArith Lia Bool.
From stdpp Require Import base decidable list gmap sorting.
From S2P Require Import Prelude Queue Tasks EtharpTable Sched.

(** * Ready lists *)

Record cyc_ok (c : cyc) : Prop := {
  co_nodup : NoDup (cyc_items c);
  co_marker : None ∈ cyc_items c
}.

Lemma members_app (l1 l2 : list (option Z)) : omap id (l1 ++ l2) = omap id l1 ++ omap id l2.
Proof. apply omap_app. Qed.

Lemma members_elem c x : x ∈ members c <-> Some x ∈ cyc_items c.
Proof.
  unfold members. rewrite list_elem_of_omap. split; [intros (y & Hy & E); cbn in E; now subst y | intros H; exists (Some x); now split].
Qed.

Lemma omap_nodup (l : list (option Z)) : NoDup l -> NoDup (omap id l).
Proof.
  induction 1 as [| [x |] l Hx Hl IH]; cbn; [constructor | | exact IH]. constructor; [| exact IH].
  rewrite list_elem_of_omap. intros (y & Hy & E). cbn in E. now subst y.
Qed.

Lemma members_nodup c : cyc_ok c -> NoDup (members c).
Proof. intros [H _]. now apply omap_nodup. Qed.

Lemma omap_without x (l : list (option Z)) : omap id (filter (fun i => i <> Some x) l) = without x (omap id l).
Proof.
  unfold without. induction l as [| [y |] l IH]; [reflexivity | |].
  - change (omap id (Some y :: l)) with (y :: omap id l). destruct (decide (y = x)) as [-> | N].
    + rewrite !filter_cons_False by (intros K; now apply K). exact IH.
    + rewrite !filter_cons_True by congruence. change (omap id (Some y :: ?k)) with (y :: omap id k). now rewrite IH.
  - rewrite filter_cons_True by discriminate. exact IH.
Qed.

Lemma filter_all (x : Z) (l : list (option Z)) : Some x ∉ l -> filter (fun i => i <> Some x) l = l.
Proof.
  induction l as [| y l IH]; [reflexivity |]. rewrite not_elem_of_cons. intros [N H]. rewrite filter_cons_True by congruence.
  now rewrite IH.
Qed.

(** The items of the list are those before, without the one removed. *)
Lemma cyc_remove_items x c : cyc_ok c -> cyc_items (cyc_remove x c) = filter (fun i => i <> Some x) (cyc_items c).
Proof.
  intros [H1 H2]. unfold cyc_remove. destruct (decide (pxIndex c = Some x)) as [E | N]; unfold cyc_items in *; cbn.
  - rewrite E in *. rewrite filter_app, filter_cons_False by congruence. cbn. rewrite app_nil_r.
    apply NoDup_app in H1 as (_ & Hx & _).
    assert (Hn : after c <> []) by (intros K; rewrite K in H2; cbn in H2; apply elem_of_cons in H2 as [H2 | H2]; [discriminate | inversion H2]).
    rewrite filter_all.
    + symmetry. now apply app_removelast_last.
    + intros K. apply (Hx _ K). left.
  - rewrite filter_app. f_equal. rewrite filter_cons_True by exact N. reflexivity.
Qed.

Lemma cyc_remove_ok x c : cyc_ok c -> cyc_ok (cyc_remove x c).
Proof.
  intros H. split; rewrite cyc_remove_items by exact H.
  - apply NoDup_filter, H.
  - apply list_elem_of_filter. split; [discriminate | apply H].
Qed.

Lemma cyc_remove_members x c : cyc_ok c -> members (cyc_remove x c) = without x (members c).
Proof. intros H. unfold members. rewrite cyc_remove_items by exact H. apply omap_without. Qed.

Lemma cyc_insert_members x c : members (listINSERT_END x c) ≡ₚ x :: members c.
Proof.
  unfold members, cyc_items, listINSERT_END. cbn. rewrite !members_app. cbn.
  rewrite <- app_assoc, (Permutation_app_comm (omap id (after c))), <- app_assoc. cbn.
  apply Permutation_cons; [reflexivity | apply Permutation_app_comm].
Qed.

Lemma cyc_insert_ok x c : cyc_ok c -> x ∉ members c -> cyc_ok (listINSERT_END x c).
Proof.
  intros [H1 H2] Hx. rewrite members_elem in Hx.
  assert (E : cyc_items (listINSERT_END x c) ≡ₚ Some x :: cyc_items c).
  { unfold cyc_items, listINSERT_END. cbn. rewrite <- app_assoc. rewrite (Permutation_app_comm (after c)). cbn.
    apply Permutation_cons; [reflexivity | apply (Permutation_app_comm [_])]. }
  split; rewrite E; [now constructor | now right].
Qed.

Lemma cyc_empty_ok : cyc_ok cyc_empty.
Proof. split; cbn; [apply NoDup_singleton | left]. Qed.

Lemma cyc_next_items c : cyc_items (cyc_next c) ≡ₚ cyc_items c.
Proof.
  destruct c as [[| i l] p]; [reflexivity |]. unfold cyc_next, cyc_items. cbn. rewrite (Permutation_app_comm (l ++ [p])). reflexivity.
Qed.

Lemma cyc_next_ok c : cyc_ok c -> cyc_ok (cyc_next c).
Proof. intros [H1 H2]. split; rewrite cyc_next_items; assumption. Qed.

(** The tasks of a list get their turn one after another. *)
Lemma next_owner c x r : cyc_ok c -> members c = x :: r ->
  let c' := listGET_OWNER_OF_NEXT_ENTRY c in cyc_ok c' /\ pxIndex c' = Some x /\ members c' = r ++ [x].
Proof.
  intros H E. cbn zeta. assert (Ho : cyc_ok (listGET_OWNER_OF_NEXT_ENTRY c)).
  { unfold listGET_OWNER_OF_NEXT_ENTRY. destruct (decide _); repeat apply cyc_next_ok; exact H. }
  split; [exact Ho |]. clear Ho. destruct H as [H1 H2]. destruct c as [a i].
  unfold listGET_OWNER_OF_NEXT_ENTRY, members, cyc_next, cyc_items in *. cbn in *. destruct a as [| [y |] l]; cbn in *.
  - rewrite elem_of_cons, elem_of_nil in H2. destruct H2 as [<- | []]. discriminate.
  - rewrite decide_False by discriminate. cbn. injection E as -> <-. split; [reflexivity |].
    rewrite members_app, (members_app l). cbn. reflexivity.
  - rewrite decide_True by reflexivity. apply NoDup_cons in H1 as [H1 _]. destruct l as [| [z |] l]; cbn in *.
    + destruct i as [z |]; cbn in *; [injection E as -> <-; now split | now destruct H1; left].
    + injection E as -> <-. split; [reflexivity |]. rewrite !members_app. cbn. now rewrite app_nil_r.
    + destruct H1. left.
Qed.

(** * What holds between the operations *)

Definition places (s : sched) : list Z :=
  concat (members <$> ready s) ++ pxDelayedTaskList s ++ pxOverflowDelayedTaskList s ++ xSuspendedTaskList s.

(** Every task is in one list; ready, it is in that of its priority; the mask shows the lists that are not empty. *)
Record lists_ok (s : sched) : Prop := {
  lo_length : length (ready s) = Z.to_nat configMAX_PRIORITIES;
  lo_cycs : Forall cyc_ok (ready s);
  lo_nodup : NoDup (places s);
  lo_tasks : forall x, x ∈ places s <-> is_Some (tasks s !! x);
  lo_prio : forall p c x t, ready s !! p = Some c -> x ∈ members c -> tasks s !! x = Some t -> prio t = Z.of_nat p;
  lo_range : forall x t, tasks s !! x = Some t -> 0 <= prio t < configMAX_PRIORITIES;
  lo_top : 0 <= top_ready s /\
    forall p, 0 <= p -> Z.testbit (top_ready s) p = true <-> exists c, ready s !! Z.to_nat p = Some c /\ members c <> []
}.

Definition wakes_before (m : gmap Z stcb) (x y : Z) : Prop := value_of m x <= value_of m y.

(** The delayed tasks wake later than [now], before the tick wraps around or after that, and none before [next_unblock]. *)
Record time_ok (now : Z) (s : sched) : Prop := {
  to_delayed : StronglySorted (wakes_before (tasks s)) (pxDelayedTaskList s);
  to_overflow : StronglySorted (wakes_before (tasks s)) (pxOverflowDelayedTaskList s);
  to_wake : Forall (fun x => now < value_of (tasks s) x <= portMAX_DELAY) (pxDelayedTaskList s);
  to_wrapped : Forall (fun x => 0 <= value_of (tasks s) x < tick s) (pxOverflowDelayedTaskList s);
  to_tick : 0 <= tick s <= portMAX_DELAY;
  to_unblock : next_unblock s <= portMAX_DELAY /\ Forall (fun x => next_unblock s <= value_of (tasks s) x) (pxDelayedTaskList s)
}.

Definition event_of (s : sched) (x : Z) : option event_place := event <$> tasks s !! x.

(** Event list items are where their tasks say they are; a task that waits for a notification has none yet. *)
Record events_ok (s : sched) : Prop := {
  eo_lists : forall l L, event_lists s !! l = Some L -> NoDup L /\ Forall (fun x => event_of s x = Some (InEventList l)) L;
  eo_pending : NoDup (pending s) /\ Forall (fun x => event_of s x = Some InPendingReady) (pending s);
  eo_waiting : forall x t, tasks s !! x = Some t -> notify_state t = taskWAITING_NOTIFICATION -> event t = NoList /\ notified t = 0;
  eo_kept : forall x, event_of s x = Some InPendingReady -> x ∈ pending s
}.

(** Nobody has begun to wait for an event. *)
Definition no_new_events (s s' : sched) : Prop := forall x l, event_of s' x = Some (InEventList l) -> event_of s x = Some (InEventList l).

#[export] Instance no_new_events_preorder : PreOrder no_new_events.
Proof. split; [intros s x l H; exact H | intros s1 s2 s3 H1 H2 x l H; exact (H1 x l (H2 x l H))]. Qed.

Record sched_ok (s : sched) : Prop := {
  so_lists : lists_ok s;
  so_time : time_ok (tick s) s;
  so_events : events_ok s;
  so_current : is_Some (tasks s !! current s);
  so_running : suspended s = 0 -> pending s = [];
  so_pended : 0 <= xPendedTicks s
}.

(** ** Moving a task to its ready list *)

Definition removed (x : Z) (s : sched) : sched :=
  with_ready (top_ready s) (cyc_remove x <$> ready s)
    (with_blocked (without x (pxDelayedTaskList s)) (without x (pxOverflowDelayedTaskList s)) (without x (xSuspendedTaskList s)) s).

Definition added (x p : Z) (s : sched) : sched :=
  with_ready (top_ready s .| bit p) (alter (listINSERT_END x) (Z.to_nat p) (ready s)) s.

Definition readied (x p : Z) (s : sched) : sched := added x p (removed x s).

Lemma remove_state_run x s : remove_state x s = Done tt (removed x s).
Proof. reflexivity. Qed.

Lemma add_ready_run x t s : tasks s !! x = Some t -> prvAddTaskToReadyList x s = Done tt (added x (prio t) s).
Proof. intros E. unfold prvAddTaskToReadyList, bind, load. rewrite E. reflexivity. Qed.

Lemma without_elem x y l : y ∈ without x l <-> y <> x /\ y ∈ l.
Proof. unfold without. now rewrite list_elem_of_filter. Qed.

Lemma without_sublist x l : without x l `sublist_of` l.
Proof. apply sublist_filter. Qed.

Lemma without_absent x l : x ∉ l -> without x l = l.
Proof.
  unfold without. induction l as [| y l IH]; [reflexivity |]. rewrite not_elem_of_cons. intros [N H].
  rewrite filter_cons_True by congruence. now rewrite IH.
Qed.

Lemma without_head x l : x ∉ l -> without x (x :: l) = l.
Proof. intros H. unfold without. rewrite filter_cons_False by (intros K; now apply K). now apply without_absent. Qed.

Lemma without_concat x (ls : list (list Z)) : concat (without x <$> ls) = without x (concat ls).
Proof. unfold without. induction ls as [| l ls IH]; [reflexivity |]. cbn. now rewrite filter_app, IH. Qed.

Lemma removed_members x s : Forall cyc_ok (ready s) -> members <$> (ready (removed x s)) = without x <$> (members <$> ready s).
Proof.
  intros H. cbn [ready removed with_ready with_blocked]. rewrite <- !list_fmap_compose. apply list_fmap_ext.
  intros i c E. cbn. apply cyc_remove_members. exact (Forall_lookup_1 _ _ _ _ H E).
Qed.

Lemma removed_places x s : Forall cyc_ok (ready s) -> places (removed x s) = without x (places s).
Proof.
  intros H. unfold places. rewrite removed_members by exact H. rewrite without_concat.
  unfold without. rewrite !filter_app. reflexivity.
Qed.

Lemma concat_alter (f : cyc -> cyc) x (l : list cyc) : (forall c, members (f c) ≡ₚ x :: members c) -> forall p, (p < length l)%nat ->
  concat (members <$> alter f p l) ≡ₚ x :: concat (members <$> l).
Proof.
  intros Hf. induction l as [| c l IH]; intros p Hp; cbn in Hp; [lia |]. destruct p as [| p]; cbn.
  - rewrite Hf. reflexivity.
  - rewrite (IH p) by lia. symmetry. apply Permutation_middle.
Qed.

Lemma added_places x p s : 0 <= p < Z.of_nat (length (ready s)) -> places (added x p s) ≡ₚ x :: places s.
Proof.
  intros H. unfold places. cbn [ready added with_ready pxDelayedTaskList pxOverflowDelayedTaskList xSuspendedTaskList].
  rewrite (concat_alter _ x) by (intros; apply cyc_insert_members || lia). reflexivity.
Qed.

Lemma sublist_all {A} (P : A -> Prop) (l k : list A) : l `sublist_of` k -> Forall P k -> Forall P l.
Proof. induction 1 as [| x l k H IH | x l k H IH]; intros F; [constructor | |]; apply Forall_cons in F as [F1 F2]; auto. Qed.

Lemma sublist_sorted {A} (R : A -> A -> Prop) (l k : list A) : l `sublist_of` k -> StronglySorted R k -> StronglySorted R l.
Proof.
  induction 1 as [| x l k H IH | x l k H IH]; intros S; [constructor | |]; apply StronglySorted_inv in S as [S F]; [| auto].
  constructor; [auto |]. now apply (sublist_all _ _ _ H).
Qed.

Lemma removed_time now x s : time_ok now s -> time_ok now (removed x s).
Proof.
  intros [H1 H2 H3 H4 H5 H6]. pose proof (without_sublist x (pxDelayedTaskList s)) as D.
  pose proof (without_sublist x (pxOverflowDelayedTaskList s)) as O.
  split; cbn -[without].
  - now apply (sublist_sorted _ _ _ D).
  - now apply (sublist_sorted _ _ _ O).
  - now apply (sublist_all _ _ _ D).
  - now apply (sublist_all _ _ _ O).
  - exact H5.
  - split; [apply H6 | apply (sublist_all _ _ _ D), H6].
Qed.

(** Adding to the ready lists concerns nothing else. *)
Lemma added_time now x p s : time_ok now s -> time_ok now (added x p s).
Proof. intros [H1 H2 H3 H4 H5 H6]. now split. Qed.

Lemma readied_events x p s : events_ok s -> events_ok (readied x p s).
Proof. intros [H1 H2 H3 H4]. now split. Qed.

Lemma ready_place s p c x : ready s !! p = Some c -> x ∈ members c -> x ∈ places s.
Proof.
  intros E H. unfold places. rewrite elem_of_app. left.
  apply list_elem_of_In, in_concat. exists (members c). rewrite <- !list_elem_of_In. split; [| exact H].
  apply list_elem_of_fmap. exists c. split; [reflexivity | now apply list_elem_of_lookup_2 in E].
Qed.

Lemma removed_ready x s p : ready (removed x s) !! p = cyc_remove x <$> ready s !! p.
Proof. apply list_lookup_fmap. Qed.

Lemma readied_ready x k s p : ready (readied x k s) !! p =
  (if decide (p = Z.to_nat k) then listINSERT_END x else id) <$> (cyc_remove x <$> ready s !! p).
Proof.
  change (ready (readied x k s)) with (alter (listINSERT_END x) (Z.to_nat k) (ready (removed x s))).
  destruct (decide (p = Z.to_nat k)) as [-> | N].
  - now rewrite list_lookup_alter_eq, removed_ready.
  - rewrite list_lookup_alter_ne by congruence. rewrite removed_ready. now destruct (ready s !! p).
Qed.

Lemma readied_lists x t s : lists_ok s -> tasks s !! x = Some t -> lists_ok (readied x (prio t) s).
Proof.
  intros H E. pose proof (lo_range s H x t E) as R. unfold configMAX_PRIORITIES in R.
  pose proof (lo_length s H) as L. change (Z.to_nat configMAX_PRIORITIES) with 5%nat in L.
  assert (Ep : places (readied x (prio t) s) ≡ₚ x :: without x (places s)).
  { unfold readied. rewrite added_places, removed_places; [reflexivity | apply H |].
    cbn [ready removed with_ready]. rewrite length_fmap, L. lia. }
  assert (Hm : forall p c, ready (readied x (prio t) s) !! p = Some c -> exists c0, ready s !! p = Some c0 /\ cyc_ok c /\
    members c ≡ₚ (if decide (p = Z.to_nat (prio t)) then x :: without x (members c0) else without x (members c0))).
  { intros p c Ec. rewrite readied_ready in Ec. destruct (ready s !! p) as [c0 |] eqn:E0; [| discriminate]. cbn in Ec. injection Ec as <-.
    pose proof (Forall_lookup_1 _ _ _ _ (lo_cycs s H) E0) as O. exists c0. split; [reflexivity |].
    destruct (decide _); cbn [id].
    - split; [apply cyc_insert_ok; [now apply cyc_remove_ok | rewrite cyc_remove_members, without_elem by exact O; tauto] |].
      now rewrite cyc_insert_members, cyc_remove_members by exact O.
    - split; [now apply cyc_remove_ok | now rewrite cyc_remove_members by exact O]. }
  split.
  - unfold readied. cbn [added ready removed with_ready]. now rewrite length_alter, length_fmap.
  - apply Forall_lookup_2. intros p c Ec. destruct (Hm p c Ec) as (? & _ & O & _). exact O.
  - rewrite Ep. constructor; [rewrite without_elem; tauto | apply NoDup_filter, H].
  - intros y. rewrite Ep, elem_of_cons, without_elem. change (tasks (readied x (prio t) s)) with (tasks s).
    rewrite (lo_tasks s H). destruct (decide (y = x)) as [-> | N]; [split; eauto | tauto].
  - intros p c y ty Ec Hy Ey. destruct (Hm p c Ec) as (c0 & E0 & _ & P). rewrite P in Hy. change (tasks s !! y = Some ty) in Ey.
    destruct (decide (p = Z.to_nat (prio t))) as [-> | N].
    + apply elem_of_cons in Hy as [-> | Hy]; [rewrite E in Ey; injection Ey as <-; lia |].
      apply without_elem in Hy as [_ Hy]. exact (lo_prio s H _ c0 y ty E0 Hy Ey).
    + apply without_elem in Hy as [_ Hy]. exact (lo_prio s H _ c0 y ty E0 Hy Ey).
  - intros y ty Ey. exact (lo_range s H y ty Ey).
  - destruct (lo_top s H) as [T1 T2].
    change (top_ready (readied x (prio t) s)) with (top_ready s .| bit (prio t)). split.
    { apply Z.lor_nonneg. split; [exact T1 | apply Z.shiftl_nonneg; lia]. }
    intros p Hp. rewrite Z.lor_spec, orb_true_iff. unfold bit. rewrite Z.shiftl_spec by lia.
    destruct (Z.eq_dec p (prio t)) as [-> | N].
    + rewrite Z.sub_diag. split; [intros _ | now right].
      destruct (lookup_lt_is_Some_2 (ready s) (Z.to_nat (prio t))) as [c0 E0]; [lia |].
      exists (listINSERT_END x (cyc_remove x c0)). split; [rewrite readied_ready, E0, decide_True by reflexivity; reflexivity |].
      intros K. pose proof (cyc_insert_members x (cyc_remove x c0)) as P. rewrite K in P. now apply Permutation_nil_cons in P.
    + assert (Hb : Z.testbit 1 (p - prio t) = false).
      { destruct (Z.ltb_spec p (prio t)); [apply Z.testbit_neg_r; lia |]. change 1 with (2 ^ 0). apply Z.pow2_bits_false. lia. }
      rewrite Hb, T2 by exact Hp. transitivity (exists c, ready s !! Z.to_nat p = Some c /\ members c <> []);
        [split; [intros [K | K]; [exact K | discriminate] | now left] |].
      assert (Hn : Z.to_nat p <> Z.to_nat (prio t)) by lia.
      assert (Hx : forall c0, ready s !! Z.to_nat p = Some c0 -> members (cyc_remove x c0) = members c0).
      { intros c0 E0. rewrite cyc_remove_members by exact (Forall_lookup_1 _ _ _ _ (lo_cycs s H) E0).
        apply without_absent. intros K. pose proof (lo_prio s H _ c0 x t E0 K E). lia. }
      split; intros (c & Ec & Nc).
      * exists (cyc_remove x c). rewrite readied_ready, Ec, decide_False by exact Hn. split; [reflexivity |]. now rewrite Hx.
      * rewrite readied_ready, decide_False in Ec by exact Hn. destruct (ready s !! Z.to_nat p) as [c0 |] eqn:E0; [| discriminate].
        cbn in Ec. injection Ec as <-. exists c0. split; [reflexivity |]. now rewrite <- (Hx c0 eq_refl).
Qed.

Lemma readied_ok x t s : sched_ok s -> tasks s !! x = Some t -> sched_ok (readied x (prio t) s).
Proof.
  intros [H1 H2 H3 H4 H5 H6] E. split; [now apply readied_lists | now apply added_time, removed_time | now apply readied_events | exact H4 | exact H5 | exact H6].
Qed.

(** ** Changes of single tasks *)

Definition upd (x : Z) (f : stcb -> stcb) (s : sched) : sched := with_tasks (alter f x (tasks s)) s.

Lemma upd_lookup x f s y : tasks (upd x f s) !! y = if decide (x = y) then f <$> tasks s !! y else tasks s !! y.
Proof. cbn. rewrite lookup_alter. destruct (decide (x = y)) as [-> |]; reflexivity. Qed.

Lemma upd_field {A} (g : stcb -> A) x f s y : (forall t, g (f t) = g t) -> g <$> tasks (upd x f s) !! y = g <$> tasks s !! y.
Proof. intros H. rewrite upd_lookup. destruct (decide _); [| reflexivity]. destruct (tasks s !! y); cbn; [now rewrite H | reflexivity]. Qed.

Lemma upd_lists x f s : (forall t, prio (f t) = prio t) -> lists_ok s -> lists_ok (upd x f s).
Proof.
  intros Hf [H1 H2 H3 H4 H5 H6 H7].
  assert (K : forall y t, tasks (upd x f s) !! y = Some t -> exists t0, tasks s !! y = Some t0 /\ prio t = prio t0).
  { intros y t E. pose proof (upd_field prio x f s y Hf) as P. rewrite E in P. destruct (tasks s !! y) as [t0 |]; [| discriminate].
    injection P as ->. eauto. }
  split; auto.
  - intros y. rewrite (H4 y), upd_lookup. destruct (decide _); [| reflexivity]. now rewrite fmap_is_Some.
  - intros p c y t Ec Hy Et. destruct (K y t Et) as (t0 & E0 & ->). eauto.
  - intros y t Et. destruct (K y t Et) as (t0 & E0 & ->). eauto.
Qed.

Lemma value_of_upd x f s y : (forall t, xItemValue (f t) = xItemValue t) -> value_of (tasks (upd x f s)) y = value_of (tasks s) y.
Proof. intros H. unfold value_of. now rewrite upd_field. Qed.

(** The lists of delayed tasks depend on the tasks only through their values. *)
Lemma values_time now m s : (forall y, value_of m y = value_of (tasks s) y) -> time_ok now s -> time_ok now (with_tasks m s).
Proof.
  intros E [H1 H2 H3 H4 H5 H6].
  assert (K : forall l, StronglySorted (wakes_before (tasks s)) l -> StronglySorted (wakes_before m) l).
  { intros l. induction 1 as [| x l Hl IH Hx]; constructor; [exact IH |]. eapply Forall_impl; [exact Hx |]. unfold wakes_before. intros y. now rewrite !E. }
  split; cbn; auto.
  - eapply Forall_impl; [exact H3 |]. cbv beta. intros y. now rewrite E.
  - eapply Forall_impl; [exact H4 |]. cbv beta. intros y. now rewrite E.
  - split; [apply H6 |]. eapply Forall_impl; [apply H6 |]. cbv beta. intros y. now rewrite E.
Qed.

Lemma upd_time now x f s : (forall t, xItemValue (f t) = xItemValue t) -> time_ok now s -> time_ok now (upd x f s).
Proof. intros H. apply values_time. intros y. now apply (value_of_upd x f s y). Qed.

(** ** Leaving the event lists *)

Definition unevent (x : Z) (s : sched) : sched :=
  match event_of s x with
  | Some (InEventList l) => upd x (set_event NoList) (with_events (pending s) (alter (without x) l (event_lists s)) s)
  | Some InPendingReady => upd x (set_event NoList) (with_events (without x (pending s)) (event_lists s) s)
  | _ => s
  end.

Lemma remove_event_run x t s : tasks s !! x = Some t -> event t <> NoList -> remove_event x s = Done tt (unevent x s).
Proof.
  intros E N. unfold remove_event, bind, load, unevent, event_of. rewrite E. cbn. destruct (event t); [now destruct N | reflexivity | reflexivity].
Qed.

Lemma unevent_lists x s : lists_ok s -> lists_ok (unevent x s).
Proof.
  intros H. unfold unevent. destruct (event_of s x) as [[| l |] |]; try exact H; (apply upd_lists; [reflexivity |]); destruct H; now split.
Qed.

Lemma unevent_time now x s : time_ok now s -> time_ok now (unevent x s).
Proof.
  intros H. unfold unevent. destruct (event_of s x) as [[| l |] |]; try exact H; (apply upd_time; [reflexivity |]); destruct H; now split.
Qed.

Lemma unevent_task x s y t : tasks (unevent x s) !! y = Some t -> exists t0, tasks s !! y = Some t0 /\
  prio t = prio t0 /\ xItemValue t = xItemValue t0 /\ notified t = notified t0 /\ notify_state t = notify_state t0 /\
  (if decide (y = x) then event t = NoList else event t = event t0).
Proof.
  unfold unevent, event_of. intros E.
  destruct (tasks s !! x) as [tx |] eqn:Ex; cbn in E; [| exists t; split; [exact E |]; destruct (decide (y = x)) as [-> |]; [congruence | auto 10]].
  destruct (event tx) as [| l |] eqn:Ev.
  - exists t. split; [exact E |]. destruct (decide (y = x)) as [-> |]; [| auto 10]. rewrite Ex in E. injection E as <-. auto 10.
  - cbn in E. rewrite lookup_alter in E. destruct (decide (x = y)) as [<- | N].
    + rewrite Ex in E. injection E as <-. exists tx. rewrite decide_True by reflexivity. auto 10.
    + exists t. rewrite decide_False by congruence. auto 10.
  - cbn in E. rewrite lookup_alter in E. destruct (decide (x = y)) as [<- | N].
    + rewrite Ex in E. injection E as <-. exists tx. rewrite decide_True by reflexivity. auto 10.
    + exists t. rewrite decide_False by congruence. auto 10.
Qed.

Lemma event_of_upd x f s y : event_of (upd x f s) y = if decide (x = y) then (event ∘ f) <$> tasks s !! x else event_of s y.
Proof.
  unfold event_of. rewrite upd_lookup. destruct (decide (x = y)) as [-> |]; [| reflexivity]. now destruct (tasks s !! y).
Qed.

Lemma events_except s s' x : (forall y, y <> x -> event_of s' y = event_of s y) ->
  forall P l, x ∉ l -> Forall (fun y => event_of s y = P) l -> Forall (fun y => event_of s' y = P) l.
Proof.
  intros H P l Hx F. rewrite Forall_forall in *. intros y Hy. rewrite H by (intros ->; auto). auto.
Qed.

Lemma set_no_list x s : event_of (upd x (set_event NoList) s) x <> Some InPendingReady.
Proof. rewrite event_of_upd, decide_True by reflexivity. now destruct (tasks s !! x). Qed.

Lemma unevent_events x s : events_ok s -> events_ok (unevent x s).
Proof.
  intros H.
  assert (W : forall y t, tasks (unevent x s) !! y = Some t -> notify_state t = taskWAITING_NOTIFICATION -> event t = NoList /\ notified t = 0).
  { intros y t E Hw. destruct (unevent_task x s y t E) as (t0 & E0 & _ & _ & N1 & N2 & Ev). rewrite N2 in Hw.
    destruct (eo_waiting s H y t0 E0 Hw) as [K1 K2]. rewrite N1. split; [| exact K2]. destruct (decide (y = x)); congruence. }
  revert W. unfold unevent. destruct (event_of s x) as [[| l |] |] eqn:Ex; intros W; try exact H.
  - assert (Ne : forall y, y <> x -> event_of (upd x (set_event NoList) (with_events (pending s) (alter (without x) l (event_lists s)) s)) y = event_of s y).
    { intros y N. rewrite event_of_upd. now rewrite decide_False by congruence. }
    destruct H as [H1 [H2 H2'] H3 H4]. split; [| split | exact W |].
    + intros l' L E. change (alter (without x) l (event_lists s) !! l' = Some L) in E. rewrite lookup_alter in E.
      destruct (decide (l = l')) as [<- | Nl].
      * destruct (event_lists s !! l) as [L0 |] eqn:E0; [| discriminate]. injection E as <-. destruct (H1 l L0 E0) as [D F].
        split; [now apply NoDup_filter |]. apply (events_except s _ x Ne); [rewrite without_elem; tauto |].
        exact (sublist_all _ _ _ (without_sublist x L0) F).
      * destruct (H1 l' L E) as [D F]. split; [exact D |]. apply (events_except s _ x Ne); [| exact F].
        intros K. rewrite Forall_forall in F. specialize (F x K). congruence.
    + exact H2.
    + apply (events_except s _ x Ne); [| exact H2']. intros K. rewrite Forall_forall in H2'. specialize (H2' x K). congruence.
    + intros y Ey. destruct (decide (y = x)) as [-> | N]; [now apply set_no_list in Ey |]. rewrite Ne in Ey by exact N. exact (H4 y Ey).
  - assert (Ne : forall y, y <> x -> event_of (upd x (set_event NoList) (with_events (without x (pending s)) (event_lists s) s)) y = event_of s y).
    { intros y N. rewrite event_of_upd. now rewrite decide_False by congruence. }
    destruct H as [H1 [H2 H2'] H3 H4]. split; [| split | exact W |].
    + intros l' L E. destruct (H1 l' L E) as [D F]. split; [exact D |]. apply (events_except s _ x Ne); [| exact F].
      intros K. rewrite Forall_forall in F. specialize (F x K). congruence.
    + now apply NoDup_filter.
    + apply (events_except s _ x Ne); [change (x ∉ without x (pending s)); rewrite without_elem; tauto |].
      exact (sublist_all _ _ _ (without_sublist x (pending s)) H2').
    + intros y Ey. destruct (decide (y = x)) as [-> | N]; [now apply set_no_list in Ey |]. rewrite Ne in Ey by exact N.
      apply without_elem. split; [exact N | exact (H4 y Ey)].
Qed.

(** ** Waking a task *)

Definition prio_of (s : sched) (x : Z) : Z := default 0 (prio <$> tasks s !! x).

(** Out of its event list and into its ready list. *)
Definition wake (x : Z) (s : sched) : sched := readied x (prio_of s x) (unevent x s).

Lemma unevent_tasks_some x s y : is_Some (tasks (unevent x s) !! y) <-> is_Some (tasks s !! y).
Proof.
  unfold unevent. destruct (event_of s x) as [[| l |] |]; try reflexivity; cbn; rewrite lookup_alter; destruct (decide _) as [-> |];
    try reflexivity; now rewrite fmap_is_Some.
Qed.

Lemma unevent_prio x s y : prio <$> tasks (unevent x s) !! y = prio <$> tasks s !! y.
Proof.
  unfold unevent. destruct (event_of s x) as [[| l |] |]; try reflexivity; (rewrite (upd_field prio); reflexivity).
Qed.

Lemma unevent_value x s y : value_of (tasks (unevent x s)) y = value_of (tasks s) y.
Proof.
  unfold unevent. destruct (event_of s x) as [[| l |] |]; try reflexivity; (rewrite value_of_upd; reflexivity).
Qed.

Lemma wake_prio x s : is_Some (tasks s !! x) -> exists t, tasks (unevent x s) !! x = Some t /\ prio t = prio_of s x.
Proof.
  intros Hx. destruct (proj2 (unevent_tasks_some x s x) Hx) as [t E]. exists t. split; [exact E |].
  pose proof (unevent_prio x s x) as P. unfold prio_of. rewrite E in P. now rewrite <- P.
Qed.

Lemma wake_lists x s : is_Some (tasks s !! x) -> lists_ok s -> lists_ok (wake x s).
Proof.
  intros Hx H. destruct (wake_prio x s Hx) as (t & E & P). unfold wake. rewrite <- P. apply readied_lists; [now apply unevent_lists | exact E].
Qed.

Lemma wake_time now x s : time_ok now s -> time_ok now (wake x s).
Proof. intros H. now apply added_time, removed_time, unevent_time. Qed.

Lemma wake_events x s : events_ok s -> events_ok (wake x s).
Proof. intros H. now apply readied_events, unevent_events. Qed.

(** The three operations in the orders in which the code has them. *)
Lemma wake_run_tick x t s (k : prog sched unit) : tasks s !! x = Some t ->
  (remove_state x ;; (if decide (event t = NoList) then ret tt else remove_event x) ;; prvAddTaskToReadyList x ;; k) s = k (wake x s).
Proof.
  intros E. unfold bind at 1. rewrite remove_state_run. unfold wake, unevent, event_of, readied.
  assert (P : prio_of s x = prio t) by (unfold prio_of; now rewrite E). rewrite P.
  rewrite E. cbn [fmap option_fmap option_map]. destruct (decide (event t = NoList)) as [En | N].
  - rewrite En. rewrite (bind_done (ret tt) _ tt _ _ eq_refl). now rewrite (bind_done _ _ _ _ _ (add_ready_run x t (removed x s) E)).
  - rewrite (bind_done _ _ _ _ _ (remove_event_run x t (removed x s) E N)).
    assert (K : forall u, tasks (unevent x (removed x s)) !! x = Some u -> prio u = prio t).
    { intros u Eu. pose proof (unevent_prio x (removed x s) x) as Q. rewrite Eu in Q. change (tasks (removed x s)) with (tasks s) in Q.
      rewrite E in Q. now injection Q. }
    destruct (proj2 (unevent_tasks_some x (removed x s) x) (ex_intro _ t E)) as [u Eu].
    rewrite (bind_done _ _ _ _ _ (add_ready_run x u _ Eu)), (K u Eu).
    unfold unevent, event_of. change (tasks (removed x s)) with (tasks s). rewrite E. cbn [fmap option_fmap option_map].
    destruct (event t); [now destruct N | reflexivity | reflexivity].
Qed.

Lemma wake_run_pending x t s (k : prog sched unit) : tasks s !! x = Some t -> event t <> NoList ->
  (remove_event x ;; remove_state x ;; prvAddTaskToReadyList x ;; k) s = k (wake x s).
Proof.
  intros E N. rewrite (bind_done _ _ _ _ _ (remove_event_run x t s E N)).
  rewrite (bind_done _ _ _ _ _ (remove_state_run x _)). unfold wake, readied.
  destruct (wake_prio x s (ex_intro _ t E)) as (u & Eu & <-).
  now rewrite (bind_done _ _ _ _ _ (add_ready_run x u (removed x (unevent x s)) Eu)).
Qed.

(** * The tick *)

Definition wake_all (l : list Z) (s : sched) : sched := fold_left (fun s x => wake x s) l s.

(** What waking leaves alone. *)
Record same_frame (s s' : sched) : Prop := {
  sf_current : current s' = current s;
  sf_tick : tick s' = tick s;
  sf_pended : xPendedTicks s' = xPendedTicks s;
  sf_overflows : xNumOfOverflows s' = xNumOfOverflows s;
  sf_unblock : next_unblock s' = next_unblock s;
  sf_suspended : suspended s' = suspended s;
  sf_values : forall y, value_of (tasks s') y = value_of (tasks s) y;
  sf_notified : forall y, notified <$> tasks s' !! y = notified <$> tasks s !! y;
  sf_state : forall y, notify_state <$> tasks s' !! y = notify_state <$> tasks s !! y;
  sf_prio : forall y, prio <$> tasks s' !! y = prio <$> tasks s !! y;
  sf_events : no_new_events s s'
}.

Lemma same_frame_refl s : same_frame s s.
Proof. now split. Qed.

Lemma same_frame_trans s1 s2 s3 : same_frame s1 s2 -> same_frame s2 s3 -> same_frame s1 s3.
Proof. intros [] []. split; try (intros; congruence). now transitivity s2. Qed.

Lemma unevent_no_new x s : no_new_events s (unevent x s).
Proof.
  intros y l E. unfold event_of in *. destruct (tasks (unevent x s) !! y) as [t |] eqn:Et; [| discriminate]. injection E as Et'.
  destruct (unevent_task x s y t Et) as (t0 & E0 & _ & _ & _ & _ & Ee). rewrite E0. cbn. destruct (decide (y = x)); congruence.
Qed.

Lemma unevent_frame x s : same_frame s (unevent x s).
Proof.
  pose proof (unevent_no_new x s) as Q. revert Q. unfold unevent. destruct (event_of s x) as [[| l |] |]; intros Q; try apply same_frame_refl; split; try reflexivity; try exact Q; intros y;
    try (rewrite value_of_upd; reflexivity); (rewrite upd_field; reflexivity).
Qed.

Lemma wake_frame x s : same_frame s (wake x s).
Proof. apply (same_frame_trans _ _ _ (unevent_frame x s)). now split. Qed.

Lemma frame_some s s' y : same_frame s s' -> is_Some (tasks s' !! y) <-> is_Some (tasks s !! y).
Proof.
  intros H. pose proof (sf_prio s s' H y) as E. split; intros [t K]; rewrite K in E; [destruct (tasks s !! y) | destruct (tasks s' !! y)];
    try discriminate; eauto.
Qed.

Lemma unevent_lists_same x s : ready (unevent x s) = ready s /\ pxDelayedTaskList (unevent x s) = pxDelayedTaskList s /\
  pxOverflowDelayedTaskList (unevent x s) = pxOverflowDelayedTaskList s /\ xSuspendedTaskList (unevent x s) = xSuspendedTaskList s.
Proof. unfold unevent. destruct (event_of s x) as [[| l |] |]; auto. Qed.

Lemma wake_delayed x s : pxDelayedTaskList (wake x s) = without x (pxDelayedTaskList s).
Proof. destruct (unevent_lists_same x s) as (_ & E & _). change (without x (pxDelayedTaskList (unevent x s)) = without x (pxDelayedTaskList s)). now rewrite E. Qed.

Lemma wake_overflow x s : pxOverflowDelayedTaskList (wake x s) = without x (pxOverflowDelayedTaskList s).
Proof.
  destruct (unevent_lists_same x s) as (_ & _ & E & _).
  change (without x (pxOverflowDelayedTaskList (unevent x s)) = without x (pxOverflowDelayedTaskList s)). now rewrite E.
Qed.

Lemma wake_suspended x s : xSuspendedTaskList (wake x s) = without x (xSuspendedTaskList s).
Proof.
  destruct (unevent_lists_same x s) as (_ & _ & _ & E).
  change (without x (xSuspendedTaskList (unevent x s)) = without x (xSuspendedTaskList s)). now rewrite E.
Qed.

Definition ready_tasks (s : sched) : list Z := concat (members <$> ready s).

Lemma wake_ready x s : is_Some (tasks s !! x) -> lists_ok s -> ready_tasks (wake x s) ≡ₚ x :: without x (ready_tasks s).
Proof.
  intros Hx H. pose proof (unevent_lists x s H) as H1. destruct (wake_prio x s Hx) as (t & E & P).
  pose proof (lo_range _ H1 x t E) as R. unfold configMAX_PRIORITIES in R.
  pose proof (lo_length _ H1) as L. change (Z.to_nat configMAX_PRIORITIES) with 5%nat in L.
  unfold wake, readied, ready_tasks. rewrite <- P.
  change (ready (added x (prio t) (removed x (unevent x s)))) with (alter (listINSERT_END x) (Z.to_nat (prio t)) (ready (removed x (unevent x s)))).
  rewrite (concat_alter _ x) by (intros; apply cyc_insert_members || (cbn [ready removed with_ready]; rewrite length_fmap, L; lia)).
  rewrite removed_members, without_concat by apply H1. now rewrite (proj1 (unevent_lists_same x s)).
Qed.

(** The loop wakes the tasks whose time has come. *)
Lemma unblock_loop_run now : forall l s, pxDelayedTaskList s = l -> NoDup l -> Forall (fun x => is_Some (tasks s !! x)) l ->
  StronglySorted (wakes_before (tasks s)) l ->
  exists woken rest, l = woken ++ rest /\ Forall (fun x => value_of (tasks s) x <= now) woken /\
    Forall (fun x => now < value_of (tasks s) x) rest /\
    unblock_loop now l s = Done tt (with_time (tick s) (xPendedTicks s) (xNumOfOverflows s)
      (match rest with [] => portMAX_DELAY | y :: _ => value_of (tasks s) y end) (wake_all woken s)).
Proof.
  induction l as [| x l IH]; intros s El Hd Hs Ho.
  { exists [], []. split; [reflexivity |]. split; [constructor |]. split; [constructor | reflexivity]. }
  apply NoDup_cons in Hd as [Hx Hd]. apply Forall_cons in Hs as [[t Et] Hs]. apply StronglySorted_inv in Ho as [Ho Hm].
  assert (Ev : value_of (tasks s) x = xItemValue t) by (unfold value_of; now rewrite Et).
  cbn [unblock_loop]. unfold bind at 1, load at 1. rewrite Et.
  destruct (Z.ltb_spec now (xItemValue t)) as [Lt | Ge].
  { exists [], (x :: l). split; [reflexivity |]. split; [constructor |]. split; [| now rewrite Ev].
    constructor; [lia |]. eapply Forall_impl; [exact Hm |]. unfold wakes_before. cbv beta. intros y. lia. }
  rewrite (wake_run_tick x t s (unblock_loop now l) Et). pose proof (wake_frame x s) as F.
  destruct (IH (wake x s)) as (woken & rest & E & W & R & Eq).
  - rewrite wake_delayed, El. now apply without_head.
  - exact Hd.
  - eapply Forall_impl; [exact Hs |]. cbv beta. intros y. apply frame_some, F.
  - clear - Ho F. induction Ho as [| y l Hl IH Hy]; constructor; [exact IH |]. eapply Forall_impl; [exact Hy |].
    unfold wakes_before. intros z. now rewrite !(sf_values s _ F).
  - exists (x :: woken), rest. split; [now rewrite E |]. split; [| split].
    + constructor; [lia |]. eapply Forall_impl; [exact W |]. cbv beta. intros y. now rewrite (sf_values s _ F).
    + eapply Forall_impl; [exact R |]. cbv beta. intros y. now rewrite (sf_values s _ F).
    + rewrite Eq. rewrite (sf_tick s _ F), (sf_pended s _ F), (sf_overflows s _ F).
      destruct rest as [| y rest]; [reflexivity |]. now rewrite (sf_values s _ F).
Qed.

Lemma wake_pending x s : pending s = [] -> pending (wake x s) = [].
Proof.
  intros E. change (pending (unevent x s) = []). unfold unevent. destruct (event_of s x) as [[| l |] |]; try exact E.
  change (without x (pending s) = []). now rewrite E.
Qed.

Lemma wake_all_pending l : forall s, pending s = [] -> pending (wake_all l s) = [].
Proof. induction l as [| x l IH]; intros s E; [exact E |]. apply (IH (wake x s)). now apply wake_pending. Qed.

Lemma wake_all_spec woken : forall rest s, lists_ok s -> pxDelayedTaskList s = woken ++ rest ->
  let s' := wake_all woken s in
  lists_ok s' /\ pxDelayedTaskList s' = rest /\ pxOverflowDelayedTaskList s' = pxOverflowDelayedTaskList s /\
  xSuspendedTaskList s' = xSuspendedTaskList s /\ (ready_tasks s' ≡ₚ (woken ++ ready_tasks s)) /\ same_frame s s' /\
  (events_ok s -> events_ok s') /\ (forall now, time_ok now s -> time_ok now s').
Proof.
  induction woken as [| x l IH]; intros rest s H E; cbn zeta.
  { cbn. split; [exact H |]. split; [exact E |]. do 2 (split; [reflexivity |]). split; [reflexivity |]. split; [apply same_frame_refl | auto]. }
  pose proof (lo_nodup s H) as D. unfold places in D. rewrite E in D.
  assert (Hx : (x ∉ l ++ rest) /\ (x ∉ pxOverflowDelayedTaskList s) /\ (x ∉ xSuspendedTaskList s) /\ (x ∉ ready_tasks s)).
  { apply NoDup_app in D as (_ & D1 & D2). cbn in D2. apply NoDup_cons in D2 as [D2 _]. rewrite !not_elem_of_app in D2.
    rewrite not_elem_of_app. split; [tauto |]. split; [tauto |]. split; [tauto |]. intros K. apply (D1 x K). cbn. left. }
  destruct Hx as (X1 & X2 & X3 & X4).
  assert (Hs : is_Some (tasks s !! x)).
  { apply (lo_tasks s H). unfold places. rewrite E, !elem_of_app. right. left. left. left. }
  pose proof (wake_lists x s Hs H) as Hw. pose proof (wake_frame x s) as F.
  destruct (IH rest (wake x s) Hw) as (K1 & K2 & K3 & K4 & K5 & K6 & K7 & K8).
  { rewrite wake_delayed, E. now apply without_head. }
  cbn [wake_all fold_left]. change (fold_left _ l (wake x s)) with (wake_all l (wake x s)).
  split; [exact K1 |]. split; [exact K2 |].
  split; [rewrite K3, wake_overflow; now apply without_absent |].
  split; [rewrite K4, wake_suspended; now apply without_absent |].
  split; [| split; [exact (same_frame_trans _ _ _ F K6) | split]].
  - rewrite K5, (wake_ready x s Hs H), (without_absent x (ready_tasks s) X4). symmetry. apply Permutation_middle.
  - intros Ev. apply K7. now apply wake_events.
  - intros now T. apply K8. now apply wake_time.
Qed.

(** ** Absolute time *)

Definition period : Z := 4294967296.
Definition abs_tick (s : sched) : Z := xNumOfOverflows s * period + tick s.

(** When a delayed task is to be woken. *)
Definition deadline (s : sched) (x : Z) : option Z :=
  if decide (x ∈ pxDelayedTaskList s) then Some (xNumOfOverflows s * period + value_of (tasks s) x)
  else if decide (x ∈ pxOverflowDelayedTaskList s) then Some ((xNumOfOverflows s + 1) * period + value_of (tasks s) x)
  else None.

(** Notifications, the current task and the scheduler's state are as before. *)
Record same_control (s s' : sched) : Prop := {
  sc_current : current s' = current s;
  sc_suspended : suspended s' = suspended s;
  sc_notified : forall y, notified <$> tasks s' !! y = notified <$> tasks s !! y;
  sc_state : forall y, notify_state <$> tasks s' !! y = notify_state <$> tasks s !! y;
  sc_prio : forall y, prio <$> tasks s' !! y = prio <$> tasks s !! y;
  sc_indefinite : xSuspendedTaskList s' = xSuspendedTaskList s;
  sc_events : no_new_events s s'
}.

(** A tick: the delayed tasks whose time has come are ready, the others are left alone. *)
Record ticked (s s' : sched) : Prop := {
  td_ok : sched_ok s';
  td_time : abs_tick s' = abs_tick s + 1;
  td_deadline : forall x, deadline s' x = if decide (deadline s x = Some (abs_tick s + 1)) then None else deadline s x;
  td_ready : exists woken, (ready_tasks s' ≡ₚ (woken ++ ready_tasks s)) /\ forall x, x ∈ woken <-> deadline s x = Some (abs_tick s + 1);
  td_control : same_control s s';
  td_pended : xPendedTicks s' = xPendedTicks s
}.

(** The part after the lists have been switched: the tick is [now], and nobody was to wake before. *)
Definition wake_due (now : Z) : prog sched unit :=
  s <- get ;; (if next_unblock s <=? now then unblock_loop now (pxDelayedTaskList s) else ret tt).

Lemma wake_due_run s : lists_ok s -> events_ok s -> time_ok (tick s - 1) s -> is_Some (tasks s !! current s) -> pending s = [] ->
  0 <= xPendedTicks s -> exists woken rest nu, pxDelayedTaskList s = woken ++ rest /\ Forall (fun x => value_of (tasks s) x = tick s) woken /\
    Forall (fun x => tick s < value_of (tasks s) x) rest /\
    let s' := with_time (tick s) (xPendedTicks s) (xNumOfOverflows s) nu (wake_all woken s) in
    wake_due (tick s) s = Done tt s' /\ sched_ok s'.
Proof.
  intros H Ev T Hc Hp Hpe. pose proof (lo_nodup s H) as D. unfold places in D. apply NoDup_app in D as (_ & _ & D). apply NoDup_app in D as (D & _ & _).
  assert (Hs : Forall (fun x => is_Some (tasks s !! x)) (pxDelayedTaskList s)).
  { apply Forall_forall. intros x Hx. apply (lo_tasks s H). unfold places. rewrite !elem_of_app. tauto. }
  destruct T as [T1 T2 T3 T4 T5 [T6 T7]]. unfold wake_due, bind, get.
  destruct (Z.leb_spec (next_unblock s) (tick s)) as [Le | Gt].
  - destruct (unblock_loop_run (tick s) _ s eq_refl D Hs T1) as (woken & rest & E & W & R & Eq).
    rewrite Eq. eexists woken, rest, _. split; [exact E |].
    assert (W' : Forall (fun x => value_of (tasks s) x = tick s) woken).
    { rewrite E, Forall_app in T3. destruct T3 as [T3 _]. apply Forall_forall. intros x Hx.
      pose proof (proj1 (Forall_forall _ _) W x Hx). pose proof (proj1 (Forall_forall _ _) T3 x Hx). cbv beta in *. lia. }
    split; [exact W' |]. split; [exact R |]. cbn zeta. split; [reflexivity |].
    destruct (wake_all_spec woken rest s H E) as (K1 & K2 & K3 & K4 & K5 & K6 & K7 & K8).
    destruct (K8 (tick s - 1)) as [U1 U2 U3 U4 U5 U6]; [now split |]. rewrite K2 in U3.
    assert (V : StronglySorted (wakes_before (tasks s)) rest).
    { rewrite E in T1. apply (sublist_sorted _ rest (woken ++ rest)); [now apply sublist_inserts_l | exact T1]. }
    split; [destruct K1; now split | split; cbn [tick with_time pxDelayedTaskList pxOverflowDelayedTaskList tasks next_unblock] | destruct (K7 Ev); now split | | intros _; now apply wake_all_pending | exact Hpe].
    + exact U1.
    + exact U2.
    + rewrite K2. apply Forall_forall. intros x Hx. rewrite (sf_values _ _ K6). pose proof (proj1 (Forall_forall _ _) R x Hx).
      pose proof (proj1 (Forall_forall _ _) U3 x Hx) as Q. cbv beta in *. rewrite (sf_values _ _ K6) in Q. lia.
    + rewrite (sf_tick _ _ K6) in U4. exact U4.
    + exact T5.
    + rewrite K2. destruct rest as [| y rest]; [split; [lia | constructor] |].
      assert (Q : value_of (tasks s) y <= portMAX_DELAY).
      { rewrite E, Forall_app in T3. destruct T3 as [_ T3]. apply Forall_cons in T3 as [T3 _]. lia. }
      split; [exact Q |]. apply StronglySorted_inv in V as [_ V]. constructor; [now rewrite (sf_values _ _ K6) |].
      eapply Forall_impl; [exact V |]. unfold wakes_before. cbv beta. intros z. now rewrite (sf_values _ _ K6).
    + cbn [tasks with_time current]. rewrite (sf_current _ _ K6). now apply (frame_some _ _ _ K6).
  - eexists [], (pxDelayedTaskList s), (next_unblock s). split; [reflexivity |]. split; [constructor |].
    assert (R : Forall (fun x => tick s < value_of (tasks s) x) (pxDelayedTaskList s)).
    { eapply Forall_impl; [exact T7 |]. cbv beta. lia. }
    split; [exact R |]. cbn zeta. split; [now destruct s |].
    split; [destruct H; now split | | destruct Ev; now split | exact Hc | intros _; exact Hp | exact Hpe]. split; cbn; auto.
    apply Forall_forall. intros x Hx. pose proof (proj1 (Forall_forall _ _) R x Hx). pose proof (proj1 (Forall_forall _ _) T3 x Hx). cbv beta in *. lia.
Qed.

(** The tick before its wake-ups: the lists have been switched if it has wrapped around. *)
Definition tick_start (s : sched) : sched :=
  if tick s =? portMAX_DELAY then
    with_blocked (pxOverflowDelayedTaskList s) [] (xSuspendedTaskList s)
      (with_time 0 (xPendedTicks s) (xNumOfOverflows s + 1)
         (match pxOverflowDelayedTaskList s with [] => portMAX_DELAY | x :: _ => value_of (tasks s) x end) s)
  else with_time (tick s + 1) (xPendedTicks s) (xNumOfOverflows s) (next_unblock s) s.

Lemma nothing_beyond s : time_ok (tick s) s -> tick s = portMAX_DELAY -> pxDelayedTaskList s = [].
Proof.
  intros T E. pose proof (to_wake _ _ T) as W. destruct (pxDelayedTaskList s) as [| x l]; [reflexivity |].
  apply Forall_cons in W as [W _]. lia.
Qed.

Lemma bind_modify {A} (f : sched -> sched) (k : unit -> prog sched A) s : bind (modify f) k s = k tt (f s).
Proof. reflexivity. Qed.

Lemma switch_run s : pxDelayedTaskList s = [] -> taskSWITCH_DELAYED_LISTS s = Done tt
  (with_blocked (pxOverflowDelayedTaskList s) [] (xSuspendedTaskList s)
    (with_time (tick s) (xPendedTicks s) (xNumOfOverflows s + 1)
      (match pxOverflowDelayedTaskList s with [] => portMAX_DELAY | x :: _ => value_of (tasks s) x end) s)).
Proof.
  intros D. unfold taskSWITCH_DELAYED_LISTS. unfold bind at 1, get. rewrite bool_decide_eq_true_2 by exact D.
  rewrite (bind_done (configASSERT true) _ tt s s eq_refl), bind_modify. unfold prvResetNextTaskUnblockTime, modify. cbn. now rewrite D.
Qed.

Lemma tick_start_run s : time_ok (tick s) s -> suspended s = 0 ->
  xTaskIncrementTick s = bind (wake_due (tick (tick_start s))) (fun _ => ret pdFALSE) (tick_start s).
Proof.
  intros T Hs. pose proof (to_tick _ _ T) as R. unfold portMAX_DELAY in R. unfold xTaskIncrementTick, tick_start.
  unfold bind at 1, get at 1. rewrite Hs. cbn [Z.eqb]. cbv zeta. unfold portMAX_DELAY. destruct (Z.eqb_spec (tick s) 4294967295) as [E | N].
  - rewrite E. change (u32 (4294967295 + 1)) with 0. cbn [Z.eqb]. pose proof (nothing_beyond s T E) as D.
    rewrite bind_modify. rewrite (bind_done _ _ _ _ _ (switch_run (with_time 0 (xPendedTicks s) (xNumOfOverflows s) (next_unblock s) s) D)). reflexivity.
  - unfold u32. rewrite Z.mod_small by lia. replace (tick s + 1 =? 0) with false by (symmetry; apply Z.eqb_neq; lia). reflexivity.
Qed.

Lemma tick_start_ok s : lists_ok s -> time_ok (tick s) s -> events_ok s ->
  lists_ok (tick_start s) /\ events_ok (tick_start s) /\ time_ok (tick (tick_start s) - 1) (tick_start s).
Proof.
  intros H T Ev. unfold tick_start. destruct (Z.eqb_spec (tick s) portMAX_DELAY) as [E | N].
  - pose proof (nothing_beyond s T E) as D. destruct H as [H1 H2 H3 H4 H5 H6 H7], T as [T1 T2 T3 T4 T5 T6].
    assert (P : places (with_blocked (pxOverflowDelayedTaskList s) [] (xSuspendedTaskList s)
      (with_time 0 (xPendedTicks s) (xNumOfOverflows s + 1)
         (match pxOverflowDelayedTaskList s with [] => portMAX_DELAY | x :: _ => value_of (tasks s) x end) s)) = places s).
    { unfold places. cbn. now rewrite D. }
    split; [split; auto; rewrite P; auto | split; [destruct Ev; now split |]].
    split; cbn; auto.
    + constructor.
    + eapply Forall_impl; [exact T4 |]. cbv beta. unfold portMAX_DELAY in *. lia.
    + unfold portMAX_DELAY. lia.
    + destruct (pxOverflowDelayedTaskList s) as [| x l] eqn:El; [split; [lia | constructor] |].
      apply Forall_cons in T4 as [T4 _]. split; [lia |]. apply StronglySorted_inv in T2 as [_ T2]. constructor; [lia |].
      eapply Forall_impl; [exact T2 |]. unfold wakes_before. auto.
  - split; [destruct H; now split | split; [destruct Ev; now split |]]. destruct T as [T1 T2 T3 T4 T5 T6]. split; cbn; auto.
    + eapply Forall_impl; [exact T3 |]. cbv beta. lia.
    + eapply Forall_impl; [exact T4 |]. cbv beta. lia.
    + lia.
Qed.

Lemma tick_start_abs s : time_ok (tick s) s -> abs_tick (tick_start s) = abs_tick s + 1 /\
  forall x, lists_ok s -> deadline (tick_start s) x = deadline s x.
Proof.
  intros T. unfold tick_start, abs_tick, deadline. destruct (Z.eqb_spec (tick s) portMAX_DELAY) as [E | N].
  - rewrite E, (nothing_beyond s T E). cbn. split; [unfold period, portMAX_DELAY; lia |]. intros x _.
    rewrite (decide_False (P := x ∈ @nil Z)) by apply not_elem_of_nil. rewrite (decide_False (P := x ∈ @nil Z)) by apply not_elem_of_nil.
    reflexivity.
  - cbn. split; [lia | reflexivity].
Qed.

Lemma tick_spec s : sched_ok s -> suspended s = 0 -> exists s', xTaskIncrementTick s = Done pdFALSE s' /\ ticked s s'.
Proof.
  intros [H T Ev Hc Hp Hpe] Hs. specialize (Hp Hs). rewrite (tick_start_run s T Hs). destruct (tick_start_ok s H T Ev) as (H1 & Ev1 & T1).
  destruct (tick_start_abs s T) as [A D]. set (s1 := tick_start s) in *.
  assert (Hp1 : pending s1 = []) by (unfold s1, tick_start; now destruct (tick s =? portMAX_DELAY)).
  assert (Hc1 : is_Some (tasks s1 !! current s1)) by (unfold s1, tick_start; now destruct (tick s =? portMAX_DELAY)).
  assert (Hq1 : 0 <= xPendedTicks s1) by (unfold s1, tick_start; now destruct (tick s =? portMAX_DELAY)).
  destruct (wake_due_run s1 H1 Ev1 T1 Hc1 Hp1 Hq1) as (woken & rest & nu & El & W & R & Eq & O).
  rewrite (bind_done _ _ _ _ _ Eq). eexists. split; [reflexivity |]. set (s2 := with_time _ _ _ _ _) in *.
  destruct (wake_all_spec woken rest s1 H1 El) as (K1 & K2 & K3 & K4 & K5 & K6 & _ & _).
  pose proof (lo_nodup s1 H1) as N. unfold places in N. rewrite El in N.
  apply NoDup_app in N as (_ & N0 & N). apply NoDup_app in N as (N1 & N2 & _). apply NoDup_app in N1 as (_ & N3 & _).
  assert (B : forall x, x ∈ woken <-> deadline s1 x = Some (abs_tick s + 1)).
  { intros x. rewrite <- A. unfold deadline, abs_tick. rewrite El. split.
    - intros K. rewrite decide_True by (rewrite elem_of_app; now left). pose proof (proj1 (Forall_forall _ _) W x K). cbv beta in *. f_equal. lia.
    - destruct (decide (x ∈ woken ++ rest)) as [K | _].
      + apply elem_of_app in K as [K | K]; [auto |]. intros Q. injection Q as Q. pose proof (proj1 (Forall_forall _ _) R x K). cbv beta in *. lia.
      + destruct (decide _) as [K | _]; [| discriminate]. intros Q. injection Q as Q.
        pose proof (proj1 (Forall_forall _ _) (to_wrapped _ _ T1) x K). pose proof (to_tick _ _ T1). cbv beta in *. unfold period, portMAX_DELAY in *. lia. }
  split.
  - exact O.
  - exact A.
  - intros x. rewrite <- (D x H). unfold deadline at 1. cbn [s2 pxDelayedTaskList pxOverflowDelayedTaskList with_time tasks xNumOfOverflows].
    rewrite K2, K3, (sf_values _ _ K6). destruct (decide (deadline s1 x = Some (abs_tick s + 1))) as [Y | Y].
    + apply B in Y. rewrite decide_False by (exact (N3 x Y)).
      rewrite decide_False; [reflexivity |]. intros K. apply (N2 x); [rewrite elem_of_app; now left |]. rewrite elem_of_app. now left.
    + unfold deadline. rewrite El. destruct (decide (x ∈ rest)) as [K | K].
      * now rewrite decide_True by (rewrite elem_of_app; now right).
      * rewrite (decide_False (P := x ∈ woken ++ rest)); [reflexivity |]. rewrite elem_of_app. intros [Q | Q]; [now apply Y, B | easy].
  - exists woken. split; [| intros x; rewrite (B x), (D x H); reflexivity]. transitivity (woken ++ ready_tasks s1); [exact K5 |].
    unfold s1, tick_start. now destruct (tick s =? portMAX_DELAY).
  - destruct K6. unfold s1, tick_start in *. destruct (tick s =? portMAX_DELAY); split; auto.
  - unfold s2, s1, tick_start. now destruct (tick s =? portMAX_DELAY).
Qed.

(** ** Time passes *)

Lemma deadline_later s x d : time_ok (tick s) s -> deadline s x = Some d -> abs_tick s < d.
Proof.
  intros T. unfold deadline, abs_tick. pose proof (to_tick _ _ T) as R. unfold portMAX_DELAY in R.
  destruct (decide (x ∈ pxDelayedTaskList s)) as [K | _].
  - intros Q. injection Q as <-. pose proof (proj1 (Forall_forall _ _) (to_wake _ _ T) x K). cbv beta in *. lia.
  - destruct (decide _) as [K | _]; [| discriminate]. intros Q. injection Q as <-.
    pose proof (proj1 (Forall_forall _ _) (to_wrapped _ _ T) x K). cbv beta in *. unfold period. lia.
Qed.

(** What is left of a deadline at the time [now]. *)
Definition left_at (now : Z) (d : option Z) : option Z :=
  match d with Some d => if d <=? now then None else Some d | None => None end.

(** Ticks have passed: the tasks whose deadlines have passed are ready. *)
Record lapse (s s' : sched) : Prop := {
  la_ok : sched_ok s';
  la_time : abs_tick s <= abs_tick s';
  la_deadline : forall x, deadline s' x = left_at (abs_tick s') (deadline s x);
  la_ready : forall x, x ∈ ready_tasks s' <-> x ∈ ready_tasks s \/ exists d, deadline s x = Some d /\ d <= abs_tick s';
  la_control : same_control s s';
  la_pended : xPendedTicks s' = xPendedTicks s
}.

Lemma same_control_refl s : same_control s s.
Proof. now split. Qed.

Lemma same_control_trans s1 s2 s3 : same_control s1 s2 -> same_control s2 s3 -> same_control s1 s3.
Proof. intros [] []. split; try (intros; congruence). now transitivity s2. Qed.

Lemma lapse_refl s : sched_ok s -> lapse s s.
Proof.
  intros H. split; auto using same_control_refl; try lia.
  - intros x. destruct (deadline s x) as [d |] eqn:E; [| reflexivity]. pose proof (deadline_later s x d (so_time s H) E).
    cbn. destruct (Z.leb_spec d (abs_tick s)); [lia | reflexivity].
  - intros x. split; [now left |]. intros [K | (d & E & L)]; [exact K |]. pose proof (deadline_later s x d (so_time s H) E). lia.
Qed.

Lemma lapse_trans s1 s2 s3 : lapse s1 s2 -> lapse s2 s3 -> lapse s1 s3.
Proof.
  intros [O1 T1 D1 R1 C1 P1] [O2 T2 D2 R2 C2 P2]. split; auto; try lia.
  - intros x. rewrite D2, D1. destruct (deadline s1 x) as [d |]; [| reflexivity]. cbn.
    destruct (Z.leb_spec d (abs_tick s2)); cbn; [| reflexivity]. destruct (Z.leb_spec d (abs_tick s3)); [reflexivity | lia].
  - intros x. rewrite R2, R1. split.
    + intros [[K | (d & E & L)] | (d & E & L)]; [now left | right; exists d; split; [exact E | lia] |].
      rewrite D1 in E. destruct (deadline s1 x) as [d1 |]; [| discriminate]. cbn in E. destruct (Z.leb_spec d1 (abs_tick s2)); [discriminate |].
      injection E as ->. right. exists d. auto.
    + intros [K | (d & E & L)]; [now do 2 left |]. destruct (Z.leb_spec d (abs_tick s2)); [left; right; eauto |]. right. exists d.
      split; [| exact L]. rewrite D1, E. cbn. destruct (Z.leb_spec d (abs_tick s2)); [lia | reflexivity].
  - now apply (same_control_trans s1 s2 s3).
Qed.

Lemma ticked_lapse s s' : sched_ok s -> ticked s s' -> lapse s s' /\ abs_tick s' = abs_tick s + 1.
Proof.
  intros H [O T D (woken & P & W) C Pe]. split; [| exact T]. split; auto; try lia.
  - intros x. rewrite D, T. destruct (deadline s x) as [d |] eqn:E; [| rewrite decide_False by discriminate; reflexivity].
    pose proof (deadline_later s x d (so_time s H) E). cbn. destruct (Z.leb_spec d (abs_tick s + 1)).
    + rewrite decide_True; [reflexivity | f_equal; lia].
    + rewrite decide_False; [reflexivity | intros Q; injection Q; lia].
  - intros x. rewrite P, elem_of_app, W, T. split.
    + intros [K | K]; [right; exists (abs_tick s + 1); split; [exact K | lia] | now left].
    + intros [K | (d & E & L)]; [now right | left]. pose proof (deadline_later s x d (so_time s H) E). rewrite E. f_equal. lia.
Qed.

Lemma pended_loop_run n : forall s, sched_ok s -> suspended s = 0 ->
  exists s', pended_loop n s = Done tt s' /\ lapse s s' /\ abs_tick s' = abs_tick s + Z.of_nat n.
Proof.
  induction n as [| n IH]; intros s H Hs.
  { exists s. split; [reflexivity |]. split; [now apply lapse_refl | lia]. }
  destruct (tick_spec s H Hs) as (s1 & E1 & T). destruct (ticked_lapse s s1 H T) as [L A].
  destruct (IH s1 (la_ok _ _ L)) as (s2 & E2 & L2 & A2); [rewrite (sc_suspended _ _ (la_control _ _ L)); exact Hs |].
  exists s2. split; [| split; [now apply (lapse_trans s s1) | lia]].
  cbn [pended_loop]. rewrite (bind_done _ _ _ _ _ E1). change (pdFALSE =? pdFALSE) with true. cbn [negb].
  now rewrite (bind_done (ret tt) _ tt _ _ eq_refl).
Qed.

(** ** The scheduler is resumed *)

Lemma wake_with_current c y x s : wake x (with_current c y s) = with_current c y (wake x s).
Proof.
  unfold wake, unevent, readied, added, removed, upd, event_of, prio_of. destruct s. cbn.
  destruct (event <$> _) as [[| l |] |]; reflexivity.
Qed.

Lemma wake_all_with_current c y l : forall s, wake_all l (with_current c y s) = with_current c y (wake_all l s).
Proof. induction l as [| x l IH]; intros s; [reflexivity |]. cbn. rewrite wake_with_current. apply IH. Qed.

Lemma wake_event_of x s y : y <> x -> event_of (wake x s) y = event_of s y.
Proof.
  intros N. change (event_of (unevent x s) y = event_of s y). unfold unevent.
  destruct (event_of s x) as [[| l |] |]; try reflexivity; rewrite event_of_upd; now rewrite decide_False by congruence.
Qed.

Lemma wake_pending_head x l s : pending s = x :: l -> x ∉ l -> event_of s x = Some InPendingReady -> pending (wake x s) = l.
Proof.
  intros E N Ev. change (pending (unevent x s) = l). unfold unevent. rewrite Ev.
  change (without x (pending s) = l). rewrite E. now apply without_head.
Qed.

Lemma pending_loop_run : forall l s, pending s = l -> NoDup l -> Forall (fun x => event_of s x = Some InPendingReady) l ->
  is_Some (tasks s !! current s) ->
  exists y, pending_loop l s = Done tt (with_current (current s) y (wake_all l s)) /\ pending (wake_all l s) = [].
Proof.
  induction l as [| x l IH]; intros s E D F Hc.
  { exists (yield_pending s). split; [now destruct s | exact E]. }
  apply NoDup_cons in D as [Nx D]. apply Forall_cons in F as [Ex F].
  unfold event_of in Ex. destruct (tasks s !! x) as [t |] eqn:Et; [| discriminate]. injection Ex as Ex.
  cbn [pending_loop]. rewrite (wake_run_pending x t s) by (congruence || exact Et).
  pose proof (wake_frame x s) as Fr.
  destruct (proj2 (frame_some _ _ x Fr) (ex_intro _ t Et)) as [t1 Et1].
  destruct (proj2 (frame_some _ _ (current s) Fr) Hc) as [c1 Ec1].
  assert (Ew : pending (wake x s) = l) by (apply wake_pending_head; [exact E | exact Nx | unfold event_of; rewrite Et; cbn; congruence]).
  assert (Fw : Forall (fun y => event_of (wake x s) y = Some InPendingReady) l).
  { rewrite Forall_forall in *. intros y Hy. rewrite wake_event_of by (intros ->; auto). auto. }
  unfold bind at 1, load at 1. rewrite Et1. unfold bind at 1, get at 1. unfold bind at 1, load at 1.
  rewrite (sf_current _ _ Fr), Ec1.
  assert (Hk : exists y, ((if prio c1 <? prio t1 then modify (fun s0 => with_current (current s0) pdTRUE s0) else ret tt) ;; pending_loop l) (wake x s)
    = pending_loop l (with_current (current s) y (wake x s))).
  { destruct (prio c1 <? prio t1).
    - exists pdTRUE. rewrite bind_modify. now rewrite (sf_current _ _ Fr).
    - exists (yield_pending (wake x s)). rewrite (bind_done (ret tt) _ tt _ _ eq_refl), <- (sf_current _ _ Fr). now destruct (wake x s). }
  destruct Hk as (y & ->).
  destruct (IH (with_current (current s) y (wake x s)) Ew D Fw) as (y' & Eq & Ep).
  { cbn [tasks with_current current]. apply (frame_some _ _ _ Fr). exact Hc. }
  exists y'. rewrite Eq. cbn [current with_current]. rewrite wake_all_with_current in *. split; [reflexivity | exact Ep].
Qed.

(** What waking some tasks does, whatever they were waiting for. *)
Lemma deadline_woken x s z : deadline (wake x s) z = if decide (z = x) then None else deadline s z.
Proof.
  unfold deadline. rewrite wake_delayed, wake_overflow, (sf_overflows _ _ (wake_frame x s)), (sf_values _ _ (wake_frame x s)).
  destruct (decide (z = x)) as [-> | N].
  - rewrite (decide_False (P := x ∈ _)) by (rewrite without_elem; tauto). now rewrite decide_False by (rewrite without_elem; tauto).
  - rewrite (decide_ext (z ∈ without x (pxDelayedTaskList s)) (z ∈ pxDelayedTaskList s)) by (rewrite without_elem; tauto).
    rewrite (decide_ext (z ∈ without x (pxOverflowDelayedTaskList s)) (z ∈ pxOverflowDelayedTaskList s)) by (rewrite without_elem; tauto).
    reflexivity.
Qed.

Lemma wake_all_any l : forall s, lists_ok s -> Forall (fun x => is_Some (tasks s !! x)) l ->
  let s' := wake_all l s in
  lists_ok s' /\ (events_ok s -> events_ok s') /\ (forall now, time_ok now s -> time_ok now s') /\ same_frame s s' /\
  (forall z, deadline s' z = if decide (z ∈ l) then None else deadline s z) /\
  (forall z, z ∈ ready_tasks s' <-> z ∈ l \/ z ∈ ready_tasks s).
Proof.
  induction l as [| x l IH]; intros s H F; cbn zeta.
  { split; [exact H |]. split; [auto |]. split; [auto |]. split; [apply same_frame_refl |]. cbn. split; intros z.
    - now rewrite decide_False by apply not_elem_of_nil.
    - rewrite elem_of_nil. tauto. }
  apply Forall_cons in F as [Hx F]. pose proof (wake_frame x s) as Fr.
  destruct (IH (wake x s) (wake_lists x s Hx H)) as (K1 & K2 & K3 & K4 & K5 & K6).
  { eapply Forall_impl; [exact F |]. cbv beta. intros y. apply (frame_some _ _ y Fr). }
  cbn [wake_all fold_left]. change (fold_left _ l (wake x s)) with (wake_all l (wake x s)).
  split; [exact K1 |]. split; [intros Ev; now apply K2, wake_events |]. split; [intros now T; now apply K3, wake_time |].
  split; [exact (same_frame_trans _ _ _ Fr K4) |]. split; intros z.
  - rewrite K5, deadline_woken. destruct (decide (z ∈ l)) as [K | K]; [now rewrite decide_True by now right |].
    destruct (decide (z = x)) as [-> | N]; [now rewrite decide_True by left |]. now rewrite decide_False by (rewrite elem_of_cons; tauto).
  - rewrite K6, (wake_ready x s Hx H), !elem_of_cons, without_elem. destruct (decide (z = x)) as [-> | N]; tauto.
Qed.

(** Notifications, priorities and the current task are as before. *)
Record same_tasks (s s' : sched) : Prop := {
  st_current : current s' = current s;
  st_notified : forall y, notified <$> tasks s' !! y = notified <$> tasks s !! y;
  st_state : forall y, notify_state <$> tasks s' !! y = notify_state <$> tasks s !! y;
  st_prio : forall y, prio <$> tasks s' !! y = prio <$> tasks s !! y;
  st_events : no_new_events s s'
}.

(** The ready list, the deadlines and the time after the scheduler has been suspended. *)
Record resumed (s s' : sched) : Prop := {
  rs_ok : sched_ok s';
  rs_suspended : suspended s' = 0;
  rs_time : abs_tick s' = abs_tick s + xPendedTicks s;
  rs_pended : xPendedTicks s' = 0;
  rs_deadline : forall x, deadline s' x = if decide (x ∈ pending s) then None else left_at (abs_tick s') (deadline s x);
  rs_ready : forall x, x ∈ ready_tasks s' <-> x ∈ ready_tasks s \/ x ∈ pending s \/ exists d, deadline s x = Some d /\ d <= abs_tick s';
  rs_tasks : same_tasks s s'
}.

(** [prvResetNextTaskUnblockTime] makes up for tasks that have left the list of delayed tasks. *)
Definition unblock_reset (s : sched) : sched :=
  with_time (tick s) (xPendedTicks s) (xNumOfOverflows s)
    (match pxDelayedTaskList s with [] => portMAX_DELAY | x :: _ => value_of (tasks s) x end) s.

Lemma unblock_reset_ok s : sched_ok s -> sched_ok (unblock_reset s).
Proof.
  intros [H T Ev Hc Hp Hpe]. split; [destruct H; now split | | destruct Ev; now split | exact Hc | exact Hp | exact Hpe].
  destruct T as [T1 T2 T3 T4 T5 T6]. split; cbn; auto.
  destruct (pxDelayedTaskList s) as [| x l]; [split; [lia | constructor] |].
  apply Forall_cons in T3 as [T3 _]. split; [lia |]. apply StronglySorted_inv in T1 as [_ T1]. constructor; [lia | exact T1].
Qed.

(** The tasks that have been kept back are woken. *)
Lemma pending_woken s : sched_ok s -> exists y,
  let s1 := with_current (current s) y (wake_all (pending s) (with_suspended 0 s)) in
  pending_loop (pending s) (with_suspended 0 s) = Done tt s1 /\ sched_ok s1.
Proof.
  intros [H T Ev Hc Hp Hpe]. destruct (eo_pending s Ev) as [D F].
  destruct (pending_loop_run (pending s) (with_suspended 0 s) eq_refl D F Hc) as (y & E & P). exists y. cbn zeta. split; [exact E |].
  assert (Fs : Forall (fun x => is_Some (tasks s !! x)) (pending s)).
  { eapply Forall_impl; [exact F |]. unfold event_of. cbv beta. intros x Q. destruct (tasks s !! x); [eauto | discriminate]. }
  destruct (wake_all_any (pending s) (with_suspended 0 s)) as (K1 & K2 & K3 & K4 & _); [destruct H; now split | exact Fs |].
  specialize (K3 (tick s)). split.
  - destruct K1; now split.
  - cbn [tick with_current]. rewrite (sf_tick _ _ K4). destruct K3; [destruct T; now split | now split].
  - destruct K2; [destruct Ev; now split | now split].
  - cbn [current with_current tasks]. apply (frame_some _ _ _ K4). exact Hc.
  - intros _. exact P.
  - cbn [xPendedTicks with_current]. rewrite (sf_pended _ _ K4). exact Hpe.
Qed.

(** The state in which the pended ticks are processed. *)
Lemma resumed_pending s : sched_ok s -> suspended s = 1 -> exists s2,
  (forall k : prog sched unit, (pending_loop (pending s) ;; (if bool_decide (pending s = []) then ret tt else prvResetNextTaskUnblockTime) ;; k)
     (with_suspended 0 s) = k s2) /\
  sched_ok s2 /\ suspended s2 = 0 /\ xPendedTicks s2 = xPendedTicks s /\ abs_tick s2 = abs_tick s /\ same_tasks s s2 /\
  (forall x, deadline s2 x = if decide (x ∈ pending s) then None else deadline s x) /\
  (forall x, x ∈ ready_tasks s2 <-> x ∈ pending s \/ x ∈ ready_tasks s).
Proof.
  intros H Hs. destruct (pending_woken s H) as (y & E1 & O1). cbn zeta in *. set (s1 := with_current _ _ _) in *.
  destruct (eo_pending s (so_events s H)) as [_ F].
  destruct (wake_all_any (pending s) (with_suspended 0 s)) as (_ & _ & _ & K4 & K5 & K6).
  { destruct (so_lists s H); now split. }
  { eapply Forall_impl; [exact F |]. unfold event_of. cbv beta. intros x Q. cbn [tasks with_suspended]. destruct (tasks s !! x); [eauto | discriminate]. }
  assert (Q : suspended s1 = 0 /\ xPendedTicks s1 = xPendedTicks s /\ abs_tick s1 = abs_tick s /\ same_tasks s s1).
  { unfold abs_tick. cbn [s1 suspended xPendedTicks xNumOfOverflows tick with_current].
    rewrite (sf_suspended _ _ K4), (sf_pended _ _ K4), (sf_overflows _ _ K4), (sf_tick _ _ K4). repeat split; apply K4. }
  exists (if bool_decide (pending s = []) then s1 else unblock_reset s1). split.
  { intros k. rewrite (bind_done _ _ _ _ _ E1). now destruct (bool_decide _). }
  destruct Q as (Q1 & Q2 & Q3 & Q4). pose proof (unblock_reset_ok s1 O1). destruct Q4.
  destruct (bool_decide _); (split; [assumption |]; do 3 (split; [assumption |]); split; [now split |]; split; [exact K5 | exact K6]).
Qed.

Lemma lapse_same s s' : lapse s s' -> same_tasks s s'.
Proof. intros L. destruct (la_control _ _ L). now split. Qed.

Lemma same_tasks_trans s1 s2 s3 : same_tasks s1 s2 -> same_tasks s2 s3 -> same_tasks s1 s3.
Proof. intros [] []. split; try (intros; congruence). now transitivity s2. Qed.

Lemma tasks_nonempty (m : gmap Z stcb) x : is_Some (m !! x) -> bool_decide (m = ∅) = false.
Proof. intros [t E]. apply bool_decide_eq_false. intros ->. now rewrite lookup_empty in E. Qed.

(** The pended ticks are processed, and none is left. *)
Lemma resumed_lapse s s2 s3 : sched_ok s -> suspended s2 = 0 -> xPendedTicks s2 = xPendedTicks s -> abs_tick s2 = abs_tick s -> same_tasks s s2 ->
  (forall x, deadline s2 x = if decide (x ∈ pending s) then None else deadline s x) ->
  (forall x, x ∈ ready_tasks s2 <-> x ∈ pending s \/ x ∈ ready_tasks s) ->
  lapse s2 s3 -> abs_tick s3 = abs_tick s2 + xPendedTicks s ->
  resumed s (with_time (tick s3) 0 (xNumOfOverflows s3) (next_unblock s3) s3).
Proof.
  intros H S2 P2 A2 T2 D2 R2 L A3. destruct L as [[L1 L2 L3 L4 L5 L6] T D R C P] eqn:EL.
  split; try reflexivity.
  - split; [destruct L1; now split | destruct L2; now split | destruct L3; now split | exact L4 | exact L5 | cbn; lia].
  - cbn. rewrite (sc_suspended _ _ C). exact S2.
  - change (abs_tick (with_time _ _ _ _ s3)) with (abs_tick s3). lia.
  - intros x. change (abs_tick (with_time _ _ _ _ s3)) with (abs_tick s3). change (deadline (with_time _ _ _ _ s3) x) with (deadline s3 x).
    rewrite D, D2. now destruct (decide _).
  - intros x. change (abs_tick (with_time _ _ _ _ s3)) with (abs_tick s3). change (ready_tasks (with_time _ _ _ _ s3)) with (ready_tasks s3).
    rewrite R, R2, D2. destruct (decide (x ∈ pending s)) as [K | K].
    + split; [now right; left | intros _; left; now left].
    + tauto.
  - apply (same_tasks_trans s s2); [exact T2 |]. destruct C. now split.
Qed.

Lemma resume_spec s : sched_ok s -> suspended s = 1 -> exists s', xTaskResumeAll s = Done pdFALSE s' /\ resumed s s'.
Proof.
  intros H Hs. destruct (resumed_pending s H Hs) as (s2 & E2 & O2 & S2 & P2 & A2 & T2 & D2 & R2).
  pose proof (so_pended s H) as Hpe.
  destruct (pended_loop_run (Z.to_nat (xPendedTicks s2)) s2 O2 S2) as (s3 & E3 & L & A3).
  exists (with_time (tick s3) 0 (xNumOfOverflows s3) (next_unblock s3) s3). split.
  - unfold xTaskResumeAll. unfold bind at 1, get at 1. rewrite Hs. change (negb (1 =? 0)) with true.
    rewrite (bind_done (configASSERT true) _ tt s s eq_refl), bind_modify. rewrite Hs. change (u32 (1 - 1)) with 0.
    unfold bind at 1, get at 1. erewrite bind_done; [reflexivity |].
    change (tasks (with_suspended 0 s)) with (tasks s). rewrite (tasks_nonempty _ _ (so_current s H)).
    cbn [suspended with_suspended Z.eqb negb andb]. cbv zeta. change (pending (mk_sched _ _ _ _ _ _ _ (pending s) _ _ _ _ _ _ _)) with (pending s).
    rewrite E2. unfold bind at 1, get at 1. destruct (Z.ltb_spec 0 (xPendedTicks s2)) as [Lt | Ge].
    + now rewrite (bind_done _ _ _ _ _ E3).
    + replace (Z.to_nat (xPendedTicks s2)) with 0%nat in E3 by lia. cbn in E3. injection E3 as <-.
      replace 0 with (xPendedTicks s2) by lia. now destruct s2.
  - apply (resumed_lapse s s2 s3); auto. lia.
Qed.

(** C22: Each tick makes exactly the delayed tasks ready whose time has come, across the wrap-around of the tick count too. *)
Theorem xTaskIncrementTick_wakes s : sched_ok s -> suspended s = 0 ->
  exists s', xTaskIncrementTick s = Done pdFALSE s' /\ sched_ok s' /\ abs_tick s' = abs_tick s + 1 /\
    (forall x, x ∈ ready_tasks s' <-> x ∈ ready_tasks s \/ deadline s x = Some (abs_tick s + 1)) /\
    (forall x, deadline s' x = if decide (deadline s x = Some (abs_tick s + 1)) then None else deadline s x) /\
    xSuspendedTaskList s' = xSuspendedTaskList s /\ same_tasks s s'.
Proof.
  intros H Hs. destruct (tick_spec s H Hs) as (s' & E & T). exists s'. split; [exact E |]. destruct (ticked_lapse s s' H T) as [L _].
  destruct T as [O A D (woken & P & W) C _]. repeat (split; [assumption |]). split; [| split; [exact D | split; [apply C | now apply lapse_same]]].
  intros x. rewrite P, elem_of_app, W. tauto.
Qed.
