(* ===== verification/SchedLists.v ===== *)
(** The lists of the scheduler are implemented by [list.c].

    [Sched] has a ready list as a cycle of its items and the end marker, seen from [pxIndex], and every other list as a
    sequence. [KernelList] has the linked structure in memory. Items are by address here. *)
From Stdlib Require Import ZArith Lia Bool.
From stdpp Require Import base decidable list gmap sorting.
From S2P Require Import Prelude KernelList KernelListProofs Sched SchedProofs.

(** The cycle from the index on, when the index is the end marker, and when it is the item [x] of [q ++ x :: post]. *)
Definition from_end (l : list Z) : cyc := mk_cyc (Some <$> l) None.
Definition from_item (q : list Z) (x : Z) (post : list Z) : cyc := mk_cyc ((Some <$> post) ++ None :: (Some <$> q)) (Some x).

Inductive cycle_of (e idx : Z) : list Z -> cyc -> Prop :=
| at_end l : idx = e -> cycle_of e idx l (from_end l)
| at_item q post : cycle_of e idx (q ++ idx :: post) (from_item q idx post).

(** The list at [p] is the ready list [c]. *)
Definition implements (s : lstate) (p : Z) (c : cyc) : Prop :=
  exists l h, is_list s p l /\ lists s !! p = Some h /\ cycle_of (xListEnd p) (KernelList.pxIndex h) l c.

Lemma some_list (l : list Z) : omap id (Some <$> l) = l.
Proof. induction l as [| x l IH]; [reflexivity |]. cbn. now rewrite IH. Qed.

Lemma cycle_members e idx l c : cycle_of e idx l c -> members c ≡ₚ l.
Proof.
  intros [l' _ | q post]; unfold members, cyc_items; cbn.
  - rewrite members_app, some_list. cbn. now rewrite app_nil_r.
  - rewrite !members_app. cbn. rewrite some_list, some_list. rewrite <- app_assoc. rewrite (Permutation_app_comm post), <- app_assoc. reflexivity.
Qed.

(** An item that is in no list. *)
Record free_item (s : lstate) (p : Z) (c : cyc) (n : Z) : Prop := {
  fi_item : exists i, items s !! n = Some i /\ 0 <= KernelList.xItemValue i <= portMAX_DELAY;
  fi_new : n <> xListEnd p /\ n ∉ members c;
  fi_room : Z.of_nat (length (members c)) + 1 < 4294967296
}.

Lemma linked_in_index s s' p u n v h : linked_in s s' p u n v h -> exists h', lists s' !! p = Some h' /\ KernelList.pxIndex h' = KernelList.pxIndex h.
Proof. intros L. rewrite (li_lists _ _ _ _ _ _ _ L), lookup_insert_eq. eexists. split; reflexivity. Qed.

(** [vListInsertEnd] in front of a position to which the index points. *)
Lemma insert_end_at s p n pre post h i : is_list s p (pre ++ post) -> lists s !! p = Some h -> KernelList.pxIndex h = List.hd (xListEnd p) post ->
  n ∉ xListEnd p :: pre ++ post -> items s !! n = Some i -> 0 <= KernelList.xItemValue i <= portMAX_DELAY ->
  Z.of_nat (length (pre ++ post)) + 1 < 4294967296 ->
  exists s' h', vListInsertEnd p n s = Done tt s' /\ is_list s' p (pre ++ n :: post) /\ lists s' !! p = Some h' /\
    KernelList.pxIndex h' = KernelList.pxIndex h.
Proof.
  intros Hl Hh Hi Hn Ei Hv Hlen. destruct (list_neighbours _ _ _ _ Hl) as (iu & iv & Eu & Ev & _ & Hp).
  destruct (not_neighbour _ _ _ _ Hn) as [N1 N2].
  destruct (insert_end_run s p n _ _ h iv iu i Hh Hi Ev Hp Eu Ei N1 N2) as (s' & E & L).
  destruct (list_linked_in _ _ _ _ _ _ _ _ Hl Hn Ei Hv Hh Hlen L) as [Hl' _].
  destruct (linked_in_index _ _ _ _ _ _ _ L) as (h' & Hh' & Hx). exists s', h'. auto.
Qed.

Lemma insert_end_implemented s p c n : implements s p c -> free_item s p c n ->
  exists s', vListInsertEnd p n s = Done tt s' /\ implements s' p (listINSERT_END n c).
Proof.
  intros (l & h & Hl & Hh & Hc) [(i & Ei & Hv) [Ne Nm] Hr]. pose proof (cycle_members _ _ _ _ Hc) as P. rewrite P in Nm, Hr.
  assert (Hn : n ∉ xListEnd p :: l) by (rewrite elem_of_cons; tauto).
  inversion Hc as [l' He E1 E2 | q post E1 E2]; subst l.
  - destruct (insert_end_at s p n l' [] h i) as (s' & h' & E & Hl' & Hh' & Hx); rewrite ?app_nil_r; auto.
    exists s'. split; [exact E |]. exists (l' ++ [n]), h'. split; [exact Hl' |]. split; [exact Hh' |].
    replace (listINSERT_END n (from_end l')) with (from_end (l' ++ [n])) by (unfold from_end, listINSERT_END; cbn; now rewrite fmap_app).
    constructor. congruence.
  - destruct (insert_end_at s p n q (KernelList.pxIndex h :: post) h i) as (s' & h' & E & Hl' & Hh' & Hx); auto.
    exists s'. split; [exact E |]. exists (q ++ n :: KernelList.pxIndex h :: post), h'. split; [exact Hl' |]. split; [exact Hh' |]. rewrite Hx.
    replace (listINSERT_END n (from_item q (KernelList.pxIndex h) post)) with (from_item (q ++ [n]) (KernelList.pxIndex h) post)
      by (unfold from_item, listINSERT_END; cbn; rewrite fmap_app; now rewrite <- app_assoc).
    replace (q ++ n :: KernelList.pxIndex h :: post) with ((q ++ [n]) ++ KernelList.pxIndex h :: post) by now rewrite <- app_assoc.
    constructor.
Qed.

(** ** Removal *)

Lemma filter_some n l : filter (fun i => i <> Some n) (Some <$> l) = Some <$> without n l.
Proof.
  unfold without. induction l as [| x l IH]; [reflexivity |]. rewrite fmap_cons. destruct (decide (x = n)) as [-> | N].
  - rewrite !filter_cons_False by (intros K; now apply K). exact IH.
  - rewrite !filter_cons_True by congruence. rewrite fmap_cons. now rewrite IH.
Qed.

Lemma without_middle n (pre post : list Z) : n ∉ pre ++ post -> without n (pre ++ n :: post) = pre ++ post.
Proof.
  rewrite elem_of_app. intros N. unfold without at 1. rewrite filter_app, filter_cons_False by (intros K; now apply K).
  change (without n pre ++ without n post = pre ++ post). rewrite !without_absent; tauto.
Qed.

Lemma removed_index s s' p u n v h : linked_out s s' p u n v h ->
  exists h', lists s' !! p = Some h' /\ KernelList.pxIndex h' = if KernelList.pxIndex h =? n then u else KernelList.pxIndex h.
Proof. intros L. rewrite (lo_lists _ _ _ _ _ _ _ L), lookup_insert_eq. eexists. split; reflexivity. Qed.

Lemma remove_item_filter q x post n : n <> x -> cyc_remove n (from_item q x post) = from_item (without n q) x (without n post).
Proof.
  intros N. unfold cyc_remove, from_item. cbn. rewrite decide_False by congruence.
  rewrite filter_app, filter_cons_True by discriminate. now rewrite !filter_some.
Qed.

Lemma split_unique (n : Z) (pre post : list Z) : n ∉ pre ++ post -> forall q r, q ++ n :: r = pre ++ n :: post -> q = pre /\ r = post.
Proof.
  induction pre as [| x pre IH]; intros N [| y q] r E; cbn in *; injection E as E.
  - auto.
  - destruct N. rewrite <- H, elem_of_app. right. left.
  - destruct N. rewrite E. left.
  - destruct (IH ltac:(rewrite elem_of_cons in N; tauto) q r H) as [-> ->]. now rewrite E.
Qed.

(** The cycle without the item, with the index where [uxListRemove] leaves it. *)
Lemma cycle_removed e idx pre n post c : NoDup (e :: pre ++ n :: post) -> cycle_of e idx (pre ++ n :: post) c ->
  cycle_of e (if idx =? n then lastof e pre else idx) (pre ++ post) (cyc_remove n c).
Proof.
  intros D Hc. apply NoDup_cons in D as [De D]. rewrite <- Permutation_middle in D. apply NoDup_cons in D as [Dn _].
  assert (Ne : n <> e) by (intros ->; apply De; rewrite elem_of_app; right; left).
  inversion Hc as [l' He E1 E2 | q post' E1 E2].
  - rewrite He, (proj2 (Z.eqb_neq e n)) by congruence. unfold cyc_remove, from_end. cbn. rewrite filter_some, without_middle by exact Dn.
    now constructor.
  - destruct (Z.eqb_spec idx n) as [-> | Nx].
    + assert (q = pre /\ post' = post) as [-> ->].
      { now apply (split_unique n). }
      unfold cyc_remove, from_item. cbn. rewrite decide_True by reflexivity. destruct pre as [| y pre _] using rev_ind.
      * cbn. rewrite removelast_last, last_last. now constructor.
      * rewrite lastof_snoc, fmap_app. cbn. change (None :: (Some <$> pre) ++ [Some y]) with ((None :: (Some <$> pre)) ++ [Some y]).
        rewrite app_assoc, removelast_last, last_last. rewrite <- app_assoc. apply (at_item e y pre post).
    + rewrite remove_item_filter by congruence.
      replace (pre ++ post) with (without n q ++ idx :: without n post'); [constructor |].
      rewrite <- (without_middle n pre post Dn), <- E1. unfold without. rewrite filter_app, filter_cons_True by congruence. reflexivity.
Qed.

Lemma remove_implemented s p c n : implements s p c -> n ∈ members c ->
  exists s', KernelList.uxListRemove n s = Done (Z.of_nat (length (without n (members c)))) s' /\ implements s' p (cyc_remove n c).
Proof.
  intros (l & h & Hl & Hh & Hc) Hn. pose proof (cycle_members _ _ _ _ Hc) as P. rewrite P in Hn. apply list_elem_of_split in Hn as (pre & post & ->).
  destruct (uxListRemove_run s p pre n post h Hl Hh) as (s' & E & Hl' & L & _). destruct (removed_index _ _ _ _ _ _ _ L) as (h' & Hh' & Hx).
  exists s'. split.
  - rewrite E. do 2 f_equal. apply Permutation_length. pose proof (il_distinct _ _ _ Hl) as D. apply NoDup_cons in D as [_ D].
    rewrite <- Permutation_middle in D. apply NoDup_cons in D as [Dn _]. unfold without. rewrite P. symmetry.
    now rewrite <- (without_middle n pre post Dn).
  - exists (pre ++ post), h'. split; [exact Hl' |]. split; [exact Hh' |]. rewrite Hx. apply cycle_removed; [apply Hl | exact Hc].
Qed.

(** ** The next owner *)

Lemma next_item s p pre post : is_list s p (pre ++ post) ->
  exists i, items s !! lastof (xListEnd p) pre = Some i /\ pxNext i = List.hd (xListEnd p) post.
Proof. intros Hl. destruct (list_neighbours _ _ _ _ Hl) as (iu & _ & Eu & _ & N & _). eauto. Qed.

(** One step of the index. *)
Lemma index_step s p l idx c : is_list s p l -> cycle_of (xListEnd p) idx l c ->
  exists i, items s !! idx = Some i /\ cycle_of (xListEnd p) (pxNext i) l (cyc_next c) /\ pxNext i ∈ xListEnd p :: l /\
    (Sched.pxIndex (cyc_next c) = None <-> pxNext i = xListEnd p).
Proof.
  intros Hl Hc. pose proof (il_distinct _ _ _ Hl) as D. apply NoDup_cons in D as [D _].
  inversion Hc as [l' He E1 E2 | q post E1 E2]; subst l c.
  - destruct (next_item s p [] l' Hl) as (i & Ei & N). exists i. rewrite He. split; [exact Ei |]. rewrite N. destruct l' as [| x r]; cbn.
    + split; [now constructor | split; [left | tauto]].
    + split; [exact (at_item _ x [] r) |]. split; [right; left |]. split; [discriminate |]. intros ->. destruct D. left.
  - assert (Hl2 : is_list s p ((q ++ [idx]) ++ post)) by now rewrite <- app_assoc.
    destruct (next_item s p (q ++ [idx]) post Hl2) as (i & Ei & N). rewrite lastof_snoc in Ei. exists i. split; [exact Ei |]. rewrite N.
    destruct post as [| y r]; cbn.
    + split; [| split; [left | tauto]]. unfold cyc_next, from_item. cbn. replace ((Some <$> q) ++ [Some idx]) with (Some <$> (q ++ [idx])) by now rewrite fmap_app.
      now apply at_end.
    + split; [| split; [rewrite elem_of_cons, elem_of_app, !elem_of_cons; tauto |]].
      * unfold cyc_next, from_item. cbn. rewrite <- app_assoc. cbn. replace ((Some <$> q) ++ [Some idx]) with (Some <$> (q ++ [idx])) by now rewrite fmap_app.
        replace (q ++ idx :: y :: r) with ((q ++ [idx]) ++ y :: r) by now rewrite <- app_assoc. apply at_item.
      * split; [discriminate |]. intros ->. destruct D. rewrite elem_of_app. right. right. left.
Qed.

Lemma index_moved s p l h a : is_list s p l -> lists s !! p = Some h -> a ∈ xListEnd p :: l ->
  is_list (mk_lstate (items s) (<[p := list_index a h]> (lists s))) p l.
Proof.
  intros [H1 H2 H3 H4 (h' & Hh' & Hc & _) H6] Hh Ha. assert (h' = h) as -> by congruence. split; [| exact H2 | exact H3 | exact H4 | | exact H6].
  - apply (chain_frame s); [reflexivity .. | exact H1].
  - exists (list_index a h). cbn [lists]. rewrite lookup_insert_eq. auto.
Qed.

Definition owner_of (s : lstate) (a : Z) : Z := default 0 (pvOwner <$> items s !! a).

Lemma cycle_at_end e l c : e ∉ l -> cycle_of e e l c -> c = from_end l.
Proof. intros N H. inversion H as [l' _ E1 E2 | q post E1 E2]; [reflexivity |]. destruct N. rewrite <- E1, elem_of_app. right. left. Qed.

(** The last part of the function: the owner of the item the index points to. *)
Lemma owner_read s p l h x c : is_list s p l -> lists s !! p = Some h -> KernelList.pxIndex h = x -> x <> xListEnd p -> cycle_of (xListEnd p) x l c ->
  (l <- load_list p ;; i <- load_item (KernelList.pxIndex l) ;; ret (pvOwner i)) s = Done (owner_of s x) s /\
  implements s p c /\ Sched.pxIndex c = Some x.
Proof.
  intros Hl Hh Hx Nx Hc. split; [| split].
  - rewrite (load_list_bind _ _ _ _ Hh), Hx. unfold bind, load_item, owner_of.
    assert (K : x ∈ xListEnd p :: l) by (destruct Hc; [easy | rewrite elem_of_cons, elem_of_app; right; right; left]).
    destruct (is_node _ _ _ _ Hl K) as [i Ei]. now rewrite Ei.
  - exists l, h. rewrite Hx. auto.
  - destruct Hc; [easy | reflexivity].
Qed.

Lemma next_implemented s p c : implements s p c -> members c <> [] ->
  exists s' x, KernelList.listGET_OWNER_OF_NEXT_ENTRY p s = Done (owner_of s x) s' /\
    implements s' p (Sched.listGET_OWNER_OF_NEXT_ENTRY c) /\ Sched.pxIndex (Sched.listGET_OWNER_OF_NEXT_ENTRY c) = Some x.
Proof.
  intros (l & h & Hl & Hh & Hc) Hm. destruct (index_step s p l _ c Hl Hc) as (i & Ei & Hc1 & Hin & Hend).
  set (h1 := list_index (pxNext i) h). set (s1 := mk_lstate (items s) (<[p := h1]> (lists s))).
  assert (Hl1 : is_list s1 p l) by exact (index_moved s p l h _ Hl Hh Hin).
  assert (Hh1 : lists s1 !! p = Some h1) by apply lookup_insert_eq.
  unfold KernelList.listGET_OWNER_OF_NEXT_ENTRY. rewrite (load_list_bind _ _ _ _ Hh), (load_item_bind _ _ _ _ Ei).
  rewrite (bind_done _ _ _ _ _ (store_list_run _ _ _ _ Hh)). fold h1 s1. unfold Sched.listGET_OWNER_OF_NEXT_ENTRY. cbv zeta.
  destruct (Z.eqb_spec (pxNext i) (xListEnd p)) as [E | E].
  - rewrite decide_True by now apply Hend. pose proof (il_distinct _ _ _ Hl) as D. apply NoDup_cons in D as [D _]. rewrite E in Hc1.
    rewrite (cycle_at_end _ _ _ D Hc1). destruct l as [| x r].
    { destruct Hm. pose proof (cycle_members _ _ _ _ Hc) as P. symmetry in P. now apply Permutation_nil in P. }
    destruct (next_item s1 p [] (x :: r) Hl1) as (j & Ej & Nj). cbn [List.hd lastof List.last] in Ej, Nj.
    set (h2 := list_index (pxNext j) h1). set (s2 := mk_lstate (items s1) (<[p := h2]> (lists s1))).
    assert (Hr : (e <- load_item (xListEnd p) ;; store_list p (list_index (pxNext e))) s1 = Done tt s2).
    { rewrite (load_item_bind _ _ _ _ Ej). exact (store_list_run _ _ _ _ Hh1). }
    rewrite (bind_done _ _ _ _ _ Hr).
    assert (Hl2 : is_list s2 p (x :: r)) by (apply (index_moved s1 p (x :: r) h1 _ Hl1 Hh1); rewrite Nj; right; left).
    destruct (owner_read s2 p (x :: r) h2 x (cyc_next (from_end (x :: r))) Hl2 (lookup_insert_eq _ _ _) Nj) as (R1 & R2 & R3).
    { intros ->. apply D. left. }
    { exact (at_item _ x [] r). }
    exists s2, x. split; [exact R1 | now split].
  - rewrite decide_False by (intros K; now apply E, Hend). rewrite (bind_done (ret tt) _ tt _ _ eq_refl).
    destruct (owner_read s1 p l h1 (pxNext i) (cyc_next c) Hl1 Hh1 eq_refl E Hc1) as (R1 & R2 & R3).
    exists s1, (pxNext i). split; [exact R1 | now split].
Qed.

(** ** Sorted lists *)

Lemma insert_sorted_at v n pre post : Forall (fun a => v a <= v n) pre -> Forall (fun a => v n < v a) post ->
  insert_sorted v n (pre ++ post) = pre ++ n :: post.
Proof.
  intros F G. induction F as [| a pre Ha F IH]; cbn.
  - destruct post as [| b post]; [reflexivity |]. apply Forall_cons in G as [G _]. cbn. now rewrite (proj2 (Z.ltb_lt _ _) G).
  - now rewrite (proj2 (Z.ltb_ge _ _) Ha), IH.
Qed.

(** C15: The functions and macros of [list.c] and [list.h], on the linked structure in memory, do what the scheduler's model says:
    insertion in front of the index, removal with the index stepping back, the owner of the next item past the end marker,
    and sorted insertion. *)
Theorem lists_implemented s p c n : implements s p c ->
  (free_item s p c n -> exists s', vListInsertEnd p n s = Done tt s' /\ implements s' p (listINSERT_END n c)) /\
  (n ∈ members c -> exists s', KernelList.uxListRemove n s = Done (Z.of_nat (length (without n (members c)))) s' /\ implements s' p (cyc_remove n c)) /\
  (members c <> [] -> exists s' x, KernelList.listGET_OWNER_OF_NEXT_ENTRY p s = Done (owner_of s x) s' /\
     implements s' p (Sched.listGET_OWNER_OF_NEXT_ENTRY c) /\ Sched.pxIndex (Sched.listGET_OWNER_OF_NEXT_ENTRY c) = Some x) /\
  (forall fuel l, is_list s p l -> ordered s l -> free_item s p (from_end l) n -> (length l < fuel)%nat ->
     exists s', vListInsert fuel p n s = Done tt s' /\ is_list s' p (insert_sorted (valof s) n l) /\ ordered s' (insert_sorted (valof s) n l)).
Proof.
  intros H. split; [now apply insert_end_implemented | split; [now apply remove_implemented | split; [now apply next_implemented |]]].
  intros fuel l Hl Ho [(i & Ei & Hv) [Ne Nm] Hr] Hf.
  assert (P : members (from_end l) ≡ₚ l) by (apply (cycle_members 0 0); now constructor). rewrite P in Nm, Hr.
  destruct (vListInsert_sorted fuel s p l n i Hl Ho Ei) as (s' & pre & post & E & -> & Hl' & Ho' & F1 & F2 & _); auto.
  { rewrite elem_of_cons. tauto. }
  assert (Vn : valof s n = KernelList.xItemValue i) by (unfold valof, valuep; now rewrite Ei).
  exists s'. split; [exact E |]. rewrite insert_sorted_at by (rewrite Vn; assumption). now split.
Qed.

(** * A list in memory *)

Lemma ex_implements : implements ex_state ex_list (from_end [16; 32]).
Proof. exists [16; 32], (mk_list 2 (xListEnd ex_list)). split; [exact ex_is_list |]. split; [vm_compute; reflexivity |]. now constructor. Qed.

(** Item 48 is inserted; then item 16 is the next. *)
Lemma lists_implemented_witness :
  (exists s', vListInsertEnd ex_list 48 ex_state = Done tt s' /\ implements s' ex_list (from_end [16; 32; 48])) /\
  (exists s' x, KernelList.listGET_OWNER_OF_NEXT_ENTRY ex_list ex_state = Done (owner_of ex_state x) s' /\ x = 16).
Proof.
  destruct (lists_implemented ex_state ex_list (from_end [16; 32]) 48 ex_implements) as (A & _ & B & _). split.
  - apply A. split; [exists (ex_item 7); split; [vm_compute; reflexivity | cbn; unfold portMAX_DELAY; lia] | | cbn; lia].
    split; [discriminate |]. apply (bool_decide_unpack (_ ∉ _)). vm_compute. exact I.
  - destruct B as (s' & x & E & _ & K); [discriminate |]. exists s', x. split; [exact E | now injection K].
Defined.
