(* ===== verification/SchedSwitch.v ===== *)
(** The choice of the next task, blocking the current one, and notifying a task. *)
From Stdlib Require Import ZArith Lia Bool.
From stdpp Require Import base decidable list gmap sorting.
From S2P Require Import Prelude Queue Tasks EtharpTable Sched SchedProofs.

(** * Choosing the next task *)

Definition same_ready (s s' : sched) : Prop := forall x, x ∈ ready_tasks s' <-> x ∈ ready_tasks s.

Lemma concat_replaced (c c' : cyc) : (members c' ≡ₚ members c) -> forall (l : list cyc) p, l !! p = Some c ->
  concat (members <$> <[p := c']> l) ≡ₚ concat (members <$> l).
Proof.
  intros P. induction l as [| d l IH]; intros p E; [discriminate |]. destruct p as [| p]; cbn in *.
  - injection E as ->. now rewrite P.
  - now rewrite (IH p E).
Qed.

Lemma ready_replaced s p c c' x y : sched_ok s -> suspended s = 0 -> ready s !! p = Some c -> cyc_ok c' -> (members c' ≡ₚ members c) -> x ∈ members c ->
  let s' := with_current x y (with_ready (top_ready s) (<[p := c']> (ready s)) s) in
  sched_ok s' /\ same_ready s s'.
Proof.
  intros [H T Ev Hc Hp Hpe] Hs E O P Hx. cbn zeta. set (s' := with_current _ _ _).
  pose proof (concat_replaced c c' P (ready s) p E) as Pc.
  assert (Pp : places s' ≡ₚ places s).
  { unfold places. cbn [s' ready with_current with_ready pxDelayedTaskList pxOverflowDelayedTaskList xSuspendedTaskList]. now rewrite Pc. }
  assert (Hm : forall q d, ready s' !! q = Some d -> exists d0, ready s !! q = Some d0 /\ cyc_ok d /\ (members d ≡ₚ members d0)).
  { intros q d Eq. cbn [s' ready with_current with_ready] in Eq. destruct (decide (p = q)) as [<- | N].
    - rewrite list_lookup_insert_eq in Eq by exact (lookup_lt_Some _ _ _ E). injection Eq as <-. eauto.
    - rewrite list_lookup_insert_ne in Eq by exact N. exists d. split; [exact Eq |]. split; [| reflexivity].
      exact (Forall_lookup_1 _ _ _ _ (lo_cycs s H) Eq). }
  split; [split |].
  - split.
    + cbn [s' ready with_current with_ready]. rewrite length_insert. apply H.
    + apply Forall_lookup_2. intros q d Eq. now destruct (Hm q d Eq) as (? & _ & K & _).
    + rewrite Pp. apply H.
    + intros z. rewrite Pp. apply (lo_tasks s H).
    + intros q d z t Eq Hz. destruct (Hm q d Eq) as (d0 & E0 & _ & Q). rewrite Q in Hz. exact (lo_prio s H q d0 z t E0 Hz).
    + apply (lo_range s H).
    + destruct (lo_top s H) as [T1 T2]. split; [exact T1 |]. intros q Hq. change (top_ready s') with (top_ready s). rewrite (T2 q Hq). split.
      * intros (d & Ed & Nd). cbn [s' ready with_current with_ready]. destruct (decide (p = Z.to_nat q)) as [-> | N].
        -- exists c'. rewrite list_lookup_insert_eq by exact (lookup_lt_Some _ _ _ E). split; [reflexivity |].
           intros K. rewrite K in P. apply Permutation_nil in P. congruence.
        -- exists d. now rewrite list_lookup_insert_ne by exact N.
      * intros (d & Ed & Nd). destruct (Hm _ d Ed) as (d0 & E0 & _ & Q). exists d0. split; [exact E0 |]. intros K. rewrite K in Q.
        symmetry in Q. now apply Permutation_nil in Q.
  - destruct T; now split.
  - destruct Ev; now split.
  - apply (lo_tasks s H). exact (ready_place s p c x E Hx).
  - exact Hp.
  - exact Hpe.
  - intros z. unfold ready_tasks. cbn [s' ready with_current with_ready]. now rewrite Pc.
Qed.

(** The ready list of the highest priority in use. *)
Definition top_list (s : sched) (p : nat) (c : cyc) : Prop :=
  ready s !! p = Some c /\ members c <> [] /\ forall q d, (p < q)%nat -> ready s !! q = Some d -> members d = [].

Lemma top_list_exists s : lists_ok s -> ready_tasks s <> [] -> exists p c, top_list s p c /\ portGET_HIGHEST_PRIORITY (top_ready s) = Z.of_nat p.
Proof.
  intros H N. destruct (lo_top s H) as [T1 T2].
  assert (Hz : top_ready s <> 0).
  { intros E. apply N. unfold ready_tasks. destruct (concat _) as [| x l] eqn:El; [reflexivity | exfalso].
    assert (Hx : In x (concat (members <$> ready s))) by (rewrite El; now left).
    apply in_concat in Hx as (k & Hk & Hx). apply list_elem_of_In, list_elem_of_fmap in Hk as (c & -> & Hc).
    apply list_elem_of_lookup in Hc as [p Ep]. assert (B : Z.testbit (top_ready s) (Z.of_nat p) = true).
    { apply T2; [lia |]. exists c. rewrite Nat2Z.id. split; [exact Ep |]. intros K. now rewrite K in Hx. }
    rewrite E, Z.testbit_0_l in B. discriminate. }
  assert (Hl : 0 <= Z.log2 (top_ready s)) by apply Z.log2_nonneg.
  destruct (proj1 (T2 _ Hl)) as (c & Ec & Nc); [apply Z.bit_log2; lia |].
  exists (Z.to_nat (Z.log2 (top_ready s))), c. split.
  - split; [exact Ec |]. split; [exact Nc |]. intros q d Hq Ed. destruct (members d) as [| z l] eqn:Em; [reflexivity |]. exfalso.
    assert (B : Z.testbit (top_ready s) (Z.of_nat q) = true).
    { apply T2; [lia |]. exists d. rewrite Nat2Z.id, Em. now split. }
    rewrite Z.bits_above_log2 in B; [discriminate | exact T1 | lia].
  - unfold portGET_HIGHEST_PRIORITY. rewrite (proj2 (Z.eqb_neq _ _) Hz). lia.
Qed.

(** The task at the front of that list runs, and is then at its end. *)
Lemma switch_context_run s p c x r : sched_ok s -> suspended s = 0 -> top_list s p c -> members c = x :: r ->
  exists s', vTaskSwitchContext s = Done tt s' /\ sched_ok s' /\ suspended s' = 0 /\ current s' = x /\ yield_pending s' = pdFALSE /\ same_ready s s' /\
    (exists c', top_list s' p c' /\ members c' = r ++ [x]) /\
    tasks s' = tasks s /\ (forall y, deadline s' y = deadline s y) /\ abs_tick s' = abs_tick s /\ xPendedTicks s' = xPendedTicks s /\
    pending s' = pending s.
Proof.
  intros H Hs (E & Nc & Hi) Em.
  assert (Hn : ready_tasks s <> []).
  { intros K. assert (Q : x ∈ ready_tasks s); [| rewrite K in Q; inversion Q].
    apply list_elem_of_In, in_concat. exists (members c). rewrite <- !list_elem_of_In. split; [| rewrite Em; left].
    apply list_elem_of_fmap. exists c. split; [reflexivity | now apply list_elem_of_lookup_2 in E]. }
  destruct (top_list_exists s (so_lists s H) Hn) as (p' & c0 & (E0 & N0 & Hi0) & Ep).
  assert (p' = p) as ->.
  { destruct (lt_eq_lt_dec p p') as [[L | ->] | L]; [now destruct N0; apply (Hi p' c0 L) | reflexivity | now destruct Nc; apply (Hi0 p c L)]. }
  pose proof (Forall_lookup_1 _ _ _ _ (lo_cycs s (so_lists s H)) E) as O.
  destruct (next_owner c x r O Em) as (O' & Ex & Em'). set (c' := listGET_OWNER_OF_NEXT_ENTRY c) in *.
  destruct (ready_replaced s p c c' x pdFALSE H Hs E O') as [K1 K2]; [rewrite Em, Em'; symmetry; apply Permutation_cons_append | rewrite Em; left |].
  exists (with_current x pdFALSE (with_ready (top_ready s) (<[p := c']> (ready s)) s)).
  split; [| split; [exact K1 |]; split; [exact Hs |]; do 2 (split; [reflexivity |]); split; [exact K2 |]; split; [| now repeat split]].
  - unfold vTaskSwitchContext. unfold bind at 1, get at 1. rewrite Hs. cbn [Z.eqb negb]. cbv zeta. rewrite Ep, Nat2Z.id, E, Em.
    rewrite (bind_done (configASSERT (0 <? Z.of_nat (length (x :: r)))) _ tt s s eq_refl). fold c'. now rewrite Ex.
  - exists c'. split; [| exact Em']. split; [cbn; now rewrite list_lookup_insert_eq by exact (lookup_lt_Some _ _ _ E) |].
    split; [rewrite Em'; intros K; now apply app_eq_nil in K |]. intros q d L. cbn [ready with_current with_ready].
    rewrite list_lookup_insert_ne by lia. now apply Hi.
Qed.

(** Switches one after another. *)
Fixpoint switches (n : nat) : prog sched unit := match n with O => ret tt | S n' => vTaskSwitchContext ;; switches n' end.

Lemma switches_run n : forall s p c x, sched_ok s -> suspended s = 0 -> top_list s p c -> members c !! n = Some x ->
  exists s', switches (S n) s = Done tt s' /\ sched_ok s' /\ suspended s' = 0 /\ current s' = x /\ same_ready s s' /\
    (exists c', top_list s' p c' /\ members c' = drop (S n) (members c) ++ take (S n) (members c)) /\ tasks s' = tasks s.
Proof.
  induction n as [| n IH]; intros s p c x H Hs Ht Ex; destruct (members c) as [| y r] eqn:Em; try discriminate.
  - injection Ex as ->. destruct (switch_context_run s p c x r H Hs Ht Em) as (s' & E & K1 & K2 & K3 & _ & K4 & K5 & K6 & _).
    exists s'. cbn [switches]. rewrite (bind_done _ _ _ _ _ E). cbn [drop take]. rewrite drop_0. auto 10.
  - destruct (switch_context_run s p c y r H Hs Ht Em) as (s1 & E & K1 & K2 & K3 & _ & K4 & (c1 & Ht1 & Em1) & K6 & _).
    cbn in Ex. assert (Lr : (n < length r)%nat) by exact (lookup_lt_Some _ _ _ Ex).
    destruct (IH s1 p c1 x K1 K2 Ht1) as (s' & E' & J1 & J2 & J3 & J4 & (c' & Hc' & Em') & J5).
    { rewrite Em1. now rewrite lookup_app_l by exact Lr. }
    exists s'. rewrite (bind_done _ _ _ _ _ E : switches (S (S n)) s = switches (S n) s1). split; [exact E' |].
    do 3 (split; [assumption |]). split; [intros z; now rewrite (J4 z), (K4 z) |]. split; [| congruence].
    exists c'. split; [exact Hc' |]. rewrite Em', Em1. rewrite drop_app_le, take_app_le by lia. cbn [drop take]. now rewrite <- app_assoc.
Qed.

(** C25: The tasks of the highest priority in use get their turn one after another, in the order of their ready list. *)
Theorem tasks_take_turns s p c n x : sched_ok s -> suspended s = 0 -> top_list s p c -> members c !! n = Some x ->
  (forall y, y ∈ ready_tasks s -> prio_of s y <= Z.of_nat p) /\
  exists s' c', switches (S n) s = Done tt s' /\ sched_ok s' /\ current s' = x /\ prio_of s' x = Z.of_nat p /\ same_ready s s' /\
    top_list s' p c' /\ members c' = drop (S n) (members c) ++ take (S n) (members c).
Proof.
  intros H Hs Ht Ex.
  assert (Q : forall q d y, ready s !! q = Some d -> y ∈ members d -> prio_of s y = Z.of_nat q).
  { intros q d y Ed Hy. assert (K : is_Some (tasks s !! y)) by (apply (lo_tasks s (so_lists s H)); exact (ready_place s q d y Ed Hy)).
    destruct K as [t Et]. unfold prio_of. rewrite Et. exact (lo_prio s (so_lists s H) q d y t Ed Hy Et). }
  split.
  - intros y Hy. apply list_elem_of_In, in_concat in Hy as (k & Hk & Hy). apply list_elem_of_In, list_elem_of_fmap in Hk as (d & -> & Hd).
    apply list_elem_of_lookup in Hd as [q Ed]. apply list_elem_of_In in Hy. rewrite (Q q d y Ed Hy). destruct (le_lt_dec q p) as [L | L]; [lia |].
    destruct Ht as (_ & _ & Ht). rewrite (Ht q d L Ed) in Hy. inversion Hy.
  - destruct (switches_run n s p c x H Hs Ht Ex) as (s' & E & O & S & C & R & (c' & Ht' & Em) & Et).
    exists s', c'. repeat (split; [assumption |]). split; [| auto]. unfold prio_of. rewrite Et. apply (Q p c x (proj1 Ht)).
    now apply list_elem_of_lookup_2 in Ex.
Qed.
