(* ===== verification/SchedBlock.v ===== *)
(** Blocking the current task, and notifying a task. *)
From Stdlib Require Import ZArith Lia Bool.
From stdpp Require Import base decidable list gmap sorting.
From S2P Require Import Prelude Queue Tasks EtharpTable Sched SchedProofs.

(** * Blocking *)

Definition blocked_tasks (s : sched) : list Z := pxDelayedTaskList s ++ pxOverflowDelayedTaskList s ++ xSuspendedTaskList s.

Lemma ready_lookup s x : x ∈ ready_tasks s <-> exists p c, ready s !! p = Some c /\ x ∈ members c.
Proof.
  unfold ready_tasks. rewrite list_elem_of_In, in_concat. split.
  - intros (k & Hk & Hx). apply list_elem_of_In, list_elem_of_fmap in Hk as (c & -> & Hc). apply list_elem_of_lookup in Hc as [p Ep].
    exists p, c. split; [exact Ep | now apply list_elem_of_In].
  - intros (p & c & E & Hx). exists (members c). rewrite <- !list_elem_of_In. split; [| exact Hx].
    apply list_elem_of_fmap. exists c. split; [reflexivity | now apply list_elem_of_lookup_2 in E].
Qed.

(** A ready task is in the list of its priority, which is its container. *)
Lemma ready_own s x t : lists_ok s -> tasks s !! x = Some t -> x ∈ ready_tasks s -> exists c,
  ready s !! Z.to_nat (prio t) = Some c /\ x ∈ members c /\ container x s = members c.
Proof.
  intros H E Hx. apply ready_lookup in Hx as (p & c & Ep & Hx). pose proof (lo_prio s H p c x t Ep Hx E) as Q. rewrite Q, Nat2Z.id.
  exists c. split; [exact Ep |]. split; [exact Hx |]. unfold container.
  assert (Lp : (p < length (members <$> ready s))%nat) by (rewrite length_fmap; exact (lookup_lt_Some _ _ _ Ep)).
  assert (El : ((members <$> ready s) ++ [pxDelayedTaskList s; pxOverflowDelayedTaskList s; xSuspendedTaskList s]) !! p = Some (members c)).
  { rewrite lookup_app_l by exact Lp. now rewrite list_lookup_fmap, Ep. }
  destruct (list_find _ _) as [[i l] |] eqn:F.
  - apply list_find_Some in F as (F1 & F2 & F3). assert (Li : (i <= p)%nat).
    { destruct (Nat.le_gt_cases i p) as [K | K]; [exact K |]. exfalso. exact (F3 p _ El K Hx). }
    rewrite lookup_app_l in F1 by lia. rewrite list_lookup_fmap in F1. destruct (ready s !! i) as [d |] eqn:Ei; [| discriminate].
    injection F1 as <-. pose proof (lo_prio s H i d x t Ei F2 E) as Q'. assert (i = p) as -> by lia. congruence.
  - apply list_find_None in F. rewrite Forall_forall in F. exfalso. apply (F (members c)); [now apply list_elem_of_lookup_2 in El | exact Hx].
Qed.

(** The mask without the priority of a list that has become empty. *)
Definition cleared (x : Z) (t : stcb) (c : cyc) (s : sched) : Z :=
  if bool_decide (without x (members c) = []) then top_ready s .& Z.lnot (bit (prio t)) else top_ready s.

Lemma cleared_top s x t c : lists_ok s -> tasks s !! x = Some t -> ready s !! Z.to_nat (prio t) = Some c -> x ∈ members c ->
  0 <= cleared x t c s /\ forall p, 0 <= p -> Z.testbit (cleared x t c s) p = true <->
    exists d, (cyc_remove x <$> ready s) !! Z.to_nat p = Some d /\ members d <> [].
Proof.
  intros H E Ec Hx. destruct (lo_top s H) as [T1 T2]. pose proof (lo_range s H x t E) as R.
  assert (B : forall p, 0 <= p -> Z.testbit (cleared x t c s) p = Z.testbit (top_ready s) p && negb (bool_decide (without x (members c) = []) && (p =? prio t))).
  { intros p Hp. unfold cleared. destruct (bool_decide _); cbn [andb]; [| now rewrite andb_true_r].
    rewrite Z.land_spec, Z.lnot_spec by exact Hp. f_equal. f_equal. unfold bit. rewrite Z.shiftl_spec by exact Hp.
    destruct (Z.eqb_spec p (prio t)) as [-> | N]; [now rewrite Z.sub_diag |].
    destruct (Z.ltb_spec p (prio t)); [apply Z.testbit_neg_r; lia |]. change 1 with (2 ^ 0). apply Z.pow2_bits_false. lia. }
  split.
  { unfold cleared. destruct (bool_decide _); [| exact T1]. apply Z.land_nonneg. now left. }
  intros p Hp. rewrite B, andb_true_iff, T2 by exact Hp. rewrite list_lookup_fmap.
  assert (M : forall d, ready s !! Z.to_nat p = Some d -> members (cyc_remove x d) = without x (members d)).
  { intros d Ed. apply cyc_remove_members. exact (Forall_lookup_1 _ _ _ _ (lo_cycs s H) Ed). }
  split.
  - intros [(d & Ed & Nd) K]. exists (cyc_remove x d). rewrite Ed. split; [reflexivity |]. rewrite (M d Ed). intros Q.
    destruct (decide (x ∈ members d)) as [Hd | Hd]; [| now rewrite (without_absent x _ Hd) in Q].
    pose proof (lo_prio s H _ d x t Ed Hd E) as Ep. assert (p = prio t) as -> by lia. assert (d = c) as -> by congruence.
    rewrite Z.eqb_refl, bool_decide_eq_true_2 in K by exact Q. discriminate.
  - intros (d' & Ed & Nd). destruct (ready s !! Z.to_nat p) as [d |] eqn:E0; [| discriminate]. injection Ed as <-. rewrite (M d eq_refl) in Nd.
    split; [exists d; split; [reflexivity | intros K; now rewrite K in Nd] |]. apply negb_true_iff, andb_false_iff.
    destruct (Z.eqb_spec p (prio t)) as [-> | N]; [left | now right]. apply bool_decide_eq_false. congruence.
Qed.

(** A task has left its ready list for one of the others. *)
Lemma moved_lists s s' x t c : lists_ok s -> tasks s !! x = Some t -> ready s !! Z.to_nat (prio t) = Some c -> x ∈ members c ->
  (forall y, prio <$> tasks s' !! y = prio <$> tasks s !! y) -> ready s' = cyc_remove x <$> ready s -> top_ready s' = cleared x t c s ->
  (blocked_tasks s' ≡ₚ x :: blocked_tasks s) ->
  lists_ok s' /\ forall y, y ∈ ready_tasks s' <-> y <> x /\ y ∈ ready_tasks s.
Proof.
  intros H E Ec Hx Hp Er Et Eb.
  assert (Rt : ready_tasks s' = without x (ready_tasks s)).
  { unfold ready_tasks. rewrite Er. rewrite <- without_concat. f_equal. rewrite <- !list_fmap_compose. apply list_fmap_ext.
    intros i d Ed. cbn. apply cyc_remove_members. exact (Forall_lookup_1 _ _ _ _ (lo_cycs s H) Ed). }
  assert (Rx : x ∈ ready_tasks s) by (apply ready_lookup; eauto).
  assert (P : places s' ≡ₚ places s).
  { change (places s') with (ready_tasks s' ++ blocked_tasks s'). change (places s) with (ready_tasks s ++ blocked_tasks s).
    rewrite Rt, Eb. transitivity (x :: without x (ready_tasks s) ++ blocked_tasks s); [symmetry; apply Permutation_middle |].
    change (x :: without x (ready_tasks s) ++ blocked_tasks s) with ((x :: without x (ready_tasks s)) ++ blocked_tasks s).
    apply Permutation_app; [| reflexivity]. apply NoDup_Permutation.
    - constructor; [rewrite without_elem; tauto |]. apply NoDup_filter. now apply (NoDup_app (ready_tasks s) (blocked_tasks s)), (lo_nodup s H).
    - now apply (NoDup_app (ready_tasks s) (blocked_tasks s)), (lo_nodup s H).
    - intros y. rewrite elem_of_cons, without_elem. destruct (decide (y = x)) as [-> | N]; tauto. }
  assert (Fl : forall y u, tasks s' !! y = Some u -> exists u0, tasks s !! y = Some u0 /\ prio u = prio u0).
  { intros y u Eu. pose proof (Hp y) as Q. rewrite Eu in Q. destruct (tasks s !! y) as [u0 |]; [| discriminate]. injection Q as ->. eauto. }
  split; [split |].
  - rewrite Er, length_fmap. apply H.
  - rewrite Er. apply Forall_fmap. eapply Forall_impl; [apply H |]. intros d. apply cyc_remove_ok.
  - rewrite P. apply H.
  - intros y. rewrite P, (lo_tasks s H). pose proof (Hp y) as Q. split; intros [u Eu]; rewrite Eu in Q; [destruct (tasks s' !! y) | destruct (tasks s !! y)];
      try discriminate; eauto.
  - intros p d y u Ed Hy Eu. rewrite Er, list_lookup_fmap in Ed. destruct (ready s !! p) as [d0 |] eqn:E0; [| discriminate]. injection Ed as <-.
    rewrite cyc_remove_members, without_elem in Hy by exact (Forall_lookup_1 _ _ _ _ (lo_cycs s H) E0).
    destruct (Fl y u Eu) as (u0 & Eu0 & ->). exact (lo_prio s H p d0 y u0 E0 (proj2 Hy) Eu0).
  - intros y u Eu. destruct (Fl y u Eu) as (u0 & Eu0 & ->). exact (lo_range s H y u0 Eu0).
  - rewrite Er, Et. exact (cleared_top s x t c H E Ec Hx).
  - intros y. now rewrite Rt, without_elem.
Qed.

Lemma insert_sorted_perm v x l : insert_sorted v x l ≡ₚ x :: l.
Proof.
  induction l as [| y l IH]; [reflexivity |]. cbn. destruct (v x <? v y); [reflexivity |]. rewrite IH. apply Permutation_swap.
Qed.

Lemma insert_sorted_sorted m x l : StronglySorted (wakes_before m) l -> StronglySorted (wakes_before m) (insert_sorted (value_of m) x l).
Proof.
  induction 1 as [| y l Hl IH Hy]; cbn; [repeat constructor |]. destruct (Z.ltb_spec (value_of m x) (value_of m y)).
  - constructor; [now constructor |]. constructor; [unfold wakes_before; lia |]. eapply Forall_impl; [exact Hy |]. unfold wakes_before. intros z. lia.
  - constructor; [exact IH |]. rewrite insert_sorted_perm. constructor; [exact H | exact Hy].
Qed.

(** When a call that waits [n] ticks from now is to give up. *)
Definition wake_at (n : Z) (s : sched) : option Z := if n =? portMAX_DELAY then None else Some (abs_tick s + n).

Record blocked (n : Z) (s s' : sched) : Prop := {
  bl_ok : sched_ok s';
  bl_ready : forall y, y ∈ ready_tasks s' <-> y <> current s /\ y ∈ ready_tasks s;
  bl_deadline : forall y, deadline s' y = if decide (y = current s) then wake_at n s else deadline s y;
  bl_tasks : same_tasks s s';
  bl_time : abs_tick s' = abs_tick s;
  bl_pended : xPendedTicks s' = xPendedTicks s;
  bl_suspended : suspended s' = suspended s;
  bl_pending : pending s' = pending s;
  bl_lists : event_lists s' = event_lists s
}.

Lemma nowhere_else s x : lists_ok s -> x ∈ ready_tasks s -> (x ∉ pxDelayedTaskList s) /\ (x ∉ pxOverflowDelayedTaskList s) /\ (x ∉ xSuspendedTaskList s).
Proof.
  intros H Hx. pose proof (lo_nodup s H) as D. apply (NoDup_app (ready_tasks s) (blocked_tasks s)) in D as (_ & D & _).
  specialize (D x Hx). unfold blocked_tasks in D. rewrite !not_elem_of_app in D. exact D.
Qed.

(** The task without a list, as the middle of the function has it. *)
Definition unlisted (x : Z) (t : stcb) (c : cyc) (s : sched) : sched := with_ready (cleared x t c s) (cyc_remove x <$> ready s) s.

Lemma unlisted_run {A} x t c s (k : prog sched A) : lists_ok s -> tasks s !! x = Some t -> ready s !! Z.to_nat (prio t) = Some c -> x ∈ members c ->
  (left <- uxListRemove x ;;
   (if left =? 0 then modify (fun s => with_ready (top_ready s .& Z.lnot (bit (prio t))) (ready s) s) else ret tt) ;; k) s = k (unlisted x t c s).
Proof.
  intros H E Ec Hx. assert (Rx : x ∈ ready_tasks s) by (apply ready_lookup; eauto).
  destruct (ready_own s x t H E Rx) as (c' & Ec' & _ & Ek). assert (c' = c) as -> by congruence.
  destruct (nowhere_else s x H Rx) as (N1 & N2 & N3).
  assert (Er : removed x s = with_ready (top_ready s) (cyc_remove x <$> ready s) s).
  { unfold removed. rewrite !without_absent by assumption. now destruct s. }
  unfold uxListRemove. rewrite (bind_done _ _ (Z.of_nat (length (without x (members c)))) s (removed x s)) by (unfold bind, get, remove_state; cbn; now rewrite Ek).
  rewrite Er. unfold unlisted, cleared. destruct (without x (members c)) as [| y l] eqn:Ew.
  - change (Z.of_nat (length (@nil Z)) =? 0) with true. cbv iota. rewrite bind_modify. now rewrite bool_decide_eq_true_2.
  - replace (Z.of_nat (length (y :: l)) =? 0) with false by (symmetry; apply Z.eqb_neq; cbn; lia).
    rewrite (bind_done (ret tt) _ tt _ _ eq_refl). now rewrite bool_decide_eq_false_2.
Qed.

Lemma value_of_set m x w y : is_Some (m !! x) -> value_of (alter (set_value w) x m) y = if decide (y = x) then w else value_of m y.
Proof.
  intros [t E]. unfold value_of. rewrite lookup_alter. destruct (decide (x = y)) as [<- | N].
  - now rewrite E, decide_True.
  - now rewrite decide_False by congruence.
Qed.

(** What blocking leaves alone. *)
Lemma set_value_same x w (s s' : sched) : tasks s' = alter (set_value w) x (tasks s) -> current s' = current s -> same_tasks s s'.
Proof.
  intros E Ec. split; [exact Ec | | | | intros y l Q; revert Q; unfold event_of]; try intros y; rewrite E, lookup_alter;
    destruct (decide (x = y)) as [-> |]; try reflexivity; try exact (fun Q => Q); now destruct (tasks s !! y).
Qed.

Lemma set_value_events x w (s s' : sched) : tasks s' = alter (set_value w) x (tasks s) -> pending s' = pending s -> event_lists s' = event_lists s ->
  events_ok s -> events_ok s'.
Proof.
  intros E Ep El [H1 H2 H3 H4].
  assert (Q : forall y, event_of s' y = event_of s y).
  { intros y. unfold event_of. rewrite E, lookup_alter. destruct (decide (x = y)) as [-> |]; [| reflexivity]. now destruct (tasks s !! y). }
  assert (F : forall P l, Forall (fun y => event_of s y = P) l -> Forall (fun y => event_of s' y = P) l).
  { intros P l F. eapply Forall_impl; [exact F |]. cbv beta. intros y. now rewrite Q. }
  split.
  - intros l L Ee. rewrite El in Ee. destruct (H1 l L Ee). auto.
  - rewrite Ep. destruct H2. auto.
  - intros y u Eu. rewrite E, lookup_alter in Eu. destruct (decide (x = y)) as [<- |]; [| eauto].
    destruct (tasks s !! x) as [u0 |] eqn:E0; [| discriminate]. injection Eu as <-. exact (H3 x u0 E0).
  - intros y Ey. rewrite Ep. rewrite Q in Ey. auto.
Qed.

(** [listSET_LIST_ITEM_VALUE], and the item in the list it belongs to. *)
Definition delayed (x w : Z) (s : sched) : sched :=
  let m := alter (set_value w) x (tasks s) in
  let s := with_tasks m s in
  if w <? tick s then
    with_blocked (pxDelayedTaskList s) (insert_sorted (value_of m) x (pxOverflowDelayedTaskList s)) (xSuspendedTaskList s) s
  else
    with_time (tick s) (xPendedTicks s) (xNumOfOverflows s) (if w <? next_unblock s then w else next_unblock s)
      (with_blocked (insert_sorted (value_of m) x (pxDelayedTaskList s)) (pxOverflowDelayedTaskList s) (xSuspendedTaskList s) s).

Lemma delayed_blocked_tasks x w s : blocked_tasks (delayed x w s) ≡ₚ x :: blocked_tasks s.
Proof.
  unfold delayed, blocked_tasks. cbn. destruct (w <? tick s); cbn; rewrite insert_sorted_perm; [symmetry; apply Permutation_middle | reflexivity].
Qed.

Lemma sorted_values m m' l : Forall (fun y => value_of m' y = value_of m y) l -> StronglySorted (wakes_before m) l -> StronglySorted (wakes_before m') l.
Proof.
  intros F S. induction S as [| y l Hl IH Hy]; [constructor |]. apply Forall_cons in F as [Fy F]. constructor; [now apply IH |].
  rewrite Forall_forall in *. unfold wakes_before in *. intros z Hz. rewrite Fy, (F z Hz). now apply Hy.
Qed.

Lemma values_forall (P : Z -> Prop) m m' l : Forall (fun y => value_of m' y = value_of m y) l ->
  Forall (fun y => P (value_of m y)) l -> Forall (fun y => P (value_of m' y)) l.
Proof. intros F G. rewrite Forall_forall in *. intros y Hy. rewrite (F y Hy). now apply G. Qed.

Lemma u32_later a n : 0 <= a <= portMAX_DELAY -> 0 < n < portMAX_DELAY ->
  u32 (a + n) = if a + n <=? portMAX_DELAY then a + n else a + n - period.
Proof.
  intros Ha Hn. unfold portMAX_DELAY, period, u32 in *. destruct (Z.leb_spec (a + n) 4294967295); [now apply Z.mod_small; lia |].
  symmetry. apply (Z.mod_unique_pos _ _ 1); lia.
Qed.

Lemma delayed_time x n s : is_Some (tasks s !! x) -> (x ∉ pxDelayedTaskList s) -> (x ∉ pxOverflowDelayedTaskList s) -> 0 < n < portMAX_DELAY ->
  time_ok (tick s) s -> time_ok (tick s) (delayed x (u32 (tick s + n)) s).
Proof.
  intros Hx N1 N2 Hn [T1 T2 T3 T4 T5 [T6 T7]]. set (w := u32 (tick s + n)). set (m := alter (set_value w) x (tasks s)).
  assert (Vx : value_of m x = w) by (unfold m; rewrite value_of_set by exact Hx; now rewrite decide_True).
  assert (Q : forall l, x ∉ l -> Forall (fun y => value_of m y = value_of (tasks s) y) l).
  { intros l Nl. apply Forall_forall. intros y Hy. unfold m. rewrite value_of_set by exact Hx. rewrite decide_False; [reflexivity | intros ->; auto]. }
  pose proof (Q _ N1) as Q1. pose proof (Q _ N2) as Q2.
  assert (Hu : w = if tick s + n <=? portMAX_DELAY then tick s + n else tick s + n - period) by (apply u32_later; lia).
  assert (Hw : 0 <= w <= portMAX_DELAY) by (unfold period, portMAX_DELAY in *; destruct (Z.leb_spec (tick s + n) 4294967295); lia).
  pose proof (sorted_values _ _ _ Q1 T1) as S1. pose proof (sorted_values _ _ _ Q2 T2) as S2.
  pose proof (values_forall (fun v => tick s < v <= portMAX_DELAY) _ _ _ Q1 T3) as S3.
  pose proof (values_forall (fun v => 0 <= v < tick s) _ _ _ Q2 T4) as S4.
  pose proof (values_forall (fun v => next_unblock s <= v) _ _ _ Q1 T7) as S7.
  unfold delayed. fold m. cbn [tick with_tasks]. destruct (Z.ltb_spec w (tick s)) as [Lt | Ge]; split; cbn; auto.
  - now apply insert_sorted_sorted.
  - rewrite insert_sorted_perm. constructor; [rewrite Vx; lia | exact S4].
  - now apply insert_sorted_sorted.
  - rewrite insert_sorted_perm. constructor; [| exact S3]. rewrite Vx. split; [| lia].
    unfold period, portMAX_DELAY in *. destruct (Z.leb_spec (tick s + n) 4294967295); lia.
  - split; [destruct (w <? next_unblock s); lia |]. rewrite insert_sorted_perm. destruct (Z.ltb_spec w (next_unblock s)); constructor; try (rewrite Vx; lia).
    + eapply Forall_impl; [exact S7 |]. cbv beta. intros y. lia.
    + exact S7.
Qed.

Lemma delayed_deadline x n s y : is_Some (tasks s !! x) -> (x ∉ pxDelayedTaskList s) -> (x ∉ pxOverflowDelayedTaskList s) -> 0 < n < portMAX_DELAY ->
  0 <= tick s <= portMAX_DELAY ->
  deadline (delayed x (u32 (tick s + n)) s) y = if decide (y = x) then Some (abs_tick s + n) else deadline s y.
Proof.
  intros Hx N1 N2 Hn Ht. set (w := u32 (tick s + n)). set (m := alter (set_value w) x (tasks s)).
  assert (V : forall z, value_of m z = if decide (z = x) then w else value_of (tasks s) z) by (intros z; now apply value_of_set).
  assert (Hu : w = if tick s + n <=? portMAX_DELAY then tick s + n else tick s + n - period) by (now apply u32_later).
  unfold deadline, abs_tick, delayed. fold m. cbn [tick with_tasks].
  destruct (Z.ltb_spec w (tick s)) as [Lt | Ge]; cbn; rewrite V; destruct (decide (y = x)) as [-> | N].
  - rewrite (decide_False (P := x ∈ pxDelayedTaskList s)) by exact N1. rewrite decide_True by (rewrite insert_sorted_perm; left).
    f_equal. unfold period, portMAX_DELAY in *. destruct (Z.leb_spec (tick s + n) 4294967295); lia.
  - rewrite (decide_ext (y ∈ insert_sorted _ _ _) (y ∈ pxOverflowDelayedTaskList s)) by (rewrite insert_sorted_perm, elem_of_cons; tauto). reflexivity.
  - rewrite decide_True by (rewrite insert_sorted_perm; left). f_equal. unfold period, portMAX_DELAY in *.
    destruct (Z.leb_spec (tick s + n) 4294967295); lia.
  - rewrite (decide_ext (y ∈ insert_sorted _ _ _) (y ∈ pxDelayedTaskList s)) by (rewrite insert_sorted_perm, elem_of_cons; tauto). reflexivity.
Qed.

Lemma delayed_run x w s : (update x (set_value w) ;;
   if w <? tick s then
      modify (fun s => with_blocked (pxDelayedTaskList s) (insert_sorted (value_of (tasks s)) x (pxOverflowDelayedTaskList s))
        (xSuspendedTaskList s) s)
    else
      modify (fun s => with_blocked (insert_sorted (value_of (tasks s)) x (pxDelayedTaskList s)) (pxOverflowDelayedTaskList s)
        (xSuspendedTaskList s) s) ;;
      modify (fun s => with_time (tick s) (xPendedTicks s) (xNumOfOverflows s)
        (if w <? next_unblock s then w else next_unblock s) s)) s = Done tt (delayed x w s).
Proof. unfold delayed, update. rewrite bind_modify. cbn [tick with_tasks]. now destruct (w <? tick s). Qed.

(** The last part of the function: the task is not ready, and waits with its deadline. *)
Lemma unlisted_blocked n x t c s s' : sched_ok s -> 0 < n <= portMAX_DELAY -> current s = x ->
  tasks s !! x = Some t -> ready s !! Z.to_nat (prio t) = Some c -> x ∈ members c ->
  s' = (if n =? portMAX_DELAY then with_blocked (pxDelayedTaskList s) (pxOverflowDelayedTaskList s) (xSuspendedTaskList s ++ [x]) (unlisted x t c s)
        else delayed x (u32 (tick s + n)) (unlisted x t c s)) -> blocked n s s'.
Proof.
  intros [H T Ev Hc Hp Hpe] Hn Ex E Ec Hx Es. assert (Rx : x ∈ ready_tasks s) by (apply ready_lookup; eauto).
  destruct (nowhere_else s x H Rx) as (N1 & N2 & N3). pose proof (to_tick _ _ T) as Ht.
  set (s1 := unlisted x t c s) in *. assert (T1 : time_ok (tick s1) s1) by (destruct T; now split).
  assert (Hs : is_Some (tasks s1 !! x)) by (change (tasks s1) with (tasks s); eauto).
  assert (Fx : exists w, tasks s' = alter (set_value w) x (tasks s) \/ tasks s' = tasks s).
  { rewrite Es. destruct (n =? portMAX_DELAY); [now exists 0; right |]. exists (u32 (tick s + n)). left. unfold delayed. cbn [tick with_tasks]. now destruct (_ <? _). }
  assert (K : (blocked_tasks s' ≡ₚ x :: blocked_tasks s) /\ ready s' = ready s1 /\ top_ready s' = top_ready s1 /\ time_ok (tick s) s' /\
    (forall y, deadline s' y = if decide (y = x) then wake_at n s else deadline s y) /\ tick s' = tick s /\ xNumOfOverflows s' = xNumOfOverflows s /\
    xPendedTicks s' = xPendedTicks s /\ suspended s' = suspended s /\ pending s' = pending s /\ event_lists s' = event_lists s /\ current s' = current s).
  { rewrite Es. unfold wake_at. destruct (Z.eqb_spec n portMAX_DELAY) as [-> | Nn].
    - split; [unfold blocked_tasks; cbn; rewrite Permutation_middle; rewrite (Permutation_app_comm _ [x]); symmetry; rewrite !(Permutation_middle _ _ x); reflexivity |].
      do 2 (split; [reflexivity |]). split; [destruct T; now split |]. split; [| now repeat split].
      intros y. destruct (decide (y = x)) as [-> |]; [| reflexivity]. unfold deadline. cbn. now rewrite !decide_False by assumption.
    - split; [exact (delayed_blocked_tasks x _ s1) |].
      pose proof (fun y => delayed_deadline x n s1 y Hs N1 N2 ltac:(lia) Ht) as D. change (abs_tick s1) with (abs_tick s) in D.
      pose proof (delayed_time x n s1 Hs N1 N2 ltac:(lia) T1) as Q.
      change (tick s1) with (tick s) in *. split; [unfold delayed; cbn [tick with_tasks]; now destruct (_ <? _) |].
      split; [unfold delayed; cbn [tick with_tasks]; now destruct (_ <? _) |]. split; [exact Q |]. split; [exact D |].
      unfold delayed. cbn [tick with_tasks]. destruct (_ <? _); now repeat split. }
  destruct K as (K1 & K2 & K3 & K4 & K5 & K6 & K7 & K8 & K9 & K10 & K11 & K12).
  assert (Sm : same_tasks s s').
  { destruct Fx as (w & [F | F]); [now apply (set_value_same x w) |]. split; [exact K12 | | | | unfold event_of; intros y l]; try intros y; unfold event_of; now rewrite F. }
  destruct (moved_lists s s' x t c H E Ec Hx (st_prio _ _ Sm) K2 K3 K1) as [L R].
  split.
  - split.
    + exact L.
    + now rewrite K6.
    + destruct Fx as (w & [F | F]); [now apply (set_value_events x w s) |]. destruct Ev as [E1 E2 E3 E4]. split.
      * rewrite K11. intros l L0 El. destruct (E1 l L0 El) as [? Fo]. split; [assumption |]. eapply Forall_impl; [exact Fo |].
        unfold event_of. now rewrite F.
      * rewrite K10. destruct E2 as [? Fo]. split; [assumption |]. eapply Forall_impl; [exact Fo |]. unfold event_of. now rewrite F.
      * now rewrite F.
      * rewrite K10. intros y Ey. apply E4. unfold event_of in *. now rewrite F in Ey.
    + pose proof (st_prio _ _ Sm (current s')) as Q. rewrite K12 in *. destruct Hc as [u Eu]. rewrite Eu in Q. destruct (tasks s' !! current s); [eauto | discriminate].
    + rewrite K9, K10. exact Hp.
    + now rewrite K8.
  - rewrite Ex. exact R.
  - rewrite Ex. exact K5.
  - exact Sm.
  - unfold abs_tick. now rewrite K6, K7.
  - exact K8.
  - exact K9.
  - exact K10.
  - exact K11.
Qed.

Lemma block_spec n s : sched_ok s -> 0 < n <= portMAX_DELAY -> current s ∈ ready_tasks s ->
  exists s', prvAddCurrentTaskToDelayedList n true s = Done tt s' /\ blocked n s s'.
Proof.
  intros H Hn Rx. destruct (so_current s H) as [t E]. destruct (ready_own s _ t (so_lists s H) E Rx) as (c & Ec & Hx & _).
  eexists. split; [| exact (unlisted_blocked n _ t c s _ H Hn eq_refl E Ec Hx eq_refl)].
  unfold prvAddCurrentTaskToDelayedList. unfold bind at 1, get at 1. cbv zeta. unfold bind at 1, load at 1. rewrite E.
  rewrite (unlisted_run (current s) t c s _ (so_lists s H) E Ec Hx). rewrite andb_true_r. destruct (n =? portMAX_DELAY); [reflexivity |].
  apply (delayed_run (current s) (u32 (tick s + n)) (unlisted (current s) t c s)).
Qed.
