(* ===== verification/SchedGive.v ===== *)
(** Giving a notification, and making a task that waits for an event ready. *)
From Stdlib Require Import ZArith Lia Bool.
From stdpp Require Import base decidable list gmap sorting.
From S2P Require Import Prelude Queue Tasks EtharpTable Sched SchedProofs.

Lemma wake_ok x s : sched_ok s -> is_Some (tasks s !! x) -> sched_ok (wake x s).
Proof.
  intros [H T Ev Hc Hp Hpe] Hx. pose proof (wake_frame x s) as F. split.
  - now apply wake_lists.
  - rewrite (sf_tick _ _ F). now apply wake_time.
  - now apply wake_events.
  - rewrite (sf_current _ _ F). now apply (frame_some _ _ _ F).
  - rewrite (sf_suspended _ _ F). intros K. apply wake_pending. auto.
  - now rewrite (sf_pended _ _ F).
Qed.

(** A task kept back until the scheduler is resumed. *)
Definition kept_back (x : Z) (s : sched) : sched :=
  upd x (set_event InPendingReady) (with_events (pending s ++ [x]) (event_lists s) s).

Lemma event_outside s x : events_ok s -> event_of s x = Some NoList -> (x ∉ pending s) /\ forall l L, event_lists s !! l = Some L -> x ∉ L.
Proof.
  intros [H1 [_ H2] _] E. split.
  - intros K. rewrite Forall_forall in H2. specialize (H2 x K). congruence.
  - intros l L El K. destruct (H1 l L El) as [_ F]. rewrite Forall_forall in F. specialize (F x K). congruence.
Qed.

Lemma kept_back_ok x s t : sched_ok s -> suspended s <> 0 -> tasks s !! x = Some t -> event t = NoList -> notify_state t <> taskWAITING_NOTIFICATION ->
  sched_ok (kept_back x s).
Proof.
  intros [H T Ev Hc Hp Hpe] Hs E En Hn.
  assert (Ex : event_of s x = Some NoList) by (unfold event_of; rewrite E; cbn; congruence).
  destruct (event_outside s x Ev Ex) as [P1 P2].
  assert (Q : forall y, y <> x -> event_of (kept_back x s) y = event_of s y).
  { intros y N. unfold kept_back. rewrite event_of_upd. now rewrite decide_False by congruence. }
  split.
  - apply upd_lists; [reflexivity |]. destruct H; now split.
  - apply upd_time; [reflexivity |]. destruct T; now split.
  - destruct Ev as [E1 [E2 E2'] E3 E4]. split.
    + intros l L El. destruct (E1 l L El) as [D F]. split; [exact D |]. apply (events_except s _ x Q); [exact (P2 l L El) | exact F].
    + change (pending (kept_back x s)) with (pending s ++ [x]). split; [apply NoDup_app; split; [exact E2 | split; [| apply NoDup_singleton]] |].
      * intros y Hy K. apply list_elem_of_singleton in K as ->. auto.
      * rewrite Forall_app. split; [now apply (events_except s _ x Q) |]. constructor; [| constructor].
        unfold kept_back. rewrite event_of_upd, decide_True by reflexivity. cbn. now rewrite E.
    + intros y u Eu Hw. unfold kept_back in Eu. rewrite upd_lookup in Eu. cbn [tasks with_events] in Eu. destruct (decide (x = y)) as [<- | N]; [| eauto].
      rewrite E in Eu. injection Eu as <-. now destruct Hn.
    + intros y Ey. change (y ∈ pending s ++ [x]). apply elem_of_app. destruct (decide (y = x)) as [-> | N]; [right; left |].
      left. apply E4. now rewrite <- (Q y N).
  - change (current (kept_back x s)) with (current s). unfold kept_back. rewrite upd_lookup. destruct (decide _); [| exact Hc]. now rewrite fmap_is_Some.
  - intros K. now destruct Hs.
  - exact Hpe.
Qed.

(** Whether the request to switch is recorded does not matter to the rest. *)
Lemma asked_ok s y : sched_ok s -> sched_ok (with_current (current s) y s).
Proof. intros [H T Ev Hc Hp Hpe]. split; [destruct H; now split | destruct T; now split | destruct Ev; now split | exact Hc | exact Hp | exact Hpe]. Qed.

Lemma ask_run s x : is_Some (tasks s !! x) -> is_Some (tasks s !! current s) -> exists r y, ask_for_switch x s = Done r (with_current (current s) y s).
Proof.
  intros [t Et] [c Ec]. unfold ask_for_switch. unfold bind at 1, load at 1. rewrite Et. unfold bind at 1, get at 1. unfold bind at 1, load at 1. rewrite Ec.
  destruct (prio c <? prio t); [now exists pdTRUE, pdTRUE |]. exists pdFALSE, (yield_pending s). now destruct s.
Qed.

(** ** Giving a notification *)

Definition state_of (s : sched) (x : Z) : option Z := notify_state <$> tasks s !! x.
Definition count_of (s : sched) (x : Z) : option Z := notified <$> tasks s !! x.

Definition waiting (s : sched) (x : Z) : Prop := state_of s x = Some taskWAITING_NOTIFICATION.

#[export] Instance waiting_dec s x : Decision (waiting s x).
Proof. unfold waiting. apply _. Defined.

(** The task has its notification; if it waits for that it is ready, or will be when the scheduler is resumed. *)
Record given (x : Z) (s s' : sched) : Prop := {
  gv_ok : sched_ok s';
  gv_ready : forall y, y ∈ ready_tasks s' <-> y ∈ ready_tasks s \/ (y = x /\ waiting s x /\ suspended s = 0);
  gv_pending : forall y, y ∈ pending s' <-> y ∈ pending s \/ (y = x /\ waiting s x /\ suspended s <> 0);
  gv_deadline : forall y, deadline s' y = if decide (y = x /\ waiting s x /\ suspended s = 0) then None else deadline s y;
  gv_state : forall y, state_of s' y = if decide (y = x) then Some taskNOTIFICATION_RECEIVED else state_of s y;
  gv_count : forall y, count_of s' y = if decide (y = x) then (fun n => u32 (n + 1)) <$> count_of s y else count_of s y;
  gv_current : current s' = current s;
  gv_suspended : suspended s' = suspended s;
  gv_time : abs_tick s' = abs_tick s;
  gv_pended : xPendedTicks s' = xPendedTicks s;
  gv_prio : forall y, prio <$> tasks s' !! y = prio <$> tasks s !! y;
  gv_events : no_new_events s s'
}.

Definition notify (x : Z) (t : stcb) (s : sched) : sched := upd x (set_notify (u32 (notified t + 1)) taskNOTIFICATION_RECEIVED) s.

(** What changing the notification of a task does. *)
Lemma set_notify_ok x n st t s : sched_ok s -> tasks s !! x = Some t -> (st = taskWAITING_NOTIFICATION -> event t = NoList /\ n = 0) ->
  sched_ok (upd x (set_notify n st) s).
Proof.
  intros [H T Ev Hc Hp Hpe] E Hw. set (s' := upd x _ s).
  assert (Q : forall y, event_of s' y = event_of s y).
  { intros y. unfold s'. rewrite event_of_upd. destruct (decide (x = y)) as [<- |]; [| reflexivity]. unfold event_of. now destruct (tasks s !! x). }
  assert (F : forall P l, Forall (fun y => event_of s y = P) l -> Forall (fun y => event_of s' y = P) l).
  { intros P l F. eapply Forall_impl; [exact F |]. cbv beta. intros y. now rewrite Q. }
  split.
  - now apply upd_lists.
  - now apply upd_time.
  - destruct Ev as [E1 [E2 E2'] E3 E4]. split.
    + intros l L El. destruct (E1 l L El). auto.
    + split; [exact E2 | now apply F].
    + intros y u Eu Hu. unfold s' in Eu. rewrite upd_lookup in Eu. destruct (decide (x = y)) as [<- | N]; [| eauto].
      rewrite E in Eu. injection Eu as <-. exact (Hw Hu).
    + intros y Ey. rewrite Q in Ey. exact (E4 y Ey).
  - unfold s'. rewrite upd_lookup. destruct (decide _); [| exact Hc]. now rewrite fmap_is_Some.
  - exact Hp.
  - exact Hpe.
Qed.

Lemma set_notify_state x n st s y : is_Some (tasks s !! x) -> state_of (upd x (set_notify n st) s) y = if decide (y = x) then Some st else state_of s y.
Proof.
  intros [t E]. unfold state_of. rewrite upd_lookup. destruct (decide (x = y)) as [<- | N]; [now rewrite E, decide_True |].
  now rewrite decide_False by congruence.
Qed.

Lemma set_notify_count x n st s y : is_Some (tasks s !! x) -> count_of (upd x (set_notify n st) s) y = if decide (y = x) then Some n else count_of s y.
Proof.
  intros [t E]. unfold count_of. rewrite upd_lookup. destruct (decide (x = y)) as [<- | N]; [now rewrite E, decide_True |].
  now rewrite decide_False by congruence.
Qed.

Lemma set_notify_deadline x n st s y : deadline (upd x (set_notify n st) s) y = deadline s y.
Proof. unfold deadline. rewrite value_of_upd by reflexivity. reflexivity. Qed.

Lemma set_notify_no_new x n st s : no_new_events s (upd x (set_notify n st) s).
Proof.
  intros y l. rewrite event_of_upd. destruct (decide (x = y)) as [<- |]; [| easy]. unfold event_of. now destruct (tasks s !! x).
Qed.

Lemma notify_ok x t s : sched_ok s -> tasks s !! x = Some t -> sched_ok (notify x t s).
Proof. intros H E. apply (set_notify_ok x _ _ t); [exact H | exact E | discriminate]. Qed.

Lemma notify_state_of x t s y : tasks s !! x = Some t ->
  state_of (notify x t s) y = if decide (y = x) then Some taskNOTIFICATION_RECEIVED else state_of s y.
Proof. intros E. apply set_notify_state. eauto. Qed.

Lemma notify_count_of x t s y : tasks s !! x = Some t ->
  count_of (notify x t s) y = if decide (y = x) then (fun n => u32 (n + 1)) <$> count_of s y else count_of s y.
Proof.
  intros E. unfold notify. rewrite set_notify_count by eauto. destruct (decide (y = x)) as [-> |]; [| reflexivity]. unfold count_of. now rewrite E.
Qed.

Lemma notify_deadline x t s y : deadline (notify x t s) y = deadline s y.
Proof. apply set_notify_deadline. Qed.

Lemma notify_prio x t s y : prio <$> tasks (notify x t s) !! y = prio <$> tasks s !! y.
Proof. unfold notify. now rewrite (upd_field prio). Qed.

Lemma make_ready_run x t s : tasks s !! x = Some t -> event t = NoList ->
  make_ready x s = Done tt (if suspended s =? 0 then wake x s else kept_back x s).
Proof.
  intros E En. unfold make_ready. unfold bind at 1, get at 1. destruct (suspended s =? 0); [| reflexivity].
  rewrite (bind_done _ _ _ _ _ (remove_state_run x s)). rewrite (add_ready_run x t (removed x s) E).
  unfold wake, unevent, event_of, prio_of. rewrite E. cbn. now rewrite En.
Qed.

Lemma give_run x s t : sched_ok s -> x <> 0 -> tasks s !! x = Some t -> exists y,
  vTaskGenericNotifyGiveFromISR x 0 s = Done tt (
    if decide (notify_state t = taskWAITING_NOTIFICATION) then
      with_current (current s) y (if suspended s =? 0 then wake x (notify x t s) else kept_back x (notify x t s))
    else notify x t s).
Proof.
  intros H Nx E. unfold vTaskGenericNotifyGiveFromISR. rewrite (proj2 (Z.eqb_neq x 0)) by exact Nx.
  rewrite (bind_done (configASSERT (negb false)) _ tt s s eq_refl). rewrite (bind_done (configASSERT (0 <? configTASK_NOTIFICATION_ARRAY_ENTRIES)) _ tt s s eq_refl).
  unfold bind at 1, load at 1. rewrite E. unfold update at 1. rewrite bind_modify. fold (notify x t s). change (with_tasks _ s) with (notify x t s).
  destruct (decide (notify_state t = taskWAITING_NOTIFICATION)) as [W | W]; [| exists 0; now rewrite (proj2 (Z.eqb_neq _ _)) by exact W].
  rewrite W, Z.eqb_refl. destruct (eo_waiting s (so_events s H) x t E W) as [En _]. rewrite En, bool_decide_eq_true_2 by reflexivity.
  rewrite (bind_done (configASSERT true) _ tt _ _ eq_refl).
  assert (E1 : tasks (notify x t s) !! x = Some (set_notify (u32 (notified t + 1)) taskNOTIFICATION_RECEIVED t)).
  { unfold notify. rewrite upd_lookup, decide_True by reflexivity. now rewrite E. }
  rewrite (bind_done _ _ _ _ _ (make_ready_run x _ _ E1 En)). change (suspended (notify x t s)) with (suspended s).
  pose proof (notify_ok x t s H E) as O1. pose proof (so_current _ O1) as Hc.
  set (s2 := if suspended s =? 0 then _ else _).
  assert (Q : forall z, is_Some (tasks (notify x t s) !! z) -> is_Some (tasks s2 !! z)).
  { intros z Hz. unfold s2. destruct (suspended s =? 0); [now apply (frame_some _ _ z (wake_frame x _)) |].
    unfold kept_back. rewrite upd_lookup. destruct (decide _); [now rewrite fmap_is_Some | exact Hz]. }
  assert (Ec : current s2 = current s).
  { unfold s2. destruct (suspended s =? 0); [exact (sf_current _ _ (wake_frame x _)) | reflexivity]. }
  destruct (ask_run s2 x) as (r & y & Ea); [apply Q; eauto | rewrite Ec; now apply Q |].
  exists y. rewrite (bind_done _ _ _ _ _ Ea). now rewrite Ec.
Qed.

Lemma kept_back_task x s y : state_of (kept_back x s) y = state_of s y /\ count_of (kept_back x s) y = count_of s y /\
  prio <$> tasks (kept_back x s) !! y = prio <$> tasks s !! y /\ deadline (kept_back x s) y = deadline s y.
Proof.
  unfold state_of, count_of, kept_back. split; [now rewrite (upd_field notify_state) |]. split; [now rewrite (upd_field notified) |].
  split; [now rewrite (upd_field prio) |]. unfold deadline. rewrite value_of_upd by reflexivity. reflexivity.
Qed.

(** The request to switch changes nothing of that. *)
Lemma given_asked x q s s' : given x s s' -> given x s (with_current (current s) q s').
Proof. intros [O R P D St Ct Cu Su T Pe Pr Ne]. split; auto. rewrite <- Cu. now apply asked_ok. Qed.

Lemma notify_no_new x t s : no_new_events s (notify x t s).
Proof. apply set_notify_no_new. Qed.

Lemma kept_back_no_new x s : no_new_events s (kept_back x s).
Proof.
  intros y l. unfold kept_back. rewrite event_of_upd. destruct (decide (x = y)) as [<- |]; [| easy]. cbn. now destruct (tasks s !! x).
Qed.

Section Give.
Context (x : Z) (s : sched) (t : stcb) (H : sched_ok s) (E : tasks s !! x = Some t).

#[local] Lemma waiting_iff : waiting s x <-> notify_state t = taskWAITING_NOTIFICATION.
Proof. unfold waiting, state_of. rewrite E. cbn. split; [now intros [= ->] | now intros ->]. Qed.

#[local] Lemma notified_task : tasks (notify x t s) !! x = Some (set_notify (u32 (notified t + 1)) taskNOTIFICATION_RECEIVED t).
Proof. unfold notify. rewrite upd_lookup, decide_True by reflexivity. now rewrite E. Qed.

(** The task was not waiting for a notification. *)
Lemma given_counted : notify_state t <> taskWAITING_NOTIFICATION -> given x s (notify x t s).
Proof.
  intros W. rewrite <- waiting_iff in W. split; try reflexivity.
  - now apply notify_ok.
  - intros y. change (ready_tasks (notify x t s)) with (ready_tasks s). tauto.
  - intros y. change (pending (notify x t s)) with (pending s). tauto.
  - intros y. rewrite decide_False by tauto. apply notify_deadline.
  - intros y. now apply notify_state_of.
  - intros y. now apply notify_count_of.
  - intros y. apply notify_prio.
  - exact (notify_no_new x t s).
Qed.

(** It was, and is ready now. *)
Lemma given_woken : notify_state t = taskWAITING_NOTIFICATION -> suspended s = 0 -> given x s (wake x (notify x t s)).
Proof.
  intros W S0. apply waiting_iff in W. pose proof (notify_ok x t s H E) as O1. pose proof (wake_frame x (notify x t s)) as F.
  pose proof (ex_intro _ _ notified_task : is_Some (tasks (notify x t s) !! x)) as E1.
  split.
  - now apply wake_ok.
  - intros y. rewrite (wake_ready x _ E1 (so_lists _ O1)), elem_of_cons, without_elem. change (ready_tasks (notify x t s)) with (ready_tasks s).
    destruct (decide (y = x)) as [-> |]; tauto.
  - intros y. rewrite wake_pending, (so_running s H S0) by exact (so_running s H S0). split; [intros K; inversion K | intros [K | K]; [inversion K | tauto]].
  - intros y. rewrite deadline_woken, notify_deadline. apply decide_ext. tauto.
  - intros y. exact (eq_trans (sf_state _ _ F y) (notify_state_of x t s y E)).
  - intros y. exact (eq_trans (sf_notified _ _ F y) (notify_count_of x t s y E)).
  - exact (sf_current _ _ F).
  - exact (sf_suspended _ _ F).
  - unfold abs_tick. now rewrite (sf_tick _ _ F), (sf_overflows _ _ F).
  - exact (sf_pended _ _ F).
  - intros y. exact (eq_trans (sf_prio _ _ F y) (notify_prio x t s y)).
  - transitivity (notify x t s); [apply notify_no_new | exact (sf_events _ _ F)].
Qed.

(** It was, and the scheduler is suspended. *)
Lemma given_kept : notify_state t = taskWAITING_NOTIFICATION -> suspended s <> 0 -> given x s (kept_back x (notify x t s)).
Proof.
  intros W S0. pose proof (notify_ok x t s H E) as O1. pose proof (kept_back_task x (notify x t s)) as F.
  assert (En : event t = NoList) by exact (proj1 (eo_waiting s (so_events s H) x t E W)). apply waiting_iff in W.
  split; try reflexivity.
  - exact (kept_back_ok x _ _ O1 S0 notified_task En ltac:(discriminate)).
  - intros y. change (y ∈ ready_tasks s <-> y ∈ ready_tasks s \/ (y = x /\ waiting s x /\ suspended s = 0)). tauto.
  - intros y. change (y ∈ pending s ++ [x] <-> y ∈ pending s \/ (y = x /\ waiting s x /\ suspended s <> 0)).
    rewrite elem_of_app, list_elem_of_singleton. tauto.
  - intros y. rewrite decide_False by tauto. exact (eq_trans (proj2 (proj2 (proj2 (F y)))) (notify_deadline x t s y)).
  - intros y. exact (eq_trans (proj1 (F y)) (notify_state_of x t s y E)).
  - intros y. exact (eq_trans (proj1 (proj2 (F y))) (notify_count_of x t s y E)).
  - intros y. exact (eq_trans (proj1 (proj2 (proj2 (F y)))) (notify_prio x t s y)).
  - transitivity (notify x t s); [apply notify_no_new | apply kept_back_no_new].
Qed.
End Give.

Lemma give_spec x s : sched_ok s -> x <> 0 -> is_Some (tasks s !! x) -> exists s', vTaskGenericNotifyGiveFromISR x 0 s = Done tt s' /\ given x s s'.
Proof.
  intros H Nx [t E]. destruct (give_run x s t H Nx E) as (q & Eq). eexists. split; [exact Eq |].
  destruct (decide _) as [W | W]; [apply given_asked | now apply given_counted].
  destruct (Z.eqb_spec (suspended s) 0); [now apply given_woken | now apply given_kept].
Qed.
