(* ===== verification/SchedEvents.v ===== *)
(** Waiting for an event: the lists of waiting tasks. *)
From Stdlib Require Import ZArith Lia Bool.
From stdpp Require Import base decidable list gmap sorting.
From S2P Require Import Prelude Queue Tasks EtharpTable Sched SchedProofs SchedBlock SchedGive.

(** The waiting tasks of a list. *)
Definition waiters (s : sched) (l : Z) : list Z := default [] (event_lists s !! l).

(** The current task in the list. *)
Definition listed (l : Z) (s : sched) : sched :=
  upd (current s) (set_event (InEventList l))
    (with_events (pending s) (<[l := insert_sorted (event_value (tasks s)) (current s) (waiters s l)]> (event_lists s)) s).

Lemma listed_ok l s : sched_ok s -> event_of s (current s) = Some NoList -> ~ waiting s (current s) -> sched_ok (listed l s).
Proof.
  intros [H T Ev Hc Hp Hpe] En Nw. destruct (event_outside s _ Ev En) as [P1 P2]. destruct Ev as [E1 [E2 E2'] E3 E4].
  set (x := current s) in *.
  assert (Q : forall y, y <> x -> event_of (listed l s) y = event_of s y).
  { intros y N. unfold listed. rewrite event_of_upd. now rewrite decide_False by (unfold x in *; congruence). }
  assert (Qx : event_of (listed l s) x = Some (InEventList l)).
  { unfold listed. rewrite event_of_upd, decide_True by reflexivity. cbn. destruct Hc as [t Et]. unfold x in Et. now rewrite Et. }
  assert (Fx : forall P L, x ∉ L -> Forall (fun y => event_of s y = P) L -> Forall (fun y => event_of (listed l s) y = P) L).
  { intros P L Nx F. rewrite Forall_forall in *. intros y Hy. rewrite Q by (intros ->; auto). auto. }
  split.
  - apply upd_lists; [reflexivity |]. destruct H; now split.
  - apply upd_time; [reflexivity |]. destruct T; now split.
  - split.
    + intros l' L El. change (<[l := insert_sorted (event_value (tasks s)) x (waiters s l)]> (event_lists s) !! l' = Some L) in El.
      rewrite lookup_insert in El. destruct (decide (l = l')) as [<- | N].
      * injection El as <-. rewrite insert_sorted_perm. unfold waiters. destruct (event_lists s !! l) as [L0 |] eqn:E0; cbn.
        -- destruct (E1 l L0 E0) as [D F]. split; [constructor; [exact (P2 l L0 E0) | exact D] |]. constructor; [exact Qx |]. apply Fx; [exact (P2 l L0 E0) | exact F].
        -- split; [apply NoDup_singleton |]. now constructor.
      * destruct (E1 l' L El) as [D F]. split; [exact D |]. apply Fx; [exact (P2 l' L El) | exact F].
    + split; [exact E2 |]. now apply Fx.
    + intros y u Eu Hw. unfold listed in Eu. rewrite upd_lookup in Eu. cbn [tasks with_events] in Eu. destruct (decide (current s = y)) as [<- | N]; [| eauto].
      destruct (tasks s !! current s) as [u0 |] eqn:E0; [| discriminate]. injection Eu as <-. destruct Nw. unfold waiting, state_of, x. rewrite E0. cbn in *. congruence.
    + intros y Ey. change (y ∈ pending s). apply E4. destruct (decide (y = x)) as [-> | N]; [congruence | now rewrite <- Q].
  - change (current (listed l s)) with (current s). unfold listed. rewrite upd_lookup. destruct (decide _); [now rewrite fmap_is_Some | exact Hc].
  - exact Hp.
  - exact Hpe.
Qed.

(** The current task waits in the list, behind those of its priority and higher ones, with its deadline. *)
Record placed (l n : Z) (s s' : sched) : Prop := {
  pl_ok : sched_ok s';
  pl_waiters : forall k, waiters s' k = if decide (k = l) then insert_sorted (event_value (tasks s)) (current s) (waiters s l) else waiters s k;
  pl_prio : forall y, prio <$> tasks s' !! y = prio <$> tasks s !! y;
  pl_current : current s' = current s;
  pl_ready : forall y, y ∈ ready_tasks s' <-> y <> current s /\ y ∈ ready_tasks s;
  pl_deadline : deadline s' (current s) = wake_at n s;
  pl_time : abs_tick s' = abs_tick s;
  pl_pended : xPendedTicks s' = xPendedTicks s;
  pl_suspended : suspended s' = suspended s;
  pl_pending : pending s' = pending s;
  pl_yield : yield_pending s' = yield_pending s
}.

Lemma block_yield n b s s' : prvAddCurrentTaskToDelayedList n b s = Done tt s' -> yield_pending s' = yield_pending s.
Proof.
  unfold prvAddCurrentTaskToDelayedList, uxListRemove, remove_state, bind, get, load, modify, update, ret.
  destruct (tasks s !! current s) as [t |]; [| discriminate].
  destruct (_ =? 0); destruct (_ && _); try destruct (_ <? _); intros [= <-]; reflexivity.
Qed.

Lemma place_spec l n s : sched_ok s -> l <> 0 -> 0 < n <= portMAX_DELAY -> current s ∈ ready_tasks s ->
  event_of s (current s) = Some NoList -> ~ waiting s (current s) ->
  exists s', vTaskPlaceOnEventList l n s = Done tt s' /\ placed l n s s'.
Proof.
  intros H Nl Hn Hr En Nw. pose proof (listed_ok l s H En Nw) as O.
  destruct (block_spec n (listed l s) O Hn Hr) as (s' & E & [B1 B2 B3 B4 B5 B6 B7 B8 B9]). exists s'. split.
  - unfold vTaskPlaceOnEventList. rewrite (proj2 (Z.eqb_neq l 0)) by exact Nl. rewrite (bind_done (configASSERT (negb false)) _ tt s s eq_refl).
    unfold bind at 1, get at 1. rewrite bind_modify. unfold update. rewrite bind_modify. exact E.
  - split; [exact B1 | | | apply B4 | exact B2 | | exact B5 | exact B6 | exact B7 | exact B8 | exact (block_yield _ _ _ _ E)].
    + intros k. unfold waiters at 1. rewrite B9. unfold listed, upd. cbn [event_lists with_tasks with_events].
      destruct (decide (k = l)) as [-> | N]; [now rewrite lookup_insert_eq | now rewrite lookup_insert_ne by congruence].
    + intros y. rewrite (st_prio _ _ B4 y). unfold listed. now rewrite (upd_field prio).
    + rewrite B3. now rewrite decide_True.
Qed.

(** The first task of the list has been taken off; it is ready, or is kept until the scheduler is resumed. *)
Record first_removed (l x : Z) (s s' : sched) : Prop := {
  fr_ok : sched_ok s';
  fr_waiters : forall k, waiters s' k = if decide (k = l) then tail (waiters s l) else waiters s k;
  fr_tasks : same_tasks s s';
  fr_time : abs_tick s' = abs_tick s;
  fr_pended : xPendedTicks s' = xPendedTicks s;
  fr_suspended : suspended s' = suspended s;
  fr_yield : yield_pending s' = if prio_of s (current s) <? prio_of s x then pdTRUE else yield_pending s;
  fr_ready : suspended s = 0 -> x ∈ ready_tasks s';
  fr_kept : suspended s <> 0 -> ready_tasks s' = ready_tasks s /\ pending s' = pending s ++ [x] /\ forall y, deadline s' y = deadline s y
}.

Lemma frame_same_tasks s s' : same_frame s s' -> same_tasks s s'.
Proof. intros []. now split. Qed.

Lemma ask_value x s : is_Some (tasks s !! x) -> is_Some (tasks s !! current s) -> let higher := prio_of s (current s) <? prio_of s x in
  ask_for_switch x s = Done (if higher then pdTRUE else pdFALSE) (with_current (current s) (if higher then pdTRUE else yield_pending s) s).
Proof.
  intros [t Et] [c Ec]. cbn zeta. unfold ask_for_switch, prio_of. unfold bind at 1, load at 1. rewrite Et. unfold bind at 1, get at 1. unfold bind at 1, load at 1.
  rewrite Ec. cbn [fmap option_fmap option_map default from_option id]. destruct (prio c <? prio t); [reflexivity | now destruct s].
Qed.

Section Remove.
Context (l x : Z) (L : list Z) (s : sched) (H : sched_ok s) (El : event_lists s !! l = Some (x :: L)).

#[local] Lemma head_task : (x ∉ L) /\ exists t, tasks s !! x = Some t /\ event t = InEventList l /\ notify_state t <> taskWAITING_NOTIFICATION.
Proof.
  destruct (eo_lists s (so_events s H) l _ El) as [D F]. apply NoDup_cons in D as [Nx _]. apply Forall_cons in F as [Fx _].
  split; [exact Nx |]. unfold event_of in Fx. destruct (tasks s !! x) as [t |] eqn:Et; [| discriminate]. injection Fx as Fx. exists t.
  split; [reflexivity |]. split; [exact Fx |]. intros K. destruct (eo_waiting s (so_events s H) x t Et K). congruence.
Qed.

(** The task is in no list of waiting tasks any more. *)
#[local] Lemma head_removed : let s1 := unevent x s in
  remove_event x s = Done tt s1 /\ sched_ok s1 /\ same_frame s s1 /\
  (exists t1, tasks s1 !! x = Some t1 /\ event t1 = NoList /\ notify_state t1 <> taskWAITING_NOTIFICATION) /\
  (forall k, waiters s1 k = if decide (k = l) then L else waiters s k) /\
  ready_tasks s1 = ready_tasks s /\ pending s1 = pending s /\ (forall y, deadline s1 y = deadline s y).
Proof.
  destruct head_task as (Nx & t & Et & Ev & Hn). cbn zeta.
  pose proof (unevent_frame x s) as Fr. destruct (proj2 (frame_some _ _ x Fr) (ex_intro _ t Et)) as [t1 Et1].
  destruct (unevent_task x s x t1 Et1) as (t0 & E0 & _ & _ & _ & Ns & Ee). rewrite decide_True in Ee by reflexivity.
  assert (t0 = t) as -> by congruence. assert (Fx : event_of s x = Some (InEventList l)) by (unfold event_of; rewrite Et; cbn; congruence).
  assert (Us : unevent x s = upd x (set_event NoList) (with_events (pending s) (alter (without x) l (event_lists s)) s)) by (unfold unevent; now rewrite Fx).
  split; [apply (remove_event_run x t s Et); congruence |]. split; [| split; [exact Fr |]; split; [exists t1; rewrite Ns; auto |]].
  - destruct H as [Hl T Hev Hc Hp Hpe]. split; [now apply unevent_lists | | now apply unevent_events | | |].
    + rewrite (sf_tick _ _ Fr). now apply unevent_time.
    + rewrite (sf_current _ _ Fr). now apply (frame_some _ _ _ Fr).
    + rewrite (sf_suspended _ _ Fr), Us. exact Hp.
    + now rewrite (sf_pended _ _ Fr).
  - rewrite Us. split; [| split; [reflexivity |]; split; [reflexivity |]].
    + intros k. unfold waiters. cbn [event_lists upd with_tasks with_events]. destruct (decide (k = l)) as [-> | N].
      * rewrite lookup_alter_eq, El. cbn. now apply without_head.
      * now rewrite lookup_alter_ne by congruence.
    + intros y. unfold deadline. rewrite value_of_upd by reflexivity. reflexivity.
Qed.

Lemma remove_from_event_list_spec :
  exists s', xTaskRemoveFromEventList l s = Done (if prio_of s (current s) <? prio_of s x then pdTRUE else pdFALSE) s' /\ first_removed l x s s'.
Proof.
  destruct head_removed as (E1 & O1 & Fr & (t1 & Et1 & Ee & Hn) & W1 & R1 & P1 & D1). set (s1 := unevent x s) in *.
  set (s2 := if suspended s1 =? 0 then wake x s1 else kept_back x s1). pose proof (ex_intro _ t1 Et1 : is_Some (tasks s1 !! x)) as Hx.
  assert (K2 : sched_ok s2 /\ event_lists s2 = event_lists s1 /\ same_tasks s1 s2 /\ abs_tick s2 = abs_tick s1 /\ xPendedTicks s2 = xPendedTicks s1 /\
     suspended s2 = suspended s1 /\ (suspended s = 0 -> x ∈ ready_tasks s2) /\
     (suspended s <> 0 -> ready_tasks s2 = ready_tasks s1 /\ pending s2 = pending s1 ++ [x] /\ forall y, deadline s2 y = deadline s1 y)).
  { rewrite <- (sf_suspended _ _ Fr : suspended s1 = suspended s). unfold s2. destruct (Z.eqb_spec (suspended s1) 0) as [Z0 | Z0].
    - pose proof (wake_frame x s1) as Fw. split; [now apply wake_ok |]. split; [| split; [now apply frame_same_tasks |]].
      { change (event_lists (unevent x s1) = event_lists s1). unfold unevent, event_of. rewrite Et1. cbn. now rewrite Ee. }
      unfold abs_tick. rewrite (sf_tick _ _ Fw), (sf_overflows _ _ Fw), (sf_pended _ _ Fw), (sf_suspended _ _ Fw).
      split; [reflexivity |]. split; [reflexivity |]. split; [reflexivity |]. split; [| congruence].
      intros _. rewrite (wake_ready x s1 Hx (so_lists _ O1)). left.
    - split; [now apply (kept_back_ok x s1 t1) |]. split; [reflexivity |]. split; [| split; [reflexivity |]; split; [reflexivity |]; split; [reflexivity |]].
      { split; [reflexivity | | | | apply kept_back_no_new]; intros y; apply (kept_back_task x s1 y). }
      split; [congruence |]. intros _. split; [reflexivity |]. split; [reflexivity |]. intros y. apply kept_back_task. }
  destruct K2 as (O2 & L2 & T2 & A2 & Q2 & S2 & R2 & N2).
  pose proof (same_tasks_trans _ _ _ (frame_same_tasks _ _ Fr) T2) as T02.
  assert (Pr : forall y, prio_of s2 y = prio_of s y) by (intros y; unfold prio_of; now rewrite (st_prio _ _ T02)).
  assert (Y2 : yield_pending s2 = yield_pending s).
  { assert (U : forall u, yield_pending (unevent x u) = yield_pending u) by (intros u; unfold unevent; now destruct (event_of u x) as [[] |]).
    unfold s2. destruct (_ =? 0); [exact (eq_trans (U s1) (U s)) | exact (U s)]. }
  assert (Ea := ask_value x s2). cbn zeta in Ea.
  assert (Hc2 : is_Some (tasks s2 !! current s2)) by apply so_current, O2.
  rewrite !Pr, Y2 in Ea. rewrite (st_current _ _ T02) in Ea, Hc2.
  assert (Hx2 : is_Some (tasks s2 !! x)) by (pose proof (st_prio _ _ T2 x) as K; rewrite Et1 in K; destruct (tasks s2 !! x); [eauto | discriminate]).
  specialize (Ea Hx2 Hc2). set (q := if prio_of s (current s) <? prio_of s x then pdTRUE else yield_pending s) in *. exists (with_current (current s) q s2). split.
  - unfold xTaskRemoveFromEventList. unfold bind at 1, get at 1. rewrite El. rewrite (bind_done _ _ _ _ _ E1).
    rewrite (bind_done _ _ _ _ _ (make_ready_run x t1 s1 Et1 Ee)). exact Ea.
  - assert (W2 : forall k, waiters s2 k = if decide (k = l) then L else waiters s k) by (intros k; rewrite <- W1; unfold waiters; now rewrite L2).
    clear - q O2 T2 T02 A2 Q2 S2 R2 N2 W2 El Fr R1 P1 D1. pose proof (asked_ok s2 q O2) as Oq. rewrite (st_current _ _ T02) in Oq.
    split; [exact Oq | | | | | | reflexivity | exact R2 |].
    + intros k. change (waiters (with_current _ _ s2) k) with (waiters s2 k). rewrite W2. unfold waiters at 2. now rewrite El.
    + destruct T02. now split.
    + change (abs_tick s2 = abs_tick s). rewrite A2. unfold abs_tick. now rewrite (sf_tick _ _ Fr), (sf_overflows _ _ Fr).
    + change (xPendedTicks s2 = xPendedTicks s). now rewrite Q2, (sf_pended _ _ Fr).
    + change (suspended s2 = suspended s). now rewrite S2, (sf_suspended _ _ Fr).
    + intros N. destruct (N2 N) as (A & B & C). rewrite R1, P1 in *. split; [exact A |]. split; [exact B |].
      intros y. change (deadline s2 y = deadline s y). now rewrite C, D1.
Qed.
End Remove.
