(* ===== verification/SchedNotify.v ===== *)
(** Tasks that wait for notifications, with ticks and interrupts between the critical sections of the calls. *)
From Stdlib Require Import ZArith Lia Bool.
From stdpp Require Import base decidable list gmap sorting.
From S2P Require Import Prelude Queue Tasks EtharpTable Sched SchedProofs SchedSwitch SchedBlock SchedGive.

(** * The system *)

(** Where a task is in [ulTaskGenericNotifyTake]; [d] is when its call is to give up. *)
Inductive point : Type :=
| Outside
| Entered (n : Z) (clear : bool)
| Marked (b : bool) (n : Z) (clear : bool) (d : option Z)
| Placed (b clear : bool) (d : option Z)
| Resumed (b clear : bool) (d : option Z)
| Leaving (clear : bool) (d : option Z).

(** The scheduler is suspended. *)
Definition busy (p : point) : bool := match p with Entered _ _ | Marked _ _ _ _ | Placed _ _ _ => true | _ => false end.

(** What may happen next: interrupts, a switch, and the current task calls [ulTaskNotifyTake] or goes on in it. *)
Inductive input : Type :=
| Tick
| Give (x : Z)
| Switch
| Take (n : Z) (clear : bool)
| Go.

Section Notify.
Variable idle : Z.                     (** the idle task; it never blocks *)

Definition act (e : input) (pts : gmap Z point) : prog sched (gmap Z point) :=
  s <- get ;;
  let put p := ret (<[current s := p]> pts) in
  match e, pts !! current s with
  | Tick, _ => xTaskIncrementTick ;; ret pts
  | Give x, _ => vTaskGenericNotifyGiveFromISR x 0 ;; ret pts
  | Switch, _ => vTaskSwitchContext ;; ret pts
  | Take n c, Some Outside => if current s =? idle then ret pts else vTaskSuspendAll ;; put (Entered n c)
  | Go, Some (Entered n c) => b <- take_mark n ;; put (Marked b n c (wake_at n s))
  | Go, Some (Marked b n c d) => take_block b n ;; put (Placed b c d)
  | Go, Some (Placed b c d) => xTaskResumeAll ;; put (Resumed b c d)
  | Go, Some (Resumed b c d) => take_yield b ;; put (Leaving c d)
  | Go, Some (Leaving c d) => take_finish c ;; put Outside
  | _, _ => ret pts
  end.

Fixpoint acts (l : list input) (pts : gmap Z point) : prog sched (gmap Z point) :=
  match l with [] => ret pts | e :: l' => pts <- act e pts ;; acts l' pts end.

(** Notifications are given to tasks, and times are numbers of ticks. *)
Definition input_ok (s : sched) (e : input) : Prop :=
  match e with
  | Give x => x <> 0 /\ is_Some (tasks s !! x)
  | Take n _ => 0 <= n <= portMAX_DELAY
  | _ => True
  end.

(** The scheduler as it starts: every task is ready, and none has or waits for a notification. *)
Record started (s : sched) (pts : gmap Z point) : Prop := {
  sd_ok : sched_ok s;
  sd_suspended : suspended s = 0;
  sd_tasks : forall x t, tasks s !! x = Some t -> x ∈ ready_tasks s /\ event t = NoList /\ notified t = 0 /\ notify_state t <> taskWAITING_NOTIFICATION;
  sd_points : forall x, pts !! x = (fun _ => Outside) <$> tasks s !! x;
  sd_idle : is_Some (tasks s !! idle)
}.

(** * The invariant *)

Definition passed (d : option Z) (s : sched) : Prop := exists t, d = Some t /\ t <= abs_tick s.

(** Notified; or timed out; or waiting for one of the two. *)
Definition settled (s : sched) (x : Z) (d : option Z) : Prop :=
  (~ waiting s x /\ count_of s x <> Some 0 /\ (x ∈ ready_tasks s \/ x ∈ pending s)) \/
  (waiting s x /\ x ∈ ready_tasks s /\ passed d s) \/
  (waiting s x /\ (x ∉ ready_tasks s) /\ deadline s x = d).

Definition point_ok (s : sched) (x : Z) (p : point) : Prop :=
  match p with
  | Outside => ~ waiting s x /\ x ∈ ready_tasks s
  | Entered n _ => ~ waiting s x /\ x ∈ ready_tasks s /\ (x ∉ pending s) /\ 0 <= n <= portMAX_DELAY
  | Marked true n _ d => x ∈ ready_tasks s /\ 0 < n <= portMAX_DELAY /\ d = wake_at n s /\
      (waiting s x \/ (~ waiting s x /\ count_of s x <> Some 0 /\ x ∈ pending s))
  | Marked false _ _ d => x ∈ ready_tasks s /\ settled s x d
  | Placed b _ d | Resumed b _ d => settled s x d /\ (b = false -> x ∈ ready_tasks s)
  | Leaving _ d => settled s x d
  end.

Record inv (k : Z) (s : sched) (pts : gmap Z point) : Prop := {
  iv_ok : sched_ok s;
  iv_dom : forall x, is_Some (pts !! x) <-> is_Some (tasks s !! x);
  iv_points : forall x p, pts !! x = Some p -> point_ok s x p;
  iv_busy : forall x p, pts !! x = Some p -> busy p = true -> x = current s /\ suspended s = 1;
  iv_suspended : suspended s = 0 \/ (suspended s = 1 /\ exists p, pts !! current s = Some p /\ busy p = true);
  iv_running : forall c d, pts !! current s = Some (Leaving c d) -> current s ∈ ready_tasks s;
  iv_idle : pts !! idle = Some Outside;
  iv_events : forall x l, event_of s x <> Some (InEventList l);
  iv_counts : forall x n, count_of s x = Some n -> 0 <= n <= k
}.

(** Nothing has changed for a task. *)
Record still (y : Z) (s s' : sched) : Prop := {
  sl_state : state_of s' y = state_of s y;
  sl_count : count_of s' y = count_of s y;
  sl_ready : y ∈ ready_tasks s' <-> y ∈ ready_tasks s;
  sl_pending : y ∈ pending s' <-> y ∈ pending s;
  sl_deadline : deadline s' y = deadline s y;
  sl_time : abs_tick s' = abs_tick s
}.

Lemma point_still s s' y p : still y s s' -> point_ok s y p -> point_ok s' y p.
Proof.
  intros [S1 S2 S3 S4 S5 S6]. assert (W : waiting s' y <-> waiting s y) by (unfold waiting; now rewrite S1).
  assert (K : forall d, settled s y d -> settled s' y d).
  { intros d. unfold settled, passed. rewrite W, S2, S3, S4, S5, S6. tauto. }
  destruct p as [| n c | [|] n c d | b c d | b c d | c d]; cbn.
  - now rewrite W, S3.
  - now rewrite W, S3, S4.
  - unfold wake_at. rewrite W, S2, S3, S4, S6. auto.
  - rewrite S3. intros [? ?]. auto.
  - rewrite S3. intros [? ?]. auto.
  - rewrite S3. intros [? ?]. auto.
  - auto.
Qed.

(** Time has passed for a task, or it has been taken off the pending ones. *)
Record later (y : Z) (s s' : sched) : Prop := {
  lt_state : state_of s' y = state_of s y;
  lt_count : count_of s' y = count_of s y;
  lt_time : abs_tick s <= abs_tick s';
  lt_ready : y ∈ ready_tasks s -> y ∈ ready_tasks s';
  lt_pending : y ∈ pending s -> y ∈ ready_tasks s';
  lt_woken : y ∈ ready_tasks s' -> y ∈ ready_tasks s \/ y ∈ pending s \/ passed (deadline s y) s';
  lt_deadline : (y ∉ ready_tasks s') -> deadline s' y = deadline s y
}.

Lemma waiting_not_pending s x : sched_ok s -> waiting s x -> x ∉ pending s.
Proof.
  intros H W K. destruct (eo_pending s (so_events s H)) as [_ F]. rewrite Forall_forall in F. specialize (F x K).
  unfold waiting, state_of, event_of in *. destruct (tasks s !! x) as [t |] eqn:E; [| discriminate]. injection W as W.
  destruct (eo_waiting s (so_events s H) x t E W) as [Q _]. injection F as F. congruence.
Qed.

Lemma settled_later s s' y d : sched_ok s -> later y s s' -> settled s y d -> settled s' y d.
Proof.
  intros H [L1 L2 L3 L4 L5 L6 L7]. assert (W : waiting s' y <-> waiting s y) by (unfold waiting; now rewrite L1).
  intros [(A & B & C) | [(A & B & t & C & D) | (A & B & C)]].
  - left. rewrite W, L2. tauto.
  - right. left. rewrite W. split; [exact A |]. split; [auto |]. exists t. split; [exact C | lia].
  - right. rewrite W. destruct (decide (y ∈ ready_tasks s')) as [K | K]; [left | right; rewrite L7; auto].
    split; [exact A |]. split; [exact K |]. destruct (L6 K) as [Q | [Q | Q]]; [easy | now apply (waiting_not_pending s y H A) in Q | now rewrite <- C].
Qed.

Lemma point_later s s' y p : sched_ok s -> later y s s' -> busy p = false -> point_ok s y p -> point_ok s' y p.
Proof.
  intros H L B. destruct p as [| n c | b n c d | b c d | b c d | c d]; try discriminate; cbn.
  - intros [P Q]. split; [unfold waiting; now rewrite (lt_state _ _ _ L) | now apply (lt_ready _ _ _ L)].
  - intros [P Q]. split; [now apply (settled_later s) | intros E; apply (lt_ready _ _ _ L); auto].
  - now apply (settled_later s).
Qed.

(** * The invariant is kept *)

Lemma same_dom {A} (g : stcb -> A) s s' : (forall y, g <$> tasks s' !! y = g <$> tasks s !! y) -> forall y, is_Some (tasks s' !! y) <-> is_Some (tasks s !! y).
Proof. intros H y. rewrite <- (fmap_is_Some g), H. apply fmap_is_Some. Qed.

Lemma no_events_kept s s' : (forall x l, event_of s x <> Some (InEventList l)) -> no_new_events s s' -> forall x l, event_of s' x <> Some (InEventList l).
Proof. intros H N x l E. exact (H x l (N x l E)). Qed.

(** An interrupt that does not switch. *)
Lemma inv_interrupt k k' s s' pts : inv k s pts -> sched_ok s' -> (forall y, prio <$> tasks s' !! y = prio <$> tasks s !! y) ->
  current s' = current s -> suspended s' = suspended s -> no_new_events s s' -> (forall x n, count_of s' x = Some n -> 0 <= n <= k') ->
  (forall x, x ∈ ready_tasks s -> x ∈ ready_tasks s') -> (forall x p, pts !! x = Some p -> point_ok s x p -> point_ok s' x p) -> inv k' s' pts.
Proof.
  intros [I1 I2 I3 I4 I5 I6 I7 I8 I9] O P C S N K R Q. split; auto.
  - intros x. rewrite I2. symmetry. now apply (same_dom prio).
  - rewrite C, S. exact I4.
  - rewrite C, S. exact I5.
  - rewrite C. eauto.
  - now apply (no_events_kept s).
Qed.

(** The current task goes on; it may have been switched out when it does not have the scheduler suspended. *)
Lemma inv_own k s s' pts q : inv k s pts -> sched_ok s' -> (forall y, prio <$> tasks s' !! y = prio <$> tasks s !! y) ->
  current s <> idle -> (busy q = true -> current s' = current s) -> suspended s' = (if busy q then 1 else 0) -> no_new_events s s' ->
  (forall x n, count_of s' x = Some n -> 0 <= n <= k) ->
  (forall y p, y <> current s -> busy p = false -> point_ok s y p -> point_ok s' y p) -> point_ok s' (current s) q ->
  (current s' = current s \/ current s' ∈ ready_tasks s') -> (forall c d, q = Leaving c d -> current s' ∈ ready_tasks s') ->
  is_Some (pts !! current s) -> inv k s' (<[current s := q]> pts).
Proof.
  intros [I1 I2 I3 I4 I5 I6 I7 I8 I9] O P Ni Cq S N K Q Pq C R D.
  assert (B : forall y p, y <> current s -> pts !! y = Some p -> busy p = false).
  { intros y p Ny Ep. destruct (busy p) eqn:Eb; [| reflexivity]. now destruct Ny; apply (I4 y p). }
  split; auto.
  - intros x. rewrite lookup_insert_is_Some, (same_dom prio s s' P), <- I2. destruct (decide (current s = x)) as [<- | Nx]; tauto.
  - intros x p E. destruct (decide (x = current s)) as [-> | Nx].
    + rewrite lookup_insert_eq in E. now injection E as <-.
    + rewrite lookup_insert_ne in E by congruence. apply Q; eauto.
  - intros x p E Eb. destruct (decide (x = current s)) as [-> | Nx].
    + rewrite lookup_insert_eq in E. injection E as <-. rewrite Eb in S. split; [symmetry; auto | exact S].
    + rewrite lookup_insert_ne in E by congruence. rewrite (B x p Nx E) in Eb. discriminate.
  - destruct (busy q) eqn:Eb; [right | now left]. split; [exact S |]. exists q. rewrite Cq, lookup_insert_eq by reflexivity. auto.
  - intros c d E. destruct C as [C | C]; [| exact C]. rewrite C, lookup_insert_eq in E. injection E as ->. eauto.
  - rewrite lookup_insert_ne by congruence. exact I7.
  - now apply (no_events_kept s).
Qed.

Definition runs (k : Z) (e : input) (s : sched) (pts : gmap Z point) : Prop :=
  exists s' pts', act e pts s = Done pts' s' /\ inv k s' pts' /\ forall y, is_Some (tasks s !! y) <-> is_Some (tasks s' !! y).

Lemma same_tasks_counts k s s' : same_tasks s s' -> (forall x n, count_of s x = Some n -> 0 <= n <= k) -> forall x n, count_of s' x = Some n -> 0 <= n <= k.
Proof. intros T H x n E. apply (H x n). unfold count_of in *. now rewrite <- (st_notified _ _ T). Qed.

(** ** Interrupts *)

Lemma lapse_later s s' y : suspended s = 0 -> sched_ok s -> lapse s s' -> later y s s'.
Proof.
  intros Hs H L. pose proof (la_control _ _ L) as C. pose proof (so_running s H Hs) as Hp. split.
  - exact (sc_state _ _ C y).
  - exact (sc_notified _ _ C y).
  - apply (la_time _ _ L).
  - intros R. apply (la_ready _ _ L). now left.
  - rewrite Hp. intros K. inversion K.
  - intros R. apply (la_ready _ _ L) in R as [R | (d & E & Q)]; [now left |]. right. right. exists d. auto.
  - intros R. rewrite (la_deadline _ _ L y). destruct (deadline s y) as [d |] eqn:E; [| reflexivity]. cbn.
    destruct (Z.leb_spec d (abs_tick s')); [| reflexivity]. destruct R. apply (la_ready _ _ L). right. eauto.
Qed.

(** A tick while the scheduler is suspended is only counted. *)
Lemma tick_suspended s : sched_ok s -> suspended s <> 0 ->
  exists s', xTaskIncrementTick s = Done pdFALSE s' /\ sched_ok s' /\ same_tasks s s' /\ suspended s' = suspended s /\ forall y, still y s s'.
Proof.
  intros [H T Ev Hc Hp Hpe] Hs. unfold xTaskIncrementTick. unfold bind at 1, get at 1. rewrite (proj2 (Z.eqb_neq _ 0)) by exact Hs.
  rewrite bind_modify. eexists. split; [reflexivity |]. split; [| split; [now split | split; [reflexivity | now split]]].
  split; [destruct H; now split | destruct T; now split | destruct Ev; now split | exact Hc | exact Hp |]. apply Z.mod_pos_bound. reflexivity.
Qed.

Lemma tick_runs k s pts : inv k s pts -> runs k Tick s pts.
Proof.
  intros I. unfold runs, act. destruct (decide (suspended s = 0)) as [Hs | Hs].
  - destruct (tick_spec s (iv_ok _ _ _ I) Hs) as (s' & E & T). destruct (ticked_lapse s s' (iv_ok _ _ _ I) T) as [L _].
    pose proof (lapse_same s s' L) as Sm. exists s', pts. unfold bind at 1, get. cbv beta iota zeta. rewrite (bind_done _ _ _ _ _ E). split; [reflexivity |].
    split; [| intros y; symmetry; apply (same_dom prio), Sm]. apply (inv_interrupt k k s); auto; try apply Sm.
    + apply (la_ok _ _ L).
    + apply (sc_suspended _ _ (la_control _ _ L)).
    + apply (same_tasks_counts k s s' Sm), (iv_counts _ _ _ I).
    + intros x. apply (lt_ready x s s' (lapse_later s s' x Hs (iv_ok _ _ _ I) L)).
    + intros x p Ep. apply (point_later s s' x p (iv_ok _ _ _ I) (lapse_later s s' x Hs (iv_ok _ _ _ I) L)).
      destruct (busy p) eqn:B; [| reflexivity]. destruct (iv_busy _ _ _ I x p Ep B). lia.
  - destruct (tick_suspended s (iv_ok _ _ _ I) Hs) as (s' & E & O & Sm & Su & St).
    exists s', pts. unfold bind at 1, get. cbv beta iota zeta. rewrite (bind_done _ _ _ _ _ E). split; [reflexivity |].
    split; [| intros y; symmetry; apply (same_dom prio), Sm]. apply (inv_interrupt k k s); auto; try apply Sm.
    + apply (same_tasks_counts k s s' Sm), (iv_counts _ _ _ I).
    + intros x R. now apply (sl_ready _ _ _ (St x)).
    + intros x p _. apply point_still, St.
Qed.

(** The task a notification is given to. *)
Lemma point_given k s s' x p : sched_ok s -> given x s s' -> (forall n, count_of s x = Some n -> 0 <= n <= k) -> k < 0xffffffff ->
  (busy p = true -> suspended s <> 0) -> point_ok s x p -> point_ok s' x p.
Proof.
  intros H G K Hk B. assert (W : ~ waiting s' x) by (unfold waiting; rewrite (gv_state _ _ _ G), decide_True by reflexivity; discriminate).
  assert (C : count_of s' x <> Some 0).
  { rewrite (gv_count _ _ _ G), decide_True by reflexivity. destruct (count_of s x) as [n |]; [| discriminate]. specialize (K n eq_refl).
    cbn. unfold u32. rewrite Z.mod_small by lia. intros [= Q]. lia. }
  assert (R : x ∈ ready_tasks s -> x ∈ ready_tasks s') by (intros Q; apply (gv_ready _ _ _ G); now left).
  assert (Pd : x ∈ pending s -> x ∈ pending s') by (intros Q; apply (gv_pending _ _ _ G); now left).
  assert (Q : waiting s x -> x ∈ ready_tasks s' \/ x ∈ pending s').
  { intros Hw. destruct (decide (suspended s = 0)); [left; apply (gv_ready _ _ _ G) | right; apply (gv_pending _ _ _ G)]; auto. }
  assert (Se : forall d, settled s x d -> settled s' x d).
  { intros d Hd. left. split; [exact W |]. split; [exact C |]. destruct Hd as [(_ & _ & [|]) | [(? & _) | (? & _)]]; auto. }
  destruct p as [| n c | [|] n c d | b c d | b c d | c d]; cbn.
  - tauto.
  - intros (Hw & Hr & Hp & Hn). do 2 (split; [auto |]). split; [| exact Hn]. intros Z. apply (gv_pending _ _ _ G) in Z. tauto.
  - intros (Hr & Hn & Hd & Z). do 2 (split; [auto |]). split; [unfold wake_at; now rewrite (gv_time _ _ _ G) |]. right. split; [exact W |].
    split; [exact C |]. destruct Z as [Z | (_ & _ & Z)]; [| auto]. apply (gv_pending _ _ _ G). right. auto.
  - intros [? ?]. auto.
  - intros [? ?]. auto.
  - intros [? ?]. auto.
  - auto.
Qed.

Lemma given_still x s s' y : given x s s' -> y <> x -> still y s s'.
Proof.
  intros G N. split.
  - rewrite (gv_state _ _ _ G). now rewrite decide_False.
  - rewrite (gv_count _ _ _ G). now rewrite decide_False.
  - rewrite (gv_ready _ _ _ G). tauto.
  - rewrite (gv_pending _ _ _ G). tauto.
  - rewrite (gv_deadline _ _ _ G). rewrite decide_False; [reflexivity | tauto].
  - apply (gv_time _ _ _ G).
Qed.

Lemma give_runs k s pts x : inv k s pts -> x <> 0 -> is_Some (tasks s !! x) -> k < 0xffffffff -> runs (k + 1) (Give x) s pts.
Proof.
  intros I Nx Hx Hk. unfold runs, act. destruct (give_spec x s (iv_ok _ _ _ I) Nx Hx) as (s' & E & G).
  exists s', pts. unfold bind at 1, get. cbv beta iota zeta. rewrite (bind_done _ _ _ _ _ E). split; [reflexivity |].
  split; [| intros y; symmetry; apply (same_dom prio), G]. apply (inv_interrupt k (k + 1) s); auto; try apply G.
  - intros y n. rewrite (gv_count _ _ _ G). destruct (decide (y = x)) as [-> |]; [| intros Q; pose proof (iv_counts _ _ _ I y n Q); lia].
    destruct (count_of s x) as [n0 |] eqn:E0; [| discriminate]. pose proof (iv_counts _ _ _ I x n0 E0). cbn. unfold u32. rewrite Z.mod_small by lia.
    intros [= <-]. lia.
  - intros y R. apply (gv_ready _ _ _ G). now left.
  - intros y p Ep. destruct (decide (y = x)) as [-> | N]; [| apply point_still, (given_still x s s' y G N)].
    apply (point_given k s s' x p (iv_ok _ _ _ I) G); [apply (iv_counts _ _ _ I) | exact Hk |].
    intros B. destruct (iv_busy _ _ _ I x p Ep B). lia.
Qed.

(** ** Switches *)

Lemma idle_ready k s pts : inv k s pts -> idle ∈ ready_tasks s.
Proof. intros I. exact (proj2 (iv_points _ _ _ I idle Outside (iv_idle _ _ _ I))). Qed.

Lemma switch_any k s pts : inv k s pts -> suspended s = 0 ->
  exists s', vTaskSwitchContext s = Done tt s' /\ sched_ok s' /\ suspended s' = 0 /\ current s' ∈ ready_tasks s' /\ tasks s' = tasks s /\ forall y, still y s s'.
Proof.
  intros I Hs. pose proof (idle_ready k s pts I) as Hi.
  destruct (top_list_exists s (so_lists s (iv_ok _ _ _ I))) as (p & c & Tl & _); [intros K; rewrite K in Hi; inversion Hi |].
  destruct (members c) as [| x r] eqn:Em; [now destruct Tl as (_ & N & _); destruct N |].
  destruct (switch_context_run s p c x r (iv_ok _ _ _ I) Hs Tl Em) as (s' & E & O & S & C & _ & R & _ & Et & D & A & _ & P).
  exists s'. split; [exact E |]. split; [exact O |]. split; [exact S |]. split; [| split; [exact Et |]].
  - apply R. rewrite C. apply ready_lookup. exists p, c. split; [apply Tl | rewrite Em; left].
  - intros y. split; unfold state_of, count_of; auto; [now rewrite Et | now rewrite Et | now rewrite P].
Qed.

Lemma tasks_no_new s s' : tasks s' = tasks s -> no_new_events s s'.
Proof. intros E x l. unfold event_of. now rewrite E. Qed.

Lemma switch_suspended s : suspended s <> 0 -> vTaskSwitchContext s = Done tt (with_current (current s) pdTRUE s).
Proof. intros Hs. unfold vTaskSwitchContext. unfold bind at 1, get. now rewrite (proj2 (Z.eqb_neq _ 0)) by exact Hs. Qed.

Lemma switch_runs k s pts : inv k s pts -> runs k Switch s pts.
Proof.
  intros I. unfold runs, act. unfold bind at 1, get. cbv beta iota zeta. destruct (decide (suspended s = 0)) as [Hs | Hs].
  - destruct (switch_any k s pts I Hs) as (s' & E & O & S & C & Et & St). exists s', pts. rewrite (bind_done _ _ _ _ _ E). split; [reflexivity |].
    split; [| intros y; now rewrite Et]. destruct I as [I1 I2 I3 I4 I5 I6 I7 I8 I9]. split; auto.
    + intros x. now rewrite Et.
    + intros x p Ep. exact (point_still s s' x p (St x) (I3 x p Ep)).
    + intros x p Ep B. destruct (I4 x p Ep B). lia.
    + exact (no_events_kept s s' I8 (tasks_no_new s s' Et)).
    + intros x n. unfold count_of. rewrite Et. apply I9.
  - exists (with_current (current s) pdTRUE s), pts. rewrite (bind_done _ _ _ _ _ (switch_suspended s Hs)). split; [reflexivity |]. split; [| reflexivity].
    apply (inv_interrupt k k s); auto; try reflexivity; try (now apply tasks_no_new); [apply asked_ok, I | apply (iv_counts _ _ _ I)].
Qed.

(** ** The calls of the tasks *)

Lemma current_not_idle k s pts p : inv k s pts -> pts !! current s = Some p -> p <> Outside -> current s <> idle.
Proof. intros I E N K. rewrite K, (iv_idle _ _ _ I) in E. congruence. Qed.

Lemma not_suspended k s pts p : inv k s pts -> pts !! current s = Some p -> busy p = false -> suspended s = 0.
Proof. intros I E B. destruct (iv_suspended _ _ _ I) as [K | (_ & q & Eq & Bq)]; [exact K |]. congruence. Qed.

Lemma take_runs k s pts n c : inv k s pts -> 0 <= n <= portMAX_DELAY -> runs k (Take n c) s pts.
Proof.
  intros I Hn. assert (Z : runs k Tick s pts -> exists s' pts', ret pts s = Done pts' s' /\ inv k s' pts' /\
    forall y, is_Some (tasks s !! y) <-> is_Some (tasks s' !! y)) by (intros _; now exists s, pts).
  specialize (Z (tick_runs k s pts I)). unfold runs, act. unfold bind at 1, get. cbv beta iota zeta.
  destruct (pts !! current s) as [p |] eqn:Ep; [| exact Z]. destruct p; try exact Z.
  destruct (Z.eqb_spec (current s) idle) as [Ei | Ei]; [exact Z |].
  pose proof (not_suspended k s pts Outside I Ep eq_refl) as Hs. pose proof (iv_ok _ _ _ I) as H.
  unfold vTaskSuspendAll. rewrite bind_modify. rewrite Hs. change (u32 (0 + 1)) with 1. eexists _, _. split; [reflexivity |]. split; [| reflexivity].
  apply (inv_own k s); auto; try reflexivity; try (now apply tasks_no_new).
  - destruct H as [L T Ev Hc Hp Hpe]. split; [destruct L; now split | destruct T; now split | destruct Ev; now split | exact Hc | intros Q; discriminate Q | exact Hpe].
  - apply (iv_counts _ _ _ I).
  - destruct (iv_points _ _ _ I _ _ Ep) as [P1 P2]. cbn. split; [exact P1 |]. split; [exact P2 |]. split; [| exact Hn].
    change (pending (with_suspended 1 s)) with (pending s). rewrite (so_running s H Hs). apply not_elem_of_nil.
  - intros c' d' Q. discriminate Q.
Qed.

(** The notification of a task other than [y] has changed. *)
Lemma set_notify_still x n st s y : y <> x -> still y s (upd x (set_notify n st) s).
Proof.
  intros N. split; try reflexivity; unfold state_of, count_of; [| | apply set_notify_deadline]; rewrite upd_lookup; now rewrite decide_False by congruence.
Qed.

Lemma count_bound k x n st s : (forall y m, count_of s y = Some m -> 0 <= m <= k) -> 0 <= n <= k -> is_Some (tasks s !! x) ->
  forall y m, count_of (upd x (set_notify n st) s) y = Some m -> 0 <= m <= k.
Proof. intros H Hn Hx y m. rewrite set_notify_count by exact Hx. destruct (decide (y = x)); [intros [= <-]; exact Hn | apply H]. Qed.

Lemma suspended_of k s pts p : inv k s pts -> pts !! current s = Some p -> busy p = true -> suspended s = 1.
Proof. intros I E B. now destruct (iv_busy _ _ _ I _ p E B). Qed.

Lemma mark_runs k s pts n c : inv k s pts -> pts !! current s = Some (Entered n c) -> runs k Go s pts.
Proof.
  intros I Ep. pose proof (iv_ok _ _ _ I) as H. pose proof (suspended_of k s pts _ I Ep eq_refl) as Hs.
  destruct (iv_points _ _ _ I _ _ Ep) as (P1 & P2 & P3 & P4). destruct (so_current s H) as [t Et].
  pose proof (current_not_idle k s pts _ I Ep ltac:(discriminate)) as Ni.
  assert (Ct : count_of s (current s) = Some (notified t)) by (unfold count_of; now rewrite Et).
  pose proof (iv_counts _ _ _ I _ _ Ct) as Bt.
  unfold runs, act. unfold bind at 1, get. cbv beta iota zeta. rewrite Ep. unfold take_mark.
  destruct (Z.eqb_spec (notified t) 0) as [Z0 | Z0].
  - set (s' := upd (current s) (set_notify (notified t) taskWAITING_NOTIFICATION) s).
    assert (En : Sched.event t = NoList).
    { destruct (Sched.event t) as [| l |] eqn:Ev; [reflexivity | |]; exfalso.
      - apply (iv_events _ _ _ I (current s) l). unfold event_of. rewrite Et. cbn. congruence.
      - apply P3, (eo_kept s (so_events s H)). unfold event_of. rewrite Et. cbn. congruence. }
    assert (Ws : waiting s' (current s)) by (unfold waiting, s'; rewrite set_notify_state, decide_True by eauto; reflexivity).
    exists s', (<[current s := Marked (0 <? n) n c (wake_at n s)]> pts). split; [| split].
    + unfold bind at 1. unfold bind at 1, get. unfold bind at 1, load. rewrite Et, Z0. cbn [Z.eqb]. unfold update. rewrite bind_modify.
      unfold s'. now rewrite Z0.
    + apply (inv_own k s s' pts _ I).
      * now apply (set_notify_ok _ _ _ t).
      * intros y. unfold s'. now rewrite (upd_field prio).
      * exact Ni.
      * reflexivity.
      * exact Hs.
      * apply set_notify_no_new.
      * apply (count_bound k); [apply (iv_counts _ _ _ I) | exact Bt | eauto].
      * intros y q Ny _. now apply point_still, set_notify_still.
      * cbn. destruct (Z.ltb_spec 0 n); [now repeat split; auto; lia |]. split; [exact P2 |]. right. left. split; [exact Ws |]. split; [exact P2 |].
        exists (abs_tick s + n). unfold wake_at. unfold portMAX_DELAY in *. rewrite (proj2 (Z.eqb_neq n _)) by lia. split; [reflexivity |].
        change (abs_tick s') with (abs_tick s). lia.
      * now left.
      * discriminate.
      * now rewrite Ep.
    + intros y. symmetry. apply (same_dom prio). intros z. unfold s'. now rewrite (upd_field prio).
  - exists s, (<[current s := Marked false n c (wake_at n s)]> pts). split; [| split; [| reflexivity]].
    + unfold bind at 1. unfold bind at 1, get. unfold bind at 1, load. rewrite Et. now rewrite (proj2 (Z.eqb_neq _ _) Z0).
    + apply (inv_own k s s pts _ I H); try reflexivity; auto; try discriminate.
      * apply (iv_counts _ _ _ I).
      * split; [exact P2 |]. left. split; [exact P1 |]. split; [rewrite Ct; congruence | now left].
Qed.

Lemma block_runs k s pts b n c d : inv k s pts -> pts !! current s = Some (Marked b n c d) -> runs k Go s pts.
Proof.
  intros I Ep. pose proof (iv_ok _ _ _ I) as H. pose proof (suspended_of k s pts _ I Ep eq_refl) as Hs.
  pose proof (current_not_idle k s pts _ I Ep ltac:(discriminate)) as Ni. pose proof (iv_points _ _ _ I _ _ Ep) as P.
  unfold runs, act. unfold bind at 1, get. cbv beta iota zeta. rewrite Ep. destruct b; cbn [take_block].
  - destruct P as (P1 & P2 & P3 & P4). destruct (block_spec n s H P2 P1) as (s' & E & B). pose proof (bl_tasks _ _ _ B) as Sm.
    exists s', (<[current s := Placed true c d]> pts). split; [now rewrite (bind_done _ _ _ _ _ E) | split].
    + assert (Wx : waiting s' (current s) <-> waiting s (current s)) by (unfold waiting, state_of; now rewrite (st_state _ _ Sm)).
      assert (Nr : current s ∉ ready_tasks s') by (rewrite (bl_ready _ _ _ B); tauto).
      apply (inv_own k s s' pts _ I).
      * apply (bl_ok _ _ _ B).
      * apply Sm.
      * exact Ni.
      * intros _. apply (st_current _ _ Sm).
      * now rewrite (bl_suspended _ _ _ B).
      * apply Sm.
      * apply (same_tasks_counts k s s' Sm), (iv_counts _ _ _ I).
      * intros y q Ny _. apply point_still. split.
        -- apply (st_state _ _ Sm).
        -- apply (st_notified _ _ Sm).
        -- rewrite (bl_ready _ _ _ B). tauto.
        -- now rewrite (bl_pending _ _ _ B).
        -- rewrite (bl_deadline _ _ _ B). now rewrite decide_False.
        -- apply (bl_time _ _ _ B).
      * split; [| discriminate]. destruct P4 as [P4 | (P4 & P5 & P6)].
        -- right. right. rewrite Wx, (bl_deadline _ _ _ B), decide_True by reflexivity. auto.
        -- left. rewrite Wx. unfold count_of. rewrite (st_notified _ _ Sm), (bl_pending _ _ _ B). auto.
      * left. apply (st_current _ _ Sm).
      * discriminate.
      * now rewrite Ep.
    + intros y. symmetry. apply (same_dom prio), Sm.
  - exists s, (<[current s := Placed false c d]> pts). split; [reflexivity | split; [| reflexivity]]. destruct P as [P1 P2].
    apply (inv_own k s s pts _ I H); try reflexivity; auto; try discriminate; [apply (iv_counts _ _ _ I) | now split].
Qed.

Lemma resumed_later s s' y : resumed s s' -> 0 <= xPendedTicks s -> later y s s'.
Proof.
  intros R Hp. pose proof (rs_tasks _ _ R) as Sm. split.
  - apply (st_state _ _ Sm).
  - apply (st_notified _ _ Sm).
  - rewrite (rs_time _ _ R). lia.
  - intros K. apply (rs_ready _ _ R). now left.
  - intros K. apply (rs_ready _ _ R). right. now left.
  - intros K. apply (rs_ready _ _ R) in K as [K | [K | K]]; auto.
  - intros K. rewrite (rs_ready _ _ R) in K. rewrite (rs_deadline _ _ R). rewrite decide_False by tauto.
    destruct (deadline s y) as [d |] eqn:E; [| reflexivity]. cbn. destruct (Z.leb_spec d (abs_tick s')); [| reflexivity]. destruct K. eauto.
Qed.

Lemma resume_runs k s pts b c d : inv k s pts -> pts !! current s = Some (Placed b c d) -> runs k Go s pts.
Proof.
  intros I Ep. pose proof (iv_ok _ _ _ I) as H. pose proof (suspended_of k s pts _ I Ep eq_refl) as Hs.
  pose proof (current_not_idle k s pts _ I Ep ltac:(discriminate)) as Ni. destruct (iv_points _ _ _ I _ _ Ep) as [P1 P2].
  destruct (resume_spec s H Hs) as (s' & E & R). pose proof (rs_tasks _ _ R) as Sm.
  pose proof (fun y => resumed_later s s' y R (so_pended s H)) as La.
  unfold runs, act. unfold bind at 1, get. cbv beta iota zeta. rewrite Ep. exists s', (<[current s := Resumed b c d]> pts).
  split; [now rewrite (bind_done _ _ _ _ _ E) | split; [| intros y; symmetry; apply (same_dom prio), Sm]].
  apply (inv_own k s s' pts _ I).
  - apply (rs_ok _ _ R).
  - apply Sm.
  - exact Ni.
  - intros _. apply (st_current _ _ Sm).
  - apply (rs_suspended _ _ R).
  - apply Sm.
  - apply (same_tasks_counts k s s' Sm), (iv_counts _ _ _ I).
  - intros y q _ B. exact (point_later s s' y q H (La y) B).
  - split; [exact (settled_later s s' _ d H (La _) P1) | intros Eb; apply (lt_ready _ _ _ (La _)); auto].
  - left. apply (st_current _ _ Sm).
  - discriminate.
  - now rewrite Ep.
Qed.

Lemma yield_runs k s pts b c d : inv k s pts -> pts !! current s = Some (Resumed b c d) -> runs k Go s pts.
Proof.
  intros I Ep. pose proof (iv_ok _ _ _ I) as H. pose proof (not_suspended k s pts _ I Ep eq_refl) as Hs.
  pose proof (current_not_idle k s pts _ I Ep ltac:(discriminate)) as Ni. destruct (iv_points _ _ _ I _ _ Ep) as [P1 P2].
  assert (K : exists s', take_yield b s = Done tt s' /\ sched_ok s' /\ suspended s' = 0 /\ current s' ∈ ready_tasks s' /\ tasks s' = tasks s /\ forall y, still y s s').
  { destruct b; [exact (switch_any k s pts I Hs) |]. exists s. split; [reflexivity |]. split; [exact H |]. split; [exact Hs |]. split; [auto |]. split; [reflexivity | now split]. }
  destruct K as (s' & E & O & S & C & Et & St).
  unfold runs, act. unfold bind at 1, get. cbv beta iota zeta. rewrite Ep. exists s', (<[current s := Leaving c d]> pts).
  split; [now rewrite (bind_done _ _ _ _ _ E) | split; [| intros y; now rewrite Et]].
  apply (inv_own k s s' pts _ I).
  - exact O.
  - intros y. now rewrite Et.
  - exact Ni.
  - discriminate.
  - exact S.
  - now apply tasks_no_new.
  - intros x n. unfold count_of. rewrite Et. apply (iv_counts _ _ _ I).
  - intros y q _ _. apply point_still, St.
  - exact (point_still s s' (current s) (Leaving c d) (St _) P1).
  - now right.
  - auto.
  - now rewrite Ep.
Qed.

Lemma finish_runs k s pts c d : inv k s pts -> pts !! current s = Some (Leaving c d) -> runs k Go s pts.
Proof.
  intros I Ep. pose proof (iv_ok _ _ _ I) as H. pose proof (not_suspended k s pts _ I Ep eq_refl) as Hs.
  pose proof (current_not_idle k s pts _ I Ep ltac:(discriminate)) as Ni. pose proof (iv_running _ _ _ I _ _ Ep) as Hr.
  destruct (so_current s H) as [t Et]. assert (Ct : count_of s (current s) = Some (notified t)) by (unfold count_of; now rewrite Et).
  pose proof (iv_counts _ _ _ I _ _ Ct) as Bt.
  set (v := if notified t =? 0 then 0 else if c then 0 else u32 (notified t - 1)).
  set (s' := upd (current s) (set_notify v taskNOT_WAITING_NOTIFICATION) s).
  assert (Hv : 0 <= v <= k).
  { unfold v. destruct (Z.eqb_spec (notified t) 0); [lia |]. destruct c; [lia |]. unfold u32.
    pose proof (Z.mod_pos_bound (notified t - 1) 4294967296 eq_refl). pose proof (Z.mod_le (notified t - 1) 4294967296 ltac:(lia) eq_refl). lia. }
  unfold runs, act. unfold bind at 1, get. cbv beta iota zeta. rewrite Ep. exists s', (<[current s := Outside]> pts). split; [| split].
  - unfold take_finish. unfold bind at 1. unfold bind at 1, get. unfold bind at 1, load. rewrite Et. reflexivity.
  - apply (inv_own k s s' pts _ I).
    + now apply (set_notify_ok _ _ _ t).
    + intros y. unfold s'. now rewrite (upd_field prio).
    + exact Ni.
    + discriminate.
    + exact Hs.
    + apply set_notify_no_new.
    + apply (count_bound k); [apply (iv_counts _ _ _ I) | exact Hv | eauto].
    + intros y q Ny _. now apply point_still, set_notify_still.
    + split; [| exact Hr]. unfold waiting, s'. rewrite set_notify_state, decide_True by eauto. discriminate.
    + now left.
    + discriminate.
    + now rewrite Ep.
  - intros y. symmetry. apply (same_dom prio). intros z. unfold s'. now rewrite (upd_field prio).
Qed.

Lemma go_runs k s pts : inv k s pts -> runs k Go s pts.
Proof.
  intros I. destruct (pts !! current s) as [[| n c | b n c d | b c d | b c d | c d] |] eqn:Ep.
  2: exact (mark_runs k s pts n c I Ep).
  2: exact (block_runs k s pts b n c d I Ep).
  2: exact (resume_runs k s pts b c d I Ep).
  2: exact (yield_runs k s pts b c d I Ep).
  2: exact (finish_runs k s pts c d I Ep).
  all: unfold runs, act; unfold bind at 1, get; cbv beta iota zeta; rewrite Ep; exists s, pts; split; [reflexivity | split; [exact I | reflexivity]].
Qed.

Lemma inv_weaken k k' s pts : inv k s pts -> k <= k' -> inv k' s pts.
Proof. intros [I1 I2 I3 I4 I5 I6 I7 I8 I9] L. split; auto. intros x n E. specialize (I9 x n E). lia. Qed.

Lemma act_runs k s pts e : inv k s pts -> input_ok s e -> k < 0xffffffff -> runs (k + 1) e s pts.
Proof.
  intros I He Hk. assert (W : runs k e s pts -> runs (k + 1) e s pts).
  { intros (s' & pts' & E & I' & D). exists s', pts'. split; [exact E |]. split; [apply (inv_weaken k); auto; lia | exact D]. }
  destruct e as [| x | | n c |]; [apply W, tick_runs, I | destruct He; now apply give_runs | apply W, switch_runs, I | now apply W, take_runs | apply W, go_runs, I].
Qed.

Lemma acts_run : forall l k s pts, inv k s pts -> Forall (input_ok s) l -> k + Z.of_nat (length l) <= 0xffffffff ->
  exists s' pts', acts l pts s = Done pts' s' /\ inv (k + Z.of_nat (length l)) s' pts'.
Proof.
  induction l as [| e l IH]; intros k s pts I F Hk.
  { exists s, pts. split; [reflexivity |]. cbn. now rewrite Z.add_0_r. }
  apply Forall_cons in F as [He F]. cbn [length] in *. destruct (act_runs k s pts e I He) as (s1 & pts1 & E & I1 & D); [lia |].
  destruct (IH (k + 1) s1 pts1 I1) as (s' & pts' & E' & I').
  - eapply Forall_impl; [exact F |]. intros [| x | | n c |]; cbn; auto. rewrite D. auto.
  - lia.
  - exists s', pts'. cbn [acts]. rewrite (bind_done _ _ _ _ _ E). split; [exact E' |]. replace (k + Z.of_nat (S (length l))) with (k + 1 + Z.of_nat (length l)) by lia. exact I'.
Qed.

Lemma started_inv s pts : started s pts -> inv 0 s pts.
Proof.
  intros [O Hs T P Hi].
  assert (Q : forall x p, pts !! x = Some p -> p = Outside /\ exists t, tasks s !! x = Some t).
  { intros x p. rewrite P. destruct (tasks s !! x) as [t |]; [intros [= <-]; eauto | discriminate]. }
  split; auto.
  - intros x. now rewrite P, fmap_is_Some.
  - intros x p E. destruct (Q x p E) as (-> & t & Et). destruct (T x t Et) as (T1 & T2 & T3 & T4). split; [| exact T1].
    unfold waiting, state_of. rewrite Et. now intros [= K].
  - intros x p E B. destruct (Q x p E) as (-> & _). discriminate.
  - intros c d E. now destruct (Q _ _ E).
  - rewrite P. destruct Hi as [t ->]. reflexivity.
  - intros x l. unfold event_of. destruct (tasks s !! x) as [t |] eqn:Et; [| discriminate]. destruct (T x t Et) as (_ & T2 & _). cbn. now rewrite T2.
  - intros x n. unfold count_of. destruct (tasks s !! x) as [t |] eqn:Et; [| discriminate]. destruct (T x t Et) as (_ & _ & T3 & _). cbn. intros [= <-]. lia.
Qed.

(** C21: A task in [ulTaskNotifyTake] is ready exactly if it has a notification or the time of its call is over, however the ticks,
    the interrupts that notify, and the switches fall between the critical sections of the calls. *)
Theorem notified_or_timed_out s pts l : started s pts -> Forall (input_ok s) l -> Z.of_nat (length l) <= 0xffffffff ->
  exists s' pts', acts l pts s = Done pts' s' /\
    forall x c d, pts' !! x = Some (Leaving c d) -> suspended s' = 0 ->
      (x ∈ ready_tasks s' <-> count_of s' x <> Some 0 \/ exists t, d = Some t /\ t <= abs_tick s').
Proof.
  intros S F Hl. destruct (acts_run l 0 s pts (started_inv s pts S) F Hl) as (s' & pts' & E & I).
  exists s', pts'. split; [exact E |]. intros x c d Ep Hs. pose proof (iv_ok _ _ _ I) as H.
  assert (C : waiting s' x -> count_of s' x = Some 0).
  { unfold waiting, state_of, count_of. destruct (tasks s' !! x) as [t |] eqn:Et; [| discriminate]. intros [= W]. cbn.
    now rewrite (proj2 (eo_waiting s' (so_events s' H) x t Et W)). }
  destruct (iv_points _ _ _ I _ _ Ep) as [(A & B & D) | [(A & B & D) | (A & B & D)]].
  - rewrite (so_running s' H Hs) in D. destruct D as [D | D]; [| inversion D]. tauto.
  - split; auto.
  - split; [easy |]. intros [K | (t & K & Lt)]; [now destruct (K (C A)) |]. rewrite K in D. pose proof (deadline_later s' x t (so_time s' H) D). lia.
Qed.
End Notify.
