(* ===== verification/SchedStart.v ===== *)
(** The scheduler when it starts: tasks in their ready lists. *)
From Stdlib Require Import ZArith Lia Bool.
From stdpp Require Import base decidable list gmap sorting.
From S2P Require Import Prelude Queue Tasks EtharpTable Sched SchedProofs SchedSwitch SchedBlock SchedGive SchedNotify.

(** A task that has not run yet. *)
Definition new_task (p : Z) : stcb := mk_stcb p 0 NoList 0 taskNOT_WAITING_NOTIFICATION.

(** The tasks, given the ready lists from priority [i] on. *)
Fixpoint tasks_of (i : Z) (l : list (list Z)) : gmap Z stcb :=
  match l with [] => ∅ | k :: l' => foldr (fun x => <[x := new_task i]>) (tasks_of (i + 1) l') k end.

Fixpoint mask_of (i : Z) (l : list (list Z)) : Z :=
  match l with [] => 0 | k :: l' => (if decide (k = []) then 0 else bit i) .| mask_of (i + 1) l' end.

(** Every list's [pxIndex] is its end marker. *)
Definition boot_sched (l : list (list Z)) (cur : Z) : sched :=
  mk_sched (tasks_of 0 l) cur (mask_of 0 l) ((fun k => mk_cyc (Some <$> k) None) <$> l) [] [] [] [] ∅ 0 0 0 portMAX_DELAY 0 pdFALSE.

Lemma foldr_insert k i (m : gmap Z stcb) x : foldr (fun x => <[x := new_task i]>) m k !! x = if decide (x ∈ k) then Some (new_task i) else m !! x.
Proof.
  induction k as [| y k IH]; [now rewrite decide_False by apply not_elem_of_nil |]. cbn. rewrite lookup_insert, IH.
  destruct (decide (y = x)) as [-> | N]; [now rewrite decide_True by left |]. apply decide_ext. rewrite elem_of_cons. split; [tauto |]. intros [K | K]; [congruence | exact K].
Qed.

Lemma tasks_of_lookup x : forall l i t, NoDup (concat l) ->
  tasks_of i l !! x = Some t <-> exists p k, l !! p = Some k /\ x ∈ k /\ t = new_task (i + Z.of_nat p).
Proof.
  induction l as [| k l IH]; intros i t D; cbn [tasks_of].
  { rewrite lookup_empty. split; [discriminate | intros (p & k & E & _); discriminate]. }
  apply NoDup_app in D as (D1 & D2 & D3). rewrite foldr_insert. destruct (decide (x ∈ k)) as [K | K].
  - split.
    + intros [= <-]. exists 0%nat, k. split; [reflexivity |]. split; [exact K | f_equal; lia].
    + intros ([| p] & k' & E & Hx & ->); cbn in E; [f_equal; f_equal; lia |]. destruct (D2 x K). apply list_elem_of_In, in_concat.
      exists k'. split; [apply list_elem_of_In; now apply list_elem_of_lookup_2 in E | now apply list_elem_of_In].
  - rewrite (IH (i + 1) t D3). split.
    + intros (p & k' & E & Hx & ->). exists (S p), k'. split; [exact E |]. split; [exact Hx | f_equal; lia].
    + intros ([| p] & k' & E & Hx & ->); cbn in E; [injection E as ->; easy |]. exists p, k'. split; [exact E |]. split; [exact Hx | f_equal; lia].
Qed.

Lemma mask_of_bit q : forall l i, 0 <= i -> 0 <= q ->
  Z.testbit (mask_of i l) q = true <-> i <= q /\ exists k, l !! Z.to_nat (q - i) = Some k /\ k <> [].
Proof.
  induction l as [| k l IH]; intros i Hi Hq; cbn [mask_of].
  { rewrite Z.testbit_0_l. split; [discriminate | intros (_ & k & E & _); now rewrite lookup_nil in E]. }
  rewrite Z.lor_spec, orb_true_iff, IH by lia.
  assert (B : Z.testbit (if decide (k = []) then 0 else bit i) q = true <-> q = i /\ k <> []).
  { destruct (decide (k = [])) as [-> | N]; [rewrite Z.testbit_0_l; split; [discriminate | tauto] |]. unfold bit. rewrite Z.shiftl_spec by exact Hq.
    destruct (Z.eq_dec q i) as [-> | Nq]; [rewrite Z.sub_diag; cbn; tauto |]. split; [| tauto]. intros K. exfalso.
    destruct (Z.ltb_spec q i); [rewrite Z.testbit_neg_r in K by lia; discriminate |]. change 1 with (2 ^ 0) in K. rewrite Z.pow2_bits_false in K by lia. discriminate. }
  rewrite B. split.
  - intros [[-> N] | (L & k' & E & N)]; [split; [lia |]; exists k; now rewrite Z.sub_diag |]. split; [lia |]. exists k'.
    replace (Z.to_nat (q - i)) with (S (Z.to_nat (q - (i + 1)))) by lia. now split.
  - intros (L & k' & E & N). destruct (Z.eq_dec q i) as [-> | Nq]; [left; rewrite Z.sub_diag in E; injection E as ->; now split |].
    right. split; [lia |]. exists k'. replace (Z.to_nat (q - i)) with (S (Z.to_nat (q - (i + 1)))) in E by lia. now split.
Qed.

Lemma mask_of_nonneg l : forall i, 0 <= mask_of i l.
Proof.
  induction l as [| k l IH]; intros i; cbn [mask_of]; [lia |]. apply Z.lor_nonneg. split; [| apply IH].
  destruct (decide _); [lia |]. apply Z.shiftl_nonneg. lia.
Qed.

Lemma fresh_members k : members (mk_cyc (Some <$> k) None) = k.
Proof. unfold members, cyc_items. cbn. rewrite members_app. cbn. rewrite app_nil_r. induction k as [| x k IH]; [reflexivity |]. cbn. now rewrite IH. Qed.

Lemma fresh_ok k : NoDup k -> cyc_ok (mk_cyc (Some <$> k) None).
Proof.
  intros D. split; unfold cyc_items; cbn; [| apply elem_of_app; right; left]. apply NoDup_app. split; [apply NoDup_fmap_2; [intros x y [=]; assumption | exact D] |].
  split; [| apply NoDup_singleton]. intros x K. apply list_elem_of_fmap in K as (y & -> & _). rewrite list_elem_of_singleton. discriminate.
Qed.

Definition boot_points (l : list (list Z)) : gmap Z point := (fun _ => Outside) <$> tasks_of 0 l.

Section Boot.
Context (l : list (list Z)) (cur idle : Z) (Hl : length l = Z.to_nat configMAX_PRIORITIES) (Hd : NoDup (concat l))
  (Hc : cur ∈ concat l) (Hi : idle ∈ concat l).

#[local] Lemma boot_members : members <$> ready (boot_sched l cur) = l.
Proof. cbn. rewrite <- list_fmap_compose. rewrite <- (list_fmap_id l) at 2. apply list_fmap_ext. intros i k _. apply fresh_members. Qed.

#[local] Lemma boot_places : places (boot_sched l cur) = concat l.
Proof. unfold places. rewrite boot_members. cbn. apply app_nil_r. Qed.

#[local] Lemma boot_task x : x ∈ concat l <-> is_Some (tasks_of 0 l !! x).
Proof.
  rewrite list_elem_of_In, in_concat. split.
  - intros (k & Hk & Hx). apply list_elem_of_In, list_elem_of_lookup in Hk as [p Ep]. exists (new_task (0 + Z.of_nat p)).
    apply (tasks_of_lookup x l 0 _ Hd). exists p, k. rewrite list_elem_of_In. auto.
  - intros [t E]. apply (tasks_of_lookup x l 0 _ Hd) in E as (p & k & E & Hx & _). exists k. rewrite <- !list_elem_of_In.
    split; [now apply list_elem_of_lookup_2 in E | exact Hx].
Qed.

#[local] Lemma boot_ready p c : ready (boot_sched l cur) !! p = Some c -> exists k, l !! p = Some k /\ c = mk_cyc (Some <$> k) None.
Proof. cbn. rewrite list_lookup_fmap. destruct (l !! p) as [k |]; [intros [= <-]; eauto | discriminate]. Qed.

Lemma boot_lists : lists_ok (boot_sched l cur).
Proof.
  split.
  - cbn [ready boot_sched]. now rewrite length_fmap.
  - apply Forall_lookup_2. intros p c E. destruct (boot_ready p c E) as (k & Ek & ->). apply fresh_ok. clear - Hd Ek. revert p Ek.
    induction l as [| k0 l0 IH]; intros p Ek; [discriminate |]. cbn in Hd. apply NoDup_app in Hd as (D1 & _ & D2).
    destruct p as [| p]; [now injection Ek as <- | eauto].
  - rewrite boot_places. exact Hd.
  - intros x. rewrite boot_places. apply boot_task.
  - intros p c x t E Hx Et. destruct (boot_ready p c E) as (k & Ek & ->). rewrite fresh_members in Hx.
    assert (Q : tasks_of 0 l !! x = Some (new_task (0 + Z.of_nat p))) by (apply (tasks_of_lookup x l 0 _ Hd); eauto).
    cbn [tasks boot_sched] in Et. rewrite Q in Et. injection Et as <-. cbn. lia.
  - intros x t Et. apply (tasks_of_lookup x l 0 _ Hd) in Et as (p & k & E & _ & ->). apply lookup_lt_Some in E. rewrite Hl in E. cbn. unfold configMAX_PRIORITIES in *. lia.
  - split; [apply mask_of_nonneg |]. intros p Hp. cbn [top_ready boot_sched]. rewrite mask_of_bit by lia. rewrite Z.sub_0_r. split.
    + intros (_ & k & E & N). exists (mk_cyc (Some <$> k) None). rewrite fresh_members. split; [cbn [ready boot_sched]; now rewrite list_lookup_fmap, E | exact N].
    + intros (c & E & N). destruct (boot_ready _ c E) as (k & Ek & ->). rewrite fresh_members in N. eauto.
Qed.

Lemma boot_sched_ok : sched_ok (boot_sched l cur).
Proof.
  split.
  - exact boot_lists.
  - split; cbn; try constructor; unfold portMAX_DELAY; try lia; constructor.
  - split.
    + intros x L E. cbn in E. now rewrite lookup_empty in E.
    + split; constructor.
    + intros x t E W. apply (tasks_of_lookup x l 0 _ Hd) in E as (p & k & _ & _ & ->). discriminate.
    + intros x E. unfold event_of in E. destruct (tasks (boot_sched l cur) !! x) as [t |] eqn:Et; [| discriminate].
      apply (tasks_of_lookup x l 0 _ Hd) in Et as (p & k & _ & _ & ->). discriminate.
  - cbn. now apply boot_task.
  - reflexivity.
  - cbn. lia.
Qed.

Lemma boot_started : started idle (boot_sched l cur) (boot_points l).
Proof.
  split.
  - exact boot_sched_ok.
  - reflexivity.
  - intros x t E. split; [unfold ready_tasks; rewrite boot_members; apply boot_task; eauto |].
    apply (tasks_of_lookup x l 0 _ Hd) in E as (p & k & _ & _ & ->). now split.
  - intros x. apply lookup_fmap.
  - now apply boot_task.
Qed.
End Boot.

(** * Three tasks *)

(** The idle task 1, and the tasks 2 and 3 of the application, each with a priority of its own. *)
Definition ex_lists : list (list Z) := [[1]; [2]; [3]; []; []].
Definition ex_boot : sched := boot_sched ex_lists 3.

Lemma ex_started : started 1 ex_boot (boot_points ex_lists).
Proof. apply boot_started; [reflexivity | | |]; vm_compute; repeat (constructor || (rewrite ?elem_of_cons, ?elem_of_nil; lia)). Qed.

(** Two tasks that take turns. *)
Definition ex_pair : sched := boot_sched [[1]; [2; 3]; []; []; []] 3.

Lemma ex_pair_ok : sched_ok ex_pair.
Proof. apply boot_sched_ok; [reflexivity | |]; vm_compute; repeat (constructor || (rewrite ?elem_of_cons, ?elem_of_nil; lia)). Qed.

Definition state_after {A} (r : outcome sched A) : sched := match r with Done _ s => s | _ => ex_boot end.

(** Task 3 waits for ten ticks; nine have passed. *)
Definition ex_blocked : sched := state_after (prvAddCurrentTaskToDelayedList 10 true ex_boot).
Definition ex_delayed : sched := state_after (pended_loop 9 ex_blocked).

Lemma ex_delayed_ok : sched_ok ex_delayed /\ suspended ex_delayed = 0 /\ deadline ex_delayed 3 = Some (abs_tick ex_delayed + 1).
Proof.
  assert (O : sched_ok ex_boot) by exact (sd_ok _ _ _ ex_started).
  destruct (block_spec 10 ex_boot O) as (s1 & E1 & B); [unfold portMAX_DELAY; lia | vm_compute; repeat (left || right) |].
  assert (S1 : ex_blocked = s1) by (unfold ex_blocked; now rewrite E1). rewrite <- S1 in B. clear S1 E1.
  destruct (pended_loop_run 9 ex_blocked (bl_ok _ _ _ B) eq_refl) as (s2 & E2 & L & _).
  assert (S2 : ex_delayed = s2) by (unfold ex_delayed; now rewrite E2). rewrite <- S2 in L.
  split; [apply L | now vm_compute].
Qed.

Lemma xTaskIncrementTick_wakes_witness : exists s', xTaskIncrementTick ex_delayed = Done pdFALSE s' /\ 3 ∈ ready_tasks s' /\ (3 ∉ ready_tasks ex_delayed).
Proof.
  destruct ex_delayed_ok as (O & S & D). destruct (xTaskIncrementTick_wakes ex_delayed O S) as (s' & E & _ & _ & R & _).
  exists s'. split; [exact E |]. split; [apply R; now right |]. apply (bool_decide_unpack _). vm_compute. exact I.
Defined.

Lemma tasks_take_turns_witness : exists s', switches 2 ex_pair = Done tt s' /\ current s' = 3 /\ prio_of s' 3 = 1.
Proof.
  destruct (tasks_take_turns ex_pair 1 (mk_cyc [Some 2; Some 3] None) 1 3 ex_pair_ok) as (_ & s' & c' & E & _ & C & P & _).
  - reflexivity.
  - split; [reflexivity |]. split; [discriminate |]. intros [| [| [| [| [| q]]]]] d Hq; cbn; (lia || (intros [= <-]; reflexivity) || discriminate).
  - reflexivity.
  - exists s'. auto.
Defined.

(** Task 3 waits without limit, task 2 for ten ticks; the interrupt comes while task 2 is about to block, and then ticks. *)
Definition ex_inputs : list input :=
  [Take portMAX_DELAY true; Go; Go; Go; Go; Take 10 true; Go; Go; Tick; Give 3; Go; Go; Tick; Tick].

Lemma ex_inputs_ok : Forall (input_ok ex_boot) ex_inputs.
Proof. repeat constructor; cbn; unfold portMAX_DELAY; try lia; vm_compute; eauto. Qed.

(** Task 3 has been notified while the scheduler was suspended, and runs; task 2 is still waiting. *)
Example ex_run : exists s pts, acts 1 ex_inputs (boot_points ex_lists) ex_boot = Done pts s /\
  current s = 3 /\ ready_tasks s = [1; 3] /\ deadline s 2 = Some 10 /\ abs_tick s = 3 /\ suspended s = 0 /\
  pts !! 2 = Some (Leaving true (Some 10)) /\ pts !! 3 = Some (Leaving true None).
Proof. eexists _, _. split; [vm_compute; reflexivity | now vm_compute]. Qed.

Lemma notified_or_timed_out_witness : exists s pts, acts 1 ex_inputs (boot_points ex_lists) ex_boot = Done pts s /\
  (forall c d, pts !! 3 = Some (Leaving c d) -> suspended s = 0 -> 3 ∈ ready_tasks s <-> count_of s 3 <> Some 0 \/ exists t, d = Some t /\ t <= abs_tick s).
Proof.
  destruct (notified_or_timed_out 1 ex_boot (boot_points ex_lists) ex_inputs ex_started ex_inputs_ok) as (s & pts & E & H); [cbn; lia |].
  exists s, pts. split; [exact E | intros c d; apply H].
Defined.
