(* ===== verification/SchedDelay.v ===== *)
(** Delays: [vTaskDelay] and [xTaskDelayUntil] of [FreeRTOS/tasks.c]. *)
From Stdlib Require Import ZArith Lia Bool.
From stdpp Require Import base decidable list gmap sorting.
From S2P Require Import Prelude Queue Tasks Sched SchedProofs SchedSwitch SchedBlock SchedNotify SchedStart.

#[local] Abbreviation M := (prog sched).

Section Delay.
Variable interrupts : M unit.      (** what happens while the scheduler is suspended *)

(** The part between suspending and resuming the scheduler has blocked the task, or has not. *)
Definition resume_and_yield : M unit :=
  xAlreadyYielded <- xTaskResumeAll ;;
  if xAlreadyYielded =? pdFALSE then vTaskSwitchContext else ret tt.

Definition vTaskDelay (xTicksToDelay : Z) : M unit :=
  if 0 <? xTicksToDelay then
    vTaskSuspendAll ;;
    s <- get ;;
    configASSERT (suspended s =? 1) ;;
    prvAddCurrentTaskToDelayedList xTicksToDelay false ;;
    interrupts ;;
    resume_and_yield
  else vTaskSwitchContext.

(** Whether to delay, and until when. *)
Definition wakes_later (xConstTickCount previous xTimeToWake : Z) : bool :=
  if xConstTickCount <? previous then (xTimeToWake <? previous) && (xConstTickCount <? xTimeToWake)
  else (xTimeToWake <? previous) || (xConstTickCount <? xTimeToWake).

(** The result, and what is left in [*pxPreviousWakeTime]. *)
Definition xTaskDelayUntil (pxPreviousWakeTime : option Z) (xTimeIncrement : Z) : M (Z * Z) :=
  configASSERT (bool_decide (is_Some pxPreviousWakeTime)) ;;
  configASSERT (0 <? xTimeIncrement) ;;
  match pxPreviousWakeTime with
  | None => undefined
  | Some previous =>
    vTaskSuspendAll ;;
    s <- get ;;
    let xConstTickCount := tick s in
    configASSERT (suspended s =? 1) ;;
    let xTimeToWake := u32 (previous + xTimeIncrement) in
    let xShouldDelay := wakes_later xConstTickCount previous xTimeToWake in
    (if xShouldDelay then prvAddCurrentTaskToDelayedList (u32 (xTimeToWake - xConstTickCount)) false else ret tt) ;;
    interrupts ;;
    resume_and_yield ;;
    ret (if xShouldDelay then pdTRUE else pdFALSE, xTimeToWake)
  end.
End Delay.

(** The tick interrupt, [k] times. *)
Fixpoint ticks (k : nat) : M unit := match k with O => ret tt | S k' => xTaskIncrementTick ;; ticks k' end.

(** * Ticks while the scheduler is suspended *)

Record counted_ticks (k : nat) (s s' : sched) : Prop := {
  ct_ok : sched_ok s';
  ct_pended : xPendedTicks s' = xPendedTicks s + Z.of_nat k;
  ct_tasks : same_tasks s s';
  ct_suspended : suspended s' = suspended s;
  ct_time : abs_tick s' = abs_tick s;
  ct_pending : pending s' = pending s;
  ct_ready : ready_tasks s' = ready_tasks s;
  ct_deadline : forall y, deadline s' y = deadline s y
}.

Lemma ticks_counted k : forall s, sched_ok s -> suspended s <> 0 -> xPendedTicks s + Z.of_nat k < 4294967296 ->
  exists s', ticks k s = Done tt s' /\ counted_ticks k s s'.
Proof.
  induction k as [| k IH]; intros s H N B; cbn [ticks].
  - exists s. split; [reflexivity |]. split; auto; [lia | now split].
  - set (s1 := with_time (tick s) (u32 (xPendedTicks s + 1)) (xNumOfOverflows s) (next_unblock s) s).
    assert (E : xTaskIncrementTick s = Done pdFALSE s1).
    { unfold xTaskIncrementTick. unfold bind at 1, get at 1. rewrite (proj2 (Z.eqb_neq _ 0)) by exact N. now rewrite bind_modify. }
    rewrite (bind_done _ _ _ _ _ E). pose proof (so_pended s H) as P.
    assert (U : u32 (xPendedTicks s + 1) = xPendedTicks s + 1) by (unfold u32; apply Z.mod_small; lia).
    assert (O1 : sched_ok s1).
    { destruct H as [L T Ev Hc Hp Hq]. split; [now destruct L | now destruct T | now destruct Ev | exact Hc | exact Hp | cbn; lia]. }
    destruct (IH s1 O1 N) as (s' & E' & [C1 C2 C3 C4 C5 C6 C7 C8]); [cbn; lia |]. exists s'. split; [exact E' |].
    split; auto; [rewrite C2; cbn; lia |]. destruct C3. now split.
Qed.

(** The scheduler is resumed after [k] ticks, and another task runs. *)
Record slept (k : nat) (s s' : sched) : Prop := {
  sp_ok : sched_ok s';
  sp_suspended : suspended s' = 0;
  sp_time : abs_tick s' = abs_tick s + Z.of_nat k;
  sp_pended : xPendedTicks s' = 0;
  sp_deadline : forall x, deadline s' x = left_at (abs_tick s') (deadline s x);
  sp_ready : forall x, x ∈ ready_tasks s' <-> x ∈ ready_tasks s \/ exists d, deadline s x = Some d /\ d <= abs_tick s';
  sp_running : current s' ∈ ready_tasks s'
}.

Lemma switch_to_ready s : sched_ok s -> suspended s = 0 -> ready_tasks s <> [] ->
  exists s', vTaskSwitchContext s = Done tt s' /\ sched_ok s' /\ suspended s' = 0 /\ current s' ∈ ready_tasks s' /\
    (forall x, x ∈ ready_tasks s' <-> x ∈ ready_tasks s) /\ (forall y, deadline s' y = deadline s y) /\ abs_tick s' = abs_tick s /\ xPendedTicks s' = xPendedTicks s.
Proof.
  intros H Hs N. destruct (top_list_exists s (so_lists s H) N) as (p & c & Tl & _).
  destruct (members c) as [| x r] eqn:Em; [now destruct Tl as (_ & K & _); destruct K |].
  destruct (switch_context_run s p c x r H Hs Tl Em) as (s' & E & O & S & C & _ & R & _ & _ & D & A & P & _).
  exists s'. do 3 (split; [assumption |]). split; [| now split]. apply R. rewrite C. apply ready_lookup. exists p, c. split; [apply Tl | rewrite Em; left].
Qed.

Lemma resume_after k s : sched_ok s -> suspended s = 1 -> xPendedTicks s = 0 -> Z.of_nat k < 4294967296 -> pending s = [] -> ready_tasks s <> [] ->
  exists s', (ticks k ;; resume_and_yield) s = Done tt s' /\ slept k s s'.
Proof.
  intros H Hs Hp Hk Hpe N. destruct (ticks_counted k s H ltac:(lia) ltac:(lia)) as (s1 & E1 & C).
  destruct (resume_spec s1 (ct_ok _ _ _ C)) as (s2 & E2 & R); [now rewrite (ct_suspended _ _ _ C) |].
  assert (R2 : forall x, x ∈ ready_tasks s2 <-> x ∈ ready_tasks s \/ exists d, deadline s x = Some d /\ d <= abs_tick s2).
  { intros x. rewrite (rs_ready _ _ R), (ct_ready _ _ _ C), (ct_pending _ _ _ C), Hpe, (ct_deadline _ _ _ C), elem_of_nil. tauto. }
  destruct (switch_to_ready s2) as (s3 & E3 & O & S & Cu & Rd & D & A & P); [apply R | apply R | |].
  { destruct (ready_tasks s) as [| y l] eqn:E; [easy |]. intros K. assert (Hy : y ∈ ready_tasks s2) by (apply R2; left; left). rewrite K in Hy. inversion Hy. }
  exists s3. split.
  - rewrite (bind_done _ _ _ _ _ E1). unfold resume_and_yield. rewrite (bind_done _ _ _ _ _ E2). exact E3.
  - split; auto.
    + rewrite A, (rs_time _ _ R), (ct_time _ _ _ C), (ct_pended _ _ _ C). lia.
    + now rewrite P, (rs_pended _ _ R).
    + intros x. rewrite D, (rs_deadline _ _ R), (ct_pending _ _ _ C), Hpe, decide_False by apply not_elem_of_nil. now rewrite A, (ct_deadline _ _ _ C).
    + intros x. now rewrite Rd, A, R2.
Qed.

Lemma suspend_ok s : sched_ok s -> suspended s = 0 -> sched_ok (with_suspended 1 s).
Proof. intros [L T Ev Hc Hp Hq] Hs. split; [now destruct L | now destruct T | now destruct Ev | exact Hc | discriminate | exact Hq]. Qed.

(** The current task, with [n] ticks to wait, after [k] ticks. *)
Lemma sleep_run k n s : sched_ok s -> suspended s = 0 -> xPendedTicks s = 0 -> Z.of_nat k < 4294967296 -> current s ∈ ready_tasks s ->
  (exists x, x ∈ ready_tasks s /\ x <> current s) -> 0 < n < portMAX_DELAY ->
  exists s', (prvAddCurrentTaskToDelayedList n false ;; ticks k ;; resume_and_yield) (with_suspended 1 s) = Done tt s' /\
    sched_ok s' /\ suspended s' = 0 /\ abs_tick s' = abs_tick s + Z.of_nat k /\ current s' ∈ ready_tasks s' /\
    deadline s' (current s) = left_at (abs_tick s') (Some (abs_tick s + n)) /\ (current s ∈ ready_tasks s' <-> n <= Z.of_nat k).
Proof.
  intros H Hs Hp Hk Hr (i & Hi & Ni) Hn. set (s0 := with_suspended 1 s).
  destruct (block_spec n s0 (suspend_ok s H Hs) ltac:(lia) Hr) as (s1 & E1 & B).
  assert (E1' : prvAddCurrentTaskToDelayedList n false s0 = Done tt s1).
  { rewrite <- E1. unfold prvAddCurrentTaskToDelayedList. now rewrite (proj2 (Z.eqb_neq n portMAX_DELAY)) by lia. }
  rewrite (bind_done _ _ _ _ _ E1').
  destruct (resume_after k s1) as (s2 & E2 & [S1 S2 S3 S4 S5 S6 S7]); [apply B | now rewrite (bl_suspended _ _ _ B) | rewrite (bl_pended _ _ _ B); exact Hp | exact Hk | rewrite (bl_pending _ _ _ B); exact (so_running s H Hs) | |].
  { assert (K : i ∈ ready_tasks s1) by (now apply (bl_ready _ _ _ B)). intros Q. rewrite Q in K. inversion K. }
  pose proof (bl_time _ _ _ B) as T. change (abs_tick s0) with (abs_tick s) in T.
  assert (D : deadline s1 (current s) = Some (abs_tick s + n)).
  { rewrite (bl_deadline _ _ _ B), decide_True by reflexivity. unfold wake_at. now rewrite (proj2 (Z.eqb_neq n portMAX_DELAY)) by lia. }
  exists s2. split; [exact E2 |]. do 2 (split; [assumption |]). split; [lia |]. split; [exact S7 |]. split; [now rewrite S5, D |].
  rewrite S6, D, (bl_ready _ _ _ B). split.
  - intros [[K _] | (d & [= <-] & K)]; [now destruct K | lia].
  - intros K. right. exists (abs_tick s + n). split; [reflexivity | lia].
Qed.

(** [vTaskDelay] takes the task off the ready lists until [n] ticks after the call, also those that pass while the
    scheduler is suspended, across the wrap-around of the tick count; another task runs meanwhile. *)
Theorem vTaskDelay_delays k n s : sched_ok s -> suspended s = 0 -> xPendedTicks s = 0 -> Z.of_nat k < 4294967296 -> current s ∈ ready_tasks s ->
  (exists x, x ∈ ready_tasks s /\ x <> current s) -> 0 < n < portMAX_DELAY ->
  exists s', vTaskDelay (ticks k) n s = Done tt s' /\ sched_ok s' /\ suspended s' = 0 /\ abs_tick s' = abs_tick s + Z.of_nat k /\ current s' ∈ ready_tasks s' /\
    deadline s' (current s) = left_at (abs_tick s') (Some (abs_tick s + n)) /\ (current s ∈ ready_tasks s' <-> n <= Z.of_nat k).
Proof.
  intros H Hs Hp Hk Hr Hi Hn. destruct (sleep_run k n s H Hs Hp Hk Hr Hi Hn) as (s' & E & R). exists s'. split; [| exact R].
  unfold vTaskDelay. rewrite (proj2 (Z.ltb_lt 0 n)) by lia. unfold vTaskSuspendAll. rewrite bind_modify, Hs. change (u32 (0 + 1)) with 1.
  unfold bind at 1, get at 1. exact E.
Qed.

(** The comparison of the counts is that of the times, if the last wake time is less than 2^32 ticks ago. *)
Lemma wakes_later_spec s P n : sched_ok s -> 0 <= P <= abs_tick s -> abs_tick s < P + period -> 0 < n < portMAX_DELAY ->
  wakes_later (tick s) (u32 P) (u32 (u32 P + n)) = (abs_tick s <? P + n) /\
  u32 (u32 P + n) = u32 (P + n) /\
  (abs_tick s < P + n -> u32 (u32 (u32 P + n) - tick s) = P + n - abs_tick s).
Proof.
  intros H HP HA Hn. pose proof (to_tick _ _ (so_time s H)) as T. unfold abs_tick, period, portMAX_DELAY, wakes_later in *.
  set (o := xNumOfOverflows s) in *. set (t := tick s) in *. set (b := u32 P). set (a := P / 4294967296).
  assert (Pb : P = a * 4294967296 + b) by (unfold a, b, u32; pose proof (Z.div_mod P 4294967296); lia).
  assert (Hb : 0 <= b < 4294967296) by (apply Z.mod_pos_bound; lia).
  assert (W : u32 (b + n) = if b + n <? 4294967296 then b + n else b + n - 4294967296).
  { unfold u32. destruct (Z.ltb_spec (b + n) 4294967296); [apply Z.mod_small; lia |]. symmetry. apply (Z.mod_unique_pos _ _ 1); lia. }
  assert (W' : u32 (P + n) = u32 (b + n)) by (unfold b, u32; now rewrite Zplus_mod_idemp_l).
  split; [| split; [now rewrite W' |]].
  - rewrite W. destruct (Z.ltb_spec t b), (Z.ltb_spec (b + n) 4294967296); assert (o = a \/ o = a + 1) by lia; lia.
  - intros L. rewrite W. unfold u32. assert (o = a \/ o = a + 1) as [-> | ->] by lia; destruct (Z.ltb_spec (b + n) 4294967296).
    + rewrite Z.mod_small; lia.
    + symmetry. apply (Z.mod_unique_pos _ _ (-1)); lia.
    + lia.
    + rewrite Z.mod_small; lia.
Qed.

(** [xTaskDelayUntil] called by a task that was to wake at [P] delays it until [P + n], if that is still to come,
    and says so; the time stored for the next call is [P + n] either way. So a task that calls it over and over wakes
    at [P + n], [P + 2 n], ..., however long it takes in between and wherever the tick count wraps around. *)
Theorem xTaskDelayUntil_rhythm k P n s : sched_ok s -> suspended s = 0 -> xPendedTicks s = 0 -> Z.of_nat k < 4294967296 -> current s ∈ ready_tasks s ->
  (exists x, x ∈ ready_tasks s /\ x <> current s) -> 0 < n < portMAX_DELAY -> 0 <= P <= abs_tick s -> abs_tick s < P + period ->
  exists s', xTaskDelayUntil (ticks k) (Some (u32 P)) n s = Done (if abs_tick s <? P + n then pdTRUE else pdFALSE, u32 (P + n)) s' /\
    sched_ok s' /\ suspended s' = 0 /\ abs_tick s' = abs_tick s + Z.of_nat k /\ current s' ∈ ready_tasks s' /\
    (current s ∈ ready_tasks s' <-> P + n <= abs_tick s') /\
    (abs_tick s' < P + n -> deadline s' (current s) = Some (P + n)).
Proof.
  intros H Hs Hp Hk Hr Hi Hn HP HA. destruct (wakes_later_spec s P n H HP HA Hn) as (W1 & W2 & W3).
  unfold xTaskDelayUntil. rewrite bool_decide_eq_true_2 by eauto. rewrite (bind_done (configASSERT true) _ tt s s eq_refl). rewrite (proj2 (Z.ltb_lt 0 n)) by lia.
  rewrite (bind_done (configASSERT true) _ tt s s eq_refl). unfold vTaskSuspendAll. rewrite bind_modify, Hs. change (u32 (0 + 1)) with 1.
  unfold bind at 1, get at 1. cbv zeta. change (tick (with_suspended 1 s)) with (tick s). rewrite W1.
  change (suspended (with_suspended 1 s) =? 1) with true. rewrite (bind_done (configASSERT true) _ tt _ _ eq_refl).
  destruct (Z.ltb_spec (abs_tick s) (P + n)) as [L | L].
  - rewrite (W3 L). destruct (sleep_run k (P + n - abs_tick s) s H Hs Hp Hk Hr Hi) as (s' & E & O & S & A & C & D & R); [unfold portMAX_DELAY in *; lia |].
    exists s'. split.
    + rewrite W2. revert E. clear. unfold bind. destruct (prvAddCurrentTaskToDelayedList _ _ _) as [? s1 | | |]; try discriminate.
      destruct (ticks k s1) as [? s2 | | |]; try discriminate. intros ->. reflexivity.
    + do 4 (split; [assumption |]). split; [rewrite R; lia |]. intros K. rewrite D. cbn. replace (abs_tick s + _) with (P + n) by lia.
      now rewrite (proj2 (Z.leb_gt _ _)) by lia.
  - rewrite (bind_done (ret tt) _ tt _ _ eq_refl).
    destruct (resume_after k (with_suspended 1 s)) as (s' & E & [S1 S2 S3 S4 S5 S6 S7]); auto; [now apply suspend_ok | exact (so_running s H Hs) | |].
    { intros Q. change (ready_tasks s = []) in Q. rewrite Q in Hr. inversion Hr. }
    exists s'. split.
    + rewrite W2. revert E. clear. unfold bind. destruct (ticks k _) as [? s2 | | |]; try discriminate. intros ->. reflexivity.
    + do 4 (split; [assumption |]). change (abs_tick (with_suspended 1 s)) with (abs_tick s) in S3.
      assert (Rc : current s ∈ ready_tasks s') by (apply S6; now left). split; [split; [lia | auto] | lia].
Qed.

(** * An instance *)

Lemma ex_boot_runs : sched_ok ex_boot /\ suspended ex_boot = 0 /\ xPendedTicks ex_boot = 0 /\ current ex_boot ∈ ready_tasks ex_boot /\
  exists x, x ∈ ready_tasks ex_boot /\ x <> current ex_boot.
Proof.
  split; [exact (sd_ok _ _ _ ex_started) |]. do 2 (split; [reflexivity |]). split; [vm_compute; repeat (left || right) |].
  exists 1. split; [vm_compute; repeat (left || right) | discriminate].
Qed.

(** Task 3 delays for five ticks; after two, the scheduler is resumed. *)
Lemma vTaskDelay_delays_witness : exists s', vTaskDelay (ticks 2) 5 ex_boot = Done tt s' /\ deadline s' 3 = Some 5 /\ (3 ∉ ready_tasks s').
Proof.
  destruct ex_boot_runs as (O & S & P & R & I).
  destruct (vTaskDelay_delays 2 5 ex_boot O S P ltac:(lia) R I ltac:(unfold portMAX_DELAY; lia)) as (s' & E & _ & _ & A & _ & D & K).
  exists s'. split; [exact E |]. change (current ex_boot) with 3 in *. rewrite D, A, K. split; [vm_compute; reflexivity | lia].
Defined.

Lemma xTaskDelayUntil_rhythm_witness : exists s', xTaskDelayUntil (ticks 3) (Some 0) 10 ex_boot = Done (pdTRUE, 10) s' /\ deadline s' 3 = Some 10.
Proof.
  destruct ex_boot_runs as (O & S & P & R & I).
  destruct (xTaskDelayUntil_rhythm 3 0 10 ex_boot O S P ltac:(lia) R I ltac:(unfold portMAX_DELAY; lia) ltac:(vm_compute; split; discriminate) eq_refl)
    as (s' & E & _ & _ & A & _ & _ & D).
  exists s'. split; [exact E |]. apply D. rewrite A. vm_compute. reflexivity.
Defined.
