(* ===== verification/SchedTimeout.v ===== *)
(** The time-outs of calls that may block, [vTaskSetTimeOutState] and [xTaskCheckForTimeOut] of [FreeRTOS/tasks.c]. *)
From Stdlib Require Import ZArith Lia Bool.
From stdpp Require Import base decidable list gmap sorting.
From S2P Require Import Prelude Queue Tasks Sched SchedProofs SchedBlock SchedNotify SchedStart.

Record TimeOut_t : Type := mk_timeout { xOverflowCount : Z; xTimeOnEntering : Z }.

#[local] Abbreviation M := (prog sched).

Definition vTaskInternalSetTimeOutState : M TimeOut_t :=
  s <- get ;; ret (mk_timeout (xNumOfOverflows s) (tick s)).

(** The structure is only written. *)
Definition vTaskSetTimeOutState (pxTimeOut : option TimeOut_t) : M TimeOut_t :=
  configASSERT (bool_decide (is_Some pxTimeOut)) ;;
  s <- get ;; ret (mk_timeout (xNumOfOverflows s) (tick s)).

(** The result, and what is left in [*pxTimeOut] and [*pxTicksToWait]. *)
Definition xTaskCheckForTimeOut (pxTimeOut : option TimeOut_t) (pxTicksToWait : option Z) : M (Z * TimeOut_t * Z) :=
  configASSERT (bool_decide (is_Some pxTimeOut)) ;;
  configASSERT (bool_decide (is_Some pxTicksToWait)) ;;
  match pxTimeOut, pxTicksToWait with
  | Some timeout, Some ticks =>
    s <- get ;;
    let xConstTickCount := tick s in
    let xElapsedTime := u32 (xConstTickCount - xTimeOnEntering timeout) in
    if ticks =? portMAX_DELAY then ret (pdFALSE, timeout, ticks)
    else if negb (xNumOfOverflows s =? xOverflowCount timeout) && (xTimeOnEntering timeout <=? xConstTickCount) then
      ret (pdTRUE, timeout, 0)
    else if xElapsedTime <? ticks then
      timeout <- vTaskInternalSetTimeOutState ;; ret (pdFALSE, timeout, u32 (ticks - xElapsedTime))
    else ret (pdTRUE, timeout, 0)
  | _, _ => undefined
  end.

(** * One check *)

(** When the wait was last looked at, and when it is over, in absolute ticks. *)
Definition entered (t : TimeOut_t) : Z := xOverflowCount t * period + xTimeOnEntering t.
Definition gives_up (t : TimeOut_t) (n : Z) : option Z := if n =? portMAX_DELAY then None else Some (entered t + n).

Definition over (d : option Z) (now : Z) : bool := match d with Some d => d <=? now | None => false end.

(** A wait as the calls keep it; it was looked at during the last 2^32 ticks. *)
Record wait_ok (t : TimeOut_t) (n now : Z) : Prop := {
  wo_time : 0 <= xTimeOnEntering t <= portMAX_DELAY;
  wo_ticks : 0 <= n <= portMAX_DELAY;
  wo_past : entered t <= now;
  wo_recent : now <= entered t + period
}.

Definition ticks_ok (s : sched) : Prop := 0 <= tick s <= portMAX_DELAY.

Lemma entered_now s : entered (mk_timeout (xNumOfOverflows s) (tick s)) = abs_tick s.
Proof. reflexivity. Qed.

(** How the tick count and the overflows compare to those on entering. *)
Lemma elapsed_cases t n s : ticks_ok s -> wait_ok t n (abs_tick s) ->
  (xNumOfOverflows s = xOverflowCount t /\ xTimeOnEntering t <= tick s /\
   u32 (tick s - xTimeOnEntering t) = abs_tick s - entered t) \/
  (xNumOfOverflows s = xOverflowCount t + 1 /\ tick s < xTimeOnEntering t /\
   u32 (tick s - xTimeOnEntering t) = abs_tick s - entered t) \/
  (xNumOfOverflows s = xOverflowCount t + 1 /\ tick s = xTimeOnEntering t /\ abs_tick s - entered t = period).
Proof.
  unfold ticks_ok, abs_tick, entered, u32, period, portMAX_DELAY. intros Ht [W1 W2 W3 W4]. unfold entered, period, portMAX_DELAY in *.
  assert (xNumOfOverflows s = xOverflowCount t \/ xNumOfOverflows s = xOverflowCount t + 1) as [E | E] by lia; rewrite E in *.
  - left. repeat split; [lia |]. rewrite Z.mod_small; lia.
  - right. destruct (Z.eq_dec (tick s) (xTimeOnEntering t)); [right; lia | left]. repeat split; [lia |].
    rewrite <- (Z_mod_plus_full _ 1), Z.mod_small; lia.
Qed.

(** The check tells whether the wait is over, and otherwise keeps its end; the ticks left reach to it. *)
Lemma time_out_check_spec t n s : ticks_ok s -> wait_ok t n (abs_tick s) ->
  if over (gives_up t n) (abs_tick s) then xTaskCheckForTimeOut (Some t) (Some n) s = Done (pdTRUE, t, 0) s
  else exists t' n', xTaskCheckForTimeOut (Some t) (Some n) s = Done (pdFALSE, t', n') s /\
    gives_up t' n' = gives_up t n /\ wake_at n' s = gives_up t n /\ 0 < n' <= portMAX_DELAY /\
    (n <> portMAX_DELAY -> wait_ok t' n' (abs_tick s) /\ entered t' = abs_tick s).
Proof.
  intros Ht W. pose proof (elapsed_cases t n s Ht W) as C. destruct W as [W1 W2 W3 W4].
  unfold xTaskCheckForTimeOut. cbn [configASSERT bool_decide]. unfold gives_up.
  rewrite !(bind_done (configASSERT _) _ tt s s) by reflexivity. unfold bind, get, ret, vTaskInternalSetTimeOutState; cbn.
  destruct (Z.eqb_spec n portMAX_DELAY) as [-> | N]; cbn [over].
  { exists t, portMAX_DELAY. unfold wake_at. rewrite Z.eqb_refl. unfold portMAX_DELAY. repeat split; try lia. }
  destruct (negb (xNumOfOverflows s =? xOverflowCount t) && (xTimeOnEntering t <=? tick s)) eqn:Q.
  { rewrite (proj2 (Z.leb_le _ _)) by (unfold period, portMAX_DELAY in *; lia). reflexivity. }
  assert (E : u32 (tick s - xTimeOnEntering t) = abs_tick s - entered t) by lia. rewrite E. clear C Q.
  destruct (Z.ltb_spec (abs_tick s - entered t) n); destruct (Z.leb_spec (entered t + n) (abs_tick s)); try lia; [| reflexivity].
  assert (R : u32 (n - (abs_tick s - entered t)) = n - (abs_tick s - entered t)).
  { unfold u32. apply Z.mod_small. unfold portMAX_DELAY, period in *. lia. }
  rewrite R. eexists _, _. split; [reflexivity |]. unfold wake_at. rewrite entered_now, (proj2 (Z.eqb_neq _ _)) by lia.
  split; [f_equal; lia |]. split; [f_equal; lia |]. split; [lia |]. intros _. split; [| apply entered_now].
  split; cbn; rewrite ?entered_now; unfold ticks_ok, period, portMAX_DELAY in *; lia.
Qed.

(** * The checks of one wait *)

(** The states in which a call that waits looks at its time-out, one after another: the number of the check that ends the wait. *)
Fixpoint first_timeout (t : TimeOut_t) (n : Z) (l : list sched) : option nat :=
  match l with
  | [] => None
  | s :: l' =>
    match xTaskCheckForTimeOut (Some t) (Some n) s with
    | Done (r, t', n') _ => if r =? pdFALSE then S <$> first_timeout t' n' l' else Some O
    | _ => None
    end
  end.

(** The states are in the order of time, each less than 2^32 ticks after the one before. *)
Fixpoint checked_from (now : Z) (l : list sched) : Prop :=
  match l with
  | [] => True
  | s :: l' => ticks_ok s /\ now <= abs_tick s <= now + period /\ checked_from (abs_tick s) l'
  end.

Lemma first_timeout_never l : forall t, 0 <= xTimeOnEntering t <= portMAX_DELAY -> first_timeout t portMAX_DELAY l = None.
Proof.
  induction l as [| s l IH]; [reflexivity |]. intros t Ht. change (S <$> first_timeout t portMAX_DELAY l = None). now rewrite IH.
Qed.

Lemma first_timeout_spec l : forall t n, wait_ok t n (entered t) -> n <> portMAX_DELAY -> checked_from (entered t) l ->
  first_timeout t n l = fst <$> list_find (fun s => over (gives_up t n) (abs_tick s) = true) l.
Proof.
  induction l as [| s l IH]; [reflexivity |]. intros t n [W1 W2 W3 W4] N (Ht & Hs & Hl). cbn [first_timeout list_find].
  pose proof (time_out_check_spec t n s Ht) as C. assert (W : wait_ok t n (abs_tick s)) by (split; lia). specialize (C W).
  destruct (over (gives_up t n) (abs_tick s)) eqn:E.
  - rewrite C. now rewrite decide_True.
  - destruct C as (t' & n' & -> & G & _ & Hn & K). destruct (K N) as [W' Et]. rewrite decide_False by discriminate. cbn.
    assert (N' : n' <> portMAX_DELAY).
    { intros ->. unfold gives_up in G. rewrite Z.eqb_refl in G. destruct (Z.eqb_spec n portMAX_DELAY); [easy | discriminate]. }
    rewrite (IH t' n'); [| now rewrite Et | exact N' | now rewrite Et]. rewrite G. now destruct (list_find _ l) as [[i x] |].
Qed.

(** C24: A call that waits for [n] ticks and looks at its time-out from time to time, at most 2^32 ticks apart, gives up at the first check
    that finds the deadline reached, counted from the moment it started to wait, wherever the tick count wraps
    around; a call that waits without limit never does. *)
Theorem time_out_at_deadline s t n l : sched_ok s -> 0 <= n <= portMAX_DELAY ->
  vTaskInternalSetTimeOutState s = Done t s -> checked_from (abs_tick s) l ->
  first_timeout t n l = fst <$> list_find (fun s' => over (wake_at n s) (abs_tick s') = true) l.
Proof.
  intros H Hn E Hl. injection E as <-. pose proof (to_tick (tick s) s (so_time s H)) as T.
  change (wake_at n s) with (gives_up (mk_timeout (xNumOfOverflows s) (tick s)) n).
  destruct (Z.eq_dec n portMAX_DELAY) as [-> | N].
  - rewrite first_timeout_never by exact T. unfold gives_up. rewrite Z.eqb_refl. cbn.
    clear Hl. induction l as [| s' l IH]; [reflexivity |]. cbn. destruct (list_find _ l); [discriminate | reflexivity].
  - apply first_timeout_spec; [| exact N | exact Hl]. split; rewrite ?entered_now; cbn; unfold portMAX_DELAY, period in *; lia.
Qed.

(** * An instance *)

(** Fifteen ticks before the count wraps around. *)
Definition ex_late : sched := with_time 0xfffffff1 0 0 portMAX_DELAY ex_boot.

Lemma ex_late_ok : sched_ok ex_late.
Proof.
  destruct (sd_ok _ _ _ ex_started) as [[L1 L2 L3 L4 L5 L6 L7] _ [E1 E2 E3 E4] Hc Hp _].
  split; [now split | | now split | exact Hc | exact Hp | cbn; lia].
  split; cbn; repeat constructor; unfold portMAX_DELAY; lia.
Qed.

Definition at_time (o k : Z) : sched := with_time k 0 o portMAX_DELAY ex_boot.

(** A wait of 40 ticks, looked at after 10, 25 and 45 ticks. *)
Lemma time_out_at_deadline_witness :
  first_timeout (mk_timeout 0 0xfffffff1) 40 [at_time 0 0xfffffffb; at_time 1 10; at_time 1 30; at_time 1 31] = Some 2%nat.
Proof.
  rewrite (time_out_at_deadline ex_late (mk_timeout 0 0xfffffff1) 40); [vm_compute; reflexivity | exact ex_late_ok | unfold portMAX_DELAY; lia | reflexivity |].
  cbn. unfold ticks_ok, abs_tick, period, portMAX_DELAY; cbn. lia.
Defined.

(** Looked at more than 2^32 ticks late, with the tick count below the one on entering, the wait starts anew. *)
Example late_check_missed : let t := mk_timeout 0 0xfffffff1 in let s := at_time 2 10 in
  over (gives_up t 40) (abs_tick s) = true /\ xTaskCheckForTimeOut (Some t) (Some 40) s = Done (pdFALSE, mk_timeout 2 10, 15) s.
Proof. now vm_compute. Qed.
