(* ===== verification/SchedQueue.v ===== *)
(** The queues of [Queue] on the scheduler of [Sched]: the lists of waiting tasks, the priorities and the time-outs
    that are parameters there are those of the scheduler. *)
From Stdlib Require Import ZArith Lia Bool.
From stdpp Require Import base decidable list gmap sorting.
From S2P Require Import Prelude Queue QueueProofs QueueSpec Tasks Sched SchedProofs SchedBlock SchedGive SchedEvents SchedNotify SchedStart SchedTimeout.

(** [vTaskMissedYield] *)
Definition vTaskMissedYield : prog sched unit := modify (fun s => with_current (current s) pdTRUE s).

(** What the loops of [prvUnlockQueue] ask of the scheduler; [n] is the count of the lock. *)
Fixpoint unlock_calls (l : Z) (n : nat) : prog sched unit :=
  match n with
  | O => ret tt
  | S n' =>
    s <- get ;;
    if negb (bool_decide (waiters s l = [])) then
      r <- xTaskRemoveFromEventList l ;;
      (if negb (r =? pdFALSE) then vTaskMissedYield else ret tt) ;;
      unlock_calls l n'
    else ret tt
  end.

Lemma drop_taken {A} n (l : list A) : drop (length (take n l)) l = drop n l.
Proof. revert l. induction n as [| n IH]; intros [| x l]; [reflexivity .. |]. apply IH. Qed.

Lemma existsb_ext {A} (f g : A -> bool) l : (forall x, f x = g x) -> existsb f l = existsb g l.
Proof. intros H. induction l as [| x l IH]; [reflexivity |]. cbn. now rewrite H, IH. Qed.

Lemma existsb_fmap {A B} (h : A -> B) (f : B -> bool) l : existsb f (h <$> l) = existsb (fun x => f (h x)) l.
Proof. induction l as [| x l IH]; [reflexivity |]. cbn. now rewrite IH. Qed.

#[local] Ltac by_cases_existsb := repeat match goal with |- context [existsb ?f ?l] => destruct (existsb f l) end.

(** When unlocking a queue misses a yield. *)
Section Missed.
Variable wh : nat -> bool.

Lemma unlock_tx_loop_yield n : forall q q', unlock_tx_loop wh n q = Done tt q' ->
  Queue.xYieldPending q' = Queue.xYieldPending q || existsb wh (take n (xTasksWaitingToReceive (queue q))).
Proof.
  induction n as [| n IH]; intros q q'; cbn [unlock_tx_loop]; [intros [= <-]; now rewrite orb_false_r |].
  unfold getq, unblock_receiver. unfold bind, get, ret. destruct (xTasksWaitingToReceive (queue q)) as [| t l] eqn:W; cbn; rewrite ?W; cbn; [intros [= <-]; now rewrite orb_false_r |].
  destruct (wh t); intros E; apply IH in E; rewrite E; cbn; [now rewrite orb_true_r | reflexivity].
Qed.

Lemma unlock_rx_loop_yield n : forall q q', unlock_rx_loop wh n q = Done tt q' ->
  Queue.xYieldPending q' = Queue.xYieldPending q || existsb wh (take n (xTasksWaitingToSend (queue q))).
Proof.
  induction n as [| n IH]; intros q q'; cbn [unlock_rx_loop]; [intros [= <-]; now rewrite orb_false_r |].
  unfold getq, unblock_sender. unfold bind, get, ret. destruct (xTasksWaitingToSend (queue q)) as [| t l] eqn:W; cbn; rewrite ?W; cbn; [intros [= <-]; now rewrite orb_false_r |].
  destruct (wh t); intros E; apply IH in E; rewrite E; cbn; [now rewrite orb_true_r | reflexivity].
Qed.

Lemma unlock_tx_yield q q' : unlock_tx wh q = Done tt q' ->
  Queue.xYieldPending q' = Queue.xYieldPending q || existsb wh (take (Z.to_nat (cTxLock (queue q))) (xTasksWaitingToReceive (queue q))).
Proof.
  unfold unlock_tx. rewrite getq_bind. unfold bind. destruct (unlock_tx_loop wh _ q) as [[] q1 | | |] eqn:E; try discriminate.
  intros [= <-]. exact (unlock_tx_loop_yield _ _ _ E).
Qed.

Lemma unlock_rx_yield q q' : unlock_rx wh q = Done tt q' ->
  Queue.xYieldPending q' = Queue.xYieldPending q || existsb wh (take (Z.to_nat (cRxLock (queue q))) (xTasksWaitingToSend (queue q))).
Proof.
  unfold unlock_rx. rewrite getq_bind. unfold bind. destruct (unlock_rx_loop wh _ q) as [[] q1 | | |] eqn:E; try discriminate.
  intros [= <-]. exact (unlock_rx_loop_yield _ _ _ E).
Qed.
End Missed.

(** The scheduler is suspended, and tasks of the list have been set aside to become ready. *)
Record set_aside (l : Z) (ws : list Z) (s s' : sched) : Prop := {
  sa_ok : sched_ok s';
  sa_waiters : forall k, waiters s' k = if decide (k = l) then drop (length ws) (waiters s l) else waiters s k;
  sa_tasks : same_tasks s s';
  sa_time : abs_tick s' = abs_tick s;
  sa_pended : xPendedTicks s' = xPendedTicks s;
  sa_suspended : suspended s' = suspended s;
  sa_yield : yield_pending s' = if existsb (fun x => prio_of s (current s) <? prio_of s x) ws then pdTRUE else yield_pending s;
  sa_ready : ready_tasks s' = ready_tasks s;
  sa_pending : pending s' = pending s ++ ws;
  sa_deadline : forall y, deadline s' y = deadline s y
}.

Lemma set_aside_none l s : sched_ok s -> set_aside l [] s s.
Proof. intros H. split; auto; [intros k; now destruct (decide (k = l)) as [-> |] | now split | now rewrite app_nil_r]. Qed.

Lemma set_aside_cons l x ws s s1 s2 : suspended s <> 0 -> waiters s l = x :: tail (waiters s l) -> first_removed l x s s1 -> set_aside l ws s1 s2 -> set_aside l (x :: ws) s s2.
Proof.
  intros N W [F1 F2 F3 F4 F5 F6 Fy F7 F8] [A1 A2 A3 A4 A5 A6 Ay A7 A8 A9]. destruct (F8 N) as (G1 & G2 & G3). split; [exact A1 | | | congruence | congruence | congruence | | congruence | |].
  - intros k. rewrite A2, !F2, (decide_True (P := l = l)) by reflexivity. destruct (decide (k = l)); [| reflexivity]. now rewrite W.
  - now apply (same_tasks_trans s s1).
  - assert (Q : forall y, (prio_of s1 (current s1) <? prio_of s1 y) = (prio_of s (current s) <? prio_of s y))
      by (intros y; unfold prio_of; now rewrite (st_current _ _ F3), !(st_prio _ _ F3)).
    rewrite Ay, Fy, (existsb_ext _ _ _ Q). cbn [existsb]. destruct (prio_of s (current s) <? prio_of s x); cbn [orb]; [by_cases_existsb; reflexivity | reflexivity].
  - now rewrite A8, G2, <- app_assoc.
  - intros y. now rewrite A9.
Qed.


Lemma removed_yield l x s s' : (prio_of s (current s) <? prio_of s x) = true -> first_removed l x s s' -> first_removed l x s (with_current (current s') pdTRUE s').
Proof. intros E [F1 F2 [T1 T2 T3 T4 T5] F4 F5 F6 Fy F7 F8]. split; auto; [now apply asked_ok | now split | now rewrite E]. Qed.

Lemma unlock_calls_spec l n : forall s, sched_ok s -> suspended s <> 0 ->
  exists s', unlock_calls l n s = Done tt s' /\ set_aside l (take n (waiters s l)) s s'.
Proof.
  induction n as [| n IH]; intros s H N; cbn [unlock_calls].
  - exists s. split; [reflexivity | now apply set_aside_none].
  - unfold bind at 1, get at 1. destruct (waiters s l) as [| x L] eqn:W.
    { rewrite bool_decide_eq_true_2 by reflexivity. exists s. split; [reflexivity | now apply set_aside_none]. }
    rewrite bool_decide_eq_false_2 by discriminate. cbn [negb].
    assert (El : event_lists s !! l = Some (x :: L)) by (unfold waiters in W; destruct (event_lists s !! l); [now rewrite <- W | discriminate]).
    destruct (remove_from_event_list_spec l x L s H El) as (s1 & E1 & F1). rewrite (bind_done _ _ _ _ _ E1).
    assert (K : exists s2, (if negb ((if prio_of s (current s) <? prio_of s x then pdTRUE else pdFALSE) =? pdFALSE) then vTaskMissedYield else ret tt) s1 = Done tt s2 /\ first_removed l x s s2).
    { destruct (prio_of s (current s) <? prio_of s x) eqn:Hi; [exists (with_current (current s1) pdTRUE s1); split; [reflexivity | now apply removed_yield] | now exists s1]. }
    destruct K as (s2 & E2 & F2). rewrite (bind_done _ _ _ _ _ E2).
    destruct (IH s2) as (s3 & E3 & A); [apply F2 | now rewrite (fr_suspended _ _ _ _ F2) |]. exists s3. split; [exact E3 |].
    rewrite (fr_waiters _ _ _ _ F2), decide_True, W in A by reflexivity. cbn. apply (set_aside_cons l x _ s s2); auto. now rewrite W.
Qed.

Section Kernel.
Variable snd rcv : Z.             (** the lists of the tasks that wait to send and to receive *)
Hypothesis lists_distinct : snd <> 0 /\ rcv <> 0 /\ snd <> rcv.

(** A queue and the scheduler that has its lists. *)
Record on_kernel (q : qstate) (s : sched) : Prop := {
  ok_sched : sched_ok s;
  ok_send : waiters s snd = Z.of_nat <$> xTasksWaitingToSend (queue q);
  ok_receive : waiters s rcv = Z.of_nat <$> xTasksWaitingToReceive (queue q);
  ok_yield : Queue.xYieldPending q = true <-> yield_pending s = pdTRUE
}.

(** The parameters of [Queue]. *)
Definition wakes_higher_of (s : sched) (t : nat) : bool := prio_of s (current s) <? prio_of s (Z.of_nat t).
Definition before_of (s : sched) (u t : nat) : bool := event_value (tasks s) (Z.of_nat u) <=? event_value (tasks s) (Z.of_nat t).

Lemma place_on_sorted s t l : Z.of_nat <$> place_on (before_of s) t l = insert_sorted (event_value (tasks s)) (Z.of_nat t) (Z.of_nat <$> l).
Proof.
  induction l as [| u l IH]; [reflexivity |]. cbn. unfold before_of. rewrite Z.leb_antisym. destruct (_ <? _); cbn; [reflexivity |]. now f_equal.
Qed.

(** Sending and receiving wait in the same way, on lists of their own. *)
Definition list_of (sending : bool) : Z := if sending then snd else rcv.
Definition place (sending : bool) : (nat -> nat -> bool) -> nat -> prog qstate unit := if sending then place_sender else place_receiver.

Lemma place_implemented sending q s n : on_kernel q s -> forall t, current s = Z.of_nat t -> 0 < n <= portMAX_DELAY ->
  current s ∈ ready_tasks s -> event_of s (current s) = Some NoList -> ~ waiting s (current s) ->
  exists q' s', place sending (before_of s) t q = Done tt q' /\ vTaskPlaceOnEventList (list_of sending) n s = Done tt s' /\
    on_kernel q' s' /\ placed (list_of sending) n s s' /\
    made_ready q' = made_ready q /\ cTxLock (queue q') = cTxLock (queue q) /\ cRxLock (queue q') = cRxLock (queue q).
Proof.
  intros [K1 K2 K3 K4] t Ct Hn Hr He Hw. destruct lists_distinct as (N1 & N2 & N3).
  destruct (place_spec (list_of sending) n s K1) as (s' & E & P); auto; [now destruct sending |].
  destruct sending; cbn [list_of place] in *; eexists _, s'; (split; [reflexivity |]); (split; [exact E |]); (split; [| easy]);
    (split; [apply P | | |]; rewrite ?(pl_waiters _ _ _ _ P), ?(pl_yield _ _ _ _ P); cbn; [| | exact K4]).
  - rewrite decide_True by reflexivity. now rewrite Ct, K2, place_on_sorted.
  - now rewrite decide_False by congruence.
  - now rewrite decide_False.
  - rewrite decide_True by reflexivity. now rewrite Ct, K3, place_on_sorted.
Qed.

(** An unlocked queue, and the scheduler after the calls it has made. *)
Lemma unlock_implemented q s s0 : on_kernel q s -> suspended s <> 0 -> current s = current s0 -> (forall x, prio_of s x = prio_of s0 x) ->
  exists q' s' woken, prvUnlockQueue (wakes_higher_of s0) (ret tt) q = Done tt q' /\
    (unlock_calls rcv (Z.to_nat (cTxLock (queue q))) ;; unlock_calls snd (Z.to_nat (cRxLock (queue q)))) s = Done tt s' /\
    on_kernel q' s' /\ made_ready q' = made_ready q ++ woken /\ same_tasks s s' /\ abs_tick s' = abs_tick s /\
    suspended s' = suspended s /\ ready_tasks s' = ready_tasks s /\ pending s' = pending s ++ (Z.of_nat <$> woken) /\
    (forall y, deadline s' y = deadline s y).
Proof.
  intros [K1 K2 K3 K4] N Ec Ep. destruct lists_distinct as (_ & _ & D). unfold prvUnlockQueue.
  destruct (unlock_tx_ok (wakes_higher_of s0) q) as (q1 & E1 & _ & R1 & _ & S1 & V1 & M1).
  destruct (unlock_rx_ok (wakes_higher_of s0) q1) as (q2 & E2 & _ & _ & _ & V2 & S2 & M2).
  destruct (unlock_calls_spec rcv (Z.to_nat (cTxLock (queue q))) s K1 N) as (s1 & C1 & [A1 A2 A3 A4 A5 A6 Ay A7 A8 A9]).
  destruct (unlock_calls_spec snd (Z.to_nat (cRxLock (queue q))) s1 A1 ltac:(congruence)) as (s2 & C2 & [B1 B2 B3 B4 B5 B6 By B7 B8 B9]).
  pose proof (unlock_tx_yield _ _ _ E1) as Y1. pose proof (unlock_rx_yield _ _ _ E2) as Y2.
  rewrite (bind_done _ _ _ _ _ E1), (bind_done (ret tt) _ tt q1 q1 eq_refl), (bind_done _ _ _ _ _ C1). rewrite R1, S1 in S2, M2, Y2.
  assert (W : waiters s1 snd = waiters s snd) by (rewrite A2; now rewrite decide_False).
  rewrite K3 in A2, A8, Ay. rewrite W, K2 in B2, B8, By. rewrite A8 in B8. exists q2, s2.
  exists (take (Z.to_nat (cTxLock (queue q))) (xTasksWaitingToReceive (queue q)) ++ take (Z.to_nat (cRxLock (queue q))) (xTasksWaitingToSend (queue q))).
  split; [exact E2 |]. split; [exact C2 |]. split; [split; [exact B1 | | |] |].
  - rewrite B2, decide_True, S2, fmap_drop by reflexivity. apply drop_taken.
  - rewrite B2, decide_False, A2, decide_True, V2, V1, fmap_drop by congruence. apply drop_taken.
  - rewrite Y2, Y1, By, Ay, !orb_true_iff, K4, <- !fmap_take.
    assert (H1 : forall u, (prio_of s (current s) <? prio_of s (Z.of_nat u)) = wakes_higher_of s0 u) by (intros u; unfold wakes_higher_of; now rewrite Ec, !Ep).
    assert (H2 : forall u, (prio_of s1 (current s1) <? prio_of s1 (Z.of_nat u)) = wakes_higher_of s0 u).
    { intros u. rewrite <- H1. unfold prio_of. now rewrite (st_current _ _ A3), !(st_prio _ _ A3). }
    rewrite !existsb_fmap, (existsb_ext _ _ _ H1), (existsb_ext _ _ _ H2). by_cases_existsb; intuition congruence.
  - split; [now rewrite M2, M1, app_assoc |]. split; [now apply (same_tasks_trans s s1) |]. do 3 (split; [congruence |]).
    split; [now rewrite fmap_app, !fmap_take, app_assoc |]. intros y. now rewrite B9.
Qed.

(** What a call that has to wait asks of the scheduler once it has suspended it, and [tx] and [rx] are the counts of the locks. *)
Definition wait_calls (sending : bool) (n : Z) (tx rx : nat) : prog sched unit :=
  vTaskPlaceOnEventList (list_of sending) n ;; unlock_calls rcv tx ;; unlock_calls snd rx.

(** C23: A call of [queue.c] that has to wait, on the scheduler: the queue's lists of waiting tasks are the
    scheduler's, in the order of the priorities, and both know of the same missed yields, before and after; and when
    the scheduler is resumed, the tasks made ready are ready, and the caller is so exactly if it is one of them or
    its time is over, the time of the whole call, however often its time-out has been looked at and adjusted. *)
Theorem waits_on_kernel sending q s t timeout n timeout' n' :
  on_kernel q s -> suspended s = 1 -> current s = Z.of_nat t -> current s ∈ ready_tasks s ->
  event_of s (current s) = Some NoList -> ~ waiting s (current s) ->
  wait_ok timeout n (abs_tick s) -> xTaskCheckForTimeOut (Some timeout) (Some n) s = Done (pdFALSE, timeout', n') s ->
  exists q' s1 s' woken,
    (place sending (before_of s) t ;; prvUnlockQueue (wakes_higher_of s) (ret tt)) q = Done tt q' /\
    wait_calls sending n' (Z.to_nat (cTxLock (queue q))) (Z.to_nat (cRxLock (queue q))) s = Done tt s1 /\ on_kernel q' s1 /\
    xTaskResumeAll s1 = Done pdFALSE s' /\ sched_ok s' /\ suspended s' = 0 /\
    made_ready q' = made_ready q ++ woken /\ Forall (fun u => Z.of_nat u ∈ ready_tasks s') woken /\
    (current s ∈ ready_tasks s' <-> t ∈ woken \/ over (gives_up timeout n) (abs_tick s') = true).
Proof.
  intros K Hs Ct Hr He Hw Hwait Hc. pose proof (ok_sched _ _ K) as H.
  pose proof (time_out_check_spec timeout n s (to_tick _ _ (so_time s H)) Hwait) as C.
  destruct (over (gives_up timeout n) (abs_tick s)); [rewrite C in Hc; discriminate |].
  destruct C as (t0 & n0 & E0 & _ & G & Hn & _). rewrite E0 in Hc. injection Hc as -> ->.
  destruct (place_implemented sending q s n' K t Ct Hn Hr He Hw) as (q1 & s1 & P1 & P2 & K1 & P & M1 & L1 & L2).
  assert (S1 : suspended s1 = 1) by (rewrite (pl_suspended _ _ _ _ P); exact Hs).
  destruct (unlock_implemented q1 s1 s K1 ltac:(lia) (pl_current _ _ _ _ P) (fun x => f_equal (default 0) (pl_prio _ _ _ _ P x))) as (q2 & s2 & woken & U1 & U2 & K2 & M2 & T2 & A2 & S2 & R2 & Q2 & D2).
  destruct (resume_spec s2 (ok_sched _ _ K2) ltac:(congruence)) as (s3 & E3 & R).
  exists q2, s2, s3, woken. unfold wait_calls. rewrite (bind_done _ _ _ _ _ P1), (bind_done _ _ _ _ _ P2). rewrite L1, L2 in U2.
  split; [exact U1 |]. split; [exact U2 |]. split; [exact K2 |]. split; [exact E3 |]. split; [apply R |]. split; [apply R |].
  split; [now rewrite M2, M1 |].
  assert (Np : current s ∉ pending s) by apply (event_outside s _ (so_events s H) He).
  assert (W : forall u, Z.of_nat u ∈ Z.of_nat <$> woken <-> u ∈ woken).
  { intros u. rewrite list_elem_of_fmap. split; [intros (v & E & Hv); now apply Nat2Z.inj in E as -> | eauto]. }
  split.
  - apply Forall_forall. intros u Hu. rewrite (rs_ready _ _ R), Q2. right. left. apply elem_of_app. right. now apply W.
  - rewrite (rs_ready _ _ R), R2, (pl_ready _ _ _ _ P), Q2, (pl_pending _ _ _ _ P), elem_of_app, D2, (pl_deadline _ _ _ _ P), G, Ct, W, <- Ct.
    assert (O : (exists d, gives_up timeout n = Some d /\ d <= abs_tick s3) <-> over (gives_up timeout n) (abs_tick s3) = true).
    { destruct (gives_up timeout n) as [d |]; cbn; [rewrite Z.leb_le; split; [now intros (? & [= ->] & ?) | eauto] | split; [now intros (? & ? & _) | discriminate]]. }
    rewrite O. tauto.
Qed.
End Kernel.

(** * An instance *)

(** The scheduler is suspended by task 3, and the queue is locked; [k] items have been put into it by interrupts since. *)
Definition ex_waiting : sched := with_suspended 1 ex_boot.
Definition ex_locked (k : Z) : qstate := mk_qstate (mk_queue 100 100 132 128 [] [] 0 8 4 0 k) ∅ [] false.

Lemma ex_on_kernel k : on_kernel 10 20 (ex_locked k) ex_waiting.
Proof.
  split; [| reflexivity | reflexivity | split; discriminate].
  destruct (sd_ok _ _ _ ex_started) as [[L1 L2 L3 L4 L5 L6 L7] [T1 T2 T3 T4 T5 T6] [E1 E2 E3 E4] Hc _ Hp].
  split; [now split | now split | now split | exact Hc | discriminate | exact Hp].
Qed.

(** Task 3 is woken by the item of the interrupt; without one it is not ready. *)
Lemma waits_on_kernel_witness :
  (exists s1 s', wait_calls 10 20 false 50 0 0 ex_waiting = Done tt s1 /\ xTaskResumeAll s1 = Done pdFALSE s' /\ (3 ∉ ready_tasks s')) /\
  (exists s1 s', wait_calls 10 20 false 50 1 0 ex_waiting = Done tt s1 /\ xTaskResumeAll s1 = Done pdFALSE s' /\ 3 ∈ ready_tasks s').
Proof.
  assert (W : forall k, k = 0 \/ k = 1 -> exists s1 s', wait_calls 10 20 false 50 (Z.to_nat k) 0 ex_waiting = Done tt s1 /\
    xTaskResumeAll s1 = Done pdFALSE s' /\ (3 ∈ ready_tasks s' <-> k = 1));
    [| split; [destruct (W 0 (or_introl eq_refl)) as (s1 & s' & E1 & E2 & R) | destruct (W 1 (or_intror eq_refl)) as (s1 & s' & E1 & E2 & R)];
       exists s1, s'; rewrite R; auto].
  intros k Hk. destruct (waits_on_kernel 10 20 ltac:(lia) false (ex_locked k) ex_waiting 3 (mk_timeout 0 0) 50 (mk_timeout 0 0) 50) as
    (q' & s1 & s' & woken & E1 & E2 & _ & E3 & _ & _ & M & _ & R).
  - apply ex_on_kernel.
  - reflexivity.
  - reflexivity.
  - vm_compute. repeat (left || right).
  - reflexivity.
  - now vm_compute.
  - split; vm_compute; intuition discriminate.
  - reflexivity.
  - exists s1, s'. split; [exact E2 |]. split; [exact E3 |].
    assert (A : abs_tick s' = 0) by (destruct Hk as [-> | ->]; vm_compute in E2; injection E2 as <-; vm_compute in E3; now injection E3 as <-).
    rewrite A in R. change 3 with (current ex_waiting). rewrite R. cbn in M. subst woken.
    destruct Hk as [-> | ->]; vm_compute in E1; injection E1 as <-; cbn.
    + rewrite elem_of_nil. split; [intros [[] | [=]] | discriminate].
    + split; [reflexivity | intros _; left; left].
Defined.
