(* ===== verification/SchedApp.v ===== *)
(** The scheduler the start of the application leaves, and what holds from there on. *)
From Stdlib Require Import ZArith Lia Bool.
From stdpp Require Import base decidable list gmap.
From S2P Require Import Prelude Queue Tasks TasksProofs AppStart AppStartProofs.
From S2P Require Import Sched SchedProofs SchedGive SchedNotify SchedStart.

(** A task control block and the kernel's state, as [Tasks] has them, in terms of the running scheduler. *)
Definition stcb_of (t : TCB_t) : stcb :=
  mk_stcb (uxPriority t) 0 (if xEventListItem_listed t then InPendingReady else NoList) (ulNotifiedValue t) (ucNotifyState t).

Definition sched_of (k : kernel) : sched :=
  mk_sched (stcb_of <$> tcbs k) (pxCurrentTCB k) (uxTopReadyPriority k) ((fun l => mk_cyc (Some <$> l) None) <$> pxReadyTasksLists k)
    [] [] (blocked k) (xPendingReadyList k) ∅ (xTickCount k) 0 0 (xNextTaskUnblockTime k) (uxSchedulerSuspended k) (xYieldPending k).

Section App.
Variable ucHeap : Z.
Variable sizeof_TCB_t : Z.
Variable portTASK_RETURN_ADDRESS : Z.
Variable prvIdleTask : Z.
Variable xIdleTaskTCB : Z.
Variable uxIdleTaskStack : Z.

#[local] Abbreviation packet_task := (packet_tcb ucHeap).
#[local] Abbreviation ip_task := (ip_tcb ucHeap sizeof_TCB_t).
#[local] Abbreviation app_kernel := (kernel_started ucHeap sizeof_TCB_t portTASK_RETURN_ADDRESS prvIdleTask xIdleTaskTCB uxIdleTaskStack).

Definition app_lists : list (list Z) := [[xIdleTaskTCB]; [packet_task]; [ip_task]; []; []].

Lemma fresh_task k a sp p name code arg : task_ready portTASK_RETURN_ADDRESS k a sp p name code arg -> stcb_of <$> tcbs k !! a = Some (new_task p).
Proof. intros (t & E & P & _ & N & S & L & _). rewrite E. cbn. unfold stcb_of, new_task. now rewrite P, N, S, L. Qed.

(** The idle task, the packet task and the IP task, each in the ready list of its priority. *)
Lemma app_scheduler_boots k code1 code2 arg : app_kernel k code1 code2 arg -> sched_of k = boot_sched app_lists ip_task.
Proof.
  intros [Cu Re Pa Ip Id _ _ Ta Ma [Cl1 Cl2] (Q1 & Q2 & Q3 & Q4) Di].
  assert (T : stcb_of <$> tcbs k = tasks_of 0 app_lists).
  { apply map_eq. intros x. rewrite lookup_fmap. cbn [tasks_of app_lists foldr]. rewrite !lookup_insert, lookup_empty.
    repeat (destruct (decide _) as [<- |]; [eapply fresh_task; eassumption |]).
    destruct (tcbs k !! x) as [t |] eqn:E; [| reflexivity]. destruct (Ta x) as [K | [K | K]]; [eauto | congruence ..]. }
  unfold sched_of, boot_sched. rewrite T, Cu, Re, Ma, Cl1, Cl2, Q1, Q2, Q3, Q4. reflexivity.
Qed.

Lemma app_scheduler_started k code1 code2 arg : app_kernel k code1 code2 arg -> started xIdleTaskTCB (sched_of k) (boot_points app_lists).
Proof.
  intros H. rewrite (app_scheduler_boots k code1 code2 arg H). pose proof (ks_distinct _ _ _ _ _ _ _ _ _ _ H) as D.
  apply boot_started; [reflexivity | exact D | |]; cbn; rewrite !elem_of_cons; tauto.
Qed.

(** However its tasks wait for notifications from here on, and whenever the interrupts come, no scheduler function fails. *)
Lemma app_tasks_run k code1 code2 arg l : app_kernel k code1 code2 arg -> Forall (input_ok (sched_of k)) l -> Z.of_nat (length l) <= 0xffffffff ->
  exists s pts, acts xIdleTaskTCB l (boot_points app_lists) (sched_of k) = Done pts s /\ sched_ok s /\ xIdleTaskTCB ∈ ready_tasks s.
Proof.
  intros H F Hl. pose proof (started_inv _ _ _ (app_scheduler_started k code1 code2 arg H)) as I.
  destruct (acts_run xIdleTaskTCB l 0 _ _ I F Hl) as (s & pts & E & I'). exists s, pts. split; [exact E |].
  split; [apply I' | exact (idle_ready _ _ _ _ I')].
Qed.
End App.
