(* ===== verification/System.v ===== *)
(** The application on its device.

    [App] takes what the driver returns as events. Here those events are the driver's own results: the
    state is that of the two tasks together with the driver, the device behind it, and the local variables
    of [packet_handling_task]; a call of [enc28_read_packet] or [enc28_write_packet] is one step and runs
    the whole function on the device. Whatever the driver returns, the packet task goes on as its code does;
    after a receive error too, but that the recovery from one may lose what is in the ring, so the theorems of
    [SystemProofs] are about states in which [receive_errors] is still zero. What remains of the environment is
    lwIP, and the network: a frame arrives by being stored in the receive ring behind the frames already waiting
    there. The conditions on both are [lwip_keeps], [good_frame] and [fits]. *)
From Stdlib Require Import ZArith Lia Bool.
From stdpp Require Import base decidable list gmap.
From S2P Require Import Prelude Enc28Regs Enc28Driver Enc28Device Enc28Spec Enc28Hoare Enc28Init.
From S2P Require Import Enc28Transmit Enc28Receive App AppTyping.

(** ** The device stores a frame *)

#[local] Abbreviation st := ENC28_CONF_RX_ADDRESS_START.
#[local] Abbreviation nd := ENC28_CONF_RX_ADDRESS_END.

Fixpoint put_ring (p : Z) (bytes : list Z) (m : gmap Z Z) : gmap Z Z :=
  match bytes with
  | [] => m
  | b :: bytes' => put_ring (ring_next st nd p) bytes' (<[p := b]> m)
  end.

(** Where the frames [fs] that start at [p] end, and how many bytes of the ring they take. *)
Fixpoint queue_end (p : Z) (fs : list rx_frame) : Z :=
  match fs with [] => p | f :: fs' => queue_end (fr_next f) fs' end.

Fixpoint queue_size (p : Z) (fs : list rx_frame) : Z :=
  match fs with [] => 0 | f :: fs' => ring_dist p (fr_next f) + queue_size (fr_next f) fs' end.

Definition store_frame (p : Z) (f : rx_frame) (c : chip) : chip :=
  mk_chip (regs c) (put_ring p (frame_bytes f) (buffer c)) (rx_released c) (phy c) (clk_wait c) (mii_wait c)
    (sent c) (released c) (S (arrived c)).

(** A frame the application can take: received without error, not longer than its buffers. *)
Definition good_frame (f : rx_frame) : Prop :=
  frame_wf f /\ frame_ok f = true /\ frame_len f <= Z.of_nat MAX_ETH_PACKET_SIZE /\ Forall is_u8 (fr_data f).

(** There is room for [f] behind the frames waiting from [p] on. *)
Definition fits (p : Z) (waiting : list rx_frame) (f : rx_frame) : Prop :=
  6 + frame_len f <= ring_dist (queue_end p waiting) (fr_next f) <= ring_size - queue_size p waiting.

(** ** The system *)

Record system (W : Type) : Type := mk_system {
  sys_app : net_app;
  sys_drv : drv W;
  pkt_buf : list Z;
  status_vec : ENC28_Receive_Status_Vector;
  frames : list rx_frame;                    (** history: frames the device has stored *)
  receive_errors : nat                       (** history: how often a read returned ENC28_PACKET_RCV_ERR *)
}.
Arguments mk_system {W}.
Arguments sys_app {W}.
Arguments sys_drv {W}.
Arguments pkt_buf {W}.
Arguments status_vec {W}.
Arguments frames {W}.
Arguments receive_errors {W}.

(** [(status_vec.packet_len_hi << 8) | status_vec.packet_len_lo] *)
Definition packet_len (v : ENC28_Receive_Status_Vector) : Z :=
  u16 (Z.shiftl (packet_len_hi v) 8 .| packet_len_lo v).

(** The frames in the ring: those not yet read. *)
Definition waiting {W} (s : system W) : list rx_frame := drop (length (received (sys_app s))) (frames s).

(** Everything but the calls into the driver. *)
Definition is_local (e : event) : bool := match e with ERead _ _ | EWrite _ => false | _ => true end.

Inductive sys_event : Type :=
| SLocal (e : event)
| SRead
| SWrite.

Section System.
Context {W : Type} (d : spi_callbacks W) `{HD : !Enc28Device d}.
#[local] Abbreviation ctx := (Some (context_of d)).

Definition sys_exec (ev : sys_event) (s : system W) : option (system W) :=
  match ev with
  | SLocal e =>
    if is_local e then
      app ← step e (sys_app s);
      Some (mk_system app (sys_drv s) (pkt_buf s) (status_vec s) (frames s) (receive_errors s))
    else None
  | SRead =>
    match enc28_read_packet ctx (Some (pkt_buf s)) (Z.of_nat MAX_ETH_PACKET_SIZE) (Some (status_vec s)) (sys_drv s) with
    | Done (rcv_stat, b, v) drv' =>
      let b := default (pkt_buf s) b in
      let v := default (status_vec s) v in
      app ← step (ERead rcv_stat (take (Z.to_nat (packet_len v)) b)) (sys_app s);
      Some (mk_system app drv' b v (frames s)
              (if decide (rcv_stat = ENC28_PACKET_RCV_ERR) then S (receive_errors s) else receive_errors s))
    | _ => None
    end
  | SWrite =>
    match packet_task (sys_app s) with
    | PSend i =>
      let to_send := buff_at (sys_app s) i in
      match enc28_write_packet ctx (Some (buf to_send)) (used_bytes to_send) (sys_drv s) with
      | Done send_stat drv' =>
        app ← step (EWrite send_stat) (sys_app s);
        Some (mk_system app drv' (pkt_buf s) (status_vec s) (frames s) (receive_errors s))
      | _ => None
      end
    | _ => None
    end
  end.

(** What lwIP is relied on for: it frees an input buffer before its input function returns, and what it
    sends are bytes that start with an Ethernet header, no more than a buffer holds. *)
Definition lwip_keeps (ev : sys_event) (s : system W) : Prop :=
  match ev with
  | SLocal e => frees_promptly e (sys_app s) /\
      match e with EOutput p => packet_ok (payload p) /\ (14 <= length (payload p))%nat | _ => True end
  | _ => True
  end.

(** The frame [f] arrives: whatever chip the device stands for, it is stored behind the waiting frames. *)
Definition frame_arrives (f : rx_frame) (s : system W) (w' : W) : Prop :=
  good_frame f /\
  forall c, is_chip (d := d) c (sys_drv s) ->
    fits (read_ptr c) (waiting s) f /\ rep w' (store_frame (queue_end (read_ptr c) (waiting s)) f c).

Inductive sys_step : system W -> system W -> Prop :=
| step_exec ev s s' : lwip_keeps ev s -> sys_exec ev s = Some s' -> sys_step s s'
| step_arrives f w' s : frame_arrives f s w' ->
    sys_step s (mk_system (sys_app s) (mk_drv (priv_enc28_curr_bank (sys_drv s)) w') (pkt_buf s) (status_vec s)
                  (frames s ++ [f]) (receive_errors s)).

(** The tasks about to start on a device that receives, with nothing in its ring, and that has sent [sent0]. *)
Record sys_start (sent0 : list (list Z)) (s : system W) : Prop := {
  start_app : sys_app s = app_init;
  start_chip : exists c, is_chip (d := d) c (sys_drv s) /\ rx_ready c /\ rx_settled c /\ released c = 0%nat /\ arrived c = 0%nat /\
                         sent c = sent0;
  start_buf : length (pkt_buf s) = MAX_ETH_PACKET_SIZE;
  start_frames : frames s = [];
  start_errors : receive_errors s = 0%nat
}.

Inductive sys_reachable (sent0 : list (list Z)) : system W -> Prop :=
| sys_reach_start s : sys_start sent0 s -> sys_reachable sent0 s
| sys_reach_step s s' : sys_reachable sent0 s -> sys_step s s' -> sys_reachable sent0 s'.
End System.
