(* ===== verification/SystemProofs.v ===== *)
(** What the application does with the frames that arrive and the packets it is given, end to end. *)
From Stdlib Require Import ZArith Lia Bool.
From stdpp Require Import base decidable list gmap.
From S2P Require Import Prelude Enc28Regs Enc28Driver Enc28Device Enc28Spec Enc28Hoare Enc28Init.
From S2P Require Import Enc28Transmit Enc28Receive Enc28Sim App AppTyping AppStart AppStartProofs System.

#[local] Abbreviation st := ENC28_CONF_RX_ADDRESS_START.
#[local] Abbreviation nd := ENC28_CONF_RX_ADDRESS_END.

(** * Storing a frame in the ring *)

Lemma ring_iter_inj p i j : st <= p <= nd -> Z.of_nat i < ring_size -> Z.of_nat j < ring_size ->
  ring_iter st nd i p = ring_iter st nd j p -> i = j.
Proof.
  intros Hp Hi Hj. rewrite !ring_iter_linear by assumption. unfold ring_size, st, nd in *.
  repeat case_match; rewrite ?Z.leb_le, ?Z.leb_gt in *; lia.
Qed.

Lemma put_ring_out bytes : forall p m a,
  (forall i, (i < length bytes)%nat -> ring_iter st nd i p <> a) -> put_ring p bytes m !! a = m !! a.
Proof.
  induction bytes as [| b bytes IH]; intros p m a H; [reflexivity |]. cbn [put_ring]. rewrite IH.
  - apply lookup_insert_ne. exact (H 0%nat ltac:(cbn; lia)).
  - intros i Hi. exact (H (S i) ltac:(cbn; lia)).
Qed.

Lemma put_ring_at bytes : forall p m i x, st <= p <= nd -> Z.of_nat (length bytes) <= ring_size ->
  bytes !! i = Some x -> put_ring p bytes m !! ring_iter st nd i p = Some x.
Proof.
  induction bytes as [| b bytes IH]; intros p m i x Hp Hl Hx; [discriminate |].
  cbn [length] in Hl. cbn [put_ring]. destruct i as [| i].
  - injection Hx as ->. cbn [ring_iter]. rewrite put_ring_out; [apply lookup_insert_eq |].
    intros i Hi E. apply (ring_iter_inj p (S i) 0) in E; [discriminate | exact Hp | lia | lia].
  - cbn [ring_iter]. apply IH; [| lia | exact Hx]. apply ring_next_range; [unfold st; lia | unfold nd; lia | exact Hp].
Qed.

Lemma queue_size_nonneg c : forall fs p room, rx_queue c p room fs -> 0 <= queue_size p fs.
Proof.
  induction fs as [| f fs IH]; intros p room H; cbn [queue_size]; [lia |]. destruct H as (_ & _ & Hd & H).
  apply IH in H. unfold frame_len in Hd. lia.
Qed.

Lemma queue_end_at c p : st <= p <= nd -> forall fs q e room,
  st <= q <= nd -> q = ring_iter st nd e p -> rx_queue c q room fs ->
  exists e', queue_end q fs = ring_iter st nd e' p /\ Z.of_nat e' = Z.of_nat e + queue_size q fs.
Proof.
  intros Hp. induction fs as [| h fs IH]; intros q e room Hq Eq Hfs; cbn [queue_end queue_size].
  - exists e. split; [exact Eq | lia].
  - destruct Hfs as (Hw & _ & Hd & Hfs). unfold frame_len in Hd.
    assert (En : fr_next h = ring_iter st nd (e + Z.to_nat (ring_dist q (fr_next h))) p).
    { rewrite ring_iter_add, <- Eq. symmetry. apply ring_iter_dist; [exact Hq | apply Hw]. }
    destruct (IH (fr_next h) _ _ (proj1 Hw) En Hfs) as (e' & E1 & E2).
    exists e'. split; [exact E1 |]. lia.
Qed.

(** The waiting frames stay, the stored one follows them. *)
Lemma rx_queue_stored c f p : rx_start c = st -> rx_end c = nd -> st <= p <= nd -> frame_wf f ->
  forall fs q e room, st <= q <= nd -> q = ring_iter st nd e p -> Z.of_nat e + room = ring_size ->
  rx_queue c q room fs -> 6 + frame_len f <= ring_dist (queue_end q fs) (fr_next f) <= room - queue_size q fs ->
  rx_queue (store_frame (queue_end q fs) f c) q room (fs ++ [f]).
Proof.
  intros R1 R2 Hp Hwf. induction fs as [| g fs IH]; intros q e room Hq Eq Hroom Hfs Hfit.
  - cbn [queue_end queue_size app] in *. split; [exact Hwf |]. split; [| split; [lia | exact I]].
    intros i x Hi. change (rx_start (store_frame q f c)) with (rx_start c). change (rx_end (store_frame q f c)) with (rx_end c).
    rewrite R1, R2. cbn [buffer store_frame]. apply put_ring_at; [exact Hq | | exact Hi].
    unfold frame_bytes, frame_len in *. rewrite length_app. cbn [length]. lia.
  - destruct Hfs as (Gwf & Gat & Gd & Gfs). cbn [queue_end queue_size app] in *.
    assert (Gr : st <= fr_next g <= nd) by apply Gwf.
    assert (Gn : fr_next g = ring_iter st nd (e + Z.to_nat (ring_dist q (fr_next g))) p).
    { rewrite ring_iter_add, <- Eq. symmetry. now apply ring_iter_dist. }
    pose proof (queue_size_nonneg c _ _ _ Gfs) as Hsz.
    assert (0 <= frame_len g /\ 0 <= frame_len f) by (unfold frame_len; lia).
    split; [exact Gwf |]. split; [| split; [exact Gd |]].
    + intros i x Hi. change (rx_start (store_frame _ f c)) with (rx_start c). change (rx_end (store_frame _ f c)) with (rx_end c).
      rewrite R1, R2. cbn [buffer store_frame]. rewrite put_ring_out.
      * rewrite <- (Gat i x Hi), R1, R2. reflexivity.
      * destruct (queue_end_at c p Hp fs (fr_next g) _ _ Gr Gn Gfs) as (e' & E1 & E2). rewrite E1, Eq.
        intros j Hj E. rewrite <- !ring_iter_add in E. apply lookup_lt_Some in Hi.
        unfold frame_bytes in Hi, Hj. rewrite length_app in Hi, Hj. cbn [length] in Hi, Hj. unfold frame_len in *.
        apply ring_iter_inj in E; [lia | exact Hp | lia | lia].
    + apply IH with (e := (e + Z.to_nat (ring_dist q (fr_next g)))%nat); [exact Gr | exact Gn | lia | exact Gfs | lia].
Qed.

(** The frames depend on the bytes in the ring only. *)
Lemma rx_queue_in_ring c c' fs : rx_ready c -> ring_kept c c' ->
  (forall a, in_ring c a = true -> buffer c' !! a = buffer c !! a) ->
  rx_queue c (read_ptr c) ring_size fs -> rx_queue c' (read_ptr c) ring_size fs.
Proof.
  intros (R1 & R2 & _ & R4) [K1 K2] Hb Hq.
  refine (rx_queue_kept c c' (read_ptr c) 0 _ _ 0 _ R1 R2 _ _ R4 _ eq_refl R4 _ _ _ Hq); [congruence | congruence | lia.. |].
  intros i Hi. apply Hb. unfold in_ring. rewrite R1, R2.
  pose proof (ring_iter_range st nd i ltac:(unfold st; lia) ltac:(unfold nd; lia) _ R4) as [G1 G2].
  now rewrite (proj2 (Z.leb_le _ _) G1), (proj2 (Z.leb_le _ _) G2).
Qed.

(** * Histories *)

Definition long (p : list Z) : Prop := (14 <= length p)%nat.

(** What each event adds to the packets read from and written to the device. *)
Definition reads (e : event) : list (list Z) :=
  match e with ERead st data => if is_ok st then [data] else [] | _ => [] end.
Definition writes (e : event) (s : net_app) : list (list Z) :=
  match e, packet_task s with EWrite _, PSend b => [packet_of (buff_at s b)] | _, _ => [] end.

#[local] Ltac step_cases E :=
  repeat match type of E with
         | context [match ?x with _ => _ end] => destruct x eqn:?; try discriminate E; cbn in E
         | context [if ?x then _ else _] => destruct x eqn:?; try discriminate E; cbn in E
         end;
  try (injection E as <-); cbn; rewrite ?app_nil_r.

Lemma step_histories e s s' : step e s = Some s' ->
  received s' = received s ++ reads e /\ transmitted s' = transmitted s ++ writes e s /\
  (submitted s' = submitted s \/ exists p, e = EOutput p /\ submitted s' = submitted s ++ [payload p]).
Proof.
  intros E. destruct e; cbn [step reads writes] in *;
    unfold packet_init, packet_read, packet_take_free, packet_push_ready, packet_take_transmit, packet_write,
      packet_notified, ip_take_ready, enc28_netif_output, enc28_pbuf_free, ip_input_return, ip_timeouts_return,
      xQueueReceive, xQueueSend in E;
    step_cases E; auto; eauto 10.
Qed.

(** * The invariant of the system *)

(** A frame on the wire that carries the packet [p]: the packet, and the byte the driver sends too much. *)
Definition carries (p o : list Z) : Prop := exists extra, is_u8 extra /\ o = p ++ [extra].

Record chip_inv (sent0 : list (list Z)) (app : net_app) (fs : list rx_frame) (c : chip) : Prop := {
  ci_ready : rx_ready c;
  ci_settled : rx_settled c;
  ci_queue : rx_queue c (read_ptr c) ring_size fs;
  ci_count : arrived c = (released c + length fs)%nat;
  ci_sent : exists outs, sent c = sent0 ++ outs /\ Forall2 carries (transmitted app) outs
}.

Lemma packet_len_vector f : frame_wf f -> packet_len (frame_vector f) = frame_len f.
Proof. intros H. unfold packet_len. cbn. now apply frame_len_u16. Qed.

Lemma drop_cons {A} (l : list A) n x r : drop n l = x :: r -> drop (S n) l = r /\ take (S n) l = take n l ++ [x].
Proof.
  intros E. assert (Hx : l !! n = Some x) by (rewrite <- (Nat.add_0_r n), <- lookup_drop, E; reflexivity).
  rewrite (drop_S l x n Hx) in E. injection E as E. split; [exact E | now apply take_S_r].
Qed.

Section Invariant.
Context {W : Type} {d : spi_callbacks W} `{HD : !Enc28Device d}.
Variable sent0 : list (list Z).
Implicit Types s : system W.

Record sys_inv s : Prop := {
  si_app : app_inv (sys_app s);
  si_typed : app_typed (sys_app s);
  si_long : Forall long (submitted (sys_app s));
  si_buf : length (pkt_buf s) = MAX_ETH_PACKET_SIZE;
  si_good : Forall good_frame (frames s);
  si_received : received (sys_app s) = fr_data <$> take (length (received (sys_app s))) (frames s);
  si_chip : exists c, is_chip (d := d) c (sys_drv s) /\ chip_inv sent0 (sys_app s) (waiting s) c
}.

Lemma received_bound s : sys_inv s -> (length (received (sys_app s)) <= length (frames s))%nat.
Proof. intros H. pose proof (f_equal length (si_received s H)) as E. rewrite length_fmap, length_take in E. lia. Qed.

Lemma app_parts e app app' : app_inv app -> app_typed app -> Forall long (submitted app) ->
  frees_promptly e app -> event_typed e -> (forall p, e = EOutput p -> long (payload p)) -> step e app = Some app' ->
  app_inv app' /\ app_typed app' /\ Forall long (submitted app').
Proof.
  intros H1 H2 H3 Hp Ht Ho E. split; [now apply step_inv with e app |]. split; [now apply step_typed with e app |].
  destruct (step_histories e app app' E) as (_ & _ & [-> | (p & -> & ->)]); [exact H3 |].
  apply Forall_app. split; [exact H3 |]. constructor; [now apply Ho | constructor].
Qed.

Lemma sys_local_inv e s s' : sys_inv s -> lwip_keeps (SLocal e) s -> sys_exec d (SLocal e) s = Some s' -> sys_inv s'.
Proof.
  intros [H1 H2 H3 H4 H5 H6 (c & Hc & [C1 C2 C3 C4 C5])] [Hp Ho] E. cbn in E.
  destruct (is_local e) eqn:El; [| discriminate]. destruct (step e (sys_app s)) as [app |] eqn:Es; [| discriminate].
  injection E as <-.
  destruct (step_histories _ _ _ Es) as (Er & Et & _).
  assert (Er' : received app = received (sys_app s)) by (rewrite Er; destruct e; cbn in *; try discriminate; apply app_nil_r).
  assert (Et' : transmitted app = transmitted (sys_app s)) by (rewrite Et; destruct e; cbn in *; try discriminate; apply app_nil_r).
  destruct (app_parts e (sys_app s) app H1 H2 H3 Hp) as (A1 & A2 & A3); [| | exact Es |].
  { destruct e; cbn in *; try discriminate; auto; tauto. } { intros p ->. apply Ho. }
  split; cbn; auto.
  - now rewrite Er'.
  - exists c. split; [exact Hc |]. unfold waiting in *. cbn. rewrite Er'. split; auto. now rewrite Et'.
Qed.

(** A read, by the value EIR reads as. *)
Lemma read_step s v : sys_inv s -> eir_now d (Enc28Driver.world (sys_drv s)) = [v] ->
  exists rcv_stat b vec drv' c, enc28_read_packet (Some (context_of d)) (Some (pkt_buf s)) (Z.of_nat MAX_ETH_PACKET_SIZE)
      (Some (status_vec s)) (sys_drv s) = Done (rcv_stat, Some b, Some vec) drv' /\
    is_chip c drv' /\
    (rcv_stat = ENC28_PACKET_RCV_ERR /\ Z.testbit v ENC28_EIR_PKTIF = false /\ Z.testbit v ENC28_EIR_RXERIF = true \/
     rcv_stat = ENC28_NO_DATA /\ Z.testbit v ENC28_EIR_PKTIF = false /\ Z.testbit v ENC28_EIR_RXERIF = false /\
       length b = MAX_ETH_PACKET_SIZE /\ chip_inv sent0 (sys_app s) (waiting s) c \/
     rcv_stat = ENC28_OK /\ Z.testbit v ENC28_EIR_PKTIF = true /\ length b = MAX_ETH_PACKET_SIZE /\
       exists f fs, waiting s = f :: fs /\ take (Z.to_nat (packet_len vec)) b = fr_data f /\
         packet_ok (fr_data f) /\ chip_inv sent0 (sys_app s) fs c).
Proof.
  intros HI Hv. destruct HI as [H1 H2 H3 H4 H5 H6 (c & Hc & [C1 C2 C3 C4 (outs & C5 & C6)])].
  assert (Hgood : Forall good_frame (waiting s)) by (now apply Forall_drop).
  destruct (receive_step c (waiting s) (pkt_buf s) (Z.of_nat MAX_ETH_PACKET_SIZE) (status_vec s) v C1 C2 C3 C4)
    with (s := sys_drv s) as (r & drv' & Er & c' & Hc' & Es & _ & Hr); [| lia | now split |].
  { eapply Forall_impl; [exact Hgood |]. intros f (_ & G2 & G3 & _). now split. }
  assert (Eo : exists outs, sent c' = sent0 ++ outs /\ Forall2 carries (transmitted (sys_app s)) outs)
    by (exists outs; rewrite Es; auto).
  destruct Hr as [(-> & E1 & E2) | (fs' & D1 & D2 & D3 & D4 & [(-> & -> & E1 & E2) | (f & Hf & E1 & ->)])].
  - eexists _, _, _, drv', c'. split; [exact Er |]. auto 10.
  - eexists _, _, _, drv', c'. split; [exact Er |]. split; [exact Hc' |]. right. left.
    split; [reflexivity |]. split; [exact E1 |]. split; [exact E2 |]. split; [exact H4 |]. now split.
  - eexists _, _, _, drv', c'. split; [exact Er |]. split; [exact Hc' |]. right. right.
    rewrite Hf in Hgood. apply Forall_cons in Hgood as [(G1 & _ & G3 & G4) _]. unfold frame_len in G3.
    split; [reflexivity |]. split; [exact E1 |]. split; [rewrite length_app, length_drop; lia |].
    exists f, fs'. split; [exact Hf |]. split.
    + rewrite (packet_len_vector f G1). unfold frame_len. now rewrite Nat2Z.id, take_app_length.
    + split; [split; [lia | exact G4] | now split].
Qed.

Lemma sys_read_inv s s' : sys_inv s -> sys_exec d SRead s = Some s' -> receive_errors s' = 0%nat -> sys_inv s'.
Proof.
  intros HI E Hne. pose proof (received_bound s HI) as Hbound.
  destruct (si_chip s HI) as (c0 & Hc0 & _). destruct (shows_some_eir c0 (sys_drv s) Hc0) as (v & _ & Hv).
  destruct (read_step s v HI Hv) as (rs & b & vec & drv' & c & Er & Hc & Hr).
  unfold sys_exec in E. rewrite Er in E. cbn [default from_option id step] in E.
  destruct (packet_read _ _ (sys_app s)) as [app |] eqn:Ea; [| discriminate]. cbn in E. injection E as <-.
  destruct HI as [H1 H2 H3 H4 H5 H6 _].
  destruct (step_histories (ERead _ _) _ _ Ea) as (Hrec & Htr & _). cbn [reads writes] in Hrec, Htr. rewrite app_nil_r in Htr.
  destruct Hr as [(-> & _) | [(-> & _ & _ & Lb & HC) | (-> & _ & Lb & f & fs & Hf & Et & Hp & HC)]]; [discriminate Hne | |].
  - cbn [is_ok] in Hrec. rewrite app_nil_r in Hrec.
    destruct (app_parts (ERead ENC28_NO_DATA _) _ _ H1 H2 H3 eq_refl ltac:(discriminate) ltac:(discriminate) Ea) as (A1 & A2 & A3).
    split; cbn; auto; [now rewrite Hrec |].
    exists c. split; [exact Hc |]. unfold waiting in *. cbn. rewrite Hrec. destruct HC as [C1 C2 C3 C4 C5]. split; auto. now rewrite Htr.
  - rewrite Et in Ea, Hrec. cbn [is_ok] in Hrec.
    destruct (app_parts (ERead ENC28_OK (fr_data f)) _ _ H1 H2 H3 eq_refl (fun _ => Hp) ltac:(discriminate) Ea) as (A1 & A2 & A3).
    destruct (drop_cons _ _ _ _ Hf) as [K1 K2].
    assert (Hlen : length (received app) = S (length (received (sys_app s)))) by (rewrite Hrec, length_app; cbn; lia).
    split; cbn; auto.
    + rewrite Hlen, K2, fmap_app, <- H6. exact Hrec.
    + exists c. split; [exact Hc |]. unfold waiting. cbn. rewrite Hlen, K1. destruct HC as [C1 C2 C3 C4 C5]. split; auto. now rewrite Htr.
Qed.

(** The buffer being sent holds a packet that can be sent. *)
Lemma sending_ok app i : app_inv app -> app_typed app -> Forall long (submitted app) -> packet_task app = PSend i ->
  14 <= used_bytes (buff_at app i) <= Z.of_nat (length (buf (buff_at app i))) /\ Forall is_u8 (buf (buff_at app i)) /\
  used_bytes (buff_at app i) <= Z.of_nat MAX_ETH_PACKET_SIZE.
Proof.
  intros H1 H2 H3 Ep. destruct (buff_at_ok app i (typed_buffers _ H2)) as [B1 B2 B3].
  assert (Hb : in_bounds app i).
  { pose proof (typed_carriers _ H2) as Hc. rewrite Forall_forall in Hc. apply Hc. unfold carriers. rewrite Ep.
    rewrite !elem_of_app. right. right. now left. }
  assert (Hl : long (packet_of (buff_at app i))).
  { rewrite (inv_submitted _ H1) in H3. unfold in_output in H3. rewrite Ep in H3. rewrite !Forall_app in H3.
    destruct H3 as (_ & H3 & _). now apply Forall_cons in H3 as [H3 _]. }
  unfold in_bounds in Hb. unfold long, packet_of in Hl. rewrite length_take in Hl. rewrite B1. split; [lia | auto].
Qed.

(** A call of [enc28_write_packet] by the packet task. *)
Lemma write_step c i s : chip_inv sent0 (sys_app s) (waiting s) c -> is_chip (d := d) c (sys_drv s) ->
  app_inv (sys_app s) -> app_typed (sys_app s) -> Forall long (submitted (sys_app s)) ->
  packet_task (sys_app s) = PSend i ->
  exists st drv' c', enc28_write_packet (Some (context_of d)) (Some (buf (buff_at (sys_app s) i)))
      (used_bytes (buff_at (sys_app s) i)) (sys_drv s) = Done st drv' /\
    is_chip c' drv' /\ rx_ready c' /\ rx_settled c' /\ rx_queue c' (read_ptr c') ring_size (waiting s) /\
    arrived c' = (released c' + length (waiting s))%nat /\
    (st = ENC28_PACKET_TX_IN_PROGRESS /\ tx_busy c = true /\ sent c' = sent c \/
     st = ENC28_OK /\ exists o, carries (packet_of (buff_at (sys_app s) i)) o /\ sent c' = sent c ++ [o]).
Proof.
  intros [C1 C2 C3 C4 C5] Hc H1 H2 H3 Ep. destruct (sending_ok _ i H1 H2 H3 Ep) as (S1 & S2 & S3).
  assert (Hst : rx_start c = 2000) by apply C1.
  destruct (enc28_write_packet_spec (d := d) c (buf (buff_at (sys_app s) i)) (used_bytes (buff_at (sys_app s) i)) S1 S2)
    with (s := sys_drv s) as (st & drv' & E & c' & Hc' & Hb & Hsent & [Hk [K3 K4]] & (K5 & _ & K6 & K7)).
  { rewrite Hst. unfold ENC28_CONF_TX_ADDRESS_START, MAX_ETH_PACKET_SIZE in *. lia. } { lia. } { exact Hc. }
  exists st, drv', c'. split; [exact E |]. split; [exact Hc' |].
  pose proof (rx_queue_in_ring c c' _ C1 Hk Hb C3) as Hq. destruct C1 as (R1 & R2 & R3 & R4), Hk as [K1 K2].
  split; [unfold rx_ready; rewrite K1, K2, K3, K4; auto |]. split; [unfold rx_settled; now rewrite K5, K4 |].
  split; [now rewrite K4 |]. split; [congruence |].
  destruct Hsent as [Hsent | (-> & x & Hx & Es)]; [now left | right]. split; [reflexivity |]. eexists. split; [| exact Es]. now exists x.
Qed.

Lemma sys_write_inv s s' : sys_inv s -> sys_exec d SWrite s = Some s' -> sys_inv s'.
Proof.
  intros [H1 H2 H3 H4 H5 H6 (c & Hc & HC)] E. unfold sys_exec in E. cbv zeta in E. cbn [step] in E.
  destruct (packet_task (sys_app s)) as [| | | | | i |] eqn:Ep; try discriminate.
  destruct (write_step c i s HC Hc H1 H2 H3 Ep) as (st & drv' & c' & Ew & Hc' & D1 & D2 & D3 & D4 & Hst).
  destruct HC as [_ _ _ _ (outs & C5 & C6)]. rewrite Ew in E.
  destruct (packet_write st (sys_app s)) as [app |] eqn:Ea; [| discriminate]. cbn in E. injection E as <-.
  destruct Hst as [[-> _] | (-> & o & Ho & Es)]; [unfold packet_write in Ea; rewrite Ep in Ea; discriminate |].
  assert (Ea' : step (EWrite ENC28_OK) (sys_app s) = Some app) by exact Ea.
  destruct (step_histories _ _ _ Ea') as (Hrec & Htr & _). cbn [reads writes] in Hrec, Htr. rewrite Ep in Htr.
  rewrite app_nil_r in Hrec.
  destruct (app_parts (EWrite ENC28_OK) _ _ H1 H2 H3 eq_refl I ltac:(discriminate) Ea') as (A1 & A2 & A3).
  split; cbn; auto; [now rewrite Hrec |].
  exists c'. split; [exact Hc' |]. unfold waiting in *. cbn. rewrite Hrec. split; auto.
  exists (outs ++ [o]). rewrite Es, C5, Htr, app_assoc. split; [reflexivity |]. apply Forall2_app; [exact C6 | now repeat constructor].
Qed.

Lemma sys_arrives_inv f w' s : sys_inv s -> frame_arrives d f s w' ->
  sys_inv (mk_system (sys_app s) (mk_drv (priv_enc28_curr_bank (sys_drv s)) w') (pkt_buf s) (status_vec s) (frames s ++ [f])
             (receive_errors s)).
Proof.
  intros HI [Hf Harr]. pose proof (received_bound s HI) as Hbound.
  destruct HI as [H1 H2 H3 H4 H5 H6 (c & Hc & [C1 C2 C3 C4 C5])].
  destruct (Harr c Hc) as [Hfits Hrep]. destruct C1 as (R1 & R2 & R3 & R4).
  assert (Ew : forall l, drop (length (received (sys_app s))) (frames s ++ l) = waiting s ++ l).
  { intros l. unfold waiting. apply drop_app_le. exact Hbound. }
  split; cbn; auto.
  - apply Forall_app. split; [exact H5 | now constructor].
  - rewrite take_app_le by exact Hbound. exact H6.
  - exists (store_frame (queue_end (read_ptr c) (waiting s)) f c). split.
    + split; [exact Hrep |]. cbn. apply Hc.
    + match goal with |- chip_inv _ _ ?l _ => replace l with (waiting s ++ [f]) by (symmetry; apply Ew) end.
      split; [now split | exact C2 | | | exact C5].
      * apply (rx_queue_stored c f (read_ptr c) R1 R2 R4 (proj1 Hf) (waiting s) (read_ptr c) 0 ring_size); auto.
      * cbn. rewrite C4, length_app. cbn. lia.
Qed.

(** Receive errors are only counted up. *)
Lemma sys_exec_errors ev s s' : sys_exec d ev s = Some s' -> (receive_errors s <= receive_errors s')%nat.
Proof.
  destruct ev as [e | |]; unfold sys_exec; cbv zeta; intros E.
  - destruct (is_local e); [| discriminate]. destruct (step e _); [| discriminate]. cbn in E. now injection E as <-.
  - destruct (enc28_read_packet _ _ _ _ _) as [[[st b] v] drv' | | |]; try discriminate.
    destruct (step _ _); [| discriminate]. cbn in E. injection E as <-. cbn. destruct (decide _); lia.
  - destruct (packet_task _); try discriminate. destruct (Enc28Driver.enc28_write_packet _ _ _ _); try discriminate.
    destruct (step _ _); [| discriminate]. cbn in E. now injection E as <-.
Qed.

Lemma sys_step_errors s s' : sys_step d s s' -> (receive_errors s <= receive_errors s')%nat.
Proof. intros [ev s1 s2 _ E | f w' s1 _]; [now apply sys_exec_errors with ev | reflexivity]. Qed.

Lemma sys_step_inv s s' : sys_inv s -> sys_step d s s' -> receive_errors s' = 0%nat -> sys_inv s'.
Proof.
  intros HI H Hne. destruct H as [[e | |] s s' Hk E | f w' s Hf].
  - now apply sys_local_inv with e s.
  - now apply sys_read_inv with s.
  - now apply sys_write_inv with s.
  - now apply sys_arrives_inv.
Qed.

Lemma sys_reachable_inv s : sys_reachable d sent0 s -> receive_errors s = 0%nat -> sys_inv s.
Proof.
  induction 1 as [s [S1 (c & Hc & R1 & R2 & R3 & R4 & R5) S3 S4 S5] | s s' _ IH Hs]; intros Hne.
  - split; rewrite ?S1, ?S4; auto.
    + apply reachable_inv. constructor.
    + apply app_init_typed.
    + exists c. split; [exact Hc |]. unfold waiting. rewrite S4, drop_nil. split; auto; [exact I | now rewrite R3, R4 |].
      exists []. rewrite app_nil_r. split; [exact R5 | apply Forall2_nil_2].
  - pose proof (sys_step_errors _ _ Hs). apply (sys_step_inv s s'); [apply IH; lia | exact Hs | exact Hne].
Qed.

(** * End to end *)

(** C2: Between the network and lwIP nothing that is accepted is lost, reordered or altered, as long as only frames
    arrive that are free of errors and fit into a packet buffer and the free part of the ring, [enc28_read_packet] has
    not reported a receive error, and lwIP frees each packet before its input function returns and sends
    frames of 14 to 1600 bytes. In every such state the frames that have arrived are, in order, the packets handed
    to lwIP, the contents of the ready queue, the packet the packet task has in hand, and the frames waiting in
    the receive ring of the device, from its read pointer on. In the other direction the frames the device has
    sent since the start are the packets written, in order, each followed by one more byte; and with those in the
    transmit queue and in the hand of the packet task they are all that [enc28_netif_output] accepted from lwIP: it
    drops a packet when no buffer is free. *)
Theorem system_carries_packets s :
  sys_reachable d sent0 s -> receive_errors s = 0%nat ->
  (exists c outs, is_chip (d := d) c (sys_drv s) /\
    fr_data <$> frames s = delivered (sys_app s) ++ contents (sys_app s) (ready_packet_buffer_queue (sys_app s)) ++
                           in_hand (sys_app s) ++ (fr_data <$> waiting s) /\
    rx_queue c (read_ptr c) ring_size (waiting s) /\
    sent c = sent0 ++ outs /\ Forall2 carries (transmitted (sys_app s)) outs) /\
  submitted (sys_app s) = transmitted (sys_app s) ++ in_output (sys_app s) ++
                          contents (sys_app s) (transmit_packet_queue (sys_app s)).
Proof.
  intros H Hne. apply sys_reachable_inv in H as [H1 H2 H3 H4 H5 H6 (c & Hc & [C1 C2 C3 C4 (outs & C5 & C6)])]; [| exact Hne].
  split; [| apply H1]. exists c, outs. split; [exact Hc |]. split; [| auto].
  unfold waiting. rewrite <- (take_drop (length (received (sys_app s))) (frames s)) at 1.
  rewrite fmap_app, <- H6, (inv_received _ H1), <- !app_assoc. reflexivity.
Qed.

End Invariant.

(** The start of the application ([AppStart]) leaves such a system to its tasks. *)
Lemma started_system {W} {d : spi_callbacks W} `{HD : !Enc28Device d} c drv pkt vec :
  is_chip (d := d) c drv -> device_ready c -> length pkt = MAX_ETH_PACKET_SIZE ->
  sys_start d (sent c) (mk_system app_init drv pkt vec [] 0).
Proof.
  intros Hc [_ R1 R2 _ _ _ [R3 R4]] Hp. split; [reflexivity | | exact Hp | reflexivity | reflexivity].
  exists c. auto 10.
Qed.

(** * A run on the simulated device *)

Inductive ex_event : Type :=
| Exec (ev : sys_event)
| Arrive (f : rx_frame).

Definition bytes_b (l : list Z) : bool := forallb (fun x => (0 <=? x) && (x <? 256)) l.

Definition keeps_b (ev : sys_event) (s : system sim) : bool :=
  match ev with
  | SLocal e => prompt e (sys_app s) &&
      match e with EOutput p => packet_ok_b (payload p) && (14 <=? length (payload p))%nat | _ => true end
  | _ => true
  end.

Definition sim_arrive (f : rx_frame) (s : system sim) : option (system sim) :=
  let c := sim_chip (world (sys_drv s)) in
  let c' := store_frame (queue_end (read_ptr c) (waiting s)) f c in
  if (ENC28_CONF_RX_ADDRESS_START <=? fr_next f) && (fr_next f <=? ENC28_CONF_RX_ADDRESS_END) && frame_ok f &&
     (frame_len f <=? 1600) && bytes_b (fr_data f) &&
     (6 + frame_len f <=? ring_dist (queue_end (read_ptr c) (waiting s)) (fr_next f)) &&
     (ring_dist (queue_end (read_ptr c) (waiting s)) (fr_next f) <=? ring_size - queue_size (read_ptr c) (waiting s)) &&
     wf_check c'
  then Some (mk_system (sys_app s) (mk_drv (priv_enc28_curr_bank (sys_drv s)) (mk_sim c' [])) (pkt_buf s) (status_vec s)
               (frames s ++ [f]) (receive_errors s))
  else None.

Definition ex_step (ev : ex_event) (s : system sim) : option (system sim) :=
  match ev with
  | Exec ev => if keeps_b ev s then sys_exec simulated ev s else None
  | Arrive f => sim_arrive f s
  end.

Fixpoint ex_run (evs : list ex_event) (s : system sim) : option (system sim) :=
  match evs with [] => Some s | ev :: evs' => ex_step ev s ≫= ex_run evs' end.

Lemma sim_arrive_ok f s s' : sim_arrive f s = Some s' -> exists w', frame_arrives simulated f s w' /\
  s' = mk_system (sys_app s) (mk_drv (priv_enc28_curr_bank (sys_drv s)) w') (pkt_buf s) (status_vec s) (frames s ++ [f])
         (receive_errors s).
Proof.
  intros E. unfold sim_arrive in E. match type of E with (if ?b then _ else _) = _ => destruct b eqn:Eb; [| discriminate] end.
  injection E as <-. rewrite !andb_true_iff, !Z.leb_le in Eb.
  destruct Eb as (((((((B1 & B2) & B3) & B4) & B5) & B6) & B7) & B8).
  eexists. split; [| reflexivity]. split.
  - split; [split; [now split | lia] |]. split; [exact B3 |]. split; [exact B4 | now apply bytes_check].
  - intros c [[Ew _] _]. rewrite Ew in *. cbn [sim_chip] in *. split; [now split |].
    split; [reflexivity | now apply wf_check_ok].
Qed.

Lemma ex_step_ok ev s s' : ex_step ev s = Some s' -> sys_step simulated s s'.
Proof.
  destruct ev as [ev | f]; cbn [ex_step]; intros E.
  - destruct (keeps_b ev s) eqn:Ek; [| discriminate]. apply (step_exec simulated ev); [| exact E].
    destruct ev as [e | |]; cbn in *; auto. apply andb_true_iff in Ek as [K1 K2]. split; [exact K1 |].
    destruct e; auto. apply andb_true_iff in K2 as [K2 K3]. split; [now apply packet_check | now apply Nat.leb_le].
  - apply sim_arrive_ok in E as (w' & F & ->). now apply (step_arrives simulated f).
Qed.

Lemma ex_run_reachable sent0 evs : forall s s', sys_reachable simulated sent0 s -> ex_run evs s = Some s' ->
  sys_reachable simulated sent0 s'.
Proof.
  induction evs as [| ev evs IH]; intros s s' H E; cbn in E; [now injection E as <- |].
  destruct (ex_step ev s) as [s1 |] eqn:E1; [| discriminate]. apply (IH s1); [| exact E].
  apply sys_reach_step with s; [exact H | now apply ex_step_ok with ev].
Qed.

(** The device as [enc28_test_app] leaves it. *)
Definition ex_drv : drv sim :=
  match device_start 2 (Some (context_of simulated)) (Build_ENC28_HW_Rev 0 0 0) (mk_drv 0 (mk_sim chip_reset [])) with
  | Done _ s => s
  | _ => mk_drv 0 (mk_sim chip_reset [])
  end.

Definition ex_vector : ENC28_Receive_Status_Vector := frame_vector frame1.
Definition ex_system : system sim := mk_system app_init ex_drv (repeat 0 MAX_ETH_PACKET_SIZE) ex_vector [] 0.

Lemma ex_system_start : sys_start simulated [] ex_system.
Proof.
  destruct (device_start_ready (d := simulated) 2 (mk_sim chip_reset []) chip_reset (Build_ENC28_HW_Rev 0 0 0) ex_chip_rep)
    as (c & s1 & hw' & E & Hc & Hr & Hs & _);
    [vm_compute; split; congruence | vm_compute; split; congruence | cbn; lia | cbn; lia |].
  change (@nil (list Z)) with (sent chip_reset). rewrite <- Hs. unfold ex_system, ex_drv. rewrite E.
  now apply started_system.
Qed.

(** A frame arrives, is handed to lwIP, which answers it; the answer is sent. *)
Definition ex_answer : pbuf := mk_pbuf [2; 0; 0; 0; 0; 2; 2; 0; 0; 0; 0; 1; 8; 6] [].
Definition ex_before : list ex_event :=
  repeat (Exec (SLocal EInit)) 9 ++ [Arrive frame1; Exec SRead; Exec (SLocal ETakeFree); Exec (SLocal EPushReady);
  Exec (SLocal ETakeReady); Exec (SLocal (EOutput ex_answer)); Exec SRead; Exec (SLocal ETakeTransmit)].
Definition ex_answered : system sim := default ex_system (ex_run (ex_before ++ [Exec SWrite]) ex_system).

Lemma ex_answered_reachable : sys_reachable simulated [] ex_answered.
Proof.
  apply (ex_run_reachable [] (ex_before ++ [Exec SWrite]) ex_system); [apply sys_reach_start, ex_system_start |].
  vm_compute. reflexivity.
Qed.


Lemma system_carries_packets_witness :
  delivered (sys_app ex_answered) = [fr_data frame1] /\
  exists c outs, is_chip c (sys_drv ex_answered) /\ sent c = outs /\ Forall2 carries [payload ex_answer] outs.
Proof.
  split; [vm_compute; reflexivity |].
  destruct (system_carries_packets [] ex_answered ex_answered_reachable ltac:(vm_compute; reflexivity)) as [(c & outs & Hc & _ & _ & Hs & Ho) _].
  exists c, outs. split; [exact Hc |]. split; [exact Hs |].
  assert (E : transmitted (sys_app ex_answered) = [payload ex_answer]) by (vm_compute; reflexivity).
  rewrite <- E. exact Ho.
Defined.

