(* ===== verification/Whole.v ===== *)
(** The whole: the application on its device ([System]) with lwIP in it ([Host]).

    What [System] leaves to its environment, the calls lwIP makes into the application, is decided here by
    lwIP itself: the input function of the interface runs on the packet the IP task has taken from the ready
    queue, and the frames it hands over are the calls of [enc28_netif_output]; then the timers are looked
    at. When in a call a packet is freed is left open. All branches of lwIP end in [pbuf_free] before the input
    function returns, but for the packets reassembly keeps: after a fragment the input function may return with the
    packet not freed, and it may be freed in any later call. Such a packet breaks the application
    ([App.retained_buffer_duplicated]), so the theorems of [WholeProofs] are about states up to which no fragment has
    arrived and [enc28_read_packet] has reported no receive error ([undisturbed]). Time passes between any two
    steps, but not more than ten days without a packet, and frames have at least 42 bytes. *)
From Stdlib Require Import ZArith Lia Bool Relations.
From stdpp Require Import base decidable list gmap sorting.
From S2P Require Import Prelude Enc28Regs Enc28Driver Enc28Device Enc28Receive App AppTyping System SystemProofs.
From S2P Require Import LwipChksum Netif NetifProofs Etharp EtharpTable EtharpProofs EtharpInput Ip4 Ip4Proofs Ip4Session LinkFrames.
From S2P Require Import Timeouts TimeoutsProofs Host.

#[export] Instance ip_pc_eq_dec : EqDecision ip_pc.
Proof. solve_decision. Defined.

(** What is called in lwIP, and the time between calls. *)
Inductive lwip_call : Type :=
| call_input (b : nat) (data : list Z)
| call_check
| call_wait (t : Z).

Definition inputs (cs : list lwip_call) : list (list Z) :=
  flat_map (fun c => match c with call_input _ data => [data] | _ => [] end) cs.

Definition pass (t : Z) (s : timers host) : timers host :=
  mk_timers (next_timeout s) (current_timeout_due_time s) (tcpip_tcp_timer_active s) (pool_free s)
    (mk_host (net (world s)) (uptime (world s) + t) (readings (world s))) (expired s).

(** All frames lwIP has handed to [linkoutput]. *)
Definition lwip_sent (s : timers host) : list (list Z) := Host.link_of (net (world s)).

Record whole (W : Type) : Type := mk_whole {
  sys : system W;
  lw : timers host;
  pending : list (list Z);   (** frames lwIP is about to hand over in the call it is in *)
  checked_at : Z             (** when [sys_check_timeouts] was last called *)
}.
Arguments mk_whole {W}.
Arguments sys {W}.
Arguments lw {W}.
Arguments pending {W}.
Arguments checked_at {W}.

(** A fragment of an IP packet: the condition under which [ip4_input] calls [ip4_reass]. *)
Definition fragment (data : list Z) : bool :=
  match drop 12 data with
  | 8 :: 0 :: ip => truth (IPH_OFFSET ip .& PP_HTONS (IP_OFFMASK .| IP_MF))
  | _ => false
  end.

(** The last packet given to lwIP may be kept. *)
Definition may_keep (s : net_app) : bool :=
  match last (delivered s) with Some data => fragment data | None => false end.

(** No read of the device has reported a receive error, and no fragment has arrived. *)
Definition undisturbed {W} (w : whole W) : Prop :=
  receive_errors (sys w) = 0%nat /\ Forall (fun f => fragment (fr_data f) = false) (frames (sys w)).

Definition with_sys {W} (s : system W) (w : whole W) : whole W := mk_whole s (lw w) (pending w) (checked_at w).

(** The events of the packet task. *)
Definition of_packet_task (ev : sys_event) : bool :=
  match ev with
  | SLocal (ETakeReady | EOutput _ | EFree | EInputReturn | ETimeoutsReturn) => false
  | _ => true
  end.

Section Whole.
Context {W : Type} (d : spi_callbacks W) `{HD : !Enc28Device d}.
Variable e : environment.

Definition run_call (c : lwip_call) : prog (timers host) unit :=
  match c with
  | call_input b data => r <- lwip_input e b data ;; configASSERT (r =? ERR_OK)
  | call_check => lwip_check e
  | call_wait t => modify (pass t)
  end.

Fixpoint run_calls (cs : list lwip_call) : prog (timers host) unit :=
  match cs with [] => ret tt | c :: cs' => run_call c ;; run_calls cs' end.

Definition new_frames (s s' : timers host) : list (list Z) := drop (length (lwip_sent s)) (lwip_sent s').

#[local] Abbreviation app w := (sys_app (sys w)).

(** What [enc28_netif_output] takes of a frame. *)
Definition first_segment (f : list Z) : list Z := payload (e_segments e f).

(** The IP task: it takes a packet and calls lwIP's input function with it, and when that has returned, the timers are
    looked at. In both calls the frames lwIP sends go through [enc28_netif_output], and packets may be freed; the
    input function returns when the packet has been freed, or is a fragment and may be kept. *)
Inductive ip_step : whole W -> whole W -> Prop :=
| is_input b q s' lw' w : ready_packet_buffer_queue (app w) = b :: q -> sys_exec d (SLocal ETakeReady) (sys w) = Some s' ->
    run_call (call_input b (packet_of (buff_at (app w) b))) (lw w) = Done tt lw' ->
    ip_step w (mk_whole s' lw' (new_frames (lw w) lw') (checked_at w))
| is_output f fs s' w : pending w = f :: fs -> sys_exec d (SLocal (EOutput (e_segments e f))) (sys w) = Some s' ->
    ip_step w (mk_whole s' (lw w) fs (checked_at w))
| is_free s' w : sys_exec d (SLocal EFree) (sys w) = Some s' -> ip_step w (with_sys s' w)
| is_return s' lw' w : pending w = [] -> live (app w) = 0%nat \/ may_keep (app w) = true -> sys_exec d (SLocal EInputReturn) (sys w) = Some s' ->
    run_call call_check (lw w) = Done tt lw' ->
    ip_step w (mk_whole s' lw' (new_frames (lw w) lw') (uptime (world (lw w))))
| is_timeouts s' w : pending w = [] -> sys_exec d (SLocal ETimeoutsReturn) (sys w) = Some s' -> ip_step w (with_sys s' w).

(** All that happens: the two tasks, frames that arrive, and time that passes. *)
Inductive whole_step : whole W -> whole W -> Prop :=
| ws_ip w w' : ip_step w w' -> whole_step w w'
| ws_task ev s' w : of_packet_task ev = true -> sys_exec d ev (sys w) = Some s' -> whole_step w (with_sys s' w)
| ws_arrives f w' w : frame_arrives d f (sys w) w' -> (42 <= length (fr_data f))%nat ->
    whole_step w (with_sys (mk_system (app w) (mk_drv (priv_enc28_curr_bank (sys_drv (sys w))) w') (pkt_buf (sys w))
                              (status_vec (sys w)) (frames (sys w) ++ [f]) (receive_errors (sys w))) w)
| ws_time t w : 0 <= t -> uptime (world (lw w)) + t <= checked_at w + 900000000 ->
    whole_step w (mk_whole (sys w) (pass t (lw w)) (pending w) (checked_at w)).

(** The tasks about to start; lwIP's timers are started [t] milliseconds after the system. *)
Record whole_start (sent0 : list (list Z)) (t : Z) (s0 : timers host) (w : whole W) : Prop := {
  st_sys : sys_start d sent0 (sys w);
  st_boot : lwip_boot e t = Done tt s0;
  st_lw : lw w = s0;
  st_pending : pending w = [];
  st_checked : checked_at w = t
}.

Inductive whole_reachable (sent0 : list (list Z)) (t : Z) (s0 : timers host) : whole W -> Prop :=
| whole_reach_start w : whole_start sent0 t s0 w -> whole_reachable sent0 t s0 w
| whole_reach_step w w' : whole_reachable sent0 t s0 w -> whole_step w w' -> whole_reachable sent0 t s0 w'.
End Whole.
