(* ===== verification/WholeProofs.v ===== *)
(** The application with lwIP in it, on its device: what it does with what comes from the network. *)
From Stdlib Require Import ZArith Lia Bool Relations.
From stdpp Require Import base decidable list gmap sorting.
From S2P Require Import Prelude Enc28Regs Enc28Driver Enc28Device Enc28Spec Enc28Hoare Enc28Receive App AppTyping System SystemProofs.
From S2P Require Import Netif NetifProofs Etharp EtharpTable EtharpProofs EtharpInput Ip4 Ip4Proofs Ip4Session LinkFrames.
From S2P Require Import Timeouts TimeoutsProofs Host Whole.

(** * lwIP between two calls *)

Section Lwip.
Variable e : environment.
Hypothesis ok : env_ok e.

#[local] Abbreviation timers_ok_after sent :=
  (@TimeoutsProofs.timers_ok host (HAL_GetTick e) (in_net (e_tcp_tmr e)) (in_net (e_ip_reass_tmr e)) (etharp_tmr_host e)
    (host_timers e ok sent)).

(** The frames sent by now are kept. *)
Lemma timers_ok_rebase s ts :
  timers_ok_after [] s ts -> timers_ok_after (link (arp_state (net (world s)))) s ts.
Proof.
  intros [H1 H2 H3 H4 H5 [I [F1 F2 _]]]. split; auto. split; [exact I |]. now split.
Qed.

Lemma timers_ok_forget sent s ts : timers_ok_after sent s ts ->
  timers_ok_after [] s ts /\ sent `prefix_of` link (arp_state (net (world s))).
Proof.
  intros [H1 H2 H3 H4 H5 [I [F1 F2 F3]]]. split; [| exact F3]. split; auto. split; [exact I |]. split; auto. apply prefix_nil.
Qed.

(** The timers were last looked at at the time [since]. *)
Record lwip_ok (s : timers host) (since : Z) : Prop := {
  lo_timers : exists ts, timers_ok_after [] s ts /\ Forall (fun x => since <= due x) ts;
  lo_recent : since <= uptime (world s) <= since + 920000000
}.

Lemma lwip_ok_frames s since : lwip_ok s since -> Forall frame_fits (lwip_sent s).
Proof.
  intros [(ts & H & _) _]. destruct (tk_world _ _ _ _ _ _ H) as [_ [_ F _]]. unfold lwip_sent, Host.link_of.
  apply Forall_fmap. exact F.
Qed.

Lemma lwip_ok_inv s since : lwip_ok s since -> stack_inv (interface e) (net (world s)).
Proof. intros [(ts & H & _) _]. exact (proj1 (tk_world _ _ _ _ _ _ H)). Qed.

(** A call of lwIP: it returns, and what it has sent before is still the first it has sent. *)
Definition call_ok (c : lwip_call) (s s' : timers host) (since : Z) : Prop :=
  run_call e c s = Done tt s' /\ lwip_ok s' since /\ lwip_sent s' = lwip_sent s ++ new_frames s s'.

Lemma sent_since sent s s' : sent = link (arp_state (net (world s))) -> sent `prefix_of` link (arp_state (net (world s'))) ->
  lwip_sent s' = lwip_sent s ++ new_frames s s'.
Proof.
  intros -> [l E]. unfold new_frames, lwip_sent, Host.link_of. rewrite E, fmap_app.
  now rewrite drop_app_length.
Qed.

Lemma input_ok b data s since : lwip_ok s since -> Forall is_u8 data -> (42 <= length data)%nat ->
  exists s', call_ok (call_input b data) s s' since /\ uptime (world s') = uptime (world s).
Proof.
  intros [(ts & H & Hd) Hr] Hu Hl.
  destruct (returns_exists _ _ _ (lwip_input_returns e ok _ b data s ts (timers_ok_rebase s ts H) Hu Hl))
    as (r & s' & E & -> & H' & Ht).
  destruct (timers_ok_forget _ _ _ H') as [K1 K2]. exists s'. split; [| exact Ht]. split; [| split].
  - cbn [run_call]. now rewrite (bind_done _ _ _ _ _ E).
  - split; [eauto | now rewrite Ht].
  - exact (sent_since _ _ _ eq_refl K2).
Qed.

Lemma check_ok s since : lwip_ok s since -> exists s', call_ok call_check s s' (uptime (world s)).
Proof.
  intros [(ts & H & Hd) Hr].
  assert (Hl : Forall (fun x => uptime (world s) - 1000000000 <= due x) ts) by (eapply Forall_impl; [exact Hd |]; cbv beta; lia).
  destruct (returns_exists _ _ _ (lwip_check_returns e ok _ s ts (timers_ok_rebase s ts H) Hl)) as ([] & s' & E & ts' & H' & Hd' & Ht).
  destruct (timers_ok_forget _ _ _ H') as [K1 K2]. exists s'. split; [exact E |]. split; [| exact (sent_since _ _ _ eq_refl K2)].
  split; [eauto | lia].
Qed.

Lemma wait_ok t s since : lwip_ok s since -> 0 <= t -> uptime (world s) + t <= since + 900000000 ->
  call_ok (call_wait t) s (pass t s) since.
Proof.
  intros [(ts & H & Hd) Hr] H0 Ht. split; [reflexivity |]. split; [split; [exists ts; split; [| exact Hd] |] |].
  - destruct H as [H1 H2 H3 H4 H5 [I F]]. split; auto; [| now split].
    eapply Forall_impl; [exact H5 |]. cbv beta. unfold now_of. change (clock ?h) with (uptime h). cbn [world pass uptime]. lia.
  - cbn. lia.
  - unfold new_frames, lwip_sent. cbn [pass world net]. now rewrite drop_all, app_nil_r.
Qed.

Lemma boot_ok t : exists s, lwip_boot e t = Done tt s /\ lwip_ok s t.
Proof.
  destruct (lwip_boot_returns e ok [] t eq_refl) as (s & ts & E & H & Hd & Ht). exists s. split; [exact E |].
  split; [eauto | lia].
Qed.

(** ** Sequences of calls *)

Lemma run_calls_snoc cs c s s1 s2 : run_calls e cs s = Done tt s1 -> run_call e c s1 = Done tt s2 ->
  run_calls e (cs ++ [c]) s = Done tt s2.
Proof.
  revert s. induction cs as [| c' cs IH]; intros s E1 E2; cbn [run_calls app] in *.
  - injection E1 as <-. now rewrite (bind_done _ _ _ _ _ E2).
  - unfold bind in *. destruct (run_call e c' s) as [[] s' | | |]; try discriminate. now apply IH.
Qed.

Lemma inputs_app cs cs' : inputs (cs ++ cs') = inputs cs ++ inputs cs'.
Proof. apply flat_map_app. Qed.
End Lwip.

(** * The application's steps *)

(** What the packet task does not change. *)
Definition same_ip (s s' : net_app) : Prop :=
  delivered s' = delivered s /\ submitted s' = submitted s /\ ip_task s' = ip_task s /\ live s' = live s /\
  enc28_eth_packet_ptr s' = enc28_eth_packet_ptr s.

Definition packet_event_of (e : event) : bool :=
  match e with ETakeReady | EOutput _ | EFree | EInputReturn | ETimeoutsReturn => false | _ => true end.

#[local] Ltac step_cases E :=
  repeat match type of E with
         | context [match ?x with _ => _ end] => destruct x eqn:?; try discriminate E; cbn in E
         | context [if ?x then _ else _] => destruct x eqn:?; try discriminate E; cbn in E
         end;
  try (injection E as <-); cbn; rewrite ?app_nil_r.

Lemma packet_step_same ev s s' : packet_event_of ev = true -> step ev s = Some s' -> same_ip s s'.
Proof.
  intros Hp E. unfold same_ip. destruct ev; try discriminate; cbn [step] in *;
    unfold packet_init, packet_read, packet_take_free, packet_push_ready, packet_take_transmit, packet_write,
      packet_notified, xQueueReceive, xQueueSend in E;
    step_cases E; auto 10.
Qed.

(** What the events of the IP task do to the packets handed over. *)
Lemma ip_step_delivered ev s s' : step ev s = Some s' -> match ev with ETakeReady => False | _ => True end ->
  delivered s' = delivered s.
Proof.
  intros E N. destruct ev; try (now destruct N);
    try (match type of E with step ?ev _ = _ => exact (proj1 (packet_step_same ev s s' eq_refl E)) end);
    cbn [step] in E; unfold App.enc28_netif_output, enc28_pbuf_free, ip_input_return, ip_timeouts_return, xQueueReceive, xQueueSend in E;
    step_cases E; auto.
Qed.

Lemma take_ready_run b q s : ip_task s = IWait -> ready_packet_buffer_queue s = b :: q ->
  step ETakeReady s = Some (set_ip_task IInput (log_history [] [packet_of (buff_at s b)] [] [] (set_pbuf b (S (live s)) (set_ready q s)))).
Proof. intros E1 E2. cbn. unfold ip_take_ready. rewrite E1, E2. reflexivity. Qed.

(** What the IP task does not change in its calls of lwIP. *)
Definition same_queues (s s' : net_app) : Prop :=
  ready_packet_buffer_queue s' = ready_packet_buffer_queue s /\ packet_task s' = packet_task s /\ received s' = received s.

Lemma take_ready_inv b q s s' : ready_packet_buffer_queue s = b :: q -> step ETakeReady s = Some s' ->
  ip_task s = IWait /\ ip_task s' = IInput /\ delivered s' = delivered s ++ [packet_of (buff_at s b)] /\
  submitted s' = submitted s /\ ready_packet_buffer_queue s' = q /\ packet_task s' = packet_task s /\ received s' = received s.
Proof.
  intros E2 E. cbn [step] in E. unfold ip_take_ready in E. destruct (ip_task s); try discriminate. rewrite E2 in E. cbn in E.
  injection E as <-. cbn. rewrite !app_nil_r. auto 10.
Qed.

Lemma output_inv_app p s s' : step (EOutput p) s = Some s' ->
  in_lwip s = true /\ ip_task s' = ip_task s /\ live s' = live s /\ same_queues s s'.
Proof.
  intros E. cbn [step] in E. unfold same_queues, App.enc28_netif_output, xQueueReceive, xQueueSend in *. step_cases E; auto 10.
Qed.

Lemma free_inv_app s s' : step EFree s = Some s' ->
  in_lwip s = true /\ ip_task s' = ip_task s /\ live s = S (live s') /\ same_queues s s'.
Proof. intros E. cbn [step] in E. unfold same_queues, enc28_pbuf_free, xQueueSend in *. step_cases E; auto 10. Qed.

Lemma return_inv_app s s' : step EInputReturn s = Some s' ->
  ip_task s = IInput /\ ip_task s' = ITimeouts /\ live s' = live s /\ same_queues s s'.
Proof. intros E. cbn [step] in E. unfold same_queues, ip_input_return in *. step_cases E; auto 10. Qed.

Lemma timeouts_inv_app s s' : step ETimeoutsReturn s = Some s' ->
  ip_task s = ITimeouts /\ ip_task s' = IWait /\ live s' = live s /\ same_queues s s'.
Proof. intros E. cbn [step] in E. unfold same_queues, ip_timeouts_return in *. step_cases E; auto 10. Qed.

Lemma in_lwip_wait s : in_lwip s = true -> ip_task s <> IWait.
Proof. unfold in_lwip. now destruct (ip_task s). Qed.

(** ** The whole application takes a step of its own *)

Section Steps.
Context {W : Type} (d : spi_callbacks W) `{HD : !Enc28Device d}.

Lemma sys_exec_local ev s app : is_local ev = true -> step ev (sys_app s) = Some app ->
  sys_exec d (SLocal ev) s = Some (mk_system app (sys_drv s) (pkt_buf s) (status_vec s) (frames s) (receive_errors s)).
Proof. intros H E. cbn. now rewrite H, E. Qed.

Lemma sys_exec_app ev s s' : sys_exec d ev s = Some s' -> frames s' = frames s /\ exists ev', step ev' (sys_app s) = Some (sys_app s') /\
  match ev with SLocal x => ev' = x | SRead => exists st p, ev' = ERead st p | SWrite => exists st, ev' = EWrite st end.
Proof.
  intros E. destruct ev as [x | |]; unfold sys_exec in E; cbv zeta in E; cbn [step] in E.
  - destruct (is_local x); [| discriminate]. destruct (step x (sys_app s)) as [app |] eqn:Es; [| discriminate].
    cbn in E. injection E as <-. eauto.
  - destruct (enc28_read_packet _ _ _ _ _) as [[[r b] v] drv' | | |]; try discriminate.
    destruct (packet_read _ _ _) as [app |] eqn:Es; [| discriminate]. cbn in E. injection E as <-. split; [reflexivity |]. exists (ERead r (take (Z.to_nat (packet_len (default (status_vec s) v))) (default (pkt_buf s) b))).
    split; [exact Es | eauto].
  - destruct (packet_task (sys_app s)) as [| | | | | i |] eqn:Ep; try discriminate.
    destruct (enc28_write_packet (Some (context_of d)) _ _ _) as [r drv' | | |]; try discriminate.
    destruct (packet_write r (sys_app s)) as [app |] eqn:Es; [| discriminate]. cbn in E.
    injection E as <-. split; [reflexivity |]. exists (EWrite r). split; [exact Es | eauto].
Qed.

Lemma packet_task_same ev s s' : of_packet_task ev = true -> sys_exec d ev s = Some s' ->
  same_ip (sys_app s) (sys_app s') /\ frames s' = frames s /\ lwip_keeps ev s.
Proof.
  intros Hp E. destruct (sys_exec_app ev s s' E) as (Ef & ev' & Es & K).
  assert (Hp' : packet_event_of ev' = true).
  { destruct ev as [x | |]; [subst ev'; destruct x; try discriminate; reflexivity | destruct K as (? & ? & ->) | destruct K as (? & ->)]; reflexivity. }
  split; [now apply packet_step_same with ev' | split; [exact Ef |]].
  destruct ev as [x | |]; [| exact I | exact I]. destruct x; try discriminate; split; try reflexivity; exact I.
Qed.

(** A packet in the ready queue is a frame that has arrived. *)
Lemma ready_packet sent0 s b q : sys_reachable d sent0 s -> receive_errors s = 0%nat -> ready_packet_buffer_queue (sys_app s) = b :: q ->
  exists f, f ∈ frames s /\ packet_of (buff_at (sys_app s) b) = fr_data f /\ good_frame f.
Proof.
  intros H Hne E. apply sys_reachable_inv in H; [| exact Hne]. pose proof (inv_received _ (si_app _ _ H)) as R. rewrite E in R.
  assert (Hin : packet_of (buff_at (sys_app s) b) ∈ received (sys_app s)).
  { rewrite R, !elem_of_app. right. left. left. }
  rewrite (si_received _ _ H) in Hin.
  apply list_elem_of_fmap in Hin as (f & Ef & Hf). apply elem_of_take in Hf as (i & Hi & _).
  exists f. split; [now apply list_elem_of_lookup_2 in Hi | split; [exact Ef |]].
  exact (Forall_lookup_1 _ _ _ _ (si_good _ _ H) Hi).
Qed.
End Steps.

(** * The invariant of the whole *)

Section Whole.
Context {W : Type} (d : spi_callbacks W) `{HD : !Enc28Device d}.
Variable e : environment.
Hypothesis ok : env_ok e.
Variable sent0 : list (list Z).
Variable t0 : Z.
Variable s0 : timers host.
Implicit Types w : whole W.

#[local] Abbreviation app w := (sys_app (sys w)).
#[local] Abbreviation reached := (whole_reachable d e sent0 t0 s0).

Record whole_inv w : Prop := {
  wi_sys : sys_reachable d sent0 (sys w);
  wi_lwip : lwip_ok e ok (lw w) (checked_at w);
  wi_wait : ip_task (app w) = IWait -> pending w = [];
  wi_sent : exists handed, lwip_sent (lw w) = handed ++ pending w /\ submitted (app w) `sublist_of` (first_segment e <$> handed);
  wi_long : Forall (fun f => (42 <= length (fr_data f))%nat) (frames (sys w));
  wi_quiet : undisturbed w;
  wi_calls : exists cs, run_calls e cs s0 = Done tt (lw w) /\ inputs cs = delivered (app w)
}.

Lemma whole_sys w : whole_inv w -> sys_inv (d := d) sent0 (sys w).
Proof. intros H. apply sys_reachable_inv; [apply (wi_sys w H) | apply (wi_quiet w H)]. Qed.

Lemma whole_app w : whole_inv w -> app_inv (app w).
Proof. intros H. apply (si_app _ _ (whole_sys w H)). Qed.

(** The application's own steps leave the device alone. *)
Lemma local_quiet ev w s' l p c : sys_exec d (SLocal ev) (sys w) = Some s' -> undisturbed w ->
  undisturbed (mk_whole s' l p c).
Proof.
  unfold sys_exec, undisturbed. destruct (is_local ev); [| discriminate]. destruct (step ev (app w)); [| discriminate].
  cbn. intros [= <-]. auto.
Qed.

Lemma pending_fits w f : whole_inv w -> f ∈ pending w -> frame_fits f.
Proof.
  intros H Hf. pose proof (lwip_ok_frames _ _ _ _ (wi_lwip w H)) as F. destruct (wi_sent w H) as (h & E & _). rewrite E in F.
  rewrite Forall_app in F. exact (proj1 (Forall_forall _ _) (proj2 F) f Hf).
Qed.

(** The first buffer of a frame fits into one of the application's, and holds at least the Ethernet header. *)
Lemma first_segment_fits f : frame_fits f -> Forall is_u8 (first_segment e f) /\ (14 <= length (first_segment e f))%nat /\
  (length (first_segment e f) <= MAX_ETH_PACKET_SIZE)%nat.
Proof.
  intros (F1 & F2 & F3). destruct (eo_segments e ok f) as [E L]. unfold first_segment.
  assert (P : payload (e_segments e f) `prefix_of` f) by (eexists; symmetry; exact E).
  split; [| split; [now apply L |]].
  - destruct P as [l P]. rewrite P in F1. now apply Forall_app in F1 as [F1 _].
  - apply prefix_length in P. unfold MAX_IP, MAX_ETH_PACKET_SIZE in *. lia.
Qed.

Lemma inv_start w : whole_start d e sent0 t0 s0 w -> whole_inv w.
Proof.
  intros [S1 S2 S3 S4 S5]. destruct (boot_ok e ok t0) as (s & E & L). rewrite S2 in E. injection E as <-.
  pose proof (start_app _ _ _ S1) as A. split; rewrite ?S3, ?S4, ?S5, ?A; auto.
  - now constructor.
  - exists (lwip_sent s0). rewrite app_nil_r. split; [reflexivity | apply sublist_nil_l].
  - rewrite (start_frames _ _ _ S1). constructor.
  - split; [apply S1 | rewrite (start_frames _ _ _ S1); constructor].
  - exists []. now split.
Qed.

(** A packet from the ready queue can be given to lwIP. *)
Lemma ready_ok w b q : whole_inv w -> ready_packet_buffer_queue (app w) = b :: q ->
  Forall is_u8 (packet_of (buff_at (app w) b)) /\ (42 <= length (packet_of (buff_at (app w) b)))%nat.
Proof.
  intros H E. destruct (ready_packet d sent0 (sys w) b q (wi_sys w H) (proj1 (wi_quiet w H)) E) as (f & Hf & -> & G). split; [apply G |].
  exact (proj1 (Forall_forall _ _) (wi_long w H) f Hf).
Qed.

(** The outcome of a call is the one [call_ok] describes. *)
Lemma call_outcome c s s' since lw' : call_ok e ok c s s' since -> run_call e c s = Done tt lw' -> lw' = s'.
Proof. intros [E _] E'. rewrite E in E'. now injection E'. Qed.

Lemma sys_event_reachable ev s s' : sys_reachable d sent0 s -> lwip_keeps ev s -> sys_exec d ev s = Some s' -> sys_reachable d sent0 s'.
Proof. intros H K E. eapply sys_reach_step; [exact H |]. now apply (step_exec d ev s s'). Qed.

(** An event of the IP task: what it does to the application. *)
Lemma ip_event_app ev w s' : sys_exec d (SLocal ev) (sys w) = Some s' -> step ev (app w) = Some (sys_app s') /\ frames s' = frames (sys w).
Proof. intros E. destruct (sys_exec_app d _ _ _ E) as (Ef & ? & Es & ->). now split. Qed.

Lemma input_inv w b q s' lw' : whole_inv w -> ready_packet_buffer_queue (app w) = b :: q ->
  sys_exec d (SLocal ETakeReady) (sys w) = Some s' ->
  run_call e (call_input b (packet_of (buff_at (app w) b))) (lw w) = Done tt lw' ->
  whole_inv (mk_whole s' lw' (new_frames (lw w) lw') (checked_at w)).
Proof.
  intros H E1 E2 E3. destruct (ready_ok w b q H E1) as [Hu Hl].
  destruct (input_ok e ok b _ _ _ (wi_lwip w H) Hu Hl) as (s1 & C & _). pose proof (call_outcome _ _ _ _ _ C E3) as ->.
  destruct C as (_ & L & F). destruct (ip_event_app _ _ _ E2) as [Es Ef].
  destruct (take_ready_inv b q _ _ E1 Es) as (_ & T & D & S & _). destruct (wi_sent w H) as (h & Eh & Hh). destruct (wi_calls w H) as (cs & C1 & C2).
  split; cbn [sys lw pending checked_at].
  - apply (sys_event_reachable _ _ _ (wi_sys w H)) with (2 := E2). now split.
  - exact L.
  - rewrite T. discriminate.
  - exists (lwip_sent (lw w)). split; [exact F |]. rewrite S, Eh, fmap_app. now apply sublist_inserts_r.
  - rewrite Ef. apply (wi_long w H).
  - exact (local_quiet _ _ _ _ _ _ E2 (wi_quiet w H)).
  - exists (cs ++ [call_input b (packet_of (buff_at (app w) b))]). split; [now apply run_calls_snoc with (lw w) |].
    rewrite inputs_app, C2, D. reflexivity.
Qed.

Lemma output_inv w f fs s' : whole_inv w -> pending w = f :: fs -> sys_exec d (SLocal (EOutput (e_segments e f))) (sys w) = Some s' ->
  whole_inv (mk_whole s' (lw w) fs (checked_at w)).
Proof.
  intros H E1 E2. destruct (ip_event_app _ _ _ E2) as [Es Ef]. destruct (wi_sent w H) as (h & Eh & Hh). destruct (wi_calls w H) as (cs & C1 & C2).
  assert (Hf : f ∈ pending w) by (rewrite E1; left). destruct (first_segment_fits f (pending_fits w f H Hf)) as (P1 & P2 & P3).
  destruct (output_inv_app _ _ _ Es) as (Hi & Ht & _). apply in_lwip_wait in Hi. rewrite <- Ht in Hi.
  split; cbn [sys lw pending checked_at].
  - apply (sys_event_reachable _ _ _ (wi_sys w H)) with (2 := E2). split; [reflexivity |]. now repeat split.
  - apply (wi_lwip w H).
  - intros N. now destruct Hi.
  - exists (h ++ [f]). rewrite Eh, E1, <- app_assoc. split; [reflexivity |]. rewrite fmap_app.
    destruct (step_histories _ _ _ Es) as (_ & _ & [-> | (p & Ep & ->)]).
    + now apply sublist_inserts_r.
    + injection Ep as <-. now apply sublist_app.
  - rewrite Ef. apply (wi_long w H).
  - exact (local_quiet _ _ _ _ _ _ E2 (wi_quiet w H)).
  - exists cs. split; [exact C1 |]. rewrite (ip_step_delivered _ _ _ Es I). exact C2.
Qed.

(** Steps of the application alone that hand nothing over. *)
Lemma app_inv_quiet w ev s' : whole_inv w -> lwip_keeps ev (sys w) -> sys_exec d ev (sys w) = Some s' -> frames s' = frames (sys w) -> receive_errors s' = 0%nat ->
  delivered (sys_app s') = delivered (app w) -> submitted (sys_app s') = submitted (app w) ->
  (ip_task (sys_app s') = IWait -> pending w = []) -> whole_inv (with_sys s' w).
Proof.
  intros [H1 H2 H3 H4 H5 [H6 H6'] H7] K E Ef Ee D S Hw. split; cbn [with_sys sys lw pending checked_at]; rewrite ?Ef, ?D, ?S; auto.
  - now apply (sys_event_reachable _ _ _ H1) with (2 := E).
  - split; cbn [with_sys sys]; [exact Ee | now rewrite Ef].
Qed.

(** Calls of lwIP that take no packet. *)
Lemma lwip_inv_quiet w c lw' since : whole_inv w -> call_ok e ok c (lw w) lw' since -> inputs [c] = [] ->
  (ip_task (app w) = IWait -> new_frames (lw w) lw' = []) ->
  whole_inv (mk_whole (sys w) lw' (pending w ++ new_frames (lw w) lw') since).
Proof.
  intros [H1 H2 H3 (h & Eh & Hh) H5 H6 (cs & C1 & C2)] (R & L & F) Ei Hn.
  split; cbn [sys lw pending checked_at]; auto.
  - intros N. now rewrite H3, Hn.
  - exists h. now rewrite F, Eh, app_assoc.
  - exists (cs ++ [c]). rewrite inputs_app, Ei, app_nil_r. split; [now apply run_calls_snoc with (lw w) | exact C2].
Qed.

Lemma ip_event_inv w ev s' : whole_inv w -> prompt ev (app w) = true -> (forall p, ev <> EOutput p) -> ev <> ETakeReady ->
  sys_exec d (SLocal ev) (sys w) = Some s' -> (ip_task (sys_app s') = IWait -> pending w = []) -> whole_inv (with_sys s' w).
Proof.
  intros H K N1 N2 E Hw. destruct (ip_event_app _ _ _ E) as [Es Ef]. apply app_inv_quiet with (SLocal ev); auto.
  - split; [exact K |]. destruct ev; try exact I. now destruct (N1 p).
  - exact (proj1 (local_quiet _ _ _ (lw w) (pending w) (checked_at w) E (wi_quiet w H))).
  - apply (ip_step_delivered _ _ _ Es). destruct ev; try exact I. now destruct N2.
  - destruct (step_histories _ _ _ Es) as (_ & _ & [S | (p & Ep & _)]); [exact S | now destruct (N1 p)].
Qed.

(** As long as no fragment has arrived, lwIP keeps no packet. *)
Lemma nothing_kept w : whole_inv w -> may_keep (app w) = false.
Proof.
  intros H. unfold may_keep. destruct (last (delivered (app w))) as [data |] eqn:E; [| reflexivity].
  pose proof (whole_sys w H) as Hs. pose proof (inv_received _ (si_app _ _ Hs)) as R. rewrite (si_received _ _ Hs) in R.
  assert (Hin : data ∈ fr_data <$> take (length (received (app w))) (frames (sys w))).
  { rewrite R, elem_of_app. left. apply last_Some in E as [l ->]. rewrite elem_of_app. right. left. }
  apply list_elem_of_fmap in Hin as (f & -> & Hf). apply elem_of_take in Hf as (i & Hi & _).
  exact (Forall_lookup_1 _ _ _ _ (proj2 (wi_quiet w H)) Hi).
Qed.

Lemma ip_step_inv w w' : whole_inv w -> ip_step d e w w' -> whole_inv w'.
Proof.
  intros H S. destruct S as [b q s' lw' w E1 E2 E3 | f fs s' w E1 E2 | s' w E | s' lw' w E1 E2 E3 E4 | s' w E1 E2].
  - now apply input_inv with b q.
  - now apply output_inv with f.
  - apply ip_event_inv with EFree; try easy. intros N. destruct (ip_event_app _ _ _ E) as [Es _].
    destruct (free_inv_app _ _ Es) as (_ & Ht & _). apply (wi_wait w H). congruence.
  - assert (H1 : whole_inv (with_sys s' w)).
    { apply ip_event_inv with EInputReturn; try easy. cbn. rewrite (nothing_kept w H) in E2. now destruct E2 as [-> |]. }
    destruct (check_ok e ok _ _ (wi_lwip w H)) as (s1 & C). pose proof (call_outcome _ _ _ _ _ C E4) as ->.
    pose proof (lwip_inv_quiet (with_sys s' w) call_check s1 _ H1 C eq_refl) as K. cbn [with_sys sys lw pending] in K.
    rewrite E1 in K. apply K. destruct (ip_event_app _ _ _ E3) as [Es _]. destruct (return_inv_app _ _ Es) as (_ & Ht & _).
    rewrite Ht. discriminate.
  - apply ip_event_inv with ETimeoutsReturn; easy.
Qed.

Lemma whole_step_quiet w w' : whole_step d e w w' -> undisturbed w' -> undisturbed w.
Proof.
  intros S [Q1 Q2]. unfold undisturbed.
  assert (K : (receive_errors (sys w) <= receive_errors (sys w'))%nat /\ frames (sys w) `prefix_of` frames (sys w')).
  { destruct S as [w w' S | ev s' w E1 E2 | f x w F L | t w T1 T2]; cbn [with_sys sys frames receive_errors]; [| | split; [lia | now apply prefix_app_r] | auto].
    - assert (K : exists ev, sys_exec d ev (sys w) = Some (sys w')) by (destruct S; cbn [with_sys sys]; eauto).
      destruct K as [ev E]. split; [exact (sys_exec_errors _ _ _ E) | now destruct (sys_exec_app d _ _ _ E) as [-> _]].
    - split; [exact (sys_exec_errors _ _ _ E2) | now destruct (sys_exec_app d _ _ _ E2) as [-> _]]. }
  destruct K as [K1 [l K2]]. split; [lia |]. rewrite K2 in Q2. now apply Forall_app in Q2 as [Q2 _].
Qed.

Lemma whole_step_inv w w' : whole_inv w -> whole_step d e w w' -> undisturbed w' -> whole_inv w'.
Proof.
  intros H S Q. destruct S as [w w' S | ev s' w E1 E2 | f x w F L | t w T1 T2].
  - now apply ip_step_inv with w.
  - destruct (packet_task_same d _ _ _ E1 E2) as ((D & S & I1 & _) & Ef & K). apply app_inv_quiet with ev; auto; [apply Q |].
    rewrite I1. apply (wi_wait w H).
  - destruct H as [H1 H2 H3 H4 H5 H6]. split; auto.
    + eapply sys_reach_step; [exact H1 |]. now apply step_arrives.
    + cbn. apply Forall_app. split; [exact H5 | now constructor].
  - pose proof (wait_ok e ok t _ _ (wi_lwip w H) T1 T2) as C.
    assert (En : new_frames (lw w) (pass t (lw w)) = []) by (unfold new_frames; apply drop_all).
    pose proof (lwip_inv_quiet w (call_wait t) _ _ H C eq_refl (fun _ => En)) as K. now rewrite En, app_nil_r in K.
Qed.

Lemma whole_reachable_inv w : reached w -> undisturbed w -> whole_inv w.
Proof.
  induction 1 as [w H | w w' _ IH S]; intros Q; [now apply inv_start | apply whole_step_inv with w; auto].
  apply IH. now apply whole_step_quiet with w'.
Qed.

(** ** The IP task alone *)

(** The packets in the ready queue, where the task is, and what is left to do in the call. *)
Definition rank (t : ip_pc) : nat := match t with IInput => 2 | ITimeouts => 1 | IWait => 0 end.
Definition work w : nat := length (pending w) + live (app w).

Lemma ip_step_decreases w w' : ip_step d e w w' ->
  (length (ready_packet_buffer_queue (app w')) < length (ready_packet_buffer_queue (app w)))%nat \/
  ready_packet_buffer_queue (app w') = ready_packet_buffer_queue (app w) /\
    ((rank (ip_task (app w')) < rank (ip_task (app w)))%nat \/ ip_task (app w') = ip_task (app w) /\ (work w' < work w)%nat).
Proof.
  intros S. unfold work. destruct S as [b q s' lw' w E1 E2 E3 | f fs s' w E1 E2 | s' w E | s' lw' w E1 E2 E3 E4 | s' w E1 E2].
  - destruct (ip_event_app _ _ _ E2) as [Es _]. destruct (take_ready_inv b q _ _ E1 Es) as (_ & _ & _ & _ & R & _).
    left. cbn [sys]. rewrite R, E1. cbn. lia.
  - destruct (ip_event_app _ _ _ E2) as [Es _]. destruct (output_inv_app _ _ _ Es) as (_ & T & L & R & _).
    right. cbn [sys pending]. rewrite T, L, E1. split; [exact R | right; split; [reflexivity | cbn [length]; lia]].
  - destruct (ip_event_app _ _ _ E) as [Es _]. destruct (free_inv_app _ _ Es) as (_ & T & L & R & _).
    right. cbn [with_sys sys pending]. rewrite T, L. split; [exact R | right; split; [reflexivity | lia]].
  - destruct (ip_event_app _ _ _ E3) as [Es _]. destruct (return_inv_app _ _ Es) as (T1 & T2 & _ & R & _).
    right. cbn [sys pending]. rewrite T1, T2. split; [exact R | left; cbn; lia].
  - destruct (ip_event_app _ _ _ E2) as [Es _]. destruct (timeouts_inv_app _ _ Es) as (T1 & T2 & _ & R & _).
    right. cbn [with_sys sys pending]. rewrite T1, T2. split; [exact R | left; cbn; lia].
Qed.

Lemma ip_steps_end w : sn (ip_step d e) w.
Proof.
  remember (length (ready_packet_buffer_queue (app w))) as n eqn:En. revert w En.
  induction n as [n IHn] using lt_wf_ind. intros w. remember (rank (ip_task (app w))) as r eqn:Er. revert w Er.
  induction r as [r IHr] using lt_wf_ind. intros w. remember (work w) as m eqn:Em. revert w Em.
  induction m as [m IHm] using lt_wf_ind. intros w Em Er En. constructor. intros w' S.
  destruct (ip_step_decreases w w' S) as [L | (R & [L | (T & L)])].
  - apply (IHn (length (ready_packet_buffer_queue (app w')))); congruence || lia.
  - apply (IHr (rank (ip_task (app w')))); congruence || lia.
  - apply (IHm (work w')); congruence || lia.
Qed.

(** What the IP task leaves alone, as long as it runs. *)
Lemma ip_step_received w w' : ip_step d e w w' ->
  packet_task (app w') = packet_task (app w) /\ received (app w') = received (app w).
Proof.
  intros S. destruct S as [b q s' lw' w E1 E2 E3 | f fs s' w E1 E2 | s' w E | s' lw' w E1 E2 E3 E4 | s' w E1 E2];
    cbn [with_sys sys].
  - destruct (ip_event_app _ _ _ E2) as [Es _]. apply (take_ready_inv b q _ _ E1 Es).
  - destruct (ip_event_app _ _ _ E2) as [Es _]. apply (output_inv_app _ _ _ Es).
  - destruct (ip_event_app _ _ _ E) as [Es _]. apply (free_inv_app _ _ Es).
  - destruct (ip_event_app _ _ _ E3) as [Es _]. apply (return_inv_app _ _ Es).
  - destruct (ip_event_app _ _ _ E2) as [Es _]. apply (timeouts_inv_app _ _ Es).
Qed.

(** A call of [enc28_netif_output] never blocks: the frame is queued, or dropped if no buffer is free. *)
Lemma output_enabled s f : app_inv s -> in_lwip s = true ->
  exists s', step (EOutput (e_segments e f)) s = Some s' /\
    (free_packet_buffer_queue s <> [] -> submitted s' = submitted s ++ [first_segment e f]).
Proof.
  intros H Hi.
  cbn [step]. rewrite Hi. unfold App.enc28_netif_output.
  pose proof (places_length s H) as P. unfold places in P. rewrite !length_app in P. pose proof (inv_count s H).
  destruct (free_packet_buffer_queue s) as [| b q]; cbn [xQueueReceive]; [now eexists |]. cbn [length] in P.
  rewrite xQueueSend_Some by (cbn; lia). now eexists.
Qed.

Lemma ip_enabled w : whole_inv w -> (exists w', ip_step d e w w') \/
  ip_task (app w) = IWait /\ pending w = [] /\ ready_packet_buffer_queue (app w) = [].
Proof.
  intros H. pose proof (whole_app w H) as Ha. destruct (inv_live _ Ha) as [_ Hl].
  assert (Hc : exists lw', run_call e call_check (lw w) = Done tt lw') by (destruct (check_ok e ok _ _ (wi_lwip w H)) as (? & ? & _); eauto).
  destruct (decide (ip_task (app w) = IWait)) as [Ew | Nw].
  - destruct (ready_packet_buffer_queue (app w)) as [| b q] eqn:Er; [right; split; [exact Ew | split; [now apply (wi_wait w H) | reflexivity]] | left].
    destruct (ready_ok w b q H Er) as [Hu Hn]. destruct (input_ok e ok b _ _ _ (wi_lwip w H) Hu Hn) as (s1 & (R & _) & _).
    eexists. eapply is_input; [exact Er | apply (sys_exec_local d ETakeReady); [reflexivity | exact (take_ready_run b q _ Ew Er)] | exact R].
  - left. assert (Hi : in_lwip (app w) = true) by (unfold in_lwip; now destruct (ip_task (app w))).
    destruct (pending w) as [| f fs] eqn:Ep.
    + destruct (decide (live (app w) = 0%nat)) as [El | Nl].
      * destruct (ip_task (app w)) eqn:Et; [easy | |].
        -- destruct Hc as [lw' Hc]. eexists. apply is_return; [exact Ep | now left | | exact Hc].
           apply (sys_exec_local d EInputReturn); [reflexivity |]. cbn. unfold ip_input_return. now rewrite Et.
        -- eexists. apply is_timeouts; [exact Ep |]. apply (sys_exec_local d ETimeoutsReturn); [reflexivity |].
           cbn. unfold ip_timeouts_return. now rewrite Et.
      * destruct (can_free _ Ha Nl) as [s' Es]. eexists. apply is_free, (sys_exec_local d EFree); [reflexivity | exact Es].
    + destruct (output_enabled (app w) f Ha Hi) as (s' & Es & _).
      eexists. eapply is_output; [exact Ep |]. apply (sys_exec_local d (EOutput _)); [reflexivity | exact Es].
Qed.

(** * End to end *)

(** C1: What the device sends is what lwIP sends, on a device that behaves as [Enc28Device] says, to which only frames free of
    errors arrive that fit the ring and have 42 to 1600 bytes, at most ten days apart, and as long as no read has
    reported a receive error and no IP fragment has arrived. At any such time the state of lwIP is that after calls in which it
    has been given the first of the frames that have arrived, all of them up to some point, unaltered and in order;
    the frames the device has sent are some of those lwIP has sent in these calls, in order, each up to the
    end of its first buffer and with one more byte. *)
Theorem whole_system_refines w : reached w -> undisturbed w -> exists c outs cs packets,
  run_calls e cs s0 = Done tt (lw w) /\ inputs cs `prefix_of` (fr_data <$> frames (sys w)) /\
  packets `sublist_of` (first_segment e <$> lwip_sent (lw w)) /\ Forall2 carries packets outs /\
  is_chip (d := d) c (sys_drv (sys w)) /\ sent c = sent0 ++ outs.
Proof.
  intros H Q. apply whole_reachable_inv in H; [| exact Q]. pose proof (whole_sys w H) as Hs.
  destruct (si_chip _ _ Hs) as (c & Hc & HC). destruct (ci_sent _ _ _ _ HC) as (outs & C5 & C6).
  destruct (wi_calls w H) as (cs & R1 & R2). destruct (wi_sent w H) as (h & Eh & Hh).
  exists c, outs, cs, (transmitted (app w)). split; [exact R1 | split; [| split; [| auto]]].
  - rewrite R2. transitivity (received (app w)).
    + rewrite (inv_received _ (si_app _ _ Hs)). apply prefix_app_r. reflexivity.
    + rewrite (si_received _ _ Hs). rewrite <- (take_drop (length (received (app w))) (frames (sys w))) at 2. rewrite fmap_app.
      apply prefix_app_r. reflexivity.
  - transitivity (submitted (app w)).
    + rewrite (inv_submitted _ (si_app _ _ Hs)). now apply sublist_inserts_r.
    + etransitivity; [exact Hh |]. rewrite Eh, fmap_app. now apply sublist_inserts_r.
Qed.

Lemma ip_steps_inv w w' : whole_inv w -> rtc (ip_step d e) w w' ->
  whole_inv w' /\ packet_task (app w') = packet_task (app w) /\ received (app w') = received (app w).
Proof.
  intros H S. induction S as [w | w w1 w2 S1 S2 IH]; [auto |]. destruct (ip_step_received w w1 S1) as [P1 P2].
  destruct (IH (ip_step_inv w w1 H S1)) as (K1 & K2 & K3). split; [exact K1 | split; congruence].
Qed.

(** Where the task can be when it has no step left. *)
Lemma ip_steps_final w w' : whole_inv w -> rtc (ip_step d e) w w' -> nf (ip_step d e) w' ->
  ip_task (app w') = IWait /\ pending w' = [] /\ ready_packet_buffer_queue (app w') = [].
Proof.
  intros H S N. destruct (ip_steps_inv w w' H S) as (H' & _). destruct (ip_enabled w' H') as [[w2 S2] | K]; [| exact K].
  destruct N. eauto.
Qed.

(** C7: The IP task always comes back for the next packet, as long as no read has reported a receive error and no
    IP fragment has arrived (which lwIP may keep, and then the task's calls may block), and the other conditions of C1 hold. Left alone
    it takes finitely many steps, whatever their order, and when there is none left it waits for a packet, with none
    in the queue and no frame of lwIP's left over, and has handed to lwIP all packets that were in the queue.
    So none of its calls blocks or fails an assertion until then; and no copy has left its buffer. *)
Theorem ip_task_drains w : reached w -> undisturbed w -> sn (ip_step d e) w /\
  forall w', rtc (ip_step d e) w w' -> overrun (app w') = false /\ (nf (ip_step d e) w' ->
    ip_task (app w') = IWait /\ pending w' = [] /\ ready_packet_buffer_queue (app w') = [] /\
    delivered (app w') = delivered (app w) ++ contents (app w) (ready_packet_buffer_queue (app w))).
Proof.
  intros H Q. split; [apply ip_steps_end |]. intros w' S. apply whole_reachable_inv in H; [| exact Q].
  destruct (ip_steps_inv w w' H S) as (H' & P & R).
  split; [exact (typed_copies _ (si_typed _ _ (whole_sys w' H'))) |]. intros N.
  destruct (ip_steps_final w w' H S N) as (Ew & Ep & Er).
  split; [exact Ew | split; [exact Ep | split; [exact Er |]]].
  pose proof (inv_received _ (whole_app w H)) as R1. pose proof (inv_received _ (whole_app w' H')) as R2.
  rewrite R, R1, Er in R2. cbn [contents fmap list_fmap app] in R2. rewrite app_assoc in R2. apply app_inj_2 in R2; [now destruct R2 |].
  unfold in_hand. rewrite P. now destruct (packet_task (app w)).
Qed.

(** lwIP on a ping from a host whose Ethernet address it knows. *)
Lemma ping_call b eth hdr m pad src mac i k s : stack_inv (interface e) (net (world s)) ->
  ping_frame (interface e) (e_rx_addr e b) (e_ifc e) eth hdr m src ->
  next_hop (interface e (e_ifc e)) src = Some src -> (forall k, e_alloc e k = true) -> 0 <= k < 270 ->
  arp_table (arp_state (net (world s))) !! i = Some (mk_entry None src (e_ifc e) mac k ETHARP_STATE_STABLE) ->
  exists s' hdr' m', run_call e (call_input b (eth ++ hdr ++ m ++ pad)) s = Done tt s' /\
    reply_to hdr m src ENC28_IP_ADDR hdr' m' /\
    new_frames s s' = [frame mac (hwaddr (interface e (e_ifc e))) ETHTYPE_IP (hdr' ++ m')].
Proof.
  intros Hs Hf Hh Ha Hk E.
  assert (Hip : ip_addr (interface e (e_ifc e)) = ENC28_IP_ADDR) by (rewrite interface_own; reflexivity).
  destruct (ping_framed (interface e) (e_alloc e) linkoutput_result [e_ifc e] (fun _ => 0) (e_rx_addr e b) (e_tx_addr e)
    (e_udp_input e) (e_tcp_input e) (e_ip4_reass e) (e_ip4_frag e) eth hdr m pad src false true (e_ifc e) mac i k (net (world s))
    Hs (interface_sends e ok) (interface_ip e) Hf Hh Ha Hk E) as (t & hdr' & m' & R & Hr & L).
  rewrite Hip in Hr. set (s' := moved (mk_host t (uptime (world s)) (readings (world s))) s). exists s', hdr', m'.
  assert (C : lwip_input e b (eth ++ hdr ++ m ++ pad) s = Done ERR_OK s') by (unfold lwip_input, in_world, in_net; now rewrite R).
  split; [cbn [run_call]; now rewrite (bind_done _ _ _ _ _ C) | split; [exact Hr |]].
  unfold new_frames, lwip_sent, Host.link_of. subst s'. cbn [moved world net]. unfold Ip4Session.link_of in L.
  now rewrite L, fmap_app, drop_app_length.
Qed.

(** The run of the IP task from a state [w] in which the next packet makes lwIP send the frame [f] and nothing else: before
    the packet is taken, while the frame is to be handed over, and when it has been. *)
Definition answering (w : whole W) (f : list Z) (w' : whole W) : Prop :=
  w' = w \/
  (ip_task (app w') = IInput /\ pending w' = [f] /\ submitted (app w') = submitted (app w) /\
   free_packet_buffer_queue (app w') <> []) \/
  submitted (app w) ++ [first_segment e f] `prefix_of` submitted (app w').

Lemma submitted_grows w w' : ip_step d e w w' -> submitted (app w) `prefix_of` submitted (app w').
Proof.
  intros S. assert (K : exists ev, sys_exec d (SLocal ev) (sys w) = Some (sys w')) by (destruct S; cbn [with_sys sys]; eauto).
  destruct K as [ev E]. destruct (sys_exec_app d _ _ _ E) as (_ & ev' & Es & ->).
  destruct (step_histories _ _ _ Es) as (_ & _ & [-> | (p & _ & ->)]); [reflexivity | now apply prefix_app_r].
Qed.

Lemma answering_step w b q f lw1 w1 w2 : whole_inv w -> whole_inv w1 ->
  ip_task (app w) = IWait -> ready_packet_buffer_queue (app w) = b :: q -> free_packet_buffer_queue (app w) <> [] ->
  run_call e (call_input b (packet_of (buff_at (app w) b))) (lw w) = Done tt lw1 -> new_frames (lw w) lw1 = [f] ->
  answering w f w1 -> ip_step d e w1 w2 -> answering w f w2.
Proof.
  intros H H1 Ew Er Ef R N A S. destruct A as [-> | [(Ei & Ep & Es & Ef') | A]].
  - assert (Nw : forall ev s', sys_exec d (SLocal ev) (sys w) = Some s' -> ev <> EFree /\ (forall p, ev <> EOutput p) /\ ev <> EInputReturn /\ ev <> ETimeoutsReturn).
    { intros ev s' E. apply ip_event_app in E as [E _]. repeat split; [intros -> | intros p -> | intros -> | intros ->]; cbn in E;
        unfold in_lwip, ip_input_return, ip_timeouts_return in E; rewrite Ew in E; discriminate. }
    destruct S as [b' q' s' lw' w E1 E2 E3 | f' fs s' w E1 E2 | s' w E | s' lw' w E1 E2 E3 E4 | s' w E1 E2];
      try (exfalso; match goal with E : sys_exec _ _ _ = _ |- _ => apply Nw in E as (F1 & F2 & F3 & F4) end; first [now apply F1 | now apply F3 | now apply F4 | now eapply F2]).
    assert (b' = b) as -> by congruence. rewrite R in E3. injection E3 as <-. right. left.
    apply ip_event_app in E2 as [E2 _]. rewrite (take_ready_run b q _ Ew Er) in E2. injection E2 as E2. cbn [sys pending]. rewrite <- E2.
    cbn. rewrite app_nil_r. auto.
  - destruct S as [b' q' s' lw' w1 E1 E2 E3 | f' fs s' w1 E1 E2 | s' w1 E | s' lw' w1 E1 E2 E3 E4 | s' w1 E1 E2]; cbn [with_sys sys].
    + apply ip_event_app in E2 as [E2 _]. destruct (take_ready_inv b' q' _ _ E1 E2) as (Ei' & _). congruence.
    + rewrite Ep in E1. injection E1 as <- <-. right. right. apply ip_event_app in E2 as [E2 _].
      destruct (output_enabled (app w1) f (whole_app w1 H1)) as (s2 & E3 & K); [unfold in_lwip; now rewrite Ei |].
      rewrite E3 in E2. injection E2 as E2. cbn [sys]. rewrite <- E2, (K Ef'), Es. reflexivity.
    + right. left. apply ip_event_app in E as [E _]. destruct (free_inv_app _ _ E) as (I1 & I2 & _). cbn [pending with_sys sys].
      cbn [step] in E. rewrite I1 in E. unfold enc28_pbuf_free in E. destruct (live (app w1)); [discriminate |].
      destruct (xQueueSend _ _) as [q' |] eqn:Eq; [| discriminate]. apply xQueueSend_inv in Eq as ->. injection E as E.
      rewrite I2, <- E. cbn. split; [exact Ei | split; [exact Ep | split; [exact Es |]]]. now destruct (free_packet_buffer_queue (app w1)).
    + congruence.
    + congruence.
  - right. right. etransitivity; [exact A | now apply submitted_grows].
Qed.

(** C8: A host that pings the application gets its answer into the queue for the device. Let the conditions of C1 hold,
    the IP task wait with a ping next in the ready queue, from a host whose Ethernet address has been heard within
    270 ticks, a packet buffer be free, and lwIP's allocations succeed. Then the IP task, which nothing interrupts
    before it waits again, comes to an end in whatever order it sends and frees, and whenever it has, it has handed
    over the reply to that host, up to the end of its first buffer, right after what it had handed over before. *)
Theorem ping_is_answered w b q eth hdr m pad src mac i k : reached w -> undisturbed w ->
  ip_task (app w) = IWait -> ready_packet_buffer_queue (app w) = b :: q -> packet_of (buff_at (app w) b) = eth ++ hdr ++ m ++ pad ->
  free_packet_buffer_queue (app w) <> [] ->
  ping_frame (interface e) (e_rx_addr e b) (e_ifc e) eth hdr m src ->
  next_hop (interface e (e_ifc e)) src = Some src -> (forall k, e_alloc e k = true) -> 0 <= k < 270 ->
  arp_table (arp_state (net (world (lw w)))) !! i = Some (mk_entry None src (e_ifc e) mac k ETHARP_STATE_STABLE) ->
  sn (ip_step d e) w /\
  exists hdr' m', reply_to hdr m src ENC28_IP_ADDR hdr' m' /\
    forall w', rtc (ip_step d e) w w' -> nf (ip_step d e) w' ->
      submitted (app w) ++ [first_segment e (frame mac (hwaddr (interface e (e_ifc e))) ETHTYPE_IP (hdr' ++ m'))]
        `prefix_of` submitted (app w').
Proof.
  intros H Q Ew Er Ep Ef Hf Hh Ha Hk E. apply whole_reachable_inv in H; [| exact Q]. split; [apply ip_steps_end |].
  destruct (ping_call b eth hdr m pad src mac i k (lw w) (lwip_ok_inv _ _ _ _ (wi_lwip w H)) Hf Hh Ha Hk E) as (lw1 & hdr' & m' & R & Hr & N).
  exists hdr', m'. split; [exact Hr |]. set (f := frame mac _ _ _) in *. rewrite <- Ep in R. intros w' S Hn.
  assert (A : answering w f w').
  { clear Hn. refine (rtc_ind_r (R := ip_step d e) (answering w f) w _ _ w' S); [now left |]. intros w1 w2 S1 S2 A.
    destruct (ip_steps_inv w w1 H S1) as (H1 & _). now apply (answering_step w b q f lw1 w1). }
  destruct (ip_steps_final w w' H S Hn) as (F1 & F2 & F3).
  destruct A as [-> | [(_ & A & _) | A]]; [congruence | congruence | exact A].
Qed.
End Whole.
