(* ===== verification/WholeExample.v ===== *)
(** A run of the whole on the simulated device, step by step and executable: a host on the network asks for the address of the
    application and pings it. Then instances of the theorems about [Host] and [Whole]. *)
From Stdlib Require Import ZArith Lia Bool Relations.
From stdpp Require Import base decidable list gmap sorting.
From S2P Require Import Prelude Enc28Regs Enc28Driver Enc28Device Enc28Spec Enc28Hoare Enc28Receive Enc28Sim.
From S2P Require Import App AppTyping System SystemProofs.
From S2P Require Import Netif NetifProofs Etharp EtharpTable EtharpProofs EtharpInput Ip4 Ip4Proofs Ip4Session LinkFrames.
From S2P Require Import Timeouts TimeoutsProofs Host Whole WholeProofs.

(** * An environment *)

(** Memory is always available, frames are sent in one buffer, the tick is read at once; there is no UDP, TCP or reassembly. *)
Definition ex_env : environment :=
  mk_environment ex_ifc ex_stack ex_alloc (fun _ => 0) (fun _ => ex_rx) ex_tx (fun f => mk_pbuf f []) ex_upper ex_upper ex_reass ex_frag
    (ret tt) (ret tt) (fun _ => false).

Lemma ex_nothing : keeps_stack ex_env (ret tt) /\ spares_arp (ret tt).
Proof. split; [intros s sent H1 H2 | intros s]; now cbn. Qed.

Lemma ex_env_ok : env_ok ex_env.
Proof.
  split; try (apply ex_nothing).
  - discriminate.
  - intros n. cbn. lia.
  - intros f. cbn. rewrite app_nil_r. now split.
  - intros d p inp s H _. exact H.
  - intros d p inp s H _. exact H.
  - intros p s H. now split.
  - intros p netif dest s H _. exact H.
  - intros sent. split; intros; now apply safe_ret.
Qed.

(** * Executable steps *)

Inductive whole_event : Type :=
| WTask (ev : sys_event)
| WArrive (f : rx_frame)
| WInput | WOutput | WFree | WReturn | WTimeouts
| WTime (t : Z).

Definition after_call (c : lwip_call) (w : whole sim) (k : timers host -> option (whole sim)) : option (whole sim) :=
  match run_call ex_env c (lw w) with Done _ lw' => k lw' | _ => None end.

Definition wx_step (ev : whole_event) (w : whole sim) : option (whole sim) :=
  match ev with
  | WTask ev => if of_packet_task ev then s' ← sys_exec simulated ev (sys w); Some (with_sys s' w) else None
  | WArrive f => if (42 <=? length (fr_data f))%nat then s' ← sim_arrive f (sys w); Some (with_sys s' w) else None
  | WInput =>
    match ready_packet_buffer_queue (sys_app (sys w)) with
    | [] => None
    | b :: _ => s' ← sys_exec simulated (SLocal ETakeReady) (sys w);
                after_call (call_input b (packet_of (buff_at (sys_app (sys w)) b))) w (fun lw' =>
                  Some (mk_whole s' lw' (new_frames (lw w) lw') (checked_at w)))
    end
  | WOutput =>
    match pending w with
    | [] => None
    | f :: fs => s' ← sys_exec simulated (SLocal (EOutput (e_segments ex_env f))) (sys w);
                 Some (mk_whole s' (lw w) fs (checked_at w))
    end
  | WFree => s' ← sys_exec simulated (SLocal EFree) (sys w); Some (with_sys s' w)
  | WReturn =>
    if (length (pending w) =? 0)%nat && ((live (sys_app (sys w)) =? 0)%nat || may_keep (sys_app (sys w))) then
      s' ← sys_exec simulated (SLocal EInputReturn) (sys w);
      after_call call_check w (fun lw' => Some (mk_whole s' lw' (new_frames (lw w) lw') (uptime (world (lw w)))))
    else None
  | WTimeouts =>
    if (length (pending w) =? 0)%nat then s' ← sys_exec simulated (SLocal ETimeoutsReturn) (sys w); Some (with_sys s' w) else None
  | WTime t =>
    if (0 <=? t) && (uptime (world (lw w)) + t <=? checked_at w + 900000000)
    then Some (mk_whole (sys w) (pass t (lw w)) (pending w) (checked_at w)) else None
  end.

Fixpoint wx_run (evs : list whole_event) (w : whole sim) : option (whole sim) :=
  match evs with [] => Some w | ev :: evs' => wx_step ev w ≫= wx_run evs' end.

#[local] Abbreviation step := (whole_step simulated ex_env).

Lemma no_frames (l : list (list Z)) : (length l =? 0)%nat = true -> l = [].
Proof. now destruct l. Qed.

#[local] Ltac next E H := match type of E with (?x ≫= _) = _ => destruct x eqn:H; [| discriminate E] end; cbn [mbind option_bind] in E.

Lemma after_call_inv c w k w' : after_call c w k = Some w' -> exists lw', run_call ex_env c (lw w) = Done tt lw' /\ k lw' = Some w'.
Proof. unfold after_call. intros E. destruct (run_call ex_env c (lw w)) as [[] lw' | | |]; try discriminate. eauto. Qed.

Lemma wx_step_ok ev w w' : wx_step ev w = Some w' -> step w w'.
Proof.
  destruct ev as [ev | f | | | | | | t]; unfold wx_step; intros E.
  - destruct (of_packet_task ev) eqn:Ep; [| discriminate]. next E H. injection E as <-. now apply ws_task with ev.
  - destruct (Nat.leb_spec 42 (length (fr_data f))) as [L |]; [| discriminate]. next E H. injection E as <-.
    apply sim_arrive_ok in H as (x & F & ->). now apply ws_arrives.
  - destruct (ready_packet_buffer_queue (sys_app (sys w))) as [| b q] eqn:Er; [discriminate |]. next E H.
    apply after_call_inv in E as (lw' & R & E). injection E as <-. now apply ws_ip, is_input with b q.
  - destruct (pending w) as [| f fs] eqn:Ep; [discriminate |]. next E H. injection E as <-. now apply ws_ip, is_output with f.
  - next E H. injection E as <-. now apply ws_ip, is_free.
  - destruct (_ && _) eqn:Eb; [| discriminate]. apply andb_true_iff in Eb as [B1 B2]. next E H.
    apply after_call_inv in E as (lw' & R & E). injection E as <-. apply ws_ip, is_return; auto; [now apply no_frames |].
    apply orb_true_iff in B2 as [B2 | B2]; [left; now apply Nat.eqb_eq | now right].
  - destruct (length (pending w) =? 0)%nat eqn:B1; [| discriminate]. next E H. injection E as <-. apply ws_ip, is_timeouts; [now apply no_frames | exact H].
  - destruct (_ && _) eqn:Eb; [| discriminate]. apply andb_true_iff in Eb as [B1 B2]. apply Z.leb_le in B1, B2. injection E as <-.
    now apply ws_time.
Qed.

(** * The run *)

(** lwIP is initialised when the system has run for half a second. *)
Definition ex_timers : timers host :=
  match lwip_boot ex_env 500 with Done _ s => s | _ => timers_reset (mk_host (mk_stack arp_reset 0) 500 0) end.
Definition ex_whole : whole sim := mk_whole ex_system ex_timers [] 500.

Lemma ex_whole_start : whole_start simulated ex_env [] 500 ex_timers ex_whole.
Proof.
  split; [exact ex_system_start | vm_compute; reflexivity | reflexivity | reflexivity | reflexivity].
Qed.

Lemma wx_run_reachable evs : forall w w', whole_reachable simulated ex_env [] 500 ex_timers w -> wx_run evs w = Some w' ->
  whole_reachable simulated ex_env [] 500 ex_timers w'.
Proof.
  induction evs as [| ev evs IH]; intros w w' H E; cbn in E; [now injection E as <- |].
  destruct (wx_step ev w) as [w1 |] eqn:E1; [| discriminate]. apply (IH w1); [| exact E].
  apply whole_reach_step with w; [exact H | now apply wx_step_ok with ev].
Qed.

(** The frames of the host: a broadcast that asks for 192.168.0.22, and the ping, each padded to 60 bytes. *)
Definition ask_frame : rx_frame :=
  mk_rx_frame 2066 0x80 0 (repeat 0xFF 6 ++ ex_mac ++ [8; 6] ++ etharp_hdr ARP_REQUEST ex_mac ex_peer ethzero ENC28_IP_ADDR ++ repeat 0 18).
Definition ping_data : list Z := ex_eth [8; 0] ++ ex_header 1 ++ ex_echo ++ repeat 0 14.
Definition ping_received : rx_frame := mk_rx_frame 2132 0x80 0 ping_data.

Definition hand_over : list whole_event := [WTask SRead; WTask (SLocal ETakeFree); WTask (SLocal EPushReady)].
Definition serve : list whole_event := [WInput; WFree; WOutput; WReturn; WTimeouts].
Definition send : list whole_event := [WTask SRead; WTask (SLocal ETakeTransmit); WTask SWrite; WTask (SLocal ENotified)].

Definition until_ping : list whole_event :=
  repeat (WTask (SLocal EInit)) 9 ++ [WTime 4000; WArrive ask_frame] ++ hand_over ++ serve ++ send ++
  [WTime 20000; WArrive ping_received] ++ hand_over.

Definition state_of (evs : list whole_event) : whole sim := default ex_whole (wx_run evs ex_whole).
Definition ex_pinged : whole sim := state_of until_ping.
Definition ex_served : whole sim := state_of (until_ping ++ serve ++ send).

Lemma state_of_reachable evs : match wx_run evs ex_whole with Some _ => true | None => false end = true ->
  whole_reachable simulated ex_env [] 500 ex_timers (state_of evs).
Proof.
  intros H. unfold state_of. destruct (wx_run evs ex_whole) as [w |] eqn:E; [| discriminate]. apply (wx_run_reachable evs ex_whole); [| exact E]. apply whole_reach_start, ex_whole_start.
Qed.

Lemma ex_pinged_reachable : whole_reachable simulated ex_env [] 500 ex_timers ex_pinged.
Proof. apply state_of_reachable. vm_compute. reflexivity. Qed.

Lemma ex_served_reachable : whole_reachable simulated ex_env [] 500 ex_timers ex_served.
Proof. apply state_of_reachable. vm_compute. reflexivity. Qed.

(** What the device has sent in the end: the answer to the request, and the reply to the ping, each with its extra byte. *)
Example served_on_the_wire :
  whole_reachable simulated ex_env [] 500 ex_timers ex_served /\
  delivered (sys_app (sys ex_served)) = [fr_data ask_frame; ping_data] /\
  exists reply, reply = frame ex_mac [0xDE; 0xAD; 0xBE; 0xEF; 0xCC; 0xAA] ETHTYPE_IP
      ([0x45; 0; 0; 32; 0; 0; 0; 0; 255; 1; 0x3A; 0x75; 192; 168; 0; 22; 192; 168; 0; 1] ++
       [0; 0; 0x9B; 0x97; 0; 1; 0; 1; 0x31; 0x32; 0x33; 0x34]) /\
    sent (sim_chip (Enc28Driver.world (sys_drv (sys ex_served)))) =
      [arp_frame ex_mac [0xDE; 0xAD; 0xBE; 0xEF; 0xCC; 0xAA] ARP_REPLY [0xDE; 0xAD; 0xBE; 0xEF; 0xCC; 0xAA] ENC28_IP_ADDR
         ex_mac ex_peer ++ [0]; reply ++ [0]].
Proof.
  split; [exact ex_served_reachable | split; [vm_compute; reflexivity |]].
  eexists. split; [reflexivity | vm_compute; reflexivity].
Qed.

Definition undisturbed_b (w : whole sim) : bool :=
  (receive_errors (sys w) =? 0)%nat && forallb (fun f => negb (fragment (fr_data f))) (frames (sys w)).

Lemma undisturbed_check w : undisturbed_b w = true -> undisturbed w.
Proof.
  unfold undisturbed_b. intros [H1 H2]%andb_true_iff. split; [now apply Nat.eqb_eq |].
  rewrite forallb_forall in H2. apply Forall_forall. intros f Hf. apply negb_true_iff, H2. now apply list_elem_of_In.
Qed.

Lemma ex_pinged_undisturbed : undisturbed ex_pinged.
Proof. apply undisturbed_check. vm_compute. reflexivity. Qed.

(** * Instances *)

Lemma whole_system_refines_witness : exists c outs cs packets,
  run_calls ex_env cs ex_timers = Done tt (lw ex_served) /\
  inputs cs `prefix_of` [fr_data ask_frame; ping_data] /\ packets `sublist_of` lwip_sent (lw ex_served) /\
  length (lwip_sent (lw ex_served)) = 2%nat /\ Forall2 carries packets outs /\ is_chip (d := simulated) c (sys_drv (sys ex_served)) /\
  sent c = outs.
Proof.
  destruct (whole_system_refines simulated ex_env ex_env_ok [] 500 ex_timers ex_served ex_served_reachable)
    as (c & outs & cs & packets & R & I & S & F & C & O); [apply undisturbed_check; vm_compute; reflexivity |].
  exists c, outs, cs, packets. split; [exact R | split; [| split; [| split; [vm_compute; reflexivity | auto]]]].
  - assert (E : fr_data <$> frames (sys ex_served) = [fr_data ask_frame; ping_data]) by (vm_compute; reflexivity).
    rewrite <- E. exact I.
  - assert (E : first_segment ex_env <$> lwip_sent (lw ex_served) = lwip_sent (lw ex_served)) by (vm_compute; reflexivity).
    rewrite <- E. exact S.
Defined.

Lemma ip_task_drains_witness :
  sn (ip_step simulated ex_env) ex_pinged /\
  forall w', rtc (ip_step simulated ex_env) ex_pinged w' -> nf (ip_step simulated ex_env) w' ->
    delivered (sys_app (sys w')) = [fr_data ask_frame; ping_data].
Proof.
  destruct (ip_task_drains simulated ex_env ex_env_ok [] 500 ex_timers ex_pinged ex_pinged_reachable ex_pinged_undisturbed) as [T D].
  split; [exact T |]. intros w' S N. destruct (D w' S) as [_ D']. destruct (D' N) as (_ & _ & _ & E). rewrite E. vm_compute. reflexivity.
Defined.

Lemma ping_is_answered_witness : sn (ip_step simulated ex_env) ex_pinged /\
  exists hdr' m', reply_to (ex_header 1) ex_echo ex_peer ENC28_IP_ADDR hdr' m' /\
    forall w', rtc (ip_step simulated ex_env) ex_pinged w' -> nf (ip_step simulated ex_env) w' ->
      submitted (sys_app (sys ex_pinged)) ++ [frame ex_mac (hwaddr (interface ex_env ex_ifc)) ETHTYPE_IP (hdr' ++ m')]
        `prefix_of` submitted (sys_app (sys w')).
Proof.
  assert (P : ping_frame (interface ex_env) ex_rx ex_ifc (ex_eth [8; 0]) (ex_header 1) ex_echo ex_peer).
  { destruct ex_ping as [A1 A2 A3 A4 A5 A6 A7]. split; [exact A1 | exact A2 | exact A3 | exact A4 | exact A5 | exact A6 | exact A7]. }
  assert (E : ip_task (sys_app (sys ex_pinged)) = IWait /\ ready_packet_buffer_queue (sys_app (sys ex_pinged)) = [2%nat] /\
    packet_of (buff_at (sys_app (sys ex_pinged)) 2) = ping_data /\
    free_packet_buffer_queue (sys_app (sys ex_pinged)) = [3; 4; 5; 6; 7; 0; 1]%nat /\
    arp_table (arp_state (net (Timeouts.world (lw ex_pinged)))) !! 0%nat =
      Some (mk_entry None ex_peer ex_ifc ex_mac 1 ETHARP_STATE_STABLE)) by (vm_compute; auto 10).
  destruct E as (E1 & E2 & E3 & E4 & E5).
  assert (E4' : free_packet_buffer_queue (sys_app (sys ex_pinged)) <> []) by (rewrite E4; discriminate).
  exact (ping_is_answered simulated ex_env ex_env_ok [] 500 ex_timers ex_pinged 2 [] (ex_eth [8; 0]) (ex_header 1) ex_echo (repeat 0 14)
    ex_peer ex_mac 0 1 ex_pinged_reachable ex_pinged_undisturbed E1 E2 E3 E4' P eq_refl (fun _ => eq_refl) (conj (Z.le_0_1) eq_refl) E5).
Defined.

(** In the run the application waits for 20 seconds between the two frames. *)
Lemma arp_ages_once_witness :
  uptime (Timeouts.world (lw ex_pinged)) = 24500 /\
  returns (lwip_check ex_env) (lw ex_pinged) (fun _ s' =>
    table_of (Timeouts.world s') = aged <$> table_of (Timeouts.world (lw ex_pinged))).
Proof.
  assert (U : uptime (Timeouts.world (lw ex_pinged)) = 24500) by (vm_compute; reflexivity). split; [exact U |].
  set (ts := [mk_timer 5500 (cyclic 1); mk_timer 5500 (cyclic 2)]).
  destruct (whole_reachable_inv simulated ex_env ex_env_ok [] 500 ex_timers _ ex_pinged_reachable ex_pinged_undisturbed)
    as [_ [(ts' & H & _) _] _ _ _ _ _].
  pose proof (tk_world _ _ _ _ _ _ H) as Hw.
  apply (arp_ages_once ex_env ex_env_ok [] (lw ex_pinged) ts 5500); try apply ex_nothing.
  - split; [vm_compute; reflexivity | | | vm_compute; reflexivity | | exact Hw].
    + repeat constructor; unfold due_le; cbn; lia.
    + vm_compute. constructor. constructor. constructor.
    + change (now_of _ _ _ _ _) with (uptime (Timeouts.world (lw ex_pinged))). rewrite U. repeat constructor; cbn; lia.
  - rewrite U. repeat constructor; cbn; lia.
  - right. left.
  - rewrite U. lia.
Defined.
