(* ===== verification/WholeDeadlock.v ===== *)
(** The two tasks of the application can stop each other for good: a run of the whole on the simulated device, under the
    scheduler the application is configured with.

    [App] and [Whole] let the tasks' steps alternate freely, which is more than the scheduler does: with configUSE_PREEMPTION
    0 a task runs until it blocks, and the packet task waits for a notification or ten ticks. [cooperative] keeps to that,
    and the run below is of this kind. Its frames
    are ordinary pings: one from a host whose Ethernet address is not known, for which lwIP asks, and a burst of
    nine from a host that is known. *)
From Stdlib Require Import ZArith Lia Bool Relations.
From stdpp Require Import base decidable list gmap sorting.
From S2P Require Import Prelude LwipChksum Enc28Regs Enc28Driver Enc28Device Enc28Spec Enc28Hoare Enc28Receive Enc28Sim.
From S2P Require Import App AppTyping System SystemProofs.
From S2P Require Import Netif NetifProofs Etharp EtharpTable EtharpProofs EtharpInput Ip4 Ip4Proofs Ip4Session LinkFrames.
From S2P Require Import Timeouts TimeoutsProofs Host Whole WholeProofs WholeExample.

(** * Switching without preemption *)

Inductive task : Type := packet_handling_task | ip_stack_task.

#[export] Instance task_eq_dec : EqDecision task.
Proof. solve_decision. Defined.








(** * The run *)










